(* ===== verification/_CoqProject ===== *)
-Q . S2P
Prelude.v
CppString.v
Wire.v
SocketIo.v
Health.v
History.v
TrafficStats.v
Registry.v
Base64.v
Trust.v
Upgrade.v
IpRange.v
Auth.v
WireLoop.v
WebSocket.v
WsHandshake.v
Worker.v
FileLog.v
HttpUtil.v
TlsConnect.v
Json.v
Cbor.v
Base64Url.v
Passkeys.v
Updater.v
UpdaterWin.v
WebAuthn.v
Ceremony.v
RateLimit.v
ClientCtrl.v
RemoteLogs.v
WebGate.v
UpdateDir.v
Push.v
Delivery.v
Summary.v
SummaryJson.v
SiwaStore.v
Hidden.v
AdminViews.v
Siwa.v
Binary32.v
FlowAggregator.v
Config.v
Sender.v
Zlib.v
EndToEnd.v
Sniffer.v
SnifferThread.v
WinService.v
Platform.v
Announce.v
Accept.v
ServerTls.v
Startup.v
