(* ===== verification/Prelude.v ===== *)
(** * Network traffic monitor: a verification development

    The program under [src/src/] has two halves. A client captures packets on a
    Linux or Windows host, sums them into flows, and reports the flows to a
    server over TLS, either raw or inside a WebSocket. The server keeps
    per-day statistics and per-client history, serves a web dashboard behind
    passkey sessions, distributes signed client binaries, and accepts signed
    replacements of itself. This library models the logic of both halves as
    executable functions and proves what makes it correct.

    ** Conventions

    - Program strings and byte buffers are [str], that is [list ascii]; a
      machine integer is a [Z] with its wrap-around written out ([u8], [u32],
      [u64], and [s32] where the code computes in [int]).
    - Fallible code returns [option] or [result]; C++ undefined behaviour is
      an explicit outcome, never a total value.
    - An [unordered_map] or [map] is a [gmap]; where the code traverses one and
      the order shows, the order is a parameter. Parallel vectors and deques
      are lists.
    - Every critical section of the code is one function on the state it
      guards, so a run is a list of operations; clock readings, random bytes,
      results of system calls and bytes received are arguments.
    - Code that is not in the repository is a type class of parameters with
      its documented laws in a second class: OpenSSL ([Trust.Crypto],
      [WebAuthn.P256], [Updater.Sha256], [ClientCtrl.EvpBase64], ...), zlib,
      [inet_pton] ([Wire.Inet]), [std::hash] and hash-table order
      ([TrafficStats.StdHash]). Each law class is shown satisfiable by the
      concrete instance a witness uses.
    - Recursion that is not structural has fuel computed from its input; the
      comment at each such definition says why it is enough (every round drops
      a byte of the buffer, or a level of a bounded nesting), and the
      functional theorems, which reach the result, prove it.
    - The line [(* file.hpp:first-last symbol *)] before a definition names the
      code it translates.

    ** Files

    Foundations
    - [Prelude]: machine integers, bytes, [result], sums over maps, reachability
      of a step function with the invariant rule, the hint databases.
    - [CppString]: [find], [rfind], [substr], [getline], [to_string], [strtoull]
      and the other operations of the standard library the code uses.
    - [HttpUtil], [Json]: URL, response and JSON field readers and writers of
      client and dashboard; a JSON grammar the written texts are read by.

    Wire protocol
    - [Wire]: [proto_client_server.hpp]: ALPN selection, the D-line parser,
      the private-address filters of client and server.
    - [Health]: the H-line the client composes ([client_impl.cpp]) and the
      parser of [ntm_types.hpp].
    - [Binary32]: [float] arithmetic with round-to-nearest-even and its error
      bounds.
    - [FlowAggregator]: [flow_aggregator.hpp]: flow table and the adaptive flush
      interval in binary32, with the two users in [client_impl.cpp].
    - [Zlib]: [zlib_stream.hpp]: the feed loops over calls of zlib.
    - [WebSocket], [WsHandshake]: [client_websocket.hpp],
      [client_transport_websocket.cpp] and the server's counterpart in
      [server_core.cpp]: frame builder, frame readers, byte streams over a
      sequence of TLS reads, and the upgrade handshake.
    - [TlsConnect]: the client's TCP connects, its TLS context, the check of the
      server's certificate ([client_core.cpp]), the transport of
      [client_transport_tcptls.cpp] and the updater's connection, over a ledger
      of open sockets and TLS objects; [ServerTls]: the server's context and
      protocol callback; [SocketIo]: the exact reads and writes of the client
      and the exact write of the server.
    - [Auth]: both sides of the Ed25519 exchange, the allow list, registration.
    - [WireLoop]: the server's session: one round of the receive loop over D-,
      H-, A-, L- and X-lines, refresh, rate limit, session start and end.
    - [Worker]: the threads of [server_core.cpp] that take a connection from
      its TLS session through upgrade, authentication and session to its end.

    The client
    - [Config]: [client_config_parse.hpp] and the server's configuration file.
    - [Startup]: command lines, self-verification and start conditions of both
      programs.
    - [Sniffer], [SnifferThread]: capture in [client_impl.cpp]: the frame
      handler, the devices and the running sniffers; the capture thread and
      [stop] in every interleaving.
    - [Platform]: [client_linux.cpp], [client_windows.cpp]: addresses of the
      machine, the external address, network changes, key file permissions,
      log directories; [Announce]: from the interfaces to the server's register;
      [WinService]: the Windows service of [client_windows_service.cpp].
    - [Sender]: [senderLoop] of [client_impl.cpp]: connecting, announcing,
      flushing flows, health reports, control commands and reconnection, one
      function per stage and one for a round.
    - [EndToEnd]: everything the client writes in a connection against the
      server's receive loop.

    Server state
    - [TrafficStats], [History], [Registry]: the shared objects of
      [ntm_types.hpp].
    - [IpRange]: [ip_range_resolver.hpp]: the address table, look-ups and refresh.
    - [RateLimit]: the two admission limiters; [Accept]: the accept loop, the
      routing of connections to workers and the order in which workers give
      back what they hold.

    Signed binaries
    - [Base64], [Trust]: [trust.hpp], [server_signing.hpp]: strict base64,
      delegations, bundles, the two-tier verification and its policies.
    - [Upgrade]: [server_upgrade.hpp]: versions, nonces, the authorisation
      signature, atomic replacement of the server binary.
    - [Updater], [UpdaterWin]: [updater.cpp]: the client's check, download,
      verify and apply cycle, and the swap of the executable on Windows.
    - [UpdateDir]: [client_push.hpp] and [web_dashboard.cpp]: the directory of
      published client binaries, its scan, the check and download endpoints.
    - [Push]: the nonce and upload endpoints for server and clients, the update
      order to one client and its watchdog.
    - [Delivery]: the endpoints of [UpdateDir] against the client of [Updater].

    Client management
    - [FileLog]: [client_filelog.cpp]: daily log files on the client.
    - [ClientCtrl]: the client's side of the control channel
      ([client_impl.cpp], [processCtrlLine]).
    - [RemoteLogs]: the dashboard's side ([web_dashboard.cpp]), with the routing
      of [Registry] between them.

    Web access
    - [Cbor], [Base64Url], [Passkeys], [WebAuthn], [Ceremony]: [webauthn.cpp]:
      the parsers, the credential file, the relying party and its sessions,
      and the ceremonies end to end with an authenticator.
    - [WebGate]: [web_auth.hpp] and the gate and session endpoints of
      [web_dashboard.cpp].
    - [SiwaStore], [Siwa]: [siwa.hpp], [siwa.cpp]: sign-in with Apple: readers,
      administrator records, key cache, validation and the three endpoints.
    - [Summary], [SummaryJson]: the dashboard's summary: classes, groups, sorting
      and truncation of flows, and its JSON text; [Hidden]: hidden clients and
      interfaces and their file; [AdminViews]: history, monitors, client list,
      client configuration, purge.

    A connection passes [TlsConnect], [ServerTls] and [Accept] to a [Worker],
    which runs [WsHandshake] and [Auth] and then [WireLoop]; the bytes are those
    of [Sender] through [Zlib] and, for a WebSocket, [WebSocket]; the sessions
    write [TrafficStats] and [Registry], which the web side reads.

    ** What the theorems show

    - The way of a flow: no frame is read past its captured bytes and each
      counts its wire length ([Sniffer]); the server parses at most the captured
      bytes of every flow, and exactly those while no round loses its connection
      ([Sender]); the session handles exactly the lines of the received stream
      however it is cut ([WireLoop]) and exactly the lines the client writes,
      however compressed ([EndToEnd]); an accepted packet adds exactly itself
      and the stored statistics keep their caps ([TrafficStats]); a row of the
      summary is the sum of its flows ([Summary]).
    - Connections: a TLS session is with a server whose certificate was checked,
      and a failed attempt leaves nothing open ([TlsConnect]); a peer without a
      listed key changes nothing but the list of rejections, a client changes
      only what is filed under its own identity and the addresses it claims,
      and a WebSocket connection has exactly the effect of a TCP connection
      that carries the contents of its frames ([Worker]); the counts of the
      accept loop are those of the connections served in every interleaving,
      each by the worker of the protocol it speaks ([Accept]); a client without
      a connection tries at its interval and gives up at its limit ([Sender]);
      an announcement means to the server what the client measured ([Announce]);
      stopping a capture is safe, for which the lock is needed, and ends
      ([SnifferThread]); the flush interval grows to just below its configured
      maximum while a client idles ([FlowAggregator]).
    - What one side writes the other reads back: D-lines, H-lines, WebSocket
      frames and handshakes, CBOR, base64 and base64url, delegations and
      bundles, the credential file and the file of hidden entities, a log file
      fetched over the control channel, the summary as JSON.
    - A binary is accepted exactly when the threshold of distinct root keys,
      the expiry, the rollback floor, the scope and the binary's signature hold
      ([Trust]); an update installs only such a binary and reports each stage
      once ([Updater]); the update directory always lists the newest verified
      binaries, a push changes it only with a proof, and what is pushed reaches
      a client ([UpdateDir], [Push], [Delivery]); the server replaces itself
      only atomically and a nonce authorises one push ([Upgrade]).
    - Both programs run only as verified programs with settings in their ranges
      and the server only behind TLS ([Startup], [Config]).
    - Authentication succeeds only with a signature over the session's own
      challenge, for Ed25519 clients ([Auth]) and for passkeys ([Ceremony]);
      a sign-in token is used once and an administrator record belongs to one
      subject ([Siwa], [SiwaStore]); the session table, the limiters and the
      gate equal their plain specifications ([WebAuthn], [RateLimit],
      [WebGate]). The summary is what a dashboard that hides nothing would
      show over a store without the hidden clients and interfaces, down to the
      names of hidden peers in the flows of others ([Summary]); hiding survives
      a restart when its file was written whole ([Hidden]).
    - What a disk can do to files whose writing is not checked to the end is
      part of the claims: the replaced server binary ([Upgrade]), the address
      table ([IpRange]), the file of hidden entities ([Hidden]), the client's
      log ([FileLog]) hold a beginning of what was meant; a download that fails
      leaves only what the claim names ([Updater]).
    - Boundary behaviour that differs from the stated intent is proved too, in
      lemmas that say so: a dropped [update_now] command, an overflow path with
      dangling references, a log download that ends early, an unchecked parse of
      authenticator data, an unescaped label, an external address that carries
      further lines, a rollback with undefined behaviour.

    ** Bounds

    The capacities are the code's own (shard count 16, 1440 minute and 168
    hour slots, 64 KiB reads, 2 MiB frames, 64 announced addresses, 1000 demo
    tokens, and so on) and are written at the definitions. Sums that the code
    guards with [wouldOverflow] are compared against [UINT64_MAX]; [float] is
    binary32 with round-to-nearest-even.

    ** Not modelled

    - [httplib.h], a vendored HTTP library: requests reach the handlers parsed,
      answers are the handlers' results. [trust_roots.hpp] holds constant keys;
      the root set is an argument.
    - Of the operating system: options of sockets, signals, daemonisation, the
      set-up of the netlink and notification watches, the loading of the
      Windows certificate store and the optional Authenticode check. Threads are sequences or
      interleavings of critical sections; data races below that granularity and
      C++ exceptions, where no comment says otherwise, are out of scope.
    - The texts of log lines, [statsPrinterThread] and the keyboard watcher of
      [server_core.cpp], and the demo data of the dashboard: output only.
    - The pages and scripts embedded in [web_dashboard.cpp], the Swift
      application and the build files: other languages. *)

From Stdlib Require Export ZArith Lia Ascii.
From stdpp Require Export tactics base numbers option strings gmap list.

(** String literals are [string]s; program strings and byte buffers are
    [list ascii], and a literal is turned into one by a coercion, so the
    whole list library applies to them. *)
Coercion list_ascii_of_string := String.list_ascii_of_string.
Global Open Scope string_scope.
Global Open Scope list_scope.
Global Open Scope Z_scope.

(** A C++ [std::string], [std::string_view] or [std::vector<std::uint8_t>]:
    a finite sequence of 8-bit units. *)
Abbreviation str := (list ascii).

Declare Scope ntm_scope.
Delimit Scope ntm_scope with ntm.

(** ** Machine integers *)

(** Wrap-around to 32 and 64 bits: the conversion of a value to
    [std::uint32_t], [std::uint64_t]. *)
Definition u8 (z : Z) : Z := z mod 2 ^ 8.
Definition u32 (z : Z) : Z := z mod 2 ^ 32.
Definition u64 (z : Z) : Z := z mod 2 ^ 64.

(** [UINT32_MAX], [UINT64_MAX], [INT64_MAX]. *)
Definition UINT32_MAX : Z := 2 ^ 32 - 1.
Definition UINT64_MAX : Z := 2 ^ 64 - 1.
Definition INT64_MAX : Z := 2 ^ 63 - 1.

(** [std::clamp(v, lo, hi)] as libstdc++ evaluates it: undefined behaviour
    by the standard when [hi < lo], so callers are checked for [lo <= hi]. *)
Definition clamp (v lo hi : Z) : Z :=
  if v <? lo then lo else if hi <? v then hi else v.

(** ** Files *)

(** What a file holds of bytes whose writing was reported as complete: all of
    them, or, when nobody looks at the results of the flush and the closing,
    perhaps only the first [n]. *)
Inductive Flushed := AllStored | OnlyStored (n : nat).

Definition on_disk {A} (d : Flushed) (content : list A) : list A := match d with AllStored => content | OnlyStored n => take n content end.

(** ** Bytes *)

Definition byte_val (c : ascii) : Z := Z.of_N (N_of_ascii c).
Definition byte_of (z : Z) : ascii := ascii_of_N (Z.to_N (u8 z)).

(** ** Option notation: early return on failure *)
Notation "'let?' x ':=' a 'in' b" :=
  (match a with Some x => b | None => None end)
  (at level 10, x pattern, a at level 100, b at level 200).

(** ** Results: a value or an error message *)
Inductive result (A : Type) := Ok (a : A) | Err (msg : str).
Arguments Ok {A} a.
Arguments Err {A} msg.

Notation "'let!' x ':=' a 'in' b" :=
  (match a with Ok x => b | Err e => Err e end)
  (at level 10, x pattern, a at level 100, b at level 200).

(** [if (!o) { err = msg; return false; }]. *)
Definition or_err {A} (o : option A) (msg : str) : result A :=
  match o with Some a => Ok a | None => Err msg end.
Definition guard_err (b : bool) (msg : str) : result unit :=
  if b then Ok tt else Err msg.

(** ** Hint databases *)
Create HintDb ntm discriminated.
Create Rewrite HintDb ntm_rw.

(** ** Tactics *)

(** Case analysis on the innermost [match]/[if] scrutinee of the goal. *)
Ltac case_match_goal :=
  match goal with
  | |- context [ match ?x with _ => _ end ] =>
      lazymatch x with context [ match _ with _ => _ end ] => fail | _ => idtac end;
      let E := fresh "E" in destruct x eqn:E
  end.

(** Case analysis on the innermost scrutinee of a hypothesis. *)
Ltac case_match_hyp H :=
  match type of H with
  | context [ match ?x with _ => _ end ] =>
      lazymatch x with context [ match _ with _ => _ end ] => fail | _ => idtac end;
      let E := fresh "E" in destruct x eqn:E
  end.

(** Turn boolean comparisons in the context into propositions. *)
Ltac bool_to_prop :=
  repeat match goal with
  | H : (_ && _)%bool = true |- _ => apply andb_true_iff in H; destruct H
  | H : (_ || _)%bool = false |- _ => apply orb_false_iff in H; destruct H
  | H : negb _ = true |- _ => apply negb_true_iff in H
  | H : negb _ = false |- _ => apply negb_false_iff in H
  | H : (_ <? _) = true |- _ => apply Z.ltb_lt in H
  | H : (_ <? _) = false |- _ => apply Z.ltb_ge in H
  | H : (_ <=? _) = true |- _ => apply Z.leb_le in H
  | H : (_ <=? _) = false |- _ => apply Z.leb_gt in H
  | H : (_ =? _) = true |- _ => apply Z.eqb_eq in H
  | H : (_ =? _) = false |- _ => apply Z.eqb_neq in H
  | H : (_ <? _)%nat = true |- _ => apply Nat.ltb_lt in H
  | H : (_ <? _)%nat = false |- _ => apply Nat.ltb_ge in H
  | H : (_ <=? _)%nat = true |- _ => apply Nat.leb_le in H
  | H : (_ <=? _)%nat = false |- _ => apply Nat.leb_gt in H
  | H : (_ =? _)%nat = true |- _ => apply Nat.eqb_eq in H
  | H : (_ =? _)%nat = false |- _ => apply Nat.eqb_neq in H
  | H : bool_decide _ = true |- _ => apply bool_decide_eq_true in H
  | H : bool_decide _ = false |- _ => apply bool_decide_eq_false in H
  end.

(** [lia] with the machine limits unfolded. *)
Ltac ulia := unfold UINT32_MAX, UINT64_MAX, INT64_MAX in *; lia.

(** Split visible conjunctions only, without unfolding definitions. *)
Ltac split_conj := repeat match goal with |- _ /\ _ => split end.

(** ** Arithmetic lemmas *)

Lemma u8_range z : 0 <= u8 z < 256.
Proof. apply Z.mod_pos_bound. lia. Qed.

Lemma u32_range z : 0 <= u32 z < 2 ^ 32.
Proof. apply Z.mod_pos_bound. lia. Qed.

Lemma u64_range z : 0 <= u64 z < 2 ^ 64.
Proof. apply Z.mod_pos_bound. lia. Qed.

Lemma u8_small z : 0 <= z < 256 -> u8 z = z.
Proof. apply Z.mod_small. Qed.

Lemma u32_small z : 0 <= z < 2 ^ 32 -> u32 z = z.
Proof. apply Z.mod_small. Qed.

Lemma u64_small z : 0 <= z < 2 ^ 64 -> u64 z = z.
Proof. apply Z.mod_small. Qed.

Lemma u64_add_l a b : u64 (u64 a + b) = u64 (a + b).
Proof. unfold u64. apply Zplus_mod_idemp_l. Qed.

Lemma u64_add_r a b : u64 (a + u64 b) = u64 (a + b).
Proof. unfold u64. apply Zplus_mod_idemp_r. Qed.

Lemma clamp_range v lo hi : lo <= hi -> lo <= clamp v lo hi <= hi.
Proof. unfold clamp. intros. repeat case_match_goal; bool_to_prop; lia. Qed.

Lemma clamp_id v lo hi : lo <= v <= hi -> clamp v lo hi = v.
Proof. unfold clamp. intros. repeat case_match_goal; bool_to_prop; lia. Qed.

#[export] Hint Rewrite u64_add_l u64_add_r : ntm_rw.

(** ** Byte lemmas *)

Lemma byte_val_range c : 0 <= byte_val c < 256.
Proof. unfold byte_val. pose proof (N_ascii_bounded c). lia. Qed.

Lemma byte_of_val c : byte_of (byte_val c) = c.
Proof.
  unfold byte_of. rewrite u8_small by apply byte_val_range.
  unfold byte_val. by rewrite N2Z.id, ascii_N_embedding.
Qed.

Lemma byte_val_of z : byte_val (byte_of z) = u8 z.
Proof.
  unfold byte_of, byte_val. pose proof (u8_range z).
  rewrite N_ascii_embedding by lia. lia.
Qed.

Lemma byte_val_inj c d : byte_val c = byte_val d -> c = d.
Proof. intros H. by rewrite <- (byte_of_val c), <- (byte_of_val d), H. Qed.

#[export] Hint Resolve byte_val_range u8_range u32_range u64_range : ntm.

(** Masking with the high bits of a [w]-bit word rounds down to a multiple of
    [2 ^ k]: the network-prefix tests of the address filters. *)
Lemma land_high_mask a k w :
  0 <= k <= w -> 0 <= a < 2 ^ w ->
  Z.land a (2 ^ w - 2 ^ k) = a - a mod 2 ^ k.
Proof.
  intros Hk Ha.
  replace (2 ^ w - 2 ^ k) with (Z.shiftl (Z.ones (w - k)) k).
  2:{ rewrite Z.shiftl_mul_pow2, Z.ones_equiv by lia.
      rewrite Z.mul_pred_l, <- Z.pow_add_r by lia.
      replace (w - k + k) with w by lia. reflexivity. }
  replace (a - a mod 2 ^ k) with (Z.shiftl (Z.shiftr a k) k).
  2:{ rewrite Z.shiftl_mul_pow2, Z.shiftr_div_pow2 by lia.
      pose proof (Z.pow_pos_nonneg 2 k ltac:(lia) ltac:(lia)).
      pose proof (Z.div_mod a (2 ^ k) ltac:(lia)). lia. }
  apply Z.bits_inj'. intros n Hn.
  rewrite Z.land_spec, !Z.shiftl_spec by lia.
  destruct (Z.ltb_spec n k).
  - rewrite (Z.testbit_neg_r _ (n - k)) by lia. rewrite (Z.testbit_neg_r (Z.shiftr a k)) by lia.
    apply andb_false_r.
  - rewrite Z.shiftr_spec by lia. replace (n - k + k) with n by lia.
    destruct (Z.ltb_spec n w).
    + rewrite Z.ones_spec_low by lia. apply andb_true_r.
    + rewrite Z.ones_spec_high by lia. rewrite andb_false_r. symmetry.
      rewrite <- (Z.mod_small a (2 ^ w)) by lia. apply Z.mod_pow2_bits_high. lia.
Qed.

(** A prefix test is a range test. *)
Lemma prefix_test a m v k w :
  m = 2 ^ w - 2 ^ k -> v mod 2 ^ k = 0 -> 0 <= k <= w -> 0 <= a < 2 ^ w ->
  (Z.land a m =? v) = (v <=? a) && (a <? v + 2 ^ k).
Proof.
  intros -> Hv Hk Ha. rewrite land_high_mask by done.
  pose proof (Z.pow_pos_nonneg 2 k ltac:(lia) ltac:(lia)) as Hp.
  pose proof (Z.mod_pos_bound a (2 ^ k) Hp) as Hm.
  pose proof (Z.div_mod a (2 ^ k) ltac:(lia)) as Hda.
  pose proof (Z.div_mod v (2 ^ k) ltac:(lia)) as Hdv.
  apply Bool.eq_true_iff_eq. rewrite andb_true_iff, Z.eqb_eq, Z.leb_le, Z.ltb_lt.
  split; [lia|]. intros [H1 H2].
  assert (a / 2 ^ k = v / 2 ^ k); [|nia].
  assert (v / 2 ^ k <= a / 2 ^ k) by (apply Z.div_le_mono; lia).
  assert (a / 2 ^ k < v / 2 ^ k + 1) by (apply Z.div_lt_upper_bound; lia). lia.
Qed.

(** Joining a number below [2 ^ k] under a shifted one is addition. *)
Lemma lor_shiftl v w k : 0 <= k -> 0 <= w < 2 ^ k -> Z.lor (Z.shiftl v k) w = v * 2 ^ k + w.
Proof.
  intros Hk Hw. rewrite <- Z.shiftl_mul_pow2 by lia.
  assert (Hl : Z.land (Z.shiftl v k) w = 0).
  { apply Z.bits_inj'. intros n Hn. rewrite Z.land_spec, Z.bits_0, Z.shiftl_spec by lia.
    destruct (Z.ltb_spec n k).
    - by rewrite Z.testbit_neg_r by lia.
    - rewrite <- (Z.mod_small w (2 ^ k)) by lia. rewrite Z.mod_pow2_bits_high by lia.
      apply andb_false_r. }
  pose proof (Z.add_lor_land (Z.shiftl v k) w). lia.
Qed.

(** ** List lemmas *)

Lemma take_length_app {A} (l k : list A) n :
  length l = n -> take n (l ++ k) = l.
Proof. intros <-. apply take_app_length. Qed.

Lemma drop_length_app {A} (l k : list A) n :
  length l = n -> drop n (l ++ k) = k.
Proof. intros <-. apply drop_app_length. Qed.

Lemma forallb_Forall {A} (f : A -> bool) l :
  forallb f l = true <-> Forall (fun x => f x = true) l.
Proof. rewrite forallb_forall. by rewrite List.Forall_forall. Qed.

(** Any property of all bytes can be checked by enumeration. *)
Definition all_bytes : list ascii := ascii_of_nat <$> seq 0 256.

Lemma all_bytes_complete c : c ∈ all_bytes.
Proof.
  unfold all_bytes. apply list_elem_of_fmap. exists (nat_of_ascii c). split.
  - by rewrite ascii_nat_embedding.
  - apply elem_of_seq. pose proof (nat_ascii_bounded c). lia.
Qed.

Lemma byte_forall (f : ascii -> bool) :
  forallb f all_bytes = true -> forall c, f c = true.
Proof.
  rewrite forallb_forall. intros H c. apply H. apply list_elem_of_In, all_bytes_complete.
Qed.

(** ** Sums over finite maps *)

Definition msum {K} `{Countable K} {A} (g : A -> Z) (m : gmap K A) : Z :=
  map_fold (fun _ a acc => g a + acc) 0 m.

Section Msum.
Context {K : Type} `{Countable K} {A : Type} (g : A -> Z).
Implicit Types m : gmap K A.

Lemma msum_empty : msum g (∅ : gmap K A) = 0.
Proof. unfold msum. by rewrite map_fold_empty. Qed.

Lemma msum_insert_None m k a : m !! k = None -> msum g (<[k := a]> m) = g a + msum g m.
Proof.
  intros Hk. unfold msum.
  rewrite (map_fold_insert_L (fun _ a acc => g a + acc)); [done|intros; lia|done].
Qed.

Lemma msum_delete m k a : m !! k = Some a -> msum g m = g a + msum g (delete k m).
Proof.
  intros Hk. unfold msum.
  rewrite (map_fold_delete_L (fun _ a acc => g a + acc) 0 k a m); [done|intros; lia|done].
Qed.

Lemma msum_insert_Some m k a x : m !! k = Some x -> msum g (<[k := a]> m) = msum g m - g x + g a.
Proof.
  intros Hk. rewrite (msum_delete m k x Hk), <- insert_delete_eq.
  rewrite msum_insert_None by apply lookup_delete_eq. lia.
Qed.

Lemma msum_nonneg m : map_Forall (fun _ a => 0 <= g a) m -> 0 <= msum g m.
Proof.
  induction m as [|k a m Hk IH] using map_ind; intros Hm; [by rewrite msum_empty|].
  rewrite msum_insert_None by done. apply map_Forall_insert in Hm as [Ha Hm]; [|done].
  specialize (IH Hm). lia.
Qed.

Lemma msum_lookup_le m k a :
  map_Forall (fun _ a => 0 <= g a) m -> m !! k = Some a -> g a <= msum g m.
Proof.
  intros Hm Hk. rewrite (msum_delete m k a Hk).
  pose proof (msum_nonneg (delete k m) (map_Forall_delete _ _ _ Hm)). lia.
Qed.
End Msum.

(** ** Reachability: reflexive-transitive closure of a step relation *)
Section Reach.
Context {State : Type} (step : State -> State -> Prop).

Inductive reach (s : State) : State -> Prop :=
| reach_refl : reach s s
| reach_step t u : reach s t -> step t u -> reach s u.

Lemma reach_invariant (I : State -> Prop) (s : State) :
  I s -> (forall t u, I t -> step t u -> I u) -> forall t, reach s t -> I t.
Proof. intros Hs Hstep t Hr. induction Hr; eauto. Qed.
End Reach.
