(* ===== verification/CppString.v ===== *)
(** The operations of [std::string], [std::string_view] and the C number
    parsers that the program uses, on [str], with the lemmas the components
    share. Positions are [nat]; [npos] is [None]. *)

From Stdlib Require Sorting.Sorted.
From S2P Require Import Prelude.

(** ** Searching *)

(** [s.rfind(p, 0) == 0] and [s.compare(0, p.size(), p) == 0]. *)
Fixpoint starts_with (p s : str) : bool :=
  match p, s with
  | [], _ => true
  | c :: p', d :: s' => bool_decide (c = d) && starts_with p' s'
  | _ :: _, [] => false
  end.

(** [s.find(c)]. *)
Fixpoint find_char (c : ascii) (s : str) : option nat :=
  match s with
  | [] => None
  | d :: s' => if decide (d = c) then Some 0%nat else S <$> find_char c s'
  end.

(** [s.find(p)]. *)
Fixpoint find_str (p s : str) : option nat :=
  if starts_with p s then Some 0%nat
  else match s with
       | [] => None
       | _ :: s' => S <$> find_str p s'
       end.

(** [s.find(c, pos)], [s.find(p, pos)]. *)
Definition find_char_from (c : ascii) (s : str) (pos : nat) : option nat :=
  Nat.add pos <$> find_char c (drop pos s).
Definition find_str_from (p s : str) (pos : nat) : option nat :=
  if (length s <? pos)%nat then None else Nat.add pos <$> find_str p (drop pos s).

(** [s.rfind(c)]. *)
Definition rfind_char (c : ascii) (s : str) : option nat :=
  (fun i => (length s - 1 - i)%nat) <$> find_char c (rev s).

(** Position of the first byte for which [f] holds: [find_first_of],
    [find_first_not_of] and the hand-written scanning loops. *)
Fixpoint find_if (f : ascii -> bool) (s : str) : option nat :=
  match s with
  | [] => None
  | d :: s' => if f d then Some 0%nat else S <$> find_if f s'
  end.

(** [s.find(p) != npos]. *)
Definition contains_str (p s : str) : bool :=
  match find_str p s with Some _ => true | None => false end.
Definition contains_char (c : ascii) (s : str) : bool :=
  match find_char c s with Some _ => true | None => false end.

(** ** Cutting *)

(** [s.substr(pos, n)] and [s.substr(pos)] for [pos <= s.size()]. *)
Definition substr (s : str) (pos n : nat) : str := take n (drop pos s).
Definition substr_from (s : str) (pos : nat) : str := drop pos s.

(** [while (!s.empty() && f(s.front())) ++begin]. *)
Fixpoint trim_front (f : ascii -> bool) (s : str) : str :=
  match s with
  | [] => []
  | c :: s' => if f c then trim_front f s' else s
  end.

(** The longest prefix of bytes on which [f] holds, and the rest. *)
Fixpoint span (f : ascii -> bool) (s : str) : str * str :=
  match s with
  | [] => ([], [])
  | c :: s' => if f c then let (a, b) := span f s' in (c :: a, b) else ([], s)
  end.

(** [while (!s.empty() && f(s.back())) s.pop_back()]. *)
Definition trim_back (f : ascii -> bool) (s : str) : str :=
  rev (trim_front f (rev s)).

(** Split at the first [c]: text before it, text after it. *)
Definition cut (c : ascii) (s : str) : option (str * str) :=
  match find_char c s with
  | Some i => Some (take i s, drop (S i) s)
  | None => None
  end.

(** ** Characters *)

Definition CR : ascii := "013"%char.
Definition LF : ascii := "010"%char.
Definition TAB : ascii := "009"%char.
Definition SP : ascii := " "%char.
Definition NUL : ascii := "000"%char.
Definition DQUOTE : ascii := "034"%char.
Definition BSLASH : ascii := "\"%char.
Definition CRLFCRLF : str := [CR; LF; CR; LF].

Definition char_in (cs : str) (c : ascii) : bool := bool_decide (c ∈ cs).

(** [lo <= c && c <= hi] on [char] values below 128. *)
Definition in_range (lo hi : ascii) (c : ascii) : bool :=
  (byte_val lo <=? byte_val c) && (byte_val c <=? byte_val hi).

Definition is_digit : ascii -> bool := in_range "0" "9".
Definition is_lower : ascii -> bool := in_range "a" "z".
Definition is_upper : ascii -> bool := in_range "A" "Z".

(** [std::isspace] in the "C" locale. *)
Definition is_space (c : ascii) : bool :=
  char_in [SP; TAB; LF; "011"%char; "012"%char; CR] c.

(** [std::tolower] in the "C" locale, and its [std::transform] over a string. *)
Definition tolower (c : ascii) : ascii :=
  if is_upper c then byte_of (byte_val c + 32) else c.
Definition to_lower (s : str) : str := tolower <$> s.

(** [operator<] of [std::string]: lexicographic on unsigned bytes. *)
Fixpoint str_ltb (a b : str) : bool :=
  match a, b with
  | _, [] => false
  | [], _ :: _ => true
  | c :: a', d :: b' =>
      (byte_val c <? byte_val d) || ((byte_val c =? byte_val d) && str_ltb a' b')
  end.

(** A C string: the bytes before the first NUL. *)
Definition c_str (s : str) : str := fst (span (fun c => bool_decide (c <> NUL)) s).

(** ** Decimal numbers *)

Definition digit_val (c : ascii) : Z := byte_val c - 48.

(** The value of a run of digits read left to right after [acc]. *)
Fixpoint dec_val (acc : Z) (s : str) : Z :=
  match s with
  | [] => acc
  | c :: s' => dec_val (acc * 10 + digit_val c) s'
  end.

(** [std::to_string] of an unsigned integer: the digits of [z], most
    significant first. [dec_digits] produces them from the least
    significant end; the fuel bounds their number. *)
Fixpoint dec_digits (fuel : nat) (z : Z) (acc : str) : str :=
  match fuel with
  | O => acc
  | S fuel' =>
      let acc' := byte_of (48 + z mod 10) :: acc in
      if z / 10 =? 0 then acc' else dec_digits fuel' (z / 10) acc'
  end.
Definition to_string (z : Z) : str := dec_digits (S (Z.to_nat (Z.log2 z))) z [].

(** Decimal text of a signed integer. *)
Definition print_int (z : Z) : str := if z <? 0 then "-"%char :: to_string (- z) else to_string z.

(** Outcome of [std::stoull]/[std::stoul] (64-bit [unsigned long]):
    a value or one of the two exceptions. *)
Inductive sto_result :=
| StoOk (v : Z) (consumed : nat)
| StoInvalid          (* std::invalid_argument *)
| StoRange.           (* std::out_of_range *)

(** The subject sequence of [strtoull(s, &end, 10)]: white space, an
    optional sign, digits. Returns sign, digits and bytes consumed. *)
Definition strto_scan (s : str) : option (bool * str * nat) :=
  let (ws, s1) := span is_space s in
  let '(neg, sign, s2) :=
    match s1 with
    | c :: s' => if decide (c = "-"%char) then (true, 1%nat, s')
                 else if decide (c = "+"%char) then (false, 1%nat, s')
                 else (false, 0%nat, s1)
    | [] => (false, 0%nat, s1)
    end in
  let (ds, _) := span is_digit s2 in
  match ds with
  | [] => None
  | _ => Some (neg, ds, (length ws + sign + length ds)%nat)
  end.

(** [strtoull]: [None] when nothing is consumed; saturates at [ULLONG_MAX];
    a minus sign negates modulo 2^64. *)
Definition strtoull (s : str) : option Z :=
  match strto_scan s with
  | None => None
  | Some (neg, ds, _) =>
      let v := dec_val 0 ds in
      Some (if UINT64_MAX <? v then UINT64_MAX
            else if neg then u64 (- v) else v)
  end.

Definition stoull (s : str) : sto_result :=
  match strto_scan s with
  | None => StoInvalid
  | Some (neg, ds, n) =>
      let v := dec_val 0 ds in
      if UINT64_MAX <? v then StoRange
      else StoOk (if neg then u64 (- v) else v) n
  end.

(** ** Lines *)

(** Everything up to each newline, and the unterminated rest. *)
Fixpoint split_lines (s : str) : list str * str :=
  match s with
  | [] => ([], [])
  | c :: s' =>
      let (ls, r) := split_lines s' in
      if decide (c = LF) then ([] :: ls, r)
      else match ls with
           | [] => ([], c :: r)
           | l :: ls' => ((c :: l) :: ls', r)
           end
  end.

(** Successive [std::getline] calls: a non-empty unterminated tail is a line. *)
Definition getlines (s : str) : list str :=
  let (ls, r) := split_lines s in ls ++ (if decide (r = []) then [] else [r]).

(** [std::getline(is, tok, ',')] until end of input. *)
Fixpoint split_char (c : ascii) (s : str) : list str :=
  match s with
  | [] => [[]]
  | d :: s' =>
      if decide (d = c) then [] :: split_char c s'
      else match split_char c s' with
           | [] => [[d]]
           | t :: ts => (d :: t) :: ts
           end
  end.

(** ** Lemmas: searching *)

Lemma starts_with_spec p s : starts_with p s = true <-> exists r, s = p ++ r.
Proof.
  revert s. induction p as [|c p IH]; intros [|d s]; simpl.
  - split; eauto.
  - split; eauto.
  - split; [done|]. by intros [r ?].
  - rewrite andb_true_iff, bool_decide_eq_true, IH. split.
    + intros [-> [r ->]]. by exists r.
    + intros [r [= -> ->]]. eauto.
Qed.

Lemma starts_with_app p r : starts_with p (p ++ r) = true.
Proof. apply starts_with_spec. by exists r. Qed.

Lemma find_char_None c s : find_char c s = None <-> c ∉ s.
Proof.
  induction s as [|d s IH]; simpl; [split; [intros _; apply not_elem_of_nil|done]|].
  rewrite not_elem_of_cons. destruct (decide (d = c)) as [->|Hd]; [naive_solver|].
  rewrite fmap_None, IH. naive_solver.
Qed.

Lemma find_char_Some c s i :
  find_char c s = Some i -> s = take i s ++ c :: drop (S i) s /\ c ∉ take i s.
Proof.
  revert i. induction s as [|d s IH]; intros i; simpl; [done|].
  destruct (decide (d = c)) as [->|Hd].
  - intros [= <-]. simpl. split; [done|apply not_elem_of_nil].
  - rewrite fmap_Some. intros (j & Hj & ->). destruct (IH j Hj) as [E N]. simpl. split.
    + f_equal. apply E.
    + rewrite not_elem_of_cons. naive_solver.
Qed.

Lemma find_char_lt c s i : find_char c s = Some i -> (i < length s)%nat.
Proof.
  revert i. induction s as [|d s IH]; intros i; simpl; [done|].
  case_decide; [intros [= <-]; lia|]. rewrite fmap_Some. intros (j & Hj & ->).
  apply IH in Hj. lia.
Qed.

Lemma find_char_app c l r : c ∉ l -> find_char c (l ++ c :: r) = Some (length l).
Proof.
  induction l as [|d l IH]; simpl; intros N.
  - by rewrite decide_True.
  - apply not_elem_of_cons in N as [Nd Nl]. rewrite decide_False by done.
    by rewrite IH.
Qed.

Lemma cut_app c l r : c ∉ l -> cut c (l ++ c :: r) = Some (l, r).
Proof.
  intros N. unfold cut. rewrite find_char_app by done. f_equal. f_equal.
  - by apply take_app_length.
  - by rewrite drop_app_ge, Nat.sub_succ_l, Nat.sub_diag by lia.
Qed.

Lemma cut_Some c s l r : cut c s = Some (l, r) -> s = l ++ c :: r /\ c ∉ l.
Proof.
  unfold cut. destruct (find_char c s) eqn:E; [|done]. intros [= <- <-].
  by apply find_char_Some.
Qed.

Lemma cut_None c s : cut c s = None <-> c ∉ s.
Proof. unfold cut. rewrite <- find_char_None. by destruct (find_char c s). Qed.

(** ** Lemmas: cutting *)

Definition stops (f : ascii -> bool) (s : str) : Prop :=
  match s with [] => True | c :: _ => f c = false end.

Lemma span_app f l r :
  Forall (fun c => f c = true) l -> stops f r -> span f (l ++ r) = (l, r).
Proof.
  intros Hl Hr. induction Hl as [|c l Hc Hl IH]; simpl.
  - destruct r as [|c r]; simpl in *; [done|]. by rewrite Hr.
  - by rewrite Hc, IH.
Qed.

Lemma c_str_id s : NUL ∉ s -> c_str s = s.
Proof.
  intros H. unfold c_str. rewrite <- (app_nil_r s) at 1. rewrite span_app; [done| |done].
  apply List.Forall_forall. intros c Hc. apply bool_decide_eq_true.
  intros ->. by apply H, list_elem_of_In.
Qed.

Lemma span_spec f s a b :
  span f s = (a, b) -> s = a ++ b /\ Forall (fun c => f c = true) a /\ stops f b.
Proof.
  revert a b. induction s as [|c s IH]; simpl; intros a b.
  - intros [= <- <-]. repeat split; constructor.
  - destruct (f c) eqn:Hc.
    + destruct (span f s) as [a' b'] eqn:Hs. intros [= <- <-].
      destruct (IH _ _ eq_refl) as (-> & ? & ?). repeat split; by try constructor.
    + intros [= <- <-]. repeat split; [constructor|done].
Qed.

Lemma trim_front_id f s : stops f s -> trim_front f s = s.
Proof. destruct s as [|c s]; simpl; [done|]. by intros ->. Qed.

Lemma trim_back_id f s : stops f (rev s) -> trim_back f s = s.
Proof. intros H. unfold trim_back. by rewrite trim_front_id, rev_involutive. Qed.

Lemma trim_front_suffix f s : exists l, s = l ++ trim_front f s.
Proof.
  induction s as [|c s [l IH]]; simpl; [by exists []|].
  destruct (f c); [|by exists []]. exists (c :: l). simpl. by rewrite <- IH.
Qed.

(** ** Lemmas: decimal numbers *)

Lemma is_digit_byte z : 0 <= z < 10 -> is_digit (byte_of (48 + z)) = true.
Proof.
  intros H. unfold is_digit, in_range. rewrite byte_val_of, u8_small by lia.
  change (byte_val "0") with 48. change (byte_val "9") with 57.
  apply andb_true_iff. rewrite !Z.leb_le. lia.
Qed.

Lemma digit_val_byte z : 0 <= z < 10 -> digit_val (byte_of (48 + z)) = z.
Proof. intros H. unfold digit_val. rewrite byte_val_of, u8_small by lia. lia. Qed.

Lemma dec_digits_val fuel z acc :
  0 <= z < 10 ^ Z.of_nat fuel -> dec_val 0 (dec_digits fuel z acc) = dec_val z acc.
Proof.
  revert z acc. induction fuel as [|fuel IH]; intros z acc Hz.
  - change (Z.of_nat 0) with 0 in Hz. simpl in *. f_equal. lia.
  - rewrite Nat2Z.inj_succ, Z.pow_succ_r in Hz by lia.
    pose proof (Z.mod_pos_bound z 10 ltac:(lia)) as Hm.
    pose proof (Z.div_mod z 10 ltac:(lia)) as Hd.
    simpl. destruct (Z.eqb_spec (z / 10) 0) as [E|E].
    + simpl. rewrite digit_val_byte by lia. f_equal. lia.
    + rewrite IH.
      * simpl. rewrite digit_val_byte by lia. f_equal. lia.
      * split; [apply Z.div_pos; lia|]. apply Z.div_lt_upper_bound; lia.
Qed.

Lemma log2_fuel z : 0 <= z -> z < 10 ^ Z.of_nat (S (Z.to_nat (Z.log2 z))).
Proof.
  intros Hz. rewrite Nat2Z.inj_succ, Z2Nat.id by apply Z.log2_nonneg.
  destruct (Z.eq_dec z 0) as [->|]; [reflexivity|].
  apply Z.lt_le_trans with (2 ^ Z.succ (Z.log2 z)).
  - apply Z.log2_spec. lia.
  - apply Z.pow_le_mono_l. lia.
Qed.

Lemma to_string_val z : 0 <= z -> dec_val 0 (to_string z) = z.
Proof.
  intros Hz. unfold to_string. rewrite dec_digits_val; [done|].
  split; [done|]. by apply log2_fuel.
Qed.

Lemma dec_digits_digits fuel z acc :
  Forall (fun c => is_digit c = true) acc ->
  Forall (fun c => is_digit c = true) (dec_digits fuel z acc).
Proof.
  revert z acc. induction fuel as [|fuel IH]; intros z acc H; simpl; [done|].
  assert (Forall (fun c => is_digit c = true) (byte_of (48 + z mod 10) :: acc)).
  { constructor; [|done]. apply is_digit_byte. apply Z.mod_pos_bound. lia. }
  destruct (z / 10 =? 0); [done|]. by apply IH.
Qed.

Lemma to_string_digits z : Forall (fun c => is_digit c = true) (to_string z).
Proof. apply dec_digits_digits. constructor. Qed.

Lemma dec_digits_nonempty fuel z acc : dec_digits (S fuel) z acc <> [].
Proof.
  revert z acc. induction fuel as [|fuel IH]; intros z acc; simpl.
  - by destruct (z / 10 =? 0).
  - destruct (z / 10 =? 0); [done|]. apply IH.
Qed.

Lemma to_string_nonempty z : to_string z <> [].
Proof. apply dec_digits_nonempty. Qed.

Lemma dec_digits_length fuel z acc k :
  0 <= z < 10 ^ Z.of_nat k -> (0 < k)%nat ->
  (length (dec_digits fuel z acc) <= k + length acc)%nat.
Proof.
  revert z acc k. induction fuel as [|fuel IH]; intros z acc k Hz Hk; simpl; [lia|].
  destruct (Z.eqb_spec (z / 10) 0) as [E|E]; simpl; [lia|].
  destruct k as [|k]; [lia|].
  rewrite Nat2Z.inj_succ, Z.pow_succ_r in Hz by lia.
  assert (Hd : 0 <= z / 10 < 10 ^ Z.of_nat k).
  { split; [apply Z.div_pos; lia|]. apply Z.div_lt_upper_bound; lia. }
  destruct k as [|k].
  - exfalso. change (10 ^ Z.of_nat 0) with 1 in Hd. lia.
  - specialize (IH (z / 10) (byte_of (48 + z mod 10) :: acc) (S k) Hd ltac:(lia)).
    simpl in IH. lia.
Qed.

(** A 64-bit counter prints in at most 20 characters. *)
Lemma to_string_length z : 0 <= z < 2 ^ 64 -> (length (to_string z) <= 20)%nat.
Proof.
  intros H. unfold to_string. etransitivity.
  - apply (dec_digits_length _ _ _ 20); [|lia]. split; [lia|].
    change (10 ^ Z.of_nat 20) with 100000000000000000000. lia.
  - simpl. lia.
Qed.

(** At most [k] digits below [10 ^ k]. *)
Lemma to_string_short z k : 0 <= z < 10 ^ Z.of_nat k -> (0 < k)%nat -> (length (to_string z) <= k)%nat.
Proof.
  intros H Hk. unfold to_string. etransitivity; [by apply (dec_digits_length _ _ _ k)|]. simpl. lia.
Qed.

(** No leading zero. *)
Lemma dec_digits_head fuel z acc s :
  0 < z < 10 ^ Z.of_nat fuel -> dec_digits fuel z acc <> "0"%char :: s.
Proof.
  revert z acc. induction fuel as [|fuel IH]; intros z acc Hz.
  - change (Z.of_nat 0) with 0 in Hz. simpl in *. lia.
  - rewrite Nat2Z.inj_succ, Z.pow_succ_r in Hz by lia.
    pose proof (Z.mod_pos_bound z 10 ltac:(lia)) as Hm. pose proof (Z.div_mod z 10 ltac:(lia)) as Hd.
    simpl. destruct (Z.eqb_spec (z / 10) 0) as [E|E].
    + intros [= Hc _]. apply (f_equal byte_val) in Hc. rewrite byte_val_of, u8_small in Hc by lia.
      change (byte_val "0") with 48 in Hc. lia.
    + apply IH. pose proof (Z.div_pos z 10 ltac:(lia) ltac:(lia)).
      split; [lia|]. apply Z.div_lt_upper_bound; lia.
Qed.

Lemma to_string_head z s : 0 < z -> to_string z <> "0"%char :: s.
Proof. intros Hz. apply dec_digits_head. split; [done|]. apply log2_fuel. lia. Qed.

Lemma digit_not_special c :
  is_digit c = true ->
  is_space c = false /\ c <> "-"%char /\ c <> "+"%char /\ c <> SP /\ c <> LF /\ c <> CR /\ c <> TAB.
Proof.
  intros H.
  assert (E : forallb (fun c => implb (is_digit c)
     (negb (is_space c) && negb (char_in ["-"%char; "+"%char; SP; LF; CR; TAB] c))) all_bytes
     = true) by (vm_compute; reflexivity).
  pose proof (byte_forall _ E c) as Hc. cbv beta in Hc. rewrite H in Hc. simpl in Hc.
  unfold char_in in Hc. bool_to_prop. split; [done|].
  rewrite !not_elem_of_cons in *. naive_solver.
Qed.

Lemma to_string_no c z : is_digit c = false -> c ∉ to_string z.
Proof.
  intros Hc Hin. pose proof (to_string_digits z) as H. rewrite List.Forall_forall in H.
  apply list_elem_of_In in Hin. specialize (H c Hin). simpl in H. congruence.
Qed.

Lemma strto_scan_digits ds r :
  Forall (fun c => is_digit c = true) ds -> ds <> [] -> stops is_digit r ->
  strto_scan (ds ++ r) = Some (false, ds, length ds).
Proof.
  intros Hd Hne Hr. destruct ds as [|c ds]; [done|].
  pose proof (Forall_inv Hd) as Hc. destruct (digit_not_special c Hc) as (Hs & Hm & Hp & _).
  unfold strto_scan. simpl app. cbn [span]. rewrite Hs.
  rewrite decide_False by done. rewrite decide_False by done.
  change (c :: ds ++ r) with ((c :: ds) ++ r).
  rewrite (span_app is_digit (c :: ds) r Hd Hr). done.
Qed.

Lemma strtoull_to_string z r :
  0 <= z <= UINT64_MAX -> stops is_digit r -> strtoull (to_string z ++ r) = Some z.
Proof.
  intros Hz Hr. unfold strtoull.
  rewrite strto_scan_digits by (auto using to_string_digits, to_string_nonempty).
  cbn beta iota zeta. rewrite to_string_val by lia.
  rewrite (proj2 (Z.ltb_ge _ _)) by lia. done.
Qed.

Lemma stoull_to_string z r :
  0 <= z <= UINT64_MAX -> stops is_digit r ->
  stoull (to_string z ++ r) = StoOk z (length (to_string z)).
Proof.
  intros Hz Hr. unfold stoull.
  rewrite strto_scan_digits by (auto using to_string_digits, to_string_nonempty).
  cbn beta iota zeta. rewrite to_string_val by lia.
  rewrite (proj2 (Z.ltb_ge _ _)) by lia. done.
Qed.

Lemma dec_val_nonneg acc s :
  0 <= acc -> Forall (fun c => is_digit c = true) s -> 0 <= dec_val acc s.
Proof.
  intros Ha Hs. revert acc Ha. induction Hs as [|c s Hc Hs IH]; simpl; intros acc Ha; [done|].
  apply IH. unfold is_digit, in_range, digit_val in *. bool_to_prop.
  change (byte_val "0") with 48 in *. lia.
Qed.

Lemma strto_scan_Some s neg ds n :
  strto_scan s = Some (neg, ds, n) -> Forall (fun c => is_digit c = true) ds /\ ds <> [].
Proof.
  unfold strto_scan. destruct (span is_space s) as [ws s1].
  destruct (match s1 with [] => _ | _ => _ end) as [[ng sg] s2].
  destruct (span is_digit s2) as [ds' r] eqn:E. apply span_spec in E as (_ & Hd & _).
  destruct ds'; [done|]. intros [= <- <- <-]. done.
Qed.

Lemma strtoull_range s v : strtoull s = Some v -> 0 <= v <= UINT64_MAX.
Proof.
  unfold strtoull. destruct (strto_scan s) as [[[neg ds] n]|] eqn:E; [|done].
  apply strto_scan_Some in E as [Hd _]. pose proof (dec_val_nonneg 0 ds ltac:(lia) Hd).
  intros [= <-]. repeat case_match_goal; bool_to_prop; try (unfold UINT64_MAX in *; lia).
  pose proof (u64_range (- dec_val 0 ds)). unfold UINT64_MAX. lia.
Qed.

Lemma stoull_range s v n : stoull s = StoOk v n -> 0 <= v <= UINT64_MAX.
Proof.
  unfold stoull. destruct (strto_scan s) as [[[neg ds] k]|] eqn:E; [|done].
  apply strto_scan_Some in E as [Hd _]. pose proof (dec_val_nonneg 0 ds ltac:(lia) Hd).
  case_match_goal; [done|]. intros [= <- _]. case_match_goal; bool_to_prop; [|lia].
  pose proof (u64_range (- dec_val 0 ds)). unfold UINT64_MAX. lia.
Qed.

(** ** Lemmas: lines *)

(** Splitting a stream is independent of where it was cut into chunks: the
    unterminated rest of the first part is carried into the second. *)
Lemma split_lines_app a b :
  split_lines (a ++ b) =
    let (la, ra) := split_lines a in
    let (lb, rb) := split_lines (ra ++ b) in (la ++ lb, rb).
Proof.
  induction a as [|c a IH]; simpl.
  - by destruct (split_lines b).
  - rewrite IH. destruct (split_lines a) as [la ra].
    destruct (split_lines (ra ++ b)) as [lb rb] eqn:E.
    destruct (decide (c = LF)) as [->|Hc].
    + by rewrite E.
    + destruct la as [|l la]; simpl.
      * rewrite E, decide_False by done. by destruct lb.
      * by rewrite E.
Qed.

Lemma split_lines_noLF l : LF ∉ l -> split_lines l = ([], l).
Proof.
  induction l as [|c l IH]; simpl; [done|]. intros [Hc Hl]%not_elem_of_cons.
  rewrite IH by done. by rewrite decide_False.
Qed.

Lemma split_lines_line l s :
  LF ∉ l -> split_lines (l ++ LF :: s) =
    let (ls, r) := split_lines s in (l :: ls, r).
Proof.
  intros Hl. induction l as [|c l IH]; simpl.
  - by destruct (split_lines s).
  - apply not_elem_of_cons in Hl as [Hc Hl]. rewrite IH by done.
    destruct (split_lines s). by rewrite decide_False.
Qed.

(** The lines of a stream and its rest rebuild it, and none holds a newline. *)
Lemma split_lines_spec s ls r :
  split_lines s = (ls, r) ->
  s = concat ((fun l => l ++ [LF]) <$> ls) ++ r /\ Forall (fun l => LF ∉ l) ls /\ LF ∉ r.
Proof.
  revert ls r. induction s as [|c s IH]; simpl; intros ls r.
  - intros [= <- <-]. repeat split; [constructor|apply not_elem_of_nil].
  - destruct (split_lines s) as [ls' r'] eqn:E.
    destruct (IH _ _ eq_refl) as (-> & Hls & Hr).
    destruct (decide (c = LF)) as [->|Hc].
    + intros [= <- <-]. simpl. repeat split; [|done]. constructor; [apply not_elem_of_nil|done].
    + destruct ls' as [|l ls']; intros [= <- <-]; simpl.
      * repeat split; [constructor|]. by apply not_elem_of_cons.
      * inversion Hls; subst. repeat split; [|done]. constructor; [|done].
        by apply not_elem_of_cons.
Qed.

#[export] Hint Resolve to_string_digits to_string_nonempty : ntm.

(** ** Lemmas: fields *)

Lemma split_char_none c s : c ∉ s -> split_char c s = [s].
Proof.
  induction s as [|d s IH]; simpl; [done|]. intros [Hd Hs]%not_elem_of_cons.
  rewrite decide_False by done. by rewrite IH.
Qed.

Lemma split_char_app c a b : c ∉ a -> split_char c (a ++ c :: b) = a :: split_char c b.
Proof.
  induction a as [|d a IH]; simpl; intros Ha.
  - by rewrite decide_True.
  - apply not_elem_of_cons in Ha as [Hd Ha]. rewrite decide_False by done. by rewrite IH.
Qed.

(** ** Lemmas: the order of strings *)

Lemma str_ltb_irrefl s : str_ltb s s = false.
Proof. induction s as [|c s IH]; simpl; [done|]. by rewrite Z.ltb_irrefl, IH, andb_false_r. Qed.

Lemma str_ltb_trans a b c : str_ltb a b = true -> str_ltb b c = true -> str_ltb a c = true.
Proof.
  revert b c. induction a as [|x a IH]; intros [|y b] [|z c]; simpl; try done.
  rewrite !orb_true_iff, !andb_true_iff, !Z.ltb_lt, !Z.eqb_eq.
  intros [?|[? ?]] [?|[? ?]]; try (left; lia). right. split; [lia|eauto].
Qed.

(** A strictly ascending list repeats nothing. *)
Lemma ascending_NoDup l : Sorting.Sorted.Sorted (fun a b => str_ltb a b = true) l -> NoDup l.
Proof.
  intros H. apply Sorting.Sorted.Sorted_StronglySorted in H; [|intros a b c; apply str_ltb_trans].
  induction H as [|x l _ IH Hx]; constructor; [|done].
  intros Hin. rewrite Forall_forall in Hx. specialize (Hx x Hin). by rewrite str_ltb_irrefl in Hx.
Qed.

(** ** Searching for a string *)

Lemma find_str_eq p s :
  find_str p s = if starts_with p s then Some 0%nat
                 else match s with [] => None | _ :: s' => S <$> find_str p s' end.
Proof. by destruct s. Qed.

Lemma find_str_here p r : find_str p (p ++ r) = Some 0%nat.
Proof. by rewrite find_str_eq, starts_with_app. Qed.

(** The first occurrence. *)
Lemma find_str_first p s i : find_str p s = Some i -> forall x y, s = x ++ p ++ y -> (i <= length x)%nat.
Proof.
  revert i. induction s as [|c s IH]; intros i H x y E; rewrite find_str_eq in H.
  - destruct (starts_with p []) eqn:Ep; [injection H as <-; lia|done].
  - destruct (starts_with p (c :: s)) eqn:Ep; [injection H as <-; lia|].
    destruct (find_str p s) as [j|] eqn:Ej; [|done]. injection H as <-.
    destruct x as [|d x]; cbn in E.
    + exfalso. rewrite E, starts_with_app in Ep. done.
    + injection E as -> E. pose proof (IH j eq_refl x y E). cbn. lia.
Qed.

Lemma find_str_None p s : (forall x y, s <> x ++ p ++ y) -> find_str p s = None.
Proof.
  induction s as [|c s IH]; intros H; rewrite find_str_eq.
  - destruct (starts_with p []) eqn:Ep; [|done]. apply starts_with_spec in Ep as [r Hr]. by destruct (H [] r).
  - destruct (starts_with p (c :: s)) eqn:Ep.
    + apply starts_with_spec in Ep as [r Hr]. by destruct (H [] r).
    + rewrite IH; [done|]. intros x y E. apply (H (c :: x) y). by rewrite E.
Qed.

(** Past a byte that the searched string lacks. *)
Lemma starts_with_sep p l c r : c ∉ p -> starts_with p (l ++ c :: r) = true -> starts_with p l = true.
Proof.
  revert l. induction p as [|d p IH]; intros l Hc H; [done|].
  apply not_elem_of_cons in Hc as [Hd Hc]. destruct l as [|e l]; cbn in *.
  - apply andb_true_iff in H as [H _]. apply bool_decide_eq_true in H. congruence.
  - apply andb_true_iff in H as [H1 H2]. rewrite H1. cbn. by apply IH.
Qed.

Lemma find_str_sep p l c r :
  p <> [] -> c ∉ p -> find_str p l = None -> find_str p (l ++ c :: r) = Nat.add (S (length l)) <$> find_str p r.
Proof.
  intros Hp Hc. induction l as [|d l IH]; intros Hn; rewrite find_str_eq in Hn |- *.
  - cbn [app]. destruct (starts_with p (c :: r)) eqn:Es.
    + apply (starts_with_sep p [] c r Hc) in Es. by rewrite Es in Hn.
    + cbn. by destruct (find_str p r).
  - cbn [app]. destruct (starts_with p (d :: l)) eqn:El; [done|].
    destruct (starts_with p (d :: l ++ c :: r)) eqn:Es.
    + apply (starts_with_sep p (d :: l) c r Hc) in Es. congruence.
    + destruct (find_str p l) eqn:E'; [done|]. rewrite IH by done. by destruct (find_str p r).
Qed.

(** Past bytes that differ from the first byte of the searched string. *)
Lemma find_str_skip c p l r : c ∉ l -> find_str (c :: p) (l ++ r) = Nat.add (length l) <$> find_str (c :: p) r.
Proof.
  induction l as [|d l IH]; intros Hc; cbn [app].
  - cbn. by destruct (find_str _ r).
  - apply not_elem_of_cons in Hc as [Hd Hc]. rewrite find_str_eq. cbn [starts_with].
    rewrite bool_decide_eq_false_2 by done. cbn [andb]. rewrite IH by done. by destruct (find_str _ r).
Qed.

(** The first occurrence does not depend on what follows it. *)
Lemma starts_with_longer p s t : (length p <= length s)%nat -> starts_with p (s ++ t) = starts_with p s.
Proof.
  revert s. induction p as [|c p IH]; intros [|d s] H; cbn in *; try done; [lia|]. by rewrite IH by lia.
Qed.

Lemma find_str_tail p h t : find_str p (h ++ p) = Some (length h) -> find_str p (h ++ p ++ t) = Some (length h).
Proof.
  induction h as [|c h IH]; intros H; [exact (find_str_here p t)|].
  cbn [app] in *. rewrite find_str_eq in H |- *. change (c :: h ++ p ++ t) with ((c :: h) ++ p ++ t).
  rewrite app_assoc, starts_with_longer by (rewrite length_app; lia). cbn [app].
  destruct (starts_with p (c :: h ++ p)); [done|]. destruct (find_str p (h ++ p)) as [i|]; [|done].
  injection H as ->. rewrite <- ?app_assoc. by rewrite IH.
Qed.

Lemma rfind_char_app c (x v : str) : c ∉ v -> rfind_char c (x ++ c :: v) = Some (length x).
Proof.
  intros Hc. unfold rfind_char. rewrite rev_app_distr. cbn [rev]. rewrite <- app_assoc. cbn [app].
  assert (Hr : c ∉ rev v) by (rewrite list_elem_of_In, <- in_rev, <- list_elem_of_In; done).
  rewrite find_char_app by done. cbn. f_equal. rewrite length_app, length_rev. cbn. lia.
Qed.

(** Text before and after the last separator. *)
Lemma last_sep_inj c (x x' v v' : str) : (c ∉ v) -> (c ∉ v') -> x ++ c :: v = x' ++ c :: v' -> x = x' /\ v = v'.
Proof.
  intros Hv Hv' E. assert (L : length x = length x').
  { pose proof (rfind_char_app c x v Hv) as H. rewrite E, rfind_char_app in H by done. congruence. }
  apply app_inj_1 in E as [-> E]; [| done]. by injection E as ->.
Qed.
