(* ===== verification/Wire.v ===== *)
(** The client-server protocol constructs of [proto_client_server.hpp]: ALPN
    selection, D-lines and their limits, and the LAN classification of
    addresses that client ([client_core.cpp]) and server ([ntm_types.hpp])
    each implement. *)

From S2P Require Import Prelude CppString.

(** ** Constants *)

(* proto_client_server.hpp:20-20 *)
Definition kWireProtoVersion : Z := 4.
(* proto_client_server.hpp:34-34 *)
Definition kApiVersion : Z := 14.
(* proto_client_server.hpp:38-38 *)
Definition kDefaultPort : Z := 5555.
(* proto_client_server.hpp:43-43 *)
Definition kAlpnNtmWire : str := "ntm-wire".
(* proto_client_server.hpp:44-44 *)
Definition kAlpnHttp11 : str := "http/1.1".
(* proto_client_server.hpp:133-133 *)
Definition kMaxIfaceLabelLen : nat := 64.
(* proto_client_server.hpp:134-134 *)
Definition kMaxIpLabelLen : nat := 50.

(** ** ALPN selection *)

(** One pass of [selectAlpnFromClientList] over the remaining offer [s]:
    read the length byte, stop on a truncated entry, compare 8-byte entries
    with [name]. The fuel is the buffer length: each round drops a byte. *)
(* proto_client_server.hpp:58-65 selectAlpnFromClientList, one pass *)
Fixpoint alpn_pass (fuel : nat) (name s : str) : bool :=
  match fuel, s with
  | S fuel', l :: s' =>
      let len := Z.to_nat (byte_val l) in
      if (length s' <? len)%nat then false
      else if (len =? 8)%nat && bool_decide (take 8 s' = name) then true
      else alpn_pass fuel' name (drop len s')
  | _, _ => false
  end.

(* proto_client_server.hpp:52-78 selectAlpnFromClientList *)
Definition selectAlpnFromClientList (inb : str) : str :=
  if alpn_pass (length inb) kAlpnNtmWire inb then kAlpnNtmWire
  else if alpn_pass (length inb) kAlpnHttp11 inb then kAlpnHttp11
  else kAlpnHttp11.

(** ** D-lines *)

(* proto_client_server.hpp:146-152 PacketMeta *)
Record PacketMeta := mkPacketMeta {
  pm_iface : str;
  pm_srcIp : str;
  pm_dstIp : str;
  pm_bytes : Z   (* std::uint32_t *)
}.

(* proto_client_server.hpp:170-172 parseDataLine, isSep *)
Definition isSep (c : ascii) : bool := char_in [SP; TAB; CR; LF] c.

(** [nextTok]: skip separators, fail at the end of the line, return the token
    with the text from its start on (what a pointer to it can see) and the
    text after it. *)
(* proto_client_server.hpp:173-180 parseDataLine, nextTok *)
Definition nextTok (s : str) : option (str * str * str) :=
  match trim_front isSep s with
  | [] => None
  | s' => let (tok, rest) := span (fun c => negb (isSep c)) s' in Some (tok, s', rest)
  end.

(* proto_client_server.hpp:161-213 parseDataLine *)
Definition parseDataLine (line : str) (maxIfaceLen maxIpLen : nat) : option PacketMeta :=
  if decide (line = []) then None else
  let? (ifc, _, r1) := nextTok line in
  let? (src, _, r2) := nextTok r1 in
  let? (dst, _, r3) := nextTok r2 in
  let? (_, bb, _) := nextTok r3 in
  let maxIfaceLen := if (maxIfaceLen =? 0)%nat then kMaxIfaceLabelLen else maxIfaceLen in
  let maxIpLen := if (maxIpLen =? 0)%nat then kMaxIpLabelLen else maxIpLen in
  if (maxIfaceLen <? length ifc)%nat || (maxIpLen <? length src)%nat
     || (maxIpLen <? length dst)%nat then None
  else
    let? val := strtoull bb in
    if UINT32_MAX <? val then None
    else Some (mkPacketMeta ifc src dst val).

(** ** LAN classification *)

(** The C library's address parser, on a C string: an IPv4 literal to its host-order 32-bit
    value, an IPv6 literal to its 16 bytes. *)
Class Inet := {
  inet_pton4 : str -> option Z;
  inet_pton6 : str -> option str
}.

(** What POSIX guarantees of it: the sizes of the parsed addresses, and that
    an empty or over-long text is not an address ([INET6_ADDRSTRLEN] is 46). *)
Class InetLaws (inet : Inet) := {
  inet_pton4_range : forall s a, inet_pton4 s = Some a -> 0 <= a < 2 ^ 32;
  inet_pton6_size : forall s b, inet_pton6 s = Some b -> length b = 16%nat
}.

(* client_core.cpp:42-49 isLanAddrV4 *)
Definition isLanAddrV4 (n : Z) : bool :=
  (Z.land n 0xFF000000 =? 0x7F000000) ||
  (Z.land n 0xFF000000 =? 0x0A000000) ||
  (Z.land n 0xFFF00000 =? 0xAC100000) ||
  (Z.land n 0xFFFF0000 =? 0xC0A80000).

(* client_core.cpp:51-58 isLanAddrV6 *)
Definition isLanAddrV6 (addr : str) : bool :=
  let lo6 := replicate 15 NUL ++ [byte_of 1] in
  let a0 := byte_val (nth 0 addr NUL) in
  let a1 := byte_val (nth 1 addr NUL) in
  if decide (addr = lo6) then true
  else if Z.land a0 0xFE =? 0xFC then true
  else if (a0 =? 0xFE) && (Z.land a1 0xC0 =? 0x80) then true
  else false.

(* ntm_types.hpp:47-70 isLanIP *)
Definition isLanIP `{Inet} (ip : str) : bool :=
  let ip := c_str ip in
  match inet_pton4 ip with
  | Some a =>
      if Z.land a 0xFF000000 =? 0x7F000000 then true
      else if Z.land a 0xFF000000 =? 0x0A000000 then true
      else if Z.land a 0xFFF00000 =? 0xAC100000 then true
      else if Z.land a 0xFFFF0000 =? 0xC0A80000 then true
      else false
  | None =>
      match inet_pton6 ip with
      | Some b =>
          let lo6 := replicate 15 NUL ++ [byte_of 1] in
          let b0 := byte_val (nth 0 b NUL) in
          let b1 := byte_val (nth 1 b NUL) in
          if decide (b = lo6) then true
          else if Z.land b0 0xFE =? 0xFC then true
          else if (b0 =? 0xFE) && (Z.land b1 0xC0 =? 0x80) then true
          else false
      | None => false
      end
  end.

(** ** Specification-side definitions *)

(** The wire form of an offer list: each name behind its length byte. *)
Definition alpn_encode (names : list str) : str :=
  concat ((fun n => byte_of (Z.of_nat (length n)) :: n) <$> names).

(** A name that can be offered: 1 to 255 bytes. *)
Definition alpn_name (n : str) : Prop := (0 < length n < 256)%nat.

(** A token of a line: non-empty, free of separators. *)
Definition token (s : str) : Prop :=
  s <> [] /\ Forall (fun c => negb (isSep c) = true) s.

(** The body of the line the client prints for a flow (after the prefix). *)
Definition data_line (m : PacketMeta) : str :=
  pm_iface m ++ [SP] ++ pm_srcIp m ++ [SP] ++ pm_dstIp m ++ [SP] ++ to_string (pm_bytes m).

Definition labels_fit (m : PacketMeta) (maxIface maxIp : nat) : Prop :=
  (length (pm_iface m) <= maxIface)%nat /\ (length (pm_srcIp m) <= maxIp)%nat /\
  (length (pm_dstIp m) <= maxIp)%nat.

Definition labels_tokens (m : PacketMeta) : Prop :=
  token (pm_iface m) /\ token (pm_srcIp m) /\ token (pm_dstIp m).

(** ** Lemmas: ALPN *)

Lemma alpn_encode_cons n names :
  alpn_encode (n :: names) = byte_of (Z.of_nat (length n)) :: n ++ alpn_encode names.
Proof. reflexivity. Qed.

Lemma byte_len n : alpn_name n -> Z.to_nat (byte_val (byte_of (Z.of_nat (length n)))) = length n.
Proof. intros [H1 H2]. rewrite byte_val_of, u8_small by lia. lia. Qed.

Lemma alpn_pass_encode name names fuel :
  length name = 8%nat -> Forall alpn_name names ->
  (length (alpn_encode names) <= fuel)%nat ->
  alpn_pass fuel name (alpn_encode names) = bool_decide (name ∈ names).
Proof.
  intros Hname Hall. revert fuel. induction Hall as [|n names Hn Hall IH]; intros fuel Hf.
  - by destruct fuel.
  - rewrite alpn_encode_cons in *. simpl in Hf. rewrite length_app in Hf.
    destruct fuel as [|fuel]; [lia|]. cbn [alpn_pass]. rewrite byte_len by done.
    rewrite (proj2 (Nat.ltb_ge _ _)) by (rewrite length_app; lia).
    rewrite drop_app_length, IH by lia.
    destruct (Nat.eqb_spec (length n) 8) as [E|E]; simpl.
    + rewrite (take_length_app n _ 8 E).
      destruct (decide (n = name)) as [->|Hx].
      * rewrite bool_decide_eq_true_2 by done. symmetry.
        apply bool_decide_eq_true_2. by constructor.
      * rewrite bool_decide_eq_false_2 by done. apply bool_decide_ext.
        rewrite elem_of_cons. intuition congruence.
    + apply bool_decide_ext. rewrite elem_of_cons. intuition congruence.
Qed.

(** ** Lemmas: tokens *)

Lemma trim_front_token s r : token s -> trim_front isSep (s ++ r) = s ++ r.
Proof.
  intros [Hne Ht]. apply trim_front_id. destruct Ht as [|c s Hc]; [done|].
  simpl. by apply negb_true_iff in Hc.
Qed.

Lemma nextTok_token s r :
  token s -> stops (fun c => negb (isSep c)) r -> nextTok (s ++ r) = Some (s, s ++ r, r).
Proof.
  intros Hs Hr. unfold nextTok. rewrite trim_front_token by done.
  destruct Hs as [Hne Hs]. destruct s as [|c s]; [done|]. cbn [app].
  change (c :: s ++ r) with ((c :: s) ++ r). by rewrite span_app.
Qed.

Lemma nextTok_space s : nextTok (SP :: s) = nextTok s.
Proof. reflexivity. Qed.

Lemma nextTok_sound s tok at_ rest :
  nextTok s = Some (tok, at_, rest) ->
  token tok /\ at_ = tok ++ rest /\ stops (fun c => negb (isSep c)) rest.
Proof.
  unfold nextTok. destruct (trim_front isSep s) as [|c s'] eqn:E; [done|].
  destruct (span _ (c :: s')) as [a b] eqn:Es. intros [= <- <- <-].
  apply span_spec in Es as (E2 & Ha & Hb). repeat split; try done.
  intros ->. simpl in E2. subst b. simpl in Hb.
  assert (Hc : isSep c = false).
  { clear -E. induction s as [|d s IH]; simpl in E; [done|].
    destruct (isSep d) eqn:Ed; [by apply IH|]. by injection E as -> _. }
  rewrite Hc in Hb. done.
Qed.

Lemma digit_not_sep c : is_digit c = true -> negb (isSep c) = true.
Proof.
  intros H.
  assert (E : forallb (fun c => implb (is_digit c) (negb (isSep c))) all_bytes = true)
    by (vm_compute; reflexivity).
  pose proof (byte_forall _ E c) as Hc. cbv beta in Hc. by rewrite H in Hc.
Qed.

Lemma token_to_string z : token (to_string z).
Proof.
  split; [apply to_string_nonempty|].
  eapply List.Forall_impl; [|apply to_string_digits]. apply digit_not_sep.
Qed.

(** The four tokens of a printed line are the four fields. *)
Lemma nextTok_data_line m :
  labels_tokens m ->
  exists r1 r2 r3,
    nextTok (data_line m) = Some (pm_iface m, data_line m, r1) /\
    nextTok r1 = Some (pm_srcIp m, drop 1 r1, r2) /\
    nextTok r2 = Some (pm_dstIp m, drop 1 r2, r3) /\
    nextTok r3 = Some (to_string (pm_bytes m), to_string (pm_bytes m), []).
Proof.
  intros (Hi & Hs & Hd). unfold data_line. cbn [app].
  do 3 eexists. split; [|split; [|split]].
  - by rewrite nextTok_token.
  - rewrite nextTok_space. by rewrite nextTok_token.
  - rewrite nextTok_space. by rewrite nextTok_token.
  - rewrite nextTok_space. rewrite <- (app_nil_r (to_string _)) at 1.
    rewrite nextTok_token by (done || apply token_to_string). by rewrite app_nil_r.
Qed.

Lemma data_line_nonempty m : data_line m <> [].
Proof. unfold data_line. destruct (pm_iface m); by simpl. Qed.

Definition lim_iface (n : nat) : nat := if (n =? 0)%nat then kMaxIfaceLabelLen else n.
Definition lim_ip (n : nat) : nat := if (n =? 0)%nat then kMaxIpLabelLen else n.

(** What [parseDataLine] does to a printed line, in one equation. *)
Lemma parseDataLine_data_line m mi mp :
  labels_tokens m -> labels_fit m (lim_iface mi) (lim_ip mp) ->
  0 <= pm_bytes m <= UINT64_MAX ->
  parseDataLine (data_line m) mi mp =
    if UINT32_MAX <? pm_bytes m then None else Some m.
Proof.
  intros Ht (Fi & Fs & Fd) Hb. unfold parseDataLine.
  rewrite decide_False by apply data_line_nonempty.
  destruct (nextTok_data_line m Ht) as (r1 & r2 & r3 & -> & -> & -> & ->).
  fold (lim_iface mi) (lim_ip mp). cbn zeta.
  rewrite !(proj2 (Nat.ltb_ge _ _)) by lia. simpl.
  rewrite <- (app_nil_r (to_string _)), strtoull_to_string by done.
  by destruct m.
Qed.

(** ** Properties *)

(** C: for every well-formed offer list (names of 1 to 255 bytes), the ALPN
    selector answers "ntm-wire" exactly when the client offers it, whatever
    else is offered and in whatever order, and "http/1.1" otherwise. *)
Theorem selectAlpn_priority (names : list str) :
  Forall alpn_name names ->
  selectAlpnFromClientList (alpn_encode names)
  = if decide (kAlpnNtmWire ∈ names) then kAlpnNtmWire else kAlpnHttp11.
Proof.
  intros Hall. unfold selectAlpnFromClientList.
  rewrite !alpn_pass_encode by done.
  case_bool_decide; case_decide; try done. by case_bool_decide.
Qed.

Lemma selectAlpn_priority_witness :
  selectAlpnFromClientList (alpn_encode ["h2" : str; kAlpnHttp11; kAlpnNtmWire]) = kAlpnNtmWire.
Proof.
  rewrite (selectAlpn_priority ["h2" : str; kAlpnHttp11; kAlpnNtmWire]).
  - reflexivity.
  - repeat constructor; simpl; lia.
Defined.

(** Round trip of a data line: whatever the client prints for a flow whose
    labels are separator-free and within the limits and whose byte count fits
    32 bits, the server reads back, field by field. *)
Lemma parseDataLine_roundtrip (m : PacketMeta) (mi mp : nat) :
  labels_tokens m -> labels_fit m (lim_iface mi) (lim_ip mp) ->
  0 <= pm_bytes m <= UINT32_MAX ->
  parseDataLine (data_line m) mi mp = Some m.
Proof.
  intros Ht Hf Hb. rewrite parseDataLine_data_line by (done || ulia).
  by rewrite (proj2 (Z.ltb_ge _ _)) by lia.
Qed.

Lemma parseDataLine_roundtrip_witness :
  parseDataLine (data_line (mkPacketMeta "eth0" "10.0.0.1" "8.8.8.8" 1500)) 0 0
  = Some (mkPacketMeta "eth0" "10.0.0.1" "8.8.8.8" 1500).
Proof.
  apply (parseDataLine_roundtrip (mkPacketMeta "eth0" "10.0.0.1" "8.8.8.8" 1500) 0 0).
  - repeat split; try discriminate; repeat constructor.
  - repeat split; apply Nat.leb_le; reflexivity.
  - simpl. ulia.
Defined.

(** Whatever bytes arrive, a line that is accepted yields a record within
    bounds: non-empty labels without separators, no longer than the limits in
    force, and a byte count in 0..UINT32_MAX. *)
Lemma parseDataLine_bounds (line : str) (mi mp : nat) (m : PacketMeta) :
  parseDataLine line mi mp = Some m ->
  labels_tokens m /\ labels_fit m (lim_iface mi) (lim_ip mp) /\
  0 <= pm_bytes m <= UINT32_MAX.
Proof.
  unfold parseDataLine. fold (lim_iface mi) (lim_ip mp). cbn zeta.
  case_decide; [done|].
  destruct (nextTok line) as [[[ifc a1] r1]|] eqn:E1; [|done].
  destruct (nextTok r1) as [[[src a2] r2]|] eqn:E2; [|done].
  destruct (nextTok r2) as [[[dst a3] r3]|] eqn:E3; [|done].
  destruct (nextTok r3) as [[[bt bb] r4]|] eqn:E4; [|done].
  case_match_goal; [done|]. bool_to_prop.
  destruct (strtoull bb) as [v|] eqn:Ev; [|done].
  case_match_goal; [done|]. intros [= <-]. bool_to_prop.
  apply nextTok_sound in E1 as [? _], E2 as [? _], E3 as [? _].
  apply strtoull_range in Ev.
  unfold labels_tokens, labels_fit. simpl. split_conj; done || lia.
Qed.

Lemma parseDataLine_bounds_witness :
  0 <= pm_bytes (mkPacketMeta "eth0" "10.0.0.1" "8.8.8.8" 15) <= UINT32_MAX.
Proof.
  apply (parseDataLine_bounds "eth0 10.0.0.1 8.8.8.8 15" 0 0).
  vm_compute. reflexivity.
Defined.

(** Dotted-quad bounds of the private IPv4 blocks. *)
Definition quad (a b c d : Z) : Z := ((a * 256 + b) * 256 + c) * 256 + d.

Definition private_v4 (a : Z) : Prop :=
  quad 127 0 0 0 <= a <= quad 127 255 255 255 \/
  quad 10 0 0 0 <= a <= quad 10 255 255 255 \/
  quad 172 16 0 0 <= a <= quad 172 31 255 255 \/
  quad 192 168 0 0 <= a <= quad 192 168 255 255.

Lemma isLanAddrV4_private a : 0 <= a < 2 ^ 32 -> isLanAddrV4 a = true <-> private_v4 a.
Proof.
  intros Ha. unfold isLanAddrV4, private_v4, quad.
  rewrite (prefix_test a 0xFF000000 0x7F000000 24 32) by (reflexivity || lia).
  rewrite (prefix_test a 0xFF000000 0x0A000000 24 32) by (reflexivity || lia).
  rewrite (prefix_test a 0xFFF00000 0xAC100000 20 32) by (reflexivity || lia).
  rewrite (prefix_test a 0xFFFF0000 0xC0A80000 16 32) by (reflexivity || lia).
  rewrite !orb_true_iff, !andb_true_iff, !Z.leb_le, !Z.ltb_lt. lia.
Qed.

Section Lan.
Context `{HI : Inet}.

Lemma isLanIP_v4 ip a : inet_pton4 (c_str ip) = Some a -> isLanIP ip = isLanAddrV4 a.
Proof.
  intros H. unfold isLanIP, isLanAddrV4. rewrite H.
  by repeat case_match_goal.
Qed.

Lemma isLanIP_v6 ip b :
  inet_pton4 (c_str ip) = None -> inet_pton6 (c_str ip) = Some b -> isLanIP ip = isLanAddrV6 b.
Proof. intros H4 H6. unfold isLanIP, isLanAddrV6. by rewrite H4, H6. Qed.

Lemma isLanIP_bad ip : inet_pton4 (c_str ip) = None -> inet_pton6 (c_str ip) = None -> isLanIP ip = false.
Proof. intros H4 H6. unfold isLanIP. by rewrite H4, H6. Qed.
End Lan.

(** A concrete [inet_pton] for the witnesses: dotted quads of 1 to 3 digits,
    and the two IPv6 literals "::1" and "fe80::1". *)
Definition parse_octet (s : str) : option Z :=
  if decide (s = []) then None
  else if (3 <? length s)%nat then None
  else if forallb is_digit s then
    let v := dec_val 0 s in if v <=? 255 then Some v else None
  else None.

Definition parse_quad (s : str) : option Z :=
  match split_char "." s with
  | [a; b; c; d] =>
      let? a := parse_octet a in let? b := parse_octet b in
      let? c := parse_octet c in let? d := parse_octet d in Some (quad a b c d)
  | _ => None
  end.

#[export] Instance sample_inet : Inet := {
  inet_pton4 := parse_quad;
  inet_pton6 s :=
    if decide (s = "::1") then Some (replicate 15 NUL ++ [byte_of 1])
    else if decide (s = "fe80::1")
         then Some (byte_of 0xFE :: byte_of 0x80 :: replicate 13 NUL ++ [byte_of 1])
    else None
}.

(** The server accepts an address in an A-line as private exactly when it
    parses as IPv4 inside 127/8, 10/8, 172.16/12 or 192.168/16 (the ranges
    spelled out), or as IPv6 that the client's own filter ([isLanAddrV6])
    calls private; the client's IPv4 filter is the same predicate. *)
Lemma isLanIP_spec `{Inet, !InetLaws _} (ip : str) :
  isLanIP ip = true <->
  match inet_pton4 (c_str ip), inet_pton6 (c_str ip) with
  | Some a, _ => private_v4 a /\ isLanAddrV4 a = true
  | None, Some b => isLanAddrV6 b = true
  | None, None => False
  end.
Proof.
  destruct (inet_pton4 (c_str ip)) as [a|] eqn:E4.
  - rewrite (isLanIP_v4 _ _ E4). pose proof (inet_pton4_range _ _ E4).
    rewrite <- isLanAddrV4_private by done. naive_solver.
  - destruct (inet_pton6 (c_str ip)) as [b|] eqn:E6.
    + by rewrite (isLanIP_v6 _ _ E4 E6).
    + by rewrite (isLanIP_bad _ E4 E6).
Qed.

Lemma parse_octet_range s v : parse_octet s = Some v -> 0 <= v <= 255.
Proof.
  unfold parse_octet. repeat case_match_goal; try done. intros [= <-]. bool_to_prop.
  split; [|done]. apply dec_val_nonneg; [lia|]. by apply forallb_Forall.
Qed.

#[export] Instance sample_inet_laws : InetLaws sample_inet.
Proof.
  split.
  - intros s a. simpl. unfold parse_quad.
    destruct (split_char "." s) as [|x [|y [|z [|w [|]]]]]; try done.
    destruct (parse_octet x) eqn:Ex; [|done]. destruct (parse_octet y) eqn:Ey; [|done].
    destruct (parse_octet z) eqn:Ez; [|done]. destruct (parse_octet w) eqn:Ew; [|done].
    apply parse_octet_range in Ex, Ey, Ez, Ew. intros [= <-]. unfold quad. lia.
  - intros s b. simpl. repeat case_decide; intros [= <-]; reflexivity.
Qed.

Lemma isLanIP_spec_witness :
  isLanIP "192.168.1.7" = true <->
  (private_v4 (quad 192 168 1 7) /\ isLanAddrV4 (quad 192 168 1 7) = true).
Proof. exact (isLanIP_spec "192.168.1.7"). Defined.
