(* ===== verification/SocketIo.v ===== *)
(** The exact reads and writes of the client on both platforms
    ([client_linux.cpp], [client_windows.cpp]) and the exact write of the
    server ([server_core.cpp]), over the results of the single TLS calls. The
    exact read of the server is in [Worker]. *)

From S2P Require Import Prelude CppString.
From stdpp Require Import list.
Local Open Scope Z_scope.

(* client_core.hpp:52-52 kMaxIOBytes *)
Definition kMaxIOBytes : Z := 2 * 1024 * 1024.
Definition INT_MAX : Z := 2 ^ 31 - 1.

Definition size_of (s : str) : Z := Z.of_nat (length s).

(** The size asked for in one call. *)
Definition chunk_of (n : Z) : Z := if n <? INT_MAX then n else INT_MAX.

(** ** Writing *)

(** [rs]: what successive [SSL_write]s return. The bytes that went out and
    the result; the end of [rs] is a call that does not succeed. *)
(* client_linux.cpp:70-80 writeExact, loop *)
Fixpoint write_loop (data : str) (rs : list Z) : str * bool :=
  match rs with
  | [] => ([], bool_decide (data = []))
  | r :: rs =>
      if decide (data = []) then ([], true)
      else if r <=? 0 then ([], false)
      else let (sent, ok) := write_loop (drop (Z.to_nat r) data) rs in (take (Z.to_nat r) data ++ sent, ok)
  end.

(* client_linux.cpp:66-81 writeExact *)
Definition writeExact (data : str) (rs : list Z) : str * bool :=
  if (size_of data =? 0) || (kMaxIOBytes <? size_of data) then ([], false) else write_loop data rs.

(* client_windows.cpp:63-78 writeExact *)
Definition writeExact_windows (data : str) (rs : list Z) : str * bool :=
  if (size_of data =? 0) || (kMaxIOBytes <? size_of data) then ([], false) else write_loop data rs.

(** The server passes the whole rest in every call. *)
(* server_core.cpp:492-512 writeExact *)
Definition writeExact_server (data : str) (rs : list Z) : str * bool :=
  if (size_of data =? 0) || (kMaxIOBytes <? size_of data) then ([], false) else write_loop data rs.

(** A call sends at most what it is given. *)
Fixpoint within (data : str) (rs : list Z) : Prop :=
  match rs with [] => True | r :: rs => r <= chunk_of (size_of data) /\ within (drop (Z.to_nat r) data) rs end.

(** ** Reading *)

(** What a call of [SSL_read] finds: bytes waiting, or nothing to be had. *)
(* client_linux.cpp:53-63 readExact, loop *)
Fixpoint read_loop (n : nat) (rs : list (option str)) : option str * list (option str) :=
  match n, rs with
  | O, _ => (Some [], rs)
  | _, Some b :: rs =>
      let got := take (Z.to_nat (chunk_of (Z.of_nat n))) b in
      let rest := drop (Z.to_nat (chunk_of (Z.of_nat n))) b in
      if decide (got = []) then (None, rs)
      else if (length got <? n)%nat then let (o, rs) := read_loop (n - length got) rs in (app got <$> o, rs)
      else (Some got, if decide (rest = []) then rs else Some rest :: rs)
  | _, None :: rs => (None, rs)
  | _, [] => (None, [])
  end.

(* client_linux.cpp:49-64 readExact *)
Definition readExact (n : nat) (rs : list (option str)) : option str * list (option str) :=
  if (Z.of_nat n =? 0) || (kMaxIOBytes <? Z.of_nat n) then (None, rs) else read_loop n rs.

(* client_windows.cpp:46-61 readExact *)
Definition readExact_windows (n : nat) (rs : list (option str)) : option str * list (option str) :=
  if (Z.of_nat n =? 0) || (kMaxIOBytes <? Z.of_nat n) then (None, rs) else read_loop n rs.

(** ** Lemmas *)

(** Within the limit of a call every request is whole. *)
Lemma chunk_whole n : n <= kMaxIOBytes -> chunk_of n = n.
Proof. unfold chunk_of, kMaxIOBytes, INT_MAX. intros H. by rewrite (proj2 (Z.ltb_lt _ _)) by lia. Qed.

Lemma write_loop_prefix rs : forall data, let '(sent, ok) := write_loop data rs in
  (exists rest, data = sent ++ rest) /\ (ok = true -> sent = data) /\ (within data rs -> ok = false -> sent <> data).
Proof.
  induction rs as [| r rs IH]; intros data; cbn [write_loop].
  - split; [by exists data |]. split; [by intros H%bool_decide_eq_true |]. intros _ H%bool_decide_eq_false E. by apply H.
  - destruct (decide (data = [])) as [-> | Hd]; [split; [by exists [] | done] |].
    destruct (r <=? 0) eqn:Er; [split; [by exists data |]; split; [done |]; intros _ _ E; by apply Hd |].
    specialize (IH (drop (Z.to_nat r) data)). destruct (write_loop _ rs) as [sent ok]. destruct IH as ([rest Hr] & Hok & Hno).
    split; [exists rest; by rewrite <- app_assoc, <- Hr, take_drop |]. split.
    + intros H. rewrite (Hok H). apply take_drop.
    + intros [_ Hw] H E. apply (Hno Hw H). apply (app_inv_head (take (Z.to_nat r) data)). by rewrite take_drop.
Qed.

(** What goes out is a beginning of the data; it is all of it exactly when the
    write reports success. *)
Lemma writeExact_spec data rs : 0 < size_of data <= kMaxIOBytes -> within data rs ->
  let '(sent, ok) := writeExact data rs in (exists rest, data = sent ++ rest) /\ (ok = true <-> sent = data).
Proof.
  intros Hn Hw. unfold writeExact. rewrite (proj2 (Z.eqb_neq _ _)), (proj2 (Z.ltb_ge _ _)) by lia. cbn [orb].
  pose proof (write_loop_prefix rs data) as H. destruct (write_loop data rs) as [sent ok]. destruct H as (H1 & H2 & H3).
  split; [done |]. split; [done |]. intros ->. destruct ok; [done |]. by destruct (H3 Hw eq_refl).
Qed.

(** More than 2 MiB are refused whole, although nothing bounds the text of a
    flush: a client whose table grew that far while it had no connection loses
    the connection, and the flows, with its first flush. *)
Lemma oversized_write_refused data rs : kMaxIOBytes < size_of data -> writeExact data rs = ([], false).
Proof. intros H. unfold writeExact. apply Z.ltb_lt in H as ->. by rewrite orb_true_r. Qed.

(** An exact read gives the next bytes of the stream, however they are cut. *)
Lemma read_loop_exact rs : forall n b rs', Z.of_nat n <= kMaxIOBytes -> read_loop n rs = (Some b, rs') ->
  length b = n /\ concat (default [] <$> rs) = b ++ concat (default [] <$> rs').
Proof.
  induction rs as [| [x |] rs IH]; intros [| n] b rs' Hn; cbn [read_loop]; try done; try (by intros [= <- <-]).
  rewrite chunk_whole, Nat2Z.id by done. cbv zeta. intros H. destruct (decide (take (S n) x = [])); [done |].
  destruct (Nat.ltb_spec (length (take (S n) x)) (S n)) as [Hl | Hl]; rewrite length_take in Hl.
  - rewrite (take_ge x (S n)) in H by lia. destruct (read_loop _ rs) as [[o |] rs1] eqn:E; [| done]. injection H as <- <-.
    apply IH in E as [E1 E2]; [| lia]. rewrite length_app, E1. split; [lia |]. cbn. by rewrite <- app_assoc, <- E2.
  - injection H as <- <-. rewrite length_take. split; [lia |]. cbn [fmap list_fmap concat].
    transitivity ((take (S n) x ++ drop (S n) x) ++ concat (default [] <$> rs)); [by rewrite take_drop |].
    rewrite <- app_assoc. f_equal. destruct (decide (drop (S n) x = [])) as [-> |]; done.
Qed.
