(* ===== verification/Health.v ===== *)
(** Health reports: the H-line the client composes ([client_impl.cpp],
    [senderLoop]) and [parseHealthLine] of [ntm_types.hpp], which turns the
    line's body into a [ClientHealthStats]. *)

From S2P Require Import Prelude CppString Wire.

(** ** The record *)

(* ntm_types.hpp:75-101 ClientHealthStats *)
Record ClientHealthStats := mkHealth {
  pcapRecv : Z;
  pcapDrop : Z;
  bufDrop : Z;
  reportedAtSec : Z;
  version : str;
  platform : str;
  wireProtoVersion : Z;
  aggIntervalMs : Z;
  aggFlows : Z;
  cfgTransport : str;
  cfgCompress : Z;
  cfgSendBuffer : Z;
  cfgAutoUpdate : Z;
  cfgReconnectAttempts : Z;
  cfgReconnectInterval : Z;
  cfgAggTarget : Z;
  cfgAggMinMs : Z;
  cfgAggMaxMs : Z;
  cfgAggMaxFlows : Z;
  cfgLogLevel : str
}.

(** Default member initialisers. *)
(* ntm_types.hpp:77-100 ClientHealthStats, initialisers *)
Definition empty_health : ClientHealthStats :=
  mkHealth 0 0 0 (-1) [] [] 0 0 0 [] (-1) 0 (-1) 0 0 0 0 0 0 [].

(** Assignments to single members. *)
Definition set_pcapRecv (v : Z) (h : ClientHealthStats) : ClientHealthStats :=
  mkHealth v (pcapDrop h) (bufDrop h) (reportedAtSec h) (version h) (platform h)
    (wireProtoVersion h) (aggIntervalMs h) (aggFlows h) (cfgTransport h) (cfgCompress h)
    (cfgSendBuffer h) (cfgAutoUpdate h) (cfgReconnectAttempts h) (cfgReconnectInterval h)
    (cfgAggTarget h) (cfgAggMinMs h) (cfgAggMaxMs h) (cfgAggMaxFlows h) (cfgLogLevel h).
Definition set_pcapDrop (v : Z) (h : ClientHealthStats) : ClientHealthStats :=
  mkHealth (pcapRecv h) v (bufDrop h) (reportedAtSec h) (version h) (platform h)
    (wireProtoVersion h) (aggIntervalMs h) (aggFlows h) (cfgTransport h) (cfgCompress h)
    (cfgSendBuffer h) (cfgAutoUpdate h) (cfgReconnectAttempts h) (cfgReconnectInterval h)
    (cfgAggTarget h) (cfgAggMinMs h) (cfgAggMaxMs h) (cfgAggMaxFlows h) (cfgLogLevel h).
Definition set_bufDrop (v : Z) (h : ClientHealthStats) : ClientHealthStats :=
  mkHealth (pcapRecv h) (pcapDrop h) v (reportedAtSec h) (version h) (platform h)
    (wireProtoVersion h) (aggIntervalMs h) (aggFlows h) (cfgTransport h) (cfgCompress h)
    (cfgSendBuffer h) (cfgAutoUpdate h) (cfgReconnectAttempts h) (cfgReconnectInterval h)
    (cfgAggTarget h) (cfgAggMinMs h) (cfgAggMaxMs h) (cfgAggMaxFlows h) (cfgLogLevel h).
Definition set_reportedAtSec (v : Z) (h : ClientHealthStats) : ClientHealthStats :=
  mkHealth (pcapRecv h) (pcapDrop h) (bufDrop h) v (version h) (platform h) (wireProtoVersion h)
    (aggIntervalMs h) (aggFlows h) (cfgTransport h) (cfgCompress h) (cfgSendBuffer h)
    (cfgAutoUpdate h) (cfgReconnectAttempts h) (cfgReconnectInterval h) (cfgAggTarget h)
    (cfgAggMinMs h) (cfgAggMaxMs h) (cfgAggMaxFlows h) (cfgLogLevel h).
Definition set_version (v : str) (h : ClientHealthStats) : ClientHealthStats :=
  mkHealth (pcapRecv h) (pcapDrop h) (bufDrop h) (reportedAtSec h) v (platform h)
    (wireProtoVersion h) (aggIntervalMs h) (aggFlows h) (cfgTransport h) (cfgCompress h)
    (cfgSendBuffer h) (cfgAutoUpdate h) (cfgReconnectAttempts h) (cfgReconnectInterval h)
    (cfgAggTarget h) (cfgAggMinMs h) (cfgAggMaxMs h) (cfgAggMaxFlows h) (cfgLogLevel h).
Definition set_platform (v : str) (h : ClientHealthStats) : ClientHealthStats :=
  mkHealth (pcapRecv h) (pcapDrop h) (bufDrop h) (reportedAtSec h) (version h) v
    (wireProtoVersion h) (aggIntervalMs h) (aggFlows h) (cfgTransport h) (cfgCompress h)
    (cfgSendBuffer h) (cfgAutoUpdate h) (cfgReconnectAttempts h) (cfgReconnectInterval h)
    (cfgAggTarget h) (cfgAggMinMs h) (cfgAggMaxMs h) (cfgAggMaxFlows h) (cfgLogLevel h).
Definition set_wireProtoVersion (v : Z) (h : ClientHealthStats) : ClientHealthStats :=
  mkHealth (pcapRecv h) (pcapDrop h) (bufDrop h) (reportedAtSec h) (version h) (platform h) v
    (aggIntervalMs h) (aggFlows h) (cfgTransport h) (cfgCompress h) (cfgSendBuffer h)
    (cfgAutoUpdate h) (cfgReconnectAttempts h) (cfgReconnectInterval h) (cfgAggTarget h)
    (cfgAggMinMs h) (cfgAggMaxMs h) (cfgAggMaxFlows h) (cfgLogLevel h).
Definition set_aggIntervalMs (v : Z) (h : ClientHealthStats) : ClientHealthStats :=
  mkHealth (pcapRecv h) (pcapDrop h) (bufDrop h) (reportedAtSec h) (version h) (platform h)
    (wireProtoVersion h) v (aggFlows h) (cfgTransport h) (cfgCompress h) (cfgSendBuffer h)
    (cfgAutoUpdate h) (cfgReconnectAttempts h) (cfgReconnectInterval h) (cfgAggTarget h)
    (cfgAggMinMs h) (cfgAggMaxMs h) (cfgAggMaxFlows h) (cfgLogLevel h).
Definition set_aggFlows (v : Z) (h : ClientHealthStats) : ClientHealthStats :=
  mkHealth (pcapRecv h) (pcapDrop h) (bufDrop h) (reportedAtSec h) (version h) (platform h)
    (wireProtoVersion h) (aggIntervalMs h) v (cfgTransport h) (cfgCompress h) (cfgSendBuffer h)
    (cfgAutoUpdate h) (cfgReconnectAttempts h) (cfgReconnectInterval h) (cfgAggTarget h)
    (cfgAggMinMs h) (cfgAggMaxMs h) (cfgAggMaxFlows h) (cfgLogLevel h).
Definition set_cfgTransport (v : str) (h : ClientHealthStats) : ClientHealthStats :=
  mkHealth (pcapRecv h) (pcapDrop h) (bufDrop h) (reportedAtSec h) (version h) (platform h)
    (wireProtoVersion h) (aggIntervalMs h) (aggFlows h) v (cfgCompress h) (cfgSendBuffer h)
    (cfgAutoUpdate h) (cfgReconnectAttempts h) (cfgReconnectInterval h) (cfgAggTarget h)
    (cfgAggMinMs h) (cfgAggMaxMs h) (cfgAggMaxFlows h) (cfgLogLevel h).
Definition set_cfgCompress (v : Z) (h : ClientHealthStats) : ClientHealthStats :=
  mkHealth (pcapRecv h) (pcapDrop h) (bufDrop h) (reportedAtSec h) (version h) (platform h)
    (wireProtoVersion h) (aggIntervalMs h) (aggFlows h) (cfgTransport h) v (cfgSendBuffer h)
    (cfgAutoUpdate h) (cfgReconnectAttempts h) (cfgReconnectInterval h) (cfgAggTarget h)
    (cfgAggMinMs h) (cfgAggMaxMs h) (cfgAggMaxFlows h) (cfgLogLevel h).
Definition set_cfgSendBuffer (v : Z) (h : ClientHealthStats) : ClientHealthStats :=
  mkHealth (pcapRecv h) (pcapDrop h) (bufDrop h) (reportedAtSec h) (version h) (platform h)
    (wireProtoVersion h) (aggIntervalMs h) (aggFlows h) (cfgTransport h) (cfgCompress h) v
    (cfgAutoUpdate h) (cfgReconnectAttempts h) (cfgReconnectInterval h) (cfgAggTarget h)
    (cfgAggMinMs h) (cfgAggMaxMs h) (cfgAggMaxFlows h) (cfgLogLevel h).
Definition set_cfgAutoUpdate (v : Z) (h : ClientHealthStats) : ClientHealthStats :=
  mkHealth (pcapRecv h) (pcapDrop h) (bufDrop h) (reportedAtSec h) (version h) (platform h)
    (wireProtoVersion h) (aggIntervalMs h) (aggFlows h) (cfgTransport h) (cfgCompress h)
    (cfgSendBuffer h) v (cfgReconnectAttempts h) (cfgReconnectInterval h) (cfgAggTarget h)
    (cfgAggMinMs h) (cfgAggMaxMs h) (cfgAggMaxFlows h) (cfgLogLevel h).
Definition set_cfgReconnectAttempts (v : Z) (h : ClientHealthStats) : ClientHealthStats :=
  mkHealth (pcapRecv h) (pcapDrop h) (bufDrop h) (reportedAtSec h) (version h) (platform h)
    (wireProtoVersion h) (aggIntervalMs h) (aggFlows h) (cfgTransport h) (cfgCompress h)
    (cfgSendBuffer h) (cfgAutoUpdate h) v (cfgReconnectInterval h) (cfgAggTarget h)
    (cfgAggMinMs h) (cfgAggMaxMs h) (cfgAggMaxFlows h) (cfgLogLevel h).
Definition set_cfgReconnectInterval (v : Z) (h : ClientHealthStats) : ClientHealthStats :=
  mkHealth (pcapRecv h) (pcapDrop h) (bufDrop h) (reportedAtSec h) (version h) (platform h)
    (wireProtoVersion h) (aggIntervalMs h) (aggFlows h) (cfgTransport h) (cfgCompress h)
    (cfgSendBuffer h) (cfgAutoUpdate h) (cfgReconnectAttempts h) v (cfgAggTarget h)
    (cfgAggMinMs h) (cfgAggMaxMs h) (cfgAggMaxFlows h) (cfgLogLevel h).
Definition set_cfgAggTarget (v : Z) (h : ClientHealthStats) : ClientHealthStats :=
  mkHealth (pcapRecv h) (pcapDrop h) (bufDrop h) (reportedAtSec h) (version h) (platform h)
    (wireProtoVersion h) (aggIntervalMs h) (aggFlows h) (cfgTransport h) (cfgCompress h)
    (cfgSendBuffer h) (cfgAutoUpdate h) (cfgReconnectAttempts h) (cfgReconnectInterval h) v
    (cfgAggMinMs h) (cfgAggMaxMs h) (cfgAggMaxFlows h) (cfgLogLevel h).
Definition set_cfgAggMinMs (v : Z) (h : ClientHealthStats) : ClientHealthStats :=
  mkHealth (pcapRecv h) (pcapDrop h) (bufDrop h) (reportedAtSec h) (version h) (platform h)
    (wireProtoVersion h) (aggIntervalMs h) (aggFlows h) (cfgTransport h) (cfgCompress h)
    (cfgSendBuffer h) (cfgAutoUpdate h) (cfgReconnectAttempts h) (cfgReconnectInterval h)
    (cfgAggTarget h) v (cfgAggMaxMs h) (cfgAggMaxFlows h) (cfgLogLevel h).
Definition set_cfgAggMaxMs (v : Z) (h : ClientHealthStats) : ClientHealthStats :=
  mkHealth (pcapRecv h) (pcapDrop h) (bufDrop h) (reportedAtSec h) (version h) (platform h)
    (wireProtoVersion h) (aggIntervalMs h) (aggFlows h) (cfgTransport h) (cfgCompress h)
    (cfgSendBuffer h) (cfgAutoUpdate h) (cfgReconnectAttempts h) (cfgReconnectInterval h)
    (cfgAggTarget h) (cfgAggMinMs h) v (cfgAggMaxFlows h) (cfgLogLevel h).
Definition set_cfgAggMaxFlows (v : Z) (h : ClientHealthStats) : ClientHealthStats :=
  mkHealth (pcapRecv h) (pcapDrop h) (bufDrop h) (reportedAtSec h) (version h) (platform h)
    (wireProtoVersion h) (aggIntervalMs h) (aggFlows h) (cfgTransport h) (cfgCompress h)
    (cfgSendBuffer h) (cfgAutoUpdate h) (cfgReconnectAttempts h) (cfgReconnectInterval h)
    (cfgAggTarget h) (cfgAggMinMs h) (cfgAggMaxMs h) v (cfgLogLevel h).
Definition set_cfgLogLevel (v : str) (h : ClientHealthStats) : ClientHealthStats :=
  mkHealth (pcapRecv h) (pcapDrop h) (bufDrop h) (reportedAtSec h) (version h) (platform h)
    (wireProtoVersion h) (aggIntervalMs h) (aggFlows h) (cfgTransport h) (cfgCompress h)
    (cfgSendBuffer h) (cfgAutoUpdate h) (cfgReconnectAttempts h) (cfgReconnectInterval h)
    (cfgAggTarget h) (cfgAggMinMs h) (cfgAggMaxMs h) (cfgAggMaxFlows h) v.

(** ** Field parsers *)

(** [try { dst = std::stoull(val); } catch (...) {}]. *)
(* ntm_types.hpp:137-139 parseHealthLine, toU64 *)
Definition toU64 (val : str) (dst : Z) : Z :=
  match stoull val with StoOk v _ => v | _ => dst end.

(* ntm_types.hpp:140-145 parseHealthLine, toU32 *)
Definition toU32 (val : str) (dst : Z) : Z :=
  match stoull val with
  | StoOk v _ => if 0xFFFFFFFF <? v then 0xFFFFFFFF else v
  | _ => dst
  end.

(* ntm_types.hpp:146-148 parseHealthLine, toUint *)
Definition toUint (val : str) (dst : Z) : Z :=
  match stoull val with StoOk v _ => u32 v | _ => dst end.

(* ntm_types.hpp:150-153 parseHealthLine, toI8Bool *)
Definition toI8Bool (val : str) (dst : Z) : Z :=
  if decide (val = "1") then 1 else if decide (val = "0") then 0 else dst.

(** The dispatch on the key. *)
(* ntm_types.hpp:155-174 parseHealthLine, field dispatch *)
Definition apply_field (key val : str) (h : ClientHealthStats) : ClientHealthStats :=
  if decide (key = "pcap_recv") then set_pcapRecv (toU64 val (pcapRecv h)) h
  else if decide (key = "pcap_drop") then set_pcapDrop (toU64 val (pcapDrop h)) h
  else if decide (key = "buf_drop") then set_bufDrop (toU64 val (bufDrop h)) h
  else if decide (key = "wire_proto") then set_wireProtoVersion (toUint val (wireProtoVersion h)) h
  else if decide (key = "ver") then set_version (substr val 0 64) h
  else if decide (key = "platform") then set_platform (substr val 0 64) h
  else if decide (key = "agg_interval_ms") then set_aggIntervalMs (toU32 val (aggIntervalMs h)) h
  else if decide (key = "agg_flows") then set_aggFlows (toU32 val (aggFlows h)) h
  else if decide (key = "cfg_transport") then (if decide (val = "tcp") then set_cfgTransport val h
    else if decide (val = "websocket") then set_cfgTransport val h else h)
  else if decide (key = "cfg_compress") then set_cfgCompress (toI8Bool val (cfgCompress h)) h
  else if decide (key = "cfg_send_buffer") then set_cfgSendBuffer (toU32 val (cfgSendBuffer h)) h
  else if decide (key = "cfg_auto_update") then set_cfgAutoUpdate (toI8Bool val (cfgAutoUpdate h)) h
  else if decide (key = "cfg_reconnect_attempts") then set_cfgReconnectAttempts (toU32 val (cfgReconnectAttempts h)) h
  else if decide (key = "cfg_reconnect_interval") then set_cfgReconnectInterval (toU32 val (cfgReconnectInterval h)) h
  else if decide (key = "cfg_agg_target") then set_cfgAggTarget (toU32 val (cfgAggTarget h)) h
  else if decide (key = "cfg_agg_min_ms") then set_cfgAggMinMs (toU32 val (cfgAggMinMs h)) h
  else if decide (key = "cfg_agg_max_ms") then set_cfgAggMaxMs (toU32 val (cfgAggMaxMs h)) h
  else if decide (key = "cfg_agg_max_flows") then set_cfgAggMaxFlows (toU32 val (cfgAggMaxFlows h)) h
  else if decide (key = "cfg_log_level") then (if decide (val = "Info") then set_cfgLogLevel val h
    else if decide (val = "Warn") then set_cfgLogLevel val h
    else if decide (val = "Err") then set_cfgLogLevel val h else h)
  else h.

(** ** The parser *)

Definition hsep (c : ascii) : bool := char_in [SP; CR] c.
Definition hword (c : ascii) : bool := negb (hsep c).

(** The scanning loop over the remaining body [s]. The fuel is the body's
    length: every round that does not stop consumes a byte. *)
(* ntm_types.hpp:112-175 parseHealthLine, loop *)
Fixpoint health_loop (fuel : nat) (s : str) (h : ClientHealthStats) : ClientHealthStats :=
  match fuel with
  | O => h
  | S fuel' =>
      match trim_front hsep s with
      | [] => h
      | s1 =>
          let (tok, rest) := span hword s1 in
          match find_char "=" s1 with
          | None => health_loop fuel' rest h
          | Some eq =>
              if (length tok <=? eq)%nat then health_loop fuel' rest h
              else
                let key := substr s1 0 eq in
                let (val, rest') := span hword (drop (S eq) s1) in
                if decide (val = []) then health_loop fuel' rest' h
                else health_loop fuel' rest' (apply_field key val h)
          end
      end
  end.

(* ntm_types.hpp:106-177 parseHealthLine *)
Definition parseHealthLine (body : str) : ClientHealthStats :=
  health_loop (length body) body empty_health.

(** ** The sender *)

Inductive LogLevel := LInfo | LWarn | LErr.

(* client_types.hpp:20-20 TransportMode *)
Inductive TransportMode := TcpTls | WebSocket.

#[export] Instance transport_eq_dec : EqDecision TransportMode.
Proof. solve_decision. Defined.


(** The client members an H-line is composed from. *)
Record HealthSource := mkHealthSource {
  totalPcapRecv_ : Z; totalPcapDrop_ : Z; sendBufDrops_ : Z;
  kClientVersion : str; kClientPlatform : str;
  aggInterval_ms : Z; aggLastFlows_ : Z;
  transportMode_ : TransportMode; useCompression_ : bool; cfgSendBufferBytes_ : Z;
  cfgAutoUpdate_ : bool; reconnectMaxAttempts_ : Z; reconnectIntervalSec_ : Z;
  cfgAggTargetLinesPerSec_ : Z; cfgAggMinIntervalMs_ : Z; cfgAggMaxIntervalMs_ : Z;
  aggMaxFlows_ : Z; currentLevel : LogLevel
}.

Definition bit_str (b : bool) : str := if b then "1" else "0".
Definition transport_str (t : TransportMode) : str :=
  match t with WebSocket => "websocket" | TcpTls => "tcp" end.
Definition level_str (l : LogLevel) : str :=
  match l with LWarn => "Warn" | LErr => "Err" | LInfo => "Info" end.

(** The line after the "H " prefix and before the newline. *)
(* client_impl.cpp:677-700 senderLoop, hLine *)
Definition health_body (s : HealthSource) : str :=
  "pcap_recv=" ++ to_string (totalPcapRecv_ s)
  ++ " pcap_drop=" ++ to_string (totalPcapDrop_ s)
  ++ " buf_drop=" ++ to_string (sendBufDrops_ s)
  ++ " ver=" ++ kClientVersion s
  ++ " wire_proto=" ++ to_string kWireProtoVersion
  ++ " platform=" ++ kClientPlatform s
  ++ " agg_interval_ms=" ++ to_string (aggInterval_ms s)
  ++ " agg_flows=" ++ to_string (aggLastFlows_ s)
  ++ " cfg_transport=" ++ transport_str (transportMode_ s)
  ++ " cfg_compress=" ++ bit_str (useCompression_ s)
  ++ " cfg_send_buffer=" ++ to_string (cfgSendBufferBytes_ s)
  ++ " cfg_auto_update=" ++ bit_str (cfgAutoUpdate_ s)
  ++ " cfg_reconnect_attempts=" ++ to_string (reconnectMaxAttempts_ s)
  ++ " cfg_reconnect_interval=" ++ to_string (reconnectIntervalSec_ s)
  ++ " cfg_agg_target=" ++ to_string (cfgAggTargetLinesPerSec_ s)
  ++ " cfg_agg_min_ms=" ++ to_string (cfgAggMinIntervalMs_ s)
  ++ " cfg_agg_max_ms=" ++ to_string (cfgAggMaxIntervalMs_ s)
  ++ " cfg_agg_max_flows=" ++ to_string (aggMaxFlows_ s)
  ++ " cfg_log_level=" ++ level_str (currentLevel s).

(** ** Lemmas: tokens *)

(** Text cut at every separator, empty fields dropped: the words the loop
    visits. *)
Fixpoint hfields (s : str) : list str :=
  match s with
  | [] => [[]]
  | c :: s' =>
      if hsep c then [] :: hfields s'
      else match hfields s' with
           | [] => [[c]]
           | t :: ts => (c :: t) :: ts
           end
  end.

Definition hwords (s : str) : list str := filter (fun w => w <> []) (hfields s).

(** What one word does: nothing unless it is [key=value] with a value. *)
Definition apply_word (h : ClientHealthStats) (w : str) : ClientHealthStats :=
  match cut "=" w with
  | Some (k, v) => if decide (v = []) then h else apply_field k v h
  | None => h
  end.

Lemma hfields_nonempty s : hfields s <> [].
Proof. destruct s as [|c s]; simpl; [done|]. destruct (hsep c); [done|]. by destruct (hfields s). Qed.

Lemma hfields_app a c b : hsep c = true -> hfields (a ++ c :: b) = hfields a ++ hfields b.
Proof.
  intros Hc. induction a as [|d a IH]; simpl; [by rewrite Hc|].
  destruct (hsep d); [by rewrite IH|]. rewrite IH.
  pose proof (hfields_nonempty a). by destruct (hfields a).
Qed.

Lemma hfields_word w : Forall (fun c => hword c = true) w -> hfields w = [w].
Proof.
  induction 1 as [|c w Hc _ IH]; [done|]. simpl.
  apply negb_true_iff in Hc. by rewrite Hc, IH.
Qed.

Lemma hwords_app a c b : hsep c = true -> hwords (a ++ c :: b) = hwords a ++ hwords b.
Proof. intros Hc. unfold hwords. by rewrite hfields_app, filter_app. Qed.

Lemma hwords_word w : w <> [] -> Forall (fun c => hword c = true) w -> hwords w = [w].
Proof.
  intros Hne Hw. unfold hwords. rewrite hfields_word by done.
  by rewrite filter_cons_True, filter_nil.
Qed.

Lemma hwords_trim s : hwords (trim_front hsep s) = hwords s.
Proof.
  induction s as [|c s IH]; [done|]. simpl. destruct (hsep c) eqn:E; [|done].
  rewrite IH. unfold hwords. simpl. rewrite E. by rewrite filter_cons_False by auto.
Qed.

(** The words of a text that starts with a word. *)
Lemma hwords_span w r :
  w <> [] -> Forall (fun c => hword c = true) w -> stops hword r ->
  hwords (w ++ r) = w :: hwords r.
Proof.
  intros Hne Hw Hr. destruct r as [|c r].
  - rewrite app_nil_r. by rewrite hwords_word.
  - simpl in Hr. apply negb_false_iff in Hr.
    rewrite hwords_app, hwords_word by done. simpl. f_equal.
    unfold hwords at 2. simpl. rewrite Hr. by rewrite filter_cons_False by auto.
Qed.

Lemma trim_front_stops f s : stops f (trim_front f s).
Proof. induction s as [|c s IH]; simpl; [done|]. destruct (f c) eqn:E; [done|]. simpl. by rewrite E. Qed.

Lemma trim_front_length f s : (length (trim_front f s) <= length s)%nat.
Proof. induction s as [|c s IH]; simpl; [lia|]. destruct (f c); simpl; lia. Qed.

(** The loop visits exactly the words, in order. *)
Lemma health_loop_words fuel s h :
  (length s <= fuel)%nat -> health_loop fuel s h = fold_left apply_word (hwords s) h.
Proof.
  revert s h. induction fuel as [|fuel IH]; intros s h Hf.
  { destruct s; simpl in Hf; [done|lia]. }
  cbn [health_loop]. rewrite <- (hwords_trim s).
  pose proof (trim_front_stops hsep s) as Hst. pose proof (trim_front_length hsep s) as Hlen.
  destruct (trim_front hsep s) as [|c s1] eqn:Et; [done|]. clear Et.
  set (s2 := c :: s1) in *.
  destruct (span hword s2) as [tok rest] eqn:Esp. apply span_spec in Esp as (E2 & Htok & Hrest).
  assert (Hne : tok <> []).
  { intros ->. simpl in E2. subst rest. simpl in Hst, Hrest. unfold hword in Hrest.
    by rewrite Hst in Hrest. }
  rewrite E2 at 2. rewrite E2 in Hlen. rewrite E2, hwords_span by done.
  cbn [fold_left]. rewrite length_app in Hlen.
  assert (length tok <> 0)%nat by (by destruct tok).
  unfold apply_word at 2, cut.
  destruct (decide ("="%char ∈ tok)) as [Hin|Hin].
  - destruct (find_char "=" tok) as [i|] eqn:Ei; [|by apply find_char_None in Ei].
    destruct (find_char_Some _ _ _ Ei) as (Htk & Hno).
    pose proof (find_char_lt _ _ _ Ei) as Hi.
    assert (Ea : find_char "=" (tok ++ rest) = Some i).
    { rewrite Htk at 1. rewrite <- app_assoc. cbn [app]. rewrite find_char_app by done.
      f_equal. rewrite length_take. lia. }
    rewrite Ea, (proj2 (Nat.leb_gt _ _)) by lia. unfold substr.
    rewrite drop_0, take_app_le, drop_app_le by lia.
    rewrite span_app; [|by apply Forall_drop|done].
    rewrite !IH by lia. case_decide; done.
  - rewrite (proj2 (find_char_None _ tok) Hin).
    destruct (find_char "=" (tok ++ rest)) as [i|] eqn:Ei; [|apply IH; lia].
    destruct (find_char_Some _ _ _ Ei) as (Htk & Hno).
    pose proof (find_char_lt _ _ _ Ei) as Hi.
    rewrite (proj2 (Nat.leb_le _ _)); [apply IH; lia|].
    destruct (decide (length tok <= i)%nat) as [|Hlt]; [done|]. exfalso. apply Hin.
    apply (list_elem_of_lookup_2 _ i). rewrite <- (lookup_app_l _ rest) by lia. rewrite Htk.
    rewrite list_lookup_middle; [done|]. rewrite length_take. lia.
Qed.
(** The parser is a fold over the words of the line. *)
Lemma parseHealthLine_words body :
  parseHealthLine body = fold_left apply_word (hwords body) empty_health.
Proof. by apply health_loop_words. Qed.

(** ** Lemmas: the printed line *)

Definition kv (k v : str) : str := k ++ "=" ++ v.

Fixpoint join_sp (ws : list str) : str :=
  match ws with
  | [] => []
  | [w] => w
  | w :: ws' => w ++ SP :: join_sp ws'
  end.

(** A non-empty word: what a value must be to survive the line. *)
Definition hvalue (v : str) : Prop := v <> [] /\ Forall (fun c => hword c = true) v.

Lemma hwords_join ws : Forall hvalue ws -> hwords (join_sp ws) = ws.
Proof.
  induction 1 as [|w ws [Hne Hw] Hws IH]; [done|].
  destruct ws as [|w' ws]; [by apply hwords_word|].
  change (join_sp (w :: w' :: ws)) with (w ++ SP :: join_sp (w' :: ws)).
  by rewrite hwords_app, IH, hwords_word.
Qed.

Definition health_pairs (s : HealthSource) : list (str * str) := [
  ("pcap_recv" : str, to_string (totalPcapRecv_ s));
  ("pcap_drop" : str, to_string (totalPcapDrop_ s));
  ("buf_drop" : str, to_string (sendBufDrops_ s));
  ("ver" : str, kClientVersion s);
  ("wire_proto" : str, to_string kWireProtoVersion);
  ("platform" : str, kClientPlatform s);
  ("agg_interval_ms" : str, to_string (aggInterval_ms s));
  ("agg_flows" : str, to_string (aggLastFlows_ s));
  ("cfg_transport" : str, transport_str (transportMode_ s));
  ("cfg_compress" : str, bit_str (useCompression_ s));
  ("cfg_send_buffer" : str, to_string (cfgSendBufferBytes_ s));
  ("cfg_auto_update" : str, bit_str (cfgAutoUpdate_ s));
  ("cfg_reconnect_attempts" : str, to_string (reconnectMaxAttempts_ s));
  ("cfg_reconnect_interval" : str, to_string (reconnectIntervalSec_ s));
  ("cfg_agg_target" : str, to_string (cfgAggTargetLinesPerSec_ s));
  ("cfg_agg_min_ms" : str, to_string (cfgAggMinIntervalMs_ s));
  ("cfg_agg_max_ms" : str, to_string (cfgAggMaxIntervalMs_ s));
  ("cfg_agg_max_flows" : str, to_string (aggMaxFlows_ s));
  ("cfg_log_level" : str, level_str (currentLevel s))].

(** The dispatch, key by key. *)
Lemma apply_pcap_recv val h :
  apply_field "pcap_recv" val h = set_pcapRecv (toU64 val (pcapRecv h)) h.
Proof. reflexivity. Qed.
Lemma apply_pcap_drop val h :
  apply_field "pcap_drop" val h = set_pcapDrop (toU64 val (pcapDrop h)) h.
Proof. reflexivity. Qed.
Lemma apply_buf_drop val h :
  apply_field "buf_drop" val h = set_bufDrop (toU64 val (bufDrop h)) h.
Proof. reflexivity. Qed.
Lemma apply_wire_proto val h :
  apply_field "wire_proto" val h = set_wireProtoVersion (toUint val (wireProtoVersion h)) h.
Proof. reflexivity. Qed.
Lemma apply_ver val h :
  apply_field "ver" val h = set_version (substr val 0 64) h.
Proof. reflexivity. Qed.
Lemma apply_platform val h :
  apply_field "platform" val h = set_platform (substr val 0 64) h.
Proof. reflexivity. Qed.
Lemma apply_agg_interval_ms val h :
  apply_field "agg_interval_ms" val h = set_aggIntervalMs (toU32 val (aggIntervalMs h)) h.
Proof. reflexivity. Qed.
Lemma apply_agg_flows val h :
  apply_field "agg_flows" val h = set_aggFlows (toU32 val (aggFlows h)) h.
Proof. reflexivity. Qed.
Lemma apply_cfg_transport val h :
  apply_field "cfg_transport" val h = (if decide (val = "tcp") then set_cfgTransport val h
    else if decide (val = "websocket") then set_cfgTransport val h else h).
Proof. reflexivity. Qed.
Lemma apply_cfg_compress val h :
  apply_field "cfg_compress" val h = set_cfgCompress (toI8Bool val (cfgCompress h)) h.
Proof. reflexivity. Qed.
Lemma apply_cfg_send_buffer val h :
  apply_field "cfg_send_buffer" val h = set_cfgSendBuffer (toU32 val (cfgSendBuffer h)) h.
Proof. reflexivity. Qed.
Lemma apply_cfg_auto_update val h :
  apply_field "cfg_auto_update" val h = set_cfgAutoUpdate (toI8Bool val (cfgAutoUpdate h)) h.
Proof. reflexivity. Qed.
Lemma apply_cfg_reconnect_attempts val h :
  apply_field "cfg_reconnect_attempts" val h = set_cfgReconnectAttempts (toU32 val (cfgReconnectAttempts h)) h.
Proof. reflexivity. Qed.
Lemma apply_cfg_reconnect_interval val h :
  apply_field "cfg_reconnect_interval" val h = set_cfgReconnectInterval (toU32 val (cfgReconnectInterval h)) h.
Proof. reflexivity. Qed.
Lemma apply_cfg_agg_target val h :
  apply_field "cfg_agg_target" val h = set_cfgAggTarget (toU32 val (cfgAggTarget h)) h.
Proof. reflexivity. Qed.
Lemma apply_cfg_agg_min_ms val h :
  apply_field "cfg_agg_min_ms" val h = set_cfgAggMinMs (toU32 val (cfgAggMinMs h)) h.
Proof. reflexivity. Qed.
Lemma apply_cfg_agg_max_ms val h :
  apply_field "cfg_agg_max_ms" val h = set_cfgAggMaxMs (toU32 val (cfgAggMaxMs h)) h.
Proof. reflexivity. Qed.
Lemma apply_cfg_agg_max_flows val h :
  apply_field "cfg_agg_max_flows" val h = set_cfgAggMaxFlows (toU32 val (cfgAggMaxFlows h)) h.
Proof. reflexivity. Qed.
Lemma apply_cfg_log_level val h :
  apply_field "cfg_log_level" val h = (if decide (val = "Info") then set_cfgLogLevel val h
    else if decide (val = "Warn") then set_cfgLogLevel val h
    else if decide (val = "Err") then set_cfgLogLevel val h else h).
Proof. reflexivity. Qed.
Create Rewrite HintDb health.
#[export] Hint Rewrite apply_pcap_recv
  apply_pcap_drop
  apply_buf_drop
  apply_wire_proto
  apply_ver
  apply_platform
  apply_agg_interval_ms
  apply_agg_flows
  apply_cfg_transport
  apply_cfg_compress
  apply_cfg_send_buffer
  apply_cfg_auto_update
  apply_cfg_reconnect_attempts
  apply_cfg_reconnect_interval
  apply_cfg_agg_target
  apply_cfg_agg_min_ms
  apply_cfg_agg_max_ms
  apply_cfg_agg_max_flows
  apply_cfg_log_level : health.

Lemma health_body_pairs s : health_body s = join_sp ((fun p => kv p.1 p.2) <$> health_pairs s).
Proof. reflexivity. Qed.

(** Members hold values of their C++ types, the two build-time labels are
    words of at most 64 bytes. *)
Definition source_ok (s : HealthSource) : Prop :=
  (0 <= totalPcapRecv_ s <= UINT64_MAX /\ 0 <= totalPcapDrop_ s <= UINT64_MAX /\
   0 <= sendBufDrops_ s <= UINT64_MAX) /\
  (hvalue (kClientVersion s) /\ hvalue (kClientPlatform s) /\
   (length (kClientVersion s) <= 64)%nat /\ (length (kClientPlatform s) <= 64)%nat) /\
  Forall (fun v => 0 <= v <= UINT32_MAX)
    [aggInterval_ms s; aggLastFlows_ s; cfgSendBufferBytes_ s; reconnectMaxAttempts_ s;
     reconnectIntervalSec_ s; cfgAggTargetLinesPerSec_ s; cfgAggMinIntervalMs_ s;
     cfgAggMaxIntervalMs_ s; aggMaxFlows_ s].

Definition bit_val (b : bool) : Z := if b then 1 else 0.

(** What the server should hold after the line. *)
Definition reported (s : HealthSource) : ClientHealthStats :=
  mkHealth (totalPcapRecv_ s) (totalPcapDrop_ s) (sendBufDrops_ s) (-1)
    (kClientVersion s) (kClientPlatform s) kWireProtoVersion
    (aggInterval_ms s) (aggLastFlows_ s) (transport_str (transportMode_ s))
    (bit_val (useCompression_ s)) (cfgSendBufferBytes_ s) (bit_val (cfgAutoUpdate_ s))
    (reconnectMaxAttempts_ s) (reconnectIntervalSec_ s) (cfgAggTargetLinesPerSec_ s)
    (cfgAggMinIntervalMs_ s) (cfgAggMaxIntervalMs_ s) (aggMaxFlows_ s)
    (level_str (currentLevel s)).

Lemma toU64_print v d : 0 <= v <= UINT64_MAX -> toU64 (to_string v) d = v.
Proof.
  intros Hv. unfold toU64. rewrite <- (app_nil_r (to_string v)).
  by rewrite stoull_to_string.
Qed.

Lemma toU32_print v d : 0 <= v <= UINT32_MAX -> toU32 (to_string v) d = v.
Proof.
  intros Hv. unfold toU32. rewrite <- (app_nil_r (to_string v)).
  rewrite stoull_to_string by (done || ulia).
  by rewrite (proj2 (Z.ltb_ge _ _)) by ulia.
Qed.

Lemma toI8Bool_print b d : toI8Bool (bit_str b) d = bit_val b.
Proof. by destruct b. Qed.

Lemma to_string_hvalue z : hvalue (to_string z).
Proof.
  split; [apply to_string_nonempty|].
  eapply List.Forall_impl; [|apply to_string_digits]. intros c Hc.
  assert (E : forallb (fun c => implb (is_digit c) (hword c)) all_bytes = true)
    by (vm_compute; reflexivity).
  pose proof (byte_forall _ E c) as H. cbv beta in H. by rewrite Hc in H.
Qed.

Lemma hvalue_kv k v :
  forallb hword k = true -> hvalue v -> hvalue (kv k v).
Proof.
  intros Hk [Hne Hv]. split; [by destruct k|]. apply Forall_app. split; [by apply forallb_Forall|].
  constructor; [reflexivity|done].
Qed.

Lemma apply_word_kv h k v :
  forallb (fun c => negb (bool_decide (c = "="%char))) k = true -> v <> [] ->
  apply_word h (kv k v) = apply_field k v h.
Proof.
  intros Hk Hv. unfold apply_word, kv.
  change (k ++ "=" ++ v) with (k ++ "="%char :: v). rewrite cut_app.
  - by rewrite decide_False.
  - intros Hin. rewrite forallb_Forall, Forall_forall in Hk. by specialize (Hk _ Hin).
Qed.

Definition clean_key (k : str) : bool :=
  forallb hword k && forallb (fun c => negb (bool_decide (c = "="%char))) k.

(** Printing clean pairs and parsing them back applies each field in turn. *)
Lemma parse_pairs ps :
  Forall (fun p => clean_key p.1 = true /\ hvalue p.2) ps ->
  parseHealthLine (join_sp ((fun p => kv p.1 p.2) <$> ps))
  = fold_left (fun h p => apply_field p.1 p.2 h) ps empty_health.
Proof.
  intros H. rewrite parseHealthLine_words, hwords_join.
  - generalize empty_health. induction H as [|[k v] ps [Hk [Hv _]] _ IH]; intros h; [done|].
    cbn [fmap list_fmap fold_left]. apply andb_true_iff in Hk as [_ Hk].
    by rewrite apply_word_kv, IH by done.
  - apply Forall_fmap. eapply Forall_impl; [done|]. intros [k v] [Hk Hv]. simpl.
    apply andb_true_iff in Hk as [Hk _]. by apply hvalue_kv.
Qed.

Lemma health_pairs_ok s :
  source_ok s -> Forall (fun p => clean_key p.1 = true /\ hvalue p.2) (health_pairs s).
Proof.
  intros (_ & (Hv & Hp & _) & _). unfold health_pairs.
  repeat (apply List.Forall_cons; [split; [vm_compute; reflexivity|];
    first [apply to_string_hvalue | done | idtac]|]); [..|apply List.Forall_nil]; cbn [snd].
  - destruct (transportMode_ s); split; try discriminate; repeat constructor.
  - destruct (useCompression_ s); split; try discriminate; repeat constructor.
  - destruct (cfgAutoUpdate_ s); split; try discriminate; repeat constructor.
  - destruct (currentLevel s); split; try discriminate; repeat constructor.
Qed.

(** One field of a printed line applied to a flat record. *)
Lemma fold_pairs_cons k v ps h :
  fold_left (fun h p => apply_field p.1 p.2 h) ((k, v) :: ps) h
  = fold_left (fun h p => apply_field p.1 p.2 h) ps (apply_field k v h).
Proof. reflexivity. Qed.

Ltac health_step :=
  rewrite fold_pairs_cons; autorewrite with health;
  cbn beta iota delta [set_pcapRecv pcapRecv
    set_pcapDrop pcapDrop
    set_bufDrop bufDrop
    set_reportedAtSec reportedAtSec
    set_version version
    set_platform platform
    set_wireProtoVersion wireProtoVersion
    set_aggIntervalMs aggIntervalMs
    set_aggFlows aggFlows
    set_cfgTransport cfgTransport
    set_cfgCompress cfgCompress
    set_cfgSendBuffer cfgSendBuffer
    set_cfgAutoUpdate cfgAutoUpdate
    set_cfgReconnectAttempts cfgReconnectAttempts
    set_cfgReconnectInterval cfgReconnectInterval
    set_cfgAggTarget cfgAggTarget
    set_cfgAggMinMs cfgAggMinMs
    set_cfgAggMaxMs cfgAggMaxMs
    set_cfgAggMaxFlows cfgAggMaxFlows
    set_cfgLogLevel cfgLogLevel];
  rewrite ?toU64_print, ?toU32_print, ?toI8Bool_print by done;
  unfold substr; rewrite ?drop_0, ?take_ge by lia.

(** ** Properties *)

(** C33: round trip of a health report: whatever counters, settings and labels
    the client puts in its H-line, the server's parser recovers every one of
    them, field by field, in the record it stores for the client. *)
Theorem parseHealthLine_roundtrip (s : HealthSource) :
  source_ok s -> parseHealthLine (health_body s) = reported s.
Proof.
  intros Hs. rewrite health_body_pairs, parse_pairs by by apply health_pairs_ok.
  destruct Hs as ((H1 & H2 & H3) & (_ & _ & Lv & Lp) & HF).
  repeat match goal with H : Forall _ (_ :: _) |- _ => apply List.Forall_cons_iff in H as [? H] end.
  unfold health_pairs, reported, empty_health.
  do 19 health_step. cbn [fold_left].
  by destruct (transportMode_ s), (currentLevel s).
Qed.

Definition sample_source : HealthSource :=
  mkHealthSource 120 3 0 "1.23.0" "linux-amd64" 250 42 WebSocket true 65536 false 10 60
    500 100 5000 10000 LWarn.

Lemma parseHealthLine_roundtrip_witness :
  parseHealthLine (health_body sample_source) = reported sample_source.
Proof.
  apply (parseHealthLine_roundtrip sample_source). unfold source_ok, sample_source.
  split_conj; try (split; [discriminate|]); simpl; try ulia.
  1,2: repeat constructor.
  repeat (apply List.Forall_cons; [ulia|]). apply List.Forall_nil.
Defined.

Definition health_keys : list str :=
  ["pcap_recv" : str;
   "pcap_drop" : str;
   "buf_drop" : str;
   "wire_proto" : str;
   "ver" : str;
   "platform" : str;
   "agg_interval_ms" : str;
   "agg_flows" : str;
   "cfg_transport" : str;
   "cfg_compress" : str;
   "cfg_send_buffer" : str;
   "cfg_auto_update" : str;
   "cfg_reconnect_attempts" : str;
   "cfg_reconnect_interval" : str;
   "cfg_agg_target" : str;
   "cfg_agg_min_ms" : str;
   "cfg_agg_max_ms" : str;
   "cfg_agg_max_flows" : str;
   "cfg_log_level" : str].

Lemma apply_field_unknown k v h : k ∉ health_keys -> apply_field k v h = h.
Proof.
  intros Hk. unfold health_keys in Hk. repeat rewrite not_elem_of_cons in Hk.
  unfold apply_field. rewrite !decide_False by tauto. done.
Qed.

(** Forward compatibility of health reports: a [key=value] word with a key
    the server does not know, whatever its value and wherever it stands in the
    line, changes nothing in the parsed record. *)
Theorem health_unknown_key_ignored (a b k v : str) :
  k ∉ health_keys -> clean_key k = true -> hvalue v ->
  parseHealthLine (a ++ SP :: kv k v ++ SP :: b) = parseHealthLine (a ++ SP :: b).
Proof.
  intros Hun Hk Hv. apply andb_true_iff in Hk as [Hk1 Hk2].
  pose proof (hvalue_kv k v Hk1 Hv) as [Hne Hw].
  rewrite !parseHealthLine_words.
  rewrite (hwords_app a SP (kv k v ++ SP :: b)), (hwords_app a SP b) by reflexivity.
  rewrite (hwords_app (kv k v)), (hwords_word (kv k v)) by done.
  cbn [app]. rewrite !fold_left_app. cbn [fold_left]. destruct Hv as [Hv _].
  by rewrite apply_word_kv, apply_field_unknown.
Qed.

Lemma health_unknown_key_ignored_witness :
  parseHealthLine ("ver=2.0" ++ SP :: kv "cfg_new" "7" ++ SP :: ("pcap_recv=9" : str))
  = parseHealthLine ("ver=2.0" ++ SP :: ("pcap_recv=9" : str)).
Proof.
  apply (health_unknown_key_ignored "ver=2.0" "pcap_recv=9" "cfg_new" "7").
  - apply (bool_decide_unpack _). vm_compute. exact I.
  - vm_compute. reflexivity.
  - split; [discriminate|repeat constructor].
Defined.
