(* ===== verification/History.v ===== *)
(** Per-client traffic history ([ntm_types.hpp], [ClientHistoryRing],
    [addPacket]'s ring updates, [snapshotHistory]): fixed arrays of minute and
    hour slots addressed by the epoch modulo the array size, and the exact
    reading of the last minutes of traffic they give. *)

From S2P Require Import Prelude.
From stdpp Require Import sorting.
Local Open Scope Z_scope.

(** ** Data *)

(** [ClientMinuteBucket] and [ClientHourBucket]: the same members, the first
    holding the minute or the hour number; 0 means not yet written. *)
(* ntm_types.hpp:608-623 ClientMinuteBucket, ClientHourBucket *)
Record HistSlot := mkSlot {
  epoch : Z;
  inBytes : Z;
  outBytes : Z;
  inPackets : Z;
  outPackets : Z
}.

Definition empty_slot : HistSlot := mkSlot 0 0 0 0 0.

(* ntm_types.hpp:626-626 ClientHistoryRing, kMinuteSlots *)
Definition kMinuteSlots : nat := 1440.
(* ntm_types.hpp:627-627 ClientHistoryRing, kHourSlots *)
Definition kHourSlots : nat := 168.

(* ntm_types.hpp:624-630 ClientHistoryRing *)
Record ClientHistoryRing := mkRing {
  minutes : list HistSlot;
  hours : list HistSlot
}.

Definition empty_ring : ClientHistoryRing :=
  mkRing (replicate kMinuteSlots empty_slot) (replicate kHourSlots empty_slot).

(* ntm_types.hpp:633-640 HistoryBucket *)
Record HistoryBucket := mkHist {
  hb_t : Z; hb_inBytes : Z; hb_outBytes : Z; hb_inPackets : Z; hb_outPackets : Z
}.

(** ** Writing *)

(** Which side a packet is counted on, and its length. *)
Definition bump (isIn : bool) (length : Z) (s : HistSlot) : HistSlot :=
  if isIn
  then mkSlot (epoch s) (u64 (inBytes s + length)) (outBytes s) (u64 (inPackets s + 1)) (outPackets s)
  else mkSlot (epoch s) (inBytes s) (u64 (outBytes s + length)) (inPackets s) (u64 (outPackets s + 1)).

(** One slot array: select by [e % size], recycle a slot of another epoch,
    count. *)
(* ntm_types.hpp:811-815 addPacket, minute slot *)
Definition touch (size : nat) (e : Z) (isIn : bool) (length : Z) (slots : list HistSlot)
  : list HistSlot :=
  let i := Z.to_nat (e mod Z.of_nat size) in
  let s := default empty_slot (slots !! i) in
  let s := if epoch s =? e then s else mkSlot e 0 0 0 0 in
  <[i := bump isIn length s]> slots.

(* ntm_types.hpp:806-806 addPacket, epochMin *)
Definition epochMin (epochSec : Z) : Z := if 0 <? epochSec then epochSec / 60 else 0.
(* ntm_types.hpp:807-807 addPacket, epochHour *)
Definition epochHour (epochSec : Z) : Z := if 0 <? epochSec then epochSec / 3600 else 0.

(* ntm_types.hpp:803-822 addPacket, history rings *)
Definition record_packet (epochSec : Z) (isIn : bool) (length : Z) (r : ClientHistoryRing)
  : ClientHistoryRing :=
  mkRing (touch kMinuteSlots (epochMin epochSec) isIn length (minutes r))
         (touch kHourSlots (epochHour epochSec) isIn length (hours r)).

(** ** Reading *)

Definition to_hist (unit : Z) (s : HistSlot) : HistoryBucket :=
  mkHist (epoch s * unit) (inBytes s) (outBytes s) (inPackets s) (outPackets s).

(** The slot of epoch [e] when it holds that epoch and not a stale one. *)
Definition view (size : nat) (slots : list HistSlot) (e : Z) : option HistSlot :=
  let s := default empty_slot (slots !! Z.to_nat (e mod Z.of_nat size)) in
  if epoch s =? e then Some s else None.

(* ntm_types.hpp:954-971 snapshotHistory, fine ring *)
Definition fine_buckets (nowSec : Z) (mins : Z) (r : ClientHistoryRing) : list HistoryBucket :=
  let n := Nat.min (Z.to_nat mins) kMinuteSlots in
  let nowMin := epochMin nowSec in
  omap (fun i => to_hist 60 <$>
          view kMinuteSlots (minutes r) (u64 (nowMin - (Z.of_nat n - 1 - Z.of_nat i))))
       (seq 0 n).

Definition hist_le (a b : HistoryBucket) : Prop := hb_t a <= hb_t b.
#[export] Instance hist_le_dec : RelDecision hist_le.
Proof. intros a b. unfold hist_le. apply _. Defined.

(* ntm_types.hpp:973-988 snapshotHistory, coarse ring *)
Definition coarse_buckets (r : ClientHistoryRing) : list HistoryBucket :=
  merge_sort hist_le (to_hist 3600 <$> filter (fun s => epoch s <> 0) (hours r)).

(** ** Specification: what a packet log adds up to *)

(** A logged packet: its epoch number, direction and length. *)
Record Event := mkEvent { ev_epoch : Z; ev_in : bool; ev_len : Z }.

Definition at_epoch (e : Z) (log : list Event) : list Event := filter (fun v => ev_epoch v = e) log.

Definition sum_len (isIn : bool) (log : list Event) : Z :=
  foldr (fun v acc => if Bool.eqb (ev_in v) isIn then ev_len v + acc else acc) 0 log.
Definition count_dir (isIn : bool) (log : list Event) : Z :=
  foldr (fun v acc => if Bool.eqb (ev_in v) isIn then 1 + acc else acc) 0 log.

(** The totals of one epoch, modulo 2^64 as the counters are. *)
Definition epoch_totals (e : Z) (log : list Event) : HistSlot :=
  let l := at_epoch e log in
  mkSlot e (u64 (sum_len true l)) (u64 (sum_len false l)) (u64 (count_dir true l)) (u64 (count_dir false l)).

Definition expected (log : list Event) (e : Z) : option HistSlot :=
  if decide (at_epoch e log = []) then None else Some (epoch_totals e log).

Definition run (size : nat) (log : list Event) : list HistSlot :=
  fold_left (fun sl v => touch size (ev_epoch v) (ev_in v) (ev_len v) sl) log
            (replicate size empty_slot).

(** Epochs of a log never go back, and start after the epoch 0 that marks an
    unused slot. *)
Inductive ordered_log : list Event -> Prop :=
| ol_nil : ordered_log []
| ol_snoc log v :
    ordered_log log -> 0 < ev_epoch v ->
    Forall (fun w => ev_epoch w <= ev_epoch v) log -> ordered_log (log ++ [v]).

(** ** Lemmas *)

Lemma touch_length size e i l sl : length (touch size e i l sl) = length sl.
Proof. apply length_insert. Qed.

Lemma run_snoc size log v :
  run size (log ++ [v]) = touch size (ev_epoch v) (ev_in v) (ev_len v) (run size log).
Proof. unfold run. by rewrite fold_left_app. Qed.

Lemma run_length size log : length (run size log) = size.
Proof.
  induction log using rev_ind; [apply length_replicate|]. by rewrite run_snoc, touch_length.
Qed.

Lemma sum_len_app i l k : sum_len i (l ++ k) = sum_len i l + sum_len i k.
Proof. induction l as [|v l IH]; simpl; [done|]. destruct (Bool.eqb _ _); lia. Qed.

Lemma count_dir_app i l k : count_dir i (l ++ k) = count_dir i l + count_dir i k.
Proof. induction l as [|v l IH]; simpl; [done|]. destruct (Bool.eqb _ _); lia. Qed.

Lemma at_epoch_app e l k : at_epoch e (l ++ k) = at_epoch e l ++ at_epoch e k.
Proof. apply filter_app. Qed.

Lemma at_epoch_one e v : at_epoch e [v] = if decide (ev_epoch v = e) then [v] else [].
Proof.
  unfold at_epoch. destruct (decide (ev_epoch v = e)).
  - by rewrite filter_cons_True, filter_nil.
  - by rewrite filter_cons_False, filter_nil.
Qed.

(** Counting one more packet of the epoch is [bump]. *)
Lemma epoch_totals_snoc log v :
  epoch_totals (ev_epoch v) (log ++ [v])
  = bump (ev_in v) (ev_len v) (epoch_totals (ev_epoch v) log).
Proof.
  unfold epoch_totals. rewrite at_epoch_app, at_epoch_one, decide_True by done.
  rewrite !sum_len_app, !count_dir_app. unfold bump. cbn.
  by destruct (ev_in v); cbn; rewrite ?Z.add_0_r, ?u64_add_l.
Qed.

Lemma epoch_totals_other e log v :
  ev_epoch v <> e -> at_epoch e (log ++ [v]) = at_epoch e log.
Proof. intros Hv. rewrite at_epoch_app, at_epoch_one, decide_False by done. apply app_nil_r. Qed.

Lemma at_epoch_nil e log : at_epoch e log = [] <-> Forall (fun w => ev_epoch w <> e) log.
Proof.
  unfold at_epoch. induction log as [|w log IH]; [by split|].
  rewrite Forall_cons, filter_cons. destruct (decide (ev_epoch w = e)); [|tauto].
  split; [done|]. tauto.
Qed.

Lemma view_touch_same size e i l sl :
  (0 < size)%nat -> length sl = size ->
  view size (touch size e i l sl) e
  = Some (bump i l (default (mkSlot e 0 0 0 0) (view size sl e))).
Proof.
  intros Hs Hl. unfold view, touch.
  pose proof (Z.mod_pos_bound e (Z.of_nat size) ltac:(lia)).
  rewrite list_lookup_insert_eq by lia. cbn [default].
  set (s := default empty_slot _). destruct (epoch s =? e) eqn:E; cbn.
  - by destruct i; cbn; rewrite E.
  - by destruct i; cbn; rewrite Z.eqb_refl.
Qed.

Lemma touch_epoch size e i l sl :
  (0 < size)%nat -> length sl = size ->
  epoch (default empty_slot (touch size e i l sl !! Z.to_nat (e mod Z.of_nat size))) = e.
Proof.
  intros Hs Hl. pose proof (view_touch_same size e i l sl Hs Hl) as H. unfold view in H.
  set (s := default empty_slot _) in *. destruct (epoch s =? e) eqn:E; [|done].
  by apply Z.eqb_eq.
Qed.

(** Another epoch's slot is either untouched or recycled away. *)
Lemma view_touch_other size e e' i l sl :
  (0 < size)%nat -> length sl = size -> e <> e' ->
  view size (touch size e i l sl) e'
  = if decide (e mod Z.of_nat size = e' mod Z.of_nat size) then None else view size sl e'.
Proof.
  intros Hs Hl Hne. case_decide as Hm.
  - pose proof (touch_epoch size e i l sl Hs Hl) as H. unfold view. rewrite <- Hm.
    set (s := default empty_slot _) in *. by rewrite (proj2 (Z.eqb_neq _ _)) by lia.
  - unfold view, touch. rewrite list_lookup_insert_ne; [done|].
    pose proof (Z.mod_pos_bound e (Z.of_nat size) ltac:(lia)).
    pose proof (Z.mod_pos_bound e' (Z.of_nat size) ltac:(lia)). lia.
Qed.

Lemma mod_eq_far a b n : 0 < n -> a mod n = b mod n -> a <> b -> a - b < n -> b - a < n -> False.
Proof.
  intros Hn Hm Hne H1 H2. pose proof (Z.div_mod a n ltac:(lia)). pose proof (Z.div_mod b n ltac:(lia)).
  rewrite Hm in *. destruct (Z.lt_trichotomy (a / n) (b / n)) as [?|[?|?]]; nia.
Qed.

Lemma view_init size e : e <> 0 -> view size (replicate size empty_slot) e = None.
Proof.
  intros He. unfold view.
  assert (H : forall k, default empty_slot (replicate size empty_slot !! k) = empty_slot).
  { intros k. destruct (replicate size empty_slot !! k) as [s|] eqn:E; [|done].
    by apply lookup_replicate in E as [-> _]. }
  rewrite H. destruct (Z.eqb_spec (epoch empty_slot) e); [simpl in *; lia|done].
Qed.

(** The array shows exactly the log, over the last [size] epochs and beyond:
    nothing of an overwritten epoch is ever shown as current. *)
Lemma view_run size log :
  (0 < size)%nat -> ordered_log log ->
  forall e, 0 < e -> Forall (fun w => ev_epoch w - Z.of_nat size < e) log ->
  view size (run size log) e = expected log e.
Proof.
  intros Hs Hlog. induction Hlog as [|log v Hlog IH Hpos Hle]; intros e He Hwin.
  { unfold run. cbn [fold_left]. rewrite view_init by lia. reflexivity. }
  apply Forall_app in Hwin as [Hwin Hv]. apply List.Forall_cons_iff in Hv as [Hv _].
  rewrite run_snoc. pose proof (run_length size log) as Hlen.
  destruct (decide (ev_epoch v = e)) as [<-|Hne].
  - rewrite view_touch_same, IH by done. unfold expected.
    rewrite (decide_False (P := at_epoch (ev_epoch v) (log ++ [v]) = [])).
    2:{ rewrite at_epoch_app, at_epoch_one, decide_True by done. by destruct (at_epoch _ log). }
    rewrite epoch_totals_snoc. f_equal. f_equal.
    case_decide as Hn; [|done]. unfold epoch_totals. by rewrite Hn.
  - rewrite view_touch_other by done. unfold expected at 1.
    unfold epoch_totals. rewrite epoch_totals_other by done.
    case_decide as Hm; [|by rewrite IH].
    rewrite decide_True; [done|]. apply at_epoch_nil.
    eapply Forall_impl; [exact Hle|]. intros w Hw Heq. simpl in Hw.
    apply (mod_eq_far (ev_epoch v) e (Z.of_nat size)); lia || done.
Qed.

(** ** The ring of one client *)

(** A packet of the log: its time in seconds, direction and length. *)
Definition Packet : Type := Z * bool * Z.
Definition minute_event (p : Packet) : Event := mkEvent (epochMin p.1.1) p.1.2 p.2.
Definition hour_event (p : Packet) : Event := mkEvent (epochHour p.1.1) p.1.2 p.2.

Definition run_ring (ps : list Packet) : ClientHistoryRing :=
  fold_left (fun r p => record_packet p.1.1 p.1.2 p.2 r) ps empty_ring.

Lemma run_ring_snoc ps p : run_ring (ps ++ [p]) = record_packet p.1.1 p.1.2 p.2 (run_ring ps).
Proof. unfold run_ring. by rewrite fold_left_app. Qed.

Lemma run_ring_split ps :
  run_ring ps = mkRing (run kMinuteSlots (minute_event <$> ps)) (run kHourSlots (hour_event <$> ps)).
Proof.
  induction ps as [|p ps IH] using rev_ind; [reflexivity|].
  rewrite run_ring_snoc, IH, !fmap_app. cbn [fmap list_fmap]. by rewrite !run_snoc.
Qed.

(** Packets in order of time, none before the first minute of the epoch. *)
Inductive ordered_packets : list Packet -> Prop :=
| op_nil : ordered_packets []
| op_snoc ps p :
    ordered_packets ps -> 3600 <= p.1.1 ->
    Forall (fun q : Packet => q.1.1 <= p.1.1) ps -> ordered_packets (ps ++ [p]).

Lemma epochMin_mono a b : a <= b -> epochMin a <= epochMin b.
Proof.
  intros H. unfold epochMin. destruct (Z.ltb_spec 0 a), (Z.ltb_spec 0 b); try lia.
  all: first [apply Z.div_le_mono; lia | apply Z.div_pos; lia].
Qed.

Lemma epochMin_pos a : 3600 <= a -> 0 < epochMin a.
Proof. intros H. unfold epochMin. rewrite (proj2 (Z.ltb_lt _ _)) by lia. apply Z.div_str_pos. lia. Qed.

Lemma ordered_minutes ps : ordered_packets ps -> ordered_log (minute_event <$> ps).
Proof.
  induction 1 as [|ps p Hps IH Hp Hle]; [constructor|].
  rewrite fmap_app. apply ol_snoc; [done|by apply epochMin_pos|].
  apply Forall_fmap. eapply Forall_impl; [exact Hle|]. intros q Hq. by apply epochMin_mono.
Qed.

(** ** Properties *)

(** The minute histogram is exact: after any time-ordered sequence of
    packets, a request for the last [mins] minutes returns, oldest first, one
    bucket for each of the last min(mins, 1440) minutes that saw a packet,
    with that minute's byte and packet sums per direction, and nothing else:
    no slot left over from a previous day is ever reported. *)
Lemma fine_buckets_exact (ps : list Packet) (now mins : Z) :
  ordered_packets ps -> Forall (fun p : Packet => p.1.1 <= now) ps ->
  1440 * 60 <= now < 2 ^ 63 ->
  let n := Nat.min (Z.to_nat mins) kMinuteSlots in
  fine_buckets now mins (run_ring ps)
  = omap (fun i => to_hist 60 <$>
            expected (minute_event <$> ps) (epochMin now - Z.of_nat n + 1 + Z.of_nat i))
         (seq 0 n).
Proof.
  intros Hps Hnow Hr n. unfold fine_buckets. fold n. rewrite run_ring_split. cbn [minutes].
  assert (Hm : epochMin now = now / 60) by (unfold epochMin; by rewrite (proj2 (Z.ltb_lt _ _)) by lia).
  assert (1440 <= now / 60) by (apply Z.div_le_lower_bound; lia).
  assert (now / 60 < 2 ^ 63) by (apply Z.div_lt_upper_bound; lia).
  assert (Hn : (n <= 1440)%nat) by (unfold n, kMinuteSlots; lia).
  apply list_omap_ext. apply Forall_Forall2_diag, Forall_forall. intros i Hi.
  apply elem_of_seq in Hi. rewrite Hm, u64_small by lia.
  replace (now / 60 - (Z.of_nat n - 1 - Z.of_nat i)) with (now / 60 - Z.of_nat n + 1 + Z.of_nat i) by lia.
  rewrite view_run; [done|unfold kMinuteSlots; lia|by apply ordered_minutes|lia|].
  apply Forall_fmap. eapply Forall_impl; [exact Hnow|]. intros p Hp.
  pose proof (epochMin_mono _ _ Hp) as Hq. unfold compose. cbn. rewrite Hm in Hq.
  unfold kMinuteSlots. lia.
Qed.

Definition sample_packets : list Packet :=
  [(100000, true, 40); (100010, false, 60); (100070, true, 5)].

Lemma fine_buckets_exact_witness :
  fine_buckets 100080 3 (run_ring sample_packets)
  = omap (fun i => to_hist 60 <$>
            expected (minute_event <$> sample_packets) (epochMin 100080 - 3 + 1 + Z.of_nat i))
         (seq 0 3).
Proof.
  apply (fine_buckets_exact sample_packets 100080 3).
  - apply (op_snoc [(100000, true, 40); (100010, false, 60)]).
    + apply (op_snoc [(100000, true, 40)]).
      * apply (op_snoc []); [constructor|simpl; lia|constructor].
      * simpl. lia.
      * repeat constructor; simpl; lia.
    + simpl. lia.
    + repeat constructor; simpl; lia.
  - repeat constructor; simpl; lia.
  - lia.
Defined.

(** ** The hour ring *)

(** A written slot sits at its epoch's index. *)
Definition indexed (size : nat) (sl : list HistSlot) : Prop :=
  forall i s, sl !! i = Some s -> epoch s <> 0 -> Z.to_nat (epoch s mod Z.of_nat size) = i.

Lemma epoch_bump i l s : epoch (bump i l s) = epoch s.
Proof. by destruct i. Qed.

Lemma touch_indexed size e i l sl :
  indexed size sl -> indexed size (touch size e i l sl).
Proof.
  intros H j s Hj He. unfold touch in Hj.
  destruct (decide (Z.to_nat (e mod Z.of_nat size) = j)) as [Hx|Hx].
  - apply list_lookup_insert_Some in Hj as [(_ & <- & _)|(? & _)]; [|done].
    rewrite epoch_bump in *. rewrite <- Hx. case_match_goal; [|done].
    bool_to_prop. by f_equal; f_equal.
  - apply list_lookup_insert_Some in Hj as [(? & _)|(_ & Hj)]; [done|]. by apply H.
Qed.

Lemma run_indexed size log : indexed size (run size log).
Proof.
  induction log as [|v log IH] using rev_ind.
  - intros i s Hs. apply lookup_replicate in Hs as [-> _]. done.
  - rewrite run_snoc. by apply touch_indexed.
Qed.

Lemma view_elem size sl e s :
  (0 < size)%nat -> length sl = size -> indexed size sl -> e <> 0 ->
  view size sl e = Some s <-> s ∈ sl /\ epoch s = e.
Proof.
  intros Hs Hl Hi He. unfold view.
  pose proof (Z.mod_pos_bound e (Z.of_nat size) ltac:(lia)).
  destruct (lookup_lt_is_Some_2 sl (Z.to_nat (e mod Z.of_nat size))) as [t Ht]; [lia|].
  rewrite Ht. cbn [default]. cbn zeta. cbn [id]. unfold id. destruct (Z.eqb_spec (epoch t) e) as [E|E]; split.
  - intros [= <-]. split; [by eapply list_elem_of_lookup_2|done].
  - intros [Hin Hep]. apply list_elem_of_lookup in Hin as [j Hj].
    pose proof (Hi j s Hj ltac:(lia)) as Hx. rewrite Hep in Hx. congruence.
  - done.
  - intros [Hin Hep]. apply list_elem_of_lookup in Hin as [j Hj].
    pose proof (Hi j s Hj ltac:(lia)) as Hx. rewrite Hep in Hx. congruence.
Qed.

Lemma epochHour_mono a b : a <= b -> epochHour a <= epochHour b.
Proof.
  intros H. unfold epochHour. destruct (Z.ltb_spec 0 a), (Z.ltb_spec 0 b); try lia.
  all: first [apply Z.div_le_mono; lia | apply Z.div_pos; lia].
Qed.

Lemma ordered_hours ps : ordered_packets ps -> ordered_log (hour_event <$> ps).
Proof.
  induction 1 as [|ps p Hps IH Hp Hle]; [constructor|].
  rewrite fmap_app. apply ol_snoc; [done| |].
  - cbn. unfold epochHour. rewrite (proj2 (Z.ltb_lt _ _)) by lia. apply Z.div_str_pos. lia.
  - apply Forall_fmap. eapply Forall_impl; [exact Hle|]. intros q Hq. by apply epochHour_mono.
Qed.

#[export] Instance hist_le_total : Total hist_le.
Proof. intros a b. unfold hist_le. lia. Qed.

(** The hour histogram is sorted by time and exact over the last week: for
    every hour after [last packet - 168 h], a bucket starting at that hour is
    returned exactly when the hour saw packets, carrying their sums. *)
Lemma coarse_buckets_exact (ps : list Packet) :
  ordered_packets ps ->
  Sorted hist_le (coarse_buckets (run_ring ps)) /\
  forall e b, 0 < e -> Forall (fun p : Packet => epochHour p.1.1 - 168 < e) ps ->
    hb_t b = e * 3600 ->
    (b ∈ coarse_buckets (run_ring ps) <->
     to_hist 3600 <$> expected (hour_event <$> ps) e = Some b).
Proof.
  intros Hps. split; [apply Sorted_merge_sort, _|]. intros e b He Hwin Hb.
  unfold coarse_buckets. rewrite merge_sort_Permutation, list_elem_of_fmap.
  rewrite run_ring_split. cbn [hours].
  rewrite <- (view_run kHourSlots); [|unfold kHourSlots; lia|by apply ordered_hours|lia|].
  2:{ apply Forall_fmap. eapply Forall_impl; [exact Hwin|]. intros p Hp. cbn.
      unfold kHourSlots. simpl in Hp. lia. }
  rewrite fmap_Some. apply exist_proper. intros s. rewrite list_elem_of_filter.
  rewrite (view_elem kHourSlots);
    [|unfold kHourSlots; lia|apply run_length|apply run_indexed|lia].
  split; [|naive_solver lia].
  intros (-> & Hne & Hin). cbn in Hb. split; [|done]. split; [done|lia].
Qed.

Lemma coarse_buckets_exact_witness : Sorted hist_le (coarse_buckets (run_ring [(100000, true, 40)])).
Proof.
  apply (coarse_buckets_exact [(100000, true, 40)]).
  apply (op_snoc []); [constructor|simpl; lia|constructor].
Defined.

(** Hours older than the window stay listed until their slot is reused: two
    packets 200 hours apart are both reported, a span of more than the 168
    hours the ring is meant to cover. *)
Lemma coarse_reports_stale_hours :
  hb_t <$> coarse_buckets (run_ring [(36000, true, 40); (756000, true, 1)]) = [36000; 756000].
Proof. vm_compute. reflexivity. Qed.
