(* ===== verification/TrafficStats.v ===== *)
(** The aggregation store ([ntm_types.hpp], [TrafficStats]): sixteen shards of
    day buckets holding interface totals and flow, country and entity tables,
    with the caps, the rolling window, the overflow check, purge and
    snapshot. [Inet] is the address parser; hashing and the iteration order of
    the unordered maps are parameters. *)

From S2P Require Import Prelude CppString Wire History.

(** ** Parameters: the standard library's hash and hash-table order *)

(** [std::hash<std::string>] and the unspecified order in which an
    [unordered_map] is traversed. *)
Class StdHash := {
  std_hash : str -> Z;
  iter : forall {K} `{Countable K} {A}, gmap K A -> list (K * A)
}.

(** A [size_t] hash; every element is visited exactly once. *)
Class StdHashLaws (H : StdHash) := {
  std_hash_range : forall s, 0 <= std_hash s < 2 ^ 64;
  iter_perm : forall {K} `{Countable K} {A} (m : gmap K A), iter m ≡ₚ map_to_list m
}.

#[export] Instance sample_hash : StdHash := {
  std_hash s := Z.of_nat (length s) mod 2 ^ 64;
  iter K _ _ A m := map_to_list m
}.

#[export] Instance sample_hash_laws : StdHashLaws sample_hash.
Proof. split; [intros s; apply Z.mod_pos_bound; lia|reflexivity]. Qed.

(** ** Data *)

(* ntm_types.hpp:549-558 FlowKey *)
Definition FlowKey : Type := str * str.

(* ntm_types.hpp:560-567 FlowKeyHash *)
Definition FlowKeyHash `{StdHash} (k : FlowKey) : Z :=
  Z.lxor (u64 (std_hash k.1 * 1315423911)) (std_hash k.2).

(* ntm_types.hpp:569-573 Counter *)
Record Counter := mkCounter { packets : Z; bytes : Z }.

(* ntm_types.hpp:576-582 FlowStats *)
Record FlowStats := mkFlowStats {
  fs_packets : Z; fs_bytes : Z; firstSeenSec : Z; lastSeenSec : Z
}.

Definition zero_counter : Counter := mkCounter 0 0.
Definition zero_flow : FlowStats := mkFlowStats 0 0 (-1) (-1).

(* ntm_types.hpp:584-584 InterfaceTotals *)
Abbreviation InterfaceTotals := (gmap str Counter).
(* ntm_types.hpp:585-585 FlowMap *)
Abbreviation FlowMap := (gmap FlowKey FlowStats).
(* ntm_types.hpp:587-589 CountryFlowMap, EntityFlowMap *)
Abbreviation CounterMap := (gmap FlowKey Counter).

(* ntm_types.hpp:592-599 DayBucket *)
Record DayBucket := mkBucket {
  dayIndex : Z;
  totals : InterfaceTotals;
  flows : gmap str FlowMap;
  countryFlows : gmap str CounterMap;
  entityFlows : gmap str CounterMap
}.

(* ntm_types.hpp:659-671 TrafficStatsShard *)
Record Shard := mkShard {
  dayBuckets : list DayBucket;
  clientIfaces : gmap str (gset str);
  ifaceRejectCount : gmap str Z;
  clientHistory : gmap str ClientHistoryRing
}.

Definition empty_shard : Shard := mkShard [] ∅ ∅ ∅.

(** Construction parameters. *)
Record TSConfig := mkTSConfig {
  windowDays_ : nat;
  maxFlowEntriesPerKey_ : nat;
  maxEntityFlowEntriesPerKey_ : nat;
  maxIfacesPerClient_ : nat
}.

(* ntm_types.hpp:685-694 TrafficStats *)
Definition make_config (windowDays maxFlow maxEntity maxIfaces : nat) : TSConfig :=
  mkTSConfig (if (0 <? windowDays)%nat then windowDays else 7)
             (if (0 <? maxFlow)%nat then maxFlow else 1)
             (if (0 <? maxEntity)%nat then maxEntity else 1)
             (if (0 <? maxIfaces)%nat then maxIfaces else 1).

(** ** Pieces of [addPacket] *)

(** [m[k]] of a map with a default-constructed value. *)
Definition at_key {K} `{Countable K} {A} (d : A) (m : gmap K A) (k : K) : A := default d (m !! k).

(* ntm_types.hpp:993-998 wouldOverflow *)
Definition wouldOverflow (packets addPackets bytes addBytes : Z) : bool :=
  ((0 <? addPackets) && (UINT64_MAX - addPackets <? packets)) ||
  ((0 <? addBytes) && (UINT64_MAX - addBytes <? bytes)).

(* ntm_types.hpp:683-683 kShardCount *)
Definition kShardCount : nat := 16.
(* ntm_types.hpp:1001-1004 shardIndex *)
Definition shardIndex `{StdHash} (clientId : str) : nat :=
  Z.to_nat (Z.land (std_hash clientId) (Z.of_nat kShardCount - 1)).

(* ntm_types.hpp:731-731 addPacket, dayIndex *)
Definition day_index (epochSec : Z) : Z :=
  if 0 <=? epochSec then Z.quot epochSec 86400 else Z.quot (epochSec - 86399) 86400.

Definition empty_bucket (d : Z) : DayBucket := mkBucket d ∅ ∅ ∅ ∅.

(** The bucket of the day, created behind the others when the newest one is
    of another day: the older buckets and the current one. *)
(* ntm_types.hpp:748-751 addPacket, current bucket *)
Definition open_bucket (d : Z) (bs : list DayBucket) : list DayBucket * DayBucket :=
  match last bs with
  | Some b => if dayIndex b =? d then (removelast bs, b) else (bs, empty_bucket d)
  | None => (bs, empty_bucket d)
  end.

(** [std::min_element] by bytes: the first of the smallest. *)
Fixpoint min_element {A} (size_of : A -> Z) (l : list (FlowKey * A)) : option (FlowKey * A) :=
  match l with
  | [] => None
  | x :: l' =>
      match min_element size_of l' with
      | Some y => if size_of y.2 <? size_of x.2 then Some y else Some x
      | None => Some x
      end
  end.

(** Make room for [k]: at the cap, drop the entry with the fewest bytes. *)
(* ntm_types.hpp:755-768 addPacket, evictions *)
Definition make_room `{StdHash} {A} (size_of : A -> Z) (cap : nat) (k : FlowKey) (m : gmap FlowKey A)
  : gmap FlowKey A :=
  if (cap <=? size m)%nat && bool_decide (m !! k = None) then
    match min_element size_of (iter m) with
    | Some (victim, _) => delete victim m
    | None => m
    end
  else m.

Definition add_counter (c : Counter) (len : Z) : Counter :=
  mkCounter (u64 (packets c + 1)) (u64 (bytes c + len)).

(* ntm_types.hpp:787-794 addPacket, flow counter *)
Definition add_flow (f : FlowStats) (now len : Z) : FlowStats :=
  mkFlowStats (u64 (fs_packets f + 1)) (u64 (fs_bytes f + len))
    (if firstSeenSec f <? 0 then now else firstSeenSec f) now.

(** [while (size > windowDays_) pop_front()]. *)
(* ntm_types.hpp:800-801 addPacket, window *)
Definition trim_window (w : nat) (bs : list DayBucket) : list DayBucket :=
  drop (length bs - w) bs.

Inductive AddResult := Accepted | IfaceCapExceeded.

(** One packet's attributes as [addPacket] receives them. *)
Record PacketArgs := mkArgs {
  pa_clientId : str; pa_iface : str; pa_src : str; pa_dst : str;
  pa_srcCountry : str; pa_dstCountry : str; pa_srcEntity : str; pa_dstEntity : str;
  pa_length : Z   (* std::uint32_t *)
}.

(* ntm_types.hpp:732-732 addPacket, ciKey *)
Definition ci_key (clientId iface : str) : str := clientId ++ "|" ++ iface.

(** The counters of the packet after the caps have made room, and whether one
    of them would overflow. *)
(* ntm_types.hpp:752-798 addPacket, counters and overflow check *)
Definition bucket_add `{StdHash} (cfg : TSConfig) (p : PacketArgs) (now : Z) (b : DayBucket)
  : option DayBucket :=
  let ck := ci_key (pa_clientId p) (pa_iface p) in
  let flowKey := (pa_src p, pa_dst p) in
  let countryKey := (pa_srcCountry p, pa_dstCountry p) in
  let entityKey := (pa_srcEntity p, pa_dstEntity p) in
  let total := at_key zero_counter (totals b) ck in
  let flowMap := make_room fs_bytes (maxFlowEntriesPerKey_ cfg) flowKey (at_key ∅ (flows b) ck) in
  let entityFlowMap :=
    make_room bytes (maxEntityFlowEntriesPerKey_ cfg) entityKey (at_key ∅ (entityFlows b) ck) in
  let countryMap := at_key ∅ (countryFlows b) ck in
  let flowCounter := at_key zero_flow flowMap flowKey in
  let countryCounter := at_key zero_counter countryMap countryKey in
  let entityCounter := at_key zero_counter entityFlowMap entityKey in
  let len := pa_length p in
  if wouldOverflow (packets total) 1 (bytes total) len ||
     wouldOverflow (fs_packets flowCounter) 1 (fs_bytes flowCounter) len ||
     wouldOverflow (packets countryCounter) 1 (bytes countryCounter) len ||
     wouldOverflow (packets entityCounter) 1 (bytes entityCounter) len
  then None
  else Some (mkBucket (dayIndex b)
    (<[ck := add_counter total len]> (totals b))
    (<[ck := <[flowKey := add_flow flowCounter now len]> flowMap]> (flows b))
    (<[ck := <[countryKey := add_counter countryCounter len]> countryMap]> (countryFlows b))
    (<[ck := <[entityKey := add_counter entityCounter len]> entityFlowMap]> (entityFlows b))).

(** [addPacket] on the client's shard. [None] is undefined behaviour: on
    overflow the code resets the client, which erases the map nodes its
    references point to, and then assigns through those references. *)
(* ntm_types.hpp:715-825 addPacket *)
Definition addPacket `{StdHash, Inet} (cfg : TSConfig) (p : PacketArgs) (epochSec : Z) (s : Shard)
  : option (Shard * AddResult) :=
  let cid := pa_clientId p in
  let ifaceSet := at_key ∅ (clientIfaces s) cid in
  let isNewIface := bool_decide (pa_iface p ∉ ifaceSet) in
  if isNewIface && (maxIfacesPerClient_ cfg <=? size ifaceSet)%nat then
    Some (mkShard (dayBuckets s) (<[cid := ifaceSet]> (clientIfaces s))
            (<[cid := u64 (at_key 0 (ifaceRejectCount s) cid + 1)]> (ifaceRejectCount s))
            (clientHistory s), IfaceCapExceeded)
  else
    let ifaces := <[cid := {[pa_iface p]} ∪ ifaceSet]> (clientIfaces s) in
    let (older, current) := open_bucket (day_index epochSec) (dayBuckets s) in
    let? current' := bucket_add cfg p epochSec current in
    let isIn := isLanIP (pa_dst p) && negb (isLanIP (pa_src p)) in
    let ring := record_packet epochSec isIn (pa_length p) (at_key empty_ring (clientHistory s) cid) in
    Some (mkShard (trim_window (windowDays_ cfg) (older ++ [current'])) ifaces
            (ifaceRejectCount s) (<[cid := ring]> (clientHistory s)), Accepted).

(* ntm_types.hpp:828-834 getIfaceRejectCount *)
Definition getIfaceRejectCount (clientId : str) (s : Shard) : Z :=
  at_key 0 (ifaceRejectCount s) clientId.

(** ** Purge *)

Definition client_prefix (clientId : str) : str := clientId ++ "|".

(** Erase every key that starts with the client's prefix. *)
Definition erase_client {A} (prefix : str) (m : gmap str A) : gmap str A :=
  filter (fun kv => starts_with prefix kv.1 = false) m.

(* ntm_types.hpp:1010-1040 resetClientInShard, one bucket *)
Definition reset_bucket (prefix : str) (b : DayBucket) : DayBucket :=
  mkBucket (dayIndex b) (erase_client prefix (totals b)) (erase_client prefix (flows b))
    (erase_client prefix (countryFlows b)) (erase_client prefix (entityFlows b)).

(* ntm_types.hpp:1007-1045 resetClientInShard *)
Definition resetClientInShard (s : Shard) (clientId : str) : Shard :=
  mkShard (reset_bucket (client_prefix clientId) <$> dayBuckets s)
    (delete clientId (clientIfaces s)) (delete clientId (ifaceRejectCount s))
    (delete clientId (clientHistory s)).

(* ntm_types.hpp:838-859 purgeClient *)
Definition purgeClient `{StdHash} (s : Shard) (clientId : str) : Shard * bool :=
  (resetClientInShard s clientId,
   existsb (fun b => existsb (fun kv => starts_with (client_prefix clientId) kv.1) (iter (totals b)))
     (dayBuckets s)).

(** ** The sharded store *)

(* ntm_types.hpp:1047-1055 TrafficStats *)
Record TrafficStats := mkTS { ts_config : TSConfig; shards_ : list Shard }.

Definition new_ts (cfg : TSConfig) : TrafficStats := mkTS cfg (replicate kShardCount empty_shard).

(* ntm_types.hpp:725-727 addPacket, shard selection *)
Definition ts_addPacket `{StdHash, Inet} (p : PacketArgs) (epochSec : Z) (t : TrafficStats)
  : option (TrafficStats * AddResult) :=
  let i := shardIndex (pa_clientId p) in
  let? s := shards_ t !! i in
  let? (s', r) := addPacket (ts_config t) p epochSec s in
  Some (mkTS (ts_config t) (<[i := s']> (shards_ t)), r).

(* ntm_types.hpp:840-841 purgeClient, shard selection *)
Definition ts_purgeClient `{StdHash} (clientId : str) (t : TrafficStats) : option (TrafficStats * bool) :=
  let i := shardIndex clientId in
  let? s := shards_ t !! i in
  let (s', found) := purgeClient s clientId in
  Some (mkTS (ts_config t) (<[i := s']> (shards_ t)), found).

(** The day the window starts: the least day of the shards' oldest buckets,
    or the current time when there is none. *)
(* ntm_types.hpp:696-709 getAggregationWindowStart *)
Definition getAggregationWindowStart (nowSec : Z) (t : TrafficStats) : Z :=
  let minDay := fold_left (fun m s => match dayBuckets s with
                                      | b :: _ => Z.min m (dayIndex b)
                                      | [] => m
                                      end) (shards_ t) INT64_MAX in
  if minDay =? INT64_MAX then nowSec else minDay * 86400.

(** ** Snapshot *)

(** [for (kv : m) f(out[kv.first], kv.second)]. *)
Definition accumulate `{StdHash} {K} `{Countable K} {A B} (d : A) (f : A -> B -> A)
  (m : gmap K B) (out : gmap K A) : gmap K A :=
  fold_left (fun o kv => <[kv.1 := f (at_key d o kv.1) kv.2]> o) (iter m) out.

Definition plus_counter (c k : Counter) : Counter :=
  mkCounter (u64 (packets c + packets k)) (u64 (bytes c + bytes k)).

(* ntm_types.hpp:892-904 snapshot, flow counters *)
Definition plus_flow (c k : FlowStats) : FlowStats :=
  mkFlowStats (u64 (fs_packets c + fs_packets k)) (u64 (fs_bytes c + fs_bytes k))
    (if 0 <=? firstSeenSec k then
       if (firstSeenSec c <? 0) || (firstSeenSec k <? firstSeenSec c) then firstSeenSec k
       else firstSeenSec c
     else firstSeenSec c)
    (if 0 <=? lastSeenSec k then
       if (lastSeenSec c <? 0) || (lastSeenSec c <? lastSeenSec k) then lastSeenSec k
       else lastSeenSec c
     else lastSeenSec c).

(** The two-level loops: [out[kv.first][fk.first]] for each inner entry. *)
Definition accumulate2 `{StdHash} {A} (d : A) (f : A -> A -> A)
  (m : gmap str (gmap FlowKey A)) (out : gmap str (gmap FlowKey A)) : gmap str (gmap FlowKey A) :=
  fold_left (fun o kv =>
    fold_left (fun o fk => let inner := at_key ∅ o kv.1 in
                           <[kv.1 := <[fk.1 := f (at_key d inner fk.1) fk.2]> inner]> o)
      (iter kv.2) o) (iter m) out.

(** The four output maps. *)
Record Snapshot := mkSnap {
  totalsOut : InterfaceTotals;
  flowsOut : gmap str FlowMap;
  countryFlowsOut : gmap str CounterMap;
  entityFlowsOut : gmap str CounterMap
}.

Definition empty_snap : Snapshot := mkSnap ∅ ∅ ∅ ∅.

(* ntm_types.hpp:880-925 snapshot, one bucket *)
Definition snap_bucket `{StdHash} (o : Snapshot) (b : DayBucket) : Snapshot :=
  mkSnap
    (accumulate zero_counter plus_counter (totals b) (totalsOut o))
    (accumulate2 zero_flow plus_flow (flows b) (flowsOut o))
    (accumulate2 zero_counter plus_counter (countryFlows b) (countryFlowsOut o))
    (accumulate2 zero_counter plus_counter (entityFlows b) (entityFlowsOut o)).

(* ntm_types.hpp:861-937 snapshot *)
Definition snapshot `{StdHash} (nowSec : Z) (t : TrafficStats) : Snapshot * Z :=
  (fold_left (fun o s => fold_left snap_bucket (dayBuckets s) o) (shards_ t) empty_snap,
   getAggregationWindowStart nowSec t).

(** [snapshotHistory]: bucket seconds and buckets. *)
(* ntm_types.hpp:941-990 snapshotHistory *)
Definition snapshotHistory `{StdHash} (t : TrafficStats) (clientId : str) (mins nowSec : Z)
  : option (Z * list HistoryBucket) :=
  let? s := shards_ t !! shardIndex clientId in
  Some match clientHistory s !! clientId with
       | None => (60, [])
       | Some ring => if 0 <? mins then (60, fine_buckets nowSec mins ring)
                      else (3600, coarse_buckets ring)
       end.

(** ** Invariants *)

Definition config_ok (cfg : TSConfig) : Prop :=
  (0 < windowDays_ cfg /\ 0 < maxFlowEntriesPerKey_ cfg /\
   0 < maxEntityFlowEntriesPerKey_ cfg /\ 0 < maxIfacesPerClient_ cfg)%nat.

Definition in_u64 (z : Z) : Prop := 0 <= z <= UINT64_MAX.

(** A flow table of an interface against the interface's total: entries are
    64-bit values whose sums stay within the total; [exact] when nothing is
    ever evicted. *)
Definition table_ok {A} (gp gb : A -> Z) (exact : bool) (total : Counter) (m : gmap FlowKey A) : Prop :=
  map_Forall (fun _ a => in_u64 (gp a) /\ in_u64 (gb a)) m /\
  (if exact then msum gp m = packets total /\ msum gb m = bytes total
   else msum gp m <= packets total /\ msum gb m <= bytes total).

Record bucket_ok (cfg : TSConfig) (b : DayBucket) : Prop := {
  ok_total ck : in_u64 (packets (at_key zero_counter (totals b) ck)) /\
                in_u64 (bytes (at_key zero_counter (totals b) ck));
  ok_flow_cap ck : (size (at_key ∅ (flows b) ck) <= maxFlowEntriesPerKey_ cfg)%nat;
  ok_entity_cap ck : (size (at_key ∅ (entityFlows b) ck) <= maxEntityFlowEntriesPerKey_ cfg)%nat;
  ok_flows ck : table_ok fs_packets fs_bytes false (at_key zero_counter (totals b) ck) (at_key ∅ (flows b) ck);
  ok_country ck : table_ok packets bytes true (at_key zero_counter (totals b) ck) (at_key ∅ (countryFlows b) ck);
  ok_entity ck : table_ok packets bytes false (at_key zero_counter (totals b) ck) (at_key ∅ (entityFlows b) ck)
}.

Record shard_ok (cfg : TSConfig) (s : Shard) : Prop := {
  ok_window : (length (dayBuckets s) <= windowDays_ cfg)%nat;
  ok_buckets : Forall (bucket_ok cfg) (dayBuckets s);
  ok_ifaces cid : (size (at_key ∅ (clientIfaces s) cid) <= maxIfacesPerClient_ cfg)%nat
}.

Definition args_ok (p : PacketArgs) : Prop := 0 <= pa_length p <= UINT32_MAX.

(** ** Lemmas: maps with a default *)

Lemma at_key_insert {K} `{Countable K} {A} (d a : A) (m : gmap K A) k k' :
  at_key d (<[k := a]> m) k' = if decide (k = k') then a else at_key d m k'.
Proof.
  unfold at_key. case_decide as E.
  - subst. by rewrite lookup_insert_eq.
  - by rewrite lookup_insert_ne.
Qed.

Lemma at_key_empty {K} `{Countable K} {A} (d : A) (k : K) : at_key d (∅ : gmap K A) k = d.
Proof. unfold at_key. by rewrite lookup_empty. Qed.

Lemma at_key_Forall {K} `{Countable K} {A} (P : A -> Prop) (d : A) (m : gmap K A) k :
  P d -> map_Forall (fun _ a => P a) m -> P (at_key d m k).
Proof. intros Hd Hm. unfold at_key. destruct (m !! k) eqn:E; [by apply (Hm k)|done]. Qed.

Lemma msum_at_key {K} `{Countable K} {A} (g : A -> Z) (d a : A) (m : gmap K A) k :
  g d = 0 -> msum g (<[k := a]> m) = msum g m + g a - g (at_key d m k).
Proof.
  intros Hd. unfold at_key. destruct (m !! k) as [x|] eqn:E; cbn; unfold id.
  - rewrite (msum_insert_Some _ _ _ _ x) by done. lia.
  - rewrite msum_insert_None by done. lia.
Qed.

(** ** Lemmas: one counter *)

Lemma wouldOverflow_false p b len :
  in_u64 p -> in_u64 b -> 0 <= len -> wouldOverflow p 1 b len = false ->
  u64 (p + 1) = p + 1 /\ u64 (b + len) = b + len /\ in_u64 (p + 1) /\ in_u64 (b + len).
Proof.
  unfold wouldOverflow, in_u64. intros Hp Hb Hl Ho.
  apply orb_false_iff in Ho as [H1 H2]. apply andb_false_iff in H1 as [H1|H1]; bool_to_prop; [lia|].
  assert (b + len <= UINT64_MAX).
  { apply andb_false_iff in H2 as [H2|H2]; bool_to_prop; lia. }
  rewrite !u64_small by ulia. ulia.
Qed.

Lemma wouldOverflow_bound p b len :
  p < UINT64_MAX -> b + len <= UINT64_MAX -> wouldOverflow p 1 b len = false.
Proof.
  intros. unfold wouldOverflow. apply orb_false_iff. split; apply andb_false_iff; right; apply Z.ltb_ge; lia.
Qed.

(** ** Lemmas: eviction *)

Section Eviction.
Context `{SH : StdHash, SHL : !StdHashLaws SH}.
Context {A : Type}.
Implicit Types m : gmap FlowKey A.

Lemma min_element_in (g : A -> Z) l x : min_element g l = Some x -> x ∈ l.
Proof.
  revert x. induction l as [|y l IH]; simpl; intros x; [done|].
  destruct (min_element g l) as [z|] eqn:E.
  - case_match_goal; intros [= <-]; rewrite elem_of_cons; eauto.
  - intros [= <-]. by apply list_elem_of_here.
Qed.

Lemma min_element_None (g : A -> Z) l : min_element g l = None -> l = [].
Proof. destruct l as [|y l]; simpl; [done|]. repeat case_match_goal; done. Qed.

Lemma make_room_cases (g : A -> Z) cap k m :
  make_room g cap k m = m \/
  ((cap <= size m)%nat /\ m !! k = None /\
   exists v a, m !! v = Some a /\ make_room g cap k m = delete v m).
Proof.
  unfold make_room. case_match_goal; [|by left]. bool_to_prop.
  destruct (min_element g (iter m)) as [[v a]|] eqn:Em; [right|by left].
  split_conj; [done..|]. exists v, a. split; [|done].
  apply min_element_in in Em. rewrite iter_perm in Em. by apply elem_of_map_to_list in Em.
Qed.

Lemma make_room_subseteq (g : A -> Z) cap k m : make_room g cap k m ⊆ m.
Proof.
  destruct (make_room_cases g cap k m) as [->|(_ & _ & v & a & _ & ->)]; [done|apply delete_subseteq].
Qed.

(** The table stays within its cap after the insertion that follows. *)
Lemma make_room_cap (g : A -> Z) cap k m a :
  (0 < cap)%nat -> (size m <= cap)%nat ->
  (size (<[k := a]> (make_room g cap k m)) <= cap)%nat.
Proof.
  intros Hc Hm. unfold make_room.
  destruct ((cap <=? size m)%nat && bool_decide (m !! k = None)) eqn:E; bool_to_prop.
  - destruct (min_element g (iter m)) as [[v x]|] eqn:Em.
    + apply min_element_in in Em. rewrite iter_perm in Em. apply elem_of_map_to_list in Em.
      assert (delete v m !! k = None) by (rewrite lookup_delete_None; auto).
      rewrite map_size_insert_None by done. rewrite map_size_delete_Some by eauto. lia.
    + apply min_element_None in Em.
      assert (size m = 0)%nat as Hz.
      { rewrite <- length_map_to_list. rewrite <- (iter_perm m). by rewrite Em. }
      rewrite map_size_insert_None by done. lia.
  - apply andb_false_iff in E as [E|E]; bool_to_prop.
    + destruct (m !! k) eqn:Ek.
      * by rewrite map_size_insert_Some by eauto.
      * rewrite map_size_insert_None by done. lia.
    + destruct (m !! k) eqn:Ek; [|done]. by rewrite map_size_insert_Some by eauto.
Qed.

Lemma make_room_lookup (g : A -> Z) cap k m : make_room g cap k m !! k = m !! k.
Proof.
  destruct (make_room_cases g cap k m) as [->|(_ & Hk & v & a & _ & ->)]; [done|].
  rewrite Hk. apply lookup_delete_None. auto.
Qed.

Lemma make_room_msum (g h : A -> Z) cap k m :
  map_Forall (fun _ a => 0 <= h a) m -> msum h (make_room g cap k m) <= msum h m.
Proof.
  intros Hn. destruct (make_room_cases g cap k m) as [->|(_ & _ & v & a & Hv & ->)]; [done|].
  rewrite (msum_delete h m v a) by done. pose proof (Hn v a Hv). simpl in *. lia.
Qed.

End Eviction.

(** ** Lemmas: tables against their total *)

Lemma table_ok_add {A} (gp gb : A -> Z) (e : bool) (tot tot' : Counter) (m : gmap FlowKey A) k (d a : A) len :
  table_ok gp gb e tot m -> gp d = 0 -> gb d = 0 ->
  gp a = gp (at_key d m k) + 1 -> gb a = gb (at_key d m k) + len ->
  in_u64 (gp a) -> in_u64 (gb a) ->
  packets tot' = packets tot + 1 -> bytes tot' = bytes tot + len ->
  table_ok gp gb e tot' (<[k := a]> m).
Proof.
  intros [Hm Hs] Hdp Hdb Hp Hb Up Ub Tp Tb. split.
  - by apply map_Forall_insert_2.
  - rewrite !(msum_at_key _ d) by done. destruct e; lia.
Qed.

Lemma table_ok_at_key {A} (gp gb : A -> Z) (e : bool) (tot : Counter) (m : gmap FlowKey A) k d :
  table_ok gp gb e tot m -> gp d = 0 -> gb d = 0 ->
  in_u64 (gp (at_key d m k)) /\ in_u64 (gb (at_key d m k)).
Proof.
  intros [Hm _] Hp Hb. apply (at_key_Forall (fun a => in_u64 (gp a) /\ in_u64 (gb a))); [|done].
  rewrite Hp, Hb. unfold in_u64. ulia.
Qed.

(** Every entry is at most the interface's total. *)
Lemma table_ok_le {A} (gp gb : A -> Z) (e : bool) (tot : Counter) (m : gmap FlowKey A) k d :
  table_ok gp gb e tot m -> gp d = 0 -> gb d = 0 -> in_u64 (packets tot) -> in_u64 (bytes tot) ->
  gp (at_key d m k) <= packets tot /\ gb (at_key d m k) <= bytes tot.
Proof.
  intros [Hm Hs] Hp Hb Tp Tb. unfold at_key. destruct (m !! k) as [x|] eqn:E; cbn; unfold id.
  - assert (gp x <= msum gp m) by (eapply msum_lookup_le; [|done]; intros ? y Hy; apply (Hm _ _ Hy)).
    assert (gb x <= msum gb m) by (eapply msum_lookup_le; [|done]; intros ? y Hy; apply (Hm _ _ Hy)).
    destruct e; lia.
  - unfold in_u64 in *. lia.
Qed.

Lemma table_ok_empty {A} (gp gb : A -> Z) e : table_ok gp gb e zero_counter (∅ : gmap FlowKey A).
Proof. split; [apply map_Forall_empty|]. rewrite !msum_empty. destruct e; simpl; lia. Qed.

Section Tables.
Context `{SH : StdHash, SHL : !StdHashLaws SH}.

Lemma table_ok_evict {A} (gp gb g : A -> Z) (tot : Counter) (cap : nat) (k : FlowKey) (m : gmap FlowKey A) :
  table_ok gp gb false tot m -> table_ok gp gb false tot (make_room g cap k m).
Proof.
  intros [Hm [Hp Hb]]. split.
  - intros k0 x Hx. apply (Hm k0 x). by eapply lookup_weaken, make_room_subseteq.
  - split.
    + etrans; [apply make_room_msum|done]. intros ? x Hx. apply (Hm _ _ Hx).
    + etrans; [apply make_room_msum|done]. intros ? x Hx. apply (Hm _ _ Hx).
Qed.

(** ** Lemmas: buckets *)

Lemma empty_bucket_ok cfg d : bucket_ok cfg (empty_bucket d).
Proof.
  split; intros ck; unfold empty_bucket; cbn [totals flows countryFlows entityFlows]; rewrite !at_key_empty.
  - unfold in_u64. simpl. ulia.
  - rewrite map_size_empty. lia.
  - rewrite map_size_empty. lia.
  - apply table_ok_empty.
  - apply table_ok_empty.
  - apply table_ok_empty.
Qed.

(** The effect of a successful [bucket_add] in exact arithmetic. *)
Lemma bucket_add_Some cfg p now b b' :
  bucket_ok cfg b -> args_ok p -> bucket_add cfg p now b = Some b' ->
  let ck := ci_key (pa_clientId p) (pa_iface p) in
  let tot := at_key zero_counter (totals b) ck in
  let tot' := mkCounter (packets tot + 1) (bytes tot + pa_length p) in
  in_u64 (packets tot') /\ in_u64 (bytes tot') /\
  totals b' = <[ck := tot']> (totals b) /\ dayIndex b' = dayIndex b.
Proof.
  intros Hok Hp. unfold bucket_add. cbv zeta. case_match_goal; [done|]. intros [= <-].
  repeat match goal with H : (_ || _)%bool = false |- _ => apply orb_false_iff in H as [? ?] end.
  set (ck := ci_key _ _) in *. destruct (ok_total _ _ Hok ck) as [Tp Tb].
  destruct Hp as [Hp _].
  match goal with H : wouldOverflow (packets (at_key _ (totals _) _)) _ _ _ = false |- _ =>
    apply wouldOverflow_false in H as (E1 & E2 & ? & ?); [|done..] end.
  cbn. unfold add_counter. by rewrite E1, E2.
Qed.

Lemma bucket_add_ok cfg p now b b' :
  config_ok cfg -> bucket_ok cfg b -> args_ok p -> bucket_add cfg p now b = Some b' ->
  bucket_ok cfg b'.
Proof.
  intros (_ & Cf & Ce & _) Hok Hp HS.
  pose proof (bucket_add_Some _ _ _ _ _ Hok Hp HS) as (Up & Ub & Ht & _). revert HS.
  unfold bucket_add. cbv zeta. cbv zeta in Up, Ub, Ht. case_match_goal; [done|]. intros [= <-].
  repeat match goal with H : (_ || _)%bool = false |- _ => apply orb_false_iff in H as [? ?] end.
  cbn [totals] in Ht. destruct Hp as [Hp _]. set (ck := ci_key _ _) in *.
  pose proof (table_ok_evict _ _ fs_bytes _ (maxFlowEntriesPerKey_ cfg) (pa_src p, pa_dst p) _ (ok_flows _ _ Hok ck)) as TF.
  pose proof (ok_country _ _ Hok ck) as TC.
  pose proof (table_ok_evict _ _ bytes _ (maxEntityFlowEntriesPerKey_ cfg) (pa_srcEntity p, pa_dstEntity p) _ (ok_entity _ _ Hok ck)) as TE.
  pose proof (table_ok_at_key _ _ _ _ _ (pa_src p, pa_dst p) zero_flow TF eq_refl eq_refl) as [F1 F2].
  pose proof (table_ok_at_key _ _ _ _ _ (pa_srcCountry p, pa_dstCountry p) zero_counter TC eq_refl eq_refl) as [C1 C2].
  pose proof (table_ok_at_key _ _ _ _ _ (pa_srcEntity p, pa_dstEntity p) zero_counter TE eq_refl eq_refl) as [E1 E2].
  repeat match goal with H : wouldOverflow _ _ _ _ = false |- _ =>
    apply wouldOverflow_false in H as (? & ? & ? & ?); [|first [done | by apply (ok_total _ _ Hok)]..] end.
  split; intros ck'; cbn [totals flows countryFlows entityFlows]; rewrite ?Ht, ?at_key_insert;
    case_decide as Eq; try apply Hok; try done.
  - by apply make_room_cap; [|apply Hok].
  - by apply make_room_cap; [|apply Hok].
  - eapply (table_ok_add _ _ _ _ _ _ _ zero_flow); [exact TF|try done..]; cbn; congruence.
  - eapply (table_ok_add _ _ _ _ _ _ _ zero_counter); [exact TC|try done..]; cbn; congruence.
  - eapply (table_ok_add _ _ _ _ _ _ _ zero_counter); [exact TE|try done..]; cbn; congruence.
Qed.

(** The undefined branch is reached only when the interface's own total is at
    its 64-bit limit: every other counter is bounded by it. *)
Lemma bucket_add_defined cfg p now b :
  bucket_ok cfg b ->
  let tot := at_key zero_counter (totals b) (ci_key (pa_clientId p) (pa_iface p)) in
  packets tot < UINT64_MAX -> bytes tot + pa_length p <= UINT64_MAX ->
  is_Some (bucket_add cfg p now b).
Proof.
  intros Hok. cbv zeta. intros Hp Hb. unfold bucket_add. cbv zeta. set (ck := ci_key _ _) in *.
  destruct (ok_total _ _ Hok ck) as [Tp Tb].
  pose proof (table_ok_evict _ _ fs_bytes _ (maxFlowEntriesPerKey_ cfg) (pa_src p, pa_dst p) _ (ok_flows _ _ Hok ck)) as TF.
  pose proof (ok_country _ _ Hok ck) as TC.
  pose proof (table_ok_evict _ _ bytes _ (maxEntityFlowEntriesPerKey_ cfg) (pa_srcEntity p, pa_dstEntity p) _ (ok_entity _ _ Hok ck)) as TE.
  pose proof (table_ok_le _ _ _ _ _ (pa_src p, pa_dst p) zero_flow TF eq_refl eq_refl Tp Tb).
  pose proof (table_ok_le _ _ _ _ _ (pa_srcCountry p, pa_dstCountry p) zero_counter TC eq_refl eq_refl Tp Tb).
  pose proof (table_ok_le _ _ _ _ _ (pa_srcEntity p, pa_dstEntity p) zero_counter TE eq_refl eq_refl Tp Tb).
  rewrite !wouldOverflow_bound by lia. cbn. eauto.
Qed.

End Tables.

(** ** Lemmas: the shard *)

Lemma open_bucket_split d bs older current :
  open_bucket d bs = (older, current) ->
  dayIndex current = d /\
  (bs = older ++ [current] \/ (bs = older /\ current = empty_bucket d)).
Proof.
  unfold open_bucket. destruct (last bs) as [b|] eqn:E.
  - apply last_Some in E as [l ->]. case_match_goal; intros [= <- <-].
    + bool_to_prop. rewrite removelast_last. auto.
    + auto.
  - intros [= <- <-]. auto.
Qed.

Lemma trim_window_length w bs : (length (trim_window w bs) <= w)%nat.
Proof. unfold trim_window. rewrite length_drop. lia. Qed.

Lemma size_insert_le (x : str) (X : gset str) n :
  (size X < n)%nat -> (size ({[x]} ∪ X) <= n)%nat.
Proof. intros H. rewrite size_union_alt. rewrite size_singleton.
  assert (size (X ∖ {[x]}) <= size X)%nat by (apply subseteq_size; set_solver). lia. Qed.

Section ShardLemmas.
Context `{SH : StdHash, SHL : !StdHashLaws SH, IN : Inet}.

(** What an accepted packet does to the shard, as one equation. *)
Lemma addPacket_Accepted cfg p now s s' :
  addPacket cfg p now s = Some (s', Accepted) ->
  exists older current current',
    open_bucket (day_index now) (dayBuckets s) = (older, current) /\
    bucket_add cfg p now current = Some current' /\
    (pa_iface p ∈ at_key ∅ (clientIfaces s) (pa_clientId p) \/
     (size (at_key ∅ (clientIfaces s) (pa_clientId p)) < maxIfacesPerClient_ cfg)%nat) /\
    s' = mkShard (trim_window (windowDays_ cfg) (older ++ [current']))
           (<[pa_clientId p := {[pa_iface p]} ∪ at_key ∅ (clientIfaces s) (pa_clientId p)]> (clientIfaces s))
           (ifaceRejectCount s)
           (<[pa_clientId p := record_packet now (isLanIP (pa_dst p) && negb (isLanIP (pa_src p)))
                (pa_length p) (at_key empty_ring (clientHistory s) (pa_clientId p))]> (clientHistory s)).
Proof.
  unfold addPacket. cbv zeta. case_match_goal; [done|].
  destruct (open_bucket _ _) as [older current] eqn:Eo.
  destruct (bucket_add _ _ _ _) as [current'|] eqn:Eb; [|done]. intros [= <-].
  exists older, current, current'. split_conj; try done.
  apply andb_false_iff in E as [E|E]; bool_to_prop; [left|right; lia].
  by apply dec_stable.
Qed.

Lemma addPacket_ok cfg p now s s' r :
  config_ok cfg -> shard_ok cfg s -> args_ok p ->
  addPacket cfg p now s = Some (s', r) -> shard_ok cfg s'.
Proof.
  intros Hc [Hw Hb Hi] Hp Ha. destruct r.
  - apply addPacket_Accepted in Ha as (older & current & current' & Ho & Hadd & Hif & ->).
    assert (Forall (bucket_ok cfg) older /\ bucket_ok cfg current) as [Hold Hcur].
    { apply open_bucket_split in Ho as [_ [E|[E ->]]].
      - rewrite E in Hb. apply Forall_app in Hb as [? Hb]. by apply List.Forall_cons_iff in Hb as [? _].
      - rewrite <- E. split; [done|apply empty_bucket_ok]. }
    split; cbn.
    + apply trim_window_length.
    + apply Forall_drop, Forall_app. split; [done|]. constructor; [|constructor].
      by eapply bucket_add_ok.
    + intros cid. rewrite at_key_insert. case_decide as E; [|done]. subst cid.
      destruct Hif as [Hif|Hif]; [|by apply size_insert_le].
      replace ({[pa_iface p]} ∪ _) with (at_key ∅ (clientIfaces s) (pa_clientId p)) by set_solver. done.
  - revert Ha. unfold addPacket. cbv zeta. case_match_goal.
    + intros [= <-]. split; cbn; [done..|]. intros cid. rewrite at_key_insert.
      destruct (decide (pa_clientId p = cid)) as [<-|]; apply Hi.
    + destruct (open_bucket _ _). destruct (bucket_add _ _ _ _); done.
Qed.

Lemma erase_client_lookup {A} (prefix : str) (m : gmap str A) (k : str) :
  erase_client prefix m !! k = if starts_with prefix k then None else m !! k.
Proof.
  unfold erase_client. destruct (starts_with prefix k) eqn:E.
  - apply map_lookup_filter_None. right. intros x _. cbn. by rewrite E.
  - destruct (m !! k) eqn:Ek.
    + by apply map_lookup_filter_Some.
    + apply map_lookup_filter_None. by left.
Qed.

Lemma erase_client_at_key {A} (d : A) (prefix : str) (m : gmap str A) (k : str) :
  at_key d (erase_client prefix m) k = if starts_with prefix k then d else at_key d m k.
Proof. unfold at_key. rewrite erase_client_lookup. by destruct (starts_with prefix k). Qed.

Lemma reset_bucket_ok cfg prefix b : bucket_ok cfg b -> bucket_ok cfg (reset_bucket prefix b).
Proof.
  intros Hok. pose proof (empty_bucket_ok cfg 0) as He.
  split; intros ck; cbn [reset_bucket totals flows countryFlows entityFlows];
    rewrite ?erase_client_at_key; destruct (starts_with prefix ck); try apply Hok.
  - destruct (ok_total _ _ He ck) as [? ?]. cbn in *. done.
  - rewrite map_size_empty. lia.
  - rewrite map_size_empty. lia.
  - apply table_ok_empty.
  - apply table_ok_empty.
  - apply table_ok_empty.
Qed.

Lemma purgeClient_ok cfg s cid : shard_ok cfg s -> shard_ok cfg (purgeClient s cid).1.
Proof.
  intros [Hw Hb Hi]. split; cbn.
  - by rewrite length_fmap.
  - apply Forall_fmap. eapply Forall_impl; [exact Hb|]. intros b. apply reset_bucket_ok.
  - intros c. unfold at_key. destruct (decide (cid = c)) as [->|Hne].
    + rewrite lookup_delete_eq. cbn. unfold id. rewrite size_empty. lia.
    + rewrite lookup_delete_ne by done. apply Hi.
Qed.

Lemma shardIndex_lt cid : (shardIndex cid < kShardCount)%nat.
Proof.
  unfold shardIndex, kShardCount. pose proof (std_hash_range cid).
  replace (Z.of_nat 16 - 1) with (Z.ones 4) by reflexivity. rewrite Z.land_ones by lia.
  pose proof (Z.mod_pos_bound (std_hash cid) (2 ^ 4) ltac:(lia)). lia.
Qed.

(** One operation of the store. *)
Inductive ts_step (t t' : TrafficStats) : Prop :=
| step_add p now r : args_ok p -> ts_addPacket p now t = Some (t', r) -> ts_step t t'
| step_purge cid found : ts_purgeClient cid t = Some (t', found) -> ts_step t t'.

Definition ts_ok (cfg : TSConfig) (t : TrafficStats) : Prop :=
  ts_config t = cfg /\ length (shards_ t) = kShardCount /\ Forall (shard_ok cfg) (shards_ t).

Lemma ts_step_ok cfg t t' : config_ok cfg -> ts_ok cfg t -> ts_step t t' -> ts_ok cfg t'.
Proof.
  intros Hc (<- & Hl & Hs) [p now r Hp Ha|cid found Ha].
  - unfold ts_addPacket in Ha. destruct (shards_ t !! _) as [s|] eqn:Es; [|done].
    destruct (addPacket _ _ _ s) as [[s' r']|] eqn:Ea; [|done]. injection Ha as <- <-.
    unfold ts_ok; split_conj; cbn; [done|by rewrite length_insert|]. apply Forall_insert; [done|].
    eapply addPacket_ok; [done| |done|done]. by eapply Forall_lookup_1.
  - unfold ts_purgeClient in Ha. destruct (shards_ t !! _) as [s|] eqn:Es; [|done].
    destruct (purgeClient s cid) as [s' f'] eqn:Ea. injection Ha as <- <-.
    unfold ts_ok; split_conj; cbn; [done|by rewrite length_insert|]. apply Forall_insert; [done|].
    replace s' with (purgeClient s cid).1 by by rewrite Ea.
    apply purgeClient_ok. by eapply Forall_lookup_1.
Qed.

Lemma new_ts_ok cfg : ts_ok cfg (new_ts cfg).
Proof.
  unfold ts_ok. split_conj; [done|reflexivity|]. cbn [shards_ new_ts]. apply Forall_replicate.
  split; cbn; [lia|constructor|].
  intros cid. rewrite at_key_empty, size_empty. lia.
Qed.

End ShardLemmas.

(** ** Lemmas: accounting *)

(** The interface's counter summed over a list of buckets. *)
Definition sum_total (g : Counter -> Z) (ck : str) (bs : list DayBucket) : Z :=
  foldr (fun b acc => g (at_key zero_counter (totals b) ck) + acc) 0 bs.

Lemma sum_total_nil g ck : sum_total g ck [] = 0.
Proof. reflexivity. Qed.

Lemma sum_total_cons g ck b bs :
  sum_total g ck (b :: bs) = g (at_key zero_counter (totals b) ck) + sum_total g ck bs.
Proof. reflexivity. Qed.

Lemma sum_total_app g ck a b : sum_total g ck (a ++ b) = sum_total g ck a + sum_total g ck b.
Proof. induction a as [|x a IH]; simpl; lia. Qed.

Lemma sum_total_take_drop g ck n bs :
  sum_total g ck (drop n bs) = sum_total g ck bs - sum_total g ck (take n bs).
Proof. rewrite <- (take_drop n bs) at 2. rewrite sum_total_app. lia. Qed.

Section Accounting.
Context `{SH : StdHash, SHL : !StdHashLaws SH, IN : Inet}.

Lemma iter_NoDup {K} `{Countable K} {A} (m : gmap K A) : NoDup (iter m).*1.
Proof. rewrite iter_perm. apply NoDup_fst_map_to_list. Qed.

Lemma accumulate_fold {B} (f : B -> B -> B) (d : B) (l : list (str * B)) (out : gmap str B) (k : str) :
  NoDup l.*1 ->
  at_key d (fold_left (fun o kv => <[kv.1 := f (at_key d o kv.1) kv.2]> o) l out) k
  = match (list_to_map l : gmap str B) !! k with Some b => f (at_key d out k) b | None => at_key d out k end.
Proof.
  revert out. induction l as [|[k' b] l IH]; intros out; cbn; [by rewrite lookup_empty|].
  intros [Hk Hl]%NoDup_cons. rewrite IH by done. rewrite at_key_insert.
  destruct (decide (k' = k)) as [->|Hne].
  - rewrite lookup_insert_eq. by rewrite (not_elem_of_list_to_map_1 l k).
  - by rewrite lookup_insert_ne by done.
Qed.

(** Whatever order the table is traversed in, each key receives its entry. *)
Lemma accumulate_at_key {B} (f : B -> B -> B) (d : B) (m out : gmap str B) (k : str) :
  at_key d (accumulate d f m out) k
  = match m !! k with Some b => f (at_key d out k) b | None => at_key d out k end.
Proof.
  unfold accumulate. rewrite accumulate_fold by apply iter_NoDup.
  replace (list_to_map (iter m)) with m; [done|].
  rewrite (list_to_map_proper _ _ (iter_NoDup m) (iter_perm m)). by rewrite list_to_map_to_list.
Qed.

Definition all_buckets (t : TrafficStats) : list DayBucket := concat (dayBuckets <$> shards_ t).

Lemma fold_buckets ss o :
  fold_left (fun o s => fold_left snap_bucket (dayBuckets s) o) ss o
  = fold_left snap_bucket (concat (dayBuckets <$> ss)) o.
Proof. revert o. induction ss as [|s ss IH]; intros o; cbn; [done|]. by rewrite fold_left_app, IH. Qed.

Lemma snap_totals bs o ck :
  at_key zero_counter (totalsOut (fold_left snap_bucket bs o)) ck
  = fold_left (fun c b => match totals b !! ck with Some k => plus_counter c k | None => c end)
      bs (at_key zero_counter (totalsOut o) ck).
Proof.
  revert o. induction bs as [|b bs IH]; intros o; cbn; [done|].
  rewrite IH. cbn. by rewrite accumulate_at_key.
Qed.

Lemma plus_fold bs ck p b :
  fold_left (fun c b => match totals b !! ck with Some k => plus_counter c k | None => c end) bs
    (mkCounter (u64 p) (u64 b))
  = mkCounter (u64 (p + sum_total packets ck bs)) (u64 (b + sum_total bytes ck bs)).
Proof.
  revert p b. induction bs as [|x bs IH]; intros p b; [cbn; by rewrite !Z.add_0_r|].
  rewrite !sum_total_cons. cbn [fold_left]. unfold at_key at 1 2.
  destruct (totals x !! ck) as [c|]; cbn [default].
  - unfold plus_counter. cbn [packets bytes]. rewrite !u64_add_l, IH. unfold id.
    by rewrite !Z.add_assoc.
  - by rewrite IH.
Qed.

End Accounting.

(** ** Specification: one packet *)

(** An entry of a table grows. A new entry in a table at its cap takes the
    place of one with the fewest bytes; nothing else changes. *)
Definition counted {A} (size_of : A -> Z) (cap : option nat) (d : A) (grown : A -> A) (k : FlowKey) (m m' : gmap FlowKey A) : Prop :=
  if bool_decide (m !! k = None) && match cap with Some n => (n <=? size m)%nat | None => false end
  then exists victim a, m !! victim = Some a /\ map_Forall (fun _ a' => size_of a <= size_of a') m /\ m' = <[k := grown d]> (delete victim m)
  else m' = <[k := grown (at_key d m k)]> m.

(** The packet in the four tables of its interface, and in no other table. *)
Definition counted_in (cfg : TSConfig) (p : PacketArgs) (now : Z) (b b' : DayBucket) : Prop :=
  let ck := ci_key (pa_clientId p) (pa_iface p) in
  let more c := mkCounter (packets c + 1) (bytes c + pa_length p) in
  let seen f := mkFlowStats (fs_packets f + 1) (fs_bytes f + pa_length p) (if firstSeenSec f <? 0 then now else firstSeenSec f) now in
  dayIndex b' = dayIndex b /\
  totals b' !! ck = Some (more (at_key zero_counter (totals b) ck)) /\
  counted fs_bytes (Some (maxFlowEntriesPerKey_ cfg)) zero_flow seen (pa_src p, pa_dst p)
    (at_key ∅ (flows b) ck) (at_key ∅ (flows b') ck) /\
  counted bytes None zero_counter more (pa_srcCountry p, pa_dstCountry p)
    (at_key ∅ (countryFlows b) ck) (at_key ∅ (countryFlows b') ck) /\
  counted bytes (Some (maxEntityFlowEntriesPerKey_ cfg)) zero_counter more (pa_srcEntity p, pa_dstEntity p)
    (at_key ∅ (entityFlows b) ck) (at_key ∅ (entityFlows b') ck) /\
  forall ck', ck' <> ck ->
    totals b' !! ck' = totals b !! ck' /\ flows b' !! ck' = flows b !! ck' /\
    countryFlows b' !! ck' = countryFlows b !! ck' /\ entityFlows b' !! ck' = entityFlows b !! ck'.

(** The bucket of day [d], and the buckets before it. *)
Definition today (d : Z) (bs older : list DayBucket) (b : DayBucket) : Prop :=
  bs = older ++ [b] /\ dayIndex b = d \/
  bs = older /\ b = empty_bucket d /\ (forall b', last older = Some b' -> dayIndex b' <> d).

(** An accepted packet: counted in the bucket of its day, which is opened when
    the newest bucket is of another day, and then the oldest buckets beyond the
    window are gone; noted in its client's interfaces and history. *)
Definition accounted `{Inet} (cfg : TSConfig) (p : PacketArgs) (now : Z) (s s' : Shard) : Prop :=
  let cid := pa_clientId p in
  (exists older b b', today (day_index now) (dayBuckets s) older b /\ counted_in cfg p now b b' /\
     dayBuckets s' = drop (S (length older) - windowDays_ cfg) older ++ [b']) /\
  clientIfaces s' = <[cid := {[pa_iface p]} ∪ at_key ∅ (clientIfaces s) cid]> (clientIfaces s) /\
  ifaceRejectCount s' = ifaceRejectCount s /\
  clientHistory s' = <[cid := record_packet now (isLanIP (pa_dst p) && negb (isLanIP (pa_src p))) (pa_length p)
                                (at_key empty_ring (clientHistory s) cid)]> (clientHistory s).

(** A packet of an interface beyond the cap: only noted as rejected. *)
Definition refused (cfg : TSConfig) (p : PacketArgs) (s s' : Shard) : Prop :=
  let cid := pa_clientId p in
  pa_iface p ∉ at_key ∅ (clientIfaces s) cid /\ (maxIfacesPerClient_ cfg <= size (at_key ∅ (clientIfaces s) cid))%nat /\
  dayBuckets s' = dayBuckets s /\ clientHistory s' = clientHistory s /\
  (forall c, at_key ∅ (clientIfaces s') c = at_key ∅ (clientIfaces s) c) /\
  ifaceRejectCount s' = <[cid := u64 (at_key 0 (ifaceRejectCount s) cid + 1)]> (ifaceRejectCount s).

Section OnePacket.
Context `{SH : StdHash, SHL : !StdHashLaws SH, IN : Inet}.

Lemma min_element_least {A} (g : A -> Z) l x : min_element g l = Some x -> Forall (fun y => g x.2 <= g y.2) l.
Proof.
  revert x. induction l as [| y l IH]; cbn; [done |]. intros x. destruct (min_element g l) as [z |] eqn:E.
  - specialize (IH z eq_refl). destruct (Z.ltb_spec (g z.2) (g y.2)); intros [= <-]; constructor; try lia; [done |].
    eapply Forall_impl; [exact IH |]. cbn. lia.
  - intros [= <-]. apply min_element_None in E as ->. constructor; [lia | constructor].
Qed.

Lemma make_room_counted {A} (g : A -> Z) cap k (d : A) (grown : A -> A) m : (0 < cap)%nat ->
  counted g (Some cap) d grown k m (<[k := grown (at_key d (make_room g cap k m) k)]> (make_room g cap k m)).
Proof.
  intros Hc. unfold counted, at_key. rewrite make_room_lookup. unfold make_room. rewrite andb_comm.
  destruct ((cap <=? size m)%nat && bool_decide (m !! k = None)) eqn:E; [| done]. bool_to_prop.
  destruct (min_element g (iter m)) as [[v a] |] eqn:Em.
  - exists v, a. pose proof (min_element_in g _ _ Em) as Hin. rewrite iter_perm in Hin. apply elem_of_map_to_list in Hin.
    split_conj; [done | | by match goal with H : m !! k = None |- _ => rewrite H end]. intros k' a' Hk'. apply min_element_least in Em. rewrite Forall_forall in Em.
    apply (Em (k', a')). rewrite iter_perm. by apply elem_of_map_to_list.
  - exfalso. apply min_element_None in Em. match goal with H : (cap <= size m)%nat |- _ => rewrite <- length_map_to_list, <- (iter_perm m), Em in H; cbn in H; lia end.
Qed.

Lemma bucket_add_counted cfg p now b b' :
  config_ok cfg -> bucket_ok cfg b -> args_ok p -> bucket_add cfg p now b = Some b' -> counted_in cfg p now b b'.
Proof.
  intros (_ & Cf & Ce & _) Hok [Hp _] HS. unfold bucket_add in HS. cbv zeta in HS.
  destruct (_ || _) eqn:Ho in HS; [done |]. injection HS as <-.
  repeat match goal with H : (_ || _)%bool = false |- _ => apply orb_false_iff in H as [? ?] end.
  unfold counted_in. cbv zeta. set (ck := ci_key _ _) in *. cbn [dayIndex totals flows countryFlows entityFlows].
  pose proof (table_ok_evict _ _ fs_bytes _ (maxFlowEntriesPerKey_ cfg) (pa_src p, pa_dst p) _ (ok_flows _ _ Hok ck)) as TF.
  pose proof (ok_country _ _ Hok ck) as TC.
  pose proof (table_ok_evict _ _ bytes _ (maxEntityFlowEntriesPerKey_ cfg) (pa_srcEntity p, pa_dstEntity p) _ (ok_entity _ _ Hok ck)) as TE.
  pose proof (table_ok_at_key _ _ _ _ _ (pa_src p, pa_dst p) zero_flow TF eq_refl eq_refl) as [F1 F2].
  pose proof (table_ok_at_key _ _ _ _ _ (pa_srcCountry p, pa_dstCountry p) zero_counter TC eq_refl eq_refl) as [C1 C2].
  pose proof (table_ok_at_key _ _ _ _ _ (pa_srcEntity p, pa_dstEntity p) zero_counter TE eq_refl eq_refl) as [E1 E2].
  destruct (ok_total _ _ Hok ck) as [T1 T2].
  repeat match goal with H : wouldOverflow _ _ _ _ = false |- _ => apply wouldOverflow_false in H as (? & ? & _ & _); [| done..] end.
  rewrite !at_key_insert, !decide_True by done.
  split_conj.
  - done.
  - rewrite lookup_insert_eq. unfold add_counter. congruence.
  - unfold add_flow. repeat match goal with H : u64 _ = _ |- _ => rewrite H; clear H end.
    exact (make_room_counted fs_bytes _ _ zero_flow (fun f => mkFlowStats (fs_packets f + 1) (fs_bytes f + pa_length p) (if firstSeenSec f <? 0 then now else firstSeenSec f) now) _ Cf).
  - unfold counted. rewrite andb_false_r. unfold add_counter. do 2 f_equal; congruence.
  - unfold add_counter. repeat match goal with H : u64 _ = _ |- _ => rewrite H; clear H end.
    exact (make_room_counted bytes _ _ zero_counter (fun c => mkCounter (packets c + 1) (bytes c + pa_length p)) _ Ce).
  - intros ck' Hne. by rewrite !lookup_insert_ne.
Qed.

Lemma open_bucket_today d bs : today d bs (open_bucket d bs).1 (open_bucket d bs).2.
Proof.
  unfold open_bucket, today. destruct (last bs) as [b |] eqn:E.
  - destruct (Z.eqb_spec (dayIndex b) d) as [Hd | Hd]; cbn [fst snd].
    + left. apply last_Some in E as [l ->]. by rewrite removelast_last.
    + right. split_conj; [done | done |]. intros b' Hb. rewrite E in Hb. by injection Hb as <-.
  - right. split_conj; [done | done |]. cbn. intros b' Hb. by rewrite E in Hb.
Qed.

Lemma trim_window_snoc w older (b : DayBucket) : (0 < w)%nat ->
  trim_window w (older ++ [b]) = drop (S (length older) - w) older ++ [b].
Proof.
  intros Hw. unfold trim_window. rewrite length_app. cbn [length]. rewrite drop_app_le by lia. do 2 f_equal. lia.
Qed.

Lemma today_ok cfg d bs older b : today d bs older b -> Forall (bucket_ok cfg) bs -> Forall (bucket_ok cfg) older /\ bucket_ok cfg b.
Proof.
  intros [(-> & _) | (-> & -> & _)] Hb; [| split; [done | apply empty_bucket_ok]].
  apply Forall_app in Hb as [? Hb]. by apply List.Forall_cons_iff in Hb as [? _].
Qed.

Lemma addPacket_accounted cfg p now s s' : config_ok cfg -> shard_ok cfg s -> args_ok p ->
  addPacket cfg p now s = Some (s', Accepted) -> accounted cfg p now s s'.
Proof.
  intros Hc [_ Hb _] Hp Ha. apply addPacket_Accepted in Ha as (older & b & b' & Ho & Hadd & _ & ->).
  pose proof (open_bucket_today (day_index now) (dayBuckets s)) as Ht. rewrite Ho in Ht. cbn [fst snd] in Ht.
  unfold accounted. cbv zeta. split_conj; [| done | done | done]. exists older, b, b'. split_conj; [done | | apply trim_window_snoc, Hc].
  apply (bucket_add_counted _ _ _ _ _ Hc); [| done | done]. by eapply today_ok.
Qed.

Lemma addPacket_refused cfg p now s s' : addPacket cfg p now s = Some (s', IfaceCapExceeded) -> refused cfg p s s'.
Proof.
  unfold addPacket, refused. cbv zeta. destruct (_ && _) eqn:E.
  - intros [= <-]. bool_to_prop. split_conj; try done. intros c. cbn [clientIfaces]. rewrite at_key_insert. by case_decide; subst.
  - destruct (open_bucket _ _). by destruct (bucket_add _ _ _ _).
Qed.

End OnePacket.

(** ** What other clients keep *)

Section Others.
Context `{SH : StdHash, SHL : !StdHashLaws SH, IN : Inet}.

(** Everything of other clients than [cid] is as before, but that day buckets
    of the days [D] may have been opened behind the others and the oldest ones
    beyond the window are gone. *)
Definition others_counted (cid : str) (D : Z -> Prop) (t t' : TrafficStats) : Prop :=
  ts_config t' = ts_config t /\ (forall i, i <> shardIndex cid -> shards_ t' !! i = shards_ t !! i) /\
  forall s, shards_ t !! shardIndex cid = Some s -> exists s' days,
    shards_ t' !! shardIndex cid = Some s' /\ Forall D days /\
    (reset_bucket (client_prefix cid) <$> dayBuckets s') =
      trim_window (windowDays_ (ts_config t)) ((reset_bucket (client_prefix cid) <$> dayBuckets s) ++ (empty_bucket <$> days)) /\
    forall c, c <> cid -> clientIfaces s' !! c = clientIfaces s !! c /\ ifaceRejectCount s' !! c = ifaceRejectCount s !! c /\
      clientHistory s' !! c = clientHistory s !! c.

Lemma trim_window_all w (l : list DayBucket) : (length l <= w)%nat -> trim_window w l = l.
Proof. intros H. unfold trim_window. by replace (length l - w)%nat with 0%nat by lia. Qed.

Lemma trim_window_trim w (l m : list DayBucket) : trim_window w (trim_window w l ++ m) = trim_window w (l ++ m).
Proof.
  unfold trim_window. rewrite !length_app, !length_drop. destruct (Nat.le_gt_cases (length l) w) as [H | H].
  - replace (length l - w)%nat with 0%nat by lia. rewrite drop_0. do 2 f_equal. lia.
  - replace (length l - (length l - w) + length m - w)%nat with (length m) by lia.
    replace (length l + length m - w)%nat with ((length l - w) + length m)%nat by lia.
    rewrite <- drop_drop. by rewrite (drop_app_le l) by lia.
Qed.

Lemma others_counted_refl cfg cid D t : ts_ok cfg t -> others_counted cid D t t.
Proof.
  intros (Hc & _ & Hs). unfold others_counted. split_conj; [done | done |]. intros s E. exists s, []. split_conj; [done | constructor | | done].
  cbn. rewrite app_nil_r, trim_window_all; [done |]. rewrite length_fmap, Hc. rewrite Forall_forall in Hs.
  apply (Hs s). by eapply list_elem_of_lookup_2.
Qed.

Lemma others_counted_trans cid D t1 t2 t3 : others_counted cid D t1 t2 -> others_counted cid D t2 t3 -> others_counted cid D t1 t3.
Proof.
  intros (C1 & O1 & S1) (C2 & O2 & S2). unfold others_counted. split_conj; [congruence | intros i Hi; by rewrite O2, O1 |].
  intros s E. destruct (S1 s E) as (s2 & d1 & E2 & D1 & B1 & K1). destruct (S2 s2 E2) as (s3 & d2 & E3 & D2 & B2 & K2).
  exists s3, (d1 ++ d2). split_conj; [done | by apply Forall_app | |].
  - rewrite B2, B1, C1, trim_window_trim, fmap_app, app_assoc. done.
  - intros c Hc. destruct (K1 c Hc) as (? & ? & ?), (K2 c Hc) as (? & ? & ?). split_conj; congruence.
Qed.

(** What is counted for a client is not seen without the client. *)
Lemma counted_elsewhere cfg p now b b' : counted_in cfg p now b b' ->
  reset_bucket (client_prefix (pa_clientId p)) b' = reset_bucket (client_prefix (pa_clientId p)) b.
Proof.
  intros (Hd & _ & _ & _ & _ & Ho). unfold reset_bucket. rewrite Hd.
  assert (Hk : forall ck, starts_with (client_prefix (pa_clientId p)) ck = false -> ck <> ci_key (pa_clientId p) (pa_iface p)).
  { intros ck H ->. unfold ci_key, client_prefix in H. by rewrite app_assoc, starts_with_app in H. }
  f_equal; apply map_eq; intros ck; rewrite !erase_client_lookup; destruct (starts_with _ ck) eqn:E; try done;
    by destruct (Ho ck (Hk ck E)) as (? & ? & ? & ?).
Qed.

Lemma reset_empty prefix d : reset_bucket prefix (empty_bucket d) = empty_bucket d.
Proof. unfold reset_bucket, empty_bucket. cbn. unfold erase_client. by rewrite !map_filter_empty. Qed.

Lemma accounted_others cfg p now s s' : config_ok cfg -> shard_ok cfg s -> accounted cfg p now s s' ->
  exists days, Forall (fun d => d = day_index now) days /\
    (reset_bucket (client_prefix (pa_clientId p)) <$> dayBuckets s') =
      trim_window (windowDays_ cfg) ((reset_bucket (client_prefix (pa_clientId p)) <$> dayBuckets s) ++ (empty_bucket <$> days)).
Proof.
  intros Hc Hs ((older & b & b' & Ht & Hb & ->) & _). apply counted_elsewhere in Hb.
  rewrite fmap_app, fmap_drop. cbn [fmap list_fmap]. rewrite Hb.
  rewrite <- (length_fmap (reset_bucket (client_prefix (pa_clientId p))) older).
  rewrite <- trim_window_snoc by apply Hc. destruct Ht as [(E & _) | (E & -> & _)].
  - exists []. split; [constructor |]. rewrite E, fmap_app. cbn [fmap list_fmap]. by rewrite app_nil_r.
  - exists [day_index now]. split; [by constructor |]. rewrite E, reset_empty. done.
Qed.

Lemma ts_addPacket_others cfg p now t t' r (D : Z -> Prop) : config_ok cfg -> ts_ok cfg t -> args_ok p -> D (day_index now) ->
  ts_addPacket p now t = Some (t', r) -> others_counted (pa_clientId p) D t t'.
Proof.
  intros Hc Hok Hp HD Ha. pose proof Hok as (Hcfg & _ & Hs). unfold ts_addPacket in Ha.
  destruct (shards_ t !! shardIndex (pa_clientId p)) as [s |] eqn:Es; [| done]. rewrite Hcfg in Ha.
  destruct (addPacket cfg p now s) as [[s' r'] |] eqn:Ea; [| done]. injection Ha as <- ->.
  assert (Hso : shard_ok cfg s) by (rewrite Forall_forall in Hs; apply Hs; by eapply list_elem_of_lookup_2).
  assert (Hl : (shardIndex (pa_clientId p) < length (shards_ t))%nat) by (by eapply lookup_lt_Some).
  unfold others_counted. split_conj; [done | intros i Hi; by apply list_lookup_insert_ne |]. intros s0 E0. rewrite Es in E0. injection E0 as <-.
  exists s'. rewrite Hcfg. cbn [shards_]. destruct r.
  - pose proof (addPacket_accounted _ _ _ _ _ Hc Hso Hp Ea) as Hacc.
    destruct (accounted_others _ _ _ _ _ Hc Hso Hacc) as (days & Hd & Hb). exists days.
    destruct Hacc as (_ & Hi & Hr & Hh). split_conj; [by apply list_lookup_insert_eq | | exact Hb |].
    + eapply Forall_impl; [exact Hd |]. by intros d ->.
    + intros c Hne. rewrite Hi, Hr, Hh, !lookup_insert_ne by congruence. done.
  - exists []. unfold addPacket in Ea. cbv zeta in Ea. destruct (_ && _); [| destruct (open_bucket _ _); by destruct (bucket_add _ _ _ _)].
    injection Ea as <-. split_conj; [by apply list_lookup_insert_eq | constructor | |].
    + cbn. rewrite app_nil_r, trim_window_all; [done |]. rewrite length_fmap. apply Hso.
    + intros c Hne. cbn. by rewrite !lookup_insert_ne by congruence.
Qed.
End Others.

(** ** Properties *)

Section Properties.
Context `{SH : StdHash, SHL : !StdHashLaws SH, IN : Inet}.

(** C10: in every state reachable by packets and purges, each shard keeps at
    most [windowDays_] buckets and every table and interface set within its
    cap; and in every bucket, for every interface, the country table adds up
    exactly to the interface's packet and byte totals, while the flow and
    entity tables, which evict, never exceed them; no counter wraps. *)
Theorem traffic_invariant (cfg : TSConfig) (t : TrafficStats) :
  config_ok cfg -> reach ts_step (new_ts cfg) t -> ts_ok cfg t.
Proof.
  intros Hc Hr. apply (reach_invariant ts_step (ts_ok cfg) (new_ts cfg)); [|intros; eapply ts_step_ok|]; 
    eauto using new_ts_ok.
Qed.

(** C32: accounting of one packet. An accepted packet is counted once, with its
    length, in the four tables of its interface in the bucket of its day: the
    interface's total, its flow, its country pair and its entity pair. A new
    flow or entity pair in a table at its cap takes the place of one with the
    fewest bytes; every other entry, interface and bucket is as it was, but
    that a first packet of another day opens a bucket and then the oldest
    buckets beyond the window are gone. The client's interface set and history
    note it. A packet of an interface beyond the cap only adds to the client's
    rejections. Other shards are not touched. *)
Theorem addPacket_accounting (cfg : TSConfig) (p : PacketArgs) (now : Z) (t t' : TrafficStats) (r : AddResult) :
  config_ok cfg -> ts_ok cfg t -> args_ok p -> ts_addPacket p now t = Some (t', r) ->
  let i := shardIndex (pa_clientId p) in
  exists s s', shards_ t !! i = Some s /\ t' = mkTS (ts_config t) (<[i := s']> (shards_ t)) /\
    match r with Accepted => accounted cfg p now s s' | IfaceCapExceeded => refused cfg p s s' end.
Proof.
  intros Hc (Hcfg & _ & Hs) Hp Ha. unfold ts_addPacket in Ha.
  destruct (shards_ t !! shardIndex (pa_clientId p)) as [s |] eqn:Es; [| done]. rewrite Hcfg in Ha.
  destruct (addPacket cfg p now s) as [[s' r'] |] eqn:Ea; [| done]. injection Ha as <- ->.
  exists s, s'. rewrite Hcfg. split_conj; [done | done |]. destruct r; [| by eapply addPacket_refused].
  apply addPacket_accounted; [done | | done | done]. rewrite Forall_forall in Hs. apply Hs. by eapply list_elem_of_lookup_2.
Qed.

Lemma erase_client_gone {A} (cid : str) (m : gmap str A) (k : str) :
  starts_with (client_prefix cid) k = true -> erase_client (client_prefix cid) m !! k = None.
Proof. intros H. by rewrite erase_client_lookup, H. Qed.

(** Purging a client removes every interface of the client from every
    table of every day bucket, together with its interface set, its reject
    counter and its history, leaves every other interface and every other
    client's bookkeeping as it was, and answers true exactly when some bucket
    held totals of the client. *)
Lemma purgeClient_exact (s : Shard) (cid : str) :
  let s' := (purgeClient s cid).1 in
  length (dayBuckets s') = length (dayBuckets s) /\
  (forall i b b', dayBuckets s !! i = Some b -> dayBuckets s' !! i = Some b' ->
     forall ck, let gone := starts_with (client_prefix cid) ck in
       totals b' !! ck = (if gone then None else totals b !! ck) /\
       flows b' !! ck = (if gone then None else flows b !! ck) /\
       countryFlows b' !! ck = (if gone then None else countryFlows b !! ck) /\
       entityFlows b' !! ck = (if gone then None else entityFlows b !! ck)) /\
  (forall c, clientIfaces s' !! c = (if decide (c = cid) then None else clientIfaces s !! c)) /\
  (forall c, getIfaceRejectCount c s' = if decide (c = cid) then 0 else getIfaceRejectCount c s) /\
  (forall c, clientHistory s' !! c = (if decide (c = cid) then None else clientHistory s !! c)) /\
  ((purgeClient s cid).2 = true <->
   exists b ck, b ∈ dayBuckets s /\ is_Some (totals b !! ck) /\
     starts_with (client_prefix cid) ck = true).
Proof.
  assert (Hdel : forall {B} (m : gmap str B) c,
    delete cid m !! c = if decide (c = cid) then None else m !! c).
  { intros B m c. case_decide; [subst; apply lookup_delete_eq|by apply lookup_delete_ne]. }
  cbn. split_conj.
  - apply length_fmap.
  - intros i b b' Hb. rewrite list_lookup_fmap, Hb. intros [= <-] ck. cbn.
    rewrite !erase_client_lookup. by destruct (starts_with _ ck).
  - apply Hdel.
  - intros c. unfold getIfaceRejectCount, at_key. cbn. rewrite Hdel. by case_decide.
  - apply Hdel.
  - rewrite existsb_exists. split.
    + intros (b & Hb & Hk). apply existsb_exists in Hk as ([ck c] & Hin & Hp).
      exists b, ck. apply list_elem_of_In in Hb. apply list_elem_of_In in Hin. rewrite iter_perm in Hin.
      apply elem_of_map_to_list in Hin. cbn in Hp. eauto.
    + intros (b & ck & Hb & [c Hc] & Hp). exists b. split; [by apply list_elem_of_In|].
      apply existsb_exists. exists (ck, c). split; [|done].
      apply list_elem_of_In. rewrite iter_perm. by apply elem_of_map_to_list.
Qed.

(** A snapshot reports for every interface the sum, over all shards and
    all retained day buckets, of its counters (modulo 2^64), whatever order
    the hash tables are traversed in. *)
Lemma snapshot_totals (t : TrafficStats) (now : Z) (ck : str) :
  at_key zero_counter (totalsOut (snapshot now t).1) ck
  = mkCounter (u64 (sum_total packets ck (all_buckets t))) (u64 (sum_total bytes ck (all_buckets t))).
Proof.
  unfold snapshot. cbn [fst]. rewrite fold_buckets, snap_totals.
  cbn [totalsOut empty_snap]. rewrite at_key_empty.
  change zero_counter with (mkCounter (u64 0) (u64 0)). by rewrite plus_fold.
Qed.

(** A packet is never met with undefined behaviour while its interface's
    totals of the day have room: the reset branch, which uses references into
    erased map nodes, is reachable only at 2^64 packets or bytes. *)
Lemma addPacket_defined (cfg : TSConfig) (p : PacketArgs) (now : Z) (s : Shard) :
  shard_ok cfg s ->
  (forall b, b ∈ dayBuckets s ->
     let tot := at_key zero_counter (totals b) (ci_key (pa_clientId p) (pa_iface p)) in
     packets tot < UINT64_MAX /\ bytes tot + pa_length p <= UINT64_MAX) ->
  0 <= pa_length p <= UINT32_MAX ->
  is_Some (addPacket cfg p now s).
Proof.
  intros [_ Hb _] Hroom Hp. unfold addPacket. cbv zeta. case_match_goal; [eauto|].
  destruct (open_bucket _ _) as [older current] eqn:Eo. apply open_bucket_split in Eo as [_ Eo].
  assert (is_Some (bucket_add cfg p now current)) as [b' Eb]; [|rewrite Eb; eauto].
  destruct Eo as [Eo|[Eo ->]].
  - rewrite Eo in Hb, Hroom. apply Forall_app in Hb as [_ Hb]. apply List.Forall_cons_iff in Hb as [Hb _].
    destruct (Hroom current) as [H1 H2]; [set_solver|]. by apply bucket_add_defined.
  - apply bucket_add_defined; [apply empty_bucket_ok|..]; cbn; rewrite at_key_empty; cbn; ulia.
Qed.
End Properties.

(** ** Witnesses *)

Definition sample_config : TSConfig := make_config 2 1 1 2.

Definition sample_args (iface src dst : str) (len : Z) : PacketArgs :=
  mkArgs "c1" iface src dst "DE" "US" "ISP" "CDN" len.

Definition sample_state : TrafficStats :=
  match ts_addPacket (sample_args "eth0" "10.0.0.1" "8.8.8.8" 100) 90000 (new_ts sample_config) with
  | Some (t, _) => t
  | None => new_ts sample_config
  end.

Lemma sample_config_ok : config_ok sample_config.
Proof. unfold config_ok. simpl. lia. Qed.

Lemma sample_args_ok i s d : args_ok (sample_args i s d 100).
Proof. unfold args_ok. simpl. ulia. Qed.

Lemma traffic_invariant_witness : ts_ok sample_config sample_state.
Proof.
  apply (traffic_invariant sample_config sample_state).
  - apply sample_config_ok.
  - eapply reach_step; [apply reach_refl|].
    eapply (step_add _ _ (sample_args "eth0" "10.0.0.1" "8.8.8.8" 100) 90000 Accepted).
    + apply sample_args_ok.
    + vm_compute. reflexivity.
Defined.

Definition sample_shard : Shard :=
  default empty_shard (shards_ sample_state !! shardIndex "c1").

Lemma sample_shard_ok : shard_ok sample_config sample_shard.
Proof.
  assert (H : ts_ok sample_config sample_state).
  { apply (ts_step_ok sample_config (new_ts sample_config)); [apply sample_config_ok|apply new_ts_ok|].
    eapply (step_add _ _ (sample_args "eth0" "10.0.0.1" "8.8.8.8" 100) 90000 Accepted);
      [apply sample_args_ok|vm_compute; reflexivity]. }
  destruct H as (_ & Hl & Hs). unfold sample_shard.
  destruct (shards_ sample_state !! shardIndex "c1") eqn:E.
  - by eapply Forall_lookup_1.
  - apply lookup_ge_None in E. pose proof (shardIndex_lt "c1"). lia.
Qed.

(** Two flows of one interface, in tables of one entry each. *)
Definition sample_added : TrafficStats :=
  match ts_addPacket (sample_args "eth0" "10.0.0.9" "8.8.8.8" 100) 90060 sample_state with
  | Some (t, _) => t
  | None => new_ts sample_config
  end.

Lemma sample_state_ok : ts_ok sample_config sample_state.
Proof.
  apply (ts_step_ok sample_config (new_ts sample_config)); [apply sample_config_ok|apply new_ts_ok|].
  eapply (step_add _ _ (sample_args "eth0" "10.0.0.1" "8.8.8.8" 100) 90000 Accepted);
    [apply sample_args_ok|vm_compute; reflexivity].
Qed.

Lemma addPacket_accounting_witness :
  exists s s', shards_ sample_state !! shardIndex "c1" = Some s /\ shards_ sample_added !! shardIndex "c1" = Some s' /\
    (exists b b', last (dayBuckets s) = Some b /\ last (dayBuckets s') = Some b' /\
      counted_in sample_config (sample_args "eth0" "10.0.0.9" "8.8.8.8" 100) 90060 b b').
Proof.
  destruct (addPacket_accounting sample_config (sample_args "eth0" "10.0.0.9" "8.8.8.8" 100) 90060 sample_state sample_added Accepted)
    as (s & s' & Hs & Ht & (older & b & b' & Hd & Hb & Hs') & _).
  - apply sample_config_ok.
  - apply sample_state_ok.
  - apply sample_args_ok.
  - vm_compute. reflexivity.
  - exists s, s'. split; [exact Hs |]. split.
    { rewrite Ht. apply list_lookup_insert_eq. vm_compute. lia. }
    exists b, b'. destruct Hd as [(E & _) | (E & _ & E2)].
    + split_conj; [rewrite E; apply last_snoc | rewrite Hs'; apply last_snoc | exact Hb].
    + exfalso. vm_compute in Hs. injection Hs as <-. subst older. by apply (E2 _ eq_refl).
Defined.

Lemma addPacket_defined_witness :
  is_Some (addPacket sample_config (sample_args "eth1" "10.0.0.9" "8.8.8.8" 100) 200000 empty_shard).
Proof.
  apply (addPacket_defined sample_config (sample_args "eth1" "10.0.0.9" "8.8.8.8" 100) 200000 empty_shard).
  - split; cbn; [lia|constructor|]. intros cid. rewrite at_key_empty, size_empty. lia.
  - intros b Hb. cbn in Hb. by apply not_elem_of_nil in Hb.
  - simpl. ulia.
Defined.

Lemma purgeClient_exact_witness :
  clientHistory (purgeClient sample_shard "c1").1 !! ("c1" : str) = None.
Proof.
  destruct (purgeClient_exact sample_shard "c1") as (_ & _ & _ & _ & H & _).
  exact (H "c1").
Defined.

Lemma snapshot_totals_witness :
  at_key zero_counter (totalsOut (snapshot 0 sample_state).1) "c1|eth0"
  = mkCounter (u64 (sum_total packets "c1|eth0" (all_buckets sample_state)))
              (u64 (sum_total bytes "c1|eth0" (all_buckets sample_state))).
Proof. exact (snapshot_totals sample_state 0 "c1|eth0"). Defined.
