(* ===== verification/Registry.v ===== *)
(** The server's shared registries of [ntm_types.hpp]: who is announced where
    ([ClientRegistry]), what is hidden ([HiddenEntitiesStore]), which
    addresses are monitoring overhead ([MonitoringIpSet]), the control
    channels that route log responses ([ClientCtrlChannel],
    [ClientControlChannels]) and the update statuses
    ([ClientUpdateRegistry]). *)

From S2P Require Import Prelude CppString Wire Health.

(** ** Announcements *)

Module ClientRegistry.

(* ntm_types.hpp:182-187 ProtoRejectionRecord *)
Record ProtoRejectionRecord := mkRejection {
  peerIp : str;
  attemptedVersion : Z;
  atSec : Z
}.

(* ntm_types.hpp:193-199 ClientRegistry *)
Record t := mk {
  ipToClientId : gmap str str;
  clientToExternalIp : gmap str str;
  clientHealth : gmap str ClientHealthStats;
  protoRejections : list ProtoRejectionRecord
}.

Definition empty : t := mk ∅ ∅ ∅ [].

(* ntm_types.hpp:202-210 removeClient *)
Definition removeClient (r : t) (clientId : str) : t :=
  if decide (clientId = []) then r
  else mk (filter (fun kv => kv.2 <> clientId) (ipToClientId r))
          (delete clientId (clientToExternalIp r))
          (delete clientId (clientHealth r)) (protoRejections r).

(** Nothing in the registry refers to the client. *)
Definition forgotten (r : t) (clientId : str) : Prop :=
  (forall ip, ipToClientId r !! ip <> Some clientId) /\
  clientToExternalIp r !! clientId = None /\ clientHealth r !! clientId = None.

Lemma removeClient_forgets r cid : cid <> [] -> forgotten (removeClient r cid) cid.
Proof.
  intros Hne. unfold removeClient. rewrite decide_False by done.
  unfold forgotten; cbn; split_conj.
  - intros ip H. apply map_lookup_filter_Some in H as [_ H]. by cbn in H.
  - apply lookup_delete_eq.
  - apply lookup_delete_eq.
Qed.

Lemma removeClient_other r cid c ip :
  c <> cid ->
  (ipToClientId (removeClient r cid) !! ip = Some c <-> ipToClientId r !! ip = Some c) /\
  clientToExternalIp (removeClient r cid) !! c = clientToExternalIp r !! c /\
  clientHealth (removeClient r cid) !! c = clientHealth r !! c.
Proof.
  intros Hne. unfold removeClient. case_decide; [done|]. cbn.
  rewrite !lookup_delete_ne, map_lookup_filter_Some by done. cbn. naive_solver.
Qed.

End ClientRegistry.

(** ** Hidden clients and interfaces *)

Module HiddenEntities.

(* ntm_types.hpp:229-234 HiddenEntitiesStore *)
Record t := mk {
  hiddenClients : gset str;
  hiddenIfaces : gset (str * str)
}.

(* ntm_types.hpp:236-240 isClientHidden *)
Definition isClientHidden (h : t) (clientId : str) : bool :=
  bool_decide (clientId ∈ hiddenClients h).

(* ntm_types.hpp:241-246 isIfaceHidden *)
Definition isIfaceHidden (h : t) (clientId iface : str) : bool :=
  bool_decide (clientId ∈ hiddenClients h) || bool_decide ((clientId, iface) ∈ hiddenIfaces h).

End HiddenEntities.

(** ** Monitoring addresses *)

Module MonitoringIpSet.

(* ntm_types.hpp:252-257 MonitoringIpSet *)
Abbreviation t := (gmap str Z).

(* ntm_types.hpp:259-265 add *)
Definition add (ips : t) (ip : str) (now : Z) : t := <[ip := now]> ips.

(* ntm_types.hpp:268-276 snapshot *)
Definition snapshot (ips : t) : list (str * Z) := map_to_list ips.

(* ntm_types.hpp:279-286 ipSet *)
Definition ipSet (ips : t) : gset str := dom ips.

End MonitoringIpSet.

(** ** Control channels *)

Module CtrlChannel.

(** A response object, shared between the channel and the handler that waits
    on it: an address into the heap below. *)
(* ntm_types.hpp:296-305 LogCmdResponse *)
Record LogCmdResponse := mkResp {
  lines : list str;
  done_ : bool;
  isError : bool
}.

(** The channel: the pending table of pointers, the acknowledgement slot, and
    the heap its [shared_ptr]s point into. *)
(* ntm_types.hpp:310-325 ClientCtrlChannel *)
Record t := mk {
  pending : gmap str nat;
  ackedLevel : str;
  gotAck : bool;
  heap : gmap nat LogCmdResponse;
  next : nat
}.

Definition new : t := mk ∅ [] false ∅ 0.

(* ntm_types.hpp:330-336 registerPending *)
Definition registerPending (c : t) (reqId : str) : t * nat :=
  (mk (<[reqId := next c]> (pending c)) (ackedLevel c) (gotAck c)
      (<[next c := mkResp [] false false]> (heap c)) (S (next c)), next c).

(* ntm_types.hpp:338-342 removePending *)
Definition removePending (c : t) (reqId : str) : t :=
  mk (delete reqId (pending c)) (ackedLevel c) (gotAck c) (heap c) (next c).

Definition kAckPrefix : str := "ack set_loglevel ".

(** Sub-type and request id: the first two space-separated words. *)
(* ntm_types.hpp:363-368 routeLLine, words *)
Definition route_words (body : str) : option (str * str * nat) :=
  let? sp1 := find_char SP body in
  let reqId := match find_char_from SP body (S sp1) with
               | None => substr_from body (S sp1)
               | Some sp2 => substr body (S sp1) (sp2 - sp1 - 1)
               end in
  Some (substr body 0 sp1, reqId, sp1).

(* ntm_types.hpp:379-384 routeLLine, isEnd *)
Definition isEnd (body subtype : str) (sp1 : nat) : bool :=
  let has_end := match find_str_from " end" body sp1 with Some _ => true | None => false end in
  (has_end && bool_decide (subtype = "list")) || (has_end && bool_decide (subtype = "get"))
  || bool_decide (subtype = "del") || bool_decide (subtype = "del_all") || bool_decide (subtype = "err").

(* ntm_types.hpp:386-398 routeLLine, append *)
Definition append_line (r : LogCmdResponse) (body subtype : str) (sp1 : nat) : LogCmdResponse :=
  if decide (subtype = "err") then mkResp (lines r ++ [body]) true true
  else mkResp (lines r ++ [body]) (done_ r || isEnd body subtype sp1) (isError r).

(* ntm_types.hpp:346-400 routeLLine *)
Definition routeLLine (c : t) (body : str) : t :=
  if starts_with kAckPrefix body then
    mk (pending c) (trim_back (char_in [CR; LF]) (substr_from body 17)) true (heap c) (next c)
  else
    match route_words body with
    | None => c
    | Some (subtype, reqId, sp1) =>
        match pending c !! reqId with
        | None => c
        | Some p =>
            mk (pending c) (ackedLevel c) (gotAck c)
               (alter (fun r => append_line r body subtype sp1) p (heap c)) (next c)
        end
    end.

(** *** Properties of routing *)

Inductive step (c c' : t) : Prop :=
| step_register reqId p : registerPending c reqId = (c', p) -> step c c'
| step_remove reqId : c' = removePending c reqId -> step c c'
| step_line body : c' = routeLLine c body -> step c c'.

(** Pending pointers are live and pairwise distinct. *)
Definition wf (c : t) : Prop :=
  (forall q p, pending c !! q = Some p -> is_Some (heap c !! p)) /\
  (forall q q' p, pending c !! q = Some p -> pending c !! q' = Some p -> q = q') /\
  (forall p, is_Some (heap c !! p) -> (p < next c)%nat).

Lemma wf_new : wf new.
Proof. unfold wf, new. cbn. split_conj; intros; rewrite ?lookup_empty in *; try done.
Qed.

Lemma routeLLine_pending c body : pending (routeLLine c body) = pending c.
Proof. unfold routeLLine. repeat (case_match_goal; try done). Qed.

Lemma routeLLine_heap_dom c body p : is_Some (heap (routeLLine c body) !! p) <-> is_Some (heap c !! p).
Proof.
  unfold routeLLine. repeat (case_match_goal; try done). cbn. apply lookup_alter_is_Some.
Qed.

Lemma routeLLine_next c body : next (routeLLine c body) = next c.
Proof. unfold routeLLine. repeat (case_match_goal; try done). Qed.

Lemma wf_step c c' : wf c -> step c c' -> wf c'.
Proof.
  intros (H1 & H2 & H3) [q p Hr|q ->|body ->].
  - injection Hr as <- _. unfold wf. cbn. split_conj.
    + intros q' p'. rewrite lookup_insert_Some, lookup_insert_is_Some. intros [[_ <-]|[_ Hq]]; [by left|].
      destruct (decide (next c = p')); [by left|right]; eauto.
    + intros q1 q2 p'. rewrite !lookup_insert_Some.
      intros [[<- <-]|[Hn1 Hq1]] [[<- ?]|[Hn2 Hq2]]; try done; [| |eauto].
      * apply H1, H3 in Hq2. lia.
      * subst. apply H1, H3 in Hq1. lia.
    + intros p'. rewrite lookup_insert_is_Some. intros [<-|[_ Hp]]; [lia|]. apply H3 in Hp. lia.
  - unfold wf. cbn. split_conj; [|intros q1 q2 p'|done].
    + intros q' p' [_ Hq]%lookup_delete_Some. eauto.
    + rewrite !lookup_delete_Some. naive_solver.
  - unfold wf. rewrite routeLLine_pending, routeLLine_next.
    split_conj; [|done|]; intros *; rewrite routeLLine_heap_dom; eauto.
Qed.

Lemma wf_reach c : reach step new c -> wf c.
Proof. apply (reach_invariant step wf new wf_new). apply wf_step. Qed.

(** Response routing is exact and isolated: in every reachable channel
    state, a response line (other than an acknowledgement) is appended once,
    at the end, to the response registered under the line's own request id,
    and no other pending request's response changes; a line for an unknown
    request changes nothing. *)
Lemma routeLLine_isolated (c : t) (body subtype reqId : str) (sp1 : nat) :
  reach step new c -> starts_with kAckPrefix body = false ->
  route_words body = Some (subtype, reqId, sp1) ->
  (forall q p r, pending c !! q = Some p -> heap c !! p = Some r ->
     heap (routeLLine c body) !! p
     = Some (if decide (q = reqId) then append_line r body subtype sp1 else r)) /\
  (pending c !! reqId = None -> routeLLine c body = c) /\
  pending (routeLLine c body) = pending c.
Proof.
  intros Hr Ha Hw. apply wf_reach in Hr as (H1 & H2 & H3).
  split_conj; [| |apply routeLLine_pending].
  - intros q p r Hq Hp. unfold routeLLine. rewrite Ha, Hw.
    destruct (decide (q = reqId)) as [->|Hne].
    + rewrite Hq. cbn. by rewrite lookup_alter_eq, Hp.
    + destruct (pending c !! reqId) as [p'|] eqn:Eq; [|done]. cbn.
      rewrite lookup_alter_ne; [done|]. intros ->. by apply Hne, (H2 _ _ p).
  - intros Hq. unfold routeLLine. by rewrite Ha, Hw, Hq.
Qed.

Definition sample_channel : t := (registerPending (registerPending new "r1").1 "r2").1.

Lemma routeLLine_isolated_witness :
  heap (routeLLine sample_channel "del r2 ok a.log") !! 0%nat = Some (mkResp [] false false) /\
  heap (routeLLine sample_channel "del r2 ok a.log") !! 1%nat
  = Some (mkResp ["del r2 ok a.log" : str] true false).
Proof.
  destruct (routeLLine_isolated sample_channel "del r2 ok a.log" "del" "r2" 3) as (H & _ & _).
  - eapply reach_step; [eapply reach_step; [apply reach_refl|]|].
    + by apply (step_register _ _ "r1" 0).
    + by apply (step_register _ _ "r2" 1).
  - reflexivity.
  - vm_compute. reflexivity.
  - split.
    + rewrite (H "r1" 0%nat (mkResp [] false false)) by reflexivity. reflexivity.
    + rewrite (H "r2" 1%nat (mkResp [] false false)) by reflexivity. reflexivity.
Defined.

(** The end marker is searched in the whole rest of the line, so a listed file
    whose name contains " end" completes the response before its last line. *)
Lemma early_end :
  done_ (append_line (mkResp [] false false) "list r1 file ntm-client-a endless.log 10 unknown" "list" 4) = true.
Proof. vm_compute. reflexivity. Qed.

End CtrlChannel.

(** ** The table of connected clients *)

Module ControlChannels.

(* ntm_types.hpp:404-407 ClientControlChannels *)
Abbreviation t := (gmap str CtrlChannel.t).

(* ntm_types.hpp:409-413 add *)
Definition add (m : t) (clientId : str) (ch : CtrlChannel.t) : t := <[clientId := ch]> m.

(* ntm_types.hpp:415-419 remove *)
Definition remove (m : t) (clientId : str) : t := delete clientId m.

(* ntm_types.hpp:421-426 get *)
Definition get (m : t) (clientId : str) : option CtrlChannel.t := m !! clientId.

End ControlChannels.

(** ** Update statuses *)

Module UpdateRegistry.

(* ntm_types.hpp:434-443 UpdateStatus *)
Record UpdateStatus := mkStatus {
  req_id : str;
  stage : str;
  error : str;
  new_version : str;
  started_at : Z;   (* steady_clock ticks: nanoseconds *)
  updated_at : Z;
  terminal : bool
}.

Definition empty_status : UpdateStatus := mkStatus [] [] [] [] 0 0 false.

(* ntm_types.hpp:446-449 ClientUpdateRegistry *)
Abbreviation t := (gmap str UpdateStatus).

Definition ns_per_minute : Z := 60 * 1000000000.

(** Terminal for at least five whole minutes. *)
(* ntm_types.hpp:494-496 purgeExpiredLocked, test *)
Definition expired (now : Z) (s : UpdateStatus) : bool :=
  terminal s && (5 <=? Z.quot (now - updated_at s) ns_per_minute).

(* ntm_types.hpp:489-505 purgeExpiredLocked *)
Definition purgeExpiredLocked (now : Z) (m : t) : t :=
  filter (fun kv => expired now kv.2 = false) (m : gmap str UpdateStatus).

(** [set]: the clock is read once before the insertion and once by the purge. *)
(* ntm_types.hpp:452-458 set *)
Definition set (m : t) (clientId : str) (s : UpdateStatus) (now now' : Z) : t :=
  purgeExpiredLocked now'
    (<[clientId := mkStatus (req_id s) (stage s) (error s) (new_version s) (started_at s) now (terminal s)]> m).

(* ntm_types.hpp:462-478 applyUpdLine *)
Definition applyUpdLine (m : t) (clientId reqId stage error newVersion : str) (terminal : bool) (now : Z)
  : t * bool :=
  match m !! clientId with
  | Some s =>
      if decide (req_id s <> reqId) then (m, false)
      else (<[clientId := mkStatus (req_id s) stage error newVersion (started_at s) now terminal]> m, true)
  | None => (m, false)
  end.

(* ntm_types.hpp:481-487 get *)
Definition get (m : t) (clientId : str) : UpdateStatus := default empty_status (m !! clientId).

Lemma purge_lookup (now : Z) (m : t) (c : str) :
  purgeExpiredLocked now m !! c
  = match m !! c with Some s => if expired now s then None else Some s | None => None end.
Proof.
  unfold purgeExpiredLocked. destruct (m !! c) as [s|] eqn:E.
  - destruct (expired now s) eqn:Ex.
    + apply map_lookup_filter_None. right. intros x Hx. cbn. congruence.
    + by apply map_lookup_filter_Some.
  - apply map_lookup_filter_None. by left.
Qed.

(** An update status set for a client is what the next reads return, with a
    fresh time stamp, whenever less than five minutes pass before the purge
    runs; other clients' statuses survive unless they are terminal and five
    minutes old; and a progress line is applied exactly when its request id is
    the current one, to that client only, leaving request id and start time. *)
Lemma update_registry_contract (m : t) (c : str) (s : UpdateStatus) (now now' : Z) :
  now <= now' < now + 5 * ns_per_minute ->
  let m' := set m c s now now' in
  get m' c = mkStatus (req_id s) (stage s) (error s) (new_version s) (started_at s) now (terminal s) /\
  (forall c', c' <> c ->
     m' !! c' = match m !! c' with Some x => if expired now' x then None else Some x | None => None end) /\
  (forall reqId st er nv tm now'',
     let (m'', ok) := applyUpdLine m' c reqId st er nv tm now'' in
     ok = bool_decide (reqId = req_id s) /\
     get m'' c = (if ok then mkStatus (req_id s) st er nv (started_at s) now'' tm else get m' c) /\
     (forall c', c' <> c -> m'' !! c' = m' !! c')).
Proof.
  intros Hn m'.
  assert (Hset : m' !! c
    = Some (mkStatus (req_id s) (stage s) (error s) (new_version s) (started_at s) now (terminal s))).
  { unfold m', set. rewrite purge_lookup, lookup_insert_eq. unfold expired. cbn.
    rewrite (proj2 (Z.leb_gt _ _)); [by rewrite andb_false_r|].
    unfold ns_per_minute in *. rewrite Z.quot_div_nonneg by lia. apply Z.div_lt_upper_bound; lia. }
  split_conj.
  - unfold get. by rewrite Hset.
  - intros c' Hc. unfold m', set. by rewrite purge_lookup, lookup_insert_ne.
  - intros reqId st er nv tm now''. unfold applyUpdLine. rewrite Hset. cbn.
    case_decide as Hd.
    + rewrite bool_decide_eq_false_2 by congruence. done.
    + assert (reqId = req_id s) as -> by (apply dec_stable; congruence).
      rewrite bool_decide_eq_true_2 by done. unfold get. rewrite lookup_insert_eq. split_conj; try done.
      intros c' Hc. by rewrite lookup_insert_ne.
Qed.

Lemma update_registry_contract_witness :
  get (set ∅ "c1" (mkStatus "q" "sent" [] [] 5 0 false) 7 9) "c1" = mkStatus "q" "sent" [] [] 5 7 false.
Proof.
  destruct (update_registry_contract ∅ "c1" (mkStatus "q" "sent" [] [] 5 0 false) 7 9) as (H & _ & _).
  - unfold ns_per_minute. lia.
  - exact H.
Defined.

End UpdateRegistry.
