(* ===== verification/Base64.v ===== *)
(** Strict RFC 4648 base64 ([trust.hpp], [detail::b64Decode]): the decoder as
    written, the standard encoder as its reference, and the theorem that the
    decoder accepts exactly the encoder's outputs. *)

From S2P Require Import Prelude CppString.

(** ** The decoder *)

(* trust.hpp:115-122 b64Decode, val *)
Definition b64_val (c : ascii) : option Z :=
  if is_upper c then Some (byte_val c - byte_val "A")
  else if is_lower c then Some (byte_val c - byte_val "a" + 26)
  else if is_digit c then Some (byte_val c - byte_val "0" + 52)
  else if decide (c = "+"%char) then Some 62
  else if decide (c = "/"%char) then Some 63
  else None.

(** The value of character [j] of a group: a padding sign counts as 0 where
    padding is allowed. *)
(* trust.hpp:131-140 b64Decode, one character *)
Definition b64_char (last : bool) (pad j : Z) (c : ascii) : option Z :=
  if decide (c = "="%char) then
    if negb last || (j <? 4 - pad) then None else Some 0
  else b64_val c.

(* trust.hpp:127-148 b64Decode, groups *)
Fixpoint b64_groups (pad : Z) (s : str) : option str :=
  match s with
  | c0 :: c1 :: c2 :: c3 :: rest =>
      let last := bool_decide (rest = []) in
      let? v0 := b64_char last pad 0 c0 in
      let? v1 := b64_char last pad 1 c1 in
      let? v2 := b64_char last pad 2 c2 in
      let? v3 := b64_char last pad 3 c3 in
      let n := Z.lor (Z.lor (Z.lor (Z.shiftl v0 18) (Z.shiftl v1 12)) (Z.shiftl v2 6)) v3 in
      let o0 := [byte_of (Z.shiftr n 16)] in
      let o1 := if negb (last && (pad =? 2)) then [byte_of (Z.shiftr n 8)] else [] in
      let o2 := if negb (last && (1 <=? pad)) then [byte_of n] else [] in
      if last && (pad =? 2) && negb (Z.land n 0xFFFF =? 0) then None
      else if last && (pad =? 1) && negb (Z.land n 0xFF =? 0) then None
      else
        let out := o0 ++ o1 ++ o2 in
        if last then Some out else let? o := b64_groups pad rest in Some (out ++ o)
  | _ => Some []
  end.

(* trust.hpp:111-150 b64Decode *)
Definition b64Decode (s : str) : option str :=
  if decide (s = []) then None
  else if negb (length s mod 4 =? 0)%nat then None
  else
    let pad := (if decide (nth (length s - 1) s NUL = "="%char) then 1 else 0)
             + (if decide (nth (length s - 2) s NUL = "="%char) then 1 else 0) in
    b64_groups pad s.

(** ** The reference encoder *)

Definition b64_sym (v : Z) : ascii :=
  if v <? 26 then byte_of (byte_val "A" + v)
  else if v <? 52 then byte_of (byte_val "a" + (v - 26))
  else if v <? 62 then byte_of (byte_val "0" + (v - 52))
  else if v =? 62 then "+" else "/".

Fixpoint b64Encode (s : str) : str :=
  match s with
  | [] => []
  | [a] =>
      let a := byte_val a in
      [b64_sym (a / 4); b64_sym (a mod 4 * 16); "="%char; "="%char]
  | [a; b] =>
      let a := byte_val a in let b := byte_val b in
      [b64_sym (a / 4); b64_sym (a mod 4 * 16 + b / 16); b64_sym (b mod 16 * 4); "="%char]
  | a :: b :: c :: rest =>
      let a := byte_val a in let b := byte_val b in let c := byte_val c in
      b64_sym (a / 4) :: b64_sym (a mod 4 * 16 + b / 16) ::
      b64_sym (b mod 16 * 4 + c / 64) :: b64_sym (c mod 64) :: b64Encode rest
  end.

(** ** Lemmas: symbols *)

Lemma b64_val_sym v : 0 <= v < 64 -> b64_val (b64_sym v) = Some v.
Proof.
  intros Hv.
  assert (E : forallb (fun i => bool_decide (b64_val (b64_sym (Z.of_nat i)) = Some (Z.of_nat i))) (seq 0 64) = true)
    by (vm_compute; reflexivity).
  rewrite forallb_forall in E. specialize (E (Z.to_nat v)).
  rewrite Z2Nat.id in E by lia. eapply bool_decide_eq_true_1, E.
  apply in_seq. lia.
Qed.

Lemma b64_val_Some c v : b64_val c = Some v -> 0 <= v < 64 /\ c = b64_sym v /\ c <> "="%char.
Proof.
  assert (E : forallb (fun c => match b64_val c with
              | Some v => (0 <=? v) && (v <? 64) && bool_decide (c = b64_sym v) && negb (bool_decide (c = "="%char))
              | None => true end) all_bytes = true) by (vm_compute; reflexivity).
  intros Hv. pose proof (byte_forall _ E c) as H. cbv beta in H. rewrite Hv in H. bool_to_prop.
  naive_solver.
Qed.

Lemma b64_sym_not_pad v : 0 <= v < 64 -> b64_sym v <> "="%char.
Proof. intros Hv. apply b64_val_sym in Hv. by apply b64_val_Some in Hv as (_ & _ & ?). Qed.

Lemma b64_char_sym last pad j v : 0 <= v < 64 -> b64_char last pad j (b64_sym v) = Some v.
Proof. intros Hv. unfold b64_char. rewrite decide_False by by apply b64_sym_not_pad. by apply b64_val_sym. Qed.

(** The packed 24 bits as a number. *)
Lemma pack24 v0 v1 v2 v3 :
  0 <= v1 < 64 -> 0 <= v2 < 64 -> 0 <= v3 < 64 ->
  Z.lor (Z.lor (Z.lor (Z.shiftl v0 18) (Z.shiftl v1 12)) (Z.shiftl v2 6)) v3
  = ((v0 * 64 + v1) * 64 + v2) * 64 + v3.
Proof.
  intros H1 H2 H3.
  replace (Z.shiftl v0 18) with (Z.shiftl (Z.shiftl (Z.shiftl v0 6) 6) 6) by (rewrite !Z.shiftl_shiftl by lia; done).
  replace (Z.shiftl v1 12) with (Z.shiftl (Z.shiftl v1 6) 6) by (rewrite !Z.shiftl_shiftl by lia; done).
  rewrite <- !Z.shiftl_lor. rewrite !lor_shiftl by lia. lia.
Qed.

(** ** Lemmas: groups *)

Lemma list3_ind {A} (P : list A -> Prop) :
  P [] -> (forall a, P [a]) -> (forall a b, P [a; b]) ->
  (forall a b c l, P l -> P (a :: b :: c :: l)) -> forall l, P l.
Proof.
  intros H0 H1 H2 H3 l. assert (P l /\ (forall a, P (a :: l)) /\ (forall a b, P (a :: b :: l))) as [? _]; [|done].
  induction l as [|x l (IH0 & IH1 & IH2)]; split_conj; auto.
Qed.

Lemma b64Encode_nil_iff s : b64Encode s = [] <-> s = [].
Proof. destruct s as [|a [|b [|c s]]]; by split. Qed.

(** Number of padding signs the encoder ends with. *)
Definition pad_of (s : str) : Z :=
  match (length s mod 3)%nat with 1%nat => 2 | 2%nat => 1 | _ => 0 end.

Lemma pad_of_cons3 a b c s : pad_of (a :: b :: c :: s) = pad_of s.
Proof.
  unfold pad_of. cbn [length]. replace (S (S (S (length s)))) with (length s + 1 * 3)%nat by lia.
  by rewrite Nat.Div0.mod_add.
Qed.

(** The three bytes of a packed group. *)
Lemma unpack_bytes v0 v1 v2 v3 :
  0 <= v0 < 64 -> 0 <= v1 < 64 -> 0 <= v2 < 64 -> 0 <= v3 < 64 ->
  let n := ((v0 * 64 + v1) * 64 + v2) * 64 + v3 in
  u8 (Z.shiftr n 16) = v0 * 4 + v1 / 16 /\
  u8 (Z.shiftr n 8) = v1 mod 16 * 16 + v2 / 4 /\
  u8 n = v2 mod 4 * 64 + v3.
Proof.
  intros H0 H1 H2 H3 n. rewrite !Z.shiftr_div_pow2 by lia. unfold u8, n.
  change (2 ^ 16) with 65536. change (2 ^ 8) with 256.
  split_conj; Z.to_euclidean_division_equations; lia.
Qed.

Lemma land_low n k : 0 <= k -> Z.land n (2 ^ k - 1) = n mod 2 ^ k.
Proof. intros Hk. rewrite <- Z.land_ones by done. by rewrite Z.ones_equiv, <- Z.sub_1_r. Qed.

(** One group, given the values of its characters. *)
Lemma groups_cons pad c0 c1 c2 c3 rest v0 v1 v2 v3 :
  let last := bool_decide (rest = []) in
  b64_char last pad 0 c0 = Some v0 -> b64_char last pad 1 c1 = Some v1 ->
  b64_char last pad 2 c2 = Some v2 -> b64_char last pad 3 c3 = Some v3 ->
  0 <= v0 < 64 -> 0 <= v1 < 64 -> 0 <= v2 < 64 -> 0 <= v3 < 64 ->
  let x := byte_of (v0 * 4 + v1 / 16) in
  let y := byte_of (v1 mod 16 * 16 + v2 / 4) in
  let z := byte_of (v2 mod 4 * 64 + v3) in
  b64_groups pad (c0 :: c1 :: c2 :: c3 :: rest)
  = if last then
      if pad =? 2 then (if (v1 mod 16 * 16 + v2 / 4 =? 0) && (v2 mod 4 * 64 + v3 =? 0) then Some [x] else None)
      else if pad =? 1 then (if v2 mod 4 * 64 + v3 =? 0 then Some [x; y] else None)
      else if 1 <=? pad then Some [x; y] else Some [x; y; z]
    else (fun o => x :: y :: z :: o) <$> b64_groups pad rest.
Proof.
  intros last E0 E1 E2 E3 H0 H1 H2 H3 x y z. cbn [b64_groups]. fold last.
  rewrite E0, E1, E2, E3, pack24 by done.
  destruct (unpack_bytes v0 v1 v2 v3 H0 H1 H2 H3) as (U0 & U1 & U2).
  set (n := ((v0 * 64 + v1) * 64 + v2) * 64 + v3) in *.
  assert (Eb : forall m k, u8 m = k -> byte_of m = byte_of k).
  { intros m k Hm. unfold byte_of. rewrite <- Hm. unfold u8. by rewrite Zmod_mod. }
  rewrite (Eb _ _ U0), (Eb _ _ U1), (Eb _ _ U2). fold x y z.
  change 0xFFFF with (2 ^ 16 - 1). change 0xFF with (2 ^ 8 - 1). rewrite !land_low by lia.
  assert (N16 : (n mod 2 ^ 16 =? 0) = (v1 mod 16 * 16 + v2 / 4 =? 0) && (v2 mod 4 * 64 + v3 =? 0)).
  { apply Bool.eq_true_iff_eq. rewrite andb_true_iff, !Z.eqb_eq. unfold n.
    change (2 ^ 16) with 65536. Z.to_euclidean_division_equations; lia. }
  assert (N8 : (n mod 2 ^ 8 =? 0) = (v2 mod 4 * 64 + v3 =? 0)).
  { apply Bool.eq_true_iff_eq. rewrite !Z.eqb_eq. unfold n.
    change (2 ^ 8) with 256. Z.to_euclidean_division_equations; lia. }
  rewrite N16, N8. destruct last; cbn [andb negb]; [|by destruct (b64_groups pad rest)].
  generalize (v1 mod 16 * 16 + v2 / 4 =? 0), (v2 mod 4 * 64 + v3 =? 0). intros p q.
  destruct (Z.eqb_spec pad 2) as [->|Hp2]; [by destruct p, q|].
  destruct (Z.eqb_spec pad 1) as [->|Hp1]; [by destruct p, q|].
  by destruct (1 <=? pad), p, q.
Qed.

Lemma byte_split a : 0 <= byte_val a / 4 < 64 /\ 0 <= byte_val a mod 4 * 16 < 64 /\
  0 <= byte_val a / 16 < 16 /\ 0 <= byte_val a mod 16 * 4 < 64 /\ 0 <= byte_val a / 64 < 4 /\
  0 <= byte_val a mod 64 < 64 /\ 0 <= byte_val a mod 16 < 16.
Proof. pose proof (byte_val_range a). Z.to_euclidean_division_equations; lia. Qed.

Lemma byte_of_eq z c : z = byte_val c -> byte_of z = c.
Proof. intros ->. apply byte_of_val. Qed.

Lemma byte_of_sub a m : m = byte_val a -> byte_of m = a.
Proof. apply byte_of_eq. Qed.

(** Decoding what the encoder wrote. *)
Lemma groups_encode s : s <> [] -> b64_groups (pad_of s) (b64Encode s) = Some s.
Proof.
  induction s as [|a|a b|a b c s IH] using list3_ind; intros Hne; [done| | |].
  - pose proof (byte_split a) as (? & ? & _). cbn [b64Encode].
    erewrite groups_cons with (v2 := 0) (v3 := 0);
      [|first [apply b64_char_sym; lia | lia | reflexivity]..].
    change (pad_of [a]) with 2. cbn [Z.eqb bool_decide]. rewrite bool_decide_eq_true_2 by done.
    cbn. rewrite (proj2 (Z.eqb_eq _ 0)) by (Z.to_euclidean_division_equations; lia). cbn.
    f_equal. f_equal. apply byte_of_eq. Z.to_euclidean_division_equations; lia.
  - pose proof (byte_split a) as (? & ? & _). pose proof (byte_split b) as (? & ? & ? & ? & _).
    cbn [b64Encode].
    erewrite groups_cons with (v3 := 0);
      [|first [apply b64_char_sym; lia | lia | reflexivity]..].
    change (pad_of [a; b]) with 1. rewrite bool_decide_eq_true_2 by done.
    cbn. rewrite (proj2 (Z.eqb_eq _ 0)) by (Z.to_euclidean_division_equations; lia).
    f_equal. f_equal; [|f_equal]; apply byte_of_eq; Z.to_euclidean_division_equations; lia.
  - pose proof (byte_split a) as (? & ? & _). pose proof (byte_split b) as (? & ? & ? & ? & _).
    pose proof (byte_split c) as (? & ? & ? & ? & ? & ? & _).
    cbn [b64Encode].
    erewrite groups_cons; [|first [apply b64_char_sym; lia | lia]..].
    rewrite pad_of_cons3.
    rewrite !(byte_of_eq _ a), !(byte_of_eq _ b), !(byte_of_eq _ c) by (Z.to_euclidean_division_equations; lia).
    destruct (decide (s = [])) as [->|Hs].
    + cbn. done.
    + rewrite bool_decide_eq_false_2 by by rewrite b64Encode_nil_iff. by rewrite IH.
Qed.

(** ** Lemmas: padding *)

Definition pad_calc (s : str) : Z :=
  (if decide (nth (length s - 1) s NUL = "="%char) then 1 else 0)
  + (if decide (nth (length s - 2) s NUL = "="%char) then 1 else 0).

Lemma pad_calc_group c0 c1 c2 c3 :
  pad_calc [c0; c1; c2; c3]
  = (if decide (c3 = "="%char) then 1 else 0) + (if decide (c2 = "="%char) then 1 else 0).
Proof. reflexivity. Qed.

Lemma pad_calc_cons c0 c1 c2 c3 rest :
  (2 <= length rest)%nat -> pad_calc (c0 :: c1 :: c2 :: c3 :: rest) = pad_calc rest.
Proof.
  intros Hl. unfold pad_calc. cbn [length].
  replace (S (S (S (S (length rest)))) - 1)%nat with (4 + (length rest - 1))%nat by lia.
  replace (S (S (S (S (length rest)))) - 2)%nat with (4 + (length rest - 2))%nat by lia.
  reflexivity.
Qed.

Lemma b64Encode_length s : exists n, length (b64Encode s) = (4 * n)%nat /\ (s <> [] -> n <> 0%nat).
Proof.
  induction s as [|a|a b|a b c s (n & Hn & _)] using list3_ind.
  - by exists 0%nat.
  - by exists 1%nat.
  - by exists 1%nat.
  - exists (S n). cbn [b64Encode length]. split; [lia|done].
Qed.

Lemma pad_calc_encode s : s <> [] -> pad_calc (b64Encode s) = pad_of s.
Proof.
  induction s as [|a|a b|a b c s IH] using list3_ind; intros Hne; [done| | |].
  - cbn [b64Encode]. rewrite pad_calc_group. reflexivity.
  - pose proof (byte_split b) as (? & ? & ? & ? & _). cbn [b64Encode]. rewrite pad_calc_group.
    rewrite (decide_False (P := b64_sym _ = _)) by by apply b64_sym_not_pad. reflexivity.
  - pose proof (byte_split b) as (? & ? & ? & ? & _).
    pose proof (byte_split c) as (? & ? & ? & ? & ? & ? & _).
    rewrite pad_of_cons3. cbn [b64Encode].
    destruct (decide (s = [])) as [->|Hs].
    + cbn [b64Encode]. rewrite pad_calc_group.
      rewrite !(decide_False (P := b64_sym _ = _)) by (apply b64_sym_not_pad; lia). reflexivity.
    + destruct (b64Encode_length s) as (n & Hn & Hn0). specialize (Hn0 Hs).
      rewrite pad_calc_cons by lia. by apply IH.
Qed.

(** Induction on groups of four. *)
Lemma list4_ind {A} (P : list A -> Prop) :
  P [] -> (forall a b c d l, (length l mod 4 = 0)%nat -> P l -> P (a :: b :: c :: d :: l)) ->
  forall l, (length l mod 4 = 0)%nat -> P l.
Proof.
  intros H0 H4 l. remember (length l) as n eqn:Hn. revert l Hn.
  induction n as [n IH] using lt_wf_ind. intros l -> Hm.
  destruct l as [|a [|b [|c [|d l]]]]; try done.
  assert (length l mod 4 = 0)%nat as Hl.
  { etrans; [|exact Hm]. cbn [length]. replace (S (S (S (S (length l))))) with (length l + 1 * 4)%nat by lia.
    by rewrite Nat.Div0.mod_add. }
  apply H4; [done|]. eapply IH; [|reflexivity|done]. cbn. lia.
Qed.

Lemma b64_char_Some last pad j c v :
  b64_char last pad j c = Some v ->
  0 <= v < 64 /\ ((c = "="%char /\ v = 0 /\ last = true /\ 4 - pad <= j) \/ (c <> "="%char /\ c = b64_sym v)).
Proof.
  unfold b64_char. case_decide as Hc.
  - case_match_goal; [done|]. intros [= <-]. bool_to_prop. split; [lia|]. left.
    by destruct last.
  - intros (? & ? & ?)%b64_val_Some. tauto.
Qed.

(** A successful group has a value for each character. *)
Lemma groups_chars pad c0 c1 c2 c3 rest o :
  let last := bool_decide (rest = []) in
  b64_groups pad (c0 :: c1 :: c2 :: c3 :: rest) = Some o ->
  exists v0 v1 v2 v3, b64_char last pad 0 c0 = Some v0 /\ b64_char last pad 1 c1 = Some v1 /\
    b64_char last pad 2 c2 = Some v2 /\ b64_char last pad 3 c3 = Some v3.
Proof.
  intros last Ho. cbn [b64_groups] in Ho. fold last in Ho.
  destruct (b64_char last pad 0 c0) as [v0|]; [|done].
  destruct (b64_char last pad 1 c1) as [v1|]; [|done].
  destruct (b64_char last pad 2 c2) as [v2|]; [|done].
  destruct (b64_char last pad 3 c3) as [v3|]; [|done]. by exists v0, v1, v2, v3.
Qed.

Lemma V_byte z : 0 <= z < 256 -> byte_val (byte_of z) = z.
Proof. intros Hz. rewrite byte_val_of. by apply u8_small. Qed.

(** The output bytes re-encode to the symbols they came from. *)
Ltac reencode :=
  cbn [b64Encode]; rewrite !V_byte by (Z.to_euclidean_division_equations; lia);
  repeat f_equal; Z.to_euclidean_division_equations; lia.

(** Whatever is accepted is what the encoder writes for the result. *)
Lemma groups_sound s : (length s mod 4 = 0)%nat -> s <> [] -> forall o,
  b64_groups (pad_calc s) s = Some o -> o <> [] /\ b64Encode o = s.
Proof.
  revert s. apply (list4_ind (fun s => s <> [] -> forall o,
    b64_groups (pad_calc s) s = Some o -> o <> [] /\ b64Encode o = s)); [done|].
  intros c0 c1 c2 c3 rest Hrest IH _ o Ho.
  destruct (groups_chars _ _ _ _ _ _ _ Ho) as (v0 & v1 & v2 & v3 & E0 & E1 & E2 & E3).
  apply b64_char_Some in E0 as X0, E1 as X1, E2 as X2, E3 as X3.
  destruct X0 as [H0 X0], X1 as [H1 X1], X2 as [H2 X2], X3 as [H3 X3].
  rewrite (groups_cons _ _ _ _ _ _ v0 v1 v2 v3) in Ho by done.
  destruct (decide (rest = [])) as [->|Hne].
  - rewrite bool_decide_eq_true_2 in * by done. rewrite pad_calc_group in *.
    destruct (decide (c3 = "="%char)) as [->|N3], (decide (c2 = "="%char)) as [->|N2];
      try change (1 + 1) with 2 in *; try change (1 + 0) with 1 in *;
      try change (0 + 1) with 1 in *; try change (0 + 0) with 0 in *.
    + (* "==" *)
      destruct X0 as [(_ & _ & _ & ?)|[_ ->]]; [lia|]. destruct X1 as [(_ & _ & _ & ?)|[_ ->]]; [lia|].
      destruct X2 as [(_ & -> & _)|[? _]]; [|done]. destruct X3 as [(_ & -> & _)|[? _]]; [|done].
      cbn [Z.eqb Pos.eqb] in Ho. destruct (_ && _) eqn:Ez; [|done]. injection Ho as <-. bool_to_prop.
      split; [done|reencode].
    + (* one pad *)
      destruct X0 as [(_ & _ & _ & ?)|[_ ->]]; [lia|]. destruct X1 as [(_ & _ & _ & ?)|[_ ->]]; [lia|].
      destruct X2 as [(? & _)|[_ ->]]; [done|]. destruct X3 as [(_ & -> & _)|[? _]]; [|done].
      cbn [Z.eqb Pos.eqb] in Ho. destruct (_ =? 0) eqn:Ez; [|done]. injection Ho as <-. bool_to_prop.
      split; [done|reencode].
    + (* a pad before a symbol *)
      destruct X2 as [(_ & _ & _ & ?)|[? _]]; [lia|done].
    + destruct X0 as [(_ & _ & _ & ?)|[_ ->]]; [lia|]. destruct X1 as [(_ & _ & _ & ?)|[_ ->]]; [lia|].
      destruct X2 as [(? & _)|[_ ->]]; [done|]. destruct X3 as [(? & _)|[_ ->]]; [done|].
      cbn [Z.eqb Pos.eqb Z.leb Z.compare] in Ho. injection Ho as <-.
      split; [done|reencode].
  - rewrite bool_decide_eq_false_2 in * by done.
    assert (4 <= length rest)%nat by (destruct rest as [|? [|? [|? [|? ?]]]]; simpl in *; done || lia).
    rewrite pad_calc_cons in Ho by lia.
    destruct (b64_groups (pad_calc rest) rest) as [o'|] eqn:Er; [|done]. injection Ho as <-.
    destruct (IH Hne o' eq_refl) as [_ He].
    destruct X0 as [(_ & _ & ? & _)|[_ ->]]; [done|]. destruct X1 as [(_ & _ & ? & _)|[_ ->]]; [done|].
    destruct X2 as [(_ & _ & ? & _)|[_ ->]]; [done|]. destruct X3 as [(_ & _ & ? & _)|[_ ->]]; [done|].
    split; [done|]. cbn [b64Encode]. rewrite He. reencode.
Qed.

(** The decoder as an equation on encoder outputs. *)
Lemma b64Decode_iff s o : b64Decode s = Some o <-> o <> [] /\ b64Encode o = s.
Proof.
  unfold b64Decode. fold (pad_calc s). split.
  - case_decide as Hs; [done|]. case_match_goal; [done|]. bool_to_prop. by apply groups_sound.
  - intros [Ho <-]. destruct (b64Encode_length o) as (n & Hn & Hn0). specialize (Hn0 Ho).
    rewrite decide_False by by rewrite b64Encode_nil_iff.
    rewrite Hn. rewrite (Nat.mul_comm 4), Nat.Div0.mod_mul. cbn [Nat.eqb negb].
    rewrite pad_calc_encode by done. by apply groups_encode.
Qed.

(** The encoder writes letters, digits, "+", "/" and "=". *)
Definition b64_ok (c : ascii) : bool :=
  match b64_val c with Some _ => true | None => bool_decide (c = "="%char) end.

Lemma b64_sym_ok v : 0 <= v < 64 -> b64_ok (b64_sym v) = true.
Proof. intros Hv. unfold b64_ok. by rewrite b64_val_sym. Qed.

Lemma b64Encode_ok s : Forall (fun c => b64_ok c = true) (b64Encode s).
Proof.
  induction s as [|a|a b|a b c s IH] using list3_ind; cbn [b64Encode]; [constructor|..].
  - pose proof (byte_split a) as (? & ? & _).
    repeat (apply List.Forall_cons; [first [apply b64_sym_ok; lia|reflexivity]|]). constructor.
  - pose proof (byte_split a) as (? & ? & _). pose proof (byte_split b) as (? & ? & ? & ? & _).
    repeat (apply List.Forall_cons; [first [apply b64_sym_ok; Z.to_euclidean_division_equations; lia|reflexivity]|]).
    constructor.
  - pose proof (byte_split a) as (? & ? & _). pose proof (byte_split b) as (? & ? & ? & ? & _).
    pose proof (byte_split c) as (? & ? & ? & ? & ? & ? & _).
    repeat (apply List.Forall_cons; [apply b64_sym_ok; Z.to_euclidean_division_equations; lia|]). done.
Qed.

(** ** Properties *)

(** The base64 decoder accepts exactly one encoding per value: it returns
    [o] on [s] if and only if [o] is non-empty and [s] is the standard
    encoding of [o]. Every deviation (length, stray padding, other characters,
    non-zero unused bits) is rejected. *)
Lemma b64Decode_canonical (s o : str) :
  b64Decode s = Some o <-> o <> [] /\ b64Encode o = s.
Proof. apply b64Decode_iff. Qed.
