(* ===== verification/Trust.v ===== *)
(** Two-tier binary trust ([trust.hpp]): delegation documents, NTMSIG 2
    bundles, their strict parsers, and the verification order root threshold,
    expiry, rollback floor, key scope, binary signature. The signature scheme
    (OpenSSL's ML-DSA-65) is a parameter. *)

From S2P Require Import Prelude CppString Base64.

(** ** Parameters: OpenSSL *)

(** [evp_verify der msg sig]: [Ok] when the key loads and [EVP_DigestVerify]
    returns 1, the OpenSSL message otherwise. [is_mldsa65 der]: [d2i_PUBKEY] consumes all of [der] and yields an
    ML-DSA-65 key. *)
Class Crypto := {
  evp_verify : str -> str -> str -> result unit;
  is_mldsa65 : str -> bool
}.

(** [verifySignatureWithKeyBytes]: empty inputs are rejected before OpenSSL is
    asked. *)
(* server_signing.hpp:173-211 verifySignatureWithKeyBytes *)
Definition verifySignatureWithKeyBytes `{Crypto} (data sig der : str) : result unit :=
  if decide (data = []) then Err "binary data is empty"
  else if decide (sig = []) then Err "signature data is empty"
  else evp_verify der data sig.

(** The files on disk, by path. *)
(* server_signing.hpp:39-72 readFile *)
Definition readFile (fs : gmap str str) (path : str) : result str :=
  or_err (fs !! path) ("cannot open '" ++ path ++ "'").

(** ** Data *)

(* trust.hpp:56-56 kMaxBundleBytes *)
Definition kMaxBundleBytes : Z := 64 * 1024.
(* trust.hpp:57-57 kMaxDelegationBytes *)
Definition kMaxDelegationBytes : Z := 48 * 1024.
(* trust.hpp:58-58 kMaxDelegatedKeys *)
Definition kMaxDelegatedKeys : nat := 8.
(* trust.hpp:59-59 kMaxRootSigs *)
Definition kMaxRootSigs : nat := 3.

(* trust.hpp:64-69 RootKey *)
Record RootKey := mkRootKey { root_id : str; root_der : str }.

(* trust.hpp:71-75 RootSet *)
Record RootSet := mkRootSet { root_keys : list RootKey; threshold : nat }.

(* trust.hpp:77-82 DelegatedKey *)
Record DelegatedKey := mkDKey { dk_id : str; dk_platform : str; dk_spki : str }.

(* trust.hpp:84-89 Delegation *)
Record Delegation := mkDelegation {
  d_version : Z; d_expires : Z; d_keys : list DelegatedKey
}.

(* trust.hpp:91-96 Policy *)
Record Policy := mkPolicy { checkExpiry : bool; now_ : Z; minVersion : Z }.

(* trust.hpp:98-104 Verified *)
Record Verified := mkVerified {
  delegationVersion : Z; v_expires : Z; v_keyId : str; v_keySpki : str
}.

(** ** Lexical helpers *)

(** The scanning loop of [splitLines] with the bytes of the current line. *)
(* trust.hpp:157-168 splitLines, loop *)
Fixpoint split_loop (cur s : str) : option (list str) :=
  match s with
  | [] => Some []
  | c :: s' =>
      if decide (c = CR) then None
      else if decide (c = NUL) then None
      else if decide (c = LF) then
        if decide (cur = []) then None
        else let? ls := split_loop [] s' in Some (cur :: ls)
      else split_loop (cur ++ [c]) s'
  end.

(* trust.hpp:153-170 splitLines *)
Definition splitLines (s : str) : option (list str) :=
  if decide (last s = Some LF) then split_loop [] s else None.

(* trust.hpp:173-178 takePrefix *)
Definition takePrefix (line prefix : str) : option str :=
  if decide (substr line 0 (length prefix) = prefix) then Some (substr_from line (length prefix))
  else None.

(* trust.hpp:181-195 splitFields *)
Definition splitFields (s : str) (n : nat) : option (list str) :=
  let f := split_char SP s in
  if existsb (fun w => bool_decide (w = [])) f then None
  else if (length f =? n)%nat then Some f else None.

(* trust.hpp:197-203 isId *)
Definition isId (s : str) : bool :=
  if decide (s = []) then false
  else if (32 <? length s)%nat then false
  else forallb (fun c => is_lower c || is_digit c || bool_decide (c = "-"%char)) s.

(* trust.hpp:205-208 isKnownPlatform *)
Definition isKnownPlatform (p : str) : bool :=
  bool_decide (p = "linux-amd64") || bool_decide (p = "windows-amd64").

(* trust.hpp:210-220 parseVersion *)
Definition parseVersion (s : str) : option Z :=
  match s with
  | [] => None
  | c :: _ =>
      if (18 <? length s)%nat then None
      else if decide (c = "0"%char) then None
      else if forallb is_digit s then Some (u64 (dec_val 0 s)) else None
  end.

(** ** Calendar *)

(** H. Hinnant's algorithm; [unsigned] arithmetic wraps modulo 2^32, [int64]
    division truncates. *)
(* trust.hpp:223-231 daysFromCivil *)
Definition daysFromCivil (y m d : Z) : Z :=
  let y := y - (if m <=? 2 then 1 else 0) in
  let era := Z.quot (if 0 <=? y then y else y - 399) 400 in
  let yoe := u32 (y - era * 400) in
  let doy := u32 (u32 (153 * u32 (m + (if 2 <? m then u32 (-3) else 9)) + 2) / 5 + d - 1) in
  let doe := u32 (yoe * 365 + yoe / 4 - yoe / 100 + doy) in
  era * 146097 + doe - 719468.

(* trust.hpp:239-247 parseTime, num *)
Definition num (s : str) (pos len : nat) : option Z :=
  let t := substr s pos len in
  if forallb is_digit t then Some (dec_val 0 t) else None.

(* trust.hpp:252-252 parseTime, kDays *)
Definition kDays : list Z := [31; 29; 31; 30; 31; 30; 31; 31; 30; 31; 30; 31].

(* trust.hpp:256-256 parseTime, leap *)
Definition leap (y : Z) : bool :=
  ((y mod 4 =? 0) && negb (y mod 100 =? 0)) || (y mod 400 =? 0).

(** Length and punctuation. *)
(* trust.hpp:236-238 parseTime, layout *)
Definition time_layout (s : str) : bool :=
  let at_ i c := bool_decide (nth i s NUL = c) in
  (length s =? 20)%nat && at_ 4%nat "-"%char && at_ 7%nat "-"%char && at_ 10%nat "T"%char
  && at_ 13%nat ":"%char && at_ 16%nat ":"%char && at_ 19%nat "Z"%char.

(* trust.hpp:234-260 parseTime *)
Definition parseTime (s : str) : option Z :=
  if negb (time_layout s) then None
  else
    let? y := num s 0 4 in let? mo := num s 5 2 in let? d := num s 8 2 in
    let? h := num s 11 2 in let? mi := num s 14 2 in let? se := num s 17 2 in
    if (y <? 2000) || (mo <? 1) || (12 <? mo) || (d <? 1) || (nth (Z.to_nat (mo - 1)) kDays 0 <? d)
       || (23 <? h) || (59 <? mi) || (59 <? se) then None
    else if (mo =? 2) && (d =? 29) && negb (leap y) then None
    else Some (daysFromCivil y mo d * 86400 + h * 3600 + mi * 60 + se).

(** ** Delegation documents *)

(** One "key:" line, given the keys read before it. *)
(* trust.hpp:305-327 parseDelegation, key lines *)
Definition parse_key_line `{Crypto} (prev : list DelegatedKey) (line : str) : result DelegatedKey :=
  let! rest := or_err (takePrefix line "key: ") "delegation: bad key line" in
  let! f := or_err (splitFields rest 4) "delegation: bad key line" in
  match f with
  | [f0; f1; f2; f3] =>
      let! _ := guard_err (isId f0) "delegation: bad key id" in
      let! _ := guard_err (isKnownPlatform f1) "delegation: unknown platform" in
      let! _ := guard_err (bool_decide (f2 = "ML-DSA-65")) "delegation: unsupported algorithm" in
      let bad : str := "delegation: key '" ++ f0 ++ "' is not an ML-DSA-65 SPKI" in
      let! spki := or_err (b64Decode f3) bad in
      let! _ := guard_err (is_mldsa65 spki) bad in
      let! _ := guard_err (negb (existsb (fun k => bool_decide (dk_id k = f0)) prev))
                  "delegation: duplicate key id" in
      Ok (mkDKey f0 f1 spki)
  | _ => Err "delegation: bad key line"
  end.

Fixpoint parse_keys `{Crypto} (prev : list DelegatedKey) (lines : list str) : result (list DelegatedKey) :=
  match lines with
  | [] => Ok prev
  | l :: ls => let! k := parse_key_line prev l in parse_keys (prev ++ [k]) ls
  end.

(* trust.hpp:279-329 parseDelegation *)
Definition parseDelegation `{Crypto} (doc : str) : result Delegation :=
  let! _ := guard_err (Z.of_nat (length doc) <=? kMaxDelegationBytes) "delegation too large" in
  let! lines := or_err (splitLines doc) "delegation: malformed lines" in
  let! _ := guard_err (negb ((length lines <? 4)%nat || (3 + kMaxDelegatedKeys <? length lines)%nat))
              "delegation: wrong number of lines" in
  match lines with
  | l0 :: l1 :: l2 :: keys =>
      let! _ := guard_err (bool_decide (l0 = "ntm-delegation 1")) "delegation: bad header" in
      let! rest := or_err (takePrefix l1 "version: ") "delegation: bad version" in
      let! version := or_err (parseVersion rest) "delegation: bad version" in
      let! rest := or_err (takePrefix l2 "expires: ") "delegation: bad expires" in
      let! expires := or_err (parseTime rest) "delegation: bad expires" in
      let! ks := parse_keys [] keys in
      Ok (mkDelegation version expires ks)
  | _ => Err "delegation: wrong number of lines"
  end.

(** ** Bundles *)

(* trust.hpp:335-341 Bundle *)
Record Bundle := mkBundle {
  document : str; rootSigs : list (str * str); b_keyId : str; b_signature : str
}.

(* trust.hpp:370-387 parseBundle, root-sig lines *)
Definition parse_root_line (prev : list (str * str)) (line : str) : result (str * str) :=
  let bad : str := "bundle: bad root-sig line" in
  let! rest := or_err (takePrefix line "root-sig: ") bad in
  let! f := or_err (splitFields rest 2) bad in
  match f with
  | [f0; f1] =>
      let! _ := guard_err (isId f0) bad in
      let! sig := or_err (b64Decode f1) bad in
      let! _ := guard_err (match last prev with Some p => str_ltb p.1 f0 | None => true end)
                  "bundle: root-sig ids not strictly ascending" in
      Ok (f0, sig)
  | _ => Err bad
  end.

Fixpoint parse_roots (prev : list (str * str)) (lines : list str) : result (list (str * str)) :=
  match lines with
  | [] => Ok prev
  | l :: ls => let! r := parse_root_line prev l in parse_roots (prev ++ [r]) ls
  end.

(* trust.hpp:343-403 parseBundle *)
Definition parseBundle (bytes : str) : result Bundle :=
  let! _ := guard_err (Z.of_nat (length bytes) <=? kMaxBundleBytes) "signature bundle too large" in
  let legacy : str := "not an NTMSIG 2 signature bundle (legacy or corrupt .sig)" in
  let! lines := or_err (splitLines bytes) legacy in
  let! _ := guard_err (bool_decide (nth 0 lines [] = "NTMSIG 2")) legacy in
  let! _ := guard_err (negb ((length lines <? 5)%nat || (4 + kMaxRootSigs <? length lines)%nat))
              "bundle: wrong number of lines" in
  let nRoot := (length lines - 4)%nat in
  let! rest := or_err (takePrefix (nth 1 lines []) "delegation: ") "bundle: bad delegation line" in
  let! doc := or_err (b64Decode rest) "bundle: bad delegation line" in
  let! sigs := parse_roots [] (take nRoot (drop 2 lines)) in
  let! keyId := or_err (takePrefix (nth (2 + nRoot) lines []) "key-id: ") "bundle: bad key-id line" in
  let! _ := guard_err (isId keyId) "bundle: bad key-id line" in
  let! rest := or_err (takePrefix (nth (3 + nRoot) lines []) "signature: ") "bundle: bad signature line" in
  let! sig := or_err (b64Decode rest) "bundle: bad signature line" in
  Ok (mkBundle doc sigs keyId sig).

(** ** Verification *)

(** [for (rk : roots.keys) if (rid == rk.id) { ...; break; }]. *)
Definition find_root (roots : list RootKey) (rid : str) : option RootKey :=
  list_find (fun k => root_id k = rid) roots ≫= fun p => Some p.2.

(* trust.hpp:426-435 verifyBundleWithRoots, root signatures *)
Definition root_sig_valid `{Crypto} (roots : RootSet) (doc : str) (rs : str * str) : bool :=
  match find_root (root_keys roots) rs.1 with
  | Some rk => match verifySignatureWithKeyBytes doc rs.2 (root_der rk) with
               | Ok _ => true
               | Err _ => false
               end
  | None => false
  end.

Definition count_valid `{Crypto} (roots : RootSet) (doc : str) (sigs : list (str * str)) : nat :=
  length (filter (fun rs => root_sig_valid roots doc rs = true) sigs).

(* trust.hpp:412-482 verifyBundleWithRoots *)
Definition verifyBundleWithRoots `{Crypto} (binary bundleBytes platform : str) (roots : RootSet)
  (policy : Policy) : result Verified :=
  let! b := parseBundle bundleBytes in
  let valid := count_valid roots (document b) (rootSigs b) in
  let! _ := guard_err (negb ((threshold roots =? 0)%nat || (valid <? threshold roots)%nat))
    ("delegation has " ++ to_string (Z.of_nat valid) ++ " valid root signature(s); "
     ++ to_string (Z.of_nat (threshold roots)) ++ " required") in
  let! d := parseDelegation (document b) in
  let! _ := guard_err (negb (checkExpiry policy && (d_expires d <=? now_ policy)))
    ("delegation v" ++ to_string (d_version d) ++ " has expired") in
  let! _ := guard_err (negb (d_version d <? minVersion policy))
    ("delegation v" ++ to_string (d_version d) ++ " is older than v"
     ++ to_string (minVersion policy) ++ " (rollback rejected)") in
  let! key := or_err (snd <$> list_find (fun k => dk_id k = b_keyId b) (d_keys d))
    ("key '" ++ b_keyId b ++ "' is not in the delegation") in
  let! _ := guard_err (bool_decide (dk_platform key = platform))
    ("key '" ++ b_keyId b ++ "' is scoped to " ++ dk_platform key ++ ", not " ++ platform) in
  match verifySignatureWithKeyBytes binary (b_signature b) (dk_spki key) with
  | Err e => Err ("binary signature: " ++ e)
  | Ok _ => Ok (mkVerified (d_version d) (d_expires d) (dk_id key) (dk_spki key))
  end.

(* trust.hpp:510-513 acceptPolicy *)
Definition acceptPolicy (nowUtc selfDelegationVersion : Z) : Policy :=
  mkPolicy true nowUtc selfDelegationVersion.

(* trust.hpp:516-516 startupPolicy *)
Definition startupPolicy : Policy := mkPolicy false 0 0.

(* trust.hpp:518-526 verifyArtifactBytes *)
Definition verifyArtifactBytes `{Crypto} (productionRoots : RootSet) (binary bundle platform : str)
  (policy : Policy) : result Verified :=
  verifyBundleWithRoots binary bundle platform productionRoots policy.

(* trust.hpp:528-539 verifyArtifactFiles *)
Definition verifyArtifactFiles `{Crypto} (productionRoots : RootSet) (fs : gmap str str)
  (binaryPath sigPath platform : str) (policy : Policy) : result Verified :=
  let! bin := readFile fs binaryPath in
  let! sig := readFile fs sigPath in
  verifyArtifactBytes productionRoots bin sig platform policy.

(** ** Lemmas: ids are distinct *)

Lemma or_err_Ok {A} (o : option A) m a : or_err o m = Ok a <-> o = Some a.
Proof. destruct o; cbn; naive_solver. Qed.

Lemma guard_err_Ok b m u : guard_err b m = Ok u <-> b = true.
Proof. destruct b, u; cbn; naive_solver. Qed.

(** Peel the first step of a successful computation off hypothesis [H]. *)
Ltac ok_step H :=
  match type of H with
  | context [match guard_err ?b ?m with Ok _ => _ | Err _ => _ end] =>
      let E := fresh "G" in
      destruct (guard_err b m) eqn:E; [apply guard_err_Ok in E|discriminate H]
  | context [match or_err ?o ?m with Ok _ => _ | Err _ => _ end] =>
      let E := fresh "O" in
      destruct (or_err o m) eqn:E; [apply or_err_Ok in E|discriminate H]
  | context [match ?x with Ok _ => _ | Err _ => _ end] =>
      let E := fresh "K" in destruct x eqn:E; [|discriminate H]
  end.

Lemma parse_key_line_fresh `{Crypto} prev l k :
  parse_key_line prev l = Ok k -> dk_id k ∉ dk_id <$> prev.
Proof.
  unfold parse_key_line. intros H0. do 2 ok_step H0.
  destruct a0 as [|f0 [|f1 [|f2 [|f3 [|]]]]]; try discriminate H0.
  repeat ok_step H0. injection H0 as <-. cbn. bool_to_prop.
  intros (k & Hk & Hin)%list_elem_of_fmap.
  match goal with H : existsb _ _ = false |- _ => apply not_true_iff_false in H; apply H end.
  apply existsb_exists. exists k. split; [by apply list_elem_of_In|by apply bool_decide_eq_true].
Qed.

Lemma parse_keys_NoDup `{Crypto} prev ls ks :
  NoDup (dk_id <$> prev) -> parse_keys prev ls = Ok ks -> NoDup (dk_id <$> ks).
Proof.
  revert prev. induction ls as [|l ls IH]; intros prev Hp; cbn; [by intros [= <-]|].
  destruct (parse_key_line prev l) as [k|] eqn:E; [|done]. apply IH.
  rewrite fmap_app. apply NoDup_app. split_conj; [done| |apply NoDup_singleton].
  intros x Hx Hk. apply list_elem_of_singleton in Hk. subst. by apply parse_key_line_fresh in E.
Qed.

Lemma parseDelegation_NoDup `{Crypto} doc d :
  parseDelegation doc = Ok d -> NoDup (dk_id <$> d_keys d).
Proof.
  unfold parseDelegation. intros H0. do 3 ok_step H0.
  destruct a0 as [|l0 [|l1 [|l2 keys]]]; try discriminate H0.
  repeat ok_step H0. injection H0 as <-. cbn. eapply parse_keys_NoDup; [|done]. constructor.
Qed.

Abbreviation ascending := (Sorting.Sorted.Sorted (fun a b => str_ltb a b = true)).

Lemma ascending_snoc l y :
  ascending l -> match last l with Some x => str_ltb x y = true | None => True end -> ascending (l ++ [y]).
Proof.
  induction 1 as [|x l Hl IH Hx]; intros Hy; cbn.
  - repeat constructor.
  - destruct l as [|z l]; cbn in *.
    + repeat constructor. done.
    + constructor; [by apply IH|]. inversion Hx. by constructor.
Qed.

Lemma parse_roots_ascending prev ls rs :
  ascending prev.*1 -> parse_roots prev ls = Ok rs -> ascending rs.*1.
Proof.
  revert prev. induction ls as [|l ls IH]; intros prev Hp; cbn; [by intros [= <-]|].
  destruct (parse_root_line prev l) as [r|] eqn:E; [|done]. apply IH.
  unfold parse_root_line in E. cbv zeta in E. do 2 ok_step E.
  destruct a0 as [|f0 [|f1 [|]]]; try discriminate E. repeat ok_step E. injection E as <-.
  rewrite fmap_app. apply ascending_snoc; [done|]. rewrite fmap_last.
  destruct (last prev); [done|exact I].
Qed.

Lemma parseBundle_NoDup bytes b : parseBundle bytes = Ok b -> NoDup (rootSigs b).*1.
Proof.
  unfold parseBundle. cbv zeta. intros H. repeat ok_step H. injection H as <-. cbn.
  apply ascending_NoDup. eapply parse_roots_ascending; [|done]. constructor.
Qed.

(** ** Specification of acceptance *)

Section Verification.
Context `{CR : Crypto}.

(** Root [id] vouches for the document in the bundle. *)
Definition endorses (roots : RootSet) (b : Bundle) (id : str) : Prop :=
  exists sig rk, (id, sig) ∈ rootSigs b /\ find_root (root_keys roots) id = Some rk /\
    verifySignatureWithKeyBytes (document b) sig (root_der rk) = Ok tt.

(** What the header of [trust.hpp] promises of an accepted artifact, with no
    order of checks: enough distinct roots, a delegation within the policy,
    one of its keys of the right platform, and that key's signature. *)
Definition trusted (binary bundleBytes platform : str) (roots : RootSet) (policy : Policy) (v : Verified) : Prop :=
  exists b d key ids,
    parseBundle bundleBytes = Ok b /\ parseDelegation (document b) = Ok d /\
    NoDup ids /\ (0 < threshold roots <= length ids)%nat /\ Forall (endorses roots b) ids /\
    (checkExpiry policy = true -> now_ policy < d_expires d) /\
    minVersion policy <= d_version d /\
    key ∈ d_keys d /\ dk_id key = b_keyId b /\ dk_platform key = platform /\
    verifySignatureWithKeyBytes binary (b_signature b) (dk_spki key) = Ok tt /\
    v = mkVerified (d_version d) (d_expires d) (dk_id key) (dk_spki key).

Lemma root_sig_valid_iff roots b id sig :
  (id, sig) ∈ rootSigs b ->
  root_sig_valid roots (document b) (id, sig) = true <->
  exists rk, find_root (root_keys roots) id = Some rk /\
    verifySignatureWithKeyBytes (document b) sig (root_der rk) = Ok tt.
Proof.
  intros _. unfold root_sig_valid. cbn. destruct (find_root _ id) as [rk|]; [|naive_solver].
  destruct (verifySignatureWithKeyBytes _ _ _) as [[]|] eqn:E; [|naive_solver congruence].
  split; [by exists rk|done].
Qed.

Definition valid_ids (roots : RootSet) (b : Bundle) : list str :=
  (filter (fun rs => root_sig_valid roots (document b) rs = true) (rootSigs b)).*1.

Lemma valid_ids_endorse roots b id : id ∈ valid_ids roots b <-> endorses roots b id.
Proof.
  unfold valid_ids, endorses. rewrite list_elem_of_fmap. split.
  - intros ([i sig] & -> & Hin). apply list_elem_of_filter in Hin as [Hv Hin]. cbn.
    apply root_sig_valid_iff in Hv as (rk & ? & ?); [|done]. by exists sig, rk.
  - intros (sig & rk & Hin & ? & ?). exists (id, sig). split; [done|].
    apply list_elem_of_filter. split; [|done]. apply root_sig_valid_iff; eauto.
Qed.

Lemma valid_ids_NoDup roots b : NoDup (rootSigs b).*1 -> NoDup (valid_ids roots b).
Proof.
  unfold valid_ids. induction (rootSigs b) as [|[i x] l IH]; [done|].
  rewrite fmap_cons, NoDup_cons, filter_cons. intros [Hi Hl]. case_decide; [|by apply IH].
  rewrite fmap_cons, NoDup_cons. split; [|by apply IH].
  intros (p & Hp & [_ Hy]%list_elem_of_filter)%list_elem_of_fmap. apply Hi.
  apply list_elem_of_fmap. by exists p.
Qed.

(** Counting the valid signatures is counting distinct endorsing roots. *)
Lemma count_valid_spec roots b n :
  NoDup (rootSigs b).*1 ->
  (n <= count_valid roots (document b) (rootSigs b))%nat <->
  exists ids, NoDup ids /\ (n <= length ids)%nat /\ Forall (endorses roots b) ids.
Proof.
  intros Hnd.
  assert (Hc : count_valid roots (document b) (rootSigs b) = length (valid_ids roots b))
    by (unfold valid_ids; by rewrite length_fmap).
  rewrite Hc. split.
  - intros Hn. exists (valid_ids roots b). split_conj; [by apply valid_ids_NoDup|done|].
    apply Forall_forall. intros id. apply valid_ids_endorse.
  - intros (ids & Hids & Hn & HF). etrans; [exact Hn|].
    apply submseteq_length, NoDup_submseteq; [done|].
    intros id Hin. apply valid_ids_endorse. rewrite Forall_forall in HF. by apply HF.
Qed.

(** Lookup of the first key with the id is lookup of the key with the id. *)
Lemma find_key ks id k :
  NoDup (dk_id <$> ks) ->
  snd <$> list_find (fun k => dk_id k = id) ks = Some k <-> k ∈ ks /\ dk_id k = id.
Proof.
  intros Hnd. rewrite fmap_Some. split.
  - intros ([i x] & Hf & ->). apply list_find_Some in Hf as (Hl & Hid & _). cbn.
    split; [by eapply list_elem_of_lookup_2|done].
  - intros [Hin Hid]. destruct (list_find_elem_of (fun k => dk_id k = id) ks k) as [[i x] Hf]; [done..|].
    exists (i, x). split; [done|]. apply list_find_Some in Hf as (Hl & Hx & _). cbn.
    apply list_elem_of_lookup in Hin as [j Hj].
    assert (i = j) as ->; [|congruence].
    eapply (NoDup_lookup _ i j (dk_id x)); [done|rewrite list_lookup_fmap, Hl; done|].
    rewrite list_lookup_fmap, Hj. cbn. congruence.
Qed.

(** ** Properties *)

(** Acceptance is the trust condition. *)
Lemma verify_spec (binary bundleBytes platform : str) (roots : RootSet) (policy : Policy) (v : Verified) :
  verifyBundleWithRoots binary bundleBytes platform roots policy = Ok v <->
  trusted binary bundleBytes platform roots policy v.
Proof.
  unfold verifyBundleWithRoots, trusted. split.
  - intros H. ok_step H. cbv zeta in H. repeat ok_step H. bool_to_prop.
    destruct (verifySignatureWithKeyBytes binary _ _) as [[]|] eqn:Ev; [|done]. injection H as <-.
    pose proof (parseBundle_NoDup _ _ K) as Hnd. pose proof (parseDelegation_NoDup _ _ K0) as Hdk.
    apply find_key in O as [Hin Hid]; [|done].
    match goal with H : (_ && _)%bool = false |- _ => apply andb_false_iff in H end.
    destruct (proj1 (count_valid_spec roots a (threshold roots) Hnd)) as (ids & ? & ? & ?); [done|].
    exists a, a1, a4, ids. split_conj; try done; [lia|].
    intros Hexp. destruct G0 as [?|?]; [congruence|]. by bool_to_prop.
  - intros (b & d & key & ids & Hb & Hd & Hn & [Ht Hl] & HF & He & Hv & Hin & Hid & Hp & Hs & ->).
    pose proof (parseBundle_NoDup _ _ Hb) as Hnd. pose proof (parseDelegation_NoDup _ _ Hd) as Hdk.
    assert (Hc : (threshold roots <= count_valid roots (document b) (rootSigs b))%nat)
      by (apply count_valid_spec; eauto).
    assert (Hk : snd <$> list_find (fun k => dk_id k = b_keyId b) (d_keys d) = Some key)
      by by apply find_key.
    rewrite Hb. cbv zeta. rewrite (proj2 (Nat.eqb_neq _ _)), (proj2 (Nat.ltb_ge _ _)) by lia. cbn [orb negb guard_err].
    rewrite Hd, Hk. cbn [or_err]. rewrite (proj2 (Z.ltb_ge _ _)) by lia. cbn [negb guard_err].
    rewrite bool_decide_eq_true_2 by done. cbn [guard_err]. rewrite Hs.
    destruct (checkExpiry policy); [|done]. by rewrite (proj2 (Z.leb_gt _ _)) by auto.
Qed.

(** C11: verification is sound and complete for the documented trust model: an
    artifact is accepted, with the recorded delegation version, expiry and
    key, exactly when at least [threshold] distinct roots (and threshold is
    not 0) validly signed the delegation, the delegation is unexpired when the
    policy asks and not below the rollback floor, and one of its keys, scoped
    to the platform, validly signed the binary. *)
Theorem verifyBundle_iff (binary bundleBytes platform : str) (roots : RootSet) (policy : Policy) (v : Verified) :
  verifyBundleWithRoots binary bundleBytes platform roots policy = Ok v <->
  trusted binary bundleBytes platform roots policy v.
Proof. apply verify_spec. Qed.
End Verification.

(** Whatever is accepted as a new artifact passes the startup self-check
    later, whenever that runs: acceptance under [acceptPolicy] implies
    acceptance, with the same result, under [startupPolicy]. *)
Lemma accepted_starts `{Crypto} (binary bundle platform : str) (roots : RootSet) (now floor : Z) (v : Verified) :
  0 <= floor ->
  verifyArtifactBytes roots binary bundle platform (acceptPolicy now floor) = Ok v ->
  verifyArtifactBytes roots binary bundle platform startupPolicy = Ok v.
Proof.
  unfold verifyArtifactBytes. rewrite !verify_spec.
  intros Hf (b & d & key & ids & Hb & Hd & Hn & Ht & HF & He & Hv & Hrest).
  exists b, d, key, ids. cbn in *. split_conj; try apply Ht; try apply Hrest; try done; lia.
Qed.

(** ** Calendar *)

(** A proleptic Gregorian date as [parseTime] admits it. *)
Definition month_length (y m : Z) : Z :=
  if m =? 2 then (if leap y then 29 else 28) else nth (Z.to_nat (m - 1)) kDays 0.

Definition valid_date (y m d : Z) : Prop :=
  2000 <= y <= 9999 /\ 1 <= m <= 12 /\ 1 <= d <= month_length y m.

Definition next_day (y m d : Z) : Z * Z * Z :=
  if d <? month_length y m then (y, m, d + 1)
  else if m <? 12 then (y, m + 1, 1) else (y + 1, 1, 1).

(** Without wrap-around the algorithm is plain arithmetic. *)
Definition days_plain (y m d : Z) : Z :=
  let y := y - (if m <=? 2 then 1 else 0) in
  let era := y / 400 in
  let yoe := y - era * 400 in
  let doy := (153 * (m + (if 2 <? m then -3 else 9)) + 2) / 5 + d - 1 in
  era * 146097 + (yoe * 365 + yoe / 4 - yoe / 100 + doy) - 719468.

Lemma days_plain_eq y m d :
  2000 <= y <= 9999 -> 1 <= m <= 12 -> 1 <= d <= 31 -> daysFromCivil y m d = days_plain y m d.
Proof.
  intros Hy Hm Hd. unfold daysFromCivil, days_plain. cbv zeta.
  set (y' := y - (if m <=? 2 then 1 else 0)).
  assert (1999 <= y' <= 9999) by (subst y'; case_match_goal; lia).
  rewrite (proj2 (Z.leb_le 0 y')), Z.quot_div_nonneg by lia.
  assert (0 <= y' - y' / 400 * 400 < 400) by (Z.to_euclidean_division_equations; lia).
  rewrite (u32_small (y' - _)) by lia. set (yoe := y' - y' / 400 * 400) in *.
  assert (Em : u32 (m + (if 2 <? m then u32 (-3) else 9)) = m + (if 2 <? m then -3 else 9)).
  { destruct (Z.ltb_spec 2 m); [|rewrite u32_small; lia]. unfold u32.
    rewrite Zplus_mod_idemp_r. apply u32_small. lia. }
  rewrite Em. set (mp := m + _).
  assert (0 <= mp <= 11) by (subst mp; case_match_goal; bool_to_prop; lia).
  rewrite (u32_small (153 * mp + 2)) by lia.
  assert (0 <= (153 * mp + 2) / 5 <= 337) by (Z.to_euclidean_division_equations; lia).
  rewrite (u32_small ((153 * mp + 2) / 5 + d - 1)) by lia.
  rewrite u32_small; [done|]. Z.to_euclidean_division_equations; lia.
Qed.

Lemma leap_spec y : leap y = true <-> (y mod 4 = 0 /\ y mod 100 <> 0) \/ y mod 400 = 0.
Proof.
  unfold leap. rewrite orb_true_iff, andb_true_iff, negb_true_iff, !Z.eqb_eq, Z.eqb_neq. done.
Qed.

Lemma month_cases m : 1 <= m <= 12 ->
  m = 1 \/ m = 2 \/ m = 3 \/ m = 4 \/ m = 5 \/ m = 6 \/ m = 7 \/ m = 8 \/ m = 9 \/ m = 10 \/ m = 11 \/ m = 12.
Proof. lia. Qed.

Lemma month_length_tab y m :
  1 <= m <= 12 ->
  month_length y m = if m =? 2 then (if leap y then 29 else 28)
    else if (m =? 4) || (m =? 6) || (m =? 9) || (m =? 11) then 30 else 31.
Proof. intros Hc%month_cases. repeat destruct Hc as [->|Hc]; subst; reflexivity. Qed.

Lemma month_length_le y m : 1 <= m <= 12 -> month_length y m <= 31.
Proof. intros Hm. rewrite month_length_tab by done. repeat case_match_goal; lia. Qed.

(** The year-dependent part, and the step from one March year to the next. *)
Definition year_days (y : Z) : Z := y / 400 * 146097 + (y - y / 400 * 400) * 365
  + (y - y / 400 * 400) / 4 - (y - y / 400 * 400) / 100.

Lemma days_plain_split y m d :
  days_plain y m d = year_days (y - (if m <=? 2 then 1 else 0))
    + (153 * (m + (if 2 <? m then -3 else 9)) + 2) / 5 + d - 1 - 719468.
Proof. unfold days_plain, year_days. cbv zeta. lia. Qed.

Lemma year_days_alt y : 0 <= y -> year_days y = 365 * y + y / 4 - y / 100 + y / 400.
Proof. intros Hy. unfold year_days. Z.to_euclidean_division_equations; lia. Qed.

Lemma year_days_step y :
  1 <= y -> year_days y = year_days (y - 1) + (if leap y then 366 else 365).
Proof.
  intros Hy. rewrite !year_days_alt by lia.
  assert (D4 : y / 4 = (y - 1) / 4 + (if y mod 4 =? 0 then 1 else 0))
    by (case_match_goal; bool_to_prop; Z.to_euclidean_division_equations; lia).
  assert (D100 : y / 100 = (y - 1) / 100 + (if y mod 100 =? 0 then 1 else 0))
    by (case_match_goal; bool_to_prop; Z.to_euclidean_division_equations; lia).
  assert (D400 : y / 400 = (y - 1) / 400 + (if y mod 400 =? 0 then 1 else 0))
    by (case_match_goal; bool_to_prop; Z.to_euclidean_division_equations; lia).
  rewrite D4, D100, D400. unfold leap.
  destruct (Z.eqb_spec (y mod 400) 0), (Z.eqb_spec (y mod 100) 0), (Z.eqb_spec (y mod 4) 0); cbn; try lia.
  all: exfalso; Z.to_euclidean_division_equations; lia.
Qed.

(** Decide the tests on concrete month numbers. *)
Ltac month_tests :=
  repeat match goal with
  | |- context [?a <=? 2] => let v := eval vm_compute in (a <=? 2) in change (a <=? 2) with v
  | |- context [2 <? ?a] => let v := eval vm_compute in (2 <? a) in change (2 <? a) with v
  end; cbn beta iota;
  repeat match goal with
  | |- context [?a / 5] => let v := eval vm_compute in (a / 5) in change (a / 5) with v
  end.

(** The day number is the calendar: 1970-01-01 is day 0, 2000-01-01 is day
    10957, and moving from any valid date of the years 2000 to 9999 to the
    next day, across month ends, leap days and year ends, adds exactly 1
    (unsigned wrap-around included). *)
Lemma daysFromCivil_calendar (y m d : Z) :
  valid_date y m d -> y < 9999 ->
  daysFromCivil 1970 1 1 = 0 /\ daysFromCivil 2000 1 1 = 10957 /\
  (let '(y', m', d') := next_day y m d in daysFromCivil y' m' d' = daysFromCivil y m d + 1).
Proof.
  intros (Hy & Hm & Hd) Hlt. split_conj; [reflexivity|reflexivity|].
  pose proof (month_length_le y m Hm). unfold next_day.
  destruct (Z.ltb_spec d (month_length y m)) as [Hin|Hend].
  - rewrite !days_plain_eq by lia. unfold days_plain. lia.
  - assert (d = month_length y m) as -> by lia.
    pose proof (year_days_step y ltac:(lia)) as Hs.
    rewrite month_length_tab in * by done. apply month_cases in Hm as Hc.
    repeat destruct Hc as [->|Hc]; subst; cbn [Z.eqb Pos.eqb orb Z.ltb Z.compare Pos.compare Pos.compare_cont] in *;
      rewrite !days_plain_eq, !days_plain_split by (lia || destruct (leap y); lia); month_tests;
      rewrite ?Z.sub_0_r, ?Z.add_simpl_r; try lia.
    destruct (leap y); lia.
Qed.

Lemma daysFromCivil_calendar_witness : daysFromCivil 2024 2 29 = daysFromCivil 2024 2 28 + 1.
Proof.
  destruct (daysFromCivil_calendar 2024 2 28) as (_ & _ & H).
  - unfold valid_date. change (month_length 2024 2) with 29. lia.
  - lia.
  - exact H.
Defined.

(** ** Printing documents and bundles *)

(** A character of a line: no line break, no NUL. *)
Definition text_ok (c : ascii) : bool :=
  negb (bool_decide (c = CR)) && negb (bool_decide (c = LF)) && negb (bool_decide (c = NUL)).
(** A character of a field: no space either. *)
Definition field_ok (c : ascii) : bool := text_ok c && negb (bool_decide (c = SP)).

Definition line_ok (l : str) : Prop := l <> [] /\ Forall (fun c => text_ok c = true) l.
Definition field (w : str) : Prop := w <> [] /\ Forall (fun c => field_ok c = true) w.

Definition unlines (ls : list str) : str := concat ((fun l => l ++ [LF]) <$> ls).

Lemma split_loop_line cur l s :
  Forall (fun c => text_ok c = true) l -> cur ++ l <> [] ->
  split_loop cur (l ++ LF :: s) = (let? ls := split_loop [] s in Some ((cur ++ l) :: ls)).
Proof.
  intros Hl. revert cur. induction Hl as [|c l Hc Hl IH]; intros cur Hne; cbn.
  - rewrite app_nil_r in *. rewrite (decide_False (P := LF = CR)), (decide_False (P := LF = NUL)),
      (decide_True (P := LF = LF)), (decide_False (P := cur = [])) by done. done.
  - unfold text_ok in Hc. bool_to_prop. rewrite !decide_False by done.
    rewrite IH by (by rewrite <- app_assoc). by rewrite <- app_assoc.
Qed.

Lemma split_loop_unlines ls : Forall line_ok ls -> split_loop [] (unlines ls) = Some ls.
Proof.
  induction 1 as [|l ls [Hne Hl] _ IH]; [done|]. unfold unlines in *. cbn [fmap list_fmap concat].
  rewrite <- app_assoc. cbn [app]. rewrite split_loop_line by done. by rewrite IH.
Qed.

Lemma splitLines_unlines ls : ls <> [] -> Forall line_ok ls -> splitLines (unlines ls) = Some ls.
Proof.
  intros Hne Hls. unfold splitLines. rewrite decide_True; [by apply split_loop_unlines|].
  destruct (exists_last Hne) as (l & x & ->). unfold unlines.
  rewrite fmap_app, concat_app. cbn. rewrite app_nil_r, app_assoc. by rewrite last_snoc.
Qed.

Lemma takePrefix_app p x : takePrefix (p ++ x) p = Some x.
Proof.
  unfold takePrefix, substr, substr_from. rewrite drop_0, take_app_length, drop_app_length.
  by rewrite decide_True.
Qed.

Lemma isId_field s : isId s = true -> field s.
Proof.
  unfold isId. case_decide; [done|]. case_match_goal; [done|]. intros Hs. split; [done|].
  apply forallb_Forall in Hs. eapply Forall_impl; [exact Hs|]. intros c Hc.
  assert (Ht : forallb (fun c => implb (is_lower c || is_digit c || bool_decide (c = "-"%char)) (field_ok c)) all_bytes = true)
    by (vm_compute; reflexivity).
  pose proof (byte_forall _ Ht c) as H0. cbv beta in H0. by rewrite Hc in H0.
Qed.

Lemma b64Encode_field s : s <> [] -> field (b64Encode s).
Proof.
  intros Hs. split; [by rewrite b64Encode_nil_iff|]. eapply Forall_impl; [apply b64Encode_ok|].
  intros c Hc.
  assert (Ht : forallb (fun c => implb (b64_ok c) (field_ok c)) all_bytes = true) by (vm_compute; reflexivity).
  pose proof (byte_forall _ Ht c) as H0. cbv beta in H0. by rewrite Hc in H0.
Qed.

Lemma field_no_space w : field w -> SP ∉ w.
Proof. intros [_ Hw] Hin. rewrite Forall_forall in Hw. by specialize (Hw _ Hin). Qed.

Lemma field_text w : field w -> Forall (fun c => text_ok c = true) w.
Proof.
  intros [_ Hw]. eapply Forall_impl; [exact Hw|]. intros c Hc. unfold field_ok in Hc. by bool_to_prop.
Qed.

Fixpoint join_fields (ws : list str) : str :=
  match ws with [] => [] | [w] => w | w :: ws' => w ++ SP :: join_fields ws' end.

Lemma splitFields_join ws n :
  ws <> [] -> length ws = n -> Forall field ws -> splitFields (join_fields ws) n = Some ws.
Proof.
  intros Hne <- Hws. unfold splitFields.
  assert (Hs : split_char SP (join_fields ws) = ws).
  { induction Hws as [|w ws Hw Hws IH]; [done|]. destruct ws as [|w' ws].
    - apply split_char_none, field_no_space, Hw.
    - change (join_fields (w :: w' :: ws)) with (w ++ SP :: join_fields (w' :: ws)).
      rewrite split_char_app by by apply field_no_space. by rewrite IH. }
  rewrite Hs. rewrite Nat.eqb_refl.
  assert (He : existsb (fun w => bool_decide (w = [])) ws = false); [|by rewrite He].
  apply not_true_iff_false. intros (w & Hin & Hw)%existsb_exists. bool_to_prop. subst.
  apply list_elem_of_In in Hin. rewrite Forall_forall in Hws. by destruct (Hws [] Hin).
Qed.

Lemma line_of_fields p ws :
  Forall (fun c => text_ok c = true) p -> p <> [] -> Forall field ws -> line_ok (p ++ join_fields ws).
Proof.
  intros Hp Hne Hws. split; [by destruct p|]. apply Forall_app. split; [done|].
  induction Hws as [|w ws Hw Hws IH]; [constructor|]. destruct ws as [|w' ws].
  - by apply field_text.
  - change (join_fields (w :: w' :: ws)) with (w ++ SP :: join_fields (w' :: ws)).
    apply Forall_app. split; [by apply field_text|]. by constructor.
Qed.

(** *** Bundles *)

Definition print_root (r : str * str) : str := "root-sig: " ++ join_fields [r.1; b64Encode r.2].

Definition bundle_lines (b : Bundle) : list str :=
  ("NTMSIG 2" : str) :: ("delegation: " ++ join_fields [b64Encode (document b)]) ::
  (print_root <$> rootSigs b) ++
  ["key-id: " ++ join_fields [b_keyId b]; "signature: " ++ join_fields [b64Encode (b_signature b)]].

Definition print_bundle (b : Bundle) : str := unlines (bundle_lines b).

(** A bundle a signer can produce. *)
Definition bundle_ok (b : Bundle) : Prop :=
  document b <> [] /\ b_signature b <> [] /\ isId (b_keyId b) = true /\
  (0 < length (rootSigs b) <= kMaxRootSigs)%nat /\
  Forall (fun r : str * str => isId r.1 = true /\ r.2 <> []) (rootSigs b) /\
  ascending (rootSigs b).*1 /\
  Z.of_nat (length (print_bundle b)) <= kMaxBundleBytes.

Lemma b64Decode_encode s : s <> [] -> b64Decode (b64Encode s) = Some s.
Proof. intros Hs. by apply b64Decode_iff. Qed.

Lemma parse_roots_print prev rs :
  Forall (fun r : str * str => isId r.1 = true /\ r.2 <> []) rs -> ascending (prev ++ rs).*1 ->
  parse_roots prev (print_root <$> rs) = Ok (prev ++ rs).
Proof.
  intros Hrs. revert prev. induction Hrs as [|[i x] rs [Hi Hx] Hrs IH]; intros prev Hp; cbn [fmap list_fmap parse_roots].
  - by rewrite app_nil_r.
  - unfold parse_root_line at 1, print_root at 1. cbv zeta. rewrite takePrefix_app. cbn [or_err].
    rewrite splitFields_join; [|done|done|].
    2:{ repeat constructor; [by apply isId_field in Hi as [? _]|by apply isId_field in Hi as [_ ?]|..];
        apply b64Encode_field, Hx. }
    cbn [or_err fst snd]. cbn in Hi, Hx. rewrite Hi, b64Decode_encode by done. cbn [guard_err or_err].
    assert (Ha : match last prev with Some p => str_ltb p.1 i | None => true end = true).
    { destruct (last prev) as [p|] eqn:El; [|done]. apply last_Some in El as [l ->].
      rewrite !fmap_app, <- !app_assoc in Hp. clear -Hp. induction (l.*1) as [|y ys IHl]; cbn in Hp.
      - inversion Hp as [|? ? _ Hh]. by inversion Hh.
      - apply IHl. by inversion Hp. }
    rewrite Ha. cbn [guard_err]. rewrite IH by by rewrite <- app_assoc. by rewrite <- app_assoc.
Qed.

Lemma const_text p : forallb text_ok p = true -> Forall (fun c => text_ok c = true) p.
Proof. apply forallb_Forall. Qed.

Lemma bundle_lines_ok b : bundle_ok b -> Forall line_ok (bundle_lines b).
Proof.
  intros (Hd & Hs & Hk & _ & Hr & _). unfold bundle_lines.
  apply List.Forall_cons; [split; [done|by apply const_text]|].
  apply List.Forall_cons.
  { apply line_of_fields; [by apply const_text|done|]. repeat constructor; by apply b64Encode_field. }
  apply Forall_app. split.
  - apply Forall_fmap. eapply Forall_impl; [exact Hr|]. intros [i x] [Hi Hx].
    apply line_of_fields; [by apply const_text|done|].
    apply List.Forall_cons; [by apply isId_field|]. repeat constructor; by apply b64Encode_field.
  - apply List.Forall_cons; [|apply List.Forall_cons; [|constructor]].
    + apply line_of_fields; [by apply const_text|done|]. apply List.Forall_cons; [by apply isId_field|constructor].
    + apply line_of_fields; [by apply const_text|done|]. repeat constructor; by apply b64Encode_field.
Qed.

(** Round trip of a signature bundle: parsing what a signer prints for a
    well-formed bundle gives that bundle back (document, root signatures in
    order, key id, signature). *)
Lemma parseBundle_roundtrip (b : Bundle) : bundle_ok b -> parseBundle (print_bundle b) = Ok b.
Proof.
  intros Hok. pose proof (bundle_lines_ok b Hok) as Hlines.
  destruct Hok as (Hd & Hs & Hk & [Hr0 Hr3] & Hr & Ha & Hsize).
  unfold parseBundle. rewrite (proj2 (Z.leb_le _ _)) by done. cbn [guard_err].
  unfold print_bundle. rewrite splitLines_unlines by done. cbn [or_err].
  unfold bundle_lines at 1. cbn [nth]. rewrite bool_decide_eq_true_2 by done. cbn [guard_err].
  assert (Hlen : length (bundle_lines b) = (4 + length (rootSigs b))%nat).
  { unfold bundle_lines. cbn. rewrite length_app, length_fmap. cbn. lia. }
  rewrite Hlen. rewrite (proj2 (Nat.ltb_ge _ 5)), (proj2 (Nat.ltb_ge _ (4 + length _))) by lia.
  cbn [orb negb guard_err]. replace (4 + length (rootSigs b) - 4)%nat with (length (rootSigs b)) by lia.
  unfold bundle_lines. cbn [nth Nat.add]. rewrite takePrefix_app. cbn [or_err join_fields].
  rewrite b64Decode_encode by done. cbn [or_err drop].
  rewrite drop_0, (take_app_length' (print_root <$> rootSigs b)) by by rewrite length_fmap.
  rewrite (parse_roots_print []) by done. cbn [app].
  rewrite !app_nth2 by (rewrite length_fmap; lia). rewrite length_fmap, Nat.sub_diag.
  replace (S (length (rootSigs b)) - length (rootSigs b))%nat with 1%nat by lia.
  cbn [nth]. rewrite !takePrefix_app. cbn [or_err join_fields]. rewrite Hk. cbn [guard_err].
  rewrite b64Decode_encode by done. cbn [or_err]. by destruct b.
Qed.

Definition sample_bundle : Bundle :=
  mkBundle "document" [("r1" : str, "sig one" : str); ("r2" : str, "sig two" : str)] "linux-build" "binary sig".

Lemma parseBundle_roundtrip_witness : parseBundle (print_bundle sample_bundle) = Ok sample_bundle.
Proof.
  apply (parseBundle_roundtrip sample_bundle). unfold bundle_ok. split_conj; try done; try (vm_compute; lia).
  - repeat constructor; discriminate.
  - repeat constructor.
Defined.

(** *** Delegation documents *)

(** The text of a time stamp, from its six fields. *)
Definition two (z : Z) : str := [byte_of (48 + z / 10); byte_of (48 + z mod 10)].
Definition print_time (y mo d h mi se : Z) : str :=
  two (y / 100) ++ two (y mod 100) ++ "-" ++ two mo ++ "-" ++ two d ++ "T" ++
  two h ++ ":" ++ two mi ++ ":" ++ two se ++ "Z".

Definition valid_clock (h mi se : Z) : Prop := 0 <= h <= 23 /\ 0 <= mi <= 59 /\ 0 <= se <= 59.

Lemma two_digits z : 0 <= z < 100 -> forallb is_digit (two z) = true /\ dec_val 0 (two z) = z.
Proof.
  intros Hz. unfold two. cbn [forallb dec_val].
  rewrite !is_digit_byte, !digit_val_byte by (Z.to_euclidean_division_equations; lia).
  split; [done|]. Z.to_euclidean_division_equations; lia.
Qed.

Lemma parseTime_print y mo d h mi se :
  valid_date y mo d -> valid_clock h mi se ->
  parseTime (print_time y mo d h mi se) = Some (daysFromCivil y mo d * 86400 + h * 3600 + mi * 60 + se).
Proof.
  intros (Hy & Hm & Hd) (Hh & Hmi & Hse).
  assert (d <= 31) by (pose proof (month_length_le y mo Hm); lia).
  unfold parseTime. change (time_layout _) with true. cbn [negb].
  assert (N : forall a p, 0 <= a < 100 -> substr (print_time y mo d h mi se) p 2 = two a ->
    num (print_time y mo d h mi se) p 2 = Some a).
  { intros a p Ha Hp. unfold num. rewrite Hp. by destruct (two_digits a Ha) as [-> ->]. }
  assert (Ny : num (print_time y mo d h mi se) 0 4 = Some y).
  { unfold num. change (substr _ 0 4) with (two (y / 100) ++ two (y mod 100)).
    destruct (two_digits (y / 100)) as [F1 V1]; [Z.to_euclidean_division_equations; lia|].
    destruct (two_digits (y mod 100)) as [F2 V2]; [Z.to_euclidean_division_equations; lia|].
    rewrite forallb_app, F1, F2. cbn [andb]. f_equal.
    cbn [app two dec_val] in *. Z.to_euclidean_division_equations; lia. }
  rewrite Ny, (N mo 5%nat), (N d 8%nat), (N h 11%nat), (N mi 14%nat), (N se 17%nat) by (done || lia).
  assert (Hk : d <= nth (Z.to_nat (mo - 1)) kDays 0).
  { unfold month_length in Hd. destruct (Z.eqb_spec mo 2) as [->|]; [|lia].
    change (nth _ kDays 0) with 29. destruct (leap y); lia. }
  rewrite !(proj2 (Z.ltb_ge _ _)) by lia. cbn [orb].
  destruct ((mo =? 2) && (d =? 29) && negb (leap y)) eqn:E; [|done].
  bool_to_prop. subst. unfold month_length in Hd. cbn in Hd. destruct (leap y); [done|lia].
Qed.

Definition print_key (k : DelegatedKey) : str :=
  "key: " ++ join_fields [dk_id k; dk_platform k; "ML-DSA-65" : str; b64Encode (dk_spki k)].

Definition delegation_lines (version : Z) (time : str) (ks : list DelegatedKey) : list str :=
  ("ntm-delegation 1" : str) :: ("version: " ++ to_string version) :: ("expires: " ++ time) ::
  (print_key <$> ks).

Definition print_delegation (version : Z) (time : str) (ks : list DelegatedKey) : str :=
  unlines (delegation_lines version time ks).

Section DelegationRoundtrip.
Context `{CR : Crypto}.

Definition key_ok (k : DelegatedKey) : Prop :=
  isId (dk_id k) = true /\ isKnownPlatform (dk_platform k) = true /\ dk_spki k <> [] /\
  is_mldsa65 (dk_spki k) = true.

Lemma platform_field p : isKnownPlatform p = true -> field p.
Proof.
  unfold isKnownPlatform. rewrite orb_true_iff, !bool_decide_eq_true.
  intros [->| ->]; (split; [done|by apply forallb_Forall]).
Qed.

Lemma key_fields k :
  key_ok k -> Forall field [dk_id k; dk_platform k; "ML-DSA-65" : str; b64Encode (dk_spki k)].
Proof.
  intros (Hi & Hp & Hs & _).
  apply List.Forall_cons; [by apply isId_field|]. apply List.Forall_cons; [by apply platform_field|].
  apply List.Forall_cons; [split; [done|by apply forallb_Forall]|].
  apply List.Forall_cons; [by apply b64Encode_field|constructor].
Qed.

Lemma parse_keys_print prev ks :
  Forall key_ok ks -> NoDup (dk_id <$> (prev ++ ks)) ->
  parse_keys prev (print_key <$> ks) = Ok (prev ++ ks).
Proof.
  intros Hks. revert prev. induction Hks as [|k ks Hk Hks IH]; intros prev Hnd; cbn [fmap list_fmap parse_keys].
  - by rewrite app_nil_r.
  - unfold parse_key_line, print_key at 1. cbv zeta. rewrite takePrefix_app. cbn [or_err].
    rewrite splitFields_join; [|done|done|by apply key_fields].
    destruct Hk as (Hi & Hp & Hs & Hm). cbn [or_err]. rewrite Hi, Hp. cbn [guard_err].
    rewrite bool_decide_eq_true_2 by done. cbn [guard_err].
    rewrite b64Decode_encode by done. cbn [or_err]. rewrite Hm. cbn [guard_err].
    assert (He : existsb (fun x => bool_decide (dk_id x = dk_id k)) prev = false).
    { apply not_true_iff_false. intros (x & Hx & Heq)%existsb_exists. bool_to_prop.
      rewrite fmap_app in Hnd. apply NoDup_app in Hnd as (_ & Hd & _).
      apply (Hd (dk_id k)); [|cbn; apply list_elem_of_here].
      rewrite <- Heq. apply list_elem_of_fmap. exists x. split; [done|by apply list_elem_of_In]. }
    rewrite He. cbn [negb guard_err].
    replace (mkDKey (dk_id k) (dk_platform k) (dk_spki k)) with k by by destruct k.
    rewrite IH by by rewrite <- app_assoc. by rewrite <- app_assoc.
Qed.

Lemma parseVersion_to_string v : 0 < v < 10 ^ 18 -> parseVersion (to_string v) = Some v.
Proof.
  intros Hv. unfold parseVersion.
  pose proof (to_string_nonempty v) as Hne. pose proof (to_string_digits v) as Hd.
  pose proof (to_string_val v ltac:(lia)) as Hval. pose proof (to_string_short v 18) as Hl.
  destruct (to_string v) as [|c s] eqn:E; [done|].
  rewrite (proj2 (Nat.ltb_ge _ _)) by (apply Hl; lia).
  rewrite decide_False.
  - apply forallb_Forall in Hd. rewrite Hd, Hval, u64_small; [done|lia].
  - intros ->. apply (to_string_head v s); [lia|done].
Qed.

Lemma print_time_text y mo d h mi se :
  valid_date y mo d -> valid_clock h mi se -> Forall (fun c => text_ok c = true) (print_time y mo d h mi se).
Proof.
  intros (Hy & Hm & Hd) (Hh & Hmi & Hse). pose proof (month_length_le y mo Hm).
  assert (D : forall z, 0 <= z < 100 -> Forall (fun c => text_ok c = true) (two z)).
  { intros z Hz. destruct (two_digits z Hz) as [Hf _]. apply forallb_Forall in Hf.
    eapply Forall_impl; [exact Hf|]. intros c Hc.
    assert (Ht : forallb (fun c => implb (is_digit c) (text_ok c)) all_bytes = true) by (vm_compute; reflexivity).
    pose proof (byte_forall _ Ht c) as H0. cbv beta in H0. by rewrite Hc in H0. }
  unfold print_time.
  repeat (apply Forall_app; split); first [apply D; Z.to_euclidean_division_equations; lia | by apply const_text].
Qed.

Lemma delegation_lines_ok version y mo d h mi se ks :
  valid_date y mo d -> valid_clock h mi se -> Forall key_ok ks ->
  Forall line_ok (delegation_lines version (print_time y mo d h mi se) ks).
Proof.
  intros Hdate Hclock Hks. unfold delegation_lines.
  apply List.Forall_cons; [split; [done|by apply const_text]|].
  apply List.Forall_cons; [split; [done|]|].
  { apply Forall_app. split; [by apply const_text|]. eapply Forall_impl; [apply to_string_digits|]. intros c Hc.
    assert (Ht : forallb (fun c => implb (is_digit c) (text_ok c)) all_bytes = true) by (vm_compute; reflexivity).
    pose proof (byte_forall _ Ht c) as H0. cbv beta in H0. by rewrite Hc in H0. }
  apply List.Forall_cons; [split; [done|]|].
  { apply Forall_app. split; [by apply const_text|by apply print_time_text]. }
  apply Forall_fmap. eapply Forall_impl; [exact Hks|]. intros k Hk.
  apply line_of_fields; [by apply const_text|done|by apply key_fields].
Qed.

(** Round trip of a delegation document: parsing what the root holders
    print for a version below 10^18, a valid date and time and one to eight
    distinct, well-formed keys gives back the version, the expiry in seconds
    since the epoch, and the keys in order. *)
Lemma parseDelegation_roundtrip (version y mo d h mi se : Z) (ks : list DelegatedKey) :
  0 < version < 10 ^ 18 -> valid_date y mo d -> valid_clock h mi se ->
  (0 < length ks <= kMaxDelegatedKeys)%nat -> Forall key_ok ks -> NoDup (dk_id <$> ks) ->
  Z.of_nat (length (print_delegation version (print_time y mo d h mi se) ks)) <= kMaxDelegationBytes ->
  parseDelegation (print_delegation version (print_time y mo d h mi se) ks)
  = Ok (mkDelegation version (daysFromCivil y mo d * 86400 + h * 3600 + mi * 60 + se) ks).
Proof.
  intros Hv Hdate Hclock [Hk0 Hk8] Hks Hnd Hsize. unfold parseDelegation.
  rewrite (proj2 (Z.leb_le _ _)) by done. cbn [guard_err]. unfold print_delegation.
  rewrite splitLines_unlines; [|done|by apply delegation_lines_ok].
  cbn [or_err]. unfold delegation_lines. cbn [length]. rewrite length_fmap.
  rewrite (proj2 (Nat.ltb_ge _ 4)), (proj2 (Nat.ltb_ge (3 + kMaxDelegatedKeys) _)) by lia.
  cbn [orb negb guard_err]. rewrite bool_decide_eq_true_2 by done. cbn [guard_err].
  rewrite takePrefix_app. cbn [or_err]. rewrite parseVersion_to_string by done. cbn [or_err].
  rewrite takePrefix_app. cbn [or_err]. rewrite parseTime_print by done. cbn [or_err].
  by rewrite (parse_keys_print []).
Qed.
End DelegationRoundtrip.

(** ** A concrete instance: a toy scheme in which the signature of a message
    under key [k] is [k ++ message] *)

#[export] Instance sample_crypto : Crypto := {
  evp_verify der data sig := guard_err (bool_decide (sig = der ++ data)) "bad";
  is_mldsa65 der := negb (bool_decide (der = []))
}.

Definition sample_keys : list DelegatedKey := [mkDKey "lb" "linux-amd64" "K"].

Lemma parseDelegation_roundtrip_witness :
  parseDelegation (print_delegation 7 (print_time 2030 1 31 23 59 58) sample_keys)
  = Ok (mkDelegation 7 (daysFromCivil 2030 1 31 * 86400 + 23 * 3600 + 59 * 60 + 58) sample_keys).
Proof.
  apply (parseDelegation_roundtrip 7 2030 1 31 23 59 58 sample_keys).
  - lia.
  - unfold valid_date. change (month_length 2030 1) with 31. lia.
  - unfold valid_clock. lia.
  - unfold kMaxDelegatedKeys. simpl. lia.
  - repeat constructor. discriminate.
  - repeat constructor. apply not_elem_of_nil.
  - vm_compute. discriminate.
Defined.

Definition sample_roots : RootSet := mkRootSet [mkRootKey "r1" "A"; mkRootKey "r2" "B"; mkRootKey "r3" "C"] 2.
Definition sample_doc : str := print_delegation 7 (print_time 2030 1 31 23 59 58) sample_keys.
Definition sample_sig : str :=
  print_bundle (mkBundle sample_doc [("r1" : str, "A" ++ sample_doc); ("r3" : str, "C" ++ sample_doc)] "lb" "Kbin").

Lemma accepted_starts_example :
  verifyArtifactBytes sample_roots "bin" sample_sig "linux-amd64" startupPolicy
  = Ok (mkVerified 7 (daysFromCivil 2030 1 31 * 86400 + 23 * 3600 + 59 * 60 + 58) "lb" "K").
Proof.
  apply (accepted_starts "bin" sample_sig "linux-amd64" sample_roots 1800000000 7).
  - lia.
  - vm_compute. reflexivity.
Qed.
