(* ===== verification/Upgrade.v ===== *)
(** Server-side upgrade support ([server_upgrade.hpp]): four-part versions,
    base64 and hex decoding, the authentication proof, the single-use nonce
    store, and the replacement of binary and signature on disk. *)

From S2P Require Import Prelude CppString Base64 Trust.

(** ** Versions *)

(* server_upgrade.hpp:40-46 Semver *)
Record Semver := mkSemver { major : Z; minor : Z; patch : Z; revision : Z; valid : bool }.

(* server_upgrade.hpp:48-54 Semver::operator> *)
Definition sv_gt (a b : Semver) : bool :=
  if negb (major a =? major b) then major b <? major a
  else if negb (minor a =? minor b) then minor b <? minor a
  else if negb (patch a =? patch b) then patch b <? patch a
  else revision b <? revision a.

(* server_upgrade.hpp:55-59 Semver::operator== *)
Definition sv_eq (a b : Semver) : bool :=
  (major a =? major b) && (minor a =? minor b) && (patch a =? patch b) && (revision a =? revision b).

(* server_upgrade.hpp:60-60 Semver::operator< *)
Definition sv_lt (a b : Semver) : bool := sv_gt b a.
(* server_upgrade.hpp:61-61 Semver::operator>= *)
Definition sv_ge (a b : Semver) : bool := negb (sv_lt a b).
(* server_upgrade.hpp:62-62 Semver::operator<= *)
Definition sv_le (a b : Semver) : bool := negb (sv_gt a b).
(* server_upgrade.hpp:63-63 Semver::operator!= *)
Definition sv_ne (a b : Semver) : bool := negb (sv_eq a b).

(* server_upgrade.hpp:65-71 Semver::str *)
Definition sv_str (v : Semver) : str :=
  to_string (major v) ++ "." ++ to_string (minor v) ++ "." ++ to_string (patch v) ++ "." ++
  to_string (revision v).

Definition invalid_semver : Semver := mkSemver 0 0 0 0 false.

(** [static_cast<unsigned>(std::stoul(part, &pos))] with the check that all of
    the part was read; an exception or a mismatch fails. *)
(* server_upgrade.hpp:93-97 parseSemver, one part *)
Definition part (s : str) : option Z :=
  match stoull s with
  | StoOk v n => if (n =? length s)%nat then Some (u32 v) else None
  | _ => None
  end.

Definition semver_of (o : option Semver) : Semver := default invalid_semver o.

(* server_upgrade.hpp:77-118 parseSemver *)
Definition parseSemver (s : str) : Semver :=
  if decide (s = []) then invalid_semver else
  semver_of (
    let? d1 := find_char "." s in
    let? d2 := find_char_from "." s (S d1) in
    let d3 := find_char_from "." s (S d2) in
    match d3 with
    | Some d3 =>
        match find_char_from "." s (S d3) with
        | Some _ => None
        | None =>
            let? maj := part (substr s 0 d1) in
            let? min := part (substr s (S d1) (d2 - d1 - 1)) in
            let? pat := part (substr s (S d2) (d3 - d2 - 1)) in
            let? rev := part (substr_from s (S d3)) in
            Some (mkSemver maj min pat rev true)
        end
    | None =>
        let? maj := part (substr s 0 d1) in
        let? min := part (substr s (S d1) (d2 - d1 - 1)) in
        let? pat := part (substr_from s (S d2)) in
        Some (mkSemver maj min pat 0 true)
    end).

(** ** Lenient base64 *)

(** The table: values, -2 for the padding sign, -1 for everything else. *)
(* server_upgrade.hpp:152-169 base64Decode, kTable *)
Definition kTable (c : ascii) : Z :=
  if decide (c = "="%char) then -2
  else match b64_val c with Some v => v | None => -1 end.

(** The loop with its bit buffer, an [int] that wraps at 32 bits. *)
(* server_upgrade.hpp:173-186 base64Decode, loop *)
Fixpoint base64_loop (s : str) (buf bits : Z) (out : str) : str :=
  match s with
  | [] => out
  | c :: s' =>
      let v := kTable c in
      if v =? -2 then out
      else if v =? -1 then []
      else
        let buf := Z.lor (u32 (Z.shiftl buf 6)) v in
        let bits := bits + 6 in
        if 8 <=? bits then base64_loop s' buf (bits - 8) (out ++ [byte_of (Z.shiftr buf (bits - 8))])
        else base64_loop s' buf bits out
  end.

(* server_upgrade.hpp:150-188 base64Decode *)
Definition base64Decode (enc : str) : str := base64_loop enc 0 0 [].

(** ** Hexadecimal *)

(* server_upgrade.hpp:198-203 hexDecode, nibble *)
Definition nibble (c : ascii) : option Z :=
  if in_range "0" "9" c then Some (byte_val c - byte_val "0")
  else if in_range "a" "f" c then Some (byte_val c - byte_val "a" + 10)
  else if in_range "A" "F" c then Some (byte_val c - byte_val "A" + 10)
  else None.

Fixpoint hex_pairs (s : str) : option str :=
  match s with
  | h :: l :: s' =>
      let? hi := nibble h in
      let? lo := nibble l in
      let? out := hex_pairs s' in
      Some (byte_of (Z.lor (Z.shiftl hi 4) lo) :: out)
  | _ => Some []
  end.

(** Empty on error. *)
(* server_upgrade.hpp:191-209 hexDecode *)
Definition hexDecode (hex : str) : str :=
  if negb (length hex mod 2 =? 0)%nat then [] else default [] (hex_pairs hex).

Definition kHex (v : Z) : ascii := nth (Z.to_nat v) ("0123456789abcdef" : str) NUL.

(* server_upgrade.hpp:212-223 hexEncode *)
Definition hexEncode (data : str) : str :=
  concat ((fun c => [kHex (Z.land (Z.shiftr (byte_val c) 4) 0xF); kHex (Z.land (byte_val c) 0xF)]) <$> data).

(** ** Authentication proof *)

(* server_upgrade.hpp:254-304 verifyUpgradeAuth *)
Definition verifyUpgradeAuth `{Crypto} (nonce_bytes binary_sha3 auth_proof der_pubkey : str) : result unit :=
  if decide (nonce_bytes = [] \/ binary_sha3 = [] \/ auth_proof = []) then
    Err "empty input to verifyUpgradeAuth"
  else evp_verify der_pubkey (nonce_bytes ++ binary_sha3) auth_proof.

(** ** The nonce store *)

Module NonceStore.

(* server_upgrade.hpp:363-367 NonceStore::Entry *)
Record Entry := mkEntry { expiry : Z; spent : bool }.

Abbreviation t := (gmap str Entry).

(* server_upgrade.hpp:373-383 NonceStore::purgeExpiredLocked *)
Definition purgeExpiredLocked (now : Z) (m : t) : t :=
  filter (fun kv => now < expiry kv.2) (m : gmap str Entry).

(** [generate]: [raw] are the random bytes ([None]: the generator failed);
    the clock is read for the expiry and again by the purge. *)
(* server_upgrade.hpp:316-327 NonceStore::generate *)
Definition generate (raw : option str) (ttl now now' : Z) (m : t) : t * str :=
  match raw with
  | None => (m, [])
  | Some raw =>
      let hex := hexEncode raw in
      (<[hex := mkEntry (now + ttl) false]> (purgeExpiredLocked now' m), hex)
  end.

(* server_upgrade.hpp:332-342 NonceStore::consume *)
Definition consume (hex_nonce : str) (now now' : Z) (m : t) : t * bool :=
  let m := purgeExpiredLocked now m in
  match m !! hex_nonce with
  | None => (m, false)
  | Some e =>
      if expiry e <=? now' then (m, false)
      else if spent e then (m, false)
      else (<[hex_nonce := mkEntry (expiry e) true]> m, true)
  end.

End NonceStore.

(** ** Replacing the files *)

(** Writing a file: it cannot be created; [fwrite] reports that only [n] bytes
    were taken; or it reports all, and after [fclose], whose result is ignored,
    the disk holds all or some of them: a short text is still in the stream's
    buffer when [fwrite] returns. *)
Inductive WriteOutcome := NotCreated | ShortWrite (n : nat) | Reported (d : Flushed).

(** Which system call fails. *)
Record Faults := mkFaults {
  bin_write : WriteOutcome; chmod_ok : bool; sig_write : WriteOutcome; rename_sig : bool; rename_bin : bool
}.

Definition FS : Type := gmap str str.

Definition binTmp (target : str) : str := target ++ ".upgrade_tmp".
Definition sigPath (target : str) : str := target ++ ".sig".
Definition sigTmp (target : str) : str := sigPath target ++ ".upgrade_tmp".

Definition cleanup (target : str) (fs : gmap str str) : gmap str str :=
  delete (sigTmp target) (delete (binTmp target) fs).

(** [std::rename]: the old name's file takes the new name. *)
Definition rename_file (old new : str) (fs : gmap str str) : gmap str str :=
  match fs !! old with Some c => <[new := c]> (delete old fs) | None => fs end.

(** The file system after a write, and whether it is taken to have succeeded. *)
(* server_upgrade.hpp:421-428 writeUpgradeAtomically, one file *)
Definition write_temp (path : str) (o : WriteOutcome) (data : str) (fs : gmap str str) : gmap str str * bool :=
  match o with
  | NotCreated => (fs, false)
  | ShortWrite n => (<[path := take n data]> fs, bool_decide (data = []))
  | Reported d => (<[path := on_disk d data]> fs, true)
  end.

(* server_upgrade.hpp:404-465 writeUpgradeAtomically *)
Definition writeUpgradeAtomically (f : Faults) (target bin sig : str) (fs : gmap str str)
  : gmap str str * bool :=
  let (fs1, ok) := write_temp (binTmp target) (bin_write f) bin fs in
  if negb ok then (match bin_write f with NotCreated => fs1 | _ => cleanup target fs1 end, false)
  else if negb (chmod_ok f) then (cleanup target fs1, false)
  else
    let (fs2, ok) := write_temp (sigTmp target) (sig_write f) sig fs1 in
    if negb ok then (cleanup target fs2, false)
    else if negb (rename_sig f) then (cleanup target fs2, false)
    else
      let fs := rename_file (sigTmp target) (sigPath target) fs2 in
      if negb (rename_bin f) then (fs, false)
      else (rename_file (binTmp target) target fs, true).

(** ** Lemmas: versions *)

Definition comp32 (z : Z) : Prop := 0 <= z < 2 ^ 32.

Lemma part_to_string z : comp32 z -> part (to_string z) = Some z.
Proof.
  intros Hz. unfold part, comp32 in *.
  pose proof (stoull_to_string z [] ltac:(ulia) ltac:(exact I)) as H. rewrite app_nil_r in H.
  rewrite H, Nat.eqb_refl, u32_small by done. done.
Qed.

Lemma find_char_from_app c (a b : str) : find_char_from c (a ++ b) (length a) = Nat.add (length a) <$> find_char c b.
Proof. unfold find_char_from. by rewrite drop_app_length. Qed.

Lemma find_at (c : ascii) (p s w r : str) n :
  s = p ++ w ++ c :: r -> n = length p -> c ∉ w -> find_char_from c s n = Some (n + length w)%nat.
Proof. intros -> -> Hw. rewrite find_char_from_app, find_char_app by done. done. Qed.

Lemma substr_at (p s w r : str) n m :
  s = p ++ w ++ r -> n = length p -> m = length w -> substr s n m = w.
Proof. intros -> -> ->. unfold substr. by rewrite drop_app_length, take_app_length. Qed.

(** The dots and the parts of a four-part text. *)
Lemma dots4 a b c d :
  "."%char ∉ a -> "."%char ∉ b -> "."%char ∉ c -> "."%char ∉ d ->
  let s := a ++ "."%char :: b ++ "."%char :: c ++ "."%char :: d in
  let d1 := length a in
  let d2 := (S d1 + length b)%nat in
  let d3 := (S d2 + length c)%nat in
  find_char "." s = Some d1 /\ find_char_from "." s (S d1) = Some d2 /\
  find_char_from "." s (S d2) = Some d3 /\ find_char_from "." s (S d3) = None /\
  substr s 0 d1 = a /\ substr s (S d1) (d2 - d1 - 1) = b /\
  substr s (S d2) (d3 - d2 - 1) = c /\ substr_from s (S d3) = d.
Proof.
  intros Ha Hb Hc Hd s d1 d2 d3.
  assert (L1 : length (a ++ ["."%char]) = S d1) by (rewrite length_app; cbn; lia).
  assert (L2 : length (a ++ "."%char :: b ++ ["."%char]) = S d2)
    by (rewrite !length_app; cbn; rewrite !length_app; cbn; lia).
  assert (L3 : length (a ++ "."%char :: b ++ "."%char :: c ++ ["."%char]) = S d3)
    by (rewrite !length_app; cbn; rewrite !length_app; cbn; rewrite !length_app; cbn; lia).
  assert (E1 : s = (a ++ ["."%char]) ++ b ++ "."%char :: c ++ "."%char :: d)
    by (unfold s; by rewrite <- !app_assoc).
  assert (E2 : s = (a ++ "."%char :: b ++ ["."%char]) ++ c ++ "."%char :: d)
    by (unfold s; rewrite <- app_assoc; cbn; by rewrite <- app_assoc).
  assert (E3 : s = (a ++ "."%char :: b ++ "."%char :: c ++ ["."%char]) ++ d)
    by (unfold s; rewrite <- app_assoc; cbn; rewrite <- app_assoc; cbn; by rewrite <- app_assoc).
  split_conj.
  - by apply find_char_app.
  - by eapply find_at.
  - by eapply find_at.
  - rewrite <- L3, E3, find_char_from_app. by rewrite (proj2 (find_char_None _ d)).
  - by eapply (substr_at []).
  - eapply substr_at; [exact E1|done|lia].
  - eapply substr_at; [exact E2|done|lia].
  - unfold substr_from. rewrite <- L3, E3. apply drop_app_length.
Qed.

(** Round trip of versions: printing a valid version with 32-bit parts and
    parsing the text gives the version back. *)
Lemma parseSemver_roundtrip (v : Semver) :
  valid v = true -> comp32 (major v) -> comp32 (minor v) -> comp32 (patch v) -> comp32 (revision v) ->
  parseSemver (sv_str v) = v.
Proof.
  intros Hv H1 H2 H3 H4.
  assert (N : forall z, "."%char ∉ to_string z) by (intros z; by apply to_string_no).
  destruct (dots4 _ _ _ _ (N (major v)) (N (minor v)) (N (patch v)) (N (revision v)))
    as (F1 & F2 & F3 & F4 & P1 & P2 & P3 & P4).
  unfold parseSemver. change (sv_str v) with
    (to_string (major v) ++ "."%char :: to_string (minor v) ++ "."%char :: to_string (patch v)
       ++ "."%char :: to_string (revision v)).
  rewrite decide_False by by destruct (to_string (major v)).
  rewrite F1, F2, F3, F4, P1, P2, P3, P4, !part_to_string by done.
  cbn. destruct v. cbn in *. by subst.
Qed.

Lemma parseSemver_roundtrip_witness :
  parseSemver (sv_str (mkSemver 1 23 0 4 true)) = mkSemver 1 23 0 4 true.
Proof. apply (parseSemver_roundtrip (mkSemver 1 23 0 4 true)); try done; unfold comp32; cbn; lia. Defined.

Definition key4 (v : Semver) : Z * Z * Z * Z := (major v, minor v, patch v, revision v).

Lemma sv_gt_spec a b :
  sv_gt a b = true <->
  major b < major a \/ (major a = major b /\
   (minor b < minor a \/ (minor a = minor b /\
     (patch b < patch a \/ (patch a = patch b /\ revision b < revision a))))).
Proof.
  unfold sv_gt. destruct (Z.eqb_spec (major a) (major b)), (Z.eqb_spec (minor a) (minor b)),
    (Z.eqb_spec (patch a) (patch b)); cbn; rewrite Z.ltb_lt; lia.
Qed.

Lemma sv_eq_spec a b : sv_eq a b = true <-> key4 a = key4 b.
Proof.
  unfold sv_eq, key4. rewrite !andb_true_iff, !Z.eqb_eq. split.
  - intros [[[-> ->] ->] ->]. done.
  - by intros [= -> -> -> ->].
Qed.

(** Version comparison is a strict total order compatible with the other
    operators: irreflexive, transitive, exactly one of [a > b], [a == b],
    [b > a] holds, and [<], [>=], [<=], [!=] are what the names say. *)
Theorem semver_order (a b c : Semver) :
  sv_gt a a = false /\
  (sv_gt a b = true -> sv_gt b c = true -> sv_gt a c = true) /\
  ((sv_gt a b = true /\ sv_eq a b = false /\ sv_gt b a = false) \/
   (sv_gt a b = false /\ sv_eq a b = true /\ sv_gt b a = false) \/
   (sv_gt a b = false /\ sv_eq a b = false /\ sv_gt b a = true)) /\
  sv_lt a b = sv_gt b a /\ sv_ge a b = (sv_gt a b || sv_eq a b) /\
  sv_le a b = (sv_lt a b || sv_eq a b) /\ sv_ne a b = (sv_lt a b || sv_gt a b).
Proof.
  assert (Tri : (sv_gt a b = true /\ sv_eq a b = false /\ sv_gt b a = false) \/
   (sv_gt a b = false /\ sv_eq a b = true /\ sv_gt b a = false) \/
   (sv_gt a b = false /\ sv_eq a b = false /\ sv_gt b a = true)).
  { rewrite <- !not_true_iff_false. rewrite !sv_gt_spec, !sv_eq_spec. unfold key4.
    destruct (Z.lt_trichotomy (major a) (major b)) as [?|[?|?]], (Z.lt_trichotomy (minor a) (minor b)) as [?|[?|?]],
      (Z.lt_trichotomy (patch a) (patch b)) as [?|[?|?]], (Z.lt_trichotomy (revision a) (revision b)) as [?|[?|?]];
      first [ left; split_conj; [lia|intros [= ? ? ? ?]; lia|lia]
            | right; right; split_conj; [lia|intros [= ? ? ? ?]; lia|lia]
            | right; left; split_conj; [lia|congruence|lia] ]. }
  split_conj; try done.
  - apply not_true_iff_false. rewrite sv_gt_spec. lia.
  - rewrite !sv_gt_spec. lia.
  - unfold sv_ge, sv_lt. destruct Tri as [(-> & -> & ->)|[(-> & -> & ->)|(-> & -> & ->)]]; done.
  - unfold sv_le, sv_lt. destruct Tri as [(-> & -> & ->)|[(-> & -> & ->)|(-> & -> & ->)]]; done.
  - unfold sv_ne, sv_lt. destruct Tri as [(-> & -> & ->)|[(-> & -> & ->)|(-> & -> & ->)]]; done.
Qed.

(** A part that overflows 32 bits is truncated, not rejected. *)
Lemma parseSemver_truncates : parseSemver "4294967296.0.1" = mkSemver 0 0 1 0 true.
Proof. vm_compute. reflexivity. Qed.

(** ** Lemmas: hexadecimal *)

Lemma hex_byte c :
  nibble (kHex (Z.land (Z.shiftr (byte_val c) 4) 0xF)) = Some (Z.shiftr (byte_val c) 4) /\
  nibble (kHex (Z.land (byte_val c) 0xF)) = Some (Z.land (byte_val c) 0xF) /\
  byte_of (Z.lor (Z.shiftl (Z.shiftr (byte_val c) 4) 4) (Z.land (byte_val c) 0xF)) = c.
Proof.
  assert (E : forallb (fun c =>
      bool_decide (nibble (kHex (Z.land (Z.shiftr (byte_val c) 4) 0xF)) = Some (Z.shiftr (byte_val c) 4)) &&
      bool_decide (nibble (kHex (Z.land (byte_val c) 0xF)) = Some (Z.land (byte_val c) 0xF)) &&
      bool_decide (byte_of (Z.lor (Z.shiftl (Z.shiftr (byte_val c) 4) 4) (Z.land (byte_val c) 0xF)) = c))
      all_bytes = true) by (vm_compute; reflexivity).
  pose proof (byte_forall _ E c) as H. cbv beta in H. bool_to_prop. auto.
Qed.

Lemma hex_pairs_encode s : hex_pairs (hexEncode s) = Some s.
Proof.
  induction s as [|c s IH]; [done|]. destruct (hex_byte c) as (H1 & H2 & H3).
  change (hexEncode (c :: s)) with
    (kHex (Z.land (Z.shiftr (byte_val c) 4) 0xF) :: kHex (Z.land (byte_val c) 0xF) :: hexEncode s).
  cbn [hex_pairs]. by rewrite H1, H2, IH, H3.
Qed.

Lemma hexEncode_length s : length (hexEncode s) = (length s * 2)%nat.
Proof.
  induction s as [|c s IH]; [done|].
  change (length (hexEncode (c :: s))) with (S (S (length (hexEncode s)))). cbn [length]. lia.
Qed.

(** Hexadecimal round trip: decoding what [hexEncode] writes returns the
    bytes, for every byte string; so distinct keys and nonces have distinct
    texts. *)
Lemma hex_roundtrip (s s' : str) :
  hexDecode (hexEncode s) = s /\ length (hexEncode s) = (2 * length s)%nat /\
  (hexEncode s = hexEncode s' <-> s = s').
Proof.
  assert (R : forall s, hexDecode (hexEncode s) = s).
  { intros t. unfold hexDecode. rewrite hexEncode_length, Nat.Div0.mod_mul. cbn.
    by rewrite hex_pairs_encode. }
  split_conj; [apply R|rewrite hexEncode_length; lia|].
  split; [|congruence]. intros H. rewrite <- (R s), <- (R s'). by rewrite H.
Qed.

(** ** Lemmas: lenient base64 *)

(** A symbol shifted into the buffer: only the low bits matter. *)
Lemma buf_step b v w M :
  0 <= v < 64 -> 0 <= w < M -> (exists q, b = q * M + w) -> (exists N, 2 ^ 32 = N * (64 * M) /\ 0 < N) ->
  0 <= b -> exists q, Z.lor (u32 (Z.shiftl b 6)) v = q * (64 * M) + (w * 64 + v) /\ 0 <= q.
Proof.
  intros Hv Hw (q & ->) (N & HN & HNp) Hb. exists (q mod N).
  rewrite Z.shiftl_mul_pow2 by lia. change (2 ^ 6) with 64. unfold u32. rewrite HN.
  assert (E : (q * M + w) * 64 mod (N * (64 * M)) = q mod N * (64 * M) + w * 64).
  { symmetry. apply (Z.mod_unique_pos _ _ (q / N)).
    - pose proof (Z.mod_pos_bound q N HNp). nia.
    - pose proof (Z.div_mod q N ltac:(lia)). nia. }
  rewrite E. pose proof (Z.mod_pos_bound q N HNp). split; [|lia].
  replace (q mod N * (64 * M) + w * 64) with (Z.shiftl (q mod N * M + w) 6)
    by (rewrite Z.shiftl_mul_pow2 by lia; change (2 ^ 6) with 64; nia).
  rewrite lor_shiftl by lia. change (2 ^ 6) with 64. nia.
Qed.

Lemma kTable_sym v : 0 <= v < 64 -> kTable (b64_sym v) = v.
Proof.
  intros Hv. unfold kTable. rewrite decide_False by by apply b64_sym_not_pad. by rewrite b64_val_sym.
Qed.

(** Reading one symbol. *)
Lemma base64_sym v s buf bits out :
  0 <= v < 64 ->
  base64_loop (b64_sym v :: s) buf bits out
  = let buf := Z.lor (u32 (Z.shiftl buf 6)) v in
    if 8 <=? bits + 6 then base64_loop s buf (bits + 6 - 8) (out ++ [byte_of (Z.shiftr buf (bits + 6 - 8))])
    else base64_loop s buf (bits + 6) out.
Proof.
  intros Hv. cbn [base64_loop]. rewrite kTable_sym by done.
  rewrite (proj2 (Z.eqb_neq _ _)), (proj2 (Z.eqb_neq v (-1))) by lia. done.
Qed.

Lemma byte_of_mod z k : z mod 256 = k -> byte_of z = byte_of k.
Proof. intros <-. unfold byte_of, u8. by rewrite Zmod_mod. Qed.

(** The output byte does not depend on the stale high bits. *)
Lemma out_byte q w n k c : 0 <= n -> 0 <= k ->
  w / 2 ^ n mod 256 = byte_val c -> byte_of (Z.shiftr (q * (256 * 2 ^ n * k) + w) n) = c.
Proof.
  intros Hn Hk Hc. rewrite <- (byte_of_val c). apply byte_of_mod. rewrite <- Hc.
  rewrite Z.shiftr_div_pow2 by done. pose proof (Z.pow_pos_nonneg 2 n ltac:(lia) ltac:(lia)).
  replace (q * (256 * 2 ^ n * k) + w) with (w + q * k * 256 * 2 ^ n) by lia.
  rewrite Z.div_add by lia. apply Z_mod_plus_full.
Qed.

Ltac solve_div := Z.to_euclidean_division_equations; lia.

(** Four symbols of a full group, at a group boundary. *)
Lemma base64_group a b c rest buf out :
  0 <= buf ->
  exists buf', 0 <= buf' /\
    base64_loop (b64_sym (byte_val a / 4) :: b64_sym (byte_val a mod 4 * 16 + byte_val b / 16) ::
                 b64_sym (byte_val b mod 16 * 4 + byte_val c / 64) :: b64_sym (byte_val c mod 64) :: rest) buf 0 out
    = base64_loop rest buf' 0 (out ++ [a; b; c]).
Proof.
  intros Hbuf. pose proof (byte_val_range a). pose proof (byte_val_range b). pose proof (byte_val_range c).
  set (v0 := byte_val a / 4). set (v1 := byte_val a mod 4 * 16 + byte_val b / 16).
  set (v2 := byte_val b mod 16 * 4 + byte_val c / 64). set (v3 := byte_val c mod 64).
  assert (0 <= v0 < 64 /\ 0 <= v1 < 64 /\ 0 <= v2 < 64 /\ 0 <= v3 < 64) as (? & ? & ? & ?)
    by (subst v0 v1 v2 v3; solve_div).
  destruct (buf_step buf v0 0 1) as (q0 & E0 & ?); [done|lia|exists buf; lia|by exists (2 ^ 26)|done|].
  destruct (buf_step (q0 * (64 * 1) + (0 * 64 + v0)) v1 v0 64) as (q1 & E1 & ?);
    [done|lia|exists q0; lia|by exists (2 ^ 20)|lia|].
  destruct (buf_step (q1 * (64 * 64) + (v0 * 64 + v1)) v2 (v0 * 64 + v1) 4096) as (q2 & E2 & ?);
    [done|lia|exists q1; lia|by exists (2 ^ 14)|lia|].
  destruct (buf_step (q2 * (64 * 4096) + ((v0 * 64 + v1) * 64 + v2)) v3 ((v0 * 64 + v1) * 64 + v2) 262144) as (q3 & E3 & ?);
    [done|lia|exists q2; lia|by exists (2 ^ 8)|lia|].
  eexists. split; cycle 1.
  - rewrite base64_sym by done. cbv zeta. rewrite E0. change (8 <=? 0 + 6) with false. cbv iota.
    rewrite base64_sym by done. cbv zeta. rewrite E1. change (8 <=? 0 + 6 + 6) with true. cbv iota.
    rewrite base64_sym by done. cbv zeta. rewrite E2. change (8 <=? 0 + 6 + 6 - 8 + 6) with true. cbv iota.
    rewrite base64_sym by done. cbv zeta. rewrite E3. change (8 <=? 0 + 6 + 6 - 8 + 6 - 8 + 6) with true. cbv iota.
    change (0 + 6 + 6 - 8) with 4. change (4 + 6 - 8) with 2. change (2 + 6 - 8) with 0.
    rewrite (out_byte q1 _ 4 1 a) by (lia || (subst v0 v1; solve_div)).
    rewrite (out_byte q2 _ 2 256 b) by (lia || (subst v0 v1 v2; solve_div)).
    rewrite (out_byte q3 _ 0 65536 c) by (lia || (subst v0 v1 v2 v3; solve_div)).
    rewrite <- !app_assoc. reflexivity.
  - lia.
Qed.

Lemma base64_pad s buf bits out : base64_loop ("="%char :: s) buf bits out = out.
Proof. reflexivity. Qed.

Lemma base64_encode s buf out : 0 <= buf -> base64_loop (b64Encode s) buf 0 out = out ++ s.
Proof.
  revert buf out. induction s as [|a|a b|a b c s IH] using list3_ind; intros buf out Hbuf; cbn [b64Encode].
  - by rewrite app_nil_r.
  - pose proof (byte_val_range a).
    destruct (buf_step buf (byte_val a / 4) 0 1) as (q0 & E0 & ?);
      [solve_div|lia|exists buf; lia|by exists (2 ^ 26)|done|].
    destruct (buf_step (q0 * (64 * 1) + (0 * 64 + byte_val a / 4)) (byte_val a mod 4 * 16) (byte_val a / 4) 64)
      as (q1 & E1 & ?); [solve_div|solve_div|exists q0; lia|by exists (2 ^ 20)|solve_div|].
    rewrite base64_sym by solve_div. cbv zeta. rewrite E0. change (8 <=? 0 + 6) with false. cbv iota.
    rewrite base64_sym by solve_div. cbv zeta. rewrite E1. change (8 <=? 0 + 6 + 6) with true. cbv iota.
    change (0 + 6 + 6 - 8) with 4. rewrite base64_pad.
    by rewrite (out_byte q1 _ 4 1 a) by (lia || solve_div).
  - pose proof (byte_val_range a). pose proof (byte_val_range b).
    destruct (buf_step buf (byte_val a / 4) 0 1) as (q0 & E0 & ?);
      [solve_div|lia|exists buf; lia|by exists (2 ^ 26)|done|].
    destruct (buf_step (q0 * (64 * 1) + (0 * 64 + byte_val a / 4)) (byte_val a mod 4 * 16 + byte_val b / 16) (byte_val a / 4) 64)
      as (q1 & E1 & ?); [solve_div|solve_div|exists q0; lia|by exists (2 ^ 20)|solve_div|].
    destruct (buf_step (q1 * (64 * 64) + (byte_val a / 4 * 64 + (byte_val a mod 4 * 16 + byte_val b / 16)))
      (byte_val b mod 16 * 4) (byte_val a / 4 * 64 + (byte_val a mod 4 * 16 + byte_val b / 16)) 4096)
      as (q2 & E2 & ?); [solve_div|solve_div|exists q1; lia|by exists (2 ^ 14)|solve_div|].
    rewrite base64_sym by solve_div. cbv zeta. rewrite E0. change (8 <=? 0 + 6) with false. cbv iota.
    rewrite base64_sym by solve_div. cbv zeta. rewrite E1. change (8 <=? 0 + 6 + 6) with true. cbv iota.
    rewrite base64_sym by solve_div. cbv zeta. rewrite E2. change (8 <=? 0 + 6 + 6 - 8 + 6) with true. cbv iota.
    change (0 + 6 + 6 - 8) with 4. change (4 + 6 - 8) with 2. rewrite base64_pad.
    rewrite (out_byte q1 _ 4 1 a) by (lia || solve_div).
    rewrite (out_byte q2 _ 2 256 b) by (lia || solve_div).
    by rewrite <- app_assoc.
  - destruct (base64_group a b c (b64Encode s) buf out Hbuf) as (buf' & Hb' & ->).
    rewrite IH by done. by rewrite <- app_assoc.
Qed.

(** The lenient decoder agrees with the strict one where that accepts: it
    inverts the standard encoder on every byte string, although its bit buffer
    is never masked and wraps at 32 bits. *)
Lemma base64Decode_encode (s : str) :
  base64Decode (b64Encode s) = s /\ (forall e, b64Decode e = Some s -> base64Decode e = s).
Proof.
  assert (H : base64Decode (b64Encode s) = s) by by apply base64_encode.
  split; [done|]. by intros e [_ <-]%b64Decode_iff.
Qed.

Lemma base64Decode_encode_witness : base64Decode "aGk=" = ("hi" : str).
Proof.
  destruct (base64Decode_encode "hi") as [_ H]. apply (H "aGk="). vm_compute. reflexivity.
Defined.

(** ** Properties of the nonce store *)

Module NonceProps.
Import NonceStore.

(** Requests to the store; clock readings are arbitrary. *)
Inductive op :=
| Gen (raw : option str) (ttl now now' : Z)
| Use (hex : str) (now now' : Z).

Definition exec (m : t) (o : op) : t :=
  match o with
  | Gen raw ttl now now' => (generate raw ttl now now' m).1
  | Use hex now now' => (consume hex now now' m).1
  end.

(** The operation does not issue the nonce [h] again. *)
Definition not_issuing (h : str) (o : op) : Prop :=
  match o with Gen (Some raw) _ _ _ => hexEncode raw <> h | _ => True end.

Definition used_up (h : str) (m : t) : Prop := forall e, m !! h = Some e -> spent e = true.

Lemma nonce_purge_lookup (now : Z) (m : t) (h : str) :
  purgeExpiredLocked now m !! h
  = match m !! h with Some e => if decide (now < expiry e) then Some e else None | None => None end.
Proof.
  unfold purgeExpiredLocked. destruct (m !! h) as [e|] eqn:E.
  - case_decide.
    + by apply map_lookup_filter_Some.
    + apply map_lookup_filter_None. right. intros x Hx. cbn. congruence.
  - apply map_lookup_filter_None. by left.
Qed.

Lemma used_up_exec h m o : not_issuing h o -> used_up h m -> used_up h (exec m o).
Proof.
  unfold used_up. destruct o as [[raw|] ttl now now'|hex now now']; cbn; intros Hn Hu e; [..|].
  - rewrite lookup_insert_ne, nonce_purge_lookup by done. intros He.
    destruct (m !! h) as [x|] eqn:E; [|done]. case_decide; [|done]. injection He as <-. eauto.
  - apply Hu.
  - unfold consume. rewrite nonce_purge_lookup.
    assert (Hp : forall x, purgeExpiredLocked now m !! h = Some x -> spent x = true).
    { intros x. rewrite nonce_purge_lookup. destruct (m !! h) as [y|] eqn:E; [|done].
      case_decide; [|done]. intros [= <-]. eauto. }
    destruct (m !! hex) as [y|]; [|apply Hp]. case_decide; [|apply Hp].
    case_match_goal; [apply Hp|]. case_match_goal; [apply Hp|]. cbn.
    destruct (decide (hex = h)) as [->|Hne].
    + rewrite lookup_insert_eq. by intros [= <-].
    + rewrite lookup_insert_ne by done. apply Hp.
Qed.

Lemma used_up_consume h now now' m : used_up h m -> (consume h now now' m).2 = false.
Proof.
  intros Hu. unfold consume. rewrite nonce_purge_lookup. destruct (m !! h) as [e|] eqn:E; [|done].
  case_decide; [|done]. case_match_goal; [done|]. by rewrite (Hu e).
Qed.

(** Nonces are single-use and time-limited: a successful use needs an
    unexpired, unused entry; after it, and after any number of other requests
    at any times that do not issue the same nonce again, every further use
    fails; and a freshly issued nonce is accepted once within its lifetime. *)
Lemma nonce_single_use (m m1 : t) (h : str) (now now' : Z) (ops : list op) :
  consume h now now' m = (m1, true) -> Forall (not_issuing h) ops ->
  (exists e, m !! h = Some e /\ now < expiry e /\ now' < expiry e /\ spent e = false) /\
  (forall t1 t2, (consume h t1 t2 (fold_left exec ops m1)).2 = false) /\
  (forall raw ttl a a' b b',
     let (m2, hex) := generate (Some raw) ttl a a' m in
     b < a + ttl -> b' < a + ttl -> (consume hex b b' m2).2 = true).
Proof.
  intros Hc Hops.
  assert (Hu : used_up h m1 /\ exists e, m !! h = Some e /\ now < expiry e /\ now' < expiry e /\ spent e = false).
  { revert Hc. unfold consume. rewrite nonce_purge_lookup. destruct (m !! h) as [e|] eqn:E; [|done].
    case_decide; [|done]. case_match_goal; [done|]. case_match_goal; [done|]. intros [= <-]. bool_to_prop.
    split; [|by exists e]. intros x. rewrite lookup_insert_eq. by intros [= <-]. }
  destruct Hu as [Hu He]. split_conj; [done| |].
  - intros t1 t2. apply used_up_consume. clear He Hc. revert m1 Hu.
    induction Hops as [|o ops Ho _ IH]; intros m1 Hu; cbn; [done|]. apply IH. by apply used_up_exec.
  - intros raw ttl a a' b b'. cbn. intros Hb Hb'. unfold consume.
    rewrite nonce_purge_lookup, lookup_insert_eq. cbn. rewrite decide_True by done.
    by rewrite (proj2 (Z.leb_gt _ _)).
Qed.

Definition sample_store : t := {[ ("ab" : str) := mkEntry 100 false ]}.

Lemma nonce_single_use_witness :
  (consume "ab" 60 60 (fold_left exec [Use "zz" 55 55] (consume "ab" 50 51 sample_store).1)).2 = false.
Proof.
  destruct (nonce_single_use sample_store (consume "ab" 50 51 sample_store).1 "ab" 50 51 [Use "zz" 55 55])
    as (_ & H & _).
  - vm_compute. reflexivity.
  - repeat constructor.
  - apply H.
Defined.

End NonceProps.

(** ** Properties of the replacement *)

Lemma app_ne_self {A} (a b : list A) : b <> [] -> a ++ b <> a.
Proof.
  intros Hb H. apply (f_equal length) in H. rewrite length_app in H. destruct b; [done|]. cbn in H. lia.
Qed.

Lemma paths_distinct t :
  binTmp t <> t /\ sigTmp t <> t /\ sigPath t <> t /\ binTmp t <> sigTmp t /\
  sigTmp t <> sigPath t /\ binTmp t <> sigPath t.
Proof.
  unfold binTmp, sigTmp, sigPath. rewrite <- app_assoc. split_conj; try (by apply app_ne_self).
  - intros H%app_inv_head. discriminate.
  - intros H%app_inv_head. discriminate.
  - intros H%app_inv_head. discriminate.
Qed.

Lemma rename_file_Some old new fs c :
  fs !! old = Some c -> rename_file old new fs = <[new := c]> (delete old fs).
Proof. intros H. unfold rename_file. by rewrite H. Qed.

(** The code's verdict on a write, and what it leaves when the verdict is
    good. *)
Definition taken (o : WriteOutcome) (data : str) : bool :=
  match o with NotCreated => false | ShortWrite _ => bool_decide (data = []) | Reported _ => true end.
Definition left_of (o : WriteOutcome) (data : str) : str := match o with Reported d => on_disk d data | _ => [] end.

Lemma write_temp_taken path o data fs : (write_temp path o data fs).2 = taken o data.
Proof. by destruct o. Qed.

Lemma write_temp_other path o data fs p : p <> path -> (write_temp path o data fs).1 !! p = fs !! p.
Proof. intros Hp. by destruct o; cbn; rewrite ?lookup_insert_ne by done. Qed.

Lemma write_temp_left path o data fs :
  taken o data = true -> (write_temp path o data fs).1 !! path = Some (left_of o data).
Proof.
  destruct o; cbn; [done | | by rewrite lookup_insert_eq]. intros ->%bool_decide_eq_true_1. by rewrite take_nil, lookup_insert_eq.
Qed.

(** A failure before the first rename. *)
Lemma cleanup_paths t (fs fs' : FS) :
  (forall p, p <> binTmp t -> p <> sigTmp t -> fs' !! p = fs !! p) ->
  (forall p, p <> binTmp t -> p <> sigTmp t -> cleanup t fs' !! p = fs !! p) /\
  cleanup t fs' !! binTmp t = None /\ cleanup t fs' !! sigTmp t = None.
Proof.
  intros H. destruct (paths_distinct t) as (N1 & N2 & N3 & N4 & N5 & N6). unfold cleanup. split; [intros p P1 P2 | split].
  - rewrite !lookup_delete_ne by done. by apply H.
  - by rewrite lookup_delete_ne, lookup_delete_eq.
  - by rewrite lookup_delete_eq.
Qed.

(** After the first rename. *)
Lemma signature_renamed t (fs fs' : FS) b s :
  (forall p, p <> binTmp t -> p <> sigTmp t -> fs' !! p = fs !! p) -> fs' !! binTmp t = Some b -> fs' !! sigTmp t = Some s ->
  let fs3 := rename_file (sigTmp t) (sigPath t) fs' in
  fs3 !! binTmp t = Some b /\ fs3 !! sigPath t = Some s /\ fs3 !! sigTmp t = None /\
  (forall p, p <> sigPath t -> p <> binTmp t -> p <> sigTmp t -> fs3 !! p = fs !! p).
Proof.
  intros H Hb Hs. destruct (paths_distinct t) as (N1 & N2 & N3 & N4 & N5 & N6). rewrite (rename_file_Some _ _ _ _ Hs). cbn zeta.
  split_conj; [| by rewrite lookup_insert_eq | rewrite lookup_insert_ne by done; apply lookup_delete_eq | intros p P1 P2 P3];
    rewrite lookup_insert_ne, lookup_delete_ne by done; auto.
Qed.

(** C39: what replacing the server binary leaves, for every way its calls can
    end. It reports success exactly when both temporary files were created and
    their writes took everything, [chmod] and both renames succeeded. Up to
    the first rename any failure leaves every file as it was, the binary and
    its signature among them, and removes both temporary files (nothing was
    begun when the first cannot be created). Past it, the signature is the new
    one and so, on success, is the binary, no temporary file left; when
    the last rename fails, the binary is the old one beside the new signature
    and the new binary stays under its temporary name. New means what the disk
    kept: all of it, unless the flush at [fclose] failed, whose result the code
    ignores; then the file is a beginning, reported as success all the same
    ([lost_signature_reported_ok]). *)
Theorem writeUpgrade_atomic (f : Faults) (t bin sig : str) (fs : gmap str str) :
  let renaming := taken (bin_write f) bin && chmod_ok f && taken (sig_write f) sig && rename_sig f in
  let (fs', ok) := writeUpgradeAtomically f t bin sig fs in
  ok = renaming && rename_bin f /\
  (forall p, p <> t -> p <> sigPath t -> p <> binTmp t -> p <> sigTmp t -> fs' !! p = fs !! p) /\
  (if renaming then
     fs' !! sigPath t = Some (left_of (sig_write f) sig) /\ fs' !! sigTmp t = None /\
     (if rename_bin f then fs' !! t = Some (left_of (bin_write f) bin) /\ fs' !! binTmp t = None
      else fs' !! t = fs !! t /\ fs' !! binTmp t = Some (left_of (bin_write f) bin)) /\
     (bin_write f = Reported AllStored -> left_of (bin_write f) bin = bin) /\
     (sig_write f = Reported AllStored -> left_of (sig_write f) sig = sig)
   else
     fs' !! t = fs !! t /\ fs' !! sigPath t = fs !! sigPath t /\
     (fs' = fs \/ fs' !! binTmp t = None /\ fs' !! sigTmp t = None) /\
     (bin_write f <> NotCreated -> fs' !! binTmp t = None /\ fs' !! sigTmp t = None)).
Proof.
  destruct (paths_distinct t) as (N1 & N2 & N3 & N4 & N5 & N6). unfold writeUpgradeAtomically.
  pose proof (write_temp_taken (binTmp t) (bin_write f) bin fs) as T1. pose proof (write_temp_other (binTmp t) (bin_write f) bin fs) as O1.
  pose proof (write_temp_left (binTmp t) (bin_write f) bin fs) as L1.
  destruct (write_temp (binTmp t) (bin_write f) bin fs) as [fs1 ok1] eqn:E1. cbn [fst snd] in *. rewrite <- T1 in *. clear T1.
  destruct ok1; cbn [negb andb].
  2: { destruct (cleanup_paths t fs fs1) as (C & CB & CS); [auto |].
       destruct (bin_write f) eqn:Eb; [injection E1 as <-; split_conj; auto; done | ..]; split_conj; auto. }
  specialize (L1 eq_refl). destruct (chmod_ok f); cbn [negb andb].
  2: { destruct (cleanup_paths t fs fs1) as (C & CB & CS); [auto |]. split_conj; auto. }
  pose proof (write_temp_taken (sigTmp t) (sig_write f) sig fs1) as T2. pose proof (write_temp_other (sigTmp t) (sig_write f) sig fs1) as O2.
  pose proof (write_temp_left (sigTmp t) (sig_write f) sig fs1) as L2.
  destruct (write_temp (sigTmp t) (sig_write f) sig fs1) as [fs2 ok2]. cbn [fst snd] in *. rewrite <- T2 in *. clear T2.
  assert (O : forall p, p <> binTmp t -> p <> sigTmp t -> fs2 !! p = fs !! p) by (intros p Hb Hs; by rewrite O2, O1).
  destruct (cleanup_paths t fs fs2 O) as (C & CB & CS).
  destruct ok2; cbn [negb andb]; [| split_conj; auto]. specialize (L2 eq_refl).
  destruct (rename_sig f); cbn [negb andb]; [| split_conj; auto].
  assert (B2 : fs2 !! binTmp t = Some (left_of (bin_write f) bin)) by (by rewrite O2).
  destruct (signature_renamed t fs fs2 _ _ O B2 L2) as (B3 & S3 & D3 & O3). set (fs3 := rename_file (sigTmp t) (sigPath t) fs2) in *.
  assert (W : (bin_write f = Reported AllStored -> left_of (bin_write f) bin = bin) /\
              (sig_write f = Reported AllStored -> left_of (sig_write f) sig = sig)) by (split; intros ->; done).
  clearbody fs3. destruct W as [W1 W2]. destruct (rename_bin f); cbn [negb andb]; [| split_conj; auto].
  rewrite (rename_file_Some _ _ fs3 _ B3).
  split_conj; auto; rewrite ?lookup_insert_eq; try done; [intros p P1 P2 P3 P4 | ..]; rewrite lookup_insert_ne by done; rewrite ?lookup_delete_eq; try done;
    rewrite lookup_delete_ne by done; auto.
Qed.

Definition no_faults : Faults := mkFaults (Reported AllStored) true (Reported AllStored) true true.

(** With no faults it succeeds. *)
Lemma writeUpgrade_succeeds t bin sig fs : (writeUpgradeAtomically no_faults t bin sig fs).2 = true.
Proof. done. Qed.

(** The result of [fclose] is not looked at: a signature that [fwrite] left in
    the stream's buffer and that the full disk did not take is installed, empty,
    beside the new binary, and success is reported. *)
Lemma lost_signature_reported_ok bin sig :
  let f := mkFaults (Reported AllStored) true (Reported (OnlyStored 0)) true true in
  let (fs, ok) := writeUpgradeAtomically f "server" bin sig (<["server" : str := "old" : str]> {["server.sig" : str := "oldsig" : str]}) in
  ok = true /\ fs !! ("server" : str) = Some bin /\ fs !! ("server.sig" : str) = Some [].
Proof. intros f. vm_compute. auto. Qed.
