(* ===== verification/IpRange.v ===== *)
(** Address-to-network resolution ([ip_range_resolver.hpp]): the ip2asn table,
    its line parser, the sorted tables with binary search, the labels derived
    from them, and the updater that replaces file and table. zlib, libcurl and
    the clock are parameters or arguments. *)

From S2P Require Import Prelude CppString Wire.
From stdpp Require Import sorting.
Local Open Scope Z_scope.

(** ** Ranges *)

(** [V4Range] and [V6Range] differ in the address type only. *)
(* ip_range_resolver.hpp:72-88 V4Range, V6Range *)
Record Range (A : Type) := mkRange {
  r_start : A; r_end : A; asn : Z; country : ascii * ascii; as_desc : str
}.
Arguments mkRange {A}. Arguments r_start {A}. Arguments r_end {A}.
Arguments asn {A}. Arguments country {A}. Arguments as_desc {A}.

(** Address types with the comparison the code uses on them. *)
Class Addr (A : Type) := { addr_ltb : A -> A -> bool }.

Class AddrLaws (A : Type) `{Addr A} := {
  addr_irrefl : forall a : A, addr_ltb a a = false;
  addr_trans : forall a b c : A, addr_ltb a b = true -> addr_ltb b c = true -> addr_ltb a c = true;
  addr_total : forall a b : A, addr_ltb a b = true \/ a = b \/ addr_ltb b a = true
}.

(** 32-bit integers, and 16-byte arrays compared lexicographically. *)
#[export] Instance addr_v4 : Addr Z := { addr_ltb := Z.ltb }.
#[export] Instance addr_v6 : Addr str := { addr_ltb := str_ltb }.

#[export] Instance addr_v4_laws : AddrLaws Z.
Proof.
  split; cbn; intros.
  - apply Z.ltb_irrefl.
  - rewrite Z.ltb_lt in *. lia.
  - rewrite !Z.ltb_lt. lia.
Qed.

Lemma str_ltb_total a b : str_ltb a b = true \/ a = b \/ str_ltb b a = true.
Proof.
  revert b. induction a as [|x a IH]; intros [|y b]; cbn; auto.
  rewrite !orb_true_iff, !andb_true_iff, !Z.ltb_lt, !Z.eqb_eq.
  destruct (Z.lt_trichotomy (byte_val x) (byte_val y)) as [?|[E|?]]; auto.
  apply byte_val_inj in E as ->. destruct (IH b) as [?|[->|?]]; auto.
Qed.

#[export] Instance addr_v6_laws : AddrLaws str.
Proof. split; cbn; [apply str_ltb_irrefl|apply str_ltb_trans|apply str_ltb_total]. Qed.

(** ** Binary search *)

Section Lookup.
Context {A : Type} `{AD : Addr A}.

(** [std::upper_bound] by start: halve the interval [first, first+len) until
    it is empty. The fuel is the length: every round shortens it. *)
Fixpoint upper_bound (fuel : nat) (l : list (Range A)) (v : A) (first len : nat) : nat :=
  match fuel, len with
  | S fuel', S _ =>
      let half := (len / 2)%nat in
      match l !! (first + half)%nat with
      | Some r => if addr_ltb v (r_start r) then upper_bound fuel' l v first half
                  else upper_bound fuel' l v (S (first + half)) (len - half - 1)
      | None => first
      end
  | _, _ => first
  end.

(* ip_range_resolver.hpp:187-205 lookupV4, lookupV6 *)
Definition lookup_range (l : list (Range A)) (ip : A) : option (Range A) :=
  match upper_bound (length l) l ip 0 (length l) with
  | O => None
  | S i =>
      let? r := l !! i in
      if negb (addr_ltb ip (r_start r)) && negb (addr_ltb (r_end r) ip) then Some r else None
  end.

Definition start_le (a b : Range A) : Prop := addr_ltb (r_start b) (r_start a) = false.
#[export] Instance start_le_dec : RelDecision start_le.
Proof. intros a b. unfold start_le. apply _. Defined.

(** [std::sort] by start. *)
(* ip_range_resolver.hpp:316-324 finalize *)
Definition sort_ranges (l : list (Range A)) : list (Range A) := merge_sort start_le l.

End Lookup.

(** ** The resolver *)

(* ip_range_resolver.hpp:326-328 IPRangeResolver *)
Record Resolver := mkResolver {
  v4_ : list (Range Z); v6_ : list (Range str); mtime_epoch_sec_ : Z
}.

Definition kUnknownCountry : str := "??".
Definition kUnknownEntity : str := "AS??".

(* ip_range_resolver.hpp:67-70 isUnknownEntity *)
Definition isUnknownEntity (e : str) : bool := starts_with "AS??" e.

(* ip_range_resolver.hpp:160-165 IpKey *)
Inductive IpKey := KeyV4 (v4 : Z) | KeyV6 (v6 : str).

(* ip_range_resolver.hpp:167-185 parseIp *)
Definition parseIp `{Inet} (ip : str) : option IpKey :=
  if decide (ip = []) then None
  else match inet_pton4 (c_str ip) with
       | Some a => Some (KeyV4 a)
       | None => match inet_pton6 (c_str ip) with Some b => Some (KeyV6 b) | None => None end
       end.

Definition country_str (c : ascii * ascii) : str :=
  if decide (c.1 = "?"%char) then kUnknownCountry else [c.1; c.2].

(* ip_range_resolver.hpp:109-123 countryFor *)
Definition countryFor `{Inet} (R : Resolver) (ip : str) : str :=
  match parseIp ip with
  | None => kUnknownCountry
  | Some (KeyV4 a) =>
      match lookup_range (v4_ R) a with Some r => country_str (country r) | None => kUnknownCountry end
  | Some (KeyV6 b) =>
      match lookup_range (v6_ R) b with Some r => country_str (country r) | None => kUnknownCountry end
  end.

(* ip_range_resolver.hpp:148-154 entityFor, label *)
Definition entity_label (n : Z) (desc : str) : str :=
  "AS" ++ to_string n ++ (if decide (desc = []) then [] else SP :: desc).

(* ip_range_resolver.hpp:127-155 entityFor *)
Definition entityFor `{Inet} (R : Resolver) (ip : str) : str :=
  let unknown : str := kUnknownEntity ++ " " ++ ip in
  let label {A} (o : option (Range A)) :=
    match o with
    | Some r => if asn r =? 0 then unknown else entity_label (asn r) (as_desc r)
    | None => unknown
    end in
  match parseIp ip with
  | None => kUnknownEntity
  | Some (KeyV4 a) => label (lookup_range (v4_ R) a)
  | Some (KeyV6 b) => label (lookup_range (v6_ R) b)
  end.

(** ** Loading *)

(** [gzgets] with an [n]-byte buffer: up to [n - 1] bytes, through the first
    newline. The fuel is the text's length. *)
Fixpoint gz_chunks (fuel n : nat) (s : str) : list str :=
  match fuel with
  | O => []
  | S fuel' =>
      match s with
      | [] => []
      | _ =>
          let line := match find_char LF s with Some i => take (S i) s | None => s end in
          let chunk := take (n - 1) line in
          chunk :: gz_chunks fuel' n (drop (length chunk) s)
      end
  end.

Definition kLineMax : nat := Z.to_nat 8192.

Inductive Entry := E4 (r : Range Z) | E6 (r : Range str).

(** One buffer of text: [None] for every [continue] of the loop. *)
(* ip_range_resolver.hpp:233-299 loadImpl, one line *)
Definition parse_range_line `{Inet} (buf : str) : option Entry :=
  let line := trim_back (char_in [LF; CR]) (c_str buf) in
  match line with
  | [] => None
  | c :: _ =>
      if decide (c = "#"%char) then None else
      let? f1 := find_char TAB line in
      let? f2 := find_char_from TAB line (S f1) in
      let? f3 := find_char_from TAB line (S f2) in
      let? f4 := find_char_from TAB line (S f3) in
      let startStr := substr line 0 f1 in
      let endStr := substr line (S f1) (f2 - f1 - 1) in
      let asnStr := substr line (S f2) (f3 - f2 - 1) in
      let cc := substr line (S f3) (f4 - f3 - 1) in
      let desc := substr_from line (S f4) in
      let? asn := match stoull asnStr with StoOk v _ => Some (u32 v) | _ => None end in
      let ccArr := match cc with [a; b] => (a, b) | _ => ("?"%char, "?"%char) end in
      match inet_pton4 startStr with
      | Some a =>
          let? b := inet_pton4 endStr in Some (E4 (mkRange a b asn ccArr desc))
      | None =>
          match inet_pton6 startStr with
          | Some a => let? b := inet_pton6 endStr in Some (E6 (mkRange a b asn ccArr desc))
          | None => None
          end
      end
  end.

Definition entries `{Inet} (text : str) : list Entry :=
  omap parse_range_line (gz_chunks (length text) kLineMax text).

(** [loadFromFile]: the decompressed text ([None] when [gzopen] fails) and the
    file's modification time ([None] when [stat] fails). *)
(* ip_range_resolver.hpp:207-314 loadImpl *)
Definition loadFromFile `{Inet} (path : str) (text : option str) (mtime : option Z) : result Resolver :=
  let! text := or_err text ("gzopen failed for " ++ path) in
  let es := entries text in
  let v4 := omap (fun e => match e with E4 r => Some r | E6 _ => None end) es in
  let v6 := omap (fun e => match e with E6 r => Some r | E4 _ => None end) es in
  if decide (v4 = [] /\ v6 = []) then Err ("no valid ranges parsed from " ++ path)
  else Ok (mkResolver (sort_ranges v4) (sort_ranges v6) (default 0 mtime)).

(** ** The updater *)

(* ip_range_resolver.hpp:340-350 IPDataUpdater::Config *)
Record UpdaterConfig := mkUConfig {
  path_ : str; url_ : str; refresh_days : Z; check_interval_sec : Z; auto_update : bool;
  max_download_bytes : Z
}.

(** Files on disk with their modification times, the [mkdir] calls made, and
    the current table. *)
Record UpdaterState := mkUState {
  files : gmap str (str * Z);
  dirs : list str;
  current_ : option Resolver
}.

(* ip_range_resolver.hpp:446-456 needsRefresh *)
Definition needsRefresh (cfg : UpdaterConfig) (now : Z) (s : UpdaterState) : bool :=
  match files s !! path_ cfg with
  | None => true
  | Some (_, mtime) => refresh_days cfg * 86400 <=? now - mtime
  end.

(** One [curlWriteCb] call: the context is (bytes written, data so far). *)
(* ip_range_resolver.hpp:508-519 curlWriteCb *)
Definition curlWriteCb (maxBytes : Z) (ctx : Z * str) (chunk : str) : option (Z * str) :=
  let bytes := Z.of_nat (length chunk) in
  if (0 <? maxBytes) && (maxBytes <? ctx.1 + bytes) then None
  else Some (ctx.1 + bytes, ctx.2 ++ chunk).

(** What libcurl did: the chunks it delivered, whether the transfer itself
    succeeded, and the response code. A refused chunk fails the transfer. And
    what the disk did: all bytes written are in the file after the flush and the
    closing, whose results nobody looks at, or only the first are. *)
Record Transfer := mkTransfer { chunks : list str; curl_ok : bool; http_code : Z; disk : Flushed }.

(** The file left behind. *)
(* ip_range_resolver.hpp:528-588 downloadTo *)
Definition downloadTo (cfg : UpdaterConfig) (can_open : bool) (x : Transfer) : option str :=
  if negb can_open then None else
  let? ctx := fold_left (fun o c => let? ctx := o in curlWriteCb (u64 (max_download_bytes cfg)) ctx c)
                (chunks x) (Some (0, [])) in
  if negb (curl_ok x) then None
  else if negb (http_code x =? 0) && ((http_code x <? 200) || (300 <=? http_code x)) then None
  else Some (on_disk (disk x) ctx.2).

Definition tmpPath (cfg : UpdaterConfig) : str := path_ cfg ++ ".tmp".

(** The directories [mkdir] is called on, in order. *)
(* ip_range_resolver.hpp:599-613 ensureDirExists, loop *)
Fixpoint mkdir_loop (acc : str) (parts : list str) : list str :=
  match parts with
  | [] => []
  | p :: ps =>
      if decide (p = []) then mkdir_loop acc ps
      else
        let acc := (match last acc with
                    | Some c => if decide (c = "/"%char) then acc else acc ++ ["/"%char]
                    | None => acc
                    end) ++ p in
        acc :: mkdir_loop acc ps
  end.

(* ip_range_resolver.hpp:590-614 ensureDirExists *)
Definition ensureDirExists (filePath : str) : list str :=
  match rfind_char "/" filePath with
  | None | Some O => []
  | Some pos =>
      let dir := take pos filePath in
      match dir with
      | c :: d => if decide (c = "/"%char) then mkdir_loop ["/"%char] (split_char "/" d)
                  else mkdir_loop [] (split_char "/" dir)
      | [] => []
      end
  end.

(** One refresh; [gunzip] is zlib's reading of a file's bytes. *)
(* ip_range_resolver.hpp:458-500 refreshOnce *)
Definition refreshOnce `{Inet} (gunzip : str -> option str) (cfg : UpdaterConfig) (can_open rename_ok : bool)
  (x : Transfer) (now : Z) (s : UpdaterState) : UpdaterState :=
  let ds := dirs s ++ ensureDirExists (path_ cfg) in
  let fs := delete (tmpPath cfg) (files s) in
  match downloadTo cfg can_open x with
  | None => mkUState fs ds (current_ s)
  | Some content =>
      match loadFromFile (tmpPath cfg) (gunzip content) (Some now) with
      | Err _ => mkUState fs ds (current_ s)
      | Ok fresh =>
          if rename_ok then mkUState (<[path_ cfg := (content, now)]> fs) ds (Some fresh)
          else mkUState (<[tmpPath cfg := (content, now)]> fs) ds (Some fresh)
      end
  end.

(* ip_range_resolver.hpp:373-387 loadInitial *)
Definition loadInitial `{Inet} (gunzip : str -> option str) (cfg : UpdaterConfig) (s : UpdaterState)
  : UpdaterState * bool :=
  let file := files s !! path_ cfg in
  match loadFromFile (path_ cfg) (let? (c, _) := file in gunzip c) (snd <$> file) with
  | Ok r => (mkUState (files s) (dirs s) (Some r), true)
  | Err _ => (s, false)
  end.

(** One round of the background thread. *)
(* ip_range_resolver.hpp:420-434 run *)
Definition run_round `{Inet} (gunzip : str -> option str) (cfg : UpdaterConfig) (can_open rename_ok : bool)
  (x : Transfer) (now : Z) (s : UpdaterState) : UpdaterState :=
  if auto_update cfg && needsRefresh cfg now s then refreshOnce gunzip cfg can_open rename_ok x now s else s.


Lemma ensureDirExists_example :
  ensureDirExists "/var/lib//ntm/x.gz" = [("/var" : str); ("/var/lib" : str); ("/var/lib/ntm" : str)].
Proof. vm_compute. reflexivity. Qed.

(** ** Binary search finds the containing range *)

Section LookupFacts.
Context {A : Type} {AD : Addr A} {AL : AddrLaws A}.
Implicit Types (l : list (Range A)) (r : Range A).

(** [start_le] is a preorder that compares any two ranges. *)
Lemma start_le_trans r1 r2 r3 : start_le r1 r2 -> start_le r2 r3 -> start_le r1 r3.
Proof.
  unfold start_le. intros H1 H2. destruct (addr_ltb (r_start r3) (r_start r1)) eqn:E; [|done].
  destruct (addr_total (r_start r1) (r_start r2)) as [Hc|[Hc|Hc]]; [| |congruence].
  - pose proof (addr_trans _ _ _ E Hc). congruence.
  - congruence.
Qed.

#[export] Instance start_le_total : Total (@start_le A _).
Proof.
  intros r1 r2. unfold start_le. destruct (addr_ltb (r_start r2) (r_start r1)) eqn:E; [|by left].
  right. destruct (addr_ltb (r_start r1) (r_start r2)) eqn:E'; [|done].
  pose proof (addr_trans _ _ _ E E') as H. by rewrite addr_irrefl in H.
Qed.

#[export] Instance start_le_transitive : Transitive (@start_le A _).
Proof. intros ???. apply start_le_trans. Qed.

(** [a <= v] and [v < start] for the ranges at smaller and larger indices. *)
Lemma not_ltb_start_le v r1 r2 :
  addr_ltb v (r_start r2) = false -> start_le r1 r2 -> addr_ltb v (r_start r1) = false.
Proof.
  unfold start_le. intros H1 H2. destruct (addr_ltb v (r_start r1)) eqn:E; [|done].
  destruct (addr_total (r_start r1) (r_start r2)) as [Hc|[Hc|Hc]]; [| |congruence].
  - pose proof (addr_trans _ _ _ E Hc). congruence.
  - congruence.
Qed.

Lemma sorted_lookup_le l i j r1 r2 :
  StronglySorted start_le l -> (i <= j)%nat -> l !! i = Some r1 -> l !! j = Some r2 -> start_le r1 r2.
Proof.
  intros Hs Hij H1 H2. destruct (decide (i = j)) as [->|].
  - simplify_eq. unfold start_le. apply addr_irrefl.
  - revert i j Hij H1 H2 n. induction Hs as [|x l Hs IH Hx]; intros [|i] [|j] Hij H1 H2 n; try done; try lia.
    + cbn in *. simplify_eq. rewrite Forall_lookup in Hx. by eapply Hx.
    + cbn in *. eapply (IH i j); eauto with lia.
Qed.

Lemma upper_bound_spec l v fuel first len :
  StronglySorted start_le l -> (len <= fuel)%nat -> (first + len <= length l)%nat ->
  (forall i r, (i < first)%nat -> l !! i = Some r -> addr_ltb v (r_start r) = false) ->
  (forall i r, (first + len <= i)%nat -> l !! i = Some r -> addr_ltb v (r_start r) = true) ->
  let k := upper_bound fuel l v first len in
  (k <= first + len)%nat /\
  (forall i r, (i < k)%nat -> l !! i = Some r -> addr_ltb v (r_start r) = false) /\
  (forall i r, (k <= i)%nat -> l !! i = Some r -> addr_ltb v (r_start r) = true).
Proof.
  intros Hs. revert first len.
  induction fuel as [|fuel IH]; intros first [|len] Hf Hl Hlo Hhi; cbn [upper_bound];
    rewrite ?Nat.add_0_r in *; try done; try lia.
  assert (Hh : (S len / 2 < S len)%nat) by (apply Nat.div_lt; lia).
  set (half := (S len / 2)%nat) in *. clearbody half.
  destruct (lookup_lt_is_Some_2 l (first + half)) as [r Hr]; [lia|].
  rewrite Hr. destruct (addr_ltb v (r_start r)) eqn:E.
  - destruct (IH first half) as (? & ? & ?); [lia|lia|done| |split_conj; [lia|done|done]].
    intros i r' Hi Hr'. destruct (addr_ltb v (r_start r')) eqn:E'; [done|].
    pose proof (not_ltb_start_le v r r' E' (sorted_lookup_le _ _ _ _ _ Hs Hi Hr Hr')). congruence.
  - destruct (IH (S (first + half)) (S len - half - 1)%nat) as (? & ? & ?);
      [lia|lia| | |split_conj; [lia|done|done]].
    + intros i r' Hi Hr'. eapply not_ltb_start_le; [exact E|].
      eapply (sorted_lookup_le l i (first + half)); eauto with lia.
    + intros i r' Hi. apply Hhi. lia.
Qed.

Definition contains r (ip : A) : Prop :=
  addr_ltb ip (r_start r) = false /\ addr_ltb (r_end r) ip = false.

(** Any two ranges of a list are the same or lie apart. *)
Definition disjoint_ranges l : Prop :=
  forall r1 r2, r1 ∈ l -> r2 ∈ l ->
    r1 = r2 \/ addr_ltb (r_end r1) (r_start r2) = true \/ addr_ltb (r_end r2) (r_start r1) = true.

Definition valid_ranges l : Prop := forall r, r ∈ l -> addr_ltb (r_end r) (r_start r) = false.

Lemma lookup_sorted_sound l ip r :
  lookup_range l ip = Some r -> r ∈ l /\ contains r ip.
Proof.
  unfold lookup_range, contains. intros H. repeat case_match_hyp H; simplify_eq. bool_to_prop.
  split; [by eapply list_elem_of_lookup_2|done].
Qed.

Lemma lookup_sorted_complete l ip r :
  StronglySorted start_le l -> valid_ranges l -> disjoint_ranges l -> r ∈ l -> contains r ip -> lookup_range l ip = Some r.
Proof.
  intros Hs Hv Hd Hr Hc. unfold lookup_range.
  destruct (upper_bound_spec l ip (length l) 0 (length l) Hs) as (Hk & Hlo & Hhi); [lia|lia|intros; lia| |].
  { intros i r' Hi Hr'. apply lookup_lt_Some in Hr'. lia. }
  set (k := upper_bound _ _ _ _ _) in *. clearbody k.
  pose proof Hr as Hr0. apply list_elem_of_lookup in Hr as [j Hj].
  assert (Hjk : (j < k)%nat).
  { destruct (decide (j < k)%nat); [done|]. pose proof (Hhi j r ltac:(lia) Hj) as H. destruct Hc. congruence. }
  destruct k as [|i]; [lia|].
  destruct (lookup_lt_is_Some_2 l i) as [r' Hi]; [lia|]. rewrite Hi.
  pose proof (Hlo i r' ltac:(lia) Hi) as Hs'. rewrite Hs'.
  assert (r' = r) as ->.
  { destruct (decide (j = i)) as [->|]; [congruence|].
    destruct (Hd r' r) as [H|[H|H]]; [by eapply list_elem_of_lookup_2|done|done| |].
    - pose proof (sorted_lookup_le l j i r r' Hs ltac:(lia) Hj Hi) as Hle.
      exfalso. unfold start_le in Hle. pose proof (Hv r' ltac:(by eapply list_elem_of_lookup_2)) as Hv'.
      destruct (addr_total (r_start r) (r_start r')) as [E|[E|E]]; [|congruence|congruence].
      pose proof (addr_trans _ _ _ H E). congruence.
    - exfalso. destruct Hc as [_ Hc].
      destruct (addr_total ip (r_start r')) as [E|[E|E]]; [congruence|congruence|].
      pose proof (addr_trans _ _ _ H E). congruence. }
  destruct Hc as [_ ->]. done.
Qed.

(** The sorted table answers every query of a valid disjoint table exactly. *)
Lemma lookup_range_sort l ip r :
  valid_ranges l -> disjoint_ranges l ->
  lookup_range (sort_ranges l) ip = Some r <-> r ∈ l /\ contains r ip.
Proof.
  intros Hv Hd. unfold sort_ranges.
  pose proof (merge_sort_Permutation start_le l) as Hp.
  assert (Hin : forall x, x ∈ merge_sort start_le l <-> x ∈ l) by (intros x; by rewrite Hp).
  split.
  - intros H. apply lookup_sorted_sound in H as [H1 H2]. split; [by apply Hin|done].
  - intros [H1 H2]. apply lookup_sorted_complete; [|intros ? ?%Hin; eauto| |by apply Hin|done].
    + apply (StronglySorted_merge_sort start_le l).
    + intros r1 r2 ?%Hin ?%Hin. eauto.
Qed.

End LookupFacts.

(** ** Lookups in a loaded table *)

Section Resolve.
Context `{IN : Inet}.

(** The ranges a text holds for each family. *)
Definition v4_entries (text : str) : list (Range Z) :=
  omap (fun e => match e with E4 r => Some r | E6 _ => None end) (entries text).
Definition v6_entries (text : str) : list (Range str) :=
  omap (fun e => match e with E6 r => Some r | E4 _ => None end) (entries text).

Lemma loadFromFile_Ok path text m R :
  loadFromFile path (Some text) m = Ok R ->
  v4_ R = sort_ranges (v4_entries text) /\ v6_ R = sort_ranges (v6_entries text).
Proof.
  unfold loadFromFile, or_err. intros H. destruct (decide _); [done|]. by injection H as <-.
Qed.

(** What a range says about the addresses in it. *)
Definition describe {A : Type} (ip : str) (r : Range A) : str * str :=
  (country_str (country r),
   if asn r =? 0 then kUnknownEntity ++ SP :: ip else entity_label (asn r) (as_desc r)).

(** C35: in a table loaded from a text whose ranges are valid and apart, an address
    inside a range of the text gets that range's country and AS label, whatever
    the order of the lines; an address in no range, and what is no address,
    get the unknown markers. *)
Theorem resolve_exact path text m (R : Resolver) (ip : str)
  (HL : loadFromFile path (Some text) m = Ok R)
  (V4 : valid_ranges (v4_entries text)) (D4 : disjoint_ranges (v4_entries text))
  (V6 : valid_ranges (v6_entries text)) (D6 : disjoint_ranges (v6_entries text)) :
  match parseIp ip with
  | Some (KeyV4 a) =>
      (forall r, r ∈ v4_entries text -> r_start r <= a <= r_end r ->
         (countryFor R ip, entityFor R ip) = describe ip r) /\
      ((forall r, r ∈ v4_entries text -> ~ r_start r <= a <= r_end r) ->
         countryFor R ip = kUnknownCountry /\ entityFor R ip = kUnknownEntity ++ SP :: ip)
  | Some (KeyV6 b) =>
      (forall r, r ∈ v6_entries text -> contains r b ->
         (countryFor R ip, entityFor R ip) = describe ip r) /\
      ((forall r, r ∈ v6_entries text -> ~ contains r b) ->
         countryFor R ip = kUnknownCountry /\ entityFor R ip = kUnknownEntity ++ SP :: ip)
  | None => countryFor R ip = kUnknownCountry /\ entityFor R ip = kUnknownEntity
  end.
Proof.
  apply loadFromFile_Ok in HL as [H4 H6]. unfold countryFor, entityFor, describe.
  destruct (parseIp ip) as [[a|b]|] eqn:Hp; [| |done].
  - assert (Hc : forall r : Range Z, contains r a <-> r_start r <= a <= r_end r).
    { intros r. unfold contains. cbn. rewrite !Z.ltb_ge. lia. }
    rewrite H4. split.
    + intros r Hr Ha. assert (lookup_range (sort_ranges (v4_entries text)) a = Some r) as ->; [|done].
      apply lookup_range_sort; [done|done|]. split; [done|by apply Hc].
    + intros Hno. destruct (lookup_range _ a) as [r|] eqn:E; [|done].
      apply lookup_range_sort in E as [Hr Hb]; [|done|done]. apply Hc in Hb. destruct (Hno r); done.
  - rewrite H6. split.
    + intros r Hr Ha. assert (lookup_range (sort_ranges (v6_entries text)) b = Some r) as ->; [|done].
      by apply lookup_range_sort.
    + intros Hno. destruct (lookup_range _ b) as [r|] eqn:E; [|done].
      apply lookup_range_sort in E as [Hr Hb]; [|done|done]. destruct (Hno r); done.
Qed.

(** The bytes a transfer delivers while every callback accepts. *)
Lemma curl_fold maxb cs n data ctx :
  fold_left (fun o c => let? ctx := o in curlWriteCb maxb ctx c) cs (Some (n, data)) = Some ctx ->
  ctx.1 = n + Z.of_nat (length (concat cs)) /\ ctx.2 = data ++ concat cs /\
  (0 < maxb -> n <= maxb -> ctx.1 <= maxb).
Proof.
  revert n data. induction cs as [|c cs IH]; intros n data H; cbn in H.
  - injection H as <-. cbn. rewrite app_nil_r. split_conj; [lia|done|done].
  - destruct (curlWriteCb maxb (n, data) c) as [[n' d']|] eqn:E.
    2:{ exfalso. clear -H. induction cs; cbn in H; [done|auto]. }
    unfold curlWriteCb in E. cbn in E. case_match_hyp E; [done|]. injection E as <- <-.
    apply IH in H as (H1 & H2 & H3). cbn [concat]. rewrite length_app, <- app_assoc in *.
    split_conj; [lia|done|]. intros Hm Hn. apply H3; [done|].
    apply andb_false_iff in E0. rewrite !Z.ltb_ge in E0. lia.
Qed.

(** C36: a refresh either installs a table read from the bytes that a complete
    2xx transfer within the size cap left in the temporary file, and this file
    then replaces the data file unless the rename failed; or it changes neither
    the data file nor the table, and leaves no temporary file. The bytes are
    those of the transfer when the disk took them all; since the results of
    the flush and of the closing are ignored, a full disk leaves a beginning of
    them, which is installed just as well if any line of it can be read
    ([truncated_table_installed]). *)
Theorem refreshOnce_safe (gunzip : str -> option str) (cfg : UpdaterConfig) (can_open rename_ok : bool)
  (x : Transfer) (now : Z) (s : UpdaterState) :
  let s' := refreshOnce gunzip cfg can_open rename_ok x now s in
  let content := concat (chunks x) in
  (exists file fresh,
     match disk x with AllStored => file = content | OnlyStored n => file = take n content end /\
     current_ s' = Some fresh /\ curl_ok x = true /\ (http_code x = 0 \/ 200 <= http_code x < 300) /\
     (0 < max_download_bytes cfg <= INT64_MAX -> Z.of_nat (length content) <= max_download_bytes cfg) /\
     loadFromFile (tmpPath cfg) (gunzip file) (Some now) = Ok fresh /\
     (rename_ok = true -> files s' !! path_ cfg = Some (file, now) /\ files s' !! tmpPath cfg = None) /\
     (rename_ok = false -> files s' !! path_ cfg = files s !! path_ cfg)) \/
  (current_ s' = current_ s /\ files s' !! path_ cfg = files s !! path_ cfg /\
   files s' !! tmpPath cfg = None).
Proof.
  cbn. assert (Hne : tmpPath cfg <> path_ cfg).
  { intros E%(f_equal length). unfold tmpPath in E. rewrite length_app in E. cbn in E. lia. }
  unfold refreshOnce. destruct (downloadTo cfg can_open x) as [content|] eqn:Hd.
  2:{ right. cbn. rewrite lookup_delete_ne, lookup_delete_eq by done. done. }
  destruct (loadFromFile _ _ _) as [fresh|e] eqn:Hl.
  2:{ right. cbn. rewrite lookup_delete_ne, lookup_delete_eq by done. done. }
  left. exists content, fresh. unfold downloadTo in Hd.
  destruct can_open; [cbn in Hd|done].
  destruct (fold_left _ _ _) as [ctx|] eqn:Hf; [|done].
  apply curl_fold in Hf as (H1 & H2 & H3). cbn in H1, H2. case_match_hyp Hd; [done|].
  case_match_hyp Hd; [done|]. injection Hd as <-. rewrite H2 in *. bool_to_prop.
  split_conj.
  - by destruct (disk x).
  - by destruct rename_ok.
  - done.
  - apply andb_false_iff in E0. rewrite negb_false_iff, Z.eqb_eq, orb_false_iff, Z.ltb_ge, Z.leb_gt in E0. lia.
  - intros Hm. rewrite u64_small in H3 by (unfold INT64_MAX in Hm; lia). lia.
  - done.
  - intros ->. cbn. rewrite lookup_insert_eq, lookup_insert_ne, lookup_delete_eq by done. done.
  - intros ->. cbn. rewrite lookup_insert_ne, lookup_delete_ne by done. done.
Qed.

End Resolve.

(** ** Witnesses *)

Definition sample_tsv : str :=
  "1.0.4.0" ++ TAB :: "1.0.7.255" ++ TAB :: "38803" ++ TAB :: "AU" ++ TAB :: "WPL-AS-AP" ++ LF ::
  "# a comment" ++ LF ::
  "1.0.0.0" ++ TAB :: "1.0.0.255" ++ TAB :: "13335" ++ TAB :: "US" ++ TAB :: "CLOUDFLARENET" ++ [CR; LF].

Definition sample_r1 : Range Z := mkRange 16778240 16779263 38803 ("A", "U")%char "WPL-AS-AP".
Definition sample_r2 : Range Z := mkRange 16777216 16777471 13335 ("U", "S")%char "CLOUDFLARENET".

Lemma sample_v4 : v4_entries sample_tsv = [sample_r1; sample_r2].
Proof. vm_compute. reflexivity. Qed.

Lemma sample_v6 : v6_entries sample_tsv = [].
Proof. vm_compute. reflexivity. Qed.

Lemma sample_v4_ok : valid_ranges (v4_entries sample_tsv) /\ disjoint_ranges (v4_entries sample_tsv).
Proof.
  rewrite sample_v4. split.
  - intros r Hr. rewrite !elem_of_cons in Hr. destruct Hr as [->|[->|Hr]]; [done|done|].
    by apply not_elem_of_nil in Hr.
  - intros r1 r2 H1 H2. rewrite !elem_of_cons in H1, H2.
    destruct H1 as [->|[->|H1]], H2 as [->|[->|H2]];
      try (by apply not_elem_of_nil in H1); try (by apply not_elem_of_nil in H2); auto.
Qed.

Lemma sample_v6_ok : valid_ranges (v6_entries sample_tsv) /\ disjoint_ranges (v6_entries sample_tsv).
Proof.
  rewrite sample_v6. split; [intros r Hr|intros r1 r2 Hr]; by apply not_elem_of_nil in Hr.
Qed.

Definition sample_resolver : Resolver := mkResolver [sample_r2; sample_r1] [] 0.

Lemma sample_load : loadFromFile "f" (Some sample_tsv) (Some 0) = Ok sample_resolver.
Proof. vm_compute. reflexivity. Qed.

Lemma resolve_exact_witness :
  (countryFor sample_resolver "1.0.4.9", entityFor sample_resolver "1.0.4.9")
    = (("AU" : str), ("AS38803 WPL-AS-AP" : str)).
Proof.
  pose proof (resolve_exact "f" sample_tsv (Some 0) sample_resolver "1.0.4.9" sample_load
                (proj1 sample_v4_ok) (proj2 sample_v4_ok) (proj1 sample_v6_ok) (proj2 sample_v6_ok)) as W.
  change (parseIp "1.0.4.9") with (Some (KeyV4 16778249)) in W. cbn iota in W. destruct W as [W _].
  rewrite (W sample_r1); [vm_compute; reflexivity| |cbn; lia].
  rewrite sample_v4. left.
Defined.

(** A full disk: the second of two ranges is lost, and the table with the first
    alone replaces the one in use. *)
Lemma truncated_table_installed :
  let cfg := mkUConfig "/var/lib/ntm/ip.gz" "https://x" 7 3600 true 1000000 in
  let first := length ("1.0.4.0" ++ TAB :: "1.0.7.255" ++ TAB :: "38803" ++ TAB :: "AU" ++ TAB :: "WPL-AS-AP" ++ [LF]) in
  let full := mkTransfer [sample_tsv] true 200 AllStored in
  let short := mkTransfer [sample_tsv] true 200 (OnlyStored first) in
  let s := mkUState ∅ [] None in
  (v4_ <$> current_ (refreshOnce Some cfg true true full 5 s)) = Some [sample_r2; sample_r1] /\
  (v4_ <$> current_ (refreshOnce Some cfg true true short 5 s)) = Some [sample_r1] /\
  files (refreshOnce Some cfg true true short 5 s) !! ("/var/lib/ntm/ip.gz" : str) = Some (take first sample_tsv, 5).
Proof. vm_compute. auto. Qed.
