(* ===== verification/Auth.v ===== *)
(** Mutual exchange that opens a session: the client's proof of its Ed25519 key
    ([performClientAuth], [client_core.cpp]), the server's allow list and
    verification ([loadAllowedKeys], [verifyClientAuth], [server_core.cpp]).
    Ed25519, the random generator and the key file reader are OpenSSL's and
    enter as parameters and arguments. *)

From S2P Require Import Prelude CppString Health Registry Upgrade.

(* proto_client_server.hpp:97-114 kAuthVersionV2, kAuthResultOk, kAuthResultReject, kAuthPubkeyLen, kAuthSignatureLen, kAuthNonceLen, kAuthSignPrefixV2, kAuthVersionV3, kCapNone, kCapZlib *)
Definition kAuthVersionV2 : Z := 2.
Definition kAuthVersionV3 : Z := 3.
Definition kAuthResultOk : Z := 0x00.
Definition kAuthResultReject : Z := 0x01.
Definition kAuthPubkeyLen : nat := 32.
Definition kAuthSignatureLen : nat := 64.
Definition kAuthNonceLen : nat := 32.
Definition kAuthSignPrefixV2 : str := "NTM-AUTH-v2".
Definition kCapNone : Z := 0x00.
Definition kCapZlib : Z := 0x01.

(** Ed25519: the public half of a key, signing (which can fail), and
    verification under a raw public key. *)
Class Ed25519 := {
  PrivKey : Type;
  raw_public : PrivKey -> str;
  ed_sign : PrivKey -> str -> option str;
  ed_verify : str -> str -> str -> bool
}.

(** Sizes, and that a signature verifies under its key. *)
Class Ed25519Laws (E : Ed25519) := {
  raw_public_size : forall k, length (raw_public k) = kAuthPubkeyLen;
  ed_sign_total : forall k m, exists s, ed_sign k m = Some s /\ length s = kAuthSignatureLen;
  ed_sign_verifies : forall k m s, ed_sign k m = Some s -> ed_verify (raw_public k) m s = true
}.

(** ** Programs that read and write a connection *)

(** [Read n k]: [readExact] of [n] bytes; [k] gets [None] when it fails.
    [Write s k]: [writeExact]; [k] gets whether it succeeded. *)
Inductive io (A : Type) :=
| Ret (a : A)
| Read (n : nat) (k : option str -> io A)
| Write (s : str) (k : bool -> io A).
Arguments Ret {A}. Arguments Read {A}. Arguments Write {A}.

Fixpoint io_bind {A B} (p : io A) (f : A -> io B) : io B :=
  match p with
  | Ret a => f a
  | Read n k => Read n (fun o => io_bind (k o) f)
  | Write s k => Write s (fun b => io_bind (k b) f)
  end.

(** One side against given answers to its reads; writes succeed. [None] when
    the answers run out. *)
Fixpoint exec {A} (p : io A) (answers : list (option str)) : option A :=
  match p with
  | Ret a => Some a
  | Write s k => exec (k true) answers
  | Read n k => match answers with [] => None | a :: answers => exec (k a) answers end
  end.

(** Both sides against each other over a reliable connection: [cs] and [sc] are
    the bytes on their way. A side that waits for bytes lets the other run; a
    read fails when the other side has returned. *)
Fixpoint run_both {A B} (fuel : nat) (c : io A) (s : io B) (cs sc : str) : option (A * B) :=
  match fuel with
  | O => None
  | S fuel =>
      let server_turn :=
        match s with
        | Ret b => match c with
                   | Ret a => Some (a, b)
                   | Read n k => run_both fuel (k None) s cs sc
                   | Write w k => run_both fuel (k true) s (cs ++ w) sc
                   end
        | Write w k => run_both fuel c (k true) cs (sc ++ w)
        | Read n k =>
            if (n <=? length cs)%nat then run_both fuel c (k (Some (take n cs))) (drop n cs) sc
            else match c with Ret _ => run_both fuel c (k None) cs sc | _ => None end
        end in
      match c with
      | Ret _ => server_turn
      | Write w k => run_both fuel (k true) s (cs ++ w) sc
      | Read n k =>
          if (n <=? length sc)%nat then run_both fuel (k (Some (take n sc))) s cs (drop n sc)
          else server_turn
      end
  end.

(** ** The allow list *)

(* ntm_types.hpp:218-224 AllowedClientsStore *)
Record AllowedClientsStore := mkStore { keys : gset str; nicknames : gmap str str }.

Definition is_hex_digit (c : ascii) : bool := is_digit c || in_range "a" "f" c || in_range "A" "F" c.

(** [(c >= 'a') ? c - 'a' + 10 : (c >= 'A') ? c - 'A' + 10 : c - '0']. *)
Definition key_nibble (c : ascii) : Z :=
  if byte_val "a" <=? byte_val c then byte_val c - byte_val "a" + 10
  else if byte_val "A" <=? byte_val c then byte_val c - byte_val "A" + 10
  else byte_val c - byte_val "0".

(* server_core.cpp:331-339 loadAllowedKeys, decode *)
Fixpoint decode_key (s : str) : str :=
  match s with
  | h :: l :: s' => byte_of (Z.lor (Z.shiftl (key_nibble h) 4) (key_nibble l)) :: decode_key s'
  | _ => []
  end.

(** Lowercase hexadecimal, written out in both functions. *)
(* server_core.cpp:342-350 loadAllowedKeys, hexKey *)
Definition key_hex (raw : str) : str := hexEncode raw.

Definition blank (c : ascii) : bool := char_in [SP; TAB] c.

(* server_core.cpp:352-378 loadAllowedKeys, nickname *)
Definition parse_nickname (line : str) : option str :=
  if (64 <? length line)%nat then
    let nickname := trim_back blank (trim_front blank (substr_from line 64)) in
    if decide (nickname = []) then None
    else if (64 <? length nickname)%nat || existsb (fun c => bool_decide (c = "|"%char) || (byte_val c <? 0x20)) nickname
    then None else Some nickname
  else None.

(** The 64 hexadecimal digits at the start of an entry, [None] for a line that
    is skipped. *)
(* server_core.cpp:293-330 loadAllowedKeys, entry *)
Definition entry_key (line0 : str) : option (str * str) :=
  let line := trim_back (char_in [CR; LF]) line0 in
  match line with
  | [] => None
  | c :: _ =>
      if decide (c = "#"%char) then None
      else if (length line <? 64)%nat then None
      else if (64 <? length line)%nat && negb (blank (nth 64 line NUL)) then None
      else if forallb is_hex_digit (take 64 line) then Some (decode_key (take 64 line), line)
      else None
  end.

(* server_core.cpp:290-379 loadAllowedKeys, one line *)
Definition add_entry (st : AllowedClientsStore) (line0 : str) : AllowedClientsStore :=
  match entry_key line0 with
  | None => st
  | Some (raw, line) =>
      mkStore ({[raw]} ∪ keys st)
        (match parse_nickname line with
         | Some n => <[key_hex raw := n]> (nicknames st)
         | None => nicknames st
         end)
  end.

Definition empty_store : AllowedClientsStore := mkStore ∅ ∅.

(** [None]: no path, or the file cannot be opened. *)
(* server_core.cpp:275-381 loadAllowedKeys *)
Definition loadAllowedKeys (file : option str) : AllowedClientsStore :=
  match file with
  | None => empty_store
  | Some text => fold_left add_entry (getlines text) empty_store
  end.

(** [CRYPTO_memcmp] over all entries, the results or-ed. *)
(* server_core.cpp:255-273 allowedKeysContains *)
Definition allowedKeysContains (ks : gset str) (needle : str) : bool :=
  if negb (length needle =? kAuthPubkeyLen)%nat then false
  else fold_left (fun found k => if negb (length k =? kAuthPubkeyLen)%nat then found
                                 else found || bool_decide (k = needle)) (elements ks) false.

(** ** The server's side *)

Record AuthOutcome := mkAuth { clientId : str; attemptedVersion : Z; negotiatedCaps : Z; isV3 : bool }.

Definition rejected (version : Z) : AuthOutcome := mkAuth [] version kCapNone false.

Section Exchange.
Context `{ED : Ed25519}.

(* server_core.cpp:799-810 verifyClientAuth, pubkeyToIdHex *)
Definition pubkeyToIdHex (raw : str) : str := hexEncode raw.

(** Challenge and response of both versions: the client's answer has
    [extra] bytes behind the signature. *)
(* server_core.cpp:812-899 verifyClientAuth, exchange *)
Definition challenge (ks : gset str) (nonce : option str) (extra : nat) (accept : str -> str -> AuthOutcome)
  : io AuthOutcome :=
  match nonce with
  | None => Ret (rejected 0)
  | Some nonce =>
      Write nonce (fun ok => if negb ok then Ret (rejected 0) else
      Read (kAuthPubkeyLen + kAuthSignatureLen + extra) (fun o =>
        match o with
        | None => Ret (rejected 0)
        | Some resp =>
            let pubkeyRaw := take kAuthPubkeyLen resp in
            if negb (allowedKeysContains ks pubkeyRaw) then Ret (rejected 0)
            else
              let sig := substr resp kAuthPubkeyLen kAuthSignatureLen in
              if ed_verify pubkeyRaw (kAuthSignPrefixV2 ++ nonce) sig then Ret (accept pubkeyRaw resp)
              else Ret (rejected 0)
        end))
  end.

(** [nonce]: what [RAND_bytes] gives, [None] when it fails. *)
(* server_core.cpp:784-899 verifyClientAuth *)
Definition verifyClientAuth (store : AllowedClientsStore) (nonce : option str) : io AuthOutcome :=
  if decide (keys store = ∅) then Ret (rejected 0)
  else Read 1 (fun o =>
    match o with
    | Some [v] =>
        let version := byte_val v in
        if version =? kAuthVersionV2 then
          challenge (keys store) nonce 0 (fun raw _ => mkAuth (pubkeyToIdHex raw) 0 kCapNone false)
        else if version =? kAuthVersionV3 then
          challenge (keys store) nonce 1 (fun raw resp =>
            let clientCaps := byte_val (nth (kAuthPubkeyLen + kAuthSignatureLen) resp NUL) in
            mkAuth (pubkeyToIdHex raw) 0 (Z.land clientCaps kCapZlib) true)
        else Ret (rejected version)
    | _ => Ret (rejected 0)
    end).

(** How the phase ends: a session with an identity and capabilities, a refusal
    with the version to be reported, or a connection lost while answering. *)
Inductive Phase := Granted (a : AuthOutcome) | Refused (version : Z) | Lost.

(* server_core.cpp:1654-1679 connectionThread, authentication *)
Definition auth_phase (store : AllowedClientsStore) (nonce : option str) : io Phase :=
  io_bind (verifyClientAuth store nonce) (fun a =>
    if decide (clientId a = []) then Write [byte_of kAuthResultReject] (fun _ => Ret (Refused (attemptedVersion a)))
    else Write [byte_of kAuthResultOk] (fun ok => if negb ok then Ret Lost else
      if isV3 a then Write [byte_of (negotiatedCaps a)] (fun ok => if ok then Ret (Granted a) else Ret Lost)
      else Ret (Granted a))).

(** An unknown version is recorded; the last twenty records are kept. *)
(* server_core.cpp:1663-1672 connectionThread, rejection record *)
Definition record_rejection (clientIp : str) (atSec : Z) (p : Phase) (r : ClientRegistry.t) : ClientRegistry.t :=
  match p with
  | Refused version =>
      if version =? 0 then r
      else
        let rs := ClientRegistry.protoRejections r ++ [ClientRegistry.mkRejection clientIp version atSec] in
        ClientRegistry.mk (ClientRegistry.ipToClientId r) (ClientRegistry.clientToExternalIp r)
          (ClientRegistry.clientHealth r) (if (20 <? length rs)%nat then drop 1 rs else rs)
  | _ => r
  end.

(** ** The client's side *)

(** The identity file: unsafe permissions, missing, not a PEM key, a key of
    another type, or an Ed25519 key. *)
Inductive IdentityFile := UnsafePerms | CannotOpen | NoPem | OtherKeyType | IdentityKey (k : PrivKey).

(** [Ok None]: no identity configured, nothing exchanged; [Ok (Some caps)]:
    accepted with these capabilities. *)
(* client_core.cpp:283-488 performClientAuth *)
Definition performClientAuth (identityPath : str) (file : IdentityFile) (requestCompression : bool)
  : io (result (option Z)) :=
  if decide (identityPath = []) then Ret (Ok None)
  else match file with
  | UnsafePerms => Ret (Err "identity key has unsafe permissions or owner — see log for fix")
  | CannotOpen => Ret (Err "cannot open identity file")
  | NoPem => Ret (Err "failed to read Ed25519 private key")
  | OtherKeyType => Ret (Err "identity key must be Ed25519")
  | IdentityKey pkey =>
      let pubkey := raw_public pkey in
      if negb (length pubkey =? kAuthPubkeyLen)%nat then Ret (Err "failed to get public key")
      else
      Write [byte_of kAuthVersionV3] (fun ok => if negb ok then Ret (Err "failed to send auth version") else
      Read kAuthNonceLen (fun o => match o with None => Ret (Err "failed to read auth nonce") | Some nonce =>
      match ed_sign pkey (kAuthSignPrefixV2 ++ nonce) with
      | None => Ret (Err "Ed25519 sign failed")
      | Some sig =>
      if negb (length sig =? kAuthSignatureLen)%nat then Ret (Err "Ed25519 sign failed") else
      let clientCaps := if requestCompression then kCapZlib else kCapNone in
      Write (pubkey ++ sig ++ [byte_of clientCaps]) (fun ok =>
      if negb ok then Ret (Err "failed to send auth message") else
      Read 1 (fun o => match o with
      | Some [r] =>
          if negb (byte_val r =? kAuthResultOk) then
            Ret (Err "server rejected authentication (key not in server allowed list?)")
          else Read 1 (fun o => match o with
               | Some [c] => Ret (Ok (Some (byte_val c)))
               | _ => Ret (Err "failed to read negotiated capabilities from server")
               end)
      | _ => Ret (Err "failed to read auth result")
      end))
      end end))
  end.

End Exchange.

(** ** The allow list as a set *)

Lemma contains_fold (l : list str) needle found :
  length needle = kAuthPubkeyLen ->
  fold_left (fun found k => if negb (length k =? kAuthPubkeyLen)%nat then found
                            else found || bool_decide (k = needle)) l found
  = found || bool_decide (needle ∈ l).
Proof.
  intros Hn. revert found. induction l as [|k l IH]; intros found; cbn [fold_left].
  - rewrite bool_decide_eq_false_2 by apply not_elem_of_nil. by rewrite orb_false_r.
  - rewrite IH. apply Bool.eq_true_iff_eq. destruct (Nat.eqb_spec (length k) kAuthPubkeyLen) as [E|E]; cbn [negb];
      rewrite ?orb_true_iff, !bool_decide_eq_true, elem_of_cons; [naive_solver|].
    split; [naive_solver|]. intros [?|[->|?]]; [naive_solver|done|naive_solver].
Qed.

Lemma allowedKeysContains_spec (ks : gset str) (needle : str) :
  allowedKeysContains ks needle = true <-> length needle = kAuthPubkeyLen /\ needle ∈ ks.
Proof.
  unfold allowedKeysContains. destruct (Nat.eqb_spec (length needle) kAuthPubkeyLen) as [E|E]; cbn [negb].
  - rewrite contains_fold by done. cbn [orb]. rewrite bool_decide_eq_true, elem_of_elements. naive_solver.
  - naive_solver.
Qed.

(** ** Running both sides *)

Section RunBoth.
Context {A B : Type}.
Implicit Types (s : io B).

Lemma run_client_write f w k s cs sc :
  run_both (A := A) (S f) (Write w k) s cs sc = run_both f (k true) s (cs ++ w) sc.
Proof. reflexivity. Qed.

Lemma run_client_read f n k s (cs sc : str) :
  (n <= length sc)%nat -> run_both (A := A) (S f) (Read n k) s cs sc = run_both f (k (Some (take n sc))) s cs (drop n sc).
Proof. intros H. cbn [run_both]. by rewrite (proj2 (Nat.leb_le _ _) H). Qed.

Lemma run_server_write f n k (k' : bool -> io B) w (cs sc : str) :
  (length sc < n)%nat ->
  run_both (A := A) (B := B) (S f) (Read n k) (Write w k') cs sc = run_both f (Read n k) (k' true) cs (sc ++ w).
Proof. intros H. cbn [run_both]. by rewrite (proj2 (Nat.leb_gt _ _) H). Qed.

Lemma run_server_read f n k m (k' : option str -> io B) (cs sc : str) :
  (length sc < n)%nat -> (m <= length cs)%nat ->
  run_both (A := A) (B := B) (S f) (Read n k) (Read m k') cs sc = run_both f (Read n k) (k' (Some (take m cs))) (drop m cs) sc.
Proof. intros H1 H2. cbn [run_both]. by rewrite (proj2 (Nat.leb_gt _ _) H1), (proj2 (Nat.leb_le _ _) H2). Qed.

Lemma run_server_gone f n k b (cs sc : str) :
  (length sc < n)%nat -> run_both (A := A) (B := B) (S f) (Read n k) (Ret b) cs sc = run_both f (k None) (Ret b) cs sc.
Proof. intros H. cbn [run_both]. by rewrite (proj2 (Nat.leb_gt _ _) H). Qed.

Lemma run_done f a b cs sc : run_both (A := A) (B := B) (S f) (Ret a) (Ret b) cs sc = Some (a, b).
Proof. reflexivity. Qed.
End RunBoth.

Section AuthProps.
Context `{ED : Ed25519} {EL : Ed25519Laws ED}.

(** What each side ends with. *)
Definition expected_outcome (store : AllowedClientsStore) (k : PrivKey) (compress : bool)
  : result (option Z) * Phase :=
  let caps := if compress then kCapZlib else kCapNone in
  if bool_decide (raw_public k ∈ keys store)
  then (Ok (Some caps), Granted (mkAuth (pubkeyToIdHex (raw_public k)) 0 caps true))
  else (Err "server rejected authentication (key not in server allowed list?)", Refused 0).

Lemma pubkeyToIdHex_nonempty k : pubkeyToIdHex (raw_public k) <> [].
Proof.
  intros H. apply (f_equal length) in H. unfold pubkeyToIdHex in H. rewrite hexEncode_length in H.
  rewrite raw_public_size in H. done.
Qed.

(** C7: the two sides of the exchange agree: run against each other, a client
    with an Ed25519 identity and a server with a non-empty allow list always
    finish; the client is accepted exactly when its public key is listed, the
    server then knows it by the hexadecimal of that key, and both sides settle
    on the same capabilities, those the client asked for. *)
Theorem auth_agreement (store : AllowedClientsStore) (path nonce : str) (k : PrivKey) (compress : bool)
  (HP : path <> []) (HN : length nonce = kAuthNonceLen) (HK : keys store <> ∅) :
  run_both 12 (performClientAuth path (IdentityKey k) compress) (auth_phase store (Some nonce)) [] []
  = Some (expected_outcome store k compress).
Proof.
  unfold performClientAuth, auth_phase, verifyClientAuth. rewrite !decide_False by done.
  rewrite raw_public_size, Nat.eqb_refl. cbn [negb io_bind].
  rewrite run_client_write. cbn [negb app]. rewrite run_server_read by (cbn; unfold kAuthNonceLen; lia).
  cbn [take drop]. change (byte_val (byte_of kAuthVersionV3)) with 3. cbn [Z.eqb kAuthVersionV2 kAuthVersionV3 Pos.eqb challenge io_bind].
  rewrite run_server_write by (cbn; unfold kAuthNonceLen; lia). cbn [app negb io_bind].
  rewrite run_client_read by lia. rewrite <- HN at 1. rewrite take_ge, drop_ge by lia.
  destruct (ed_sign_total k (kAuthSignPrefixV2 ++ nonce)) as (sig & Hsig & Hlen). rewrite Hsig, Hlen, Nat.eqb_refl.
  cbn [negb]. rewrite run_client_write. cbn [app negb].
  set (cap := if compress then kCapZlib else kCapNone).
  set (msg := raw_public k ++ sig ++ [byte_of cap]).
  assert (Hmsg : length msg = 97%nat).
  { unfold msg. rewrite !length_app, raw_public_size, Hlen. done. }
  rewrite run_server_read by (try rewrite Hmsg; cbn; lia).
  assert (Hall : take (kAuthPubkeyLen + kAuthSignatureLen + 1) msg = msg) by (apply take_ge; rewrite Hmsg; done).
  assert (Hnone : drop (kAuthPubkeyLen + kAuthSignatureLen + 1) msg = []) by (apply drop_ge; rewrite Hmsg; done).
  rewrite Hall, Hnone.
  assert (Ht : take kAuthPubkeyLen msg = raw_public k) by (apply take_length_app, raw_public_size).
  assert (Hs : substr msg kAuthPubkeyLen kAuthSignatureLen = sig).
  { unfold substr, msg. rewrite drop_length_app by apply raw_public_size. by apply take_length_app. }
  assert (Hc : byte_val (nth (kAuthPubkeyLen + kAuthSignatureLen) msg NUL) = cap).
  { unfold msg. rewrite app_nth2 by (rewrite raw_public_size; lia). rewrite raw_public_size.
    rewrite app_nth2 by (rewrite Hlen; lia). rewrite Hlen. cbn [Nat.add Nat.sub nth kAuthPubkeyLen kAuthSignatureLen].
    unfold cap. by destruct compress. }
  rewrite Ht, Hs, Hc. unfold expected_outcome. fold cap.
  destruct (allowedKeysContains (keys store) (raw_public k)) eqn:Ha; cbn [negb].
  - apply allowedKeysContains_spec in Ha as [_ Ha]. rewrite bool_decide_eq_true_2 by done.
    rewrite (ed_sign_verifies _ _ _ Hsig). cbn [io_bind clientId isV3 negotiatedCaps].
    rewrite decide_False by apply pubkeyToIdHex_nonempty.
    rewrite run_server_write by (cbn; lia). rewrite run_client_read by (cbn; lia). cbn [app take drop negb].
    change (byte_val (byte_of kAuthResultOk) =? kAuthResultOk) with true. cbn [negb].
    assert (Hcap : Z.land cap kCapZlib = cap) by (unfold cap; by destruct compress). rewrite Hcap.
    rewrite run_server_write by (cbn; lia). rewrite run_client_read by (cbn; lia). cbn [app take drop].
    assert (Hb : byte_val (byte_of cap) = cap) by (unfold cap; by destruct compress). rewrite Hb.
    apply run_done.
  - rewrite bool_decide_eq_false_2.
    2:{ intros Hin. assert (allowedKeysContains (keys store) (raw_public k) = true); [|congruence].
        apply allowedKeysContains_spec. split; [apply raw_public_size|done]. }
    cbn [io_bind clientId attemptedVersion rejected]. rewrite decide_True by done.
    rewrite run_server_write by (cbn; lia). rewrite run_client_read by (cbn; lia). cbn [app take drop].
    change (byte_val (byte_of kAuthResultReject) =? kAuthResultOk) with false. cbn [negb].
    apply run_done.
Qed.

(** C8: only key holders get in: whatever a peer sends, the server accepts a
    session only under the hexadecimal of a listed 32-byte key for which the
    peer sent a valid signature of the prefix and this connection's own nonce,
    and grants no capability but compression. *)
Theorem auth_sound (store : AllowedClientsStore) (nonce : str) (answers : list (option str)) (a : AuthOutcome)
  (HE : exec (verifyClientAuth store (Some nonce)) answers = Some a) (HA : clientId a <> []) :
  exists pub sig,
    pub ∈ keys store /\ length pub = kAuthPubkeyLen /\ ed_verify pub (kAuthSignPrefixV2 ++ nonce) sig = true /\
    clientId a = hexEncode pub /\ (negotiatedCaps a = kCapNone \/ negotiatedCaps a = kCapZlib) /\
    (isV3 a = false -> negotiatedCaps a = kCapNone).
Proof.
  unfold verifyClientAuth in HE. destruct (decide (keys store = ∅)); [by injection HE as <-|].
  destruct answers as [|o answers]; [done|]. cbn [exec] in HE.
  assert (Hch : forall extra accept, exec (challenge (keys store) (Some nonce) extra accept) answers = Some a ->
    exists pub sig resp, pub ∈ keys store /\ length pub = kAuthPubkeyLen /\
      ed_verify pub (kAuthSignPrefixV2 ++ nonce) sig = true /\ a = accept pub resp).
  { intros extra accept H. cbn [challenge exec negb] in H. destruct answers as [|[resp|] answers]; [done| |by injection H as <-].
    destruct (allowedKeysContains _ _) eqn:Ha; cbn [negb] in H; [|by injection H as <-].
    destruct (ed_verify _ _ _) eqn:Hv; [|by injection H as <-]. injection H as <-.
    apply allowedKeysContains_spec in Ha as [Hl Ha]. by exists (take kAuthPubkeyLen resp), (substr resp kAuthPubkeyLen kAuthSignatureLen), resp. }
  destruct o as [[|v [|? ?]]|]; try (by injection HE as <-).
  destruct (byte_val v =? kAuthVersionV2); [|destruct (byte_val v =? kAuthVersionV3)].
  - apply Hch in HE as (pub & sig & resp & ? & ? & ? & ->). exists pub, sig. cbn. split_conj; auto.
  - apply Hch in HE as (pub & sig & resp & ? & ? & ? & ->). exists pub, sig. cbn [clientId negotiatedCaps isV3].
    split_conj; try done. unfold kCapZlib, kCapNone. change 1 with (Z.ones 1). rewrite Z.land_ones by lia.
    pose proof (Z.mod_pos_bound (byte_val (nth (kAuthPubkeyLen + kAuthSignatureLen) resp NUL)) (2 ^ 1) ltac:(lia)).
    change (Z.ones 1) with 1. lia.
  - by injection HE as <-.
Qed.

End AuthProps.

(** ** Registration by the administrator *)

Definition is_lower_hex (c : ascii) : bool := is_digit c || in_range "a" "f" c.

(** How the append to the allowed-keys file goes: no file is configured, it
    cannot be opened, the write fails after some bytes, or it succeeds. *)
Inductive Append := NoFile | OpenFails | WriteFails (written : str) | Appended.

Definition register_line (pubkeyHex nickname : str) : str :=
  pubkeyHex ++ (if decide (nickname = []) then [] else SP :: nickname).

(** The handler behind the rate limiter: status, store and file afterwards. *)
(* web_dashboard.cpp:3061-3152 client/register *)
Definition register_client (pubkeyHex nickname : str) (append : Append) (st : AllowedClientsStore) (file : str)
  : Z * AllowedClientsStore * str :=
  if negb (length pubkeyHex =? 64)%nat then (400, st, file)
  else if negb (forallb is_lower_hex pubkeyHex) then (400, st, file)
  else if (64 <? length nickname)%nat then (400, st, file)
  else if existsb (fun c => bool_decide (c = "|"%char) || (byte_val c <? 0x20)) nickname then (400, st, file)
  else
    let rawKey := decode_key pubkeyHex in
    if decide (rawKey ∈ keys st) then (409, st, file)
    else
      let st' := mkStore ({[rawKey]} ∪ keys st)
                   (if decide (nickname = []) then nicknames st else <[pubkeyHex := nickname]> (nicknames st)) in
      match append with
      | OpenFails => (500, st, file)
      | WriteFails written => (500, st, file ++ written)
      | NoFile => (200, st', file)
      | Appended => (200, st', file ++ register_line pubkeyHex nickname ++ [LF])
      end.

(** Lowercase digits survive decoding and encoding. *)
Definition lower_hex_digits : str := "0123456789abcdef".

Lemma is_lower_hex_in c : is_lower_hex c = true -> c ∈ lower_hex_digits.
Proof.
  assert (E : forallb (fun c => implb (is_lower_hex c) (bool_decide (c ∈ lower_hex_digits))) all_bytes = true)
    by (vm_compute; reflexivity).
  intros H. pose proof (byte_forall _ E c) as W. cbv beta in W. rewrite H in W. by apply bool_decide_eq_true in W.
Qed.

Lemma decode_pair h l :
  is_lower_hex h = true -> is_lower_hex l = true ->
  hexEncode [byte_of (Z.lor (Z.shiftl (key_nibble h) 4) (key_nibble l))] = [h; l].
Proof.
  assert (E : forallb (fun h => forallb (fun l =>
    bool_decide (hexEncode [byte_of (Z.lor (Z.shiftl (key_nibble h) 4) (key_nibble l))] = [h; l])) lower_hex_digits)
    lower_hex_digits = true) by (vm_compute; reflexivity).
  intros Hh%is_lower_hex_in Hl%is_lower_hex_in. rewrite forallb_Forall, Forall_forall in E. specialize (E _ Hh).
  rewrite forallb_Forall, Forall_forall in E. specialize (E _ Hl). by apply bool_decide_eq_true in E.
Qed.

Lemma hexEncode_cons c s : hexEncode (c :: s) = hexEncode [c] ++ hexEncode s.
Proof. reflexivity. Qed.

Lemma hexEncode_decode_key n s :
  length s = (2 * n)%nat -> forallb is_lower_hex s = true -> hexEncode (decode_key s) = s.
Proof.
  revert s. induction n as [|n IH]; intros s Hl Hs.
  - by destruct s.
  - destruct s as [|h [|l s]]; cbn in Hl; try lia. cbn [forallb] in Hs. bool_to_prop. cbn [decode_key].
    rewrite hexEncode_cons, decode_pair by done. rewrite IH; [done|lia|done].
Qed.

Lemma decode_key_length n s : length s = (2 * n)%nat -> length (decode_key s) = n.
Proof.
  revert s. induction n as [|n IH]; intros s Hl; [by destruct s|].
  destruct s as [|h [|l s]]; cbn in Hl; try lia. cbn. rewrite IH; lia.
Qed.

(** No blank at either end. *)
Definition trimmed (s : str) : Prop := stops blank s /\ stops blank (rev s).

Lemma register_line_ends pubkeyHex nickname :
  length pubkeyHex = 64%nat -> forallb is_lower_hex pubkeyHex = true ->
  existsb (fun c => bool_decide (c = "|"%char) || (byte_val c <? 0x20)) nickname = false ->
  forall c, (c ∈ register_line pubkeyHex nickname) -> c <> CR /\ c <> LF.
Proof.
  intros Hl Hh Hn c Hc. unfold register_line in Hc. apply elem_of_app in Hc as [Hc|Hc].
  - rewrite forallb_Forall, Forall_forall in Hh. specialize (Hh _ Hc). split; intros ->; done.
  - destruct (decide (nickname = [])); [by apply not_elem_of_nil in Hc|].
    apply elem_of_cons in Hc as [->|Hc]; [done|].
    assert (Hb : byte_val c <? 0x20 = false).
    { destruct (byte_val c <? 0x20) eqn:E; [|done]. rewrite <- Hn. symmetry. apply existsb_exists. exists c.
      rewrite E, orb_true_r. split; [by apply list_elem_of_In|done]. }
    split; intros ->; done.
Qed.

Lemma entry_key_line pubkeyHex nickname :
  length pubkeyHex = 64%nat -> forallb is_lower_hex pubkeyHex = true ->
  existsb (fun c => bool_decide (c = "|"%char) || (byte_val c <? 0x20)) nickname = false ->
  entry_key (register_line pubkeyHex nickname) = Some (decode_key pubkeyHex, register_line pubkeyHex nickname).
Proof.
  intros Hl Hh Hn. pose proof (register_line_ends _ _ Hl Hh Hn) as Hends. unfold entry_key.
  rewrite trim_back_id.
  2:{ destruct (rev (register_line pubkeyHex nickname)) as [|c r] eqn:E; [done|]. cbn.
      assert (Hc : c ∈ register_line pubkeyHex nickname).
      { rewrite <- (rev_involutive (register_line _ _)), E. cbn. apply elem_of_app. right. by left. }
      apply Hends in Hc as [H1 H2]. unfold char_in. apply bool_decide_eq_false. rewrite !elem_of_cons.
      intros [H|[H|H]]; [done|done|by apply not_elem_of_nil in H]. }
  assert (Htake : take 64 (register_line pubkeyHex nickname) = pubkeyHex) by (by apply take_length_app).
  assert (Hlen : (64 <= length (register_line pubkeyHex nickname))%nat)
    by (unfold register_line; rewrite length_app; lia).
  assert (Hnth : (64 <? length (register_line pubkeyHex nickname))%nat &&
                 negb (blank (nth 64 (register_line pubkeyHex nickname) NUL)) = false).
  { unfold register_line. rewrite length_app, app_nth2 by lia. rewrite Hl, Nat.sub_diag.
    destruct (decide (nickname = [])); [done|]. change (negb (blank (nth 0 (SP :: nickname) NUL))) with false.
    apply andb_false_r. }
  rewrite Htake, Hnth, (proj2 (Nat.ltb_ge _ _)) by lia.
  assert (Hfirst : match register_line pubkeyHex nickname with c :: _ => c <> "#"%char | [] => False end).
  { unfold register_line. destruct pubkeyHex as [|c p]; [done|]. cbn in Hh |- *. intros ->. done. }
  destruct (register_line pubkeyHex nickname) as [|c r]; [done|]. rewrite decide_False by done.
  assert (forallb is_hex_digit pubkeyHex = true) as ->; [|done].
  rewrite forallb_Forall in Hh |- *. eapply Forall_impl; [exact Hh|]. intros d Hd. cbv beta in Hd.
  unfold is_lower_hex, is_hex_digit in *. by rewrite Hd.
Qed.

Lemma parse_nickname_line pubkeyHex nickname :
  length pubkeyHex = 64%nat -> trimmed nickname -> (length nickname <= 64)%nat ->
  existsb (fun c => bool_decide (c = "|"%char) || (byte_val c <? 0x20)) nickname = false ->
  parse_nickname (register_line pubkeyHex nickname) = if decide (nickname = []) then None else Some nickname.
Proof.
  intros Hl [Ht1 Ht2] Hlen Hn. unfold parse_nickname, register_line. rewrite length_app, Hl.
  destruct (decide (nickname = [])) as [->|Hne]; [done|].
  rewrite (proj2 (Nat.ltb_lt _ _)) by (cbn; lia).
  assert (substr_from (pubkeyHex ++ SP :: nickname) 64 = SP :: nickname) as ->.
  { unfold substr_from. rewrite drop_length_app by done. done. }
  assert (trim_front blank (SP :: nickname) = nickname) as ->.
  { cbn. rewrite (trim_front_id _ _ Ht1). done. }
  rewrite trim_back_id by done. rewrite decide_False by done.
  rewrite (proj2 (Nat.ltb_ge _ _)) by lia. cbn [orb]. by rewrite Hn.
Qed.

(** The file ends with a newline, or is empty. *)
Definition complete (file : str) : Prop := (split_lines file).2 = [].

Lemma getlines_snoc file l : complete file -> LF ∉ l ->
  getlines (file ++ l ++ [LF]) = getlines file ++ [l] /\ complete (file ++ l ++ [LF]).
Proof.
  unfold complete, getlines. intros Hf Hl. rewrite split_lines_app.
  destruct (split_lines file) as [ls r]. cbn in Hf. subst r. cbn [app].
  rewrite (split_lines_line l []) by done. cbn. rewrite !app_nil_r. done.
Qed.

(** Registrations persist: when memory holds what the allowed-keys file says
    and the file ends in a newline, a registration that is answered with
    success adds exactly the decoded key and the nickname, and restarting from
    the file gives the same store again; any other answer leaves the store as
    it was. *)
Lemma register_persists (pubkeyHex nickname file file' : str) (append : Append) (st st' : AllowedClientsStore) (status : Z)
  (HF : complete file) (HS : loadAllowedKeys (Some file) = st) (HT : trimmed nickname) (HA : append <> NoFile)
  (HR : register_client pubkeyHex nickname append st file = (status, st', file')) :
  if status =? 200
  then keys st' = {[decode_key pubkeyHex]} ∪ keys st /\ length (decode_key pubkeyHex) = kAuthPubkeyLen /\
       hexEncode (decode_key pubkeyHex) = pubkeyHex /\ loadAllowedKeys (Some file') = st' /\ complete file'
  else st' = st.
Proof.
  unfold register_client in HR.
  destruct (Nat.eqb_spec (length pubkeyHex) 64) as [Hl|Hl]; cbn [negb] in HR; [|by injection HR as <- <- _].
  destruct (forallb is_lower_hex pubkeyHex) eqn:Hh; cbn [negb] in HR; [|by injection HR as <- <- _].
  destruct (Nat.ltb_spec 64 (length nickname)) as [Hk|Hk]; [by injection HR as <- <- _|].
  destruct (existsb _ nickname) eqn:Hn; [by injection HR as <- <- _|].
  destruct (decide (decode_key pubkeyHex ∈ keys st)); [by injection HR as <- <- _|].
  destruct append; [done|by injection HR as <- <- _|by injection HR as <- <- _|].
  injection HR as <- <- <-. cbn [Z.eqb Pos.eqb keys].
  assert (Hlf : LF ∉ register_line pubkeyHex nickname).
  { intros H. by apply (register_line_ends _ _ Hl Hh Hn) in H as [_ H]. }
  destruct (getlines_snoc file (register_line pubkeyHex nickname) HF Hlf) as [Hg Hcomp].
  pose proof (hexEncode_decode_key 32 pubkeyHex Hl Hh) as Hhex.
  split_conj; [done|by apply decode_key_length|done| |done].
  rewrite <- HS. unfold loadAllowedKeys. rewrite Hg, fold_left_app. cbn [fold_left]. unfold add_entry at 1.
  rewrite entry_key_line, parse_nickname_line by done. unfold key_hex. rewrite Hhex.
  by destruct (decide (nickname = [])).
Qed.

(** Without the final newline the new entry is glued to the last line, and
    after a restart neither of the two keys is known. *)
Lemma register_glued_example :
  let file : str := replicate 64 "a"%char in
  let st := loadAllowedKeys (Some file) in
  let '(status, st', file') := register_client (replicate 64 "b"%char) [] Appended st file in
  status = 200 /\ size (keys st') = 2%nat /\ size (keys (loadAllowedKeys (Some file'))) = 0%nat.
Proof. vm_compute. done. Qed.

(** ** Witnesses *)

(** A toy signature: key, message and length fit together. *)
#[export] Instance sample_ed25519 : Ed25519 := {
  PrivKey := str;
  raw_public k := take 32 (k ++ repeat NUL 32);
  ed_sign k m := Some (take 64 (take 32 (k ++ repeat NUL 32) ++ m ++ repeat NUL 64));
  ed_verify pub m s := bool_decide (s = take 64 (pub ++ m ++ repeat NUL 64))
}.

#[export] Instance sample_ed25519_laws : Ed25519Laws sample_ed25519.
Proof.
  split; cbn [raw_public ed_sign ed_verify sample_ed25519 PrivKey].
  - intros k. rewrite length_take, length_app, repeat_length. unfold kAuthPubkeyLen. lia.
  - intros k m. eexists. split; [done|]. rewrite length_take, !length_app, !repeat_length. unfold kAuthSignatureLen. lia.
  - intros k m s [= <-]. by apply bool_decide_eq_true.
Qed.

Definition sample_priv : PrivKey := ("k" : str).
Definition sample_nonce : str := repeat "n"%char 32.
Definition sample_store : AllowedClientsStore := mkStore {[ raw_public sample_priv ]} ∅.

Lemma sample_store_nonempty : keys sample_store <> ∅.
Proof. cbn. set_solver. Qed.

Lemma auth_agreement_witness :
  run_both 12 (performClientAuth "id.pem" (IdentityKey sample_priv) true) (auth_phase sample_store (Some sample_nonce)) [] []
  = Some (Ok (Some 1), Granted (mkAuth (pubkeyToIdHex (raw_public sample_priv)) 0 1 true)).
Proof.
  rewrite (auth_agreement sample_store "id.pem" sample_nonce sample_priv true);
    [|discriminate|reflexivity|exact sample_store_nonempty].
  unfold expected_outcome. rewrite bool_decide_eq_true_2; [done|]. cbn [keys sample_store]. set_solver.
Defined.

Definition sample_answers : list (option str) :=
  [Some [byte_of 3];
   Some (raw_public sample_priv ++ take 64 (raw_public sample_priv ++ (kAuthSignPrefixV2 ++ sample_nonce) ++ repeat NUL 64) ++ [byte_of 255])].

Lemma sample_exec :
  exec (verifyClientAuth sample_store (Some sample_nonce)) sample_answers
  = Some (mkAuth (hexEncode (raw_public sample_priv)) 0 1 true).
Proof. vm_compute. reflexivity. Qed.

Lemma auth_sound_witness :
  exists pub sig, pub ∈ keys sample_store /\ ed_verify pub (kAuthSignPrefixV2 ++ sample_nonce) sig = true /\
    hexEncode (raw_public sample_priv) = hexEncode pub.
Proof.
  destruct (auth_sound sample_store sample_nonce sample_answers _ sample_exec ltac:(vm_compute; discriminate))
    as (pub & sig & H1 & _ & H2 & H3 & _).
  exists pub, sig. by split_conj.
Defined.

Lemma register_persists_witness :
  let '(status, st', file') :=
    register_client (replicate 64 "b"%char) "office" Appended (loadAllowedKeys (Some (replicate 64 "a"%char ++ [LF])))
      (replicate 64 "a"%char ++ [LF]) in
  status = 200 /\ loadAllowedKeys (Some file') = st'.
Proof.
  destruct (register_client _ _ _ _ _) as [[status st'] file'] eqn:E.
  assert (status = 200) as ->.
  { change status with (status, st', file').1.1. rewrite <- E. vm_compute. reflexivity. }
  pose proof (register_persists (replicate 64 "b"%char) "office" (replicate 64 "a"%char ++ [LF]) file' Appended
                (loadAllowedKeys (Some (replicate 64 "a"%char ++ [LF]))) st' 200
                eq_refl eq_refl ltac:(split; vm_compute; reflexivity) ltac:(discriminate) E) as W.
  cbn [Z.eqb Pos.eqb] in W. split; [done|apply W].
Defined.
