(* ===== verification/WireLoop.v ===== *)
(** The server's session ([runWireDataLoop] and the lifetime around it in
    [connectionThread], [server_core.cpp]): received chunks become lines, lines
    update the shared state. The registry, control channels and update
    registry are the objects the server always creates; the address parser,
    hashing, the resolver's table and the inflater are parameters. *)

From S2P Require Import Prelude CppString Wire Health History TrafficStats Registry IpRange.

(* server_core.cpp:86-104 ServerConfig *)
Record WireConfig := mkWireConfig {
  max_recv_buffer_bytes : nat;
  max_iface_len : nat; max_ip_len : nat;
  idle_timeout_seconds : Z;
  max_d_lines_per_second_per_connection : Z
}.

(* proto_client_server.hpp:91-91 kMaxSessionSeconds *)
Definition kMaxSessionSeconds : Z := 6 * 3600.
(* proto_client_server.hpp:119-122 kHealthLinePrefix, kExtIPLinePrefix, kAddrLinePrefix, kExtIPNull *)
Definition kHealthLinePrefix : str := "H ".
Definition kExtIPLinePrefix : str := "X ".
Definition kAddrLinePrefix : str := "A ".
Definition kExtIPNull : str := "null".
(* proto_client_server.hpp:127-127 kLogRespLinePrefix *)
Definition kLogRespLinePrefix : str := "L ".
(* proto_client_server.hpp:137-137 kMaxAnnounceAddressesPerSession *)
Definition kMaxAnnounceAddressesPerSession : nat := 64.
(* proto_client_server.hpp:140-140 kAnnounceRateLimitSec *)
Definition kAnnounceRateLimitSec : Z := 30.

(** A reading of both clocks: the steady clock in nanoseconds, the system clock
    in seconds. *)
Record Clock := mkClock { steady : Z; epoch : Z }.
Definition seconds (ns : Z) : Z := Z.quot ns 1000000000.

(** What all connections share. *)
Record Shared := mkShared {
  registry : ClientRegistry.t;
  stats : TrafficStats;
  resolver : option Resolver;
  ctrlChannels : ControlChannels.t;
  updateRegistry : UpdateRegistry.t
}.

Definition set_registry (r : ClientRegistry.t) (w : Shared) : Shared :=
  mkShared r (stats w) (resolver w) (ctrlChannels w) (updateRegistry w).

(** The loop's local variables, the receive buffer apart. *)
(* server_core.cpp:1293-1310 runWireDataLoop, locals *)
Record Session := mkSession {
  announcedCount : nat;
  localExternalIp : str;
  lastXLineSec : Z;
  localRegSnap : gmap str str;
  lastRegRefresh : Z;
  lastActivity : Z;
  lastDLineSecond : Z;
  dLineCountThisSecond : Z;
  ifaceRejectedInThisSession : Z
}.

Definition session_init (w : Shared) (refreshed active : Clock) : Session :=
  mkSession 0 kExtIPNull (-1) (ClientRegistry.ipToClientId (registry w)) (steady refreshed) (steady active) (-1) 0 0.

Section Loop.
Context `{IN : Inet} `{SH : StdHash}.
Variables (config : WireConfig) (clientId clientIp : str).

Definition trim_value (line : str) : str := trim_back (char_in [CR; SP]) (substr_from line 2).

(** *** X-lines *)

Definition valid_ext_ip (ip : str) : bool :=
  bool_decide (ip = kExtIPNull) ||
  match inet_pton4 (c_str ip), inet_pton6 (c_str ip) with None, None => false | _, _ => true end.

(* server_core.cpp:1369-1413 runWireDataLoop, X-line *)
Definition x_line (t : Clock) (line : str) (w : Shared) (s : Session) : Shared * Session :=
  let nowSecX := seconds (steady t) in
  if kAnnounceRateLimitSec <=? nowSecX - lastXLineSec s then
    let extIp := trim_value line in
    if valid_ext_ip extIp then
      let r := registry w in
      let kept := filter (fun kv => kv.2 <> clientId) (ClientRegistry.ipToClientId r) in
      let ips := if decide (clientIp = []) then kept else <[clientIp := clientId]> kept in
      (set_registry (ClientRegistry.mk ips (<[clientId := extIp]> (ClientRegistry.clientToExternalIp r))
         (ClientRegistry.clientHealth r) (ClientRegistry.protoRejections r)) w,
       mkSession 0 extIp nowSecX ips (steady t) (lastActivity s) (lastDLineSecond s)
         (dLineCountThisSecond s) (ifaceRejectedInThisSession s))
    else (w, s)
  else (w, s).

(** *** A-lines *)

(* server_core.cpp:1414-1434 runWireDataLoop, A-line *)
Definition a_line (line : str) (w : Shared) (s : Session) : Shared * Session :=
  if (announcedCount s <? kMaxAnnounceAddressesPerSession)%nat then
    let ip := trim_value line in
    if negb (bool_decide (ip = [])) && (length ip <=? max_ip_len config)%nat && isLanIP ip then
      let r := registry w in
      (set_registry (ClientRegistry.mk (<[ip := clientId]> (ClientRegistry.ipToClientId r))
         (ClientRegistry.clientToExternalIp r) (ClientRegistry.clientHealth r)
         (ClientRegistry.protoRejections r)) w,
       mkSession (S (announcedCount s)) (localExternalIp s) (lastXLineSec s)
         (<[ip := clientId]> (localRegSnap s)) (lastRegRefresh s) (lastActivity s) (lastDLineSecond s)
         (dLineCountThisSecond s) (ifaceRejectedInThisSession s))
    else (w, s)
  else (w, s).

(** *** D-lines *)

(* server_core.cpp:1456-1464 runWireDataLoop, entityForIp *)
Definition entityForIp (w : Shared) (s : Session) (ip : str) : str :=
  if isLanIP ip then
    match localRegSnap s !! ip with
    | Some c => c
    | None => "@[" ++ localExternalIp s ++ "]:" ++ ip
    end
  else match resolver w with
       | Some r => entityFor r ip
       | None => kUnknownEntity ++ SP :: ip
       end.

(* server_core.cpp:1451-1455 runWireDataLoop, countries *)
Definition countryForIp (w : Shared) (ip : str) : str :=
  match resolver w with Some r => countryFor r ip | None => kUnknownCountry end.

(** The D-line counter of the current second, this line included. *)
(* server_core.cpp:1441-1448 runWireDataLoop, rate counter *)
Definition count_d_line (nowSec : Z) (s : Session) : Session :=
  let c := if nowSec =? lastDLineSecond s then dLineCountThisSecond s else 0 in
  mkSession (announcedCount s) (localExternalIp s) (lastXLineSec s) (localRegSnap s) (lastRegRefresh s)
    (lastActivity s) nowSec (c + 1) (ifaceRejectedInThisSession s).

(* server_core.cpp:1451-1468 runWireDataLoop, packet attributes *)
Definition packet_args (w : Shared) (s : Session) (m : PacketMeta) : PacketArgs :=
  mkArgs clientId (pm_iface m) (pm_srcIp m) (pm_dstIp m) (countryForIp w (pm_srcIp m))
    (countryForIp w (pm_dstIp m)) (entityForIp w s (pm_srcIp m)) (entityForIp w s (pm_dstIp m)) (pm_bytes m).

(** [None] when [addPacket] is undefined. *)
(* server_core.cpp:1435-1484 runWireDataLoop, D-line *)
Definition d_line (t : Clock) (line : str) (w : Shared) (s : Session) : option (Shared * Session) :=
  match parseDataLine (substr_from line 2) (max_iface_len config) (max_ip_len config) with
  | None => Some (w, s)
  | Some m =>
      let s := count_d_line (seconds (steady t)) s in
      if max_d_lines_per_second_per_connection config <? dLineCountThisSecond s then Some (w, s)
      else
        let? (stats', res) := ts_addPacket (packet_args w s m) (epoch t) (stats w) in
        let w := mkShared (registry w) stats' (resolver w) (ctrlChannels w) (updateRegistry w) in
        match res with
        | IfaceCapExceeded =>
            Some (w, mkSession (announcedCount s) (localExternalIp s) (lastXLineSec s) (localRegSnap s)
              (lastRegRefresh s) (lastActivity s) (lastDLineSecond s) (dLineCountThisSecond s)
              (u64 (ifaceRejectedInThisSession s + 1)))
        | Accepted => Some (w, s)
        end
  end.

(** *** H-lines *)

(* server_core.cpp:1485-1495 runWireDataLoop, H-line *)
Definition h_line (t : Clock) (line : str) (w : Shared) : Shared :=
  let hs := set_reportedAtSec (epoch t) (parseHealthLine (substr_from line 2)) in
  let r := registry w in
  set_registry (ClientRegistry.mk (ClientRegistry.ipToClientId r) (ClientRegistry.clientToExternalIp r)
    (<[clientId := hs]> (ClientRegistry.clientHealth r)) (ClientRegistry.protoRejections r)) w.

(** *** L-lines *)

Definition cut_word (s : str) : str * str :=
  match find_char SP s with None => (s, []) | Some i => (substr s 0 i, substr_from s (S i)) end.

(** The registry call for a verb: stage, error, new version, terminal. *)
(* server_core.cpp:1517-1540 runWireDataLoop, update verbs *)
Definition upd_verb (verb arg : str) : option (str * str * str * bool) :=
  if decide (verb = "ack") then Some (("ack" : str), [], [], false)
  else if decide (verb = "stage") then Some (arg, [], [], false)
  else if decide (verb = "noop") then Some ("noop_" ++ arg, [], [], true)
  else if decide (verb = "done") then Some (("done" : str), [], arg, true)
  else if decide (verb = "err") then
    let (errStage, errMsg) := cut_word arg in Some ("err_" ++ errStage, errMsg, [], true)
  else None.

(* server_core.cpp:1496-1550 runWireDataLoop, L-line *)
Definition l_line (t : Clock) (line : str) (w : Shared) : Shared :=
  let lBody := substr_from line 2 in
  if starts_with "upd " lBody then
    let rest := substr_from lBody 4 in
    match find_char SP rest with
    | None => w
    | Some sp1 =>
        let reqId := substr rest 0 sp1 in
        let tail := trim_back (char_in [LF; CR]) (substr_from rest (S sp1)) in
        let (verb, arg) := cut_word tail in
        match upd_verb verb arg with
        | None => w
        | Some (stage, error, newVersion, terminal) =>
            mkShared (registry w) (stats w) (resolver w) (ctrlChannels w)
              (UpdateRegistry.applyUpdLine (updateRegistry w) clientId reqId stage error newVersion terminal (steady t)).1
        end
    end
  else
    mkShared (registry w) (stats w) (resolver w)
      (alter (fun ch => CtrlChannel.routeLLine ch lBody) clientId (ctrlChannels w)) (updateRegistry w).

(** *** Lines *)

(* server_core.cpp:1369-1550 runWireDataLoop, line dispatch *)
Definition handle_line (t : Clock) (line : str) (ws : Shared * Session) : option (Shared * Session) :=
  let (w, s) := ws in
  if starts_with kExtIPLinePrefix line then Some (x_line t line w s)
  else if starts_with kAddrLinePrefix line then Some (a_line line w s)
  else if starts_with "D " line then d_line t line w s
  else if starts_with kHealthLinePrefix line then Some (h_line t line w, s)
  else if starts_with kLogRespLinePrefix line then Some (l_line t line w, s)
  else Some (w, s).

(** *** The loop *)

(** Decompression: the state of an inflater and its step, [None] on corrupt
    input. *)
Class Inflater := { ZState : Type; z_feed : ZState -> str -> option (ZState * str) }.

(* server_core.cpp:1324-1334 runWireDataLoop, registry refresh *)
Definition refresh (now : Clock) (ws : Shared * Session) : Shared * Session :=
  let (w, s) := ws in
  if 5 <=? seconds (steady now - lastRegRefresh s) then
    (w, mkSession (announcedCount s)
          (default (localExternalIp s) (ClientRegistry.clientToExternalIp (registry w) !! clientId))
          (lastXLineSec s) (ClientRegistry.ipToClientId (registry w)) (steady now) (lastActivity s)
          (lastDLineSecond s) (dLineCountThisSecond s) (ifaceRejectedInThisSession s))
  else (w, s).

Definition touch_activity (now : Clock) (ws : Shared * Session) : Shared * Session :=
  let (w, s) := ws in
  (w, mkSession (announcedCount s) (localExternalIp s) (lastXLineSec s) (localRegSnap s) (lastRegRefresh s)
        (steady now) (lastDLineSecond s) (dLineCountThisSecond s) (ifaceRejectedInThisSession s)).

(** What [recvFn] answers: a timeout, bytes, or a disconnect. *)
Inductive Recv := Retry | Data (bytes : str) | Gone.

(** Lines of one chunk in order; line [i] reads the clocks as [clk i]. *)
Fixpoint handle_lines (ls : list str) (clk : nat -> Clock) (ws : Shared * Session)
  : option (Shared * Session) :=
  match ls with
  | l :: ls => let? ws := handle_line (clk 0%nat) l ws in handle_lines ls (fun i => clk (S i)) ws
  | [] => Some ws
  end.

(** The loop goes on, ends, or runs into undefined behaviour. *)
Inductive Outcome {IF : Inflater} :=
| Continue (ws : Shared * Session) (z : option ZState) (buffer : str)
| Stop (ws : Shared * Session)
| Undefined.
Arguments Outcome : clear implicits.

(** One round: whether [g_running] still holds, the clock at its top, what was
    received, and the clock readings of the lines it completes. *)
(* server_core.cpp:1311-1554 runWireDataLoop *)
Definition loop_round {IF : Inflater} (sessionStart : Z) (g_running : bool) (now : Clock) (rv : Recv) (clk : nat -> Clock)
  (ws : Shared * Session) (z : option ZState) (buffer : str) : Outcome IF :=
  if negb g_running then Stop ws else
  let elapsed := seconds (steady now - sessionStart) in
  let elapsed := if elapsed <? 0 then 0 else elapsed in
  if kMaxSessionSeconds <=? elapsed then Stop ws
  else if idle_timeout_seconds config <=? seconds (steady now - lastActivity ws.2) then Stop ws
  else
    let ws := refresh now ws in
    match rv with
    | Retry => Continue ws z buffer
    | Gone => Stop ws
    | Data bytes =>
        let ws := touch_activity now ws in
        match (match z with
               | Some st => let? (st, out) := z_feed st bytes in Some (Some st, out)
               | None => Some (None, bytes)
               end) with
        | None => Stop ws
        | Some (z, out) =>
            let buffer := buffer ++ out in
            if (max_recv_buffer_bytes config <? length buffer)%nat then Stop ws
            else
              let (ls, rest) := split_lines buffer in
              match handle_lines ls clk ws with
              | None => Undefined
              | Some ws => Continue ws z rest
              end
        end
    end.

(** *** A session's lifetime *)

(* server_core.cpp:1702-1730 connectionThread, registration *)
Definition session_start (w : Shared) : Shared :=
  let r := registry w in
  let w := mkShared r (stats w) (resolver w) (ControlChannels.add (ctrlChannels w) clientId CtrlChannel.new)
             (updateRegistry w) in
  if decide (clientIp = []) then w
  else set_registry (ClientRegistry.mk (<[clientIp := clientId]> (ClientRegistry.ipToClientId r))
         (ClientRegistry.clientToExternalIp r) (ClientRegistry.clientHealth r)
         (ClientRegistry.protoRejections r)) w.

(** The guards' destructors. *)
(* server_core.cpp:1695-1721 connectionThread, RegistryCleanup, CtrlChannelCleanup *)
Definition session_end (w : Shared) : Shared :=
  mkShared (ClientRegistry.removeClient (registry w) clientId) (stats w) (resolver w)
    (ControlChannels.remove (ctrlChannels w) clientId) (updateRegistry w).

(** ** Lemmas *)

(** *** The loop handles the lines of the byte stream *)

(** What a session does, one by one. *)
Inductive Act := ALine (t : Clock) (line : str) | ARefresh (now : Clock) | ATouch (now : Clock).

Definition exec_act (ws : Shared * Session) (a : Act) : option (Shared * Session) :=
  match a with
  | ALine t line => handle_line t line ws
  | ARefresh now => Some (refresh now ws)
  | ATouch now => Some (touch_activity now ws)
  end.

Fixpoint exec_acts (l : list Act) (ws : Shared * Session) : option (Shared * Session) :=
  match l with
  | [] => Some ws
  | a :: l => let? ws := exec_act ws a in exec_acts l ws
  end.

Definition act_line (a : Act) : list str := match a with ALine _ l => [l] | _ => [] end.

Lemma exec_acts_app l1 l2 ws :
  exec_acts (l1 ++ l2) ws = let? ws := exec_acts l1 ws in exec_acts l2 ws.
Proof.
  revert ws. induction l1 as [|a l1 IH]; intros ws; cbn; [done|]. by destruct (exec_act ws a).
Qed.

Lemma handle_lines_acts ls clk ws ws' :
  handle_lines ls clk ws = Some ws' ->
  exists l, exec_acts l ws = Some ws' /\ concat (act_line <$> l) = ls.
Proof.
  revert clk ws. induction ls as [|x ls IH]; intros clk ws H; cbn in H.
  - exists []. by injection H as ->.
  - destruct (handle_line (clk 0%nat) x ws) as [ws1|] eqn:E; [|done].
    apply IH in H as (l & H1 & H2). exists (ALine (clk 0%nat) x :: l). cbn. rewrite E, H1. by rewrite H2.
Qed.

Context {IF : Inflater}.

(** A round's inputs. *)
Record Round := mkRound { rd_running : bool; rd_now : Clock; rd_recv : Recv; rd_clk : nat -> Clock }.

Fixpoint run (sessionStart : Z) (rs : list Round) (ws : Shared * Session) (z : option ZState) (buffer : str)
  : Outcome IF :=
  match rs with
  | [] => Continue ws z buffer
  | r :: rs =>
      match loop_round sessionStart (rd_running r) (rd_now r) (rd_recv r) (rd_clk r) ws z buffer with
      | Continue ws z buffer => run sessionStart rs ws z buffer
      | o => o
      end
  end.

(** The text a sequence of received chunks stands for. *)
Fixpoint decode (z : option ZState) (cs : list str) : option (str * option ZState) :=
  match cs with
  | [] => Some ([], z)
  | c :: cs =>
      match z with
      | None => let? (out, z) := decode None cs in Some (c ++ out, z)
      | Some st =>
          let? (st, out) := z_feed st c in
          let? (outs, z) := decode (Some st) cs in Some (out ++ outs, z)
      end
  end.

Definition received (rs : list Round) : list str :=
  omap (fun r => match rd_recv r with Data b => Some b | _ => None end) rs.

Lemma decode_app z a b :
  decode z (a ++ b) =
    let? (t1, z1) := decode z a in let? (t2, z2) := decode z1 b in Some (t1 ++ t2, z2).
Proof.
  revert z. induction a as [|c a IH]; intros z; cbn.
  - by destruct (decode z b) as [[? ?]|].
  - destruct z as [st|].
    + destruct (z_feed st c) as [[st' out]|]; [|done]. rewrite IH.
      destruct (decode (Some st') a) as [[t1 z1]|]; [|done].
      destruct (decode z1 b) as [[t2 z2]|]; [|done]. by rewrite app_assoc.
    + rewrite IH. destruct (decode None a) as [[t1 z1]|]; [|done].
      destruct (decode z1 b) as [[t2 z2]|]; [|done]. by rewrite app_assoc.
Qed.

Lemma loop_round_acts sessionStart r ws z buffer ws' z' rest :
  LF ∉ buffer ->
  loop_round sessionStart (rd_running r) (rd_now r) (rd_recv r) (rd_clk r) ws z buffer = Continue ws' z' rest ->
  exists text l, decode z (received [r]) = Some (text, z') /\ exec_acts l ws = Some ws' /\
    (concat (act_line <$> l), rest) = split_lines (buffer ++ text).
Proof.
  intros HB. unfold loop_round, received. cbn [omap list_omap].
  destruct (negb _); [done|]. destruct (kMaxSessionSeconds <=? _); [done|].
  destruct (idle_timeout_seconds config <=? _); [done|].
  destruct (rd_recv r) as [|bytes|]; [|intros H|done].
  - intros [= <- <- <-]. exists [], [ARefresh (rd_now r)]. rewrite app_nil_r, split_lines_noLF by done. done.
  - destruct (match z with Some st => _ | None => _ end) as [[z1 out]|] eqn:Ez; [|done].
    case_match_hyp H; [done|]. destruct (split_lines (buffer ++ out)) as [ls rest1] eqn:Es.
    destruct (handle_lines ls (rd_clk r) _) as [ws1|] eqn:Eh; [|done]. injection H as <- <- <-.
    apply handle_lines_acts in Eh as (l & Hl & Hc).
    exists out, (ARefresh (rd_now r) :: ATouch (rd_now r) :: l). cbn [exec_acts exec_act fmap list_fmap concat act_line app].
    rewrite Hc, Es. split_conj; [|done|done]. cbn [decode]. destruct z as [st|].
    + destruct (z_feed st bytes) as [[st' o]|]; [|done]. injection Ez as <- <-. by rewrite app_nil_r.
    + injection Ez as <- <-. by rewrite app_nil_r.
Qed.

Lemma run_acts (sessionStart : Z) (rs : list Round) (ws ws' : Shared * Session)
  (z z' : option ZState) (buffer rest : str)
  (HB : LF ∉ buffer)
  (HR : run sessionStart rs ws z buffer = Continue ws' z' rest) :
  exists text l,
    decode z (received rs) = Some (text, z') /\
    exec_acts l ws = Some ws' /\
    (concat (act_line <$> l), rest) = split_lines (buffer ++ text).
Proof.
  revert ws z buffer HB HR. induction rs as [|r rs IH]; intros ws z buffer HB HR; cbn [run] in HR.
  - injection HR as <- <- <-. exists [], []. rewrite app_nil_r, split_lines_noLF by done. done.
  - destruct (loop_round _ _ _ _ _ _ _ _) as [ws1 z1 b1| |] eqn:Er; [|done|done].
    apply loop_round_acts in Er as (t1 & l1 & D1 & X1 & S1); [|done].
    destruct (IH ws1 z1 b1) as (t2 & l2 & D2 & X2 & S2); [|done|].
    { symmetry in S1. by apply split_lines_spec in S1 as (_ & _ & ?). }
    exists (t1 ++ t2), (l1 ++ l2). split_conj.
    + change (r :: rs) with ([r] ++ rs). unfold received. rewrite omap_app. fold (received [r]) (received rs).
      by rewrite decode_app, D1, D2.
    + by rewrite exec_acts_app, X1.
    + by rewrite app_assoc, split_lines_app, <- S1, <- S2, fmap_app, concat_app.
Qed.

(** C1: the session handles exactly the lines of the received byte stream, each
    once and in order, however the stream was cut into chunks and whether or
    not it is compressed: after any rounds without a disconnect the effect is
    that of the complete lines so far, with only clock-driven refreshes in
    between, and the buffer holds the unfinished line. *)
Theorem wire_lines_refine (sessionStart : Z) (rs : list Round) (ws ws' : Shared * Session)
  (z z' : option ZState) (buffer rest : str)
  (HB : LF ∉ buffer)
  (HR : run sessionStart rs ws z buffer = Continue ws' z' rest) :
  exists text l,
    decode z (received rs) = Some (text, z') /\
    exec_acts l ws = Some ws' /\
    (concat (act_line <$> l), rest) = split_lines (buffer ++ text).
Proof. by apply run_acts with sessionStart. Qed.

(** *** The rate limit *)

(** A D-line that parses. *)
Definition good_d_line (l : str) : Prop :=
  starts_with "D " l = true /\ parseDataLine (substr_from l 2) (max_iface_len config) (max_ip_len config) <> None.

Lemma handle_d_line t l ws :
  starts_with "D " l = true -> handle_line t l ws = d_line t l ws.1 ws.2.
Proof.
  intros H. pose proof H as H'. apply starts_with_spec in H' as [r ->]. destruct ws. unfold handle_line.
  by rewrite H.
Qed.

(** Good D-lines already counted in this second. *)
Definition counted (sec : Z) (s : Session) : Z :=
  if sec =? lastDLineSecond s then dLineCountThisSecond s else 0.

Lemma d_line_good t l w s :
  good_d_line l ->
  match d_line t l w s with
  | Some (w', s') =>
      counted (seconds (steady t)) s' = counted (seconds (steady t)) s + 1 /\
      (max_d_lines_per_second_per_connection config <= counted (seconds (steady t)) s -> w' = w)
  | None => counted (seconds (steady t)) s < max_d_lines_per_second_per_connection config
  end.
Proof.
  intros [_ Hp]. unfold d_line. destruct (parseDataLine _ _ _) as [m|]; [|done].
  fold (counted (seconds (steady t)) s).
  assert (Hc : forall s', lastDLineSecond s' = seconds (steady t) ->
    counted (seconds (steady t)) s' = dLineCountThisSecond s').
  { intros s' <-. unfold counted. by rewrite Z.eqb_refl. }
  cbn [count_d_line dLineCountThisSecond]. fold (counted (seconds (steady t)) s).
  destruct (_ <? counted _ s + 1) eqn:E; bool_to_prop; [by rewrite Hc|].
  destruct (ts_addPacket _ _ _) as [[st res]|]; [|lia].
  destruct res; (rewrite Hc by done; cbn; split; [done|lia]).
Qed.

(** The rate limit: of the well-formed D-lines of one second only the first
    ones, up to the limit, have any effect on the shared state; the rest change
    nothing. *)
Lemma d_line_rate_limit (sec : Z) (ls : list str) (clk : nat -> Clock) (w : Shared) (s : Session)
  (w' : Shared) (s' : Session)
  (HL : Forall good_d_line ls)
  (HC : forall i, seconds (steady (clk i)) = sec)
  (HR : handle_lines ls clk (w, s) = Some (w', s')) :
  let allowed := Z.to_nat (max_d_lines_per_second_per_connection config - counted sec s) in
  exists s'', handle_lines (take allowed ls) clk (w, s) = Some (w', s'').
Proof.
  cbn zeta. revert clk HC w s HR. induction ls as [|l ls IH]; intros clk HC w s HR.
  - rewrite take_nil. by eexists.
  - apply Forall_cons in HL as [Hl HL]. cbn [handle_lines] in HR. rewrite handle_d_line in HR by apply Hl. cbn [fst snd] in HR.
    pose proof (d_line_good (clk 0%nat) l w s Hl) as H. rewrite HC in H.
    destruct (d_line (clk 0%nat) l w s) as [[w1 s1]|] eqn:E; [|done]. destruct H as [H1 H2].
    destruct (IH HL (fun i => clk (S i)) (fun i => HC (S i)) w1 s1 HR) as [s2 Hs2]. rewrite H1 in Hs2.
    destruct (Z.to_nat (max_d_lines_per_second_per_connection config - counted sec s)) as [|k] eqn:Ek.
    + rewrite H2 in Hs2 by lia. replace (Z.to_nat _) with 0%nat in Hs2 by lia. cbn in Hs2.
      injection Hs2 as -> _. cbn. by eexists.
    + cbn [take handle_lines]. rewrite handle_d_line by apply Hl. cbn [fst snd]. rewrite E. exists s2.
      replace k with (Z.to_nat (max_d_lines_per_second_per_connection config - (counted sec s + 1))) by lia. done.
Qed.

(** *** Isolation of sessions *)

(** What belongs to other clients is the same, and no address becomes theirs;
    this client may claim addresses that were theirs. *)
Definition others_kept (w w' : Shared) : Prop :=
  (forall c, c <> clientId ->
     ClientRegistry.clientToExternalIp (registry w') !! c = ClientRegistry.clientToExternalIp (registry w) !! c /\
     ClientRegistry.clientHealth (registry w') !! c = ClientRegistry.clientHealth (registry w) !! c /\
     ctrlChannels w' !! c = ctrlChannels w !! c /\ updateRegistry w' !! c = updateRegistry w !! c) /\
  (forall ip c, c <> clientId -> ClientRegistry.ipToClientId (registry w') !! ip = Some c ->
     ClientRegistry.ipToClientId (registry w) !! ip = Some c) /\
  resolver w' = resolver w.

Lemma others_refl w : others_kept w w.
Proof. unfold others_kept. split_conj; auto. Qed.

Lemma others_trans w1 w2 w3 : others_kept w1 w2 -> others_kept w2 w3 -> others_kept w1 w3.
Proof.
  intros (A1 & B1 & C1) (A2 & B2 & C2). unfold others_kept. split_conj; [|eauto|congruence].
  intros c Hc. destruct (A1 c Hc) as (? & ? & ? & ?), (A2 c Hc) as (? & ? & ? & ?). split_conj; congruence.
Qed.

Lemma x_line_others t l w s : others_kept w (x_line t l w s).1.
Proof.
  unfold x_line. destruct (_ <=? _); [|apply others_refl]. destruct (valid_ext_ip _); [|apply others_refl].
  unfold others_kept. cbn. split_conj; [|intros ip c Hc|done].
  - intros c Hc. by rewrite lookup_insert_ne.
  - destruct (decide (clientIp = [])).
    + intros H. by apply map_lookup_filter_Some in H as [H _].
    + rewrite lookup_insert_Some. intros [[_ H]|[_ H]]; [congruence|].
      by apply map_lookup_filter_Some in H as [H _].
Qed.

Lemma a_line_others l w s : others_kept w (a_line l w s).1.
Proof.
  unfold a_line. destruct (_ <? _)%nat; [|apply others_refl]. destruct (_ && _); [|apply others_refl].
  unfold others_kept. cbn. split_conj; [done|intros ip c Hc|done].
  rewrite lookup_insert_Some. intros [[_ H]|[_ H]]; [congruence|done].
Qed.

Lemma d_line_others t l w s ws : d_line t l w s = Some ws -> others_kept w ws.1.
Proof.
  unfold d_line. destruct (parseDataLine _ _ _); [|intros [= <-]; apply others_refl].
  destruct (_ <? _); [intros [= <-]; apply others_refl|].
  destruct (ts_addPacket _ _ _) as [[st []]|]; [| |done]; intros [= <-]; unfold others_kept; cbn; split_conj; done.
Qed.

Lemma h_line_others t l w : others_kept w (h_line t l w).
Proof.
  unfold others_kept, h_line. cbn. split_conj; [|done|done]. intros c Hc. by rewrite lookup_insert_ne.
Qed.

Lemma l_line_others t l w : others_kept w (l_line t l w).
Proof.
  unfold l_line. destruct (starts_with _ _).
  - destruct (find_char _ _); [|apply others_refl]. destruct (cut_word _) as [verb arg].
    destruct (upd_verb verb arg) as [[[[st er] nv] tm]|]; [|apply others_refl].
    unfold others_kept. cbn. split_conj; [|done|done]. intros c Hc. split_conj; try done.
    unfold UpdateRegistry.applyUpdLine. destruct (updateRegistry w !! clientId); [|done].
    case_decide; [done|]. cbn. by rewrite lookup_insert_ne.
  - unfold others_kept. cbn. split_conj; [|done|done]. intros c Hc. by rewrite lookup_alter_ne.
Qed.

Lemma exec_act_others a ws ws' : exec_act ws a = Some ws' -> others_kept ws.1 ws'.1.
Proof.
  destruct a as [t l|now|now], ws as [w s]; cbn [exec_act].
  - unfold handle_line.
    destruct (starts_with kExtIPLinePrefix l); [intros [= <-]; apply x_line_others|].
    destruct (starts_with kAddrLinePrefix l); [intros [= <-]; apply a_line_others|].
    destruct (starts_with "D " l); [apply d_line_others|].
    destruct (starts_with kHealthLinePrefix l); [intros [= <-]; apply h_line_others|].
    destruct (starts_with kLogRespLinePrefix l); intros [= <-]; [apply l_line_others|apply others_refl].
  - unfold refresh. destruct (_ <=? _); intros [= <-]; apply others_refl.
  - intros [= <-]. apply others_refl.
Qed.

Lemma exec_acts_others l ws ws' : exec_acts l ws = Some ws' -> others_kept ws.1 ws'.1.
Proof.
  revert ws. induction l as [|a l IH]; intros ws H; cbn [exec_acts] in H.
  - injection H as ->. apply others_refl.
  - destruct (exec_act ws a) as [ws1|] eqn:E; [|done]. apply exec_act_others in E.
    eapply others_trans; [exact E|by apply IH].
Qed.

Lemma session_start_others w : others_kept w (session_start w).
Proof.
  unfold session_start, others_kept, ControlChannels.add. destruct (decide (clientIp = [])); cbn.
  - split_conj; [|done|done]. intros c Hc. by rewrite lookup_insert_ne.
  - split_conj; [|intros ip c Hc|done].
    + intros c Hc. by rewrite lookup_insert_ne.
    + rewrite lookup_insert_Some. intros [[_ H]|[_ H]]; [congruence|done].
Qed.

Lemma session_end_others w : others_kept w (session_end w).
Proof.
  unfold session_end, others_kept, ControlChannels.remove. cbn. split_conj; [|intros ip c Hc|done].
  - intros c Hc. destruct (ClientRegistry.removeClient_other (registry w) clientId c [] Hc) as (_ & -> & ->).
    by rewrite lookup_delete_ne.
  - by apply ClientRegistry.removeClient_other.
Qed.

(** A session is isolated and leaves no trace: whatever lines the client sent
    between its start and its end, afterwards nothing in the registry or the
    control channels refers to the client, and every other client's external
    address, health, channel and update status are what they were, no address
    having become attributed to another client. *)
Lemma session_leaves_no_trace (w w' : Shared) (s s' : Session) (l : list Act)
  (HC : clientId <> [])
  (HR : exec_acts l (session_start w, s) = Some (w', s')) :
  let w'' := session_end w' in
  ClientRegistry.forgotten (registry w'') clientId /\ ctrlChannels w'' !! clientId = None /\
  others_kept w w''.
Proof.
  cbn zeta. split_conj.
  - by apply ClientRegistry.removeClient_forgets.
  - apply lookup_delete_eq.
  - eapply others_trans; [apply session_start_others|].
    eapply others_trans; [exact (exec_acts_others _ _ _ HR)|apply session_end_others].
Qed.

(** *** Announced addresses are few and local *)

(** The addresses attributed to the client. *)
Definition claimed (w : Shared) : gmap str str :=
  filter (fun kv => kv.2 = clientId) (ClientRegistry.ipToClientId (registry w)).

(** Steps of the session, and of other sessions and threads, which give this
    client no address. *)
Inductive session_step : Shared * Session -> Shared * Session -> Prop :=
| session_act a ws ws' : exec_act ws a = Some ws' -> session_step ws ws'
| session_env w w' s : claimed w' ⊆ claimed w -> session_step (w, s) (w', s).

Definition announce_inv (ws : Shared * Session) : Prop :=
  (size (claimed ws.1) <= S (announcedCount ws.2))%nat /\
  (announcedCount ws.2 <= kMaxAnnounceAddressesPerSession)%nat /\
  forall ip, is_Some (claimed ws.1 !! ip) -> ip = clientIp \/ isLanIP ip = true.

Lemma claimed_insert w ip r :
  ClientRegistry.ipToClientId r = <[ip := clientId]> (ClientRegistry.ipToClientId (registry w)) ->
  claimed (set_registry r w) = <[ip := clientId]> (claimed w).
Proof. intros H. unfold claimed. cbn. rewrite H. by rewrite map_filter_insert_True. Qed.

Lemma size_insert_S (m : gmap str str) k v : (size (<[k := v]> m) <= S (size m))%nat.
Proof. rewrite map_size_insert. destruct (m !! k); cbn; lia. Qed.

Lemma filter_claims_empty (m : gmap str str) :
  (forall ip, m !! ip <> Some clientId) -> filter (fun kv => kv.2 = clientId) m = ∅.
Proof.
  intros H. apply map_eq. intros ip. rewrite lookup_empty. apply map_lookup_filter_None. right.
  intros c Hc Hk. cbn in Hk. subst c. by apply (H ip).
Qed.

Lemma a_line_announce l w s : announce_inv (w, s) -> announce_inv (a_line l w s).
Proof.
  unfold a_line. intros (H1 & H2 & H3). destruct (_ <? _)%nat eqn:Hlt; [|done].
  destruct (_ && _) eqn:Hb; [|done]. bool_to_prop. cbn [fst snd] in *. unfold announce_inv. cbn [fst snd].
  rewrite (claimed_insert w (trim_value l)) by done. cbn [announcedCount]. split_conj; [|lia|].
  - pose proof (size_insert_S (claimed w) (trim_value l) clientId). lia.
  - intros ip [v Hv]. apply lookup_insert_Some in Hv as [[<- _]|[_ Hv]]; [by right|]. apply H3. by exists v.
Qed.

Lemma x_line_announce t l w s : announce_inv (w, s) -> announce_inv (x_line t l w s).
Proof.
  unfold x_line. intros H. destruct (_ <=? _); [|done]. destruct (valid_ext_ip _); [|done].
  unfold announce_inv, claimed. cbn [fst snd registry set_registry ClientRegistry.ipToClientId announcedCount].
  set (m := ClientRegistry.ipToClientId (registry w)).
  assert (Hz : filter (fun kv => kv.2 = clientId) (filter (fun kv => kv.2 <> clientId) m) = ∅).
  { apply filter_claims_empty. intros ip Hi. by apply map_lookup_filter_Some in Hi as [_ Hi]. }
  destruct (decide (clientIp = [])).
  - rewrite Hz. split_conj; [by rewrite map_size_empty; lia|lia|]. intros ip [v Hv]. by rewrite lookup_empty in Hv.
  - rewrite map_filter_insert_True, Hz by done. split_conj; [|lia|].
    + pose proof (size_insert_S ∅ clientIp clientId) as Hs. rewrite map_size_empty in Hs. done.
    + intros ip [v Hv]. apply lookup_insert_Some in Hv as [[<- _]|[_ Hv]]; [by left|by rewrite lookup_empty in Hv].
Qed.

Lemma same_claims ws ws' :
  ClientRegistry.ipToClientId (registry ws'.1) = ClientRegistry.ipToClientId (registry ws.1) ->
  announcedCount ws'.2 = announcedCount ws.2 -> announce_inv ws -> announce_inv ws'.
Proof. unfold announce_inv, claimed. intros -> ->. done. Qed.

Lemma handle_line_announce t l ws ws' : announce_inv ws -> handle_line t l ws = Some ws' -> announce_inv ws'.
Proof.
  destruct ws as [w s]. intros HI. unfold handle_line.
  destruct (starts_with kExtIPLinePrefix l); [intros [= <-]; by apply x_line_announce|].
  destruct (starts_with kAddrLinePrefix l); [intros [= <-]; by apply a_line_announce|].
  destruct (starts_with "D " l).
  { unfold d_line. destruct (parseDataLine _ _ _); [|by intros [= <-]].
    destruct (_ <? _); [intros [= <-]; by eapply same_claims|].
    destruct (ts_addPacket _ _ _) as [[st []]|]; [| |done]; intros [= <-]; by eapply same_claims. }
  destruct (starts_with kHealthLinePrefix l); [intros [= <-]; by eapply same_claims|].
  destruct (starts_with kLogRespLinePrefix l); intros [= <-]; [|done].
  apply (same_claims (w, s)); [|done|exact HI]. unfold l_line. cbn [fst snd].
  destruct (starts_with ("upd " : str) _); [|done]. destruct (find_char _ _); [|done]. destruct (cut_word _) as [verb arg].
  by destruct (upd_verb verb arg) as [[[[? ?] ?] ?]|].
Qed.

Lemma announce_step ws ws' : announce_inv ws -> session_step ws ws' -> announce_inv ws'.
Proof.
  intros HI Hs. revert HI. destruct Hs as [[t l|now|now] ws1 ws2 H|w w1 s H]; intros HI.
  - exact (handle_line_announce t l _ _ HI H).
  - destruct ws1 as [w s]. cbn in H. unfold refresh in H. destruct (_ <=? _); injection H as <-;
      [by eapply same_claims|done].
  - destruct ws1 as [w s]. injection H as <-. by eapply same_claims.
  - destruct HI as (H1 & H2 & H3). unfold announce_inv. cbn [fst snd] in *. split_conj; [|done|].
    + apply map_subseteq_size in H as H'. lia.
    + intros ip [v Hv]. apply H3. exists v. by eapply lookup_weaken.
Qed.

Lemma exec_acts_reach l ws0 ws ws' :
  reach session_step ws0 ws -> exec_acts l ws = Some ws' -> reach session_step ws0 ws'.
Proof.
  revert ws. induction l as [|a l IH]; intros ws Hr H; cbn [exec_acts] in H; [by injection H as <-|].
  destruct (exec_act ws a) as [ws1|] eqn:E; [|done]. eapply IH; [|exact H].
  eapply reach_step; [exact Hr|]. by eapply session_act.
Qed.

(** Announcements are bounded and local: throughout a session, whatever the
    client sends and other sessions do, at most 65 addresses are attributed to
    it, each its connection's own address or a LAN address. *)
Lemma announce_bounded (w : Shared) (t t' : Clock) (ws : Shared * Session)
  (HF : ClientRegistry.forgotten (registry w) clientId)
  (HR : reach session_step (session_start w, session_init (session_start w) t t') ws) :
  (size (claimed ws.1) <= 65)%nat /\
  forall ip, ClientRegistry.ipToClientId (registry ws.1) !! ip = Some clientId -> ip = clientIp \/ isLanIP ip = true.
Proof.
  assert (HI : announce_inv ws).
  { revert ws HR. apply reach_invariant; [|apply announce_step]. destruct HF as (HF & _ & _).
    assert (Hz : claimed w = ∅).
    { by apply filter_claims_empty. }
    unfold announce_inv, session_start, session_init. cbn [fst snd announcedCount].
    destruct (decide (clientIp = [])).
    - change (claimed _) with (claimed w). rewrite Hz. rewrite map_size_empty.
      split_conj; [lia|lia|]. intros ip [v Hv]. by rewrite lookup_empty in Hv.
    - change (claimed _) with (filter (fun kv => kv.2 = clientId) (<[clientIp := clientId]> (ClientRegistry.ipToClientId (registry w)))).
      rewrite map_filter_insert_True by done. fold (claimed w). rewrite Hz. split_conj; [|lia|].
      + pose proof (size_insert_S ∅ clientIp clientId) as Hs. by rewrite map_size_empty in Hs.
      + intros ip [v Hv]. apply lookup_insert_Some in Hv as [[<- _]|[_ Hv]]; [by left|by rewrite lookup_empty in Hv]. }
  destruct HI as (H1 & H2 & H3). split; [unfold kMaxAnnounceAddressesPerSession in H2; lia|].
  intros ip Hip. apply H3. exists clientId. by apply map_lookup_filter_Some.
Qed.

End Loop.

(** A second session of a client loses its registration and its channel when
    the first one, left half-open, ends after it has started. *)
Lemma stale_cleanup_hits_new_session (cid ip : str) (w : Shared) :
  cid <> [] -> ip <> [] ->
  ClientRegistry.ipToClientId (registry (session_start cid ip w)) !! ip = Some cid /\
  is_Some (ctrlChannels (session_start cid ip w) !! cid) /\
  ClientRegistry.ipToClientId (registry (session_end cid (session_start cid ip w))) !! ip = None /\
  ctrlChannels (session_end cid (session_start cid ip w)) !! cid = None.
Proof.
  intros Hc Hi. unfold session_start, ControlChannels.add. rewrite decide_False by done. cbn.
  split_conj.
  - apply lookup_insert_eq.
  - rewrite lookup_insert_eq. by eexists.
  - unfold ClientRegistry.removeClient. rewrite decide_False by done. cbn.
    apply map_lookup_filter_None. right. intros c Hl. rewrite lookup_insert_eq in Hl. injection Hl as <-. cbn. tauto.
  - apply lookup_delete_eq.
Qed.

(** ** Witnesses *)

Lemma is_Some_check {A} (o : option A) : (match o with Some _ => true | None => false end) = true -> is_Some o.
Proof. destruct o; [by eexists|done]. Qed.

#[export] Instance sample_inflater : Inflater := { ZState := unit; z_feed st b := Some (st, b) }.

Definition sample_wire_config : WireConfig := mkWireConfig (Z.to_nat 1048576) 64 50 300 1.

Definition sample_shared : Shared :=
  mkShared ClientRegistry.empty (new_ts (make_config 7 100 100 16)) None ∅ ∅.

Definition sample_clock (n : Z) : Clock := mkClock (n * 1000000000) (1700000000 + n).

Definition sample_session : Session := session_init sample_shared (sample_clock 100) (sample_clock 100).

Definition sample_rounds : list Round :=
  [mkRound true (sample_clock 100) (Data "X nu") (fun _ => sample_clock 100);
   mkRound true (sample_clock 101) Retry (fun _ => sample_clock 101);
   mkRound true (sample_clock 102) (Data ("ll" ++ LF :: "A 192.168.1.5" ++ LF :: "H pcap_"))
     (fun _ => sample_clock 102)].

Definition sample_wire_run : @Outcome sample_inflater :=
  run sample_wire_config "c1" "203.0.113.9" (steady (sample_clock 100)) sample_rounds
    (sample_shared, sample_session) None [].

Lemma sample_wire_run_ok :
  match sample_wire_run with
  | Continue _ z rest => z = None /\ rest = ("H pcap_" : str)
  | _ => False
  end.
Proof. vm_compute. done. Qed.

Lemma wire_lines_refine_witness :
  exists ws' text l,
    decode None (received sample_rounds) = Some (text, None) /\
    exec_acts sample_wire_config "c1" "203.0.113.9" l (sample_shared, sample_session) = Some ws' /\
    (concat (act_line <$> l), ("H pcap_" : str)) = split_lines text.
Proof.
  pose proof sample_wire_run_ok as H. destruct sample_wire_run as [ws' z rest| |] eqn:E; [|done|done].
  destruct H as [-> ->]. unfold sample_wire_run in E. exists ws'.
  apply (wire_lines_refine sample_wire_config "c1" "203.0.113.9" _ sample_rounds _ ws' None None [] _) in E;
    [exact E|apply not_elem_of_nil].
Defined.

Definition sample_d_lines : list str := [("D eth0 10.0.0.1 8.8.8.8 100" : str); ("D eth0 10.0.0.1 8.8.8.8 200" : str)].

Lemma sample_d_lines_ok :
  is_Some (handle_lines sample_wire_config "c1" [] sample_d_lines (fun _ => sample_clock 5) (sample_shared, sample_session)).
Proof. apply is_Some_check. vm_compute. reflexivity. Qed.

Lemma d_line_rate_limit_witness :
  exists w' s' s'',
    handle_lines sample_wire_config "c1" [] sample_d_lines (fun _ => sample_clock 5) (sample_shared, sample_session) = Some (w', s') /\
    handle_lines sample_wire_config "c1" [] (take 1 sample_d_lines) (fun _ => sample_clock 5) (sample_shared, sample_session) = Some (w', s'').
Proof.
  destruct sample_d_lines_ok as [[w' s'] E]. exists w', s'.
  destruct (d_line_rate_limit sample_wire_config "c1" [] 5 sample_d_lines (fun _ => sample_clock 5)
              sample_shared sample_session w' s') as [s'' H].
  - repeat constructor; vm_compute; discriminate.
  - done.
  - exact E.
  - exists s''. split; [exact E|exact H].
Defined.

Definition sample_acts : list Act :=
  [ALine (sample_clock 100) "X 198.51.100.7"; ALine (sample_clock 100) "A 192.168.1.5";
   ALine (sample_clock 101) "H ver=1.2.3"].

Definition sample_started : Shared := session_start "c1" "203.0.113.9" sample_shared.

Definition sample_acts_run :=
  exec_acts sample_wire_config "c1" "203.0.113.9" sample_acts
    (sample_started, session_init sample_started (sample_clock 100) (sample_clock 100)).

Lemma sample_acts_ok : is_Some sample_acts_run.
Proof. apply is_Some_check. vm_compute. reflexivity. Qed.

Lemma session_leaves_no_trace_witness :
  exists w' s', sample_acts_run = Some (w', s') /\
    ClientRegistry.forgotten (registry (session_end "c1" w')) "c1" /\
    others_kept "c1" sample_shared (session_end "c1" w').
Proof.
  destruct sample_acts_ok as [[w' s'] E]. exists w', s'. split; [exact E|].
  pose proof (session_leaves_no_trace sample_wire_config "c1" "203.0.113.9" sample_shared w' (session_init sample_started (sample_clock 100) (sample_clock 100)) s'
                sample_acts ltac:(discriminate) E) as (H1 & _ & H3).
  by split.
Defined.

Lemma announce_bounded_witness :
  exists w' s', sample_acts_run = Some (w', s') /\ (size (claimed "c1" w') <= 65)%nat.
Proof.
  destruct sample_acts_ok as [[w' s'] E]. exists w', s'. split; [exact E|].
  pose proof (announce_bounded sample_wire_config "c1" "203.0.113.9" sample_shared (sample_clock 100) (sample_clock 100) (w', s')) as W.
  apply W.
  - split; [intros ip; cbn; by rewrite lookup_empty|]. cbn. by rewrite !lookup_empty.
  - eapply exec_acts_reach; [apply reach_refl|exact E].
Defined.
