(* ===== verification/WebSocket.v ===== *)
(** WebSocket framing (RFC 6455) on both sides: the client's frame builder and
    byte-driven frame reader ([client_websocket.hpp]), its stream over the TLS
    bytes ([client_transport_websocket.cpp]), and the server's stream
    ([WsServerStream] of [server_core.cpp]). The TLS layer is a list of read
    events. *)

From S2P Require Import Prelude CppString.
From stdpp Require Import list.
Local Open Scope Z_scope.

(* client_websocket.hpp:38-42 kOpcodeContinuation, kOpcodeBinary, kOpcodeClose, kOpcodePing, kOpcodePong *)
Definition kOpcodeContinuation : Z := 0x0.
Definition kOpcodeBinary : Z := 0x2.
Definition kOpcodeClose : Z := 0x8.
Definition kOpcodePing : Z := 0x9.
Definition kOpcodePong : Z := 0xA.

(** ** Building frames *)

Definition byte_xor (a b : ascii) : ascii := byte_of (Z.lxor (byte_val a) (byte_val b)).

(** The length bytes of a header, [flag] being the MASK bit. *)
Definition len_bytes (flag n : Z) : str :=
  if n <? 126 then [byte_of (Z.lor flag n)]
  else if n <=? 0xFFFF then
    [byte_of (Z.lor flag 126); byte_of (Z.land (Z.shiftr n 8) 0xFF); byte_of (Z.land n 0xFF)]
  else byte_of (Z.lor flag 127) :: ((fun i => byte_of (Z.land (Z.shiftr n (8 * i)) 0xFF)) <$> [7; 6; 5; 4; 3; 2; 1; 0]).

(** [src[i] ^ maskKey[i & 3]] for every [i]. *)
Definition mask_payload (key src : str) : str :=
  imap (fun i c => byte_xor c (nth (Z.to_nat (Z.land (Z.of_nat i) 3)) key NUL)) src.

(* client_websocket.hpp:51-91 buildClientFrame *)
Definition buildClientFrame (payload maskKey : str) : str :=
  byte_of (Z.lor 0x80 kOpcodeBinary) :: len_bytes 0x80 (Z.of_nat (length payload))
    ++ maskKey ++ mask_payload maskKey payload.

(* server_core.cpp:558-578 WsServerStream::writeFrame *)
Definition writeFrame (src : str) : str :=
  byte_of 0x82 :: len_bytes 0 (Z.of_nat (length src)) ++ src.

(** ** The client's frame reader *)

(* client_websocket.hpp:207-215 FrameReader::State *)
Inductive ParseState := Byte0 | Byte1 | ExtLen16_Hi | ExtLen16_Lo | ExtLen64 | Payload.

(* client_websocket.hpp:217-225 FrameReader *)
Record FrameReader := mkReader {
  state_ : ParseState; opcode_ : Z; fin_ : bool;
  payloadLen_ : Z; extLenBytesRead_ : Z; payloadBytesRead_ : Z;
  buf_ : str; readPos_ : nat
}.

Definition FrameReader_init : FrameReader := mkReader Byte0 0 false 0 0 0 [] 0.

Definition set_state (st : ParseState) (len ext : Z) (r : FrameReader) : FrameReader :=
  mkReader st (opcode_ r) (fin_ r) len ext (payloadBytesRead_ r) (buf_ r) (readPos_ r).

(** The length is known: payload follows, unless it is empty. *)
Definition start_payload (len ext : Z) (r : FrameReader) : FrameReader :=
  mkReader (if len =? 0 then Byte0 else Payload) (opcode_ r) (fin_ r) len ext 0 (buf_ r) (readPos_ r).

(* client_websocket.hpp:234-298 FrameReader::processByte *)
Definition processByte (r : FrameReader) (b : ascii) : FrameReader :=
  let v := byte_val b in
  match state_ r with
  | Byte0 =>
      mkReader Byte1 (Z.land v 0x0F) (negb (Z.land v 0x80 =? 0)) (payloadLen_ r) (extLenBytesRead_ r)
        (payloadBytesRead_ r) (buf_ r) (readPos_ r)
  | Byte1 =>
      let len7 := Z.land v 0x7F in
      if len7 <? 126 then start_payload len7 (extLenBytesRead_ r) r
      else if len7 =? 126 then set_state ExtLen16_Hi 0 0 r
      else set_state ExtLen64 0 0 r
  | ExtLen16_Hi => set_state ExtLen16_Lo (Z.shiftl v 8) (extLenBytesRead_ r) r
  | ExtLen16_Lo => start_payload (Z.lor (payloadLen_ r) v) (extLenBytesRead_ r) r
  | ExtLen64 =>
      let len := Z.lor (u64 (Z.shiftl (payloadLen_ r) 8)) v in
      let ext := extLenBytesRead_ r + 1 in
      if ext =? 8 then start_payload len ext r else set_state ExtLen64 len ext r
  | Payload =>
      let buf := if (opcode_ r =? kOpcodeBinary) || (opcode_ r =? kOpcodeContinuation)
                 then buf_ r ++ [b] else buf_ r in
      let n := payloadBytesRead_ r + 1 in
      mkReader (if n =? payloadLen_ r then Byte0 else Payload) (opcode_ r) (fin_ r) (payloadLen_ r)
        (extLenBytesRead_ r) n buf (readPos_ r)
  end.

(* client_websocket.hpp:176-180 FrameReader::feed *)
Definition feed (data : str) (r : FrameReader) : FrameReader := fold_left processByte data r.

(* client_websocket.hpp:183-183 FrameReader::available *)
Definition available (r : FrameReader) : nat := length (buf_ r) - readPos_ r.

(* client_websocket.hpp:186-203 FrameReader::take *)
Definition take_bytes (n : nat) (r : FrameReader) : str * FrameReader :=
  let avail := available r in
  let got := if (n <? avail)%nat then n else avail in
  let out := take got (drop (readPos_ r) (buf_ r)) in
  let pos := (readPos_ r + got)%nat in
  let set b p := mkReader (state_ r) (opcode_ r) (fin_ r) (payloadLen_ r) (extLenBytesRead_ r)
                   (payloadBytesRead_ r) b p in
  if (length (buf_ r) / 2 <=? pos)%nat && (0 <? pos)%nat
  then (out, set (drop pos (buf_ r)) 0%nat)
  else (out, set (buf_ r) pos).

(** ** The client's stream *)

(** [tcp_]'s remaining bytes, the reader and the read buffer. *)
(* client_transport_websocket.hpp:51-56 WebSocketTransport *)
Record WebSocketTransport := mkWsT {
  reader_ : FrameReader; readBuf_ : str; readBufPos_ : nat
}.

Definition compact (t : WebSocketTransport) : WebSocketTransport :=
  if (0 <? readBufPos_ t)%nat && (length (readBuf_ t) <=? readBufPos_ t)%nat
  then mkWsT (reader_ t) [] 0 else t.

(** Move up to 4096 decoded bytes to the read buffer. *)
Definition drain_reader (t : WebSocketTransport) : WebSocketTransport :=
  let (got, r) := take_bytes 4096 (reader_ t) in
  mkWsT r (readBuf_ t ++ got) (readBufPos_ t).

(** One round of the loop per byte of [tcp]; [None] when the bytes run out. *)
(* client_transport_websocket.cpp:197-235 WebSocketTransport::fillReadBuf *)
Fixpoint fillReadBuf (tcp : str) (t : WebSocketTransport) : option (WebSocketTransport * str) :=
  let t := compact t in
  let t' := if (0 <? available (reader_ t))%nat then drain_reader t else t in
  if (0 <? available (reader_ t))%nat && (readBufPos_ t' <? length (readBuf_ t'))%nat then Some (t', tcp)
  else match tcp with
       | [] => None
       | b :: tcp' => fillReadBuf tcp' (mkWsT (feed [b] (reader_ t')) (readBuf_ t') (readBufPos_ t'))
       end.

(** The fuel covers one refill and one copy per requested byte. *)
(* client_transport_websocket.cpp:237-261 WebSocketTransport::readExact *)
Fixpoint client_read (fuel : nat) (tcp : str) (t : WebSocketTransport) (remaining : nat)
  : option (str * WebSocketTransport * str) :=
  match remaining with
  | O => Some ([], t, tcp)
  | _ =>
      match fuel with
      | O => None
      | S fuel' =>
          let inBuf := (length (readBuf_ t) - readBufPos_ t)%nat in
          if (inBuf =? 0)%nat then
            let? (t, tcp) := fillReadBuf tcp t in client_read fuel' tcp t remaining
          else
            let n := if (remaining <? inBuf)%nat then remaining else inBuf in
            let got := take n (drop (readBufPos_ t) (readBuf_ t)) in
            let? (rest, t, tcp) :=
              client_read fuel' tcp (mkWsT (reader_ t) (readBuf_ t) (readBufPos_ t + n)) (remaining - n) in
            Some (got ++ rest, t, tcp)
      end
  end.

Definition readExact (tcp : str) (t : WebSocketTransport) (n : nat) :=
  client_read (2 * n) tcp t n.

(** The complete lines at the front of the read buffer. *)
(* client_transport_websocket.cpp:335-347 WebSocketTransport::pollCtrlLines, extraction *)
Definition extract_lines (t : WebSocketTransport) : WebSocketTransport * list str :=
  let pending := drop (readBufPos_ t) (readBuf_ t) in
  let (ls, rest) := split_lines pending in
  (mkWsT (reader_ t) (readBuf_ t) (readBufPos_ t + (length pending - length rest)),
   filter (fun l : str => l <> []) (trim_back (char_in [CR]) <$> ls)).

(** What the socket answers a poll: nothing to read, up to 4096 bytes, a
    would-block from TLS, or a failure. *)
Inductive Poll := NotReady | Chunk (data : str) | WouldBlock | Broken.

(* client_transport_websocket.cpp:272-350 WebSocketTransport::pollCtrlLines *)
Definition pollCtrlLines (p : Poll) (t : WebSocketTransport) : WebSocketTransport * option (list str) :=
  if (readBufPos_ t <? length (readBuf_ t))%nat then
    let (t, ls) := extract_lines t in (t, Some ls)
  else match p with
       | NotReady | WouldBlock => (t, Some [])
       | Broken => (t, None)
       | Chunk data =>
           let t := mkWsT (feed data (reader_ t)) (readBuf_ t) (readBufPos_ t) in
           let t := if (0 <? available (reader_ t))%nat
                    then let (got, r) := take_bytes 4096 (reader_ t) in
                         let t := compact t in mkWsT r (readBuf_ t ++ got) (readBufPos_ t)
                    else t in
           let (t, ls) := extract_lines t in (t, Some ls)
       end.

(** [writeExact]: nothing for an empty buffer, else one frame. *)
(* client_transport_websocket.cpp:263-270 WebSocketTransport::writeExact *)
Definition writeExact (maskKey buf : str) : str :=
  match buf with [] => [] | _ => buildClientFrame buf maskKey end.

(** ** The server's stream *)

(** What successive one-byte [SSL_read]s give: a byte, a would-block reported
    by TLS, a socket timeout reported as a system error, or a failure. The end
    of the list is a closed connection. *)
Inductive Event := Byte (b : ascii) | WantRead | SysTimeout | Failed.

(** [sslReadBlock]: retries on would-block. *)
(* server_core.cpp:693-706 WsServerStream::sslReadBlock *)
Fixpoint sslReadBlock (n : nat) (evs : list Event) {struct evs} : option str * list Event :=
  match n with
  | O => (Some [], evs)
  | S n' =>
      match evs with
      | Byte b :: evs' =>
          match sslReadBlock n' evs' with
          | (Some s, evs'') => (Some (b :: s), evs'')
          | (None, evs'') => (None, evs'')
          end
      | WantRead :: evs' => sslReadBlock n evs'
      | SysTimeout :: evs' | Failed :: evs' => (None, evs')
      | [] => (None, [])
      end
  end.

(* server_core.cpp:597-601 WsServerStream *)
Record WsServerStream := mkWsS { sbuf : str; bufPos_ : nat; timedOut_ : bool }.

Definition kMaxFrame : Z := 2 * 1024 * 1024.

(** The header after byte 1: the payload length. *)
Definition read_len (b1 : Z) (evs : list Event) : option Z * list Event :=
  let len := Z.land b1 0x7F in
  if len =? 126 then
    match sslReadBlock 2 evs with
    | (Some ext, evs) => (Some (fold_left (fun n c => Z.lor (Z.shiftl n 8) (byte_val c)) ext 0), evs)
    | (None, evs) => (None, evs)
    end
  else if len =? 127 then
    match sslReadBlock 8 evs with
    | (Some ext, evs) => (Some (fold_left (fun n c => Z.lor (u64 (Z.shiftl n 8)) (byte_val c)) ext 0), evs)
    | (None, evs) => (None, evs)
    end
  else (Some len, evs).

(** One call reads frames until a data frame ends it: [fuel] bounds the control
    frames skipped, each of which takes events away. The result is
    (success, stream, events left); a failed frame leaves the buffer empty or
    partial, as the caller gives the stream up, so only the flag counts. *)
(* server_core.cpp:619-690 WsServerStream::fillBuf *)
Fixpoint fillBuf (fuel : nat) (evs : list Event) (s : WsServerStream) : bool * WsServerStream * list Event :=
  let buf := drop (bufPos_ s) (sbuf s) in
  let stop timed evs := (false, mkWsS buf 0 timed, evs) in
  match fuel with
  | O => stop false evs
  | S fuel' =>
      match evs with
      | [] => stop false []
      | WantRead :: evs => stop true evs
      | SysTimeout :: evs => stop true evs
      | Failed :: evs => stop false evs
      | Byte b0 :: evs =>
          match sslReadBlock 1 evs with
          | (Some [b1], evs) =>
              let opcode := Z.land (byte_val b0) 0x0F in
              let masked := negb (Z.land (byte_val b1) 0x80 =? 0) in
              match read_len (byte_val b1) evs with
              | (Some payLen, evs) =>
                  match (if masked then sslReadBlock 4 evs else (Some [NUL; NUL; NUL; NUL], evs)) with
                  | (Some maskKey, evs) =>
                      if kMaxFrame <? payLen then stop false evs
                      else
                        match sslReadBlock (Z.to_nat payLen) evs with
                        | (Some payload, evs) =>
                            let payload := if masked then mask_payload maskKey payload else payload in
                            if opcode =? kOpcodeClose then stop false evs
                            else if (opcode =? kOpcodePing) || (opcode =? kOpcodePong)
                            then fillBuf fuel' evs (mkWsS buf 0 false)
                            else ((0 <? length (buf ++ payload))%nat, mkWsS (buf ++ payload) 0 false, evs)
                        | (None, evs) => stop false evs
                        end
                  | (None, evs) => stop false evs
                  end
              | (None, evs) => stop false evs
              end
          | (_, evs) => stop false evs
          end
      end
  end.

(* server_core.cpp:582-594 WsServerStream::recv *)
Definition recv (maxLen : Z) (evs : list Event) (s : WsServerStream) : Z * str * WsServerStream * list Event :=
  if maxLen <=? 0 then (0, [], s, evs)
  else
    let deliver s evs :=
      let take' := Nat.min (Z.to_nat maxLen) (length (sbuf s) - bufPos_ s) in
      let out := take take' (drop (bufPos_ s) (sbuf s)) in
      (Z.of_nat take', out, mkWsS (sbuf s) (bufPos_ s + take') (timedOut_ s), evs) in
    if (length (sbuf s) <=? bufPos_ s)%nat then
      match fillBuf (S (length evs)) evs s with
      | (true, s, evs) => deliver s evs
      | (false, s, evs) => ((if timedOut_ s then 0 else -1), [], s, evs)
      end
    else deliver s evs.

(** The fuel covers one refill and one copy per requested byte. *)
(* server_core.cpp:538-555 WsServerStream::readExact *)
Fixpoint server_read (fuel n : nat) (evs : list Event) (s : WsServerStream)
  : option str * WsServerStream * list Event :=
  match n with
  | O => (Some [], s, evs)
  | _ =>
      match fuel with
      | O => (None, s, evs)
      | S fuel' =>
          let copy s evs :=
            let take' := Nat.min (length (sbuf s) - bufPos_ s) n in
            let out := take take' (drop (bufPos_ s) (sbuf s)) in
            match server_read fuel' (n - take') evs (mkWsS (sbuf s) (bufPos_ s + take') (timedOut_ s)) with
            | (Some rest, s, evs) => (Some (out ++ rest), s, evs)
            | (None, s, evs) => (None, s, evs)
            end in
          if (length (sbuf s) <=? bufPos_ s)%nat then
            match fillBuf (S (length evs)) evs s with
            | (true, s, evs) => copy s evs
            | (false, s, evs) => (None, s, evs)
            end
          else copy s evs
      end
  end.

Definition server_readExact (n : nat) (evs : list Event) (s : WsServerStream) :=
  server_read n n evs s.

(** ** Length fields *)

(** Appending byte [i] of [n] to the bytes above it. *)
Lemma len_step n i :
  0 <= n < 2 ^ 64 -> 0 <= i ->
  Z.lor (Z.shiftl (n / 2 ^ (8 * (i + 1))) 8) (byte_val (byte_of (Z.land (Z.shiftr n (8 * i)) 0xFF)))
  = n / 2 ^ (8 * i).
Proof.
  intros Hn Hi. rewrite byte_val_of. change 0xFF with (Z.ones 8). rewrite Z.land_ones by lia.
  rewrite u8_small by (apply Z.mod_pos_bound; lia). rewrite Z.shiftr_div_pow2 by lia.
  assert (Hp : 0 < 2 ^ (8 * i)) by (apply Z.pow_pos_nonneg; lia).
  rewrite lor_shiftl; [|lia|apply Z.mod_pos_bound; lia].
  replace (8 * (i + 1)) with (8 * i + 8) by lia. rewrite Z.pow_add_r by lia.
  rewrite <- Z.div_div by lia. pose proof (Z.div_mod (n / 2 ^ (8 * i)) (2 ^ 8)). lia.
Qed.

Lemma len_step64 n i :
  0 <= n < 2 ^ 64 -> 0 <= i ->
  Z.lor (u64 (Z.shiftl (n / 2 ^ (8 * (i + 1))) 8)) (byte_val (byte_of (Z.land (Z.shiftr n (8 * i)) 0xFF)))
  = n / 2 ^ (8 * i).
Proof.
  intros Hn Hi. rewrite u64_small; [by apply len_step|].
  rewrite Z.shiftl_mul_pow2 by lia. replace (8 * (i + 1)) with (8 * i + 8) by lia.
  rewrite Z.pow_add_r by lia.
  assert (Hp : 0 < 2 ^ (8 * i)) by (apply Z.pow_pos_nonneg; lia).
  rewrite <- Z.div_div by lia. split; [apply Z.mul_nonneg_nonneg; [|lia]; apply Z.div_pos; [apply Z.div_pos|]; lia|].
  assert (n / 2 ^ (8 * i) <= n) by (apply Z.div_le_upper_bound; nia).
  pose proof (Z.mul_div_le (n / 2 ^ (8 * i)) (2 ^ 8) ltac:(lia)). lia.
Qed.

Lemma byte1_len flag n :
  flag = 0 \/ flag = 0x80 -> 0 <= n < 128 ->
  Z.land (byte_val (byte_of (Z.lor flag n))) 0x7F = n /\
  (Z.land (byte_val (byte_of (Z.lor flag n))) 0x80 =? 0) = (flag =? 0).
Proof.
  intros Hf Hn.
  assert (Hor : Z.lor flag n = flag + n).
  { destruct Hf as [->| ->]; [done|]. change 0x80 with (Z.shiftl 1 7) at 1. by rewrite lor_shiftl by lia. }
  rewrite byte_val_of, Hor, u8_small by lia. split.
  - change 0x7F with (Z.ones 7). rewrite Z.land_ones by lia.
    destruct Hf as [->| ->]; [by apply Z.mod_small|].
    replace (0x80 + n) with (n + 1 * 2 ^ 7) by lia. rewrite Z.mod_add by lia. by apply Z.mod_small.
  - change 0x80 with (2 ^ 8 - 2 ^ 7) at 1. rewrite (land_high_mask (flag + n) 7 8) by lia.
    destruct Hf as [->| ->].
    + rewrite Z.mod_small by lia. apply Z.eqb_eq. lia.
    + replace ((0x80 + n) mod 2 ^ 7) with n; [reflexivity||(apply Z.eqb_neq; lia)|].
      replace (0x80 + n) with (n + 1 * 2 ^ 7) by lia. rewrite Z.mod_add by lia. symmetry. by apply Z.mod_small.
Qed.

(** The bytes after byte 1. *)
Definition ext_bytes (n : Z) : str :=
  if n <? 126 then [] else if n <=? 0xFFFF then
    (fun i => byte_of (Z.land (Z.shiftr n (8 * i)) 0xFF)) <$> [1; 0]
  else (fun i => byte_of (Z.land (Z.shiftr n (8 * i)) 0xFF)) <$> [7; 6; 5; 4; 3; 2; 1; 0].

Definition len7 (n : Z) : Z := if n <? 126 then n else if n <=? 0xFFFF then 126 else 127.

Lemma len_bytes_eq flag n : len_bytes flag n = byte_of (Z.lor flag (len7 n)) :: ext_bytes n.
Proof. unfold len_bytes, ext_bytes, len7. repeat case_match_goal; done. Qed.

(** ** The client's reader on whole frames *)

Lemma feed_ext64 n r :
  0 <= n < 2 ^ 64 ->
  feed ((fun i => byte_of (Z.land (Z.shiftr n (8 * i)) 0xFF)) <$> [7; 6; 5; 4; 3; 2; 1; 0])
    (set_state ExtLen64 (n / 2 ^ (8 * 8)) 0 r) = start_payload n 8 r.
Proof.
  intros Hn.
  assert (Step : forall i k e e', k = i + 1 -> e' = e + 1 -> 0 <= i -> e' <> 8 ->
    processByte (set_state ExtLen64 (n / 2 ^ (8 * k)) e r) (byte_of (Z.land (Z.shiftr n (8 * i)) 0xFF))
    = set_state ExtLen64 (n / 2 ^ (8 * i)) e' r).
  { intros i k e e' -> -> Hi He. unfold processByte. cbn [state_ set_state payloadLen_ extLenBytesRead_].
    rewrite len_step64 by done. rewrite (proj2 (Z.eqb_neq _ _)) by done. done. }
  unfold feed. cbn [fmap list_fmap fold_left].
  rewrite (Step 7 8 0 1), (Step 6 7 1 2), (Step 5 6 2 3), (Step 4 5 3 4), (Step 3 4 4 5), (Step 2 3 5 6),
    (Step 1 2 6 7) by lia.
  unfold processByte. cbn [state_ set_state payloadLen_ extLenBytesRead_].
  change (2 ^ (8 * 1)) with (2 ^ (8 * (0 + 1))). rewrite len_step64 by lia.
  change (2 ^ (8 * 0)) with 1. by rewrite Z.div_1_r.
Qed.

Lemma process_byte1 r b :
  state_ r = Byte1 ->
  processByte r b =
    if Z.land (byte_val b) 0x7F <? 126 then start_payload (Z.land (byte_val b) 0x7F) (extLenBytesRead_ r) r
    else if Z.land (byte_val b) 0x7F =? 126 then set_state ExtLen16_Hi 0 0 r else set_state ExtLen64 0 0 r.
Proof. intros H. unfold processByte. by rewrite H. Qed.

Lemma process_hi l e r b :
  processByte (set_state ExtLen16_Hi l e r) b = set_state ExtLen16_Lo (Z.shiftl (byte_val b) 8) e r.
Proof. reflexivity. Qed.

Lemma process_lo l e r b :
  processByte (set_state ExtLen16_Lo l e r) b = start_payload (Z.lor l (byte_val b)) e r.
Proof. reflexivity. Qed.

(** From byte 1 on, a length field leads to the payload with that length. *)
Lemma feed_len n r :
  0 <= n < 2 ^ 64 -> state_ r = Byte1 ->
  exists ext, feed (len_bytes 0 n) r = start_payload n ext r.
Proof.
  intros Hn Hs. rewrite len_bytes_eq. unfold feed. cbn [fold_left]. fold (feed (ext_bytes n)).
  assert (H7 : Z.land (byte_val (byte_of (Z.lor 0 (len7 n)))) 0x7F = len7 n).
  { apply byte1_len; [by left|]. unfold len7. repeat case_match_goal; bool_to_prop; lia. }
  rewrite process_byte1, H7 by done. unfold len7, ext_bytes.
  destruct (n <? 126) eqn:E1; [rewrite E1; by eexists|]. bool_to_prop.
  destruct (n <=? 0xFFFF) eqn:E2; cbn [Z.ltb Z.eqb Z.compare Pos.compare Pos.compare_cont Pos.eqb]; bool_to_prop.
  - eexists. unfold feed. cbn [fmap list_fmap fold_left].
    rewrite process_hi, process_lo. f_equal.
    replace (Z.shiftl (byte_val _) 8) with (Z.shiftl (n / 2 ^ (8 * (0 + 1))) 8).
    + rewrite len_step by lia. change (2 ^ (8 * 0)) with 1. apply Z.div_1_r.
    + f_equal. rewrite byte_val_of. change 0xFF with (Z.ones 8).
      rewrite Z.land_ones, Z.shiftr_div_pow2 by lia. change (8 * (0 + 1)) with (8 * 1).
      assert (0 <= n / 2 ^ (8 * 1) < 2 ^ 8).
      { split; [apply Z.div_pos; lia|apply Z.div_lt_upper_bound; lia]. }
      rewrite Z.mod_small by lia. by rewrite u8_small by lia.
  - exists 8. rewrite <- (feed_ext64 n r Hn). rewrite (Z.div_small n) by (change (2 ^ (8 * 8)) with (2 ^ 64); lia).
    reflexivity.
Qed.

Definition data_opcode (op : Z) : bool := (op =? kOpcodeBinary) || (op =? kOpcodeContinuation).

Lemma feed_payload p r :
  p <> [] -> state_ r = Payload -> payloadLen_ r = payloadBytesRead_ r + Z.of_nat (length p) ->
  let r' := feed p r in
  state_ r' = Byte0 /\ readPos_ r' = readPos_ r /\
  buf_ r' = buf_ r ++ (if data_opcode (opcode_ r) then p else []).
Proof.
  cbn zeta. revert r. induction p as [|b p IH]; intros r Hp Hs Hl; [done|].
  unfold feed. cbn [fold_left]. fold (feed p).
  set (r1 := processByte r b).
  assert (E : r1 = mkReader (if payloadBytesRead_ r + 1 =? payloadLen_ r then Byte0 else Payload) (opcode_ r)
                (fin_ r) (payloadLen_ r) (extLenBytesRead_ r) (payloadBytesRead_ r + 1)
                (if data_opcode (opcode_ r) then buf_ r ++ [b] else buf_ r) (readPos_ r)).
  { unfold r1, processByte. by rewrite Hs. }
  clearbody r1. subst r1. cbn [length] in Hl. destruct p as [|c p].
  - cbn in *. rewrite (proj2 (Z.eqb_eq _ _)) by lia. destruct (data_opcode (opcode_ r)); by rewrite ?app_nil_r.
  - rewrite (proj2 (Z.eqb_neq _ _)) by (cbn [length] in Hl; lia).
    destruct (IH _ ltac:(discriminate) (eq_refl : state_ (mkReader Payload (opcode_ r) (fin_ r) (payloadLen_ r)
      (extLenBytesRead_ r) (payloadBytesRead_ r + 1) (if data_opcode (opcode_ r) then buf_ r ++ [b] else buf_ r)
      (readPos_ r)) = Payload)) as (H1 & H2 & H3); [cbn [payloadLen_ payloadBytesRead_]; lia|].
    split_conj; [done|done|]. etransitivity; [exact H3|]. cbn [buf_ opcode_].
    destruct (data_opcode (opcode_ r)); by rewrite <- ?app_assoc.
Qed.

(** A frame from the server: first byte and payload. *)
Definition server_frame (f : ascii * str) : str :=
  f.1 :: len_bytes 0 (Z.of_nat (length f.2)) ++ f.2.

Definition delivered (f : ascii * str) : str :=
  if data_opcode (Z.land (byte_val f.1) 0x0F) then f.2 else [].

Lemma feed_app a b r : feed (a ++ b) r = feed b (feed a r).
Proof. apply fold_left_app. Qed.

Lemma feed_frame f r :
  Z.of_nat (length f.2) < 2 ^ 64 -> state_ r = Byte0 ->
  let r' := feed (server_frame f) r in
  state_ r' = Byte0 /\ readPos_ r' = readPos_ r /\ buf_ r' = buf_ r ++ delivered f.
Proof.
  destruct f as [b0 p]. cbn [fst snd]. intros Hl Hs. unfold server_frame. cbn [fst snd].
  change (b0 :: ?x ++ p) with ([b0] ++ x ++ p). rewrite !feed_app.
  set (r1 := feed [b0] r).
  assert (E1 : state_ r1 = Byte1 /\ opcode_ r1 = Z.land (byte_val b0) 0x0F /\ buf_ r1 = buf_ r /\ readPos_ r1 = readPos_ r).
  { unfold r1, feed. cbn [fold_left]. unfold processByte. by rewrite Hs. }
  clearbody r1. destruct E1 as (S1 & O1 & B1 & P1).
  destruct (feed_len (Z.of_nat (length p)) r1 ltac:(lia) S1) as [ext ->].
  unfold delivered. cbn [fst snd]. rewrite <- O1, <- B1, <- P1. destruct p as [|c p].
  - cbn. by destruct (data_opcode _); rewrite app_nil_r.
  - apply (feed_payload (c :: p) (start_payload (Z.of_nat (length (c :: p))) ext r1)); [done| |cbn; lia].
    unfold start_payload. cbn [state_]. by rewrite (proj2 (Z.eqb_neq _ _)) by (cbn; lia).
Qed.

(** ** The client's stream is the concatenation of the data payloads *)

(** Decoded bytes not yet taken out of the reader. *)
Definition unread (r : FrameReader) : str := drop (readPos_ r) (buf_ r).

Definition reader_wf (r : FrameReader) : Prop := (readPos_ r <= length (buf_ r))%nat.

Lemma feed_frames fs r :
  Forall (fun f => Z.of_nat (length f.2) < 2 ^ 64) fs -> state_ r = Byte0 -> reader_wf r ->
  let r' := feed (concat (server_frame <$> fs)) r in
  state_ r' = Byte0 /\ reader_wf r' /\ unread r' = unread r ++ concat (delivered <$> fs).
Proof.
  cbn zeta. revert r. induction fs as [|f fs IH]; intros r Hf Hs Hw; cbn [fmap list_fmap concat].
  - cbn. rewrite app_nil_r. done.
  - apply Forall_cons in Hf as [Hf Hfs]. rewrite feed_app.
    destruct (feed_frame f r Hf Hs) as (S1 & P1 & B1).
    destruct (IH (feed (server_frame f) r) Hfs S1) as (S2 & W2 & U2).
    { unfold reader_wf. rewrite P1, B1, length_app. unfold reader_wf in Hw. lia. }
    split_conj; [done|done|]. rewrite U2. unfold unread. rewrite P1, B1, drop_app_le by done.
    by rewrite <- app_assoc.
Qed.

(** Taking bytes out does not disturb the decoding of the bytes to come. *)
Definition same_ctl (r1 r2 : FrameReader) : Prop :=
  state_ r1 = state_ r2 /\ opcode_ r1 = opcode_ r2 /\ payloadLen_ r1 = payloadLen_ r2 /\
  extLenBytesRead_ r1 = extLenBytesRead_ r2 /\ payloadBytesRead_ r1 = payloadBytesRead_ r2.

Lemma processByte_ctl b r1 r2 :
  same_ctl r1 r2 ->
  same_ctl (processByte r1 b) (processByte r2 b) /\
  exists e, buf_ (processByte r1 b) = buf_ r1 ++ e /\ buf_ (processByte r2 b) = buf_ r2 ++ e /\
            readPos_ (processByte r1 b) = readPos_ r1 /\ readPos_ (processByte r2 b) = readPos_ r2.
Proof.
  destruct r1 as [s1 o1 f1 l1 e1 n1 b1 p1], r2 as [s2 o2 f2 l2 e2 n2 b2 p2].
  unfold same_ctl. cbn [state_ opcode_ payloadLen_ extLenBytesRead_ payloadBytesRead_ buf_ readPos_].
  intros (-> & -> & -> & -> & ->). unfold processByte.
  cbn [state_ opcode_ payloadLen_ extLenBytesRead_ payloadBytesRead_ buf_ readPos_].
  unfold start_payload, set_state. cbn [state_ opcode_ fin_ payloadLen_ extLenBytesRead_ payloadBytesRead_ buf_ readPos_].
  set (len := Z.lor (u64 _) _). clearbody len. destruct s2.
  6:{ split; [done|]. fold (data_opcode o2). destruct (data_opcode o2); [by exists [b]|exists []; by rewrite !app_nil_r]. }
  all: repeat case_match_goal; (split; [done|exists []; by rewrite !app_nil_r]).
Qed.

Lemma feed_ctl d r1 r2 :
  same_ctl r1 r2 -> reader_wf r1 -> reader_wf r2 ->
  same_ctl (feed d r1) (feed d r2) /\ reader_wf (feed d r1) /\
  exists e, unread (feed d r1) = unread r1 ++ e /\ unread (feed d r2) = unread r2 ++ e.
Proof.
  unfold feed. revert r1 r2. induction d as [|b d IH]; intros r1 r2 Hc H1 H2; cbn [fold_left].
  - split_conj; [done|done|]. exists []. by rewrite !app_nil_r.
  - destruct (processByte_ctl b r1 r2 Hc) as (Hc' & e & B1 & B2 & P1 & P2).
    destruct (IH _ _ Hc') as (? & ? & e' & U1 & U2).
    { unfold reader_wf in *. rewrite B1, P1, length_app. lia. }
    { unfold reader_wf in *. rewrite B2, P2, length_app. lia. }
    split_conj; [done|done|]. exists (e ++ e'). rewrite U1, U2. unfold unread.
    rewrite B1, B2, P1, P2, !drop_app_le, <- !app_assoc by done. done.
Qed.

Lemma take_bytes_spec n r :
  reader_wf r ->
  let (got, r') := take_bytes n r in
  unread r = got ++ unread r' /\ length got = Nat.min n (length (unread r)) /\ reader_wf r' /\ same_ctl r r'.
Proof.
  unfold reader_wf, take_bytes, available. intros Hw.
  set (avail := (length (buf_ r) - readPos_ r)%nat).
  set (got := if (n <? avail)%nat then n else avail).
  assert (Hg : got = Nat.min n avail) by (unfold got; destruct (Nat.ltb_spec n avail); lia).
  assert (Hu : length (unread r) = avail) by (unfold unread; rewrite length_drop; done).
  clearbody got.
  assert (Hd : unread r = take got (drop (readPos_ r) (buf_ r)) ++ drop (readPos_ r + got) (buf_ r)).
  { unfold unread. rewrite <- (take_drop got (drop (readPos_ r) (buf_ r))) at 1. by rewrite drop_drop. }
  assert (Hl : length (take got (drop (readPos_ r) (buf_ r))) = Nat.min n (length (unread r))).
  { rewrite Hu, length_take, length_drop, Hg. unfold avail. lia. }
  destruct (_ && _); unfold unread at 2; cbn [readPos_ buf_]; rewrite ?drop_0;
    (split_conj; [done|done| |done]); unfold avail in *; lia.
Qed.

(** All bytes a stream still has to deliver, when [tcp] is all that follows. *)
Definition total (t : WebSocketTransport) (tcp : str) : str :=
  drop (readBufPos_ t) (readBuf_ t) ++ unread (feed tcp (reader_ t)).

Definition transport_wf (t : WebSocketTransport) : Prop :=
  reader_wf (reader_ t) /\ (readBufPos_ t <= length (readBuf_ t))%nat.

Lemma compact_spec t :
  transport_wf t ->
  transport_wf (compact t) /\ reader_ (compact t) = reader_ t /\
  drop (readBufPos_ (compact t)) (readBuf_ (compact t)) = drop (readBufPos_ t) (readBuf_ t).
Proof.
  unfold transport_wf, compact. intros [Hr Hp]. destruct (_ && _) eqn:E; [|done]. bool_to_prop.
  cbn. split_conj; [done|lia|done|]. by rewrite drop_ge.
Qed.

Lemma drain_reader_spec t tcp :
  transport_wf t -> transport_wf (drain_reader t) /\ total (drain_reader t) tcp = total t tcp /\
  readBufPos_ (drain_reader t) = readBufPos_ t /\
  (length (readBuf_ (drain_reader t)) = length (readBuf_ t) + Nat.min 4096 (length (unread (reader_ t))))%nat.
Proof.
  intros [Hr Hp]. unfold drain_reader. pose proof (take_bytes_spec 4096 (reader_ t) Hr) as H.
  destruct (take_bytes 4096 (reader_ t)) as [got r']. destruct H as (Hu & Hl & Hw & Hc).
  unfold total, transport_wf. cbn [reader_ readBuf_ readBufPos_].
  destruct (feed_ctl tcp _ _ Hc Hr Hw) as (_ & _ & e & U1 & U2).
  split_conj; [done|rewrite length_app; lia| |done|by rewrite length_app, Hl].
  by rewrite U1, U2, Hu, drop_app_le, <- !app_assoc by done.
Qed.

Lemma feed_wf d r : reader_wf r -> reader_wf (feed d r).
Proof. intros Hr. by destruct (feed_ctl d r r) as (_ & ? & _). Qed.

Lemma available_unread r : length (unread r) = available r.
Proof. unfold unread, available. apply length_drop. Qed.

(** The first half of a round: either it ends the refill, or nothing moved. *)
Lemma fill_round t tcp :
  transport_wf t -> drop (readBufPos_ t) (readBuf_ t) = [] ->
  let t1 := compact t in
  let t2 := if (0 <? available (reader_ t1))%nat then drain_reader t1 else t1 in
  let stop := (0 <? available (reader_ t1))%nat && (readBufPos_ t2 <? length (readBuf_ t2))%nat in
  transport_wf t2 /\ total t2 tcp = total t tcp /\
  (stop = true -> (readBufPos_ t2 < length (readBuf_ t2))%nat) /\
  (stop = false -> drop (readBufPos_ t2) (readBuf_ t2) = [] /\ unread (reader_ t2) = []).
Proof.
  cbn zeta. intros Hw He. destruct (compact_spec t Hw) as (Hw1 & Hr1 & Hd1).
  assert (Ht1 : total (compact t) tcp = total t tcp) by (unfold total; by rewrite Hr1, Hd1).
  destruct (0 <? available (reader_ (compact t)))%nat eqn:Ha; cbn [andb]; bool_to_prop.
  - destruct (drain_reader_spec (compact t) tcp Hw1) as (Hw2 & Ht2 & Hp2 & Hl2).
    rewrite available_unread in Hl2. destruct Hw1 as [_ Hp1].
    assert (readBufPos_ (drain_reader (compact t)) < length (readBuf_ (drain_reader (compact t))))%nat by lia.
    split_conj; [done|congruence|done|]. rewrite (proj2 (Nat.ltb_lt _ _)) by done. done.
  - split_conj; [done|done|done|]. intros _. rewrite Hd1. split; [done|].
    apply length_zero_iff_nil. rewrite available_unread. lia.
Qed.

(** A refill delivers at least one byte and drops none; it fails only when
    nothing is left to deliver. *)
Lemma fillReadBuf_spec tcp t :
  transport_wf t -> drop (readBufPos_ t) (readBuf_ t) = [] ->
  match fillReadBuf tcp t with
  | Some (t', tcp') =>
      transport_wf t' /\ total t tcp = total t' tcp' /\ (readBufPos_ t' < length (readBuf_ t'))%nat
  | None => total t tcp = []
  end.
Proof.
  revert t. induction tcp as [|b tcp IH]; intros t Hw He; cbn [fillReadBuf];
    [pose proof (fill_round t [] Hw He) as (Hw2 & Ht2 & Hstop & Hgo)
    |pose proof (fill_round t (b :: tcp) Hw He) as (Hw2 & Ht2 & Hstop & Hgo)];
    set (t2 := if (0 <? available (reader_ (compact t)))%nat then drain_reader (compact t) else compact t) in *;
    clearbody t2; destruct (_ && _);
    try (split_conj; [exact Hw2|by rewrite Ht2|by apply Hstop]);
    destruct (Hgo eq_refl) as [He2 Hu2].
  - rewrite <- Ht2. unfold total. cbn. by rewrite He2, Hu2.
  - rewrite <- Ht2. destruct Hw2 as [Hr2 Hp2].
    assert (Hw3 : transport_wf (mkWsT (feed [b] (reader_ t2)) (readBuf_ t2) (readBufPos_ t2))).
    { split; [by apply feed_wf|done]. }
    specialize (IH _ Hw3 He2).
    assert (Et : total t2 (b :: tcp) = total (mkWsT (feed [b] (reader_ t2)) (readBuf_ t2) (readBufPos_ t2)) tcp).
    { unfold total. cbn [reader_ readBuf_ readBufPos_]. change (b :: tcp) with ([b] ++ tcp). by rewrite feed_app. }
    rewrite Et. done.
Qed.

(** Bytes read are the first bytes of the decoded stream; the read fails only
    when the stream is too short. *)
Lemma client_read_spec fuel tcp t n :
  transport_wf t ->
  (2 * n <= fuel + (if (readBufPos_ t <? length (readBuf_ t))%nat then 1 else 0))%nat ->
  match client_read fuel tcp t n with
  | Some (out, t', tcp') => total t tcp = out ++ total t' tcp' /\ length out = n /\ transport_wf t'
  | None => (length (total t tcp) < n)%nat
  end.
Proof.
  revert tcp t n. induction fuel as [|fuel IH]; intros tcp t [|n] Hw Hf; cbn [client_read]; try done.
  - exfalso. destruct (_ <? _)%nat in Hf; lia.
  - destruct (Nat.eqb_spec (length (readBuf_ t) - readBufPos_ t) 0) as [E|E].
    + assert (He : drop (readBufPos_ t) (readBuf_ t) = []) by (apply drop_ge; lia).
      pose proof (fillReadBuf_spec tcp t Hw He) as H. rewrite (proj2 (Nat.ltb_ge _ _)) in Hf by lia.
      destruct (fillReadBuf tcp t) as [[t1 tcp1]|]; [|rewrite H; cbn; lia].
      destruct H as (Hw1 & Ht1 & Hl1). rewrite Ht1. apply IH; [done|].
      rewrite (proj2 (Nat.ltb_lt _ _)) by done. lia.
    + set (k := if (S n <? _)%nat then S n else _).
      assert (Hk : k = Nat.min (S n) (length (readBuf_ t) - readBufPos_ t)).
      { unfold k. destruct (Nat.ltb_spec (S n) (length (readBuf_ t) - readBufPos_ t)); lia. }
      clearbody k. destruct Hw as [Hr Hp].
      set (t1 := mkWsT (reader_ t) (readBuf_ t) (readBufPos_ t + k)).
      assert (Ht : total t tcp = take k (drop (readBufPos_ t) (readBuf_ t)) ++ total t1 tcp).
      { unfold total. cbn [reader_ readBuf_ readBufPos_ t1]. rewrite app_assoc, <- drop_drop, take_drop. done. }
      assert (Hlen : length (take k (drop (readBufPos_ t) (readBuf_ t))) = k) by (rewrite length_take, length_drop; lia).
      pose proof (IH tcp t1 (S n - k)%nat) as H. specialize (H ltac:(split; [done|cbn; lia])).
      specialize (H ltac:(destruct (_ <? _)%nat in Hf |- *; lia)).
      destruct (client_read fuel tcp t1 (S n - k)) as [[[rest t2] tcp2]|].
      * destruct H as (H1 & H2 & H3). rewrite Ht, H1, length_app, Hlen, app_assoc. split_conj; [done|lia|done].
      * rewrite Ht, length_app, Hlen. lia.
Qed.

Definition transport_init : WebSocketTransport := mkWsT FrameReader_init [] 0.

(** The client's exact reads see a plain byte stream: after any sequence of
    server frames of any sizes and opcodes, reading [n] bytes gives the first
    [n] bytes of the data frames' payloads joined together, control frames
    leaving no trace, and the rest stays to be read. *)
Lemma client_stream_transparent (fs : list (ascii * str)) (n : nat)
  (Hf : Forall (fun f => Z.of_nat (length f.2) < 2 ^ 64) fs)
  (Hn : (n <= length (concat (delivered <$> fs)))%nat) :
  let data := concat (delivered <$> fs) in
  exists t' tcp', readExact (concat (server_frame <$> fs)) transport_init n = Some (take n data, t', tcp') /\
    total t' tcp' = drop n data.
Proof.
  cbn zeta. unfold readExact.
  assert (Hw : transport_wf transport_init) by (split; cbv; lia).
  pose proof (client_read_spec (2 * n) (concat (server_frame <$> fs)) transport_init n Hw ltac:(cbn; lia)) as H.
  destruct (feed_frames fs FrameReader_init Hf eq_refl ltac:(cbv; lia)) as (_ & _ & Hu).
  assert (Ht : total transport_init (concat (server_frame <$> fs)) = concat (delivered <$> fs)).
  { unfold total. cbn [transport_init readBuf_ readBufPos_ reader_]. by rewrite Hu. }
  rewrite Ht in H. destruct (client_read _ _ _ _) as [[[out t'] tcp']|]; [|lia].
  destruct H as (H1 & H2 & _). exists t', tcp'. rewrite H1.
  by rewrite take_length_app, drop_length_app by done.
Qed.

Definition sample_frames : list (ascii * str) :=
  [(byte_of 0x82, ("hello " : str)); (byte_of 0x89, ("ping" : str)); (byte_of 0x82, []);
   (byte_of 0x80, ("world" : str))].

Lemma client_stream_transparent_witness :
  exists t' tcp', readExact (concat (server_frame <$> sample_frames)) transport_init 8 = Some ("hello wo" : str, t', tcp') /\
    total t' tcp' = ("rld" : str).
Proof.
  apply (client_stream_transparent sample_frames 8); [|vm_compute; lia].
  repeat constructor; cbn; lia.
Defined.

(** A partial line left in the read buffer blocks the polling: no later poll
    reads the socket again or returns a line. *)
Lemma poll_partial_stuck p t :
  (readBufPos_ t < length (readBuf_ t))%nat -> LF ∉ drop (readBufPos_ t) (readBuf_ t) ->
  pollCtrlLines p t = (t, Some []).
Proof.
  intros Hl Hn. unfold pollCtrlLines. rewrite (proj2 (Nat.ltb_lt _ _)) by done.
  unfold extract_lines. rewrite split_lines_noLF, Nat.sub_diag, Nat.add_0_r by done. by destruct t.
Qed.

(** One frame that arrives in two reads is enough. *)
Lemma poll_partial_stuck_example :
  let line := writeFrame ("C level Warn" ++ [LF]) in
  let (t1, o1) := pollCtrlLines (Chunk (take 6 line)) transport_init in
  let (t2, o2) := pollCtrlLines (Chunk (drop 6 line)) t1 in
  o1 = Some [] /\ o2 = Some [] /\ t2 = t1.
Proof. vm_compute. done. Qed.

(** ** The server's stream *)

(** The bytes of an event sequence without failures, and with pauses only. *)
Fixpoint bytes_of (evs : list Event) : str :=
  match evs with Byte b :: evs => b :: bytes_of evs | _ :: evs => bytes_of evs | [] => [] end.

Definition calm (evs : list Event) : Prop :=
  Forall (fun e => match e with Byte _ | WantRead => True | _ => False end) evs.

Lemma sslReadBlock_spec n evs s rest :
  calm evs -> bytes_of evs = s ++ rest -> length s = n ->
  exists evs', sslReadBlock n evs = (Some s, evs') /\ calm evs' /\ bytes_of evs' = rest /\
    (length evs' <= length evs)%nat.
Proof.
  revert n s. induction evs as [|e evs IH]; intros n s Hc Hb Hl.
  - cbn in Hb. destruct s; [|done]. cbn in Hl. subst n. cbn in *. exists []. done.
  - destruct s as [|c s].
    { cbn in Hl. subst n. exists (e :: evs). cbn [sslReadBlock app] in *. done. }
    apply Forall_cons in Hc as [He Hc]. destruct n as [|n]; [done|]. destruct e; cbn in Hb; try done.
    + injection Hb as -> Hb. destruct (IH n s Hc Hb) as (evs' & E & ? & ? & ?); [cbn in Hl; lia|].
      exists evs'. cbn [sslReadBlock]. rewrite E. cbn. split_conj; [done|done|done|lia].
    + destruct (IH (S n) (c :: s) Hc Hb Hl) as (evs' & E & ? & ? & ?).
      exists evs'. cbn. cbn in E. rewrite E. split_conj; [done|done|done|lia].
Qed.

(** Masking twice with the same key gives the payload back. *)
Lemma byte_xor_twice a b : byte_xor (byte_xor a b) b = a.
Proof.
  unfold byte_xor. rewrite byte_val_of, u8_small.
  - by rewrite Z.lxor_assoc, Z.lxor_nilpotent, Z.lxor_0_r, byte_of_val.
  - pose proof (byte_val_range a). pose proof (byte_val_range b).
    split; [apply Z.lxor_nonneg; lia|].
    destruct (decide (Z.lxor (byte_val a) (byte_val b) = 0)) as [->|]; [lia|].
    change 256 with (2 ^ 8). apply Z.log2_lt_pow2; [pose proof (Z.lxor_nonneg (byte_val a) (byte_val b)); lia|].
    eapply Z.le_lt_trans; [apply Z.log2_lxor; lia|].
    destruct (Z.max_spec (Z.log2 (byte_val a)) (Z.log2 (byte_val b))) as [[_ ->]|[_ ->]].
    + destruct (decide (byte_val b = 0)) as [->|]; [done|]. apply Z.log2_lt_pow2; lia.
    + destruct (decide (byte_val a = 0)) as [->|]; [done|]. apply Z.log2_lt_pow2; lia.
Qed.

Lemma mask_payload_twice key p : mask_payload key (mask_payload key p) = p.
Proof.
  unfold mask_payload. apply list_eq. intros i. rewrite !list_lookup_imap.
  destruct (p !! i); [|done]. cbn. by rewrite byte_xor_twice.
Qed.

Lemma fold_len64 n :
  0 <= n < 2 ^ 64 ->
  fold_left (fun m c => Z.lor (u64 (Z.shiftl m 8)) (byte_val c))
    ((fun i => byte_of (Z.land (Z.shiftr n (8 * i)) 0xFF)) <$> [7; 6; 5; 4; 3; 2; 1; 0]) (n / 2 ^ (8 * 8)) = n.
Proof.
  intros Hn. assert (Step : forall i k, k = i + 1 -> 0 <= i ->
    Z.lor (u64 (Z.shiftl (n / 2 ^ (8 * k)) 8)) (byte_val (byte_of (Z.land (Z.shiftr n (8 * i)) 0xFF)))
    = n / 2 ^ (8 * i)) by (intros i k -> Hi; by apply len_step64).
  cbn [fmap list_fmap fold_left].
  rewrite (Step 7 8), (Step 6 7), (Step 5 6), (Step 4 5), (Step 3 4), (Step 2 3), (Step 1 2), (Step 0 1) by lia.
  change (2 ^ (8 * 0)) with 1. apply Z.div_1_r.
Qed.

Lemma fold_len16 n :
  0 <= n <= 0xFFFF ->
  fold_left (fun m c => Z.lor (Z.shiftl m 8) (byte_val c))
    ((fun i => byte_of (Z.land (Z.shiftr n (8 * i)) 0xFF)) <$> [1; 0]) (n / 2 ^ (8 * 2)) = n.
Proof.
  intros Hn. cbn [fmap list_fmap fold_left].
  change (8 * 2) with (8 * (1 + 1)). rewrite len_step by lia.
  change (8 * 1) with (8 * (0 + 1)) at 1. rewrite len_step by lia.
  change (2 ^ (8 * 0)) with 1. apply Z.div_1_r.
Qed.

Lemma read_len_spec flag n evs rest :
  flag = 0 \/ flag = 0x80 -> 0 <= n < 2 ^ 64 -> calm evs -> bytes_of evs = ext_bytes n ++ rest ->
  exists evs', read_len (byte_val (byte_of (Z.lor flag (len7 n)))) evs = (Some n, evs') /\
    calm evs' /\ bytes_of evs' = rest /\ (length evs' <= length evs)%nat.
Proof.
  intros Hf Hn Hc Hb. unfold read_len.
  rewrite (proj1 (byte1_len flag (len7 n) Hf ltac:(unfold len7; repeat case_match_goal; bool_to_prop; lia))).
  unfold ext_bytes, len7 in *. destruct (n <? 126) eqn:E1; bool_to_prop.
  - rewrite !(proj2 (Z.eqb_neq _ _)) by lia. by exists evs.
  - destruct (n <=? 0xFFFF) eqn:E2; bool_to_prop; cbn [Z.eqb Pos.eqb].
    + destruct (sslReadBlock_spec 2 evs _ _ Hc Hb eq_refl) as (evs' & -> & ? & ? & ?).
      exists evs'. split_conj; [|done|done|done]. do 2 f_equal.
      pose proof (fold_len16 n ltac:(lia)) as W. rewrite (Z.div_small n) in W by (change (8 * 2) with 16; lia). exact W.
    + destruct (sslReadBlock_spec 8 evs _ _ Hc Hb eq_refl) as (evs' & -> & ? & ? & ?).
      exists evs'. split_conj; [|done|done|done]. do 2 f_equal.
      pose proof (fold_len64 n Hn) as W. rewrite (Z.div_small n) in W by (change (8 * 8) with 64; lia). exact W.
Qed.

(** A client's frame: mask key and payload. *)
Definition frame_ok (f : str * str) : Prop :=
  length f.1 = 4%nat /\ f.2 <> [] /\ Z.of_nat (length f.2) <= kMaxFrame.

Definition client_frame (f : str * str) : str := buildClientFrame f.2 f.1.

Lemma buildClientFrame_eq p key :
  buildClientFrame p key =
    [byte_of 0x82] ++ [byte_of (Z.lor 0x80 (len7 (Z.of_nat (length p))))] ++
    ext_bytes (Z.of_nat (length p)) ++ key ++ mask_payload key p.
Proof. unfold buildClientFrame. by rewrite len_bytes_eq. Qed.

(** Reading one whole frame from an empty buffer. *)
Lemma fillBuf_frame fuel evs f rest s :
  calm evs -> frame_ok f -> bytes_of evs = client_frame f ++ rest -> drop (bufPos_ s) (sbuf s) = [] ->
  (fuel > 0)%nat -> (exists b evs0, evs = Byte b :: evs0) ->
  exists evs', fillBuf fuel evs s = (true, mkWsS f.2 0 false, evs') /\
    calm evs' /\ bytes_of evs' = rest /\ (length evs' < length evs)%nat.
Proof.
  destruct f as [key p]. unfold frame_ok, client_frame. cbn [fst snd].
  intros Hc (Hk & Hp & Hm) Hb He Hfuel (b & evs0 & ->). destruct fuel as [|fuel]; [lia|].
  assert (Hn : 0 <= Z.of_nat (length p) < 2 ^ 64) by (unfold kMaxFrame in Hm; lia).
  rewrite buildClientFrame_eq in Hb. rewrite <- !app_assoc in Hb. cbn [bytes_of] in Hb.
  injection Hb as -> Hb. apply Forall_cons in Hc as [_ Hc]. cbn [fillBuf]. rewrite He.
  destruct (sslReadBlock_spec 1 evs0 [byte_of (Z.lor 128 (len7 (Z.of_nat (length p))))] _ Hc Hb eq_refl) as (e1 & -> & C1 & B1 & L1).
  destruct (read_len_spec 0x80 _ e1 _ (or_intror eq_refl) Hn C1 B1) as (e2 & -> & C2 & B2 & L2).
  pose proof (proj2 (byte1_len 0x80 (len7 (Z.of_nat (length p))) (or_intror eq_refl)
                ltac:(unfold len7; repeat case_match_goal; bool_to_prop; lia))) as ->.
  cbn [Z.eqb negb].
  destruct (sslReadBlock_spec 4 e2 key _ C2 B2 Hk) as (e3 & -> & C3 & B3 & L3).
  rewrite (proj2 (Z.ltb_ge _ _)) by done.
  destruct (sslReadBlock_spec (Z.to_nat (Z.of_nat (length p))) e3 (mask_payload key p) rest C3 B3)
    as (e4 & -> & C4 & B4 & L4); [unfold mask_payload; rewrite length_imap; lia|].
  rewrite mask_payload_twice. exists e4. change (Z.land (byte_val (byte_of 130)) 15) with 2.
  cbn [Z.eqb kOpcodeClose kOpcodePing kOpcodePong Pos.eqb orb app].
  split_conj; [|done|done|cbn; lia]. destruct p; [done|]. done.
Qed.

(** A read leaves an end of its input, and what is behind it does not matter. *)
Lemma sslReadBlock_local n evs : forall out evs', sslReadBlock n evs = (Some out, evs') ->
  evs' `suffix_of` evs /\ forall more, sslReadBlock n (evs ++ more) = (Some out, evs' ++ more).
Proof.
  revert n. induction evs as [| e evs IH]; intros [| n] out evs'.
  - intros [= <- <-]. split; [done |]. intros [| ? ?]; done.
  - done.
  - intros [= <- <-]. done.
  - destruct e as [b | | |]; cbn [sslReadBlock app]; try done.
    + destruct (sslReadBlock n evs) as [[o |] e2] eqn:E; [| done]. intros [= <- <-]. destruct (IH _ _ _ E) as [Hs Hm].
      split; [by apply suffix_cons_r |]. intros more. by rewrite Hm.
    + intros H. destruct (IH _ _ _ H) as [Hs Hm]. split; [by apply suffix_cons_r | exact Hm].
Qed.

Lemma read_len_local b1 evs : forall n evs', read_len b1 evs = (Some n, evs') ->
  evs' `suffix_of` evs /\ forall more, read_len b1 (evs ++ more) = (Some n, evs' ++ more).
Proof.
  unfold read_len. intros n evs'. destruct (_ =? 126); [| destruct (_ =? 127)].
  3: by intros [= <- <-].
  all: destruct (sslReadBlock _ evs) as [[o |] e] eqn:E; [| done]; intros [= <- <-];
    destruct (sslReadBlock_local _ _ _ _ E) as [Hs Hm]; split; [done |]; intros more; by rewrite Hm.
Qed.

Lemma fillBuf_local fuel : forall evs s s' evs', fillBuf fuel evs s = (true, s', evs') ->
  evs' `suffix_of` evs /\ forall more, fillBuf fuel (evs ++ more) s = (true, s', evs' ++ more).
Proof.
  induction fuel as [| fuel IH]; intros evs s s' evs'; [done |]. destruct evs as [| [b | | |] evs]; try done. cbn [fillBuf app]. cbv zeta.
  destruct (sslReadBlock 1 evs) as [[[| b1 [| ? ?]] |] e1] eqn:E1; try done.
  destruct (read_len _ e1) as [[len |] e2] eqn:E2; [| done].
  destruct (sslReadBlock_local _ _ _ _ E1) as [S1 M1], (read_len_local _ _ _ _ E2) as [S2 M2].
  destruct (if negb _ then sslReadBlock 4 e2 else _) as [[key |] e3] eqn:E3; [| done].
  assert (H3 : e3 `suffix_of` e2 /\ forall more, (if negb (Z.land (byte_val b1) 128 =? 0) then sslReadBlock 4 (e2 ++ more) else (Some [NUL; NUL; NUL; NUL], e2 ++ more)) = (Some key, e3 ++ more)).
  { destruct (negb _); [by apply sslReadBlock_local | by injection E3 as <- <-]. }
  destruct H3 as [S3 M3]. destruct (_ <? len) eqn:El; [done |].
  destruct (sslReadBlock (Z.to_nat len) e3) as [[pay |] e4] eqn:E4; [| done]. destruct (sslReadBlock_local _ _ _ _ E4) as [S4 M4].
  assert (Hs : e4 `suffix_of` Byte b :: evs) by (apply suffix_cons_r; do 3 (etrans; [eassumption |]); done).
  destruct (_ =? kOpcodeClose) eqn:Eo; [done |]. destruct (_ || _) eqn:Ep.
  - intros H. destruct (IH _ _ _ _ H) as [S5 M5]. split; [by etrans |]. intros more. rewrite M1, M2, M3, El, M4. apply M5.
  - intros [= Hb <- <-]. split; [done |]. intros more. rewrite M1, M2, M3, El, M4. by rewrite Hb.
Qed.

(** A frame whose events stop with its last byte is taken out of any sequence. *)
Lemma fillBuf_exact fuel f b evs more s :
  calm (Byte b :: evs) -> frame_ok f -> bytes_of (Byte b :: evs) = client_frame f -> (exists e c, evs = e ++ [Byte c]) ->
  drop (bufPos_ s) (sbuf s) = [] -> (fuel > 0)%nat ->
  fillBuf fuel (Byte b :: evs ++ more) s = (true, mkWsS f.2 0 false, more).
Proof.
  intros Hc Hf Hb (e & c & ->) Hd Hn. rewrite <- (app_nil_r (client_frame f)) in Hb.
  destruct (fillBuf_frame fuel _ f [] s Hc Hf Hb Hd Hn) as (evs' & E & Hc' & Hb' & Hl); [by eexists _, _ |].
  destruct (fillBuf_local _ _ _ _ _ E) as [Hs Hm]. change (Byte b :: (e ++ [Byte c]) ++ more) with ((Byte b :: e ++ [Byte c]) ++ more).
  rewrite Hm. assert (evs' = []) as ->; [| done]. destruct evs' as [| x l _] using rev_ind; [done |]. exfalso.
  destruct Hs as [k Hk]. rewrite app_assoc, (app_comm_cons e) in Hk. apply app_inj_2 in Hk as [_ [= <-]]; [| done].
  assert (Hx : bytes_of (l ++ [Byte c]) <> []); [| done]. clear. induction l as [| [| | |] l IH]; cbn; done.
Qed.

(** What the server still has to deliver: buffered bytes, then the payloads of
    the whole client frames in the events to come. *)
Definition serves (s : WsServerStream) (evs : list Event) (data : str) : Prop :=
  (bufPos_ s <= length (sbuf s))%nat /\ calm evs /\
  exists fs, bytes_of evs = concat (client_frame <$> fs) /\ Forall frame_ok fs /\
    data = drop (bufPos_ s) (sbuf s) ++ concat (snd <$> fs).

(** On a connection that pauses but does not fail, [recv] hands out the
    bytes the client wrote, unmasked, in order, across frame boundaries: every
    call returns a timeout after using up an event, or at least one byte and no
    more than asked for; it reports the end only when all has been delivered. *)
Lemma server_stream_transparent (maxLen : Z) (evs : list Event) (s : WsServerStream) (data : str)
  (Hm : 0 < maxLen) (Hs : serves s evs data) :
  match recv maxLen evs s with
  | (n, out, s', evs') =>
      (n = -1 /\ data = []) \/
      (n = 0 /\ out = [] /\ serves s' evs' data /\ (length evs' < length evs)%nat) \/
      (0 < n <= maxLen /\ Z.of_nat (length out) = n /\
       exists data', data = out ++ data' /\ serves s' evs' data')
  end.
Proof.
  destruct Hs as (Hp & Hc & fs & Hb & Hf & ->). unfold recv. rewrite (proj2 (Z.leb_gt _ _)) by done.
  destruct (Nat.leb_spec (length (sbuf s)) (bufPos_ s)) as [He|He].
  - rewrite (drop_ge (sbuf s)) by done. cbn [app].
    destruct evs as [|[b| | |] evs]; try (by apply Forall_cons in Hc as [[] _]).
    + left. cbn in *. split; [done|]. destruct fs as [|f fs]; [done|]. by destruct f.
    + destruct fs as [|f fs]; [by destruct evs|]. apply Forall_cons in Hf as [Hf Hfs].
      destruct (fillBuf_frame (S (length (Byte b :: evs))) (Byte b :: evs) f _ s Hc Hf Hb)
        as (evs' & -> & Hc' & Hb' & Hl'); [by apply drop_ge|lia|by eexists _, _|].
      right. right. cbn [sbuf bufPos_ timedOut_]. rewrite drop_0, Nat.sub_0_r.
      destruct Hf as (_ & Hne & _). assert (0 < length f.2)%nat by (destruct f.2; [done|cbn; lia]).
      split_conj; [lia|lia|rewrite length_take; lia|].
      set (k := Nat.min (Z.to_nat maxLen) (length f.2)).
      exists (drop k f.2 ++ concat (snd <$> fs)). split; [by rewrite app_assoc, take_drop|].
      split; [cbn; lia|]. split; [done|]. by exists fs.
    + right. left. cbn [fillBuf timedOut_]. split_conj; [done|done| |cbn; lia].
      split; [cbn; lia|]. apply Forall_cons in Hc as [_ Hc]. split; [done|]. exists fs.
      cbn [bufPos_ sbuf]. by rewrite drop_0, drop_ge by done.
  - right. right. set (k := Nat.min (Z.to_nat maxLen) (length (sbuf s) - bufPos_ s)).
    assert (Hlen : length (take k (drop (bufPos_ s) (sbuf s))) = k) by (rewrite length_take, length_drop; lia).
    split_conj; [lia|lia|by rewrite Hlen|].
    exists (drop (bufPos_ s + k) (sbuf s) ++ concat (snd <$> fs)). split.
    + by rewrite app_assoc, <- drop_drop, take_drop.
    + split; [cbn; lia|]. split; [done|]. by exists fs.
Qed.

(** Inside a frame a timeout of the socket, which TLS reports as a would-block,
    is retried without limit: whatever number of them occurs, the read goes on,
    so neither the idle limit nor the shutdown flag is looked at before the
    peer sends the rest of the frame. *)
Lemma stalled_frame_waits (k n : nat) (evs : list Event) : sslReadBlock (S n) (replicate k WantRead ++ evs) = sslReadBlock (S n) evs.
Proof. induction k as [| k IH]; [done |]. cbn [replicate app sslReadBlock]. exact IH. Qed.

Definition sample_key4 : str := [byte_of 1; byte_of 2; byte_of 3; byte_of 4].

Definition sample_events : list Event :=
  [Byte (byte_of 0x82); WantRead] ++
  (Byte <$> drop 1 (client_frame (sample_key4, ("D eth0 a b 1" : str)))) ++
  (Byte <$> client_frame (sample_key4, ("next" : str))).

Lemma sample_serves : serves (mkWsS [] 0 false) sample_events "D eth0 a b 1next".
Proof.
  split; [cbn; lia|]. split; [unfold calm; vm_compute; repeat constructor|].
  exists [(sample_key4, ("D eth0 a b 1" : str)); (sample_key4, ("next" : str))].
  split_conj; [vm_compute; reflexivity|repeat constructor; done|vm_compute; reflexivity].
Qed.

Definition sample_recv := recv 4096 sample_events (mkWsS [] 0 false).

Lemma sample_recv_n : sample_recv.1.1.1 = 12.
Proof. vm_compute. reflexivity. Qed.

Lemma server_stream_transparent_witness :
  Z.of_nat (length sample_recv.1.1.2) = 12 /\
  exists data', ("D eth0 a b 1next" : str) = sample_recv.1.1.2 ++ data' /\ serves sample_recv.1.2 sample_recv.2 data'.
Proof.
  pose proof (server_stream_transparent 4096 sample_events (mkWsS [] 0 false) "D eth0 a b 1next" ltac:(lia) sample_serves) as W.
  pose proof sample_recv_n as Hn. fold sample_recv in W. destruct sample_recv as [[[n out] s'] evs'].
  cbn [fst snd] in *. subst n. destruct W as [[W _]|[[W _]|(_ & W1 & W2)]]; [done|done|by split].
Defined.
