(* ===== verification/WsHandshake.v ===== *)
(** The HTTP upgrade that opens a WebSocket session: the client's request and
    its check of the answer ([client_websocket.hpp],
    [client_transport_websocket.cpp]), the server's reading of the request and
    its answer ([server_core.cpp]). *)

From S2P Require Import Prelude CppString Base64.

(** ** The HTTP upgrade *)

(** SHA-1 and the base64 block encoder are OpenSSL's. *)
Class WsCrypto := { sha1 : str -> str; EVP_EncodeBlock : str -> str }.

(** The encoder writes base64 characters only, four for every three bytes or
    part of three; a digest has 20 bytes. *)
Definition b64_alpha (c : ascii) : bool :=
  is_upper c || is_lower c || is_digit c || char_in ["+"%char; "/"%char; "="%char] c.
Class WsCryptoLaws (C : WsCrypto) := {
  encode_chars : forall s, Forall (fun c => b64_alpha c = true) (EVP_EncodeBlock s);
  encode_length : forall s, length (EVP_EncodeBlock s) = (4 * ((length s + 2) / 3))%nat;
  sha1_length : forall s, length (sha1 s) = 20%nat
}.

(* client_websocket.hpp:29-32 kWsGuid, kWsPath *)
Definition kWsGuid : str := "258EAFA5-E914-47DA-95CA-C5AB0DC85B11".
Definition kWsPath : str := "/ntm-ws".

Definition CRLF : str := [CR; LF].

(* client_websocket.hpp:99-109 buildUpgradeRequest *)
Definition buildUpgradeRequest (host key : str) : str :=
  "GET " ++ kWsPath ++ " HTTP/1.1" ++ CRLF ++
  "Host: " ++ host ++ CRLF ++
  "Upgrade: websocket" ++ CRLF ++
  "Connection: Upgrade" ++ CRLF ++
  "Sec-WebSocket-Key: " ++ key ++ CRLF ++
  "Sec-WebSocket-Version: 13" ++ CRLF ++ CRLF.

(* client_websocket.hpp:119-159 parseUpgradeResponse *)
Definition parseUpgradeResponse (response : str) : result str :=
  if (length response <? 12)%nat || negb (bool_decide (take 9 response = ("HTTP/1.1 " : str))) then
    Err "not an HTTP/1.1 response"
  else if decide (substr response 9 3 <> ("101" : str)) then
    Err ("expected 101, got: " ++
         match find_char CR response with Some e => take e response | None => response end)
  else
    let kAcceptHdr : str := "sec-websocket-accept: " in
    match find_str kAcceptHdr (to_lower response) with
    | None => Err "Sec-WebSocket-Accept header missing"
    | Some pos =>
        let pos := (pos + length kAcceptHdr)%nat in
        Ok (match find_char_from CR response pos with
            | Some e => substr response pos (e - pos)
            | None => substr_from response pos
            end)
    end.

(** Bytes are read one at a time through the blank line; [None] when the
    connection ends first. The limit ends the reading without one. *)
Fixpoint read_head (limit : nat) (acc input : str) : option (str * str) :=
  match limit with
  | O => Some (acc, input)
  | S limit' =>
      match input with
      | [] => None
      | c :: input' =>
          let acc := acc ++ [c] in
          if (4 <=? length acc)%nat && bool_decide (drop (length acc - 4) acc = CRLFCRLF)
          then Some (acc, input') else read_head limit' acc input'
      end
  end.

(** Empty on a failed read. *)
(* server_core.cpp:715-729 wsReadHttpRequest *)
Definition wsReadHttpRequest (input : str) : str * str :=
  default ([], []) (read_head (Z.to_nat 16384) [] input).

(* client_transport_websocket.cpp:81-95 readHttpResponse *)
Definition readHttpResponse (input : str) : str * str :=
  default ([], []) (read_head (Z.to_nat 8192) [] input).

(* server_core.cpp:732-745 wsComputeAccept *)
Definition wsComputeAccept `{WsCrypto} (key : str) : str := EVP_EncodeBlock (sha1 (key ++ kWsGuid)).

(* client_transport_websocket.cpp:42-52 computeAccept *)
Definition computeAccept `{WsCrypto} (key : str) : str :=
  let input := key ++ kWsGuid in EVP_EncodeBlock (sha1 input).

(* server_core.cpp:752-773 wsExtractKey *)
Definition wsExtractKey (request : str) : str :=
  let needle : str := "sec-websocket-key: " in
  match find_str needle (to_lower request) with
  | None => []
  | Some pos =>
      let pos := (pos + length needle)%nat in
      match (match find_char_from CR request pos with
             | Some e => Some e
             | None => find_char_from LF request pos
             end) with
      | None => []
      | Some e => trim_back (char_in [SP; CR]) (substr request pos (e - pos))
      end
  end.

Definition response_head (status : str) : str :=
  "HTTP/1.1 " ++ status ++ CRLF.

(** The server's answer to a request, and whether the session goes on. *)
(* server_core.cpp:1848-1890 wsConnectionThread, HTTP upgrade *)
Definition ws_upgrade `{WsCrypto} (httpReq : str) : str * bool :=
  if decide (httpReq = []) then ([], false)
  else match find_str ("GET " ++ kWsPath) httpReq with
       | None => (response_head "404 Not Found" ++ "Content-Length: 0" ++ CRLF ++ "Connection: close" ++ CRLFCRLF, false)
       | Some _ =>
           let key := wsExtractKey httpReq in
           if decide (key = []) then
             (response_head "400 Bad Request" ++ "Content-Length: 0" ++ CRLF ++ "Connection: close" ++ CRLFCRLF, false)
           else (response_head "101 Switching Protocols" ++ "Upgrade: websocket" ++ CRLF ++
                 "Connection: Upgrade" ++ CRLF ++
                 "Sec-WebSocket-Accept: " ++ wsComputeAccept key ++ CRLFCRLF, true)
       end.

(** [doHandshake] against the bytes the server sends back for the request; the
    result carries the bytes after the response. *)
(* client_transport_websocket.cpp:139-178 WebSocketTransport::doHandshake *)
Definition doHandshake `{WsCrypto} (random : str) (host : str) (serve : str -> str) : result str :=
  let key := EVP_EncodeBlock random in
  let expected := computeAccept key in
  let req := buildUpgradeRequest host key in
  let (response, rest) := readHttpResponse (serve req) in
  if decide (response = []) then Err "WebSocket upgrade: no response from server"
  else
    let! serverAccept := parseUpgradeResponse response in
    if decide (serverAccept <> expected) then
      Err ("WebSocket Sec-WebSocket-Accept mismatch (expected=" ++ expected ++ " got=" ++ serverAccept ++ ")")
    else Ok rest.


(** ** Client and server agree *)

(** Reading stops right after the first blank line. *)
Lemma read_head_spec limit h acc todo rest :
  acc ++ todo = h ++ CRLFCRLF -> todo <> [] -> (length todo <= limit)%nat ->
  find_str CRLFCRLF (h ++ CRLFCRLF) = Some (length h) ->
  read_head limit acc (todo ++ rest) = Some (h ++ CRLFCRLF, rest).
Proof.
  intros E Hne Hl Hf. revert acc todo E Hne Hl.
  induction limit as [|limit IH]; intros acc [|c todo] E Hne Hl; cbn in Hl; try done; try lia.
  assert (E' : (acc ++ [c]) ++ todo = h ++ CRLFCRLF) by (by rewrite <- app_assoc).
  cbn [read_head app]. destruct (_ && _) eqn:Hend.
  - apply andb_true_iff in Hend as [Hlen Hd]. apply Nat.leb_le in Hlen. apply bool_decide_eq_true in Hd.
    assert (Hx : h ++ CRLFCRLF = take (length (acc ++ [c]) - 4) (acc ++ [c]) ++ CRLFCRLF ++ todo).
    { rewrite <- E', <- (take_drop (length (acc ++ [c]) - 4) (acc ++ [c])) at 1. rewrite Hd. by rewrite <- app_assoc. }
    pose proof (find_str_first _ _ _ Hf _ _ Hx) as Hi. rewrite length_take in Hi.
    assert (todo = []) as ->.
    { apply (f_equal length) in E'. rewrite !length_app in E'. rewrite length_app in Hi, Hlen.
      change (length CRLFCRLF) with 4%nat in E'. destruct todo; [done|]. cbn in *. lia. }
    by rewrite app_nil_r in E'; rewrite E'.
  - destruct todo as [|d todo].
    + exfalso. rewrite app_nil_r in E'. rewrite E' in Hend. rewrite length_app in Hend.
      change (length CRLFCRLF) with 4%nat in Hend. replace (length h + 4 - 4)%nat with (length h) in Hend by lia.
      rewrite drop_app_length, bool_decide_eq_true_2 in Hend by done.
      rewrite (proj2 (Nat.leb_le _ _)) in Hend by lia. done.
    + apply IH; [done|done|cbn in *; lia].
Qed.

(** A host name: nothing that ends a line or a header name. *)
Definition host_ok (host : str) : Prop :=
  (CR ∉ host) /\ (SP ∉ host) /\ (length host <= 253)%nat.

(** A key or accept value: base64 characters. *)
Definition value_ok (v : str) : Prop := Forall (fun c => b64_alpha c = true) v.

Lemma b64_not_special c d : b64_alpha d = false -> b64_alpha c = true -> c <> d.
Proof. intros H1 H2 ->. congruence. Qed.

Lemma value_no d v : b64_alpha d = false -> value_ok v -> d ∉ v.
Proof.
  intros Hd Hv Hin. unfold value_ok in Hv. rewrite Forall_forall in Hv. specialize (Hv _ Hin). congruence.
Qed.

Lemma value_stops v : value_ok v -> trim_back (char_in [SP; CR]) v = v.
Proof.
  intros Hv. apply trim_back_id. unfold value_ok in Hv.
  destruct (rev v) as [|c r] eqn:E; [done|]. cbn.
  assert (Hc : c ∈ v).
  { rewrite <- (rev_involutive v), E. cbn. rewrite elem_of_app. right. by left. }
  rewrite Forall_forall in Hv. specialize (Hv _ Hc).
  unfold char_in. apply bool_decide_eq_false. rewrite !elem_of_cons.
  intros [->|[->|H]]; [by vm_compute in Hv|by vm_compute in Hv|by apply not_elem_of_nil in H].
Qed.

Lemma tolower_CR c : tolower c = CR -> c = CR.
Proof.
  assert (W : forall c, implb (bool_decide (tolower c = CR)) (bool_decide (c = CR)) = true)
    by (apply byte_forall; vm_compute; reflexivity).
  intros H. specialize (W c). rewrite (bool_decide_eq_true_2 _ H) in W. by apply bool_decide_eq_true in W.
Qed.

Lemma tolower_SP c : tolower c = SP -> c = SP.
Proof.
  assert (W : forall c, implb (bool_decide (tolower c = SP)) (bool_decide (c = SP)) = true)
    by (apply byte_forall; vm_compute; reflexivity).
  intros H. specialize (W c). rewrite (bool_decide_eq_true_2 _ H) in W. by apply bool_decide_eq_true in W.
Qed.

Lemma to_lower_app a b : to_lower (a ++ b) = to_lower a ++ to_lower b.
Proof. apply fmap_app. Qed.

(** The request up to the value of the key header. *)
Definition request_front (host : str) : str :=
  "GET " ++ kWsPath ++ " HTTP/1.1" ++ CRLF ++ "Host: " ++ host ++ CRLF ++
  "Upgrade: websocket" ++ CRLF ++ "Connection: Upgrade" ++ CRLF.
Definition key_header : str := "Sec-WebSocket-Key: ".
Definition request_end : str := CRLF ++ "Sec-WebSocket-Version: 13".

Lemma request_parts host key :
  buildUpgradeRequest host key = request_front host ++ key_header ++ key ++ request_end ++ CRLFCRLF.
Proof. unfold buildUpgradeRequest, request_front. by rewrite <- !app_assoc. Qed.

Definition needle : str := "sec-websocket-key: ".

Lemma absent (c : ascii) (s : str) : forallb (fun d => negb (bool_decide (d = c))) s = true -> c ∉ s.
Proof.
  intros H Hin. rewrite forallb_Forall, Forall_forall in H. specialize (H _ Hin).
  apply negb_true_iff, bool_decide_eq_false in H. done.
Qed.

(** Where a byte occurs once, it splits the text in one way. *)
Lemma single_split (c : ascii) (a b a' b' : str) :
  c ∉ a -> c ∉ b -> a ++ c :: b = a' ++ c :: b' -> length a' = length a.
Proof.
  intros Ha Hb E. assert (Hl : (a ++ c :: b) !! length a' = Some c).
  { rewrite E. by apply list_lookup_middle. }
  destruct (Nat.lt_trichotomy (length a') (length a)) as [H|[H|H]]; [|done|]; exfalso.
  - rewrite lookup_app_l in Hl by done. by apply Ha, (list_elem_of_lookup_2 _ (length a')).
  - rewrite lookup_app_r in Hl by lia. destruct (length a' - length a)%nat as [|k] eqn:Ek; [lia|].
    by apply Hb, (list_elem_of_lookup_2 _ k).
Qed.

(** No key header before the key header. *)
Lemma host_no_needle host : host_ok host -> find_str needle (to_lower (LF :: "Host: " ++ host)) = None.
Proof.
  intros (_ & Hs & _). apply find_str_None. intros x y E.
  assert (E1 : (LF :: "host:") ++ SP :: to_lower host = (x ++ "sec-websocket-key:") ++ SP :: y).
  { transitivity (to_lower (LF :: "Host: " ++ host)); [done|]. rewrite E, <- app_assoc. done. }
  apply single_split in E1; [|by apply absent|].
  - rewrite length_app in E1. cbn in E1. lia.
  - unfold to_lower. intros (c & Hc & Hin)%list_elem_of_fmap. symmetry in Hc. apply tolower_SP in Hc as ->. done.
Qed.

Lemma key_found host r :
  host_ok host -> find_str needle (to_lower (request_front host ++ key_header ++ r)) = Some (length (request_front host)).
Proof.
  intros Hh.
  assert (E : to_lower (request_front host ++ key_header ++ r)
    = to_lower ("GET " ++ kWsPath ++ " HTTP/1.1") ++ CR :: to_lower (LF :: "Host: " ++ host)
      ++ CR :: to_lower (LF :: "Upgrade: websocket") ++ CR :: to_lower (LF :: "Connection: Upgrade")
      ++ CR :: [LF] ++ needle ++ to_lower r).
  { unfold request_front. rewrite !to_lower_app, <- !app_assoc. done. }
  assert (Hc : CR ∉ needle) by (by apply absent).
  rewrite E. rewrite !find_str_sep; try done; try by vm_compute.
  - change ([LF] ++ needle ++ to_lower r) with (LF :: needle ++ to_lower r).
    rewrite find_str_eq. change (starts_with needle (LF :: needle ++ to_lower r)) with false. cbv iota.
    rewrite find_str_here. cbn [fmap option_fmap option_map]. f_equal.
    unfold to_lower, request_front. rewrite !length_app, !length_fmap. cbn [length app]. rewrite !length_app. cbn. lia.
  - by apply host_no_needle.
Qed.

(** A line after a line end, which is not a blank one. *)
Lemma find_blank_line d l r :
  d <> CR -> CR ∉ l ->
  find_str CRLFCRLF (CR :: LF :: d :: l ++ r) = Nat.add (3 + length l) <$> find_str CRLFCRLF r.
Proof.
  intros Hd Hl. rewrite find_str_eq.
  assert (starts_with CRLFCRLF (CR :: LF :: d :: l ++ r) = false) as ->.
  { change (bool_decide (CR = CR) && (bool_decide (LF = LF) && (bool_decide (CR = d) && starts_with [LF] (l ++ r))) = false).
    rewrite (bool_decide_eq_false_2 (CR = d)) by congruence. by rewrite !andb_false_r. }
  change (LF :: d :: l ++ r) with ((LF :: d :: l) ++ r). change CRLFCRLF with (CR :: [LF; CR; LF]).
  rewrite find_str_skip by (rewrite !not_elem_of_cons; done). by destruct (find_str _ r).
Qed.

Lemma find_blank_end : find_str CRLFCRLF CRLFCRLF = Some 0%nat.
Proof. reflexivity. Qed.

Lemma find_blank_first l r : CR ∉ l -> find_str CRLFCRLF (l ++ r) = Nat.add (length l) <$> find_str CRLFCRLF r.
Proof. apply find_str_skip. Qed.

Definition request_head (host key : str) : str := request_front host ++ key_header ++ key ++ request_end.

Lemma request_blank host key :
  host_ok host -> CR ∉ key ->
  find_str CRLFCRLF (request_head host key ++ CRLFCRLF) = Some (length (request_head host key)).
Proof.
  intros (Hh & _ & _) Hk.
  assert (E : request_head host key ++ CRLFCRLF =
    ("GET " ++ kWsPath ++ " HTTP/1.1") ++ CR :: LF :: "H"%char :: ("ost: " ++ host) ++
    CR :: LF :: "U"%char :: "pgrade: websocket" ++ CR :: LF :: "C"%char :: "onnection: Upgrade" ++
    CR :: LF :: "S"%char :: ("ec-WebSocket-Key: " ++ key) ++ CR :: LF :: "S"%char :: "ec-WebSocket-Version: 13" ++ CRLFCRLF).
  { unfold request_head, request_front. rewrite <- !app_assoc. done. }
  rewrite E. rewrite find_blank_first by (by apply absent).
  rewrite !find_blank_line; try done; try (by apply absent);
    try (rewrite elem_of_app; intros [H|H]; [by apply (absent CR) in H|done]).
  rewrite find_blank_end. cbn [fmap option_fmap option_map]. f_equal.
  unfold request_head, request_front, key_header, request_end. rewrite !length_app. cbn. lia.
Qed.

Section Agree.
Context `{WC : WsCrypto} {WL : WsCryptoLaws WC}.

Definition response_front : str :=
  response_head "101 Switching Protocols" ++ "Upgrade: websocket" ++ CRLF ++ "Connection: Upgrade" ++ CRLF ++
  "Sec-WebSocket-Accept: ".

Lemma response_blank v :
  CR ∉ v -> find_str CRLFCRLF ((response_front ++ v) ++ CRLFCRLF) = Some (length (response_front ++ v)).
Proof.
  intros Hv.
  assert (E : (response_front ++ v) ++ CRLFCRLF =
    "HTTP/1.1 101 Switching Protocols" ++ CR :: LF :: "U"%char :: "pgrade: websocket" ++
    CR :: LF :: "C"%char :: "onnection: Upgrade" ++ CR :: LF :: "S"%char :: ("ec-WebSocket-Accept: " ++ v) ++ CRLFCRLF).
  { unfold response_front, response_head. rewrite <- !app_assoc. done. }
  rewrite E. rewrite find_blank_first by (by apply absent).
  rewrite !find_blank_line; try done; try (by apply absent);
    try (rewrite elem_of_app; intros [H|H]; [by apply (absent CR) in H|done]).
  rewrite find_blank_end. cbn [fmap option_fmap option_map]. f_equal.
  rewrite !length_app. cbn. lia.
Qed.

Lemma wsReadHttpRequest_request host key rest :
  host_ok host -> CR ∉ key -> (length key <= 100)%nat ->
  wsReadHttpRequest (buildUpgradeRequest host key ++ rest) = (buildUpgradeRequest host key, rest).
Proof.
  intros Hh Hk Hl. unfold wsReadHttpRequest.
  assert (E : buildUpgradeRequest host key = request_head host key ++ CRLFCRLF).
  { rewrite request_parts. unfold request_head. by rewrite <- !app_assoc. }
  rewrite (read_head_spec _ (request_head host key) []); [by rewrite E|by rewrite E| | |by apply request_blank].
  - rewrite E. by destruct (request_head host key).
  - destruct Hh as (_ & _ & Hh). rewrite E. unfold request_head, request_front. rewrite !length_app.
    cbn [length]. change (length (list_ascii_of_string _)) with 0%nat || idtac. apply Nat2Z.inj_le. rewrite Z2Nat.id by lia.
    cbn. lia.
Qed.

Lemma wsExtractKey_request host key :
  host_ok host -> value_ok key -> wsExtractKey (buildUpgradeRequest host key) = key.
Proof.
  intros Hh Hk. unfold wsExtractKey. rewrite request_parts.
  fold needle. rewrite key_found by done. cbn [length].
  assert (Hd : drop (length (request_front host) + length needle)
                 (request_front host ++ key_header ++ key ++ request_end ++ CRLFCRLF)
               = key ++ CR :: LF :: "Sec-WebSocket-Version: 13" ++ CRLFCRLF).
  { rewrite <- drop_drop, drop_app_length. done. }
  unfold find_char_from. rewrite Hd, find_char_app by (by apply value_no). cbn [fmap option_fmap option_map].
  unfold substr. rewrite Hd. replace (_ + length key - _)%nat with (length key) by lia.
  rewrite take_app_length. by apply value_stops.
Qed.

Lemma parseUpgradeResponse_response v :
  value_ok v -> parseUpgradeResponse (response_front ++ v ++ CRLFCRLF) = Ok v.
Proof.
  intros Hv. unfold parseUpgradeResponse.
  assert ((length (response_front ++ v ++ CRLFCRLF) <? 12)%nat = false) as ->.
  { apply Nat.ltb_ge. rewrite length_app. change (length response_front) with 97%nat. lia. }
  change (take 9 (response_front ++ v ++ CRLFCRLF)) with (("HTTP/1.1 " : str)).
  rewrite bool_decide_eq_true_2 by done. cbn [negb orb].
  change (substr (response_front ++ v ++ CRLFCRLF) 9 3) with (("101" : str)).
  rewrite decide_False by tauto.
  assert (find_str "sec-websocket-accept: " (to_lower (response_front ++ v ++ CRLFCRLF)) = Some 75%nat) as ->.
  { rewrite to_lower_app. reflexivity. }
  assert (Hd : drop (75 + length ("sec-websocket-accept: " : str)) (response_front ++ v ++ CRLFCRLF) = v ++ CR :: [LF; CR; LF]) by done.
  unfold find_char_from, substr, substr_from. rewrite Hd, find_char_app by (by apply value_no).
  cbn [fmap option_fmap option_map]. replace (_ + length v - _)%nat with (length v) by lia.
  by rewrite take_app_length.
Qed.

Lemma server_upgrades (random host more : str) (Hr : length random = 16%nat) (Hh : host_ok host) :
  let key := EVP_EncodeBlock random in
  let request := buildUpgradeRequest host key in
  wsReadHttpRequest (request ++ more) = (request, more) /\
  ws_upgrade request = (response_front ++ wsComputeAccept key ++ CRLFCRLF, true).
Proof.
  cbn zeta. set (key := EVP_EncodeBlock random).
  assert (Hk : value_ok key) by apply encode_chars.
  assert (Hl : length key = 24%nat) by (unfold key; rewrite encode_length, Hr; done).
  split; [apply wsReadHttpRequest_request; [done | by apply value_no | lia] |].
  unfold ws_upgrade. rewrite decide_False by done.
  assert (find_str ("GET " ++ kWsPath) (buildUpgradeRequest host key) = Some 0%nat) as -> by reflexivity.
  rewrite wsExtractKey_request by done. rewrite decide_False by (by destruct key).
  unfold response_front. by rewrite <- !app_assoc.
Qed.

(** Client and server complete the upgrade: for any host name and random
    key the server accepts the client's request, the client accepts the
    server's answer, and each side reads exactly to the end of the other's
    message, so the first frame bytes are left for the frame reader. *)
Lemma handshake_agrees (random host frames more : str)
  (Hr : length random = 16%nat) (Hh : host_ok host) :
  let request := buildUpgradeRequest host (EVP_EncodeBlock random) in
  wsReadHttpRequest (request ++ more) = (request, more) /\
  snd (ws_upgrade request) = true /\
  doHandshake random host (fun req => fst (ws_upgrade (fst (wsReadHttpRequest req))) ++ frames) = Ok frames.
Proof.
  cbn zeta. destruct (server_upgrades random host more Hr Hh) as [Hread Hup]. destruct (server_upgrades random host [] Hr Hh) as [Hread0 _].
  cbv zeta in *. set (key := EVP_EncodeBlock random) in *.
  assert (Hv : value_ok (wsComputeAccept key)) by apply encode_chars.
  split_conj; [done|by rewrite Hup|].
  unfold doHandshake. fold key. rewrite app_nil_r in Hread0. rewrite Hread0. cbn [fst]. rewrite Hup. cbn [fst].
  unfold readHttpResponse. rewrite app_assoc.
  rewrite (read_head_spec _ (response_front ++ wsComputeAccept key) []); [|done|done| |].
  - cbn [default]. unfold default, id. rewrite decide_False by done. rewrite <- app_assoc, parseUpgradeResponse_response by done.
    by rewrite decide_False by tauto.
  - rewrite !length_app. unfold wsComputeAccept. rewrite encode_length, sha1_length. apply Nat2Z.inj_le. rewrite Z2Nat.id by lia. vm_compute. done.
  - apply response_blank. by apply value_no.
Qed.

End Agree.

(** ** Witness: the reference base64 encoder, and a digest of fixed size *)

#[export] Instance sample_ws_crypto : WsCrypto := {
  sha1 s := take 20 (s ++ repeat NUL 20);
  EVP_EncodeBlock := b64Encode
}.

Lemma b64_sym_alpha v : 0 <= v < 64 -> b64_alpha (b64_sym v) = true.
Proof.
  intros Hv. assert (E : forallb (fun i => b64_alpha (b64_sym (Z.of_nat i))) (seq 0 64) = true) by (vm_compute; reflexivity).
  rewrite forallb_forall in E. specialize (E (Z.to_nat v)). rewrite Z2Nat.id in E by lia. apply E, in_seq. lia.
Qed.

#[export] Instance sample_ws_crypto_laws : WsCryptoLaws sample_ws_crypto.
Proof.
  split; cbn [sha1 EVP_EncodeBlock sample_ws_crypto].
  - intros s. induction s as [|a|a b|a b c s IH] using list3_ind; cbn [b64Encode].
    + apply Forall_nil. done.
    + pose proof (byte_val_range a). rewrite !Forall_cons. split_conj; try done;
        apply b64_sym_alpha; Z.to_euclidean_division_equations; lia.
    + pose proof (byte_val_range a). pose proof (byte_val_range b). rewrite !Forall_cons. split_conj; try done;
        apply b64_sym_alpha; Z.to_euclidean_division_equations; lia.
    + pose proof (byte_val_range a). pose proof (byte_val_range b). pose proof (byte_val_range c).
      rewrite !Forall_cons. split_conj; try done; apply b64_sym_alpha; Z.to_euclidean_division_equations; lia.
  - intros s. induction s as [|a|a b|a b c s IH] using list3_ind; [done|done|done|].
    cbn [b64Encode length]. rewrite IH. clear IH. set (n := length s). clearbody n.
    replace (S (S (S n)) + 2)%nat with (n + 2 + 1 * 3)%nat by lia. rewrite Nat.div_add by lia. lia.
  - intros s. rewrite length_take, length_app, repeat_length. lia.
Qed.

Lemma handshake_agrees_witness :
  doHandshake "0123456789abcdef" "ntm.example.org"
    (fun req => fst (ws_upgrade (fst (wsReadHttpRequest req))) ++ ("frames" : str)) = Ok ("frames" : str).
Proof.
  apply (handshake_agrees "0123456789abcdef" "ntm.example.org" "frames" []); [done|].
  unfold host_ok. split_conj; [by apply absent|by apply absent|cbn; lia].
Defined.
