(* ===== verification/Worker.v ===== *)
(** The worker of a connection ([server_core.cpp]): after the accept loop has
    made the TLS handshake, a thread upgrades the connection when it is a
    WebSocket, authenticates the peer, registers the session, runs the receive
    loop and cleans up. One function per thread, over what successive TLS reads
    give; the parts are those of [Auth], [WsHandshake], [WebSocket] and
    [WireLoop]. Places and addresses of a worker are in [Accept]. *)

From S2P Require Import Prelude CppString Wire TrafficStats Registry Upgrade Auth WireLoop WebSocket WsHandshake.
From stdpp Require Import list.
Local Open Scope Z_scope.

(** ** Byte channels *)

(** What successive [SSL_read]s on a plain connection find: the bytes of a
    record, a timeout, a failure. An empty record and the end of the list are a
    closed connection. *)
Inductive TlsRead := Rec (b : str) | Wait | Down.

(** [readExact] gives up on anything but bytes. *)
(* server_core.cpp:475-488 readExact, loop *)
Fixpoint read_all (n : nat) (rs : list TlsRead) : option str * list TlsRead :=
  match rs with
  | Rec b :: rs =>
      if decide (b = []) then (None, rs)
      else if (n <? length b)%nat then (Some (take n b), Rec (drop n b) :: rs)
      else if (length b =? n)%nat then (Some b, rs)
      else let (o, rs) := read_all (n - length b) rs in (app b <$> o, rs)
  | _ :: rs => (None, rs)
  | [] => (None, [])
  end.

Definition kMaxIOBytes : nat := Z.to_nat (2 * 1024 * 1024).

(* server_core.cpp:470-489 readExact *)
Definition tls_readExact (n : nat) (rs : list TlsRead) : option str * list TlsRead :=
  if (n =? 0)%nat || (kMaxIOBytes <? n)%nat then (None, rs) else read_all n rs.

Definition kRecvBuf : nat := Z.to_nat 4096.

(* server_core.cpp:1748-1762 connectionThread, tcpRecvFn *)
Definition tcp_recv (rs : list TlsRead) : Recv * list TlsRead :=
  match rs with
  | Rec b :: rs =>
      if decide (b = []) then (Gone, rs)
      else if (kRecvBuf <? length b)%nat then (Data (take kRecvBuf b), Rec (drop kRecvBuf b) :: rs)
      else (Data b, rs)
  | Wait :: rs => (Retry, rs)
  | Down :: rs => (Gone, rs)
  | [] => (Gone, [])
  end.

(* server_core.cpp:1997-1999 wsConnectionThread, wsRecvFn *)
Definition ws_recv (c : list Event * WsServerStream) : Recv * (list Event * WsServerStream) :=
  let '(n, out, s, evs) := recv (Z.of_nat kRecvBuf) c.1 c.2 in
  (if 0 <? n then Data out else if n =? 0 then Retry else Gone, (evs, s)).

(* server_core.cpp:1913-1914 wsConnectionThread, wsReadFn *)
Definition ws_read (n : nat) (c : list Event * WsServerStream) : option str * (list Event * WsServerStream) :=
  let '(o, s, evs) := server_readExact n c.1 c.2 in (o, (evs, s)).

(** What the rest of a worker sees of its connection: exact reads, the receive
    function of the loop, and the bytes a write puts on the wire. *)
Record Channel (R : Type) := mkChannel { ch_read : nat -> R -> option str * R; ch_recv : R -> Recv * R; ch_frame : str -> str }.
Arguments mkChannel {R}.
Arguments ch_read {R}.
Arguments ch_recv {R}.
Arguments ch_frame {R}.

Definition tcp_channel : Channel (list TlsRead) := mkChannel tls_readExact tcp_recv id.
Definition ws_channel : Channel (list Event * WsServerStream) := mkChannel ws_read ws_recv writeFrame.

(** A connection: what is still to be read, the result of the [i]-th write from
    here on, and what has been written. *)
Record Link (R : Type) := mkLink { l_in : R; l_wr : nat -> bool; l_out : list str }.
Arguments mkLink {R}.
Arguments l_in {R}.
Arguments l_wr {R}.
Arguments l_out {R}.

(** The authentication program on a channel. *)
Fixpoint run_io {R A} (ch : Channel R) (p : io A) (l : Link R) : A * Link R :=
  match p with
  | Ret a => (a, l)
  | Read n k => let (o, r) := ch_read ch n (l_in l) in run_io ch (k o) (mkLink r (l_wr l) (l_out l))
  | Write s k => run_io ch (k (l_wr l 0%nat)) (mkLink (l_in l) (fun i => l_wr l (S i)) (l_out l ++ [ch_frame ch s]))
  end.

(** ** The threads *)

Section Workers.
Context `{IN : Inet} `{HASH : StdHash} `{ED : Ed25519} `{WC : WsCrypto} {IF : Inflater}.
Variables (z_init : ZState) (config : WireConfig) (clientsStore : AllowedClientsStore).

(** One turn of the receive loop: [g_running], and the clock at its readings. *)
Record Turn := mkTurn { t_running : bool; t_now : Clock; t_clk : nat -> Clock }.

(** What a worker meets besides the peer: whether it was given a TLS session,
    whether the socket timeouts can be set, the nonce, the clock at a rejection,
    at the start of the session (before the authentication), and twice on
    entering the loop, and the turns of the loop. *)
Record Surroundings := mkSur {
  v_ssl : bool; v_authTimeout : bool; v_loopTimeout : bool;
  v_nonce : option str; v_rejectedAt : Z; v_started : Clock; v_entered : Clock * Clock; v_turns : list Turn
}.

(** A worker has ended, is still in its loop, or has met undefined behaviour. *)
Inductive WorkerEnd := Ended (w : Shared) | InLoop (w : Shared) | Undef.

(* server_core.cpp:1764-1766 connectionThread, data loop *)
Fixpoint data_loop {R} (ch : Channel R) (clientId clientIp : str) (start : Z) (ts : list Turn) (ws : Shared * Session) (z : option ZState)
  (buffer : str) (r : R) : WorkerEnd :=
  match ts with
  | [] => InLoop ws.1
  | t :: ts =>
      let (rv, r) := ch_recv ch r in
      match loop_round config clientId clientIp start (t_running t) (t_now t) rv (t_clk t) ws z buffer with
      | Continue ws z buffer => data_loop ch clientId clientIp start ts ws z buffer r
      | Stop ws => Ended ws.1
      | Undefined => Undef
      end
  end.

(** From the authentication on; the cleanup guards run on every way out. *)
(* server_core.cpp:1644-1768 connectionThread, session *)
Definition session {R} (ch : Channel R) (v : Surroundings) (clientIp : str) (l : Link R) (w : Shared) : WorkerEnd :=
  if negb (v_authTimeout v) then Ended w
  else
    let (p, l) := run_io ch (auth_phase clientsStore (v_nonce v)) l in
    match p with
    | Lost => Ended w
    | Refused _ => Ended (set_registry (record_rejection clientIp (v_rejectedAt v) p (registry w)) w)
    | Granted a =>
        let z := if negb (Z.land (negotiatedCaps a) kCapZlib =? 0) then Some z_init else None in
        let w := session_start (clientId a) clientIp w in
        let close w := session_end (clientId a) w in
        if negb (v_loopTimeout v) then Ended (close w)
        else match data_loop ch (clientId a) clientIp (steady (v_started v)) (v_turns v) (w, session_init w (v_entered v).1 (v_entered v).2) z [] (l_in l) with
             | Ended w => Ended (close w)
             | o => o
             end
    end.

(* server_core.cpp:1557-1780 connectionThread *)
Definition connectionThread (v : Surroundings) (clientIp : str) (wr : nat -> bool) (rs : list TlsRead) (w : Shared) : WorkerEnd :=
  if negb (v_ssl v) then Ended w else session tcp_channel v clientIp (mkLink rs wr []) w.

(** The bytes before the first read that is not a byte. *)
Fixpoint front (evs : list Event) : str * list Event :=
  match evs with Byte b :: evs => let (s, evs) := front evs in (b :: s, evs) | _ => ([], evs) end.

(** Every [SSL_read] must give a byte. *)
Definition read_request_upto (limit : nat) (evs : list Event) : str * list Event :=
  let (s, rest) := front evs in
  match read_head limit [] s with Some (req, more) => (req, (Byte <$> more) ++ rest) | None => ([], rest) end.

(* server_core.cpp:715-729 wsReadHttpRequest, reads *)
Definition read_request (evs : list Event) : str * list Event := read_request_upto (Z.to_nat 16384) evs.

(* server_core.cpp:1793-2014 wsConnectionThread *)
Definition wsConnectionThread (v : Surroundings) (clientIp : str) (wr : nat -> bool) (evs : list Event) (w : Shared) : WorkerEnd :=
  if negb (v_ssl v) then Ended w
  else
    let (req, evs) := read_request evs in
    let (resp, upgraded) := ws_upgrade req in
    if negb upgraded then Ended w
    else if negb (wr 0%nat) then Ended w
    else session ws_channel v clientIp (mkLink (evs, mkWsS [] 0 false) (fun i => wr (S i)) [resp]) w.
End Workers.

(** The keep-alive loop of a dashboard connection: the results of
    [process_request], the success and whether it closed the connection, for
    each request in turn. The list gives the [isLast] flag of each request
    served. *)
(* server_core.cpp:2361-2401 httpWebThread, keep-alive *)
Fixpoint keep_alive (keepAlive : nat) (results : nat -> bool * bool) : list bool :=
  match keepAlive with
  | O => []
  | S keepAlive =>
      let isLast := (keepAlive =? 0)%nat in
      let (ok, connClosed) := results 0%nat in
      isLast :: (if negb ok || connClosed || isLast then [] else keep_alive keepAlive (fun i => results (S i)))
  end.

(* server_core.cpp:2361-2361 httpWebThread, keepAlive *)
Definition kKeepAliveMaxCount : nat := 100.

(** ** Lemmas *)

(** *** The keep-alive loop *)

(** No connection serves more than the configured number of requests, and
    exactly the last of them is announced as closing, in case there are that
    many. *)
Lemma keep_alive_spec n results :
  (length (keep_alive n results) <= n)%nat /\
  forall i b, keep_alive n results !! i = Some b -> b = bool_decide (S i = n).
Proof.
  revert results. induction n as [| n IH]; intros results; [split; [done |]; intros i b H; discriminate H |].
  cbn [keep_alive]. destruct (results 0%nat) as [ok cl]. destruct (IH (fun i => results (S i))) as [Hl Hi]. split.
  - destruct (_ || _ || _); cbn [length]; lia.
  - intros [| i] b; cbn.
    + intros [= <-]. apply eq_bool_prop_intro. rewrite bool_decide_spec. split; intros H; [apply Is_true_true, Nat.eqb_eq in H | apply Is_true_true, Nat.eqb_eq]; lia.
    + destruct (negb ok || cl || (n =? 0)%nat); [intros H; discriminate H |]. intros H%Hi. rewrite H. apply bool_decide_ext. lia.
Qed.

(** *** What authentication grants *)

(** All results of a program, whatever its reads and writes give. *)
Fixpoint io_all {A} (P : A -> Prop) (p : io A) : Prop :=
  match p with
  | Ret a => P a
  | Read _ k => forall o, io_all P (k o)
  | Write _ k => forall b, io_all P (k b)
  end.

Lemma run_io_all {R A} (ch : Channel R) (P : A -> Prop) (p : io A) : forall l, io_all P p -> P (run_io ch p l).1.
Proof.
  induction p as [a | n k IH | s k IH]; intros l H; cbn [run_io]; [exact H | | by apply IH, H].
  destruct (ch_read ch n (l_in l)) as [o r]. by apply IH, H.
Qed.

Lemma io_all_bind {A B} (P : A -> Prop) (Q : B -> Prop) (f : A -> io B) (p : io A) :
  io_all P p -> (forall a, P a -> io_all Q (f a)) -> io_all Q (io_bind p f).
Proof. intros H Hf. induction p as [a | n k IH | s k IH]; cbn in *; [by apply Hf | intros o; by apply IH | intros b; by apply IH]. Qed.

Section Confined.
Context `{IN : Inet} `{HASH : StdHash, HASHL : !StdHashLaws HASH} `{ED : Ed25519} `{WC : WsCrypto} {IF : Inflater}.
Variables (z_init : ZState) (config : WireConfig) (clientsStore : AllowedClientsStore).

(** The peer has proved to hold a listed key, whose hexadecimal is [cid]. *)
Definition proved (v : Surroundings) (cid : str) : Prop :=
  exists pub sig nonce, v_nonce v = Some nonce /\ pub ∈ keys clientsStore /\
    ed_verify pub (kAuthSignPrefixV2 ++ nonce) sig = true /\ cid = hexEncode pub /\ cid <> [].

Lemma challenge_all v extra accept (Ha : forall raw resp, clientId (accept raw resp) = pubkeyToIdHex raw) :
  io_all (fun a => clientId a <> [] -> proved v (clientId a)) (challenge (keys clientsStore) (v_nonce v) extra accept).
Proof.
  assert (Hn : forall v0, (clientId (rejected v0) <> [] -> proved v (clientId (rejected v0)))) by (intros v0 H; by destruct H).
  unfold challenge. destruct (v_nonce v) as [nonce |] eqn:En; cbn [io_all]; [| exact (Hn _)]. intros [|]; cbn [negb io_all]; [| exact (Hn _)].
  intros [resp |]; [| exact (Hn _)]. destruct (allowedKeysContains _ _) eqn:Hk; [| exact (Hn _)]. cbn [negb]. destruct (ed_verify _ _ _) eqn:Hv; [| exact (Hn _)].
  cbn [io_all]. intros Hne. apply allowedKeysContains_spec in Hk as [_ Hk]. rewrite Ha in *.
  eexists _, _, nonce. rewrite En. split_conj; [done | exact Hk | exact Hv | done | done].
Qed.

Lemma auth_phase_all v : io_all (fun p => match p with Granted a => proved v (clientId a) | _ => True end) (auth_phase clientsStore (v_nonce v)).
Proof.
  unfold auth_phase. apply (io_all_bind (fun a => clientId a <> [] -> proved v (clientId a))).
  - assert (Hn : forall v0, (clientId (rejected v0) <> [] -> proved v (clientId (rejected v0)))) by (intros v0 H; by destruct H).
    unfold verifyClientAuth. destruct (decide _); [exact (Hn _) |]. intros [[| c [|]] |]; try exact (Hn _).
    destruct (_ =? kAuthVersionV2); [by apply challenge_all |]. destruct (_ =? kAuthVersionV3); [by apply challenge_all | exact (Hn _)].
  - intros a Ha. destruct (decide (clientId a = [])) as [_ | Hne]; [by intros b |]. intros [|]; cbn [negb io_all]; [| done].
    destruct (isV3 a); [| by apply Ha]. intros [|]; [by apply Ha | done].
Qed.

(** *** What a session can change *)

(** The text that reaches a session's loop in the given turns, whatever the
    loop makes of it. *)
Fixpoint heard {R} (ch : Channel R) (ts : list Turn) (z : option ZState) (r : R) : str :=
  match ts with
  | [] => []
  | t :: ts =>
      let (rv, r) := ch_recv ch r in
      match rv with
      | Retry => heard ch ts z r
      | Gone => []
      | Data b =>
          match (match z with Some st => let? (st, out) := z_feed st b in Some (Some st, out) | None => Some (None, b) end) with
          | Some (z, out) => out ++ heard ch ts z r
          | None => []
          end
      end
  end.

(** The complete lines a peer sends after its authentication. *)
Definition session_lines {R} (ch : Channel R) (v : Surroundings) (l : Link R) : list str :=
  let (p, l) := run_io ch (auth_phase clientsStore (v_nonce v)) l in
  match p with
  | Granted a => (split_lines (heard ch (v_turns v) (if negb (Z.land (negotiatedCaps a) kCapZlib =? 0) then Some z_init else None) (l_in l))).1
  | _ => []
  end.

(** The days on the system clock while lines are handled. *)
Definition clock_day (ts : list Turn) (d : Z) : Prop := exists t k, t ∈ ts /\ d = day_index (epoch (t_clk t k)).

(** The address is the peer's own, or a local one it announced. *)
Definition may_claim (clientIp : str) (lines : list str) (ip : str) : Prop :=
  ip = clientIp \/ exists line, line ∈ lines /\ starts_with kAddrLinePrefix line = true /\ trim_value line = ip /\ isLanIP ip = true.

(** What the session of [cid] may have done, the peer having sent [lines]:
    nothing of another client has changed, but that addresses it announced or
    connects from are no longer theirs and that days passed in the statistics. *)
Record own_only (cfg : TSConfig) (cid clientIp : str) (lines : list str) (D : Z -> Prop) (w w' : Shared) : Prop := {
  own_others : others_kept cid w w';
  own_rejections : ClientRegistry.protoRejections (registry w') = ClientRegistry.protoRejections (registry w);
  own_addresses : forall ip c, c <> cid -> ClientRegistry.ipToClientId (registry w) !! ip = Some c ->
    ClientRegistry.ipToClientId (registry w') !! ip = Some c \/ may_claim clientIp lines ip;
  own_stats : ts_ok cfg (stats w) -> ts_ok cfg (stats w') /\ others_counted cid D (stats w) (stats w')
}.

Lemma own_trans cfg cid ip lines D w1 w2 w3 : own_only cfg cid ip lines D w1 w2 -> own_only cfg cid ip lines D w2 w3 -> own_only cfg cid ip lines D w1 w3.
Proof.
  intros [A1 B1 C1 S1] [A2 B2 C2 S2]. split; [by eapply others_trans | congruence | |].
  - intros i c Hc H. destruct (C1 i c Hc H) as [H' |]; [by apply C2 | by right].
  - intros H. destruct (S1 H) as [H1 K1]. destruct (S2 H1) as [H2 K2]. split; [done | by eapply others_counted_trans].
Qed.

(** A step that leaves the statistics and the rejections alone. *)
Lemma own_quiet cfg cid ip lines D w w' : others_kept cid w w' -> stats w' = stats w ->
  ClientRegistry.protoRejections (registry w') = ClientRegistry.protoRejections (registry w) ->
  (forall i c, c <> cid -> ClientRegistry.ipToClientId (registry w) !! i = Some c ->
     ClientRegistry.ipToClientId (registry w') !! i = Some c \/ may_claim ip lines i) -> own_only cfg cid ip lines D w w'.
Proof. intros Ho Hs Hr Ha. split; [done | done | done |]. intros H. rewrite Hs. split; [done | by eapply others_counted_refl]. Qed.

Lemma own_refl cfg cid ip lines D w : own_only cfg cid ip lines D w w.
Proof. apply own_quiet; [apply others_refl | done | done | by left]. Qed.

Lemma own_start cfg cid ip lines D w : own_only cfg cid ip lines D w (session_start cid ip w).
Proof.
  apply own_quiet; [apply session_start_others | | |]; unfold session_start; destruct (decide (ip = [])); cbn; try done; [by left |].
  intros i c Hc H. destruct (decide (i = ip)) as [-> |]; [right; by left | left; by rewrite lookup_insert_ne].
Qed.

Lemma own_end cfg cid ip lines D w : own_only cfg cid ip lines D w (session_end cid w).
Proof.
  apply own_quiet; [apply session_end_others | done | unfold session_end, ClientRegistry.removeClient; by case_decide |].
  intros i c Hc H. left. by apply (ClientRegistry.removeClient_other (registry w) cid c i Hc).
Qed.

Section Lines.
Context (cfg : TSConfig) (cid ip : str) (lines : list str) (D : Z -> Prop).

Lemma x_line_own t l w s : own_only cfg cid ip lines D w (x_line cid ip t l w s).1.
Proof.
  apply own_quiet; [apply x_line_others | | |]; unfold x_line; destruct (_ <=? _); try done; try (by left); destruct (valid_ext_ip _); try done; [| by left].
  intros i c Hc H. cbn. assert (K : filter (fun kv : str * str => kv.2 <> cid) (ClientRegistry.ipToClientId (registry w)) !! i = Some c)
    by (by apply map_lookup_filter_Some).
  destruct (decide (ip = [])); [by left |]. destruct (decide (i = ip)) as [-> |]; [right; by left | left; by rewrite lookup_insert_ne].
Qed.

Lemma a_line_own l w s : l ∈ lines -> starts_with kAddrLinePrefix l = true -> own_only cfg cid ip lines D w (a_line config cid l w s).1.
Proof.
  intros Hl Hp. apply own_quiet; [apply a_line_others | | |]; unfold a_line; destruct (_ <? _)%nat; try done; try (by left);
    destruct (_ && _) eqn:E; try done; [| by left].
  intros i c Hc H. cbn. apply andb_true_iff in E as [_ E]. destruct (decide (i = trim_value l)) as [-> |]; [| left; by rewrite lookup_insert_ne].
  right. right. by exists l.
Qed.

Lemma d_line_own t l w s ws : config_ok cfg -> D (day_index (epoch t)) -> d_line config cid t l w s = Some ws -> own_only cfg cid ip lines D w ws.1.
Proof.
  intros Hc HD Hd. pose proof (d_line_others _ _ _ _ _ _ _ Hd) as Ho. revert Hd Ho.
  unfold d_line. destruct (parseDataLine _ _ _) as [m |] eqn:Em; [| intros [= <-] _; apply own_refl].
  destruct (_ <? _); [intros [= <-] _; apply own_refl |].
  destruct (ts_addPacket _ _ _) as [[st res] |] eqn:Ea; [| done].
  assert (Hargs : args_ok (packet_args cid w (count_d_line (seconds (steady t)) s) m)) by (by eapply parseDataLine_bounds).
  assert (Ho : ts_ok cfg (stats w) -> ts_ok cfg st /\ others_counted cid D (stats w) st).
  { intros Hw. split; [eapply ts_step_ok; [done | exact Hw |]; by eapply step_add |].
    exact (ts_addPacket_others cfg _ _ _ _ _ D Hc Hw Hargs HD Ea). }
  by destruct res; intros [= <-] Hk; split; cbn; auto.
Qed.

Lemma l_line_own t l w : own_only cfg cid ip lines D w (l_line cid t l w).
Proof.
  apply own_quiet; [apply l_line_others | | |]; unfold l_line; (destruct (starts_with ("upd " : str) _); [| try (by left); done]);
    (destruct (find_char _ _); [| try (by left); done]); destruct (cut_word _) as [verb arg];
    (destruct (upd_verb verb arg) as [[[[? ?] ?] ?] |]; try (by left); done).
Qed.

Lemma line_own t l w s ws : config_ok cfg -> l ∈ lines -> D (day_index (epoch t)) ->
  handle_line config cid ip t l (w, s) = Some ws -> own_only cfg cid ip lines D w ws.1.
Proof.
  intros Hc Hl HD. unfold handle_line.
  destruct (starts_with kExtIPLinePrefix l); [intros [= <-]; apply x_line_own |].
  destruct (starts_with kAddrLinePrefix l) eqn:Ea; [intros [= <-]; by apply a_line_own |].
  destruct (starts_with "D " l); [by apply d_line_own |].
  destruct (starts_with kHealthLinePrefix l); [intros [= <-]; apply own_quiet; [apply h_line_others | done | done | by left] |].
  destruct (starts_with kLogRespLinePrefix l); intros [= <-]; [apply l_line_own | apply own_refl].
Qed.

Lemma lines_own ls : forall clk ws ws', config_ok cfg -> (forall l, l ∈ ls -> l ∈ lines) -> (forall k, D (day_index (epoch (clk k)))) ->
  handle_lines config cid ip ls clk ws = Some ws' -> own_only cfg cid ip lines D ws.1 ws'.1.
Proof.
  induction ls as [| l ls IH]; intros clk [w s] ws' Hc Hl HD H; cbn [handle_lines] in H; [injection H as <-; apply own_refl |].
  destruct (handle_line _ _ _ _ l _) as [ws1 |] eqn:E; [| done].
  eapply own_trans; [eapply line_own; [done | apply Hl; by left | apply HD | exact E] |].
  eapply IH; [done | intros l' Hl'; apply Hl; by right | intros k; apply HD | exact H].
Qed.
End Lines.

Lemma refresh_shared cid now ws : (refresh cid now ws).1 = ws.1.
Proof. destruct ws as [w s]. unfold refresh. by destruct (_ <=? _). Qed.

Lemma touch_shared now ws : (touch_activity now ws).1 = ws.1.
Proof. by destruct ws. Qed.

(** One round: the lines it completes are among those of the text. *)
Lemma round_own cfg cid ip lines D start run now rv clk ws z buffer more : config_ok cfg -> (forall k, D (day_index (epoch (clk k)))) ->
  let out := match rv with Data b => (match z with Some st => let? (st, out) := z_feed st b in Some (Some st, out) | None => Some (None, b) end) | _ => Some (z, []) end in
  (forall z' o l, out = Some (z', o) -> l ∈ (split_lines (buffer ++ o ++ more)).1 -> l ∈ lines) ->
  match loop_round config cid ip start run now rv clk ws z buffer with
  | Continue ws' z' b' => own_only cfg cid ip lines D ws.1 ws'.1 /\
      match out with Some (z2, o) => z2 = z' /\ forall l, l ∈ (split_lines (b' ++ more)).1 -> l ∈ (split_lines (buffer ++ o ++ more)).1 | None => False end
  | Stop ws' => own_only cfg cid ip lines D ws.1 ws'.1
  | Undefined => True
  end.
Proof.
  intros Hc HD out Hl. unfold loop_round. destruct (negb run); [apply own_refl |]. destruct (_ <=? _); [apply own_refl |]. destruct (_ <=? _); [apply own_refl |].
  destruct rv as [| b |]; [rewrite refresh_shared; split; [apply own_refl | done] | | rewrite refresh_shared; apply own_refl].
  assert (E1 : (touch_activity now (refresh cid now ws)).1 = ws.1) by (by rewrite touch_shared, refresh_shared).
  fold out. destruct out as [[z' o] |]; [| rewrite E1; apply own_refl]. destruct (_ <? _)%nat; [rewrite E1; apply own_refl |].
  pose proof (split_lines_app (buffer ++ o) more) as Hs. rewrite <- app_assoc in Hs. destruct (split_lines (buffer ++ o)) as [ls rest].
  destruct (split_lines (rest ++ more)) as [lm rm] eqn:Em. pose proof (fun l => Hl z' o l eq_refl) as Hl2. rewrite Hs in Hl2 |- *. cbn [fst] in *.
  destruct (handle_lines _ _ _ ls clk _) as [ws' |] eqn:E; [| done].
  rewrite <- E1. split; [| split; [done |]].
  - eapply lines_own; [done | | exact HD | exact E]. intros l Hin. apply Hl2. rewrite elem_of_app. by left.
  - rewrite Em. intros l Hin. rewrite elem_of_app. by right.
Qed.

Lemma loop_own {R} (ch : Channel R) cfg cid ip lines D start ts : config_ok cfg -> (forall t k, t ∈ ts -> D (day_index (epoch (t_clk t k)))) ->
  forall ws z buffer r, (forall l, l ∈ (split_lines (buffer ++ heard ch ts z r)).1 -> l ∈ lines) ->
  match data_loop config ch cid ip start ts ws z buffer r with Ended w | InLoop w => own_only cfg cid ip lines D ws.1 w | Undef => True end.
Proof.
  intros Hc. induction ts as [| t ts IH]; intros HD ws z buffer r Hl; cbn [data_loop]; [apply own_refl |]. cbn [heard] in Hl.
  destruct (ch_recv ch r) as [rv r'].
  set (more := match rv with Retry => heard ch ts z r' | Gone => [] | Data b =>
    match (match z with Some st => let? (st, out) := z_feed st b in Some (Some st, out) | None => Some (None, b) end) with
    | Some (z, _) => heard ch ts z r' | None => [] end end).
  pose proof (round_own cfg cid ip lines D start (t_running t) (t_now t) rv (t_clk t) ws z buffer more Hc) as H.
  specialize (H (fun k => HD t k (list_elem_of_here _ _))). cbv zeta in H.
  assert (Hlo : forall z' o, match rv with Data b => (match z with Some st => let? (st, out) := z_feed st b in Some (Some st, out) | None => Some (None, b) end) | _ => Some (z, []) end = Some (z', o) ->
    forall l, l ∈ (split_lines (buffer ++ o ++ more)).1 -> l ∈ lines).
  { intros z' o E l. unfold more. destruct rv as [| b |]; [injection E as _ <-; exact (Hl l) | by rewrite E in *; exact (Hl l) | injection E as _ <-; exact (Hl l)]. }
  specialize (H (fun z' o l E => Hlo z' o E l)).
  destruct (loop_round _ _ _ _ _ _ _ _ _ _ _) as [ws1 z1 b1 | |] eqn:Er; [| exact H | done]. destruct H as [H1 H2].
  match type of H2 with match ?q with _ => _ end => destruct q as [[z2 o] |] eqn:Eo end; [| done]. destruct H2 as [-> H2].
  assert (Em : more = heard ch ts z1 r').
  { unfold more. destruct rv as [| b |]; [by injection Eo as -> _ | by rewrite Eo |]. exfalso. revert Er. unfold loop_round.
    destruct (negb _); [done |]. destruct (_ <=? _); [done |]. by destruct (_ <=? _). }
  specialize (IH (fun t' k Ht => HD t' k (list_elem_of_further _ _ _ Ht)) ws1 z1 b1 r').
  rewrite <- Em in IH. specialize (IH (fun l Hin => Hlo _ _ eq_refl l (H2 l Hin))).
  destruct (data_loop _ _ _ _ _ _ ws1 _ _ _); [by eapply own_trans | by eapply own_trans | done].
Qed.

(** Only the list of rejected protocol versions differs. *)
Definition same_but_rejections (w w' : Shared) : Prop :=
  exists rs, (length rs <= S (length (ClientRegistry.protoRejections (registry w))))%nat /\
    (length (ClientRegistry.protoRejections (registry w)) <= 20 -> length rs <= 20)%nat /\
    w' = set_registry (ClientRegistry.mk (ClientRegistry.ipToClientId (registry w)) (ClientRegistry.clientToExternalIp (registry w))
           (ClientRegistry.clientHealth (registry w)) rs) w.

Lemma record_same ip at_ p w : same_but_rejections w (set_registry (record_rejection ip at_ p (registry w)) w).
Proof.
  assert (Hid : same_but_rejections w (set_registry (registry w) w)).
  { exists (ClientRegistry.protoRejections (registry w)). split_conj; [lia | done |]. by destruct w as [[] ? ? ? ?]. }
  unfold record_rejection. destruct p as [a | version |]; [exact Hid | | exact Hid]. destruct (version =? 0); [exact Hid |].
  eexists. split_conj; [| | reflexivity]; destruct (20 <? _)%nat eqn:E; bool_to_prop; rewrite ?length_drop, ?length_app in *; cbn [length] in *; lia.
Qed.

(** What a worker may have done to the shared state: nothing but note a
    rejection, or serve the holder of a listed key as [own_only] says, in which
    case neither the registry nor the control channels know the client after
    the end. *)
Definition confined (cfg : TSConfig) (v : Surroundings) (clientIp : str) (lines : list str) (w : Shared) (e : WorkerEnd) : Prop :=
  match e with
  | Ended w' =>
      same_but_rejections w w' \/
      exists cid, proved v cid /\ ClientRegistry.forgotten (registry w') cid /\ ctrlChannels w' !! cid = None /\
        own_only cfg cid clientIp lines (clock_day (v_turns v)) w w'
  | InLoop w' => exists cid, proved v cid /\ own_only cfg cid clientIp lines (clock_day (v_turns v)) w w'
  | Undef => exists cid, proved v cid
  end.

Lemma same_refl w : same_but_rejections w w.
Proof. exists (ClientRegistry.protoRejections (registry w)). split_conj; [lia | done |]. by destruct w as [[] ? ? ? ?]. Qed.

Lemma session_confined {R} (ch : Channel R) cfg v ip l w : config_ok cfg ->
  confined cfg v ip (session_lines ch v l) w (session z_init config clientsStore ch v ip l w).
Proof.
  intros Hcfg. unfold session, session_lines. destruct (v_authTimeout v); cbn [negb]; [| left; apply same_refl].
  pose proof (run_io_all ch _ _ l (auth_phase_all v)) as Ha. destruct (run_io ch (auth_phase clientsStore (v_nonce v)) l) as [p l'].
  destruct p as [a | version |]; cbn [fst] in Ha; [| left; apply record_same | left; apply same_refl].
  assert (Hne : clientId a <> []) by (by destruct Ha as (? & ? & ? & ? & ? & ? & ? & ?)).
  set (w1 := session_start (clientId a) ip w). set (z := if negb _ then _ else _). set (lines := (split_lines _).1).
  set (D := clock_day (v_turns v)).
  pose proof (own_start cfg (clientId a) ip lines D w) as H1. fold w1 in H1.
  assert (Hend : forall w', own_only cfg (clientId a) ip lines D w w' -> confined cfg v ip lines w (Ended (session_end (clientId a) w'))).
  { intros w' Ho. right. exists (clientId a). split_conj; [done | by apply ClientRegistry.removeClient_forgets | apply lookup_delete_eq |].
    eapply own_trans; [exact Ho | apply own_end]. }
  destruct (v_loopTimeout v); cbn [negb]; [| by apply Hend].
  pose proof (loop_own ch cfg (clientId a) ip lines D (steady (v_started v)) (v_turns v) Hcfg) as HL.
  specialize (HL ltac:(intros t k Ht; by exists t, k) (w1, session_init w1 (v_entered v).1 (v_entered v).2) z [] (l_in l') ltac:(done)). cbn [fst] in HL.
  destruct (data_loop _ _ _ _ _ _ _ _ _ _) as [w' | w' |]; [apply Hend; by eapply own_trans | | by exists (clientId a)].
  exists (clientId a). split; [done | by eapply own_trans].
Qed.

(** The complete lines a peer sends after its authentication on a plain
    connection, and after the upgrade to a WebSocket. *)
Definition tcp_lines (v : Surroundings) (wr : nat -> bool) (rs : list TlsRead) : list str := session_lines tcp_channel v (mkLink rs wr []).

Definition ws_lines (v : Surroundings) (wr : nat -> bool) (evs : list Event) : list str :=
  let (req, evs) := read_request evs in
  session_lines ws_channel v (mkLink (evs, mkWsS [] 0 false) (fun i => wr (S i)) [(ws_upgrade req).1]).

(** C3: a connection is confined. Whatever a peer sends over either transport,
    however the TLS reads cut it and wherever the thread stops, a peer that
    does not prove a listed key changes nothing but the list of rejections,
    which stays at twenty. One that does, changes nothing of another client:
    external addresses, health, control channels and update statuses are as
    they were; no address becomes another client's, and an address stops being
    one's only if the peer connects from it or announced it in a line as a
    local address; every counter, interface set, rejection count and history of
    the others is unchanged, but that a new day of the system clock opens a
    bucket and the oldest buckets beyond the window go. When the thread ends
    neither the registry nor the control channels know the client; what stays
    of it are its own statistics and its update status. In [Undef] the
    statistics met a counter at its 64-bit limit. *)
Theorem workers_confined (cfg : TSConfig) (v : Surroundings) (clientIp : str) (wr : nat -> bool) (rs : list TlsRead) (evs : list Event) (w : Shared) :
  config_ok cfg ->
  confined cfg v clientIp (tcp_lines v wr rs) w (connectionThread z_init config clientsStore v clientIp wr rs w) /\
  confined cfg v clientIp (ws_lines v wr evs) w (wsConnectionThread z_init config clientsStore v clientIp wr evs w).
Proof.
  intros Hcfg. unfold connectionThread, wsConnectionThread, ws_lines. destruct (v_ssl v); cbn [negb]; [| split; left; apply same_refl].
  split; [by apply session_confined |]. destruct (read_request evs) as [req evs']. destruct (ws_upgrade req) as [resp []]; [| left; apply same_refl].
  destruct (wr 0%nat); [by apply session_confined | left; apply same_refl].
Qed.
End Confined.

(** *** The two transports *)

(** No read follows a failed read, and what is then returned satisfies [Q]. *)
Fixpoint no_read {A} (Q : A -> Prop) (p : io A) : Prop :=
  match p with Ret a => Q a | Read _ _ => False | Write _ k => forall b, no_read Q (k b) end.

Fixpoint fails_closed {A} (Q : A -> Prop) (p : io A) : Prop :=
  match p with
  | Ret _ => True
  | Read n k => (0 < n <= kMaxIOBytes)%nat /\ no_read Q (k None) /\ forall s, fails_closed Q (k (Some s))
  | Write _ k => forall b, fails_closed Q (k b)
  end.

(** A program that reads no more does the same on any connection. *)
Lemma no_read_same {R1 R2 A} (ch1 : Channel R1) (ch2 : Channel R2) (Q : A -> Prop) (p : io A) : forall l1 l2,
  no_read Q p -> l_wr l1 = l_wr l2 -> (run_io ch1 p l1).1 = (run_io ch2 p l2).1 /\ Q (run_io ch1 p l1).1.
Proof. induction p as [a | n k IH | s k IH]; intros l1 l2 H Hw; cbn [run_io no_read] in *; [done | done |]. rewrite Hw. apply IH; [done | done]. Qed.

(** The plain connection that carries what the frames carry: one record per
    frame, with its payload, and a timeout exactly where the TLS stream pauses
    between two frames. A pause inside a frame leaves no trace: the frame
    reader retries. *)
Inductive unframed : list Event -> list TlsRead -> Prop :=
| unframed_end : unframed [] []
| unframed_failed evs : unframed (Failed :: evs) [Down]
| unframed_wait e evs rs : e = WantRead \/ e = SysTimeout -> unframed evs rs -> unframed (e :: evs) (Wait :: rs)
| unframed_frame f b evs c more rs :
    frame_ok f -> calm evs -> bytes_of (Byte b :: evs ++ [Byte c]) = client_frame f -> unframed more rs ->
    unframed (Byte b :: (evs ++ [Byte c]) ++ more) (Rec f.2 :: rs).

(** A frame whose events come without a pause. *)
Lemma unframed_bytes f more rs : frame_ok f -> unframed more rs -> unframed ((Byte <$> client_frame f) ++ more) (Rec f.2 :: rs).
Proof.
  intros Hf Hu. assert (Hb : forall s, bytes_of (Byte <$> s) = s) by (induction s as [| c s IH]; cbn; [done | by rewrite IH]).
  assert (Hl : (2 <= length (client_frame f))%nat)
    by (unfold client_frame; rewrite buildClientFrame_eq, !length_app; cbn [length]; lia).
  pose proof (Hb (client_frame f)) as Hf'. destruct (client_frame f) as [| b s] eqn:E; [cbn in Hl; lia |].
  destruct s as [| c l _] using rev_ind; [cbn in Hl; lia |]. cbn [fmap list_fmap app] in *. rewrite fmap_app in *. cbn [fmap list_fmap] in *.
  apply (unframed_frame f b (Byte <$> l) c); [done | | by rewrite E | done]. apply Forall_fmap, Forall_true. done.
Qed.

(** What is left of a WebSocket connection, buffered bytes first. *)
Definition carries (c : list Event * WsServerStream) (rs : list TlsRead) : Prop :=
  (bufPos_ c.2 <= length (sbuf c.2))%nat /\
  exists rs0, unframed c.1 rs0 /\ rs = match drop (bufPos_ c.2) (sbuf c.2) with [] => rs0 | rest => Rec rest :: rs0 end.

Lemma carries_empty evs s rs : drop (bufPos_ s) (sbuf s) = [] -> (bufPos_ s <= length (sbuf s))%nat -> unframed evs rs -> carries (evs, s) rs.
Proof. intros H Hl Hu. split; [exact Hl |]. exists rs. cbn [snd]. by rewrite H. Qed.

(** Taking bytes out of the buffer is taking them out of the record. *)
Lemma carries_taken evs buf pos t k rs0 : unframed evs rs0 -> (pos + k <= length buf)%nat ->
  carries (evs, mkWsS buf (pos + k) t) (match drop k (drop pos buf) with [] => rs0 | rest => Rec rest :: rs0 end).
Proof. intros Hu Hl. split; [exact Hl |]. exists rs0. split; [exact Hu |]. cbn [snd sbuf bufPos_]. by rewrite drop_drop. Qed.

(** A refill finds the next record, a timeout, or the end. *)
Lemma refill evs s rs0 : unframed evs rs0 -> drop (bufPos_ s) (sbuf s) = [] ->
  match fillBuf (S (length evs)) evs s with
  | (true, s', evs') => exists p rs, rs0 = Rec p :: rs /\ p <> [] /\ s' = mkWsS p 0 false /\ unframed evs' rs
  | (false, s', evs') => if timedOut_ s' then exists rs, rs0 = Wait :: rs /\ carries (evs', s') rs else rs0 = [] \/ rs0 = [Down]
  end.
Proof.
  intros Hu Hd. destruct Hu as [| evs | e evs rs He Hu | f b evs c more rs Hf Hc Hb Hu].
  - by left.
  - by right.
  - destruct He as [-> | ->]; cbn [fillBuf timedOut_]; exists rs; (split; [done |]); rewrite Hd; (apply carries_empty; [done | done | exact Hu]).
  - rewrite (fillBuf_exact _ f).
    + exists f.2, rs. destruct Hf as (_ & Hp & _). done.
    + constructor; [done |]. apply Forall_app. split; [exact Hc |]. by constructor.
    + exact Hf.
    + exact Hb.
    + by eexists _, _.
    + exact Hd.
    + lia.
Qed.

Lemma recv_carries c rs : carries c rs ->
  (ws_recv c).1 = (tcp_recv rs).1 /\ ((ws_recv c).1 = Gone \/ carries (ws_recv c).2 (tcp_recv rs).2).
Proof.
  destruct c as [evs [buf pos t]]. intros (Hl & rs0 & Hu & ->). cbn [fst snd sbuf bufPos_] in *. unfold ws_recv, recv. cbn [fst snd].
  rewrite (proj2 (Z.leb_gt _ _)) by (unfold kRecvBuf; lia). rewrite Nat2Z.id. cbn [sbuf bufPos_ timedOut_].
  assert (Hgive : forall evs buf pos t rs0, unframed evs rs0 -> (pos < length buf)%nat ->
    let k := Nat.min kRecvBuf (length buf - pos) in
    let c' := (evs, mkWsS buf (pos + k) t) in
    0 < Z.of_nat k /\ exists rs', tcp_recv (match drop pos buf with [] => rs0 | rest => Rec rest :: rs0 end) = (Data (take k (drop pos buf)), rs') /\ carries c' rs').
  { clear. intros evs buf pos t rs0 Hu Hlt k c'. assert (Hk0 : (0 < k)%nat) by (unfold k, kRecvBuf; lia). split; [lia |].
    pose proof (length_drop buf pos) as Hlen.
    pose proof (carries_taken evs buf pos t k rs0 Hu ltac:(unfold k; lia)) as Hc. fold c' in Hc.
    destruct (drop pos buf) as [| x l]; [cbn in Hlen; lia |]. cbn [tcp_recv]. rewrite decide_False by done.
    destruct (Nat.ltb_spec kRecvBuf (length (x :: l))) as [Hlt' | Hge].
    - assert (k = kRecvBuf) as Ek by (unfold k; lia). rewrite Ek in *. eexists. split; [reflexivity |].
      destruct (drop kRecvBuf (x :: l)) eqn:Ed; [| exact Hc]. apply (f_equal length) in Ed. rewrite length_drop in Ed. cbn [length] in *. lia.
    - eexists. split; [by rewrite take_ge by (unfold k; lia) |]. by rewrite drop_ge in Hc by (unfold k; lia). }
  destruct (Nat.leb_spec (length buf) pos) as [He | He].
  - assert (Hd : drop pos buf = []) by (by apply drop_ge). rewrite Hd.
    pose proof (refill evs (mkWsS buf pos t) rs0 Hu Hd) as H. destruct (fillBuf _ evs _) as [[[] s'] evs'].
    + destruct H as (p & rs & -> & Hp & -> & Hu'). cbn [bufPos_ sbuf timedOut_].
      destruct (Hgive evs' p 0%nat false rs Hu') as (Hk & rs' & E & Hc); [by destruct p; [| cbn; lia] |].
      rewrite drop_0 in E |- *. destruct p as [| x p]; [done |]. rewrite E.
      rewrite (proj2 (Z.ltb_lt 0 _)) by exact Hk. split; [done | right; exact Hc].
    + destruct (timedOut_ s').
      * destruct H as (rs & -> & Hc). split; [done | by right].
      * split; [by destruct H as [-> | ->] | by left].
  - destruct (Hgive evs buf pos t rs0 Hu He) as (Hk & rs' & E & Hc). rewrite E. cbn [bufPos_ sbuf timedOut_].
    rewrite (proj2 (Z.ltb_lt 0 _)) by exact Hk. split; [done | right; exact Hc].
Qed.

Lemma read_all_cons n b rs : b <> [] ->
  read_all n (Rec b :: rs) =
    if (n <? length b)%nat then (Some (take n b), Rec (drop n b) :: rs)
    else if (length b =? n)%nat then (Some b, rs) else let (o, rs) := read_all (n - length b) rs in (app b <$> o, rs).
Proof. intros H. cbn [read_all]. by rewrite decide_False. Qed.

(** An exact read gives the same bytes on both, or fails on both. *)
Lemma read_carries fuel : forall n evs s rs, (0 < n <= fuel)%nat -> carries (evs, s) rs ->
  match server_read fuel n evs s with
  | (Some out, s', evs') => exists rs', read_all n rs = (Some out, rs') /\ carries (evs', s') rs'
  | (None, _, _) => (read_all n rs).1 = None
  end.
Proof.
  induction fuel as [| fuel IH]; intros n evs [buf pos t] rs Hn (Hl & rs0 & Hu & ->); [lia |]. cbn [fst snd sbuf bufPos_] in *.
  destruct n as [| n]; [lia |]. cbn [server_read sbuf bufPos_ timedOut_].
  assert (Hcopy : forall evs buf pos t rs0, unframed evs rs0 -> (pos < length buf)%nat ->
    let k := Nat.min (length buf - pos) (S n) in
    match (match server_read fuel (S n - k) evs (mkWsS buf (pos + k) t) with
           | (Some rest, s', evs') => (Some (take k (drop pos buf) ++ rest), s', evs') | (None, s', evs') => (None, s', evs') end) with
    | (Some out, s', evs') => exists rs', read_all (S n) (match drop pos buf with [] => rs0 | rest => Rec rest :: rs0 end) = (Some out, rs') /\ carries (evs', s') rs'
    | (None, _, _) => (read_all (S n) (match drop pos buf with [] => rs0 | rest => Rec rest :: rs0 end)).1 = None
    end).
  { intros evs1 buf1 pos1 t1 rs1 Hu1 Hlt k. pose proof (length_drop buf1 pos1) as Hlen.
    pose proof (carries_taken evs1 buf1 pos1 t1 k rs1 Hu1 ltac:(unfold k; lia)) as Hc.
    destruct (drop pos1 buf1) as [| x l] eqn:Ed; [cbn in Hlen; lia |]. rewrite read_all_cons by done.
    destruct (Nat.ltb_spec (S n) (length (x :: l))) as [H1 | H1]; [| destruct (Nat.eqb_spec (length (x :: l)) (S n)) as [H2 | H2]].
    - assert (k = S n) as -> by (unfold k; lia). rewrite Nat.sub_diag.
      assert (Er : server_read fuel 0 evs1 (mkWsS buf1 (pos1 + S n) t1) = (Some [], mkWsS buf1 (pos1 + S n) t1, evs1)) by (by destruct fuel).
      rewrite Er, app_nil_r. eexists. split; [reflexivity |].
      destruct (drop (S n) (x :: l)) eqn:E; [| exact Hc]. apply (f_equal length) in E. rewrite length_drop in E. cbn [length] in *. lia.
    - assert (k = S n) as -> by (unfold k; lia). rewrite Nat.sub_diag.
      assert (Er : server_read fuel 0 evs1 (mkWsS buf1 (pos1 + S n) t1) = (Some [], mkWsS buf1 (pos1 + S n) t1, evs1)) by (by destruct fuel).
      rewrite Er, app_nil_r. rewrite drop_ge in Hc by lia. rewrite take_ge by lia. eexists. split; [reflexivity | exact Hc].
    - assert (Ek : k = length (x :: l)) by (unfold k; lia). rewrite Ek in *. rewrite drop_ge in Hc by lia.
      specialize (IH (S n - length (x :: l))%nat evs1 _ rs1 ltac:(cbn [length] in *; lia) Hc).
      destruct (server_read fuel _ evs1 _) as [[[out |] s'] evs'].
      + destruct IH as (rs' & -> & Hc'). rewrite take_ge by lia. by exists rs'.
      + destruct (read_all _ rs1) as [o rs']. cbn [fst] in *. by subst. }
  destruct (Nat.leb_spec (length buf) pos) as [He | He]; [| by apply Hcopy].
  assert (Hd : drop pos buf = []) by (by apply drop_ge). rewrite Hd.
  pose proof (refill evs (mkWsS buf pos t) rs0 Hu Hd) as H. destruct (fillBuf _ evs _) as [[[] s'] evs'].
  - destruct H as (p & rs & -> & Hp & -> & Hu'). specialize (Hcopy evs' p 0%nat false rs Hu' ltac:(destruct p; [done | cbn; lia])).
    rewrite drop_0 in Hcopy. destruct p as [| x p]; [done |]. exact Hcopy.
  - destruct (timedOut_ s'); [destruct H as (rs & -> & _); done | by destruct H as [-> | ->]].
Qed.

(** A program gives the same on both; if its last read failed, [Q]. *)
Lemma io_carries {A} (Q : A -> Prop) (p : io A) : fails_closed Q p -> forall c rs wr o1 o2, carries c rs ->
  let r1 := run_io ws_channel p (mkLink c wr o1) in
  let r2 := run_io tcp_channel p (mkLink rs wr o2) in
  r1.1 = r2.1 /\ (Q r1.1 \/ carries (l_in r1.2) (l_in r2.2)).
Proof.
  induction p as [a | n k IH | x k IH]; intros Hp [evs s] rs wr o1 o2 Hs; cbn [fails_closed] in Hp.
  - split; [done | by right].
  - destruct Hp as (Hn & H0 & H1). cbn [run_io l_in l_wr l_out ch_read ws_channel tcp_channel]. unfold ws_read, server_readExact, tls_readExact. cbn [fst snd].
    destruct (Nat.eqb_spec n 0) as [| _]; [lia |]. destruct (Nat.ltb_spec kMaxIOBytes n) as [| _]; [lia |]. cbn [orb].
    pose proof (read_carries n n evs s rs ltac:(lia) Hs) as H. destruct (server_read n n evs s) as [[[out |] s'] evs'].
    + destruct H as (rs' & -> & Hs'). by apply (IH (Some out) (H1 out)).
    + destruct (read_all n rs) as [o rs']. cbn [fst] in H. subst o.
      destruct (no_read_same ws_channel tcp_channel Q (k None) (mkLink (evs', s') wr o1) (mkLink rs' wr o2) H0 eq_refl) as [E HQ].
      split; [exact E | left; exact HQ].
  - cbn [run_io l_in l_wr l_out]. apply (IH (wr 0%nat) (Hp (wr 0%nat))). done.
Qed.

Lemma no_read_bind {A B} (P : A -> Prop) (Q : B -> Prop) (f : A -> io B) p : no_read P p -> (forall a, P a -> no_read Q (f a)) -> no_read Q (io_bind p f).
Proof. intros H Hf. induction p as [a | n k IH | s k IH]; cbn in *; [by apply Hf | done | intros b; by apply IH]. Qed.

Lemma fails_closed_bind {A B} (P : A -> Prop) (Q : B -> Prop) (f : A -> io B) p :
  fails_closed P p -> (forall a, P a -> no_read Q (f a)) -> (forall a, fails_closed Q (f a)) -> fails_closed Q (io_bind p f).
Proof.
  intros H Hn Hf. induction p as [a | n k IH | s k IH]; cbn in *; [by apply Hf | | intros b; by apply IH].
  destruct H as (Hl & H0 & H1). split_conj; [lia | lia | by eapply no_read_bind | intros s; by apply IH].
Qed.

Section Transports.
Context `{IN : Inet} `{HASH : StdHash} `{ED : Ed25519} `{WC : WsCrypto, WCL : !WsCryptoLaws WC} {IF : Inflater}.
Variables (z_init : ZState) (config : WireConfig) (clientsStore : AllowedClientsStore).

Lemma challenge_fails_closed ks nonce extra accept : (kAuthPubkeyLen + kAuthSignatureLen + extra <= kMaxIOBytes)%nat ->
  fails_closed (fun a => clientId a = []) (challenge ks nonce extra accept).
Proof.
  intros Hx. unfold challenge. destruct nonce as [nonce |]; [| done]. intros [|]; cbn [negb fails_closed]; [| done].
  split_conj; [unfold kAuthPubkeyLen; lia | lia | done |]. intros resp. destruct (allowedKeysContains _ _); [| done]. cbn [negb]. by destruct (ed_verify _ _ _).
Qed.

(** A peer that stops in the middle of the exchange is refused. *)
Lemma auth_fails_closed nonce : fails_closed (fun p => exists version, p = Refused version) (auth_phase clientsStore nonce).
Proof.
  unfold auth_phase. eapply (fails_closed_bind (fun a => clientId a = [])).
  - assert (Hk : (kAuthPubkeyLen + kAuthSignatureLen + 1 <= kMaxIOBytes)%nat) by (apply (bool_decide_unpack _); vm_compute; done).
    unfold verifyClientAuth. destruct (decide _); [done |]. cbn [fails_closed]. split_conj; [lia | lia | done |]. intros [| c [|]]; try done.
    destruct (_ =? kAuthVersionV2); [apply challenge_fails_closed; lia |]. by destruct (_ =? kAuthVersionV3); [apply challenge_fails_closed |].
  - intros a Ha. rewrite decide_True by done. intros b. by eexists.
  - intros a. destruct (decide _); [done |]. intros [|]; cbn [negb fails_closed]; [| done]. by destruct (isV3 a); [intros [|] |].
Qed.

Lemma gone_stops cid ip start run now clk ws z buffer :
  match loop_round config cid ip start run now Gone clk ws z buffer with Continue _ _ _ => False | _ => True end.
Proof. unfold loop_round. destruct (negb run); [done |]. destruct (_ <=? _); [done |]. by destruct (_ <=? _). Qed.

Lemma loop_carries cid ip start ts : forall ws z buffer c rs, carries c rs ->
  data_loop config ws_channel cid ip start ts ws z buffer c = data_loop config tcp_channel cid ip start ts ws z buffer rs.
Proof.
  induction ts as [| t ts IH]; intros ws z buffer c rs Hc; [done |]. cbn [data_loop ch_recv ws_channel tcp_channel].
  destruct (recv_carries c rs Hc) as [E H]. destruct (ws_recv c) as [rv c'], (tcp_recv rs) as [rv2 rs']. cbn [fst snd] in *. subst rv2.
  pose proof (gone_stops cid ip start (t_running t) (t_now t) (t_clk t) ws z buffer) as Hg.
  destruct (loop_round config cid ip start (t_running t) (t_now t) rv _ _ _ _) as [ws1 z1 b1 | |] eqn:El; [| done | done].
  destruct H as [-> | H]; [by rewrite El in Hg | by apply IH].
Qed.

Lemma session_carries v ip c rs wr o1 o2 w : carries c rs ->
  session z_init config clientsStore ws_channel v ip (mkLink c wr o1) w = session z_init config clientsStore tcp_channel v ip (mkLink rs wr o2) w.
Proof.
  intros Hs. unfold session. destruct (v_authTimeout v); cbn [negb]; [| done].
  pose proof (io_carries _ _ (auth_fails_closed (v_nonce v)) c rs wr o1 o2 Hs) as [E H]. cbv zeta in E, H.
  destruct (run_io ws_channel _ _) as [p1 l1], (run_io tcp_channel _ _) as [p2 l2]. cbn [fst snd] in *. subst p2.
  destruct p1 as [a | version |]; [| done | done]. destruct (v_loopTimeout v); cbn [negb]; [| done].
  destruct H as [[? [=]] | H]. by rewrite (loop_carries (clientId a) ip _ _ _ _ _ _ _ H).
Qed.

Lemma front_split evs : evs = (Byte <$> (front evs).1) ++ (front evs).2.
Proof. induction evs as [| [b | | |] evs IH]; cbn; try done. destruct (front evs) as [f r]. cbn in *. by rewrite IH at 1. Qed.

Lemma front_app x evs : front ((Byte <$> x) ++ evs) = (x ++ (front evs).1, (front evs).2).
Proof. induction x as [| c x IH]; cbn; [by destruct (front evs) |]. by rewrite IH. Qed.

(** The server reads the upgrade request and leaves the frames. *)
Lemma read_request_upto_client limit request evs :
  request <> [] -> (forall more, default ([], []) (read_head limit [] (request ++ more)) = (request, more)) ->
  read_request_upto limit ((Byte <$> request) ++ evs) = (request, evs).
Proof.
  intros Hne H. unfold read_request_upto. rewrite front_app. specialize (H (front evs).1).
  destruct (read_head limit [] _) as [[req more] |]; unfold default, id in H; [| by injection H as <- _].
  injection H as -> ->. by rewrite <- front_split.
Qed.

Lemma read_request_client request evs :
  request <> [] -> (forall more, wsReadHttpRequest (request ++ more) = (request, more)) -> read_request ((Byte <$> request) ++ evs) = (request, evs).
Proof. exact (read_request_upto_client (Z.to_nat 16384) request evs). Qed.

(** C4: the transport does not matter. A worker that meets a client's WebSocket
    upgrade followed by frames does to the shared state exactly what the plain
    worker does for the payloads of these frames sent as TLS records, one per
    frame and in their order, with a timeout where the frames pause, the same
    end of the connection, and the same clocks, limits and write results. The
    TLS stream may cut and delay the frames anywhere: what [unframed] relates
    to the frames does not depend on it, except for the pauses between frames,
    which are timeouts on both. *)
Theorem transports_agree (v : Surroundings) (clientIp random host : str) (wr : nat -> bool) (frames : list Event) (rs : list TlsRead) (w : Shared) :
  length random = 16%nat -> host_ok host -> unframed frames rs -> wr 0%nat = true ->
  wsConnectionThread z_init config clientsStore v clientIp wr ((Byte <$> buildUpgradeRequest host (EVP_EncodeBlock random)) ++ frames) w =
  connectionThread z_init config clientsStore v clientIp (fun i => wr (S i)) rs w.
Proof.
  intros Hr Hh Hs Hw. unfold wsConnectionThread, connectionThread. destruct (v_ssl v); cbn [negb]; [| done].
  destruct (server_upgrades random host [] Hr Hh) as [_ Hup].
  rewrite read_request_client; [| done | intros more; exact (proj1 (server_upgrades random host more Hr Hh))].
  cbv zeta in Hup. rewrite Hup, Hw. cbn [negb]. apply session_carries. by apply carries_empty.
Qed.
End Transports.

(** ** Two workers *)

#[local] Abbreviation sample_answer := (raw_public sample_priv ++ default [] (ed_sign sample_priv (kAuthSignPrefixV2 ++ sample_nonce)) ++ [byte_of 0]).
#[local] Abbreviation sample_lines := (("A 192.168.1.5" : str) ++ LF :: ("D eth0 192.168.1.5 8.8.8.8 100" : str) ++ [LF]).

#[local] Abbreviation sample_turn n := (mkTurn true (sample_clock n) (fun _ => sample_clock n)).
#[local] Abbreviation sample_surroundings :=
  (mkSur true true true (Some sample_nonce) 1700000100 (sample_clock 100) (sample_clock 100, sample_clock 100) [sample_turn 100; sample_turn 101; sample_turn 102]).

#[local] Abbreviation sample_plain := [Rec [byte_of 3]; Rec sample_answer; Rec sample_lines; Wait; Down].

#[local] Abbreviation sample_tcp_worker :=
  (connectionThread (IF := sample_inflater) tt sample_wire_config sample_store sample_surroundings "203.0.113.9" (fun _ => true) sample_plain sample_shared).

#[local] Abbreviation sample_frames :=
  ((Byte <$> client_frame (sample_key4, [byte_of 3])) ++ (Byte <$> client_frame (sample_key4, sample_answer)) ++
   WantRead :: (Byte <$> client_frame (sample_key4, sample_lines))).

#[local] Abbreviation sample_ws_worker :=
  (wsConnectionThread (IF := sample_inflater) tt sample_wire_config sample_store sample_surroundings "203.0.113.9" (fun _ => true)
    ((Byte <$> buildUpgradeRequest "ntm.example.org" (EVP_EncodeBlock ("0123456789abcdef" : str))) ++ sample_frames) sample_shared).

(** The bytes the statistics hold for the client's interface. *)
Definition counted_bytes (e : WorkerEnd) : option Z :=
  match e with
  | Ended w => Some (bytes (at_key zero_counter (totalsOut (snapshot 1700000102 (stats w)).1) (ci_key (hexEncode (raw_public sample_priv)) "eth0")))
  | _ => None
  end.

Lemma sample_tcp_lines :
  tcp_lines (IF := sample_inflater) tt sample_store sample_surroundings (fun _ => true) sample_plain =
  ["A 192.168.1.5" : str; "D eth0 192.168.1.5 8.8.8.8 100" : str].
Proof. vm_compute. reflexivity. Qed.

Lemma workers_confined_witness :
  counted_bytes sample_tcp_worker = Some 100 /\
  confined sample_store sample_config sample_surroundings "203.0.113.9" ["A 192.168.1.5" : str; "D eth0 192.168.1.5 8.8.8.8 100" : str]
    sample_shared sample_tcp_worker.
Proof.
  split; [vm_compute; reflexivity |]. rewrite <- sample_tcp_lines.
  apply (workers_confined (IF := sample_inflater) tt sample_wire_config sample_store sample_config sample_surroundings "203.0.113.9" (fun _ => true)
    sample_plain [] sample_shared sample_config_ok).
Defined.

(** The frames' pause and the plain connection's timeout. *)
#[local] Abbreviation sample_records := [Rec [byte_of 3]; Rec sample_answer; Wait; Rec sample_lines].

Lemma sample_unframed : unframed sample_frames sample_records.
Proof.
  apply (unframed_bytes (sample_key4, [byte_of 3])); [unfold frame_ok; split_conj; [done | done | vm_compute; discriminate] |].
  apply (unframed_bytes (sample_key4, sample_answer)); [unfold frame_ok; split_conj; [done | vm_compute; discriminate | vm_compute; discriminate] |].
  apply (unframed_wait WantRead); [by left |]. rewrite <- (app_nil_r (Byte <$> _)).
  apply (unframed_bytes (sample_key4, sample_lines)); [unfold frame_ok; split_conj; [done | done | vm_compute; discriminate] |].
  constructor.
Qed.

Lemma transports_agree_witness :
  counted_bytes sample_ws_worker = Some 100 /\
  sample_ws_worker =
  connectionThread (IF := sample_inflater) tt sample_wire_config sample_store sample_surroundings "203.0.113.9" (fun _ => true) sample_records sample_shared.
Proof.
  split; [vm_compute; reflexivity |].
  apply (transports_agree (IF := sample_inflater) tt sample_wire_config sample_store sample_surroundings "203.0.113.9" "0123456789abcdef" "ntm.example.org"
    (fun _ => true) sample_frames sample_records sample_shared); [reflexivity | | apply sample_unframed | reflexivity].
  unfold host_ok. split_conj; [by apply absent | by apply absent | cbn; lia].
Defined.
