(* ===== verification/FileLog.v ===== *)
(** The client's log files ([client_filelog.hpp], [client_filelog.cpp]): one file
    per day in the log directory, a size cap with rotation in place, retention,
    listing and deletion. The directory is a map from bare file names to
    contents; dates and times are the strings [strftime] gives. *)

From S2P Require Import Prelude CppString Health.
Local Open Scope Z_scope.

(* client_filelog.hpp:45-46 kMaxFileSizeBytes, kRetainDays *)
Definition kMaxFileSizeBytes : Z := 50 * 1024 * 1024.
Definition kRetainDays : Z := 3.

Abbreviation Dir := (gmap str str).

(** [fp] tells whether [fp_] is open; the current file is kept by its name. *)
(* client_filelog.hpp:87-93 FileLogger *)
Record FileLogger := mkLogger {
  logDir_ : str;
  currentName_ : str;
  fp : bool;
  currentSize_ : Z;
  currentDateStr_ : str;
  active_ : bool;
  level_ : LogLevel
}.

Definition FileLogger_init : FileLogger := mkLogger [] [] false 0 [] false LInfo.

(** What the clock shows: today, the retention cutoff, and the time of day. *)
Record Now := mkNow { today : str; cutoffDate : str; timeBuf : str }.

(** What the file system does in a call. Which [fopen] calls succeed: for
    appending, and the two of the rotation. What is stored of the part that a
    rotation writes back, which nobody checks. How much of a line [fwrite]
    takes, all of it if [None], and what of that [fflush] gets stored. *)
Record Opens := mkOpens {
  open_append : bool; open_read : bool; open_write : bool;
  part_disk : Flushed; line_taken : option nat; line_disk : Flushed
}.

Definition all_open : Opens := mkOpens true true true AllStored None AllStored.

Definition kPrefix : str := "ntm-client-".

(* client_filelog.cpp:226-229 pathForDate *)
Definition nameForDate (date : str) : str := kPrefix ++ date ++ ".log".

Definition file_size (d : Dir) (name : str) : Z :=
  match d !! name with Some c => Z.of_nat (length c) | None => 0 end.

(** [fopen(path, "a")] creates the file when it is missing. *)
(* client_filelog.cpp:231-245 openFile *)
Definition openFile (o : Opens) (date : str) (d : Dir) (g : FileLogger) : Dir * FileLogger * bool :=
  let name := nameForDate date in
  if open_append o then
    let d := <[name := default [] (d !! name)]> (d : gmap str str) in
    (d, mkLogger (logDir_ g) name true (file_size d name) date (active_ g) (level_ g), true)
  else (d, mkLogger (logDir_ g) (currentName_ g) false (currentSize_ g) (currentDateStr_ g) (active_ g) (level_ g), false).

(* client_filelog.cpp:247-253 closeFile *)
Definition closeFile (g : FileLogger) : FileLogger :=
  mkLogger (logDir_ g) [] false 0 [] (active_ g) (level_ g).

Definition expired_file (cutoff name : str) : bool :=
  starts_with kPrefix name && (25 <=? length name)%nat && str_ltb (substr name 11 10) cutoff.

(* client_filelog.cpp:255-284 pruneOldFiles *)
Definition pruneOldFiles (cutoff : str) (d : Dir) (g : FileLogger) : Dir :=
  if decide (logDir_ g = []) then d
  else filter (fun kv => expired_file cutoff kv.1 = false) (d : gmap str str).

(** What is kept of a file: everything after the first newline from the
    middle on. *)
(* client_filelog.cpp:316-322 rotateInPlace, midpoint *)
Definition keep_newer (buf : str) : str :=
  let mid := (length buf / 2)%nat in
  match find_char LF (drop mid buf) with
  | Some i => drop (mid + i + 1) buf
  | None => []
  end.

(* client_filelog.cpp:286-345 rotateInPlace *)
Definition rotateInPlace (o : Opens) (d : Dir) (g : FileLogger) : Dir * FileLogger :=
  if negb (fp g) || bool_decide (currentName_ g = []) then (d, g)
  else
    let name := currentName_ g in
    let reopen (d : Dir) := let '(d, g, _) := openFile o (currentDateStr_ g) d g in (d, g) in
    match (if open_read o then d !! name else None) with
    | None => reopen d
    | Some [] => reopen d
    | Some buf =>
        let d := if open_write o then <[name := on_disk (part_disk o) (keep_newer buf)]> (d : gmap str str) else d in
        (d, mkLogger (logDir_ g) name (open_append o) (if open_append o then file_size d name else 0)
              (currentDateStr_ g) (active_ g) (level_ g))
    end.

(* client_filelog.cpp:23-32 levelToStr *)
Definition levelToStr (lv : LogLevel) : str :=
  match lv with LInfo => "INFO" | LWarn => "WARN" | LErr => "ERR " end.

Definition level_rank (lv : LogLevel) : Z := match lv with LInfo => 0 | LWarn => 1 | LErr => 2 end.

(* client_filelog.cpp:83-90 write, line *)
Definition log_line (t : Now) (lv : LogLevel) (msg : str) : str :=
  let line := "[" ++ today t ++ SP :: timeBuf t ++ SP :: levelToStr lv ++ "] " ++ msg in
  if decide (last line = Some LF) then line else line ++ [LF].

(** The part of a line that [fwrite] takes. *)
(* client_filelog.cpp:111-111 write, fwrite *)
Definition written (o : Opens) (line : str) : str := match line_taken o with None => line | Some n => take n line end.

(** What a write does once the file of the day is open. *)
(* client_filelog.cpp:104-116 write, append *)
Definition append_line (o : Opens) (line : str) (d : Dir) (g : FileLogger) : Dir * FileLogger :=
  let n := Z.of_nat (length line) in
  let (d, g) := if kMaxFileSizeBytes <? currentSize_ g + n then rotateInPlace o d g else (d, g) in
  if negb (fp g) then (d, g)
  else
    let w := written o line in
    if decide (w = []) then (d, g)
    else (<[currentName_ g := default [] (d !! currentName_ g) ++ on_disk (line_disk o) w]> (d : gmap str str),
          mkLogger (logDir_ g) (currentName_ g) true (currentSize_ g + Z.of_nat (length w)) (currentDateStr_ g) (active_ g) (level_ g)).

(* client_filelog.cpp:60-117 write *)
Definition write (o : Opens) (t : Now) (lv : LogLevel) (msg : str) (d : Dir) (g : FileLogger) : Dir * FileLogger :=
  if negb (active_ g) then (d, g)
  else if level_rank lv <? level_rank (level_ g) then (d, g)
  else
    let line := log_line t lv msg in
    if negb (fp g) then (d, g)
    else
      let '(d, g, ok) :=
        if decide (today t = currentDateStr_ g) then (d, g, true)
        else let g := closeFile g in openFile o (today t) (pruneOldFiles (cutoffDate t) d g) g in
      if negb ok then (d, g) else append_line o line d g.

(** [mkdir_ok]: [create_directories] succeeds. *)
(* client_filelog.cpp:38-58 init *)
Definition init (o : Opens) (mkdir_ok : bool) (t : Now) (logDir : str) (lv : LogLevel) (d : Dir) (g : FileLogger)
  : Dir * FileLogger * bool :=
  let g := mkLogger logDir (currentName_ g) (fp g) (currentSize_ g) (currentDateStr_ g) (active_ g) lv in
  if negb mkdir_ok then (d, g, false)
  else
    let d := pruneOldFiles (cutoffDate t) d g in
    let '(d, g, ok) := openFile o (today t) d g in
    if negb ok then (d, g, false)
    else (d, mkLogger (logDir_ g) (currentName_ g) (fp g) (currentSize_ g) (currentDateStr_ g) true (level_ g), true).

(* client_filelog.cpp:119-124 stop *)
Definition stop (g : FileLogger) : FileLogger :=
  closeFile (mkLogger (logDir_ g) (currentName_ g) (fp g) (currentSize_ g) (currentDateStr_ g) false (level_ g)).

(* client_filelog.hpp:66-66 setLevel *)
Definition setLevel (lv : LogLevel) (g : FileLogger) : FileLogger :=
  mkLogger (logDir_ g) (currentName_ g) (fp g) (currentSize_ g) (currentDateStr_ g) (active_ g) lv.

(** A file that the listing and the mass deletion take for a log file. *)
(* client_filelog.cpp:137-139 listFiles, filter *)
Definition is_log_name (name : str) : bool :=
  starts_with kPrefix name && (11 <=? length name)%nat && bool_decide (drop (length name - 4) name = (".log" : str)).

(* client_filelog.hpp:75-75 FileInfo *)
Record FileInfo := mkInfo { fi_name : str; fi_size : Z; fi_mtime : str }.

(* client_filelog.cpp:141-152 listFiles, entry *)
Definition file_info (name content : str) : FileInfo :=
  mkInfo name (Z.of_nat (length content)) (if (21 <=? length name)%nat then substr name 11 10 else "unknown").

(** Insertion in descending order of names. *)
Fixpoint insert_info (f : FileInfo) (l : list FileInfo) : list FileInfo :=
  match l with
  | [] => [f]
  | x :: l' => if str_ltb (fi_name x) (fi_name f) then f :: l else x :: insert_info f l'
  end.

(* client_filelog.cpp:126-159 listFiles *)
Definition listFiles (d : Dir) (g : FileLogger) : list FileInfo :=
  if decide (logDir_ g = []) then []
  else foldr insert_info []
         ((fun kv => file_info kv.1 kv.2) <$> map_to_list (filter (fun kv => is_log_name kv.1 = true) (d : gmap str str))).

(* client_filelog.cpp:161-179 deleteFile *)
Definition deleteFile (name : str) (d : Dir) (g : FileLogger) : Dir * FileLogger * bool :=
  if contains_char "/" name || contains_char BSLASH name then (d, g, false)
  else if negb (starts_with kPrefix name) || (length name <? 12)%nat then (d, g, false)
  else if decide (logDir_ g = []) then (d, g, false)
  else
    let g := if decide (name = currentName_ g) then closeFile g else g in
    (delete name (d : gmap str str), g, match d !! name with Some _ => true | None => false end).

(* client_filelog.cpp:181-206 deleteAllFiles *)
Definition deleteAllFiles (o : Opens) (t : Now) (d : Dir) (g : FileLogger) : Dir * FileLogger * Z :=
  if decide (logDir_ g = []) then (d, g, 0)
  else
    let g := closeFile g in
    let kept := filter (fun kv => is_log_name kv.1 = false) (d : gmap str str) in
    let count := Z.of_nat (size d) - Z.of_nat (size kept) in
    if active_ g then let '(d, g, _) := openFile o (today t) kept g in (d, g, count)
    else (kept, g, count).

(** ** Runs *)

(** One call of the logger: a logger call, the clock at that moment. *)
Inductive LogOp :=
  | OpInit (t : Now) (lv : LogLevel)
  | OpWrite (t : Now) (lv : LogLevel) (msg : str)
  | OpStop
  | OpSetLevel (lv : LogLevel)
  | OpDelete (name : str)
  | OpDeleteAll (t : Now).

Definition log_step (o : Opens) (dir : str) (op : LogOp) (d : Dir) (g : FileLogger) : Dir * FileLogger :=
  match op with
  | OpInit t lv => (init o true t dir lv d g).1
  | OpWrite t lv msg => write o t lv msg d g
  | OpStop => (d, stop g)
  | OpSetLevel lv => (d, setLevel lv g)
  | OpDelete name => (deleteFile name d g).1
  | OpDeleteAll t => (deleteAllFiles o t d g).1
  end.

Fixpoint log_run (dir : str) (ops : list (Opens * LogOp)) (d : Dir) (g : FileLogger) : Dir * FileLogger :=
  match ops with
  | [] => (d, g)
  | (o, op) :: ops => let (d, g) := log_step o dir op d g in log_run dir ops d g
  end.

(** Every [fopen] succeeds; the disk stores everything. *)
Definition opens_ok (o : Opens) : Prop := open_append o = true /\ open_read o = true /\ open_write o = true.

Definition stores (o : Opens) : bool :=
  match part_disk o, line_taken o, line_disk o with AllStored, None, AllStored => true | _, _, _ => false end.

(** A line of at most half the cap. *)
Definition short_op (op : LogOp) : Prop :=
  match op with
  | OpWrite t lv msg => Z.of_nat (length (log_line t lv msg)) <= kMaxFileSizeBytes / 2
  | _ => True
  end.

(** ** Invariants *)

(** The size the logger counts: the size of the file, as long as the disk has
    stored everything; never less. *)
Definition size_ok (exact : bool) (counted real : Z) : Prop := if exact then counted = real else real <= counted.

(** The open file is the one of its date, exists, and its size is counted. *)
Definition handle_ok (exact : bool) (d : Dir) (g : FileLogger) : Prop :=
  fp g = true ->
  currentName_ g = nameForDate (currentDateStr_ g) /\
  is_Some (d !! currentName_ g) /\ size_ok exact (currentSize_ g) (file_size d (currentName_ g)).

Definition capped (d : Dir) : Prop := map_Forall (fun _ c => Z.of_nat (length c) <= kMaxFileSizeBytes) (d : gmap str str).

Definition log_inv (exact : bool) (d : Dir) (g : FileLogger) : Prop := handle_ok exact d g /\ capped d.

Lemma size_exact b n : size_ok b n n.
Proof. destruct b; cbn; lia. Qed.

Lemma size_le b n m : size_ok b n m -> m <= n.
Proof. destruct b; cbn; lia. Qed.

Lemma file_size_lookup (d : Dir) name c : d !! name = Some c -> file_size d name = Z.of_nat (length c).
Proof. unfold file_size. by intros ->. Qed.

Lemma nameForDate_not_nil date : nameForDate date <> [].
Proof. done. Qed.

Lemma openFile_ok b o date d g d' g' ok : openFile o date d g = (d', g', ok) -> handle_ok b d' g'.
Proof.
  unfold openFile. destruct (open_append o); intros [= <- <- _] Hf; [cbn in * | done].
  rewrite lookup_insert_eq. eauto using size_exact.
Qed.

Lemma handle_weaken b c d g : handle_ok b d g -> handle_ok (b && c) d g.
Proof.
  intros H Hf. destruct (H Hf) as (Hn & Hc & Hs). split_conj; [done | done |]. destruct b; cbn in *; [| done].
  rewrite Hs. apply size_exact.
Qed.

Lemma openFile_capped o date d g d' g' ok : openFile o date d g = (d', g', ok) -> capped d -> capped d'.
Proof.
  unfold openFile. destruct (open_append o); intros [= <- <- _] Hc; [| done].
  apply map_Forall_insert_2; [| done].
  destruct (d !! nameForDate date) eqn:E; [by apply (Hc _ _ E) | done].
Qed.

Lemma capped_filter (P : str * str -> Prop) `{!forall kv, Decision (P kv)} (d : Dir) :
  capped d -> capped (filter P (d : gmap str str)).
Proof. intros Hc k c [Hk _]%map_lookup_filter_Some. by apply (Hc k). Qed.

Lemma prune_capped cutoff d g : capped d -> capped (pruneOldFiles cutoff d g).
Proof.
  unfold pruneOldFiles. intros Hc. case_decide; [done | by apply capped_filter].
Qed.

(** ** Rotation *)

(** The newest part of a file: the lines that begin after the first newline of
    its second half; nothing when there is none. *)
Definition newest_part (old part : str) : Prop :=
  let mid := (length old / 2)%nat in
  (exists pre, old = pre ++ LF :: part /\ (mid <= length pre)%nat /\ LF ∉ drop mid pre) \/
  (part = [] /\ LF ∉ drop mid old).

Lemma keep_newer_newest buf : newest_part buf (keep_newer buf).
Proof.
  unfold newest_part, keep_newer. set (mid := (length buf / 2)%nat).
  destruct find_char as [i |] eqn:E; [left | right; by apply find_char_None in E].
  apply find_char_Some in E as [E Hi].
  assert (Hmid : (mid <= length buf)%nat) by (apply Nat.Div0.div_le_upper_bound; lia).
  exists (take mid buf ++ take i (drop mid buf)). split_conj.
  - rewrite <- (take_drop mid buf) at 1. rewrite E at 1. rewrite <- app_assoc. do 3 f_equal.
    rewrite drop_drop. f_equal. lia.
  - rewrite length_app, length_take. lia.
  - rewrite drop_app_length' by (rewrite length_take; lia). done.
Qed.

Lemma keep_newer_half buf : (2 * length (keep_newer buf) <= length buf)%nat.
Proof.
  unfold keep_newer. pose proof (Nat.div_mod_eq (length buf) 2).
  pose proof (Nat.mod_upper_bound (length buf) 2).
  destruct find_char as [i |]; cbn [length]; [rewrite length_drop |]; lia.
Qed.

Lemma on_disk_length {A} k (l : list A) : (length (on_disk k l) <= length l)%nat.
Proof. destruct k; cbn; rewrite ?length_take; lia. Qed.

Lemma written_length o line : (length (written o line) <= length line)%nat.
Proof. unfold written. destruct (line_taken o); rewrite ?length_take; lia. Qed.

(** Rotation of an intact handle: the file becomes what the disk stores of its
    newest part. *)
Lemma rotate_opened b o d g c :
  opens_ok o -> handle_ok b d g -> fp g = true -> d !! currentName_ g = Some c ->
  rotateInPlace o d g =
    (<[currentName_ g := on_disk (part_disk o) (keep_newer c)]> (d : gmap str str),
     mkLogger (logDir_ g) (currentName_ g) true (Z.of_nat (length (on_disk (part_disk o) (keep_newer c)))) (currentDateStr_ g) (active_ g) (level_ g)).
Proof.
  intros (H1 & H2 & H3) H Hf Hc. destruct (H Hf) as (Hn & _ & _). unfold rotateInPlace.
  rewrite Hf, bool_decide_false by (by rewrite Hn). cbn [negb orb]. rewrite H1, H2, H3, Hc.
  destruct c as [| a c].
  - assert (E : on_disk (part_disk o) (keep_newer []) = []) by (by destruct (part_disk o) as [| []]).
    rewrite E. unfold openFile, file_size. by rewrite H1, <- Hn, Hc, lookup_insert_eq.
  - unfold file_size. by rewrite lookup_insert_eq.
Qed.

Lemma rotate_ok b o d g : handle_ok b d g -> handle_ok b (rotateInPlace o d g).1 (rotateInPlace o d g).2.
Proof.
  intros H. unfold rotateInPlace. destruct (fp g) eqn:Hf; [| done]. case_bool_decide as Hn; [done |]. cbn [negb orb].
  destruct (H Hf) as (Hname & [c Hc] & _).
  assert (Hre : forall d, handle_ok b (let '(d, g, _) := openFile o (currentDateStr_ g) d g in (d, g)).1
                                    (let '(d, g, _) := openFile o (currentDateStr_ g) d g in (d, g)).2).
  { intros d'. destruct (openFile o (currentDateStr_ g) d' g) as [[d1 g1] ok] eqn:E. by apply (openFile_ok b) in E. }
  destruct (if open_read o then d !! currentName_ g else None) as [[| a buf] |]; [apply Hre | | apply Hre].
  intros Ho. cbn in Ho |- *. rewrite Ho. split; [done |]. split; [| apply size_exact].
  destruct (open_write o); [rewrite lookup_insert_eq |]; eauto.
Qed.

(** ** Appending *)

(** What an append of [n] bytes leaves of a file that is counted as [counted]
    bytes. *)
Definition kept_part (o : Opens) (counted n : Z) (c : str) : str :=
  if kMaxFileSizeBytes <? counted + n then on_disk (part_disk o) (keep_newer c) else c.

Lemma append_ok b o line d g :
  handle_ok b d g -> handle_ok (b && stores o) (append_line o line d g).1 (append_line o line d g).2.
Proof.
  intros H. unfold append_line.
  assert (H' : forall d g, handle_ok b d g ->
    let r := if negb (fp g) then (d, g) else
      if decide (written o line = []) then (d, g)
      else (<[currentName_ g := default [] (d !! currentName_ g) ++ on_disk (line_disk o) (written o line)]> (d : gmap str str),
          mkLogger (logDir_ g) (currentName_ g) true (currentSize_ g + Z.of_nat (length (written o line))) (currentDateStr_ g) (active_ g) (level_ g))
    in handle_ok (b && stores o) r.1 r.2).
  { clear. intros d g H. destruct (fp g) eqn:Hf; cbn [negb]; [| by apply handle_weaken]. destruct (decide _) as [_ | _]; [by apply handle_weaken |].
    destruct (H Hf) as (Hn & [c Hc] & Hs). intros _. cbn. rewrite lookup_insert_eq. split; [done |]. split; [done |].
    unfold file_size in *. rewrite lookup_insert_eq. rewrite Hc in *. cbn [default id].
    pose proof (on_disk_length (line_disk o) (written o line)). rewrite length_app, Nat2Z.inj_add. unfold stores.
    destruct b; cbn in *; [| lia]. destruct (part_disk o), (line_taken o), (line_disk o) eqn:E; cbn in *; lia. }
  destruct (_ <? _); [| by apply H'].
  pose proof (rotate_ok b o d g H) as Hr. destruct (rotateInPlace o d g) as [d1 g1]. by apply H'.
Qed.

Lemma append_content b o line d g c :
  opens_ok o -> handle_ok b d g -> fp g = true -> d !! currentName_ g = Some c ->
  (append_line o line d g).1 =
    <[currentName_ g := kept_part o (currentSize_ g) (Z.of_nat (length line)) c ++ on_disk (line_disk o) (written o line)]> (d : gmap str str).
Proof.
  intros Ho H Hf Hc. unfold append_line, kept_part.
  assert (E0 : forall k, on_disk k ([] : str) = []) by (intros [| []]; done).
  destruct (kMaxFileSizeBytes <? _).
  - rewrite (rotate_opened b o d g c) by done. cbn [fp currentName_ negb]. destruct (decide _) as [E | E].
    + rewrite E, E0. cbn [fst]. by rewrite app_nil_r.
    + cbn [fst]. by rewrite lookup_insert_eq, insert_insert_eq.
  - rewrite Hf. cbn [negb]. destruct (decide _) as [E | E]; cbn [fst].
    + rewrite E, E0, app_nil_r. symmetry. by apply insert_id.
    + by rewrite Hc.
Qed.

Lemma append_capped b o line d g :
  opens_ok o -> handle_ok b d g -> capped d -> Z.of_nat (length line) <= kMaxFileSizeBytes / 2 ->
  capped (append_line o line d g).1.
Proof.
  intros Ho H Hc Hl. destruct (fp g) eqn:Hf.
  - destruct (H Hf) as (_ & [c Hn] & Hs). rewrite (append_content b o line d g c) by done.
    apply size_le in Hs. rewrite (file_size_lookup _ _ _ Hn) in Hs.
    apply map_Forall_insert_2; [| done]. rewrite length_app.
    pose proof (Hc _ _ Hn : Z.of_nat (length c) <= kMaxFileSizeBytes). pose proof (keep_newer_half c).
    pose proof (on_disk_length (part_disk o) (keep_newer c)). pose proof (on_disk_length (line_disk o) (written o line)).
    pose proof (written_length o line).
    change (kMaxFileSizeBytes / 2) with 26214400 in Hl. unfold kept_part, kMaxFileSizeBytes in *.
    destruct (Z.ltb_spec (50 * 1024 * 1024) (currentSize_ g + Z.of_nat (length line))); lia.
  - unfold append_line, rotateInPlace. rewrite Hf. cbn [negb orb]. by destruct (_ <? _); rewrite Hf.
Qed.

(** ** Every call keeps the invariant *)

Lemma write_inv b o t lv msg d g :
  handle_ok b d g -> handle_ok (b && stores o) (write o t lv msg d g).1 (write o t lv msg d g).2.
Proof.
  intros H. pose proof (handle_weaken b (stores o) d g H) as W.
  unfold write. destruct (active_ g); [| done]. cbn [negb]. destruct (_ <? _); [done |].
  destruct (fp g); [| done]. cbn [negb]. destruct (decide _) as [E | E]; cbn [negb]; [by apply append_ok |].
  destruct (openFile _ _ _ _) as [[d1 g1] ok] eqn:Ho. destruct ok; cbn [negb]; [| by eapply openFile_ok].
  apply append_ok. by eapply openFile_ok.
Qed.

Lemma write_capped b o t lv msg d g :
  opens_ok o -> log_inv b d g -> Z.of_nat (length (log_line t lv msg)) <= kMaxFileSizeBytes / 2 ->
  capped (write o t lv msg d g).1.
Proof.
  intros Hopen [H Hc] Hl. unfold write. destruct (active_ g); [| done]. cbn [negb]. destruct (_ <? _); [done |].
  destruct (fp g); [| done]. cbn [negb]. destruct (decide _) as [E | E]; cbn [negb]; [by eapply append_capped |].
  destruct (openFile _ _ _ _) as [[d1 g1] ok] eqn:Ho. pose proof (openFile_ok b _ _ _ _ _ _ _ Ho) as H1.
  apply openFile_capped in Ho; [| by apply prune_capped].
  destruct ok; cbn [negb]; [by eapply append_capped | done].
Qed.

Lemma log_step_handle b o dir op d g :
  handle_ok b d g -> handle_ok (b && stores o) (log_step o dir op d g).1 (log_step o dir op d g).2.
Proof.
  intros H. pose proof (handle_weaken b (stores o) d g H) as W.
  destruct op as [t lv | t lv msg | | lv | name | t]; cbn [log_step].
  - unfold init. cbn [negb]. destruct (openFile _ _ _ _) as [[d1 g1] ok] eqn:Ho. apply (openFile_ok (b && stores o)) in Ho.
    by destruct ok.
  - by apply write_inv.
  - done.
  - done.
  - unfold deleteFile. do 2 (destruct (_ || _); [done |]). destruct (decide (logDir_ g = [])); [done |].
    case_decide; [done |]. intros Hf. destruct (W Hf) as (Hn & Hc & Hs).
    cbn. unfold file_size in *. rewrite lookup_delete_ne by done. done.
  - unfold deleteAllFiles. case_decide; [done |]. cbn [closeFile active_]. destruct (active_ g); [| done].
    destruct (openFile _ _ _ _) as [[d1 g1] ok] eqn:Ho. by apply (openFile_ok (b && stores o)) in Ho.
Qed.

Lemma log_step_inv b o dir op d g :
  opens_ok o -> log_inv b d g -> short_op op -> log_inv (b && stores o) (log_step o dir op d g).1 (log_step o dir op d g).2.
Proof.
  intros Hopen [H Hc] Hs. split; [by apply log_step_handle |].
  destruct op as [t lv | t lv msg | | lv | name | t]; cbn [log_step]; try done.
  - unfold init. cbn [negb]. destruct (openFile _ _ _ _) as [[d1 g1] ok] eqn:Ho.
    apply openFile_capped in Ho; [by destruct ok | by apply prune_capped].
  - by eapply write_capped.
  - unfold deleteFile. do 2 (destruct (_ || _); [done |]). destruct (decide (logDir_ g = [])); [done |].
    by apply map_Forall_delete.
  - unfold deleteAllFiles. case_decide; [done |]. cbn [closeFile active_].
    assert (Hk : capped (filter (fun kv => is_log_name kv.1 = false) d)) by (by apply capped_filter).
    destruct (active_ g); [| done].
    destruct (openFile _ _ _ _) as [[d1 g1] ok] eqn:Ho. by apply openFile_capped in Ho.
Qed.

Lemma log_run_inv dir ops b d g :
  log_inv b d g -> Forall (fun x => opens_ok x.1 /\ short_op x.2) ops ->
  log_inv (b && forallb (fun x => stores x.1) ops) (log_run dir ops d g).1 (log_run dir ops d g).2.
Proof.
  intros H Hs. revert b d g H. induction Hs as [| [o op] ops [Ho Hop] _ IH]; intros b d g H; [by rewrite andb_true_r |].
  cbn [log_run forallb fst]. pose proof (log_step_inv b o dir op d g Ho H Hop) as H1.
  destruct (log_step _ _ _ _ _) as [d1 g1]. rewrite andb_assoc. by apply IH.
Qed.

(** ** What a write leaves behind *)

Lemma expired_today date cutoff :
  length date = 10%nat -> str_ltb date cutoff = false -> expired_file cutoff (nameForDate date) = false.
Proof.
  intros Hl Hc. unfold expired_file, nameForDate, substr. unfold kPrefix.
  rewrite (drop_app_length' _ _ 11) by done. rewrite (take_app_length' date) by done.
  by rewrite Hc, andb_false_r.
Qed.

Lemma prune_lookup cutoff d g name :
  pruneOldFiles cutoff d g !! name = d !! name \/
  (pruneOldFiles cutoff d g !! name = None /\ expired_file cutoff name = true).
Proof.
  unfold pruneOldFiles. case_decide; [by left |]. destruct (expired_file cutoff name) eqn:E.
  - right. split; [| done]. apply map_lookup_filter_None. right. intros c _. cbn. by rewrite E.
  - left. destruct (d !! name) as [c |] eqn:Ed.
    + by apply map_lookup_filter_Some.
    + apply map_lookup_filter_None. by left.
Qed.

(** The directory after a write that passes the level filter. *)
Lemma write_content b o t lv msg d g :
  opens_ok o -> handle_ok b d g -> active_ g = true -> fp g = true -> level_rank (level_ g) <= level_rank lv ->
  let line := log_line t lv msg in
  let file := nameForDate (today t) in
  exists d1 counted, (d1 = d \/ d1 = pruneOldFiles (cutoffDate t) d (closeFile g)) /\
    size_ok b counted (file_size d1 file) /\
    (write o t lv msg d g).1 =
      <[file := kept_part o counted (Z.of_nat (length line)) (default [] (d1 !! file)) ++ on_disk (line_disk o) (written o line)]>
        (d1 : gmap str str).
Proof.
  intros Ho H Ha Hf Hl. unfold write. rewrite Ha, Hf. cbn [negb].
  rewrite (proj2 (Z.ltb_ge _ _) Hl). destruct (decide _) as [E | E]; cbn [negb].
  - exists d, (currentSize_ g). destruct (H Hf) as (Hn & [c Hc] & Hs). split; [by left |]. rewrite E, <- Hn. split; [done |].
    rewrite (append_content b o (log_line t lv msg) d g c) by done. by rewrite Hc.
  - set (d1 := pruneOldFiles _ _ _). exists d1, (file_size d1 (nameForDate (today t))).
    split; [by right |]. split; [apply size_exact |].
    destruct (openFile _ _ _ _) as [[d2 g2] ok] eqn:Hop.
    pose proof (openFile_ok b _ _ _ _ _ _ _ Hop) as H2. revert Hop. unfold openFile. rewrite (proj1 Ho).
    intros [= <- <- <-]. cbn [negb].
    rewrite (append_content b o (log_line t lv msg) _ _ (default [] (d1 !! nameForDate (today t))));
      [| done | done | done | by apply lookup_insert_eq]. cbn [currentName_ currentSize_]. rewrite insert_insert_eq.
    unfold file_size. rewrite lookup_insert_eq. by destruct (d1 !! nameForDate (today t)).
Qed.

(** C40: the log files stay within 50 MB and rotation keeps the newest lines.
    Take any sequence of logger calls in which files can be opened and lines
    are at most half the cap; the disk may lose what it likes. No log file ever
    exceeds the cap, and the open file is the one its date names. A write that
    passes the level filter appends to today's file what the disk takes of its
    line, after the whole old content if the bytes counted for the file and
    the line fit the cap; and otherwise after exactly the lines that begin
    past the first newline of the old content's second half, as far as the
    disk stores them. The counted bytes are those in the file, or more when the
    disk has lost some before. No other file changes, except that expired ones
    disappear. *)
Theorem log_keeps_newest dir ops d0 o t lv msg :
  capped d0 -> Forall (fun x => opens_ok x.1 /\ short_op x.2) ops -> opens_ok o -> short_op (OpWrite t lv msg) ->
  length (today t) = 10%nat -> str_ltb (today t) (cutoffDate t) = false ->
  let (d, g) := log_run dir ops d0 FileLogger_init in
  let exact := forallb (fun x => stores x.1) ops in
  log_inv exact d g /\
  (active_ g = true -> fp g = true -> level_rank (level_ g) <= level_rank lv ->
   let (d', g') := write o t lv msg d g in
   let file := nameForDate (today t) in
   let old := default [] (d !! file) in
   let line := log_line t lv msg in
   log_inv (exact && stores o) d' g' /\
   (exists counted kept,
      size_ok exact counted (Z.of_nat (length old)) /\
      (if kMaxFileSizeBytes <? counted + Z.of_nat (length line)
       then exists part, newest_part old part /\ kept = on_disk (part_disk o) part
       else kept = old) /\
      d' !! file = Some (kept ++ on_disk (line_disk o) (written o line))) /\
   (forall name, name <> file ->
      d' !! name = d !! name \/ (d' !! name = None /\ expired_file (cutoffDate t) name = true))).
Proof.
  intros H0 Hs Ho Hw Hlen Hcut.
  assert (Hi : log_inv true d0 FileLogger_init) by done.
  pose proof (log_run_inv dir ops true d0 _ Hi Hs) as H. destruct (log_run _ _ _ _) as [d g]. cbn [fst snd andb] in H.
  split; [done |]. intros Ha Hf Hl. set (b := forallb _ _) in *.
  pose proof (log_step_inv b o dir (OpWrite t lv msg) d g Ho H Hw) as H'. cbn [log_step] in H'.
  destruct (write_content b o t lv msg d g Ho (proj1 H) Ha Hf Hl) as (d1 & counted & Hd1 & Hc & E).
  destruct (write o t lv msg d g) as [d' g']. cbn [fst snd] in *. split; [done |]. subst d'.
  assert (Ht : d1 !! nameForDate (today t) = d !! nameForDate (today t)).
  { destruct Hd1 as [-> | ->]; [done |].
    destruct (prune_lookup (cutoffDate t) d (closeFile g) (nameForDate (today t))) as [? | [_ He]]; [done |].
    by rewrite expired_today in He. }
  split.
  - rewrite lookup_insert_eq. unfold file_size in Hc. rewrite Ht in *. exists counted. eexists. split_conj; [| | done].
    + destruct (d !! nameForDate (today t)); done.
    + unfold kept_part. destruct (_ <? _); [| done]. eauto using keep_newer_newest.
  - intros name Hn. rewrite lookup_insert_ne by done. destruct Hd1 as [-> | ->]; [by left |]. apply prune_lookup.
Qed.

Definition sample_now : Now := mkNow "2026-03-02" "2026-02-27" "10:00:00".
Definition sample_file : str := nameForDate "2026-03-02".

(** A file of 50 MB: a huge line and a short one. *)
Definition sample_full : str := replicate (Z.to_nat 52428790) "x"%char ++ LF :: "last" ++ [LF].

Lemma newest_part_unique old p1 p2 : newest_part old p1 -> newest_part old p2 -> p1 = p2.
Proof.
  intros H1 H2.
  assert (G : forall p, newest_part old p -> p = match find_char LF (drop (length old / 2) old) with
    | Some i => drop (length old / 2 + i + 1) old | None => [] end).
  { clear. unfold newest_part. generalize (length old / 2)%nat as mid. intros mid p [(pre & -> & Hl & Hn) | [-> Hn]].
    - rewrite drop_app_le, find_char_app, length_drop by done.
      replace (mid + (length pre - mid) + 1)%nat with (length (pre ++ [LF])) by (rewrite length_app; cbn; lia).
      rewrite (cons_middle LF pre p), app_assoc. by rewrite drop_app_length.
    - by rewrite (proj2 (find_char_None _ _) Hn). }
  by rewrite (G p1 H1), (G p2 H2).
Qed.

Lemma sample_newest : newest_part sample_full ("last" ++ [LF]).
Proof.
  left. exists (replicate (Z.to_nat 52428790) "x"%char). unfold sample_full.
  rewrite length_app, length_replicate. change (length (LF :: ("last" : str) ++ [LF])) with 6%nat. split_conj; [done | |].
  - apply Nat.Div0.div_le_upper_bound. lia.
  - rewrite drop_replicate. by intros [H _]%elem_of_replicate.
Qed.

Lemma sample_opened c :
  log_run "/var/log/ntm" [(all_open, OpInit sample_now LInfo)] {[sample_file := c]} FileLogger_init =
  ({[sample_file := c]}, mkLogger "/var/log/ntm" sample_file true (Z.of_nat (length c)) "2026-03-02" true LInfo).
Proof. reflexivity. Qed.

(** The file is full: the write leaves its last whole line and the new one. *)
Lemma log_keeps_newest_witness :
  let (d, g) := log_run "/var/log/ntm" [(all_open, OpInit sample_now LInfo)] {[sample_file := sample_full]} FileLogger_init in
  (write all_open sample_now LErr "disk gone" d g).1 !! sample_file =
    Some (("last" : str) ++ LF :: "[2026-03-02 10:00:00 ERR ] disk gone" ++ [LF]).
Proof.
  assert (Ho : opens_ok all_open) by (by split_conj).
  assert (Hw : short_op (OpWrite sample_now LErr "disk gone")) by (by vm_compute).
  assert (Hline : Z.of_nat (length (log_line sample_now LErr "disk gone")) = 37) by reflexivity.
  assert (Hs : Forall (fun x => opens_ok x.1 /\ short_op x.2) [(all_open, OpInit sample_now LInfo)]) by (by repeat constructor).
  assert (Hl : Z.of_nat (length sample_full) = 52428796) by
    (unfold sample_full; rewrite length_app, length_replicate; change (length (LF :: ("last" : str) ++ [LF])) with 6%nat; lia).
  assert (Hc : capped {[sample_file := sample_full]}).
  { apply map_Forall_singleton. unfold kMaxFileSizeBytes. rewrite Hl. lia. }
  pose proof (log_keeps_newest "/var/log/ntm" _ _ all_open sample_now LErr "disk gone" Hc Hs Ho Hw eq_refl eq_refl) as H.
  rewrite sample_opened in *. destruct H as [_ H]. specialize (H eq_refl eq_refl ltac:(done)).
  destruct (write _ _ _ _ _ _) as [d' g']. destruct H as (_ & (counted & kept & Hn & Hk & E) & _).
  change (nameForDate (today sample_now)) with sample_file in *. rewrite lookup_singleton_eq in *. cbn [default id fst] in *.
  rewrite E. f_equal. change (counted = Z.of_nat (length sample_full)) in Hn. rewrite Hn, Hl, Hline in Hk.
  change (kMaxFileSizeBytes <? 52428796 + 37) with true in Hk. destruct Hk as (part & Hp & ->).
  rewrite (newest_part_unique _ _ _ Hp sample_newest). reflexivity.
Defined.
(** A write with no open file returns before the rollover could open one. *)
Lemma closed_silent o t lv msg d g : fp g = false -> write o t lv msg d g = (d, g).
Proof. intros Hf. unfold write. rewrite Hf. destruct (active_ g); [| done]. by destruct (_ <? _). Qed.

(** Deleting the file that is being written closes it: an active logger then
    stays silent, also on later days, until the next start or mass deletion. *)
Lemma delete_current_silences o t lv msg :
  let (d, g) := log_run "/var/log/ntm" [(all_open, OpInit sample_now LInfo); (all_open, OpDelete "ntm-client-2026-03-02.log")] ∅ FileLogger_init in
  active_ g = true /\ write o t lv msg d g = (d, g).
Proof.
  set (r := log_run _ _ _ _).
  assert (Hr : active_ r.2 = true /\ fp r.2 = false) by (subst r; split; vm_compute; reflexivity).
  destruct r as [d g]. split; [apply Hr | apply closed_silent, Hr].
Qed.
