(* ===== verification/HttpUtil.v ===== *)
(** The small HTTP and JSON helpers of the program: the URL, response and
    string-field helpers of [client_http_util.hpp], the field readers of the
    updater ([updater.cpp]), and the escaping and field extraction of the
    dashboard ([web_dashboard.cpp]). The theorems say that a value escaped by
    the dashboard is read back exactly, from its own field. *)

From S2P Require Import Prelude CppString.
Local Open Scope Z_scope.

(** ** URLs *)

(* client_http_util.hpp:19-25 ParsedUrl *)
Record ParsedUrl := mkUrl { url_host : str; url_port : str; url_path : str; url_ok : bool }.

Definition kHttpPrefix : str := "http://".

(* client_http_util.hpp:30-63 parseHttpUrl *)
Definition parseHttpUrl (url : str) : ParsedUrl :=
  if (length url <=? length kHttpPrefix)%nat || negb (starts_with kHttpPrefix url) then mkUrl [] [] [] false
  else
    let rest := substr_from url 7 in
    let '(hostPort, path) := match find_char "/" rest with
                             | None => (rest, ["/"%char])
                             | Some p => (substr rest 0 p, substr_from rest p)
                             end in
    let '(host, port) := match rfind_char ":" hostPort with
                         | Some p => (substr hostPort 0 p, substr_from hostPort (S p))
                         | None => (hostPort, ("80" : str))
                         end in
    mkUrl host port path (negb (bool_decide (host = [])) && negb (bool_decide (port = []))).

(** ** Responses *)

Definition http_blank : ascii -> bool := char_in [CR; LF; SP; TAB].

(* client_http_util.hpp:74-103 extractHttpBody *)
Definition extractHttpBody (response : str) : str :=
  match find_str CRLFCRLF response with
  | None => []
  | Some p =>
      let body := trim_front http_blank (trim_back http_blank (substr_from response (p + 4))) in
      let body := match find_char LF body with
                  | Some nl => if (nl <=? 7)%nat then substr_from body (S nl) else body
                  | None => body
                  end in
      trim_back http_blank body
  end.

(* client_http_util.hpp:110-117 buildGetRequest *)
Definition buildGetRequest (path host : str) : str :=
  "GET " ++ path ++ " HTTP/1.0" ++ [CR; LF] ++ "Host: " ++ host ++ [CR; LF]
  ++ "Connection: close" ++ [CR; LF] ++ [CR; LF].

(* client_http_util.hpp:125-128 hasValidHostname *)
Definition hasValidHostname (host : str) : bool :=
  match find_if (char_in [CR; LF]) host with Some _ => false | None => true end.

(** [static_cast<int>] of a 64-bit [long]. *)
Definition to_int32 (z : Z) : Z := (z + 2 ^ 31) mod 2 ^ 32 - 2 ^ 31.

(** [strtol]/[strtoll]: [None] when nothing is consumed, saturating. *)
Definition strtoll (s : str) : option Z :=
  match strto_scan s with
  | None => None
  | Some (neg, ds, _) =>
      let v := if neg : bool then - dec_val 0 ds else dec_val 0 ds in
      Some (if 2 ^ 63 - 1 <? v then 2 ^ 63 - 1 else if v <? - 2 ^ 63 then - 2 ^ 63 else v)
  end.

(* updater.cpp:294-302 parseHttpStatus *)
Definition parseHttpStatus (response : str) : Z :=
  if (length response <? 12)%nat then 0
  else if negb (starts_with "HTTP/" response) then 0
  else match find_char SP response with
       | None => 0
       | Some sp => to_int32 (default 0 (strtoll (substr_from response (S sp))))
       end.

(* updater.cpp:304-309 parseHttpBody *)
Definition parseHttpBody (response : str) : str :=
  match find_str CRLFCRLF response with None => [] | Some p => substr_from response (p + 4) end.

(** ** JSON fields *)

(** The body of a string literal, up to its closing quote; an escape stands
    for the escaped byte itself. [None] for an unterminated literal. *)
(* client_http_util.hpp:144-161 jsonStr, loop *)
Fixpoint str_body (s : str) : option str :=
  match s with
  | [] => None
  | c :: s' =>
      if decide (c = BSLASH) then
        match s' with
        | [] => None
        | d :: s'' => cons d <$> str_body s''
        end
      else if decide (c = DQUOTE) then Some []
      else cons c <$> str_body s'
  end.

Definition quoted (s : str) : str := DQUOTE :: s ++ [DQUOTE].

(* client_http_util.hpp:137-163 jsonStr *)
Definition jsonStr (json key : str) : str :=
  let pattern := quoted key ++ [":"%char; DQUOTE] in
  match find_str pattern json with
  | None => []
  | Some pos => default [] (str_body (substr_from json (pos + length pattern)))
  end.

Definition json_pad : ascii -> bool := char_in [SP; TAB].

(* updater.cpp:270-274 jsonBool, value position *)
Definition raw_value (json key : str) : option str :=
  let pt := quoted key ++ [":"%char] in
  (fun pos => trim_front json_pad (substr_from json (pos + length pt))) <$> find_str pt json.

(* updater.cpp:268-278 jsonBool *)
Definition jsonBool (json key : str) (def : bool) : bool :=
  match raw_value json key with
  | None => def
  | Some v => if starts_with "true" v then true else if starts_with "false" v then false else def
  end.

(* updater.cpp:280-291 jsonInt *)
Definition jsonInt (json key : str) (def : Z) : Z :=
  match raw_value json key with
  | None => def
  | Some v => default def (strtoll v)
  end.

(* web_dashboard.cpp:583-589 jsonEsc, byte *)
Definition esc_char (c : ascii) : str :=
  if decide (c = DQUOTE) then [BSLASH; DQUOTE]
  else if decide (c = BSLASH) then [BSLASH; BSLASH]
  else if decide (c = LF) then [BSLASH; "n"%char]
  else if decide (c = CR) then [BSLASH; "r"%char]
  else if decide (c = TAB) then [BSLASH; "t"%char]
  else if byte_val c <? 0x20 then []
  else [c].

(* web_dashboard.cpp:577-592 jsonEsc *)
Definition jsonEsc (s : str) : str := concat (esc_char <$> s).

(* web_dashboard.cpp:623-631 jsonGetString, escape *)
Definition unesc (e : ascii) : ascii :=
  if decide (e = "n"%char) then LF else if decide (e = "r"%char) then CR
  else if decide (e = "t"%char) then TAB else e.

(* web_dashboard.cpp:616-635 jsonGetString, value *)
Fixpoint esc_body (s : str) : option str :=
  match s with
  | [] => None
  | c :: s' =>
      if decide (c = DQUOTE) then Some []
      else if decide (c = BSLASH) then
        match s' with
        | [] => None
        | e :: s'' => cons (unesc e) <$> esc_body s''
        end
      else cons c <$> esc_body s'
  end.

Definition json_ws : ascii -> bool := char_in [SP; TAB; CR; LF].

(** What follows an occurrence of the key: the field's value, or [None] when no
    colon follows and the occurrence lies inside a value. *)
(* web_dashboard.cpp:605-636 jsonGetString, value *)
Definition field_value (s : str) : option str :=
  match trim_front json_ws s with
  | c :: rest =>
      if decide (c = ":"%char) then
        Some (match trim_front json_ws rest with
              | q :: v => if decide (q = DQUOTE) then default [] (esc_body v) else []
              | [] => []
              end)
      else None
  | [] => None
  end.

(** The search for a key goes on behind a false occurrence and the bytes
    skipped there. *)
Section Scan.
Context (value : str -> option str) (skip : str -> str).

Fixpoint scan_loop (fuel : nat) (needle json : str) : str :=
  match fuel with
  | O => []
  | S fuel =>
      match find_str needle json with
      | None => []
      | Some p =>
          let rest := substr_from json (p + length needle) in
          match value rest with Some v => v | None => scan_loop fuel needle (skip rest) end
      end
  end.
End Scan.

(** The fuel is the length of the text, which every round shortens. *)
(* web_dashboard.cpp:596-638 jsonGetString *)
Definition jsonGetString (json key : str) : str :=
  scan_loop field_value (trim_front json_ws) (length json) (quoted key) json.

(** ** Flat objects *)

(** A field value: a string that the writer escapes, or a bare token. *)
Inductive jvalue := JStr (v : str) | JRaw (r : str).

Definition value_text (v : jvalue) : str :=
  match v with JStr v => quoted (jsonEsc v) | JRaw r => r end.

Definition field_text (f : str * jvalue) : str := quoted f.1 ++ ":"%char :: value_text f.2.

(** The fields of an object, the closing brace and what follows it. *)
Fixpoint fields_text (fs : list (str * jvalue)) (tail : str) : str :=
  match fs with
  | [] => "}"%char :: tail
  | [f] => field_text f ++ "}"%char :: tail
  | f :: fs' => field_text f ++ ","%char :: fields_text fs' tail
  end.

Definition object_text (fs : list (str * jvalue)) (tail : str) : str := "{"%char :: fields_text fs tail.

Definition is_ident (c : ascii) : bool := is_digit c || is_lower c || is_upper c || bool_decide (c = "_"%char).
Definition ident (k : str) : Prop := Forall (fun c => is_ident c = true) k.

Definition value_ok (v : jvalue) : Prop :=
  match v with JStr _ => True | JRaw r => DQUOTE ∉ r end.

Definition object_ok (fs : list (str * jvalue)) : Prop :=
  NoDup fs.*1 /\ Forall (fun f => ident f.1 /\ value_ok f.2) fs.

(** Bytes that [jsonEsc] does not drop. *)
Definition kept_char (c : ascii) : bool := (0x20 <=? byte_val c) || char_in [LF; CR; TAB] c.
(** Bytes that a reader without the letter escapes recovers too. *)
Definition plain_char (c : ascii) : bool := 0x20 <=? byte_val c.

(** ** Lemmas: identifiers and escapes *)

Lemma ident_char c :
  is_ident c = true -> c <> DQUOTE /\ c <> BSLASH /\ c <> ":"%char /\ c <> ","%char /\ c <> "}"%char.
Proof.
  intros H.
  assert (E : forallb (fun c => implb (is_ident c) (negb (char_in [DQUOTE; BSLASH; ":"%char; ","%char; "}"%char] c))) all_bytes = true)
    by (vm_compute; reflexivity).
  pose proof (byte_forall _ E c) as Hc. cbv beta in Hc. rewrite H in Hc. cbn [implb] in Hc.
  unfold char_in in Hc. bool_to_prop. rewrite !not_elem_of_cons in Hc. tauto.
Qed.

(** The three shapes of an escaped byte. *)
Lemma esc_char_cases c :
  esc_char c = [] \/ (exists e, esc_char c = [BSLASH; e]) \/ (esc_char c = [c] /\ c <> DQUOTE /\ c <> BSLASH).
Proof. unfold esc_char. repeat case_decide; eauto. destruct (_ <? _); eauto. Qed.

Lemma jsonEsc_cons c v : jsonEsc (c :: v) = esc_char c ++ jsonEsc v.
Proof. done. Qed.

Lemma starts_with_cons c p d s : starts_with (c :: p) (d :: s) = bool_decide (c = d) && starts_with p s.
Proof. done. Qed.

Lemma starts_with_ne c p d s : c <> d -> starts_with (c :: p) (d :: s) = false.
Proof. intros H. cbn. by rewrite bool_decide_false. Qed.

(** An identifier followed by a quote and a byte does not occur at a position
    of an escaped value, its closing quote included, that another byte
    follows. *)
Lemma esc_no_key k v c d r :
  ident k -> c <> d -> starts_with (k ++ [DQUOTE; c]) (jsonEsc v ++ DQUOTE :: d :: r) = false.
Proof.
  intros Hk Hd. revert k Hk. induction v as [|x v IH]; intros k Hk.
  - destruct Hk as [|y k Hy Hk]; cbn [app jsonEsc fmap list_fmap concat].
    + rewrite starts_with_cons, starts_with_ne, andb_false_r; done.
    + apply starts_with_ne, (ident_char y Hy).
  - rewrite jsonEsc_cons, <- app_assoc. destruct (esc_char_cases x) as [-> | [[e ->] | (-> & Hx & Hb)]]; cbn [app].
    + by apply IH.
    + destruct Hk as [|y k Hy Hk]; cbn [app]; apply starts_with_ne; [done | apply (ident_char y Hy)].
    + destruct Hk as [|y k Hy Hk]; cbn [app]; [by apply starts_with_ne |].
      rewrite starts_with_cons, IH by done. apply andb_false_r.
Qed.

Lemma ident_no_key k k2 s r :
  ident k -> ident k2 -> k <> k2 -> starts_with (k ++ DQUOTE :: s) (k2 ++ DQUOTE :: r) = false.
Proof.
  intros Hk. revert k2. induction Hk as [|x k Hx Hk IH]; intros k2 Hk2 Hne; destruct Hk2 as [|y k2 Hy Hk2]; cbn [app].
  - done.
  - apply starts_with_ne, not_eq_sym, (ident_char y Hy).
  - apply starts_with_ne, (ident_char x Hx).
  - rewrite starts_with_cons. destruct (decide (x = y)) as [-> | Hxy].
    + rewrite IH by (done || congruence). apply andb_false_r.
    + by rewrite bool_decide_false.
Qed.

Lemma colon_no_key k s r : ident k -> starts_with (k ++ DQUOTE :: s) (":"%char :: r) = false.
Proof.
  intros Hk. destruct Hk as [|x k Hx Hk]; cbn [app]; apply starts_with_ne; [done | apply (ident_char x Hx)].
Qed.

Lemma ident_no_quote k : ident k -> DQUOTE ∉ k.
Proof. intros Hk Hin. unfold ident in Hk. rewrite Forall_forall in Hk. by destruct (ident_char _ (Hk _ Hin)). Qed.

(** ** Lemmas: search for a field *)

Lemma fmap_S (o : option nat) : S <$> o = Nat.add 1 <$> o.
Proof. by destruct o. Qed.

Lemma fmap_add (o : option nat) a b : Nat.add a <$> (Nat.add b <$> o) = Nat.add (a + b) <$> o.
Proof. destruct o; cbn; f_equal; lia. Qed.

Lemma find_quote_skip p s :
  starts_with p s = false -> find_str (DQUOTE :: p) (DQUOTE :: s) = Nat.add 1 <$> find_str (DQUOTE :: p) s.
Proof. intros H. rewrite find_str_eq, starts_with_cons, H, andb_false_r. apply fmap_S. Qed.

Lemma find_byte_skip p c s : c <> DQUOTE -> find_str (DQUOTE :: p) (c :: s) = Nat.add 1 <$> find_str (DQUOTE :: p) s.
Proof. intros H. rewrite find_str_eq, starts_with_ne by done. apply fmap_S. Qed.

(** The byte after a value. *)
Definition sep (d : ascii) : Prop := d = ","%char \/ d = "}"%char.

Lemma sep_no_key k s d r : ident k -> sep d -> starts_with (k ++ DQUOTE :: s) (d :: r) = false.
Proof.
  intros Hk Hd. destruct Hk as [|x k Hx Hk]; cbn [app]; apply starts_with_ne.
  - by destruct Hd as [-> | ->].
  - destruct (ident_char x Hx) as (_ & _ & _ & ? & ?). by destruct Hd as [-> | ->].
Qed.

(** Past an escaped value and its closing quote. *)
Lemma find_esc_skip k v c d r :
  ident k -> c <> d -> sep d ->
  find_str (quoted k ++ [c]) (jsonEsc v ++ DQUOTE :: d :: r) =
    Nat.add (S (length (jsonEsc v))) <$> find_str (quoted k ++ [c]) (d :: r).
Proof.
  intros Hk Hd Hs. assert (Ep : quoted k ++ [c] = DQUOTE :: (k ++ [DQUOTE; c])).
  { unfold quoted. cbn [app]. by rewrite <- app_assoc. }
  rewrite Ep. induction v as [|x v IH].
  - cbn [jsonEsc fmap list_fmap concat app length]. rewrite find_quote_skip; [done | by apply sep_no_key].
  - rewrite jsonEsc_cons, <- app_assoc, length_app.
    destruct (esc_char_cases x) as [E | [[e E] | (E & Hx & Hb)]]; rewrite E; cbn [app length].
    + apply IH.
    + rewrite find_byte_skip by done. destruct (decide (e = DQUOTE)) as [-> | He].
      * rewrite find_quote_skip, IH, !fmap_add by (by apply esc_no_key). done.
      * rewrite find_byte_skip, IH, !fmap_add by done. done.
    + rewrite find_byte_skip, IH, !fmap_add by done. done.
Qed.

(** Past a whole field under another key. *)
Lemma find_field_skip k f d r :
  ident k -> ident f.1 -> value_ok f.2 -> k <> f.1 -> sep d ->
  find_str (quoted k ++ [":"%char]) (field_text f ++ d :: r) =
    Nat.add (length (field_text f)) <$> find_str (quoted k ++ [":"%char]) (d :: r).
Proof.
  intros Hk Hf Hv Hne Hd. destruct f as [k2 v]. cbn [fst snd] in *. unfold field_text. cbn [fst snd].
  assert (Ep : quoted k ++ [":"%char] = DQUOTE :: (k ++ [DQUOTE; ":"%char])).
  { unfold quoted. cbn [app]. by rewrite <- app_assoc. }
  assert (Eq : forall s, quoted k2 ++ s = DQUOTE :: k2 ++ DQUOTE :: s).
  { intros s. unfold quoted. cbn [app]. by rewrite <- app_assoc. }
  rewrite <- app_assoc, Eq. cbn [app]. rewrite Ep, find_quote_skip by (by apply ident_no_key).
  rewrite find_str_skip by (by apply ident_no_quote).
  rewrite find_quote_skip by (by apply colon_no_key). rewrite find_byte_skip by done.
  assert (Hval : find_str (DQUOTE :: k ++ [DQUOTE; ":"%char]) (value_text v ++ d :: r) =
    Nat.add (length (value_text v)) <$> find_str (DQUOTE :: k ++ [DQUOTE; ":"%char]) (d :: r)).
  { destruct v as [v | w]; cbn [value_text].
    - unfold quoted. cbn [app length]. rewrite <- app_assoc. cbn [app].
      assert (Hcd : ":"%char <> d) by (by destruct Hd as [-> | ->]).
      rewrite find_quote_skip by (by apply esc_no_key).
      pose proof (find_esc_skip k v _ d r Hk Hcd Hd) as E. rewrite Ep in E. rewrite E, fmap_add, length_app. do 2 f_equal. cbn. lia.
    - by apply find_str_skip. }
  rewrite Hval, !fmap_add. f_equal. rewrite !length_app. cbn [length]. unfold quoted. cbn [length]. rewrite length_app. cbn [length].
  f_equal. lia.
Qed.

(** The text splits around each field. *)
Lemma fields_text_cons f fs tail :
  exists d r, sep d /\ fields_text (f :: fs) tail = field_text f ++ d :: r /\
    match fs with [] => d = "}"%char /\ r = tail | _ => d = ","%char /\ r = fields_text fs tail end.
Proof.
  destruct fs as [| f2 fs]; cbn [fields_text].
  - exists "}"%char, tail. split; [by right | done].
  - exists ","%char, (fields_text (f2 :: fs) tail). split; [by left | done].
Qed.

(** What follows the key of a present field. *)
Lemma find_field fs k v tail :
  Forall (fun f => ident f.1 /\ value_ok f.2) fs -> NoDup fs.*1 -> (k, v) ∈ fs ->
  exists pos d r, sep d /\
    find_str (quoted k ++ [":"%char]) (fields_text fs tail) = Some pos /\
    drop (pos + length (quoted k ++ [":"%char])) (fields_text fs tail) = value_text v ++ d :: r.
Proof.
  intros Hok. induction Hok as [| f fs [Hf Hv] Hok IH]; intros Hnd Hin; [by apply not_elem_of_nil in Hin |].
  destruct (fields_text_cons f fs tail) as (d & r & Hd & Et & Er). rewrite Et. cbn [fmap list_fmap] in Hnd.
  apply NoDup_cons in Hnd as [Hn Hnd]. apply elem_of_cons in Hin as [<- | Hin].
  - exists 0%nat, d, r. split; [done |]. cbn [fst snd] in *. unfold field_text. cbn [fst snd].
    assert (Eq : quoted k ++ ":"%char :: value_text v = (quoted k ++ [":"%char]) ++ value_text v) by (by rewrite <- app_assoc).
    rewrite Eq, <- app_assoc, find_str_here. split; [done |]. by apply drop_app_length.
  - assert (Hk : ident k /\ k <> f.1).
    { rewrite Forall_forall in Hok. split; [apply (Hok _ Hin) |]. intros ->. apply Hn.
      apply list_elem_of_fmap. by exists (f.1, v). }
    destruct Hk as [Hk Hne]. destruct fs as [| f2 fs]; [by apply not_elem_of_nil in Hin |].
    destruct Er as [-> ->]. destruct (IH Hnd Hin) as (pos & d' & r' & Hd' & Ef & Edr).
    exists (length (field_text f) + S pos)%nat, d', r'. split; [done |]. split.
    + rewrite find_field_skip by done. unfold quoted. cbn [app]. rewrite find_byte_skip by done.
      change (DQUOTE :: (k ++ [DQUOTE]) ++ [":"%char]) with (quoted k ++ [":"%char]). by rewrite Ef.
    + rewrite <- Nat.add_assoc. rewrite drop_app_add. exact Edr.
Qed.

Lemma object_find fs k v tail :
  object_ok fs -> (k, v) ∈ fs ->
  exists pos d r, sep d /\
    find_str (quoted k ++ [":"%char]) (object_text fs tail) = Some pos /\
    drop (pos + length (quoted k ++ [":"%char])) (object_text fs tail) = value_text v ++ d :: r.
Proof.
  intros [Hnd Hok] Hin. destruct (find_field fs k v tail Hok Hnd Hin) as (pos & d & r & Hd & Ef & Edr).
  exists (S pos), d, r. split; [done |]. split; [| exact Edr].
  unfold object_text, quoted. cbn [app]. rewrite find_byte_skip by done.
  change (DQUOTE :: (k ++ [DQUOTE]) ++ [":"%char]) with (quoted k ++ [":"%char]). by rewrite Ef.
Qed.

(** ** Lemmas: values *)

(** A reader that drops the backslash recovers text without control bytes. *)
Lemma str_body_esc v r : Forall (fun c => plain_char c = true) v -> str_body (jsonEsc v ++ DQUOTE :: r) = Some v.
Proof.
  intros Hv. induction Hv as [| c v Hc _ IH]; [done |]. rewrite jsonEsc_cons, <- app_assoc.
  assert (E : forallb (fun c => implb (plain_char c) (bool_decide (
      esc_char c = if char_in [DQUOTE; BSLASH] c then [BSLASH; c] else [c]))) all_bytes = true)
    by (vm_compute; reflexivity).
  pose proof (byte_forall _ E c) as H. cbv beta in H. rewrite Hc in H. cbn [implb] in H. bool_to_prop. rewrite H.
  destruct (char_in [DQUOTE; BSLASH] c) eqn:Es; cbn [app str_body].
  - by rewrite decide_True, IH by done.
  - unfold char_in in Es. bool_to_prop. rewrite !not_elem_of_cons in Es. destruct Es as (Hd & Hb & _).
    by rewrite !decide_False, IH by done.
Qed.

(** A reader that knows the letter escapes recovers every kept byte. *)
Lemma esc_body_esc v r : Forall (fun c => kept_char c = true) v -> esc_body (jsonEsc v ++ DQUOTE :: r) = Some v.
Proof.
  intros Hv. induction Hv as [| c v Hc _ IH]; [done |]. rewrite jsonEsc_cons, <- app_assoc.
  assert (E : forallb (fun c => implb (kept_char c) (match esc_char c with
      | [b; e] => bool_decide (b = BSLASH) && bool_decide (unesc e = c)
      | [b] => bool_decide (b = c) && negb (char_in [DQUOTE; BSLASH] c) | _ => false end)) all_bytes = true)
    by (vm_compute; reflexivity).
  pose proof (byte_forall _ E c) as H. cbv beta in H. rewrite Hc in H. cbn [implb] in H.
  destruct (esc_char c) as [| b [| e [| ? ?]]]; try done; bool_to_prop; subst; cbn [app esc_body].
  - unfold char_in in *. bool_to_prop. rewrite !not_elem_of_cons in *. by rewrite !decide_False, IH by tauto.
  - rewrite decide_False by done. by rewrite decide_True, IH by done.
Qed.

Lemma find_str_extend p q s i :
  find_str p s = Some i -> starts_with (p ++ q) (drop i s) = true -> find_str (p ++ q) s = Some i.
Proof.
  revert i. induction s as [| c s IH]; intros i H Hq; rewrite find_str_eq in H |- *.
  - destruct (starts_with p []) eqn:E; [| done]. injection H as <-. cbn [drop] in Hq. by rewrite Hq.
  - destruct (starts_with p (c :: s)) eqn:E.
    + injection H as <-. cbn [drop] in Hq. by rewrite Hq.
    + destruct (find_str p s) as [j |] eqn:Ej; [| done]. injection H as <-.
      destruct (starts_with (p ++ q) (c :: s)) eqn:Epq; [| by rewrite (IH j)].
      apply starts_with_spec in Epq as [r Er]. rewrite <- app_assoc in Er. rewrite Er, starts_with_app in E. done.
Qed.

Lemma find_str_drop p s i : find_str p s = Some i -> drop i s = p ++ drop (i + length p) s.
Proof.
  revert i. induction s as [| c s IH]; intros i H; rewrite find_str_eq in H.
  - destruct (starts_with p []) eqn:E; [| done]. injection H as <-. apply starts_with_spec in E as [r Er].
    by destruct p.
  - destruct (starts_with p (c :: s)) eqn:E.
    + injection H as <-. apply starts_with_spec in E as [r Er]. rewrite Er. cbn [Nat.add drop]. by rewrite drop_app_length.
    + destruct (find_str p s) as [j |] eqn:Ej; [| done]. injection H as <-. by apply IH.
Qed.

(** ** Reading a written object *)

(** The updater's reader recovers a string field. *)
Lemma jsonStr_field fs k v tail :
  object_ok fs -> (k, JStr v) ∈ fs -> Forall (fun c => plain_char c = true) v ->
  jsonStr (object_text fs tail) k = v.
Proof.
  intros Hok Hin Hv. destruct (object_find fs k _ tail Hok Hin) as (pos & d & r & Hd & Ef & Edr).
  unfold jsonStr. cbn [value_text] in Edr.
  assert (Eq : quoted (jsonEsc v) ++ d :: r = DQUOTE :: jsonEsc v ++ DQUOTE :: d :: r).
  { unfold quoted. cbn [app]. by rewrite <- app_assoc. }
  rewrite Eq in Edr. assert (Ep : quoted k ++ [":"%char; DQUOTE] = (quoted k ++ [":"%char]) ++ [DQUOTE]) by (by rewrite <- app_assoc).
  rewrite Ep, (find_str_extend _ _ _ pos Ef).
  - rewrite length_app. unfold substr_from. rewrite Nat.add_assoc, <- drop_drop, Edr. cbn [length].
    change (drop 1 (DQUOTE :: ?x)) with x. by rewrite str_body_esc.
  - rewrite (find_str_drop _ _ _ Ef), Edr, <- app_assoc.
    apply starts_with_spec. exists (jsonEsc v ++ DQUOTE :: d :: r). by rewrite <- !app_assoc.
Qed.

Lemma raw_field fs k w tail :
  object_ok fs -> (k, JRaw w) ∈ fs ->
  exists d r, sep d /\ raw_value (object_text fs tail) k = Some (trim_front json_pad (w ++ d :: r)).
Proof.
  intros Hok Hin. destruct (object_find fs k _ tail Hok Hin) as (pos & d & r & Hd & Ef & Edr).
  exists d, r. split; [done |]. unfold raw_value. rewrite Ef. cbn [fmap option_fmap option_map]. unfold substr_from. by rewrite Edr.
Qed.

Lemma jsonBool_field fs k (b def : bool) tail :
  object_ok fs -> (k, JRaw (if b then "true" else "false")) ∈ fs -> jsonBool (object_text fs tail) k def = b.
Proof.
  intros Hok Hin. destruct (raw_field fs k _ tail Hok Hin) as (d & r & _ & E). unfold jsonBool. rewrite E. by destruct b.
Qed.

Lemma jsonInt_field fs k z def tail :
  object_ok fs -> (k, JRaw (to_string z)) ∈ fs -> 0 <= z < 2 ^ 63 -> jsonInt (object_text fs tail) k def = z.
Proof.
  intros Hok Hin Hz. destruct (raw_field fs k _ tail Hok Hin) as (d & r & Hd & E). unfold jsonInt. rewrite E.
  assert (Ht : trim_front json_pad (to_string z ++ d :: r) = to_string z ++ d :: r).
  { apply trim_front_id. pose proof (to_string_digits z) as Hds. pose proof (to_string_nonempty z) as Hne.
    destruct (to_string z) as [| c s]; [done |]. inversion Hds as [| ? ? Hc]; subst. cbn.
    destruct (digit_not_special c Hc) as (_ & _ & _ & Hsp & _ & _ & Htab).
    unfold json_pad, char_in. apply bool_decide_eq_false. rewrite !not_elem_of_cons. split; [done |]. split; [done | apply not_elem_of_nil]. }
  rewrite Ht. unfold strtoll.
  rewrite strto_scan_digits by (auto using to_string_digits, to_string_nonempty; by destruct Hd as [-> | ->]).
  cbn [default]. rewrite to_string_val by lia.
  destruct (Z.ltb_spec (2 ^ 63 - 1) z); [lia |]. destruct (Z.ltb_spec z (- 2 ^ 63)); [lia | done].
Qed.

(** Of the fields of an object, none is found under a key it does not have. *)
Lemma raw_absent fs k tail :
  object_ok fs -> ident k -> k ∉ fs.*1 -> DQUOTE ∉ tail -> raw_value (object_text fs tail) k = None.
Proof.
  intros [_ Hok] Hk Hn Ht.
  assert (E : find_str (quoted k ++ [":"%char]) (fields_text fs tail) = None).
  { unfold quoted. cbn [app]. induction Hok as [| f fs [Hf Hv] Hok IH].
    - cbn [fields_text]. rewrite find_byte_skip by done. by rewrite <- (app_nil_r tail), find_str_skip by done.
    - cbn [fmap list_fmap] in Hn. apply not_elem_of_cons in Hn as [Hkf Hn].
      destruct (fields_text_cons f fs tail) as (d & r & Hd & -> & Er).
      pose proof (find_field_skip k f d r Hk Hf Hv Hkf Hd) as E. unfold quoted in E. cbn [app] in E. rewrite E.
      destruct fs as [| f2 fs]; destruct Er as [-> ->]; rewrite find_byte_skip by done.
      + by rewrite <- (app_nil_r tail), find_str_skip by done.
      + by rewrite IH. }
  unfold raw_value, object_text, quoted. cbn [app]. rewrite find_byte_skip by done.
  unfold quoted in E. cbn [app] in E. by rewrite E.
Qed.

(** A false match inside a value is the whole value. *)
Lemma esc_match k v d r :
  ident k -> starts_with (k ++ [DQUOTE]) (jsonEsc v ++ DQUOTE :: d :: r) = true -> jsonEsc v = k.
Proof.
  revert k. induction v as [| x v IH]; intros k Hk.
  - destruct Hk as [| y k Hy Hk]; [done |]. cbn [jsonEsc fmap list_fmap concat app].
    rewrite starts_with_ne; [done | apply (ident_char y Hy)].
  - rewrite jsonEsc_cons, <- app_assoc. destruct (esc_char_cases x) as [-> | [[e ->] | (-> & Hx & Hb)]]; cbn [app].
    + by apply IH.
    + destruct Hk as [| y k Hy Hk]; cbn [app]; rewrite starts_with_ne; try done. apply (ident_char y Hy).
    + destruct Hk as [| y k Hy Hk]; cbn [app]; [by rewrite starts_with_ne |].
      rewrite starts_with_cons, andb_true_iff, bool_decide_eq_true. intros [-> H]. f_equal. by apply IH.
Qed.

(** ** Readers that scan for a key *)

Section ScanProps.
Context (value : str -> option str) (skip : str -> str).
Hypothesis value_sep : forall d r, sep d -> value (d :: r) = None.
Hypothesis skip_sep : forall d r, sep d -> skip (d :: r) = d :: r.

#[local] Abbreviation scan := (scan_loop value skip).

Lemma get_skip_gen n p c s :
  starts_with (DQUOTE :: p) (c :: s) = false ->
  scan n (DQUOTE :: p) (c :: s) = scan n (DQUOTE :: p) s.
Proof.
  intros H. destruct n as [| n]; [done |]. cbn [scan_loop]. rewrite find_str_eq, H.
  destruct (find_str (DQUOTE :: p) s); done.
Qed.

Lemma get_skip_byte n p c s : c <> DQUOTE -> scan n (DQUOTE :: p) (c :: s) = scan n (DQUOTE :: p) s.
Proof. intros H. by apply get_skip_gen, starts_with_ne. Qed.

Lemma get_skip_bytes n p l s : DQUOTE ∉ l -> scan n (DQUOTE :: p) (l ++ s) = scan n (DQUOTE :: p) s.
Proof.
  induction l as [| c l IH]; intros Hl; [done |]. apply not_elem_of_cons in Hl as [Hc Hl].
  cbn [app]. rewrite get_skip_byte by done. by apply IH.
Qed.

(** From an opening quote past the value, at the cost of at most one round. *)
Lemma get_quote_skip n k v d r :
  ident k -> sep d ->
  (forall m, exists m', (m <= S m')%nat /\
     scan m (quoted k) (jsonEsc v ++ DQUOTE :: d :: r) = scan m' (quoted k) (d :: r)) ->
  exists n', (n <= S n')%nat /\
    scan n (quoted k) (DQUOTE :: jsonEsc v ++ DQUOTE :: d :: r) = scan n' (quoted k) (d :: r).
Proof.
  intros Hk Hd IH. destruct (starts_with (k ++ [DQUOTE]) (jsonEsc v ++ DQUOTE :: d :: r)) eqn:E.
  - apply esc_match in E; [| done]. rewrite E. destruct n as [| n]; [exists 0%nat; split; [lia | done] |].
    exists n. split; [lia |]. cbn [scan_loop].
    assert (Eq : DQUOTE :: k ++ DQUOTE :: d :: r = quoted k ++ d :: r) by (unfold quoted; cbn [app]; by rewrite <- app_assoc).
    rewrite Eq, find_str_here. unfold substr_from. cbn [Nat.add]. rewrite drop_app_length.
    by rewrite value_sep, skip_sep.
  - unfold quoted at 1. rewrite get_skip_gen.
    + destruct (IH n) as (n' & Hn & E'). eauto.
    + rewrite starts_with_cons, E. apply andb_false_r.
Qed.

Lemma get_esc_skip n k v d r :
  ident k -> sep d ->
  exists n', (n <= S n')%nat /\
    scan n (quoted k) (jsonEsc v ++ DQUOTE :: d :: r) = scan n' (quoted k) (d :: r).
Proof.
  intros Hk Hd. revert n. induction v as [| x v IH]; intros n.
  - exists n. split; [lia |]. cbn [jsonEsc fmap list_fmap concat app]. unfold quoted. apply get_skip_gen.
    rewrite starts_with_cons. by rewrite sep_no_key, andb_false_r.
  - rewrite jsonEsc_cons, <- app_assoc. destruct (esc_char_cases x) as [-> | [[e ->] | (-> & Hx & Hb)]]; cbn [app].
    + apply IH.
    + unfold quoted. rewrite get_skip_byte by done. destruct (decide (e = DQUOTE)) as [-> | He].
      * by apply get_quote_skip.
      * rewrite get_skip_byte by done. apply IH.
    + unfold quoted. rewrite get_skip_byte by done. apply IH.
Qed.

Lemma get_field_skip n k f d r :
  ident k -> ident f.1 -> value_ok f.2 -> k <> f.1 -> sep d ->
  exists n', (n <= S n')%nat /\
    scan n (quoted k) (field_text f ++ d :: r) = scan n' (quoted k) (d :: r).
Proof.
  intros Hk Hf Hv Hne Hd. destruct f as [k2 v]. cbn [fst snd] in *. unfold field_text. cbn [fst snd].
  assert (Eq : (quoted k2 ++ ":"%char :: value_text v) ++ d :: r = DQUOTE :: k2 ++ DQUOTE :: ":"%char :: value_text v ++ d :: r).
  { unfold quoted. cbn [app]. by rewrite <- !app_assoc. }
  rewrite Eq. unfold quoted at 1 2. rewrite get_skip_gen by (by rewrite starts_with_cons, ident_no_key, andb_false_r).
  rewrite get_skip_bytes by (by apply ident_no_quote).
  rewrite get_skip_gen by (by rewrite starts_with_cons, colon_no_key, andb_false_r).
  rewrite get_skip_byte by done. destruct v as [v | w]; cbn [value_text].
  - unfold quoted. cbn [app]. rewrite <- app_assoc. cbn [app].
    change (DQUOTE :: k ++ [DQUOTE]) with (quoted k). apply get_quote_skip; [done | done |].
    intros m. by apply get_esc_skip.
  - exists n. split; [lia |]. by apply get_skip_bytes.
Qed.

Lemma get_fields n fs k v tail :
  Forall (fun f => ident f.1 /\ value_ok f.2) fs -> NoDup fs.*1 -> (k, JStr v) ∈ fs ->
  (forall d r, value (":"%char :: DQUOTE :: jsonEsc v ++ DQUOTE :: d :: r) = Some v) -> (length fs < n)%nat ->
  scan n (quoted k) (fields_text fs tail) = v.
Proof.
  intros Hok Hnd Hin Hv. revert n. induction Hok as [| f fs [Hf Hfv] Hok IH]; intros n Hn; [by apply not_elem_of_nil in Hin |].
  destruct (fields_text_cons f fs tail) as (d & r & Hd & -> & Er). cbn [fmap list_fmap] in Hnd.
  apply NoDup_cons in Hnd as [Hnf Hnd]. cbn [length] in Hn. apply elem_of_cons in Hin as [<- | Hin].
  - destruct n as [| n]; [lia |]. cbn [scan_loop].
    assert (Eq : field_text (k, JStr v) ++ d :: r = quoted k ++ ":"%char :: DQUOTE :: jsonEsc v ++ DQUOTE :: d :: r).
    { unfold field_text. cbn [fst snd value_text]. unfold quoted at 2. cbn [app]. rewrite <- !app_assoc. cbn [app]. by rewrite <- app_assoc. }
    rewrite Eq, find_str_here. unfold substr_from. cbn [Nat.add]. rewrite drop_app_length. by rewrite Hv.
  - assert (Hk : ident k /\ k <> f.1).
    { rewrite Forall_forall in Hok. split; [apply (Hok _ Hin) |]. intros ->. apply Hnf.
      apply list_elem_of_fmap. by exists (f.1, JStr v). }
    destruct Hk as [Hk Hne]. destruct (get_field_skip n k f d r Hk Hf Hfv Hne Hd) as (n' & Hn' & ->).
    destruct fs as [| f2 fs]; [by apply not_elem_of_nil in Hin |]. destruct Er as [-> ->].
    unfold quoted. rewrite get_skip_byte by done. apply IH; [done | done | cbn [length] in *; lia].
Qed.

Lemma fields_text_length fs tail : (length fs < length (fields_text fs tail))%nat.
Proof.
  induction fs as [| f fs IH]; [cbn; lia |]. destruct (fields_text_cons f fs tail) as (d & r & _ & -> & Er).
  unfold field_text, quoted. rewrite !length_app. cbn [length app]. rewrite length_app.
  destruct fs; destruct Er as [-> ->]; cbn [length] in *; lia.
Qed.

Lemma scan_object fs k v tail :
  object_ok fs -> (k, JStr v) ∈ fs ->
  (forall d r, value (":"%char :: DQUOTE :: jsonEsc v ++ DQUOTE :: d :: r) = Some v) ->
  scan (length (object_text fs tail)) (quoted k) (object_text fs tail) = v.
Proof.
  intros [Hnd Hok] Hin Hv. unfold object_text, quoted. rewrite get_skip_byte by done. apply get_fields; try done.
  cbn [length]. pose proof (fields_text_length fs tail). lia.
Qed.
End ScanProps.

Lemma field_value_esc v d r :
  Forall (fun c => kept_char c = true) v -> field_value (":"%char :: DQUOTE :: jsonEsc v ++ DQUOTE :: d :: r) = Some v.
Proof.
  intros Hv. unfold field_value. rewrite trim_front_id by done. rewrite decide_True by done. rewrite trim_front_id by done.
  by rewrite decide_True, esc_body_esc by done.
Qed.

Lemma jsonGetString_field fs k v tail :
  object_ok fs -> (k, JStr v) ∈ fs -> Forall (fun c => kept_char c = true) v -> jsonGetString (object_text fs tail) k = v.
Proof.
  intros Hok Hin Hv. apply scan_object; try done.
  - intros d r [-> | ->]; done.
  - intros d r [-> | ->]; done.
  - intros d r. by apply field_value_esc.
Qed.

(** ** Properties *)

(** The dashboard's escaping is sound against both readers of the program.
    In an object with distinct identifier keys, every string value, whatever
    quotes, backslashes or look-alike fields it contains, is returned under
    its own key: by the dashboard's reader for every text of bytes that the
    writer keeps, by the updater's reader for text without control bytes; and
    bare numbers and booleans are read back by the updater. *)
Lemma json_fields_isolated fs k v tail :
  object_ok fs -> (k, v) ∈ fs ->
  match v with
  | JStr s =>
      (Forall (fun c => kept_char c = true) s -> jsonGetString (object_text fs tail) k = s) /\
      (Forall (fun c => plain_char c = true) s -> jsonStr (object_text fs tail) k = s)
  | JRaw w =>
      (forall b def, w = (if b : bool then "true" else "false" : str) -> jsonBool (object_text fs tail) k def = b) /\
      (forall z def, 0 <= z < 2 ^ 63 -> w = to_string z -> jsonInt (object_text fs tail) k def = z)
  end.
Proof.
  intros Hok Hin. destruct v as [s | w].
  - split; intros Hs; [by apply jsonGetString_field | by apply jsonStr_field].
  - split; [intros b def -> | intros z def Hz ->]; [by apply jsonBool_field | by apply jsonInt_field].
Qed.

Definition sample_fields : list (str * jvalue) :=
  [("a" : str, JStr (DQUOTE :: ("b" : str) ++ DQUOTE :: (":" : str) ++ [DQUOTE; "x"%char])); ("b" : str, JStr "y"); ("n" : str, JRaw "12")].

Lemma json_fields_isolated_witness :
  jsonStr (object_text sample_fields [LF]) "b" = "y" /\ jsonGetString (object_text sample_fields [LF]) "b" = "y".
Proof.
  assert (Hok : object_ok sample_fields).
  { split; [by apply (bool_decide_unpack _); vm_compute | repeat constructor; try done; by apply (bool_decide_unpack _); vm_compute]. }
  destruct (json_fields_isolated sample_fields "b" (JStr "y") [LF] Hok) as [H1 H2].
  - apply list_elem_of_In. right. by left.
  - split; [apply H2 | apply H1]; by repeat constructor.
Defined.

(** The updater's reader drops the backslash of a letter escape. *)
Lemma jsonStr_newline : jsonStr (object_text [("k" : str, JStr [LF])] []) "k" = ["n"%char].
Proof. vm_compute. reflexivity. Qed.
