(* ===== verification/TlsConnect.v ===== *)
(** Connections of the client: the TCP connects of [client_linux.cpp],
    [client_windows.cpp] and [updater.cpp], the TLS context and the check of
    the server's certificate of [client_core.cpp], and
    [TcpTlsTransport::connect]. OpenSSL and the resolver are parameters; what
    the code opens and frees is kept in a ledger. The theorem says which server
    a session can be with, and that a failed attempt leaves nothing behind. *)

From S2P Require Import Prelude CppString Wire HttpUtil.
From stdpp Require Import gmap list.
Local Open Scope Z_scope.

(** ** What is open *)

(** Open sockets, each with its time limit in seconds, and live TLS objects. *)
Record Os := mkOs { sockets : gmap Z (option Z); ssls : nat; ctxs : nat }.

Definition os_open (fd : Z) (limit : option Z) (o : Os) : Os := mkOs (<[fd := limit]> (sockets o)) (ssls o) (ctxs o).
Definition os_close (fd : Z) (o : Os) : Os := mkOs (delete fd (sockets o)) (ssls o) (ctxs o).
Definition ssl_new (o : Os) : Os := mkOs (sockets o) (S (ssls o)) (ctxs o).
Definition ssl_free (o : Os) : Os := mkOs (sockets o) (pred (ssls o)) (ctxs o).
Definition ctx_new (o : Os) : Os := mkOs (sockets o) (ssls o) (S (ctxs o)).
Definition ctx_free (o : Os) : Os := mkOs (sockets o) (ssls o) (pred (ctxs o)).

(** ** TCP *)

(** An address of the resolver: the descriptor [socket] gives for its family,
    or none, and whether [connect] succeeds. *)
Record Addr := mkAddr { a_socket : option Z; a_connects : bool }.

(** What [getaddrinfo] and the error texts give. *)
Record Net := mkNet { n_gai : Z * list Addr; n_gaiText : Z -> str; n_errText : str }.

(* client_linux.cpp:107-131 connectToServer, loop *)
Fixpoint try_addresses (limit : option Z) (l : list Addr) (o : Os) : option Z * Os :=
  match l with
  | [] => (None, o)
  | a :: l =>
      match a_socket a with
      | None => try_addresses limit l o
      | Some fd =>
          let o := os_open fd limit o in
          if a_connects a then (Some fd, o) else try_addresses limit l (os_close fd o)
      end
  end.

(** The two platforms differ in the source of the texts. *)
(* client_linux.cpp:87-139 connectToServer *)
Definition connectToServer (host : str) (port : Z) (n : Net) (o : Os) : (str + Z) * Os :=
  let '(gaiErr, res) := n_gai n in
  if negb (gaiErr =? 0) || bool_decide (res = []) then
    (inl ("cannot resolve '" ++ host ++ "': " ++ n_gaiText n gaiErr), o)
  else
    match try_addresses (Some 30) res o with
    | (Some fd, o) => (inr fd, o)
    | (None, o) => (inl ("connect to " ++ host ++ ":" ++ to_string port ++ " failed: " ++ n_errText n), o)
    end.

(** The same on Windows, where the limit is given in milliseconds. *)
(* client_windows.cpp:84-136 connectToServer *)
Definition connectToServer_windows (host : str) (port : Z) (n : Net) (o : Os) : (str + Z) * Os :=
  let '(gaiErr, res) := n_gai n in
  if negb (gaiErr =? 0) || bool_decide (res = []) then
    (inl ("cannot resolve '" ++ host ++ "': " ++ n_gaiText n gaiErr), o)
  else
    match try_addresses (Some (Z.quot 30000 1000)) res o with
    | (Some fd, o) => (inr fd, o)
    | (None, o) => (inl ("connect to " ++ host ++ ":" ++ to_string port ++ " failed (WSA " ++ n_errText n ++ ")"), o)
    end.

(** The updater sets no time limits. *)
(* updater.cpp:190-209 connectTcp *)
Definition connectTcp (n : Net) (o : Os) : option Z * Os :=
  let '(gaiErr, res) := n_gai n in
  if negb (gaiErr =? 0) then (None, o) else try_addresses None res o.

(** ** TLS *)

(** Where a context takes its trust anchors from. *)
Inductive Trust := NoAnchors | CaFile (path : str) | SystemStore.

Record ClientCtx := mkCtx { verify_peer : bool; trust : Trust; alpn : str }.

(** OpenSSL: certificates and their checks, and the handshake with a context
    and a server name over a socket, which fails or gives the certificate of
    the other side, if it sent one. *)
Class OpenSsl := {
  Cert : Type;
  PEM_read_X509 : str -> option Cert;
  X509_digest : Cert -> option str;
  X509_check_ip_asc : Cert -> str -> bool;
  X509_check_host : Cert -> str -> bool;
  load_verify_locations : str -> bool;
  SSL_connect : ClientCtx -> option str -> Z -> option (option Cert)
}.

(** [SSL_VERIFY_PEER] on a client: the handshake ends when the chain of the
    certificate the server sends does not lead to a trust anchor. *)
Class OpenSslLaws (T : OpenSsl) (chains : Trust -> Cert -> Prop) := {
  handshake_verifies ctx sni fd c : verify_peer ctx = true -> SSL_connect ctx sni fd = Some (Some c) -> chains (trust ctx) c
}.

Section Tls.
Context `{IN : Inet} `{T : OpenSsl}.

(** An SSL object after its handshake. *)
Record Tls := mkTls { tls_fd : Z; tls_peer : option Cert }.

(** [made]: [SSL_CTX_new] succeeds. *)
(* client_core.cpp:92-133 createClientTLSContext *)
Definition createClientTLSContext (made : bool) (caPath : str) (o : Os) : option ClientCtx * Os :=
  if negb made then (None, o)
  else
    let o := ctx_new o in
    let useSystem := bool_decide (caPath = "system") in
    let useCaFile := negb (bool_decide (caPath = [])) && negb useSystem in
    let verify := useCaFile || useSystem in
    let protos := byte_of 8 :: kAlpnNtmWire in
    if useCaFile then
      if negb (load_verify_locations (c_str caPath)) then (None, ctx_free o)
      else (Some (mkCtx verify (CaFile (c_str caPath)) protos), o)
    else (Some (mkCtx verify (if useSystem then SystemStore else NoAnchors) protos), o).

(* client_core.cpp:135-143 loadPemCert *)
Definition loadPemCert (fs : gmap str str) (path : str) : option Cert :=
  if decide (path = []) then None
  else match fs !! c_str path with
       | None => None
       | Some text => PEM_read_X509 text
       end.

(* client_core.cpp:145-149 sha256Fingerprint *)
Definition sha256Fingerprint (cert : Cert) : option str :=
  match X509_digest cert with
  | Some d => if (length d =? 32)%nat then Some d else None
  | None => None
  end.

(* client_core.cpp:152-163 hexDump32 *)
Definition hexDump32 (b : str) : str :=
  concat ((fun c => let kHex := ("0123456789abcdef" : str) in
     [nth (Z.to_nat (Z.land (Z.shiftr (byte_val c) 4) 15)) kHex NUL; nth (Z.to_nat (Z.land (byte_val c) 15)) kHex NUL]) <$> take 32 b).

Definition is_ip_literal (host : str) : bool :=
  match inet_pton4 (c_str host), inet_pton6 (c_str host) with None, None => false | _, _ => true end.

(* client_core.cpp:165-277 verifyServerIdentityAndPin *)
Definition verifyServerIdentityAndPin (fs : gmap str str) (peer : option Cert) (host pinnedServerCertPath : str) : bool :=
  match peer with
  | None => false
  | Some peer =>
      let ok := if decide (host = []) then true
                else if is_ip_literal host then X509_check_ip_asc peer (c_str host)
                else X509_check_host peer (c_str host) in
      if ok && negb (bool_decide (pinnedServerCertPath = [])) then
        match loadPemCert fs pinnedServerCertPath with
        | None => false
        | Some pinned =>
            match sha256Fingerprint peer, sha256Fingerprint pinned with
            | Some a, Some b => bool_decide (a = b)
            | _, _ => false
            end
        end
      else ok
  end.

(* client_transport_tcptls.cpp:89-101 TcpTlsTransport::connect, SNI *)
Definition server_name (host : str) : option str := if is_ip_literal host then None else Some (c_str host).

(** ** The data connection *)

(** The transport: [fd_], [ssl_], its context and the path of the pinned
    certificate. *)
Record Transport := mkTransport { t_fd : option Z; t_ssl : option Tls; t_ctx : option ClientCtx; t_pin : str }.

Definition isConnected (t : Transport) : bool := bool_decide (is_Some (t_fd t)).

(** [made]: [SSL_new] succeeds. *)
(* client_transport_tcptls.cpp:51-172 TcpTlsTransport::connect *)
Definition connect (fs : gmap str str) (host : str) (port : Z) (n : Net) (made : bool) (t : Transport) (o : Os) : option str * Transport * Os :=
  if isConnected t then (None, t, o)
  else
    match connectToServer host port n o with
    | (inl e, o) => (Some e, t, o)
    | (inr fd, o) =>
        match t_ctx t with
        | None => (None, mkTransport (Some fd) None None (t_pin t), o)
        | Some ctx =>
            if negb made then (Some ("SSL_new failed" : str), t, os_close fd o)
            else
              let o := ssl_new o in
              match SSL_connect ctx (server_name host) fd with
              | None => (Some ("TLS handshake failed" : str), t, os_close fd (ssl_free o))
              | Some peer =>
                  if negb (verifyServerIdentityAndPin fs peer host (t_pin t)) then
                    (Some ("server identity verification failed" : str), t, os_close fd (ssl_free o))
                  else (None, mkTransport (Some fd) (Some (mkTls fd peer)) (Some ctx) (t_pin t), o)
              end
        end
    end.

(* client_transport_tcptls.cpp:174-178 TcpTlsTransport::close *)
Definition close (t : Transport) (o : Os) : Transport * Os :=
  let o := match t_ssl t with Some _ => ssl_free o | None => o end in
  let o := match t_fd t with Some fd => os_close fd o | None => o end in
  (mkTransport None None (t_ctx t) (t_pin t), o).

(** ** The updater's connection *)

(* updater.cpp:212-246 tlsConnect *)
Definition tlsConnect (fs : gmap str str) (fd : Z) (host caPath serverCertPath : str) (ctx_made ssl_made : bool) (o : Os) : option Tls * Os :=
  match createClientTLSContext ctx_made caPath o with
  | (None, o) => (None, o)
  | (Some ctx, o) =>
      if negb ssl_made then (None, ctx_free o)
      else
        let o := ctx_free (ssl_new o) in
        match SSL_connect ctx (server_name host) fd with
        | None => (None, ssl_free o)
        | Some peer =>
            if negb (verifyServerIdentityAndPin fs peer host serverCertPath) then (None, ssl_free o)
            else (Some (mkTls fd peer), o)
        end
  end.

(** The frame of a request: [body] runs on the session, its guards release the
    session and the socket on every way out. *)
(* updater.cpp:312-337 httpsGet, connection *)
Definition with_session {A : Type} (fs : gmap str str) (host caPath serverCertPath : str) (n : Net) (ctx_made ssl_made : bool)
    (body : Tls -> A) (o : Os) : option A * Os :=
  if negb (hasValidHostname host) then (None, o)
  else match connectTcp n o with
       | (None, o) => (None, o)
       | (Some fd, o) =>
           match tlsConnect fs fd host caPath serverCertPath ctx_made ssl_made o with
           | (None, o) => (None, os_close fd o)
           | (Some s, o) => (Some (body s), os_close fd (ssl_free o))
           end
       end.

(** ** What a session guarantees *)

(** The certificate names the host, leads to the anchors of [caPath] when one
    is configured, and is the pinned one, by its digest, when one is. *)
Definition authenticated (chains : Trust -> Cert -> Prop) (fs : gmap str str) (host caPath pin : str) (c : Cert) : Prop :=
  (host <> [] -> if is_ip_literal host then X509_check_ip_asc c (c_str host) = true else X509_check_host c (c_str host) = true) /\
  (caPath <> [] -> chains (if decide (caPath = "system") then SystemStore else CaFile (c_str caPath)) c) /\
  (pin <> [] -> exists p d, loadPemCert fs pin = Some p /\ sha256Fingerprint c = Some d /\ sha256Fingerprint p = Some d).

(** The kernel gives descriptors that are not open. *)
Definition unused (o : Os) (l : list Addr) : Prop :=
  Forall (fun a => forall fd, a_socket a = Some fd -> sockets o !! fd = None) l.

End Tls.

(** ** Proofs *)

Lemma os_reopen fd limit o : sockets o !! fd = None -> os_close fd (os_open fd limit o) = o.
Proof. intros H. destruct o as [m ? ?]. unfold os_close, os_open. cbn in *. by rewrite delete_insert_id. Qed.

(** The addresses are tried in order: the first that connects is taken, and
    the sockets of the others are closed again. *)
Lemma try_addresses_spec limit l o : unused o l ->
  match try_addresses limit l o with
  | (Some fd, o') => exists before a after, l = before ++ a :: after /\ a_socket a = Some fd /\ a_connects a = true /\
      Forall (fun b => a_socket b = None \/ a_connects b = false) before /\ o' = os_open fd limit o /\ sockets o !! fd = None
  | (None, o') => Forall (fun b => a_socket b = None \/ a_connects b = false) l /\ o' = o
  end.
Proof.
  induction l as [| a l IH]; intros Hu; [done |]. apply Forall_cons in Hu as [Ha Hu]. specialize (IH Hu). cbn.
  assert (Step : a_socket a = None \/ a_connects a = false ->
    match try_addresses limit l o with
    | (Some fd, o') => exists before b after, a :: l = before ++ b :: after /\ a_socket b = Some fd /\ a_connects b = true /\
        Forall (fun b => a_socket b = None \/ a_connects b = false) before /\ o' = os_open fd limit o /\ sockets o !! fd = None
    | (None, o') => Forall (fun b => a_socket b = None \/ a_connects b = false) (a :: l) /\ o' = o
    end).
  { intros Hskip. destruct (try_addresses limit l o) as [[fd |] o'].
    - destruct IH as (before & b & after & -> & H). exists (a :: before), b, after. naive_solver.
    - naive_solver. }
  destruct (a_socket a) as [fd |] eqn:E; [| by apply Step; left]. destruct (a_connects a) eqn:Ec.
  - exists [], a, l. naive_solver.
  - rewrite os_reopen by by apply Ha. apply Step. by right.
Qed.

Section TlsProofs.
Context `{IN : Inet} `{T : OpenSsl} (chains : Trust -> Cert -> Prop) `{!OpenSslLaws T chains}.

(** The check of the certificate is exactly [authenticated], the chain apart. *)
Lemma identity_check fs peer host pin :
  verifyServerIdentityAndPin fs peer host pin = true <->
  exists c, peer = Some c /\ authenticated (fun _ _ => True) fs host [] pin c.
Proof.
  unfold verifyServerIdentityAndPin, authenticated. destruct peer as [c |]; [| naive_solver].
  assert (Name : (if decide (host = []) then true else if is_ip_literal host then X509_check_ip_asc c (c_str host) else X509_check_host c (c_str host)) = true
    <-> (host <> [] -> if is_ip_literal host then X509_check_ip_asc c (c_str host) = true else X509_check_host c (c_str host) = true)).
  { destruct (decide (host = [])); [naive_solver |]. destruct (is_ip_literal host); naive_solver. }
  destruct (if decide (host = []) then _ else _) eqn:En.
  - cbn [andb]. destruct (decide (pin = [])) as [-> | Hp].
    + cbn. split; [| done]. intros _. exists c. naive_solver.
    + rewrite bool_decide_eq_false_2 by done. cbn [negb].
      destruct (loadPemCert fs pin) as [p |] eqn:Ep; [| split; [done | intros (? & ? & _ & _ & H); naive_solver]].
      destruct (sha256Fingerprint c) as [d |] eqn:Ec; [| split; [done | intros (? & [= <-] & _ & _ & H); destruct (H Hp) as (? & ? & ? & ? & ?); congruence]].
      destruct (sha256Fingerprint p) as [d' |] eqn:Ed; [| split; [done | intros (? & [= <-] & _ & _ & H); destruct (H Hp) as (? & ? & ? & ? & ?); congruence]].
      rewrite bool_decide_eq_true. split.
      * intros ->. exists c. split; [done |]. split; [by apply Name |]. split; [done |]. intros _. by exists p, d'.
      * intros (? & [= <-] & _ & _ & H). destruct (H Hp) as (? & ? & ? & ? & ?). congruence.
  - cbn [andb]. split; [done |]. intros (? & [= <-] & H & _). apply Name in H. congruence.
Qed.

(** A context verifies as soon as a certificate authority is configured. *)
Lemma context_verifies made caPath o ctx o' : createClientTLSContext made caPath o = (Some ctx, o') ->
  o' = ctx_new o /\ alpn ctx = alpn_encode [kAlpnNtmWire] /\
  (caPath <> [] -> verify_peer ctx = true /\ trust ctx = if decide (caPath = "system") then SystemStore else CaFile (c_str caPath)) /\
  (caPath = [] -> verify_peer ctx = false).
Proof.
  unfold createClientTLSContext. destruct made; [| done]. cbn [negb]. cbv zeta. rewrite !bool_decide_decide.
  destruct (decide (caPath = "system")) as [Hs | Hs]; destruct (decide (caPath = [])) as [He | He]; cbn [negb andb orb].
  - exfalso. clear -Hs He. by destruct caPath.
  - intros [= <- <-]. naive_solver.
  - intros [= <- <-]. naive_solver.
  - destruct (load_verify_locations _); [| done]. cbn [negb]. intros [= <- <-]. naive_solver.
Qed.

Lemma context_refused made caPath o o' : createClientTLSContext made caPath o = (None, o') -> o' = o.
Proof.
  unfold createClientTLSContext. destruct made; [| naive_solver]. cbn [negb]. case_bool_decide; case_bool_decide; cbn; try done.
  destruct (load_verify_locations _); [done |]. intros [= <-]. by destruct o.
Qed.

Lemma session_authenticated fs host caPath pin made o ctx o' sni fd peer : createClientTLSContext made caPath o = (Some ctx, o') ->
  SSL_connect ctx sni fd = Some peer -> verifyServerIdentityAndPin fs peer host pin = true ->
  exists c, peer = Some c /\ authenticated chains fs host caPath pin c.
Proof.
  intros (_ & _ & Hv & _)%context_verifies Hh (c & -> & Hn & _ & Hp)%identity_check. exists c. split; [done |]. split; [done |]. split; [| done].
  intros Hca. destruct (Hv Hca) as [Hv' Ht]. rewrite <- Ht. by eapply handshake_verifies.
Qed.

Lemma os_session fd limit o : sockets o !! fd = None -> os_close fd (ssl_free (ssl_new (os_open fd limit o))) = o.
Proof. intros H. rewrite <- (os_reopen fd limit o H) at 2. by destruct o. Qed.

(** The TCP stage: a socket of a resolved address with the 30 second limit, or
    a reason and nothing open. *)
Lemma tcp_stage host port n o : unused o (n_gai n).2 ->
  match connectToServer host port n o with
  | (inl e, o') => e <> [] /\ o' = o
  | (inr fd, o') => o' = os_open fd (Some 30) o /\ sockets o !! fd = None
  end.
Proof.
  intros Hu. unfold connectToServer. destruct (n_gai n) as [g res]. destruct (_ || _); [done |].
  pose proof (try_addresses_spec (Some 30) res o Hu) as H. destruct (try_addresses _ _ _) as [[fd |] o']; [| naive_solver].
  destruct H as (? & ? & ? & _ & _ & _ & _ & -> & ?). done.
Qed.

(** A genuine server is not refused. *)
Lemma genuine_server_accepted fs host port n pin ctx o before a after fd c :
  unused o (n_gai n).2 ->
  n_gai n = (0, before ++ a :: after) -> Forall (fun b => a_socket b = None \/ a_connects b = false) before ->
  a_socket a = Some fd -> a_connects a = true ->
  SSL_connect ctx (server_name host) fd = Some (Some c) -> authenticated (fun _ _ => True) fs host [] pin c ->
  connect fs host port n true (mkTransport None None (Some ctx) pin) o =
    (None, mkTransport (Some fd) (Some (mkTls fd (Some c))) (Some ctx) pin, ssl_new (os_open fd (Some 30) o)).
Proof.
  intros Hu Hg Hb Hs Hc Hh Ha. unfold connect. cbn.
  assert (try_addresses (Some 30) (before ++ a :: after) o = (Some fd, os_open fd (Some 30) o)) as E.
  { rewrite Hg in Hu. cbn in Hu. clear -Hu Hb Hs Hc. induction before as [| b before IH]; cbn; [by rewrite Hs, Hc |].
    apply Forall_cons in Hu as [Hx Hu]. apply Forall_cons in Hb as [Hy Hb]. destruct (a_socket b) as [f |]; [| by apply IH].
    destruct Hy as [? | ->]; [done |]. rewrite os_reopen by by apply Hx. by apply IH. }
  unfold connectToServer. rewrite Hg. cbn [Z.eqb negb orb]. rewrite bool_decide_eq_false_2 by by destruct before.
  rewrite E, Hh. cbn [negb]. by rewrite (proj2 (identity_check fs (Some c) host pin) (ex_intro _ c (conj eq_refl Ha))).
Qed.

(** C5: Which server a session can be with. When the client's transport connects
    over TLS, its certificate names the configured host (as an address when the
    host is one), leads to the configured authorities when there are any, and
    has the digest of the pinned certificate when there is one; the socket has
    its time limit, and closing the transport gives everything back. When the
    attempt fails, in whatever stage, there is a reason and the transport, the
    sockets and the TLS objects are as before. The updater's requests run on
    sessions with the same guarantee, and leave nothing open whatever happens. *)
Theorem server_authenticated fs host caPath pin :
  (forall port n made ssl_made o0 o1 ctx o,
    createClientTLSContext made caPath o0 = (Some ctx, o1) -> unused o (n_gai n).2 ->
    let t := mkTransport None None (Some ctx) pin in
    match connect fs host port n ssl_made t o with
    | (None, t', o') => exists fd c, t' = mkTransport (Some fd) (Some (mkTls fd (Some c))) (Some ctx) pin /\
        authenticated chains fs host caPath pin c /\ sockets o' = <[fd := Some 30]> (sockets o) /\ close t' o' = (t, o)
    | (Some e, t', o') => e <> [] /\ t' = t /\ o' = o
    end) /\
  (forall (A : Type) (body : Tls -> A) n made ssl_made o, unused o (n_gai n).2 ->
    let '(r, o') := with_session fs host caPath pin n made ssl_made body o in
    o' = o /\ forall a, r = Some a -> exists fd c, a = body (mkTls fd (Some c)) /\ authenticated chains fs host caPath pin c).
Proof.
  split.
  - intros port n made ssl_made o0 o1 ctx o Hctx Hu t. unfold connect. cbn.
    pose proof (tcp_stage host port n o Hu) as H. destruct (connectToServer host port n o) as [[e | fd] o']; [by destruct H |].
    destruct H as [-> Hfd]. destruct ssl_made; cbn [negb]; [| split; [done |]; by rewrite os_reopen].
    destruct (SSL_connect _ _ _) as [peer |] eqn:Eh; [| split; [done |]; by rewrite os_session].
    destruct (verifyServerIdentityAndPin _ _ _ _) eqn:Ev; cbn [negb]; [| split; [done |]; by rewrite os_session].
    destruct (session_authenticated _ _ _ _ _ _ _ _ _ _ _ Hctx Eh Ev) as (c & -> & Hc).
    exists fd, c. split_conj; [done | done | done |]. unfold close. cbn [t_ssl t_fd]. by rewrite os_session.
  - intros A body n made ssl_made o Hu. unfold with_session. destruct (hasValidHostname host); [| by split]. cbn [negb].
    unfold connectTcp. destruct (n_gai n) as [g res]. destruct (negb (g =? 0)); [by split |].
    pose proof (try_addresses_spec None res o Hu) as H. destruct (try_addresses _ _ _) as [[fd |] o']; [| by destruct H as [_ ->]; split].
    destruct H as (_ & _ & _ & _ & _ & _ & _ & -> & Hfd). unfold tlsConnect.
    destruct (createClientTLSContext made caPath _) as [[ctx |] o'] eqn:Ec; [| apply context_refused in Ec as ->; by rewrite os_reopen].
    destruct (context_verifies _ _ _ _ _ Ec) as [-> _]. pose proof (os_session fd None o Hfd) as Ho.
    destruct ssl_made; cbn [negb]; [| by split; [exact (os_reopen fd None o Hfd) |]].
    destruct (SSL_connect _ _ _) as [peer |] eqn:Eh; [| by split; [exact Ho |]].
    destruct (verifyServerIdentityAndPin _ _ _ _) eqn:Ev; cbn [negb]; [| by split; [exact Ho |]].
    destruct (session_authenticated _ _ _ _ _ _ _ _ _ _ _ Ec Eh Ev) as (c & -> & Hc).
    split; [exact Ho |]. intros a [= <-]. by exists fd, c.
Qed.

End TlsProofs.

(** The server of the program picks the client's protocol from its offer. *)
Lemma offer_selected `{OpenSsl} made caPath o ctx o' : createClientTLSContext made caPath o = (Some ctx, o') ->
  selectAlpnFromClientList (alpn ctx) = kAlpnNtmWire.
Proof. intros (_ & -> & _)%context_verifies. reflexivity. Qed.

(** The platforms differ in the texts alone. *)
Lemma platforms_connect_alike host port n o :
  (connectToServer_windows host port n o).2 = (connectToServer host port n o).2 /\
  forall fd, (connectToServer_windows host port n o).1 = inr fd <-> (connectToServer host port n o).1 = inr fd.
Proof.
  unfold connectToServer_windows, connectToServer. change (Z.quot 30000 1000) with 30. destruct (n_gai n) as [g res]. destruct (_ || _); [by split |].
  destruct (try_addresses _ _ _) as [[fd |] o']; [by split |]. cbn. by split.
Qed.

(** The updater's sockets have no time limit, so that a server that accepts
    and stays silent holds its thread, which the shutdown waits for. *)
Lemma updater_without_limit n o fd o' : unused o (n_gai n).2 -> connectTcp n o = (Some fd, o') -> sockets o' !! fd = Some None.
Proof.
  intros Hu. unfold connectTcp. destruct (n_gai n) as [g res]. destruct (negb _); [done |].
  pose proof (try_addresses_spec None res o Hu) as H. destruct (try_addresses _ _ _) as [[f |] o1]; [| done].
  destruct H as (_ & _ & _ & _ & _ & _ & _ & -> & _). intros [= <- <-]. cbn. by rewrite lookup_insert_eq.
Qed.

(** ** A sample *)

(** Certificates that are texts: the digest is their first 32 bytes, a name
    check compares them with the name. The server presents one and the same. *)
Definition sample_cert : str := "ntm.example.org, valid until 2030-01-01".

#[local] Instance sample_openssl : OpenSsl := {
  Cert := str;
  PEM_read_X509 text := Some text;
  X509_digest c := Some (take 32 c);
  X509_check_ip_asc c ip := starts_with ip c;
  X509_check_host c host := starts_with host c;
  load_verify_locations path := bool_decide (path = "ca.pem");
  SSL_connect ctx sni fd := if fd =? 7 then Some (Some sample_cert) else None
}.

Definition sample_chains (t : Trust) (c : str) : Prop := c = sample_cert.

#[local] Instance sample_openssl_laws : OpenSslLaws sample_openssl sample_chains.
Proof. constructor. intros ctx sni fd c _. cbn. destruct (fd =? 7); [| done]. by intros [= <-]. Qed.

(** Of three addresses, one has no socket, one refuses and the third answers. *)
#[local] Abbreviation sample_net :=
  (mkNet (0, [mkAddr None true; mkAddr (Some 6) false; mkAddr (Some 7) true]) (fun _ => []) []).
#[local] Abbreviation sample_files := (<["pin.pem" : str := sample_cert]> (∅ : gmap str str)).
#[local] Abbreviation sample_os := (mkOs {[5 := None]} 0 1).
#[local] Abbreviation sample_ctx := (mkCtx true (CaFile "ca.pem") (byte_of 8 :: kAlpnNtmWire)).

Lemma server_authenticated_witness :
  (connect (IN := sample_inet) sample_files "ntm.example.org" 5555 sample_net true (mkTransport None None (Some sample_ctx) "pin.pem") sample_os).1.1 = None /\
  (exists fd c, authenticated (IN := sample_inet) sample_chains sample_files "ntm.example.org" "ca.pem" "pin.pem" c /\
    (connect (IN := sample_inet) sample_files "ntm.example.org" 5555 sample_net true (mkTransport None None (Some sample_ctx) "pin.pem") sample_os).1.2
    = mkTransport (Some fd) (Some (mkTls fd (Some c))) (Some sample_ctx) "pin.pem").
Proof.
  pose proof (proj1 (server_authenticated (IN := sample_inet) sample_chains sample_files "ntm.example.org" "ca.pem" "pin.pem")
    5555 sample_net true true sample_os (ctx_new sample_os) sample_ctx sample_os eq_refl) as H.
  assert (Hu : unused sample_os (n_gai sample_net).2).
  { unfold unused. cbn. apply Forall_cons. split; [done |]. apply Forall_cons. split; [| apply Forall_singleton]; intros fd [= <-]; by vm_compute. }
  specialize (H Hu). cbv zeta in H.
  destruct (connect _ _ _ _ _ _ _) as [[[e |] t'] o'] eqn:E; [vm_compute in E; discriminate |].
  destruct H as (fd & c & -> & Hc & _). split; [done |]. by exists fd, c.
Defined.
