(* ===== verification/Json.v ===== *)
(** JSON as the dashboard writes it and as a strict reader takes it: documents
    with the white space of the program's writers, their text, and a parser
    for the part of RFC 8259 without fractions, exponents and [\u] escapes. The
    lemma [parse_render] says that the parser reads every document back, with
    the strings less the control characters that [jsonEsc] drops. *)

From S2P Require Import Prelude CppString HttpUtil.
Local Open Scope Z_scope.

(** Items behind their separators: a comma before all but the first. *)
Fixpoint items_text (first : bool) (items : list str) : str :=
  match items with
  | [] => []
  | i :: items => (if first then [] else [","%char]) ++ i ++ items_text false items
  end.

(** ** Values and documents *)

Inductive JVal := JNull | JBool (b : bool) | JNum (z : Z) | JText (s : str) | JArr (l : list JVal) | JObj (l : list (str * JVal)).

(** A value with its layout: white space before items and keys, after colons,
    and before closing brackets. *)
Inductive Doc :=
| DNull
| DBool (b : bool)
| DNum (z : Z)
| DStr (s : str)
| DArr (items : list (str * Doc)) (close : str)
| DObj (members : list (str * str * str * Doc)) (close : str).

Definition bool_text (b : bool) : str := if b then "true" else "false".

Fixpoint render (d : Doc) : str :=
  match d with
  | DNull => "null"
  | DBool b => bool_text b
  | DNum z => print_int z
  | DStr s => quoted (jsonEsc s)
  | DArr items close => "["%char :: items_text true (map (fun p => p.1 ++ render p.2) items) ++ close ++ "]"
  | DObj members close =>
      "{"%char :: items_text true (map (fun m => m.1.1.1 ++ quoted m.1.1.2 ++ ":"%char :: m.1.2 ++ render m.2) members) ++ close ++ "}"
  end.

(** The bytes of a string that reach the reader. *)
Definition kept (s : str) : str := filter (fun c => kept_char c = true) s.

Fixpoint value (d : Doc) : JVal :=
  match d with
  | DNull => JNull
  | DBool b => JBool b
  | DNum z => JNum z
  | DStr s => JText (kept s)
  | DArr items _ => JArr (map (fun p => value p.2) items)
  | DObj members _ => JObj (map (fun m => (m.1.1.2, value m.2)) members)
  end.

Definition ws (s : str) : Prop := Forall (fun c => json_ws c = true) s.

(** White space is white space and keys need no escape. *)
Fixpoint doc_ok (d : Doc) : Prop :=
  match d with
  | DArr items close => ws close /\ fold_right (fun p P => (ws p.1 /\ doc_ok p.2) /\ P) True items
  | DObj members close =>
      ws close /\ fold_right (fun m P => (ws m.1.1.1 /\ ident m.1.1.2 /\ ws m.1.2 /\ doc_ok m.2) /\ P) True members
  | _ => True
  end.

(** ** The reader *)

Definition unescape (e : ascii) : option ascii :=
  if char_in [DQUOTE; BSLASH; "/"%char] e then Some e
  else if decide (e = "n"%char) then Some LF
  else if decide (e = "r"%char) then Some CR
  else if decide (e = "t"%char) then Some TAB
  else None.

(** The rest of a string, and what follows its closing quote. Bytes are read as
    they are: that they form UTF-8, which RFC 8259, section 8.1, asks of texts
    between systems, is not checked, nor does the writer see to it. *)
Fixpoint read_string (s : str) : option (str * str) :=
  match s with
  | [] => None
  | c :: s' =>
      if decide (c = DQUOTE) then Some ([], s')
      else if decide (c = BSLASH) then
        match s' with
        | [] => None
        | e :: s'' => let? x := unescape e in let? (v, r) := read_string s'' in Some (x :: v, r)
        end
      else if byte_val c <? 0x20 then None
      else let? (v, r) := read_string s' in Some (c :: v, r)
  end.

(** A natural number without leading zeros. *)
Definition read_digits (s : str) : option (Z * str) :=
  let (ds, r) := span is_digit s in
  match ds with
  | [] => None
  | c :: ds' => if bool_decide (c = "0"%char) && negb (bool_decide (ds' = [])) then None else Some (dec_val 0 ds, r)
  end.

Definition read_number (s : str) : option (JVal * str) :=
  match s with
  | c :: s' =>
      if decide (c = "-"%char) then let? (n, r) := read_digits s' in Some (JNum (- n), r)
      else let? (n, r) := read_digits s in Some (JNum n, r)
  | [] => None
  end.

Definition read_word (w : str) (v : JVal) (s : str) : option (JVal * str) :=
  if starts_with w s then Some (v, drop (length w) s) else None.

(** [fuel]: twice the length of the text, see [parse_doc]. *)
Fixpoint read_value (fuel : nat) (s : str) : option (JVal * str) :=
  match fuel with
  | O => None
  | S fuel =>
      match trim_front json_ws s with
      | [] => None
      | c :: r =>
          if decide (c = DQUOTE) then let? (v, r) := read_string r in Some (JText v, r)
          else if decide (c = "["%char) then
            match trim_front json_ws r with
            | c' :: r' => if decide (c' = "]"%char) then Some (JArr [], r')
                          else let? (l, r) := read_items fuel r in Some (JArr l, r)
            | [] => None
            end
          else if decide (c = "{"%char) then
            match trim_front json_ws r with
            | c' :: r' => if decide (c' = "}"%char) then Some (JObj [], r')
                          else let? (l, r) := read_members fuel r in Some (JObj l, r)
            | [] => None
            end
          else if decide (c = "t"%char) then read_word "true" (JBool true) (c :: r)
          else if decide (c = "f"%char) then read_word "false" (JBool false) (c :: r)
          else if decide (c = "n"%char) then read_word "null" JNull (c :: r)
          else read_number (c :: r)
      end
  end
with read_items (fuel : nat) (s : str) : option (list JVal * str) :=
  match fuel with
  | O => None
  | S fuel =>
      let? (v, r) := read_value fuel s in
      match trim_front json_ws r with
      | c :: r => if decide (c = ","%char) then let? (l, r) := read_items fuel r in Some (v :: l, r)
                  else if decide (c = "]"%char) then Some ([v], r) else None
      | [] => None
      end
  end
with read_members (fuel : nat) (s : str) : option (list (str * JVal) * str) :=
  match fuel with
  | O => None
  | S fuel =>
      match trim_front json_ws s with
      | q :: r =>
          if decide (q = DQUOTE) then
            let? (k, r) := read_string r in
            match trim_front json_ws r with
            | c :: r =>
                if decide (c = ":"%char) then
                  let? (v, r) := read_value fuel r in
                  match trim_front json_ws r with
                  | c :: r => if decide (c = ","%char) then let? (l, r) := read_members fuel r in Some ((k, v) :: l, r)
                              else if decide (c = "}"%char) then Some ([(k, v)], r) else None
                  | [] => None
                  end
                else None
            | [] => None
            end
          else None
      | [] => None
      end
  end.

(** A whole text: one value between white space. *)
Definition parse_json (s : str) : option JVal :=
  let? (v, r) := read_value (2 * length s) s in
  match trim_front json_ws r with [] => Some v | _ => None end.

(** ** Lemmas *)

Section DocInd.
Context (P : Doc -> Prop) (Hnull : P DNull) (Hbool : forall b, P (DBool b)) (Hnum : forall z, P (DNum z)) (Hstr : forall s, P (DStr s))
  (Harr : forall items close, Forall (fun p => P p.2) items -> P (DArr items close))
  (Hobj : forall members close, Forall (fun m => P m.2) members -> P (DObj members close)).

Fixpoint doc_ind' (d : Doc) : P d :=
  match d with
  | DNull => Hnull | DBool b => Hbool b | DNum z => Hnum z | DStr s => Hstr s
  | DArr items close =>
      Harr items close ((fix go (l : list (str * Doc)) : Forall (fun p => P p.2) l :=
        match l with [] => List.Forall_nil _ | p :: l => @List.Forall_cons _ _ p l (doc_ind' p.2) (go l) end) items)
  | DObj members close =>
      Hobj members close ((fix go (l : list (str * str * str * Doc)) : Forall (fun m => P m.2) l :=
        match l with [] => List.Forall_nil _ | m :: l => @List.Forall_cons _ _ m l (doc_ind' m.2) (go l) end) members)
  end.
End DocInd.

Lemma trim_ws w s : ws w -> trim_front json_ws (w ++ s) = trim_front json_ws s.
Proof. induction 1 as [| c w Hc _ IH]; cbn [app trim_front]; [done |]. by rewrite Hc. Qed.

Lemma kept_cons c s : kept (c :: s) = if kept_char c then c :: kept s else kept s.
Proof. unfold kept. rewrite filter_cons. destruct (kept_char c); by case_decide. Qed.

Lemma read_string_esc s r : read_string (jsonEsc s ++ DQUOTE :: r) = Some (kept s, r).
Proof.
  induction s as [| c s IH]; [done |]. rewrite jsonEsc_cons, kept_cons, <- app_assoc.
  pose (bad := fun c => negb (match esc_char c with
     | [] => negb (kept_char c)
     | [b] => kept_char c && bool_decide (b = c) && negb (bool_decide (c = DQUOTE)) && negb (bool_decide (c = BSLASH)) && negb (byte_val c <? 0x20)
     | [b; e] => kept_char c && bool_decide (b = BSLASH) && bool_decide (unescape e = Some c)
     | _ => false end)).
  assert (G : forall c, negb (bad c) = true) by (apply byte_forall; vm_compute; reflexivity).
  specialize (G c). unfold bad in G. rewrite negb_involutive in G.
  destruct (esc_char c) as [| b [| e [| ? ?]]]; try done; bool_to_prop; cbn [app].
  - by destruct (kept_char c).
  - subst b. cbn [read_string]. rewrite !decide_False by done. rewrite IH.
    match goal with H : (byte_val c <? 0x20) = false |- _ => rewrite H | H : 0x20 <= byte_val c |- _ => rewrite (proj2 (Z.ltb_ge _ _) H) end.
    by match goal with H : kept_char c = true |- _ => rewrite H end.
  - subst b. cbn [read_string]. rewrite decide_False, decide_True by done.
    match goal with H : unescape e = Some c |- _ => rewrite H end. rewrite IH.
    by match goal with H : kept_char c = true |- _ => rewrite H end.
Qed.

Lemma kept_ident k : ident k -> jsonEsc k = k /\ kept k = k.
Proof.
  intros H. induction H as [| c k Hc H [IH1 IH2]]; [done |]. rewrite jsonEsc_cons, kept_cons, IH1, IH2.
  assert (G : forall c, implb (is_ident c) (bool_decide (esc_char c = [c]) && kept_char c) = true) by (apply byte_forall; vm_compute; reflexivity).
  specialize (G c). rewrite Hc in G. cbn [implb] in G. apply andb_true_iff in G as [->%bool_decide_eq_true ->]. done.
Qed.

Lemma read_digits_print z r : 0 <= z -> stops is_digit r -> read_digits (to_string z ++ r) = Some (z, r).
Proof.
  intros Hz Hr. unfold read_digits. rewrite span_app by (done || apply to_string_digits).
  destruct (to_string z) as [| c ds] eqn:E; [by destruct (to_string_nonempty z) |].
  assert (Hv : dec_val 0 (c :: ds) = z) by (rewrite <- E; by apply to_string_val). rewrite Hv.
  destruct (decide (c = "0"%char)) as [-> | Hc]; [| by rewrite bool_decide_false].
  destruct (decide (z = 0)) as [-> |]; [by injection E as <- |].
  destruct (to_string_head z ds); [lia |]. done.
Qed.

Lemma print_int_head z : exists c s, print_int z = c :: s /\ (c = "-"%char \/ is_digit c = true).
Proof.
  unfold print_int. destruct (z <? 0); [by eexists _, _; split; [done | left] |].
  pose proof (to_string_digits z) as H. destruct (to_string z) as [| c s] eqn:E; [by destruct (to_string_nonempty z) |].
  exists c, s. split; [done |]. right. by apply Forall_inv in H.
Qed.

Lemma read_number_print z r : stops is_digit r -> read_number (print_int z ++ r) = Some (JNum z, r).
Proof.
  intros Hr. unfold print_int. destruct (z <? 0) eqn:Ez; bool_to_prop; cbn [app].
  - unfold read_number. rewrite decide_True by done. rewrite read_digits_print by (done || lia). cbn. by rewrite Z.opp_involutive.
  - pose proof (read_digits_print z r Ez Hr) as H. pose proof (to_string_digits z) as Hd.
    destruct (to_string z) as [| c s] eqn:E; [by destruct (to_string_nonempty z) |]. apply Forall_inv in Hd. cbn [app read_number].
    rewrite decide_False by (intros ->; done). cbn [app] in H. by rewrite H.
Qed.

Lemma stops_sep c s : json_ws c = false -> stops json_ws (c :: s).
Proof. done. Qed.

(** The first byte of a document and the branch it selects. *)
Lemma render_head d : doc_ok d -> exists c s, render d = c :: s /\ json_ws c = false.
Proof.
  destruct d as [| [] | z | t | items close | members close]; cbn [render]; intros _; try by eexists _, _.
  destruct (print_int_head z) as (c & s & -> & Hc). exists c, s. split; [done |].
  assert (G : forall c, implb (bool_decide (c = "-"%char) || is_digit c) (negb (json_ws c)) = true) by (apply byte_forall; vm_compute; reflexivity).
  specialize (G c). destruct Hc as [-> | Hc]; [done |]. rewrite Hc, orb_true_r in G. by apply negb_true_iff.
Qed.

Lemma trim_render w d r : ws w -> doc_ok d -> trim_front json_ws (w ++ render d ++ r) = render d ++ r.
Proof. intros Hw Hd. rewrite trim_ws by done. destruct (render_head d Hd) as (c & s & -> & Hc). cbn [app trim_front]. by rewrite Hc. Qed.

(** What the reader does with a document behind white space. *)
Definition reads (d : Doc) : Prop :=
  doc_ok d -> forall w fuel r, ws w -> (2 * length (render d) <= fuel)%nat -> stops is_digit r ->
  read_value fuel (w ++ render d ++ r) = Some (value d, r).

Definition item_text (p : str * Doc) : str := p.1 ++ render p.2.
Definition member_text (m : str * str * str * Doc) : str := m.1.1.1 ++ quoted m.1.1.2 ++ ":"%char :: m.1.2 ++ render m.2.

Lemma stops_tail l close c r : ws close -> is_digit c = false -> stops is_digit (items_text false l ++ close ++ c :: r).
Proof.
  intros Hw Hc. destruct l as [| i l]; cbn [items_text app]; [| done]. destruct Hw as [| x close Hx _]; cbn [app stops]; [done |].
  assert (G : forall x, implb (json_ws x) (negb (is_digit x)) = true) by (apply byte_forall; vm_compute; reflexivity).
  specialize (G x). rewrite Hx in G. by apply negb_true_iff.
Qed.

Lemma read_items_spec ps : forall p close fuel r,
  Forall (fun p => reads p.2) (p :: ps) -> Forall (fun p => ws p.1 /\ doc_ok p.2) (p :: ps) -> ws close ->
  (2 * length (item_text p ++ items_text false (map item_text ps)) + 1 <= fuel)%nat ->
  read_items fuel (item_text p ++ items_text false (map item_text ps) ++ close ++ "]"%char :: r) = Some (map (fun p => value p.2) (p :: ps), r).
Proof.
  induction ps as [| q ps IH]; intros p close fuel r HR HO Hc Hf; apply Forall_cons in HR as [Hr HR]; apply Forall_cons in HO as [[Hw Hd] HO];
    (destruct fuel as [| fuel]; [lia |]); cbn [read_items]; unfold item_text at 1; rewrite <- (app_assoc p.1);
    rewrite length_app in Hf; unfold item_text at 1 in Hf; rewrite length_app in Hf.
  - rewrite Hr; [| done | done | lia | by apply stops_tail]. cbn [map items_text app]. rewrite trim_ws by done.
    cbn [trim_front]. change (json_ws "]") with false. cbn iota. rewrite decide_False, decide_True by done. done.
  - rewrite Hr; [| done | done | lia | by apply stops_tail]. cbn [map items_text app trim_front] in *. change (json_ws ",") with false. cbn iota.
    rewrite decide_True by done. cbn [length] in Hf.
    rewrite <- (app_assoc (item_text q)). rewrite IH by (done || lia). done.
Qed.

Lemma read_key w k r : ws w -> ident k -> exists r', trim_front json_ws (w ++ quoted k ++ r) = DQUOTE :: r' /\ read_string r' = Some (k, r).
Proof.
  intros Hw Hk. exists (k ++ DQUOTE :: r). rewrite trim_ws by done. split; [unfold quoted; cbn [app]; by rewrite <- app_assoc |].
  destruct (kept_ident k Hk) as [E1 E2]. rewrite <- E1 at 1. rewrite read_string_esc. by rewrite E2.
Qed.

Lemma read_members_spec ms : forall m close fuel r,
  Forall (fun m => reads m.2) (m :: ms) -> Forall (fun m => ws m.1.1.1 /\ ident m.1.1.2 /\ ws m.1.2 /\ doc_ok m.2) (m :: ms) -> ws close ->
  (2 * length (member_text m ++ items_text false (map member_text ms)) + 1 <= fuel)%nat ->
  read_members fuel (member_text m ++ items_text false (map member_text ms) ++ close ++ "}"%char :: r)
    = Some (map (fun m => (m.1.1.2, value m.2)) (m :: ms), r).
Proof.
  induction ms as [| q ms IH]; intros m close fuel r HR HO Hc Hf; apply Forall_cons in HR as [Hr HR]; apply Forall_cons in HO as [(Hw & Hk & Hw2 & Hd) HO];
    (destruct fuel as [| fuel]; [lia |]); cbn [read_members];
    rewrite length_app in Hf; unfold member_text at 1 in Hf; rewrite !length_app in Hf; cbn [length] in Hf; rewrite length_app in Hf.
  - unfold member_text at 1. rewrite <- (app_assoc m.1.1.1), <- (app_assoc (quoted _)). cbn [app]. rewrite <- (app_assoc m.1.2).
    match goal with |- context [trim_front json_ws (m.1.1.1 ++ quoted m.1.1.2 ++ ?x)] => destruct (read_key m.1.1.1 m.1.1.2 x Hw Hk) as (r' & -> & ->) end.
    rewrite decide_True by done. cbn [trim_front]. change (json_ws ":") with false. cbn iota. rewrite decide_True by done.
    rewrite Hr; [| done | done | lia | by apply stops_tail]. cbn [map items_text app]. rewrite trim_ws by done.
    cbn [trim_front]. change (json_ws "}") with false. cbn iota. rewrite decide_False, decide_True by done. done.
  - unfold member_text at 1. rewrite <- (app_assoc m.1.1.1), <- (app_assoc (quoted _)). cbn [app]. rewrite <- (app_assoc m.1.2).
    match goal with |- context [trim_front json_ws (m.1.1.1 ++ quoted m.1.1.2 ++ ?x)] => destruct (read_key m.1.1.1 m.1.1.2 x Hw Hk) as (r' & -> & ->) end.
    rewrite decide_True by done. cbn [trim_front]. change (json_ws ":") with false. cbn iota. rewrite decide_True by done.
    rewrite Hr; [| done | done | lia | by apply stops_tail]. cbn [map items_text app trim_front] in *. change (json_ws ",") with false. cbn iota.
    rewrite decide_True by done. cbn [length] in Hf.
    rewrite <- (app_assoc (member_text q)). rewrite IH by (done || lia). done.
Qed.

Lemma fold_and {A} (f : A -> Prop) l : fold_right (fun x P => f x /\ P) True l <-> Forall f l.
Proof. induction l as [| x l IH]; cbn [fold_right]; [by split |]. rewrite IH, Forall_cons. done. Qed.

(** The reader reads every document back. *)
Lemma reads_all d : reads d.
Proof.
  induction d as [| b | z | t | items close IH | members close IH] using doc_ind'; intros Hd w fuel r Hw Hf Hr;
    (destruct fuel as [| fuel]; [pose proof (render_head _ Hd) as (c & s & E & _); rewrite E in Hf; cbn in Hf; lia |]);
    cbn [read_value]; rewrite trim_render by done.
  - done.
  - by destruct b.
  - cbn [render value]. destruct (print_int_head z) as (c & s & E & Hc). pose proof (read_number_print z r Hr) as H. rewrite E in *. cbn [app] in *.
    assert (G : forall c, implb (bool_decide (c = "-"%char) || is_digit c) (negb (char_in [DQUOTE; "["%char; "{"%char; "t"%char; "f"%char; "n"%char] c)) = true)
      by (apply byte_forall; vm_compute; reflexivity).
    specialize (G c). assert (Hs : bool_decide (c = "-"%char) || is_digit c = true) by (destruct Hc as [-> | ->]; [done | apply orb_true_r]).
    rewrite Hs in G. cbn [implb] in G. unfold char_in in G. bool_to_prop. rewrite !not_elem_of_cons in G. destruct G as (? & ? & ? & ? & ? & ? & _).
    rewrite !decide_False by done. exact H.
  - cbn [render value]. unfold quoted. cbn [app]. rewrite <- app_assoc. cbn [app]. rewrite decide_True by done. by rewrite read_string_esc.
  - cbn [render value doc_ok] in *. destruct Hd as [Hc Hd]. apply (fold_and (fun p => ws p.1 /\ doc_ok p.2)) in Hd.
    cbn [app]. rewrite decide_False, decide_True by done. rewrite <- !app_assoc. change (("]" : str) ++ r) with ("]"%char :: r).
    destruct items as [| p ps]; cbn [map items_text app].
    + rewrite trim_ws by done. cbn [trim_front]. change (json_ws "]") with false. cbn iota. by rewrite decide_True.
    + fold (item_text p). change (map (fun p => p.1 ++ render p.2) ps) with (map item_text ps).
      rewrite <- app_assoc. pose proof (Forall_inv Hd) as [Hpw Hpd]. destruct (render_head p.2 Hpd) as (c & s & Ec & Hcw).
      assert (Hne : trim_front json_ws (item_text p ++ items_text false (map item_text ps) ++ close ++ "]"%char :: r) = (c :: s) ++ items_text false (map item_text ps) ++ close ++ "]"%char :: r).
      { unfold item_text at 1. rewrite <- app_assoc, trim_render by done. by rewrite Ec. }
      rewrite Hne. cbn [app].
      destruct (decide (c = "]"%char)) as [-> |].
      { destruct p.2 as [| [] | z | | |]; cbn in Ec; try (by injection Ec). destruct (print_int_head z) as (c & s' & E & Hc'). rewrite E in Ec. injection Ec as -> _.
        by destruct Hc'. }
      rewrite read_items_spec; [done | done | done | done |]. cbn [length map items_text app] in Hf. rewrite !length_app in Hf. cbn [length] in Hf.
      change (map (fun p => p.1 ++ render p.2) ps) with (map item_text ps) in Hf. unfold item_text at 1. rewrite !length_app. lia.
  - cbn [render value doc_ok] in *. destruct Hd as [Hc Hd]. apply (fold_and (fun m => ws m.1.1.1 /\ ident m.1.1.2 /\ ws m.1.2 /\ doc_ok m.2)) in Hd.
    cbn [app]. rewrite !decide_False, decide_True by done. rewrite <- !app_assoc. change (("}" : str) ++ r) with ("}"%char :: r).
    destruct members as [| m ms]; cbn [map items_text app].
    + rewrite trim_ws by done. cbn [trim_front]. change (json_ws "}") with false. cbn iota. by rewrite decide_True.
    + fold (member_text m). change (map (fun m => m.1.1.1 ++ quoted m.1.1.2 ++ ":"%char :: m.1.2 ++ render m.2) ms) with (map member_text ms).
      rewrite <- app_assoc. pose proof (Forall_inv Hd) as (Hmw & Hmk & _ & _).
      assert (Hne : exists s, trim_front json_ws (member_text m ++ items_text false (map member_text ms) ++ close ++ "}"%char :: r) = DQUOTE :: s).
      { unfold member_text at 1. rewrite <- (app_assoc m.1.1.1), <- (app_assoc (quoted _)).
        match goal with |- context [quoted m.1.1.2 ++ ?x] => destruct (read_key m.1.1.1 m.1.1.2 x Hmw Hmk) as (r' & -> & _) end. by eexists. }
      destruct Hne as [s ->]. rewrite decide_False by done.
      rewrite read_members_spec; [done | done | done | done |]. cbn [length map items_text app] in Hf. rewrite !length_app in Hf. cbn [length] in Hf.
      change (map (fun m => m.1.1.1 ++ quoted m.1.1.2 ++ ":"%char :: m.1.2 ++ render m.2) ms) with (map member_text ms) in Hf.
      rewrite !length_app in Hf. unfold member_text at 1. rewrite !length_app. cbn [length]. rewrite !length_app. lia.
Qed.

Lemma parse_render d w w' : doc_ok d -> ws w -> ws w' -> parse_json (w ++ render d ++ w') = Some (value d).
Proof.
  intros Hd Hw Hw'. unfold parse_json. rewrite reads_all; [| done | done | rewrite !length_app; lia |].
  - rewrite <- (app_nil_r w'), trim_ws by done. done.
  - destruct Hw' as [| c w' Hc _]; [done |]. cbn [stops].
    assert (G : forall x, implb (json_ws x) (negb (is_digit x)) = true) by (apply byte_forall; vm_compute; reflexivity).
    specialize (G c). rewrite Hc in G. by apply negb_true_iff.
Qed.

(** A document is printed as a document. *)
Lemma render_arr items close : render (DArr items close) = "["%char :: items_text true (item_text <$> items) ++ close ++ "]".
Proof. done. Qed.

Lemma render_obj members close : render (DObj members close) = "{"%char :: items_text true (member_text <$> members) ++ close ++ "}".
Proof. done. Qed.

(** ** Well-formed documents *)

Lemma arr_ok items close : ws close -> Forall (fun p => ws p.1 /\ doc_ok p.2) items -> doc_ok (DArr items close).
Proof. intros Hc H. split; [done |]. by apply (fold_and (fun p => ws p.1 /\ doc_ok p.2)). Qed.

Lemma obj_ok members close :
  ws close -> Forall (fun m => ws m.1.1.1 /\ ident m.1.1.2 /\ ws m.1.2 /\ doc_ok m.2) members -> doc_ok (DObj members close).
Proof. intros Hc H. split; [done |]. by apply (fold_and (fun m => ws m.1.1.1 /\ ident m.1.1.2 /\ ws m.1.2 /\ doc_ok m.2)). Qed.

(** Objects and arrays with literal keys and white space. *)
Ltac literal_ok := unfold ws, ident; by apply (bool_decide_unpack _); vm_compute.

Ltac members_ok :=
  repeat (apply List.Forall_cons; [split; [literal_ok | split; [literal_ok | split; [literal_ok | cbn [snd]]]] |]); try apply List.Forall_nil.
