(* ===== verification/Cbor.v ===== *)
(** The CBOR subset that WebAuthn needs ([webauthn.cpp], namespace [cbor]): the
    recursive parser with its limits, the map lookups, a reference encoder,
    and the theorems that the parser inverts the encoder and never takes more
    than it is given. *)

From S2P Require Import Prelude CppString.
Local Open Scope Z_scope.

(** ** Data *)

(** The tagged record: the fields each type uses. The keys and values of a map
    alternate in [items]. *)
(* webauthn.cpp:29-36 Val *)
Inductive Val :=
| UINT (u : Z)
| NINT (u : Z)
| BYTES (bytes : str)
| TEXT (text : str)
| ARRAY (items : list Val)
| MAP (items : list Val)
| OTHER.

(** Conversion to [std::int64_t]. *)
Definition s64 (z : Z) : Z := (z + 2 ^ 63) mod 2 ^ 64 - 2 ^ 63.

(* webauthn.cpp:38-43 Val::asInt *)
Definition asInt (v : Val) : Z :=
  match v with UINT u => s64 u | NINT u => -1 - s64 u | _ => 0 end.

(* webauthn.cpp:45-52 Val::get(std::string) *)
Definition get_text (key : str) (v : Val) : option Val :=
  match v with
  | MAP items =>
      (fix go items :=
        match items with
        | k :: v :: items =>
            match k with TEXT t => if decide (t = key) then Some v else go items | _ => go items end
        | _ => None
        end) items
  | _ => None
  end.

(* webauthn.cpp:54-64 Val::get(int64_t) *)
Definition get_int (key : Z) (v : Val) : option Val :=
  match v with
  | MAP items =>
      (fix go items :=
        match items with
        | k :: v :: items =>
            match k with
            | UINT _ | NINT _ => if asInt k =? key then Some v else go items
            | _ => go items
            end
        | _ => None
        end) items
  | _ => None
  end.

(** ** Parser *)

(** Big-endian value of the bytes. *)
Definition be_val (s : str) : Z := foldl (fun v c => Z.lor (Z.shiftl v 8) (byte_val c)) 0 s.

(** The first [n] bytes and what follows, when there are that many. *)
Definition take_exact (n : nat) (s : str) : option (str * str) :=
  if (length s <? n)%nat then None else Some (take n s, drop n s).

(* webauthn.cpp:69-90 readAdditional *)
Definition readAdditional (ai : Z) (s : str) : option (Z * str) :=
  if ai <=? 23 then Some (ai, s)
  else
    let width := if ai =? 24 then 1%nat else if ai =? 25 then 2%nat else if ai =? 26 then 4%nat else 8%nat in
    if 27 <? ai then None
    else let? (b, s) := take_exact width s in Some (be_val b, s).

(** The loops of arrays and maps. *)
Fixpoint parse_items (p : str -> option (Val * str)) (n : nat) (s : str) : option (list Val * str) :=
  match n with
  | O => Some ([], s)
  | S n => let? (v, s) := p s in let? (vs, s) := parse_items p n s in Some (v :: vs, s)
  end.

(** [levels]: how many levels are left, 13 at the outermost. *)
(* webauthn.cpp:92-140 parse *)
Fixpoint parse (levels : nat) (s : str) : option (Val * str) :=
  match levels, s with
  | S levels, ib :: s =>
      let? (count, s) := readAdditional (Z.land (byte_val ib) 0x1F) s in
      match Z.shiftr (byte_val ib) 5 with
      | 0 => Some (UINT count, s)
      | 1 => Some (NINT count, s)
      | 2 =>
          if 65536 <? count then None
          else let? (b, s) := take_exact (Z.to_nat count) s in Some (BYTES b, s)
      | 3 =>
          if 65536 <? count then None
          else let? (b, s) := take_exact (Z.to_nat count) s in Some (TEXT b, s)
      | 4 =>
          if 512 <? count then None
          else let? (vs, s) := parse_items (parse levels) (Z.to_nat count) s in Some (ARRAY vs, s)
      | 5 =>
          if 64 <? count then None
          else let? (vs, s) := parse_items (parse levels) (2 * Z.to_nat count) s in Some (MAP vs, s)
      | 6 => let? (_, s) := parse levels s in Some (OTHER, s)
      | 7 => Some (OTHER, s)
      | _ => None
      end
  | _, _ => None
  end.

Definition kLevels : nat := 13.

(** ** The reference encoder *)

Definition be_bytes (n : nat) (z : Z) : str :=
  (fun i => byte_of (Z.shiftr z (8 * Z.of_nat (n - 1 - i)))) <$> seq 0 n.

(** The shortest head for a major type and an argument. *)
Definition enc_head (mt n : Z) : str :=
  let ib ai := byte_of (mt * 32 + ai) in
  if n <? 24 then [ib n]
  else if n <? 2 ^ 8 then ib 24 :: be_bytes 1 n
  else if n <? 2 ^ 16 then ib 25 :: be_bytes 2 n
  else if n <? 2 ^ 32 then ib 26 :: be_bytes 4 n
  else ib 27 :: be_bytes 8 n.

Fixpoint encode (v : Val) : str :=
  match v with
  | UINT u => enc_head 0 u
  | NINT u => enc_head 1 u
  | BYTES b => enc_head 2 (Z.of_nat (length b)) ++ b
  | TEXT t => enc_head 3 (Z.of_nat (length t)) ++ t
  | ARRAY items => enc_head 4 (Z.of_nat (length items)) ++ concat (map encode items)
  | MAP items => enc_head 5 (Z.of_nat (length items / 2)) ++ concat (map encode items)
  | OTHER => [byte_of 0xF6]
  end.

(** Values within the parser's limits on width, size, count and nesting. *)
Fixpoint val_ok (levels : nat) (v : Val) : bool :=
  match levels with
  | O => false
  | S levels =>
      match v with
      | UINT u | NINT u => (0 <=? u) && (u <? 2 ^ 64)
      | BYTES b => Z.of_nat (length b) <=? 65536
      | TEXT t => Z.of_nat (length t) <=? 65536
      | ARRAY items => (Z.of_nat (length items) <=? 512) && forallb (val_ok levels) items
      | MAP items =>
          (length items mod 2 =? 0)%nat && (Z.of_nat (length items / 2) <=? 64) && forallb (val_ok levels) items
      | OTHER => true
      end
  end.

(** ** Lemmas: heads *)

Lemma take_exact_app n l r : length l = n -> take_exact n (l ++ r) = Some (l, r).
Proof.
  intros Hl. unfold take_exact. rewrite (proj2 (Nat.ltb_ge _ _)) by (rewrite length_app; lia).
  by rewrite take_length_app, drop_length_app.
Qed.

Lemma take_exact_Some n s b r : take_exact n s = Some (b, r) -> s = b ++ r /\ length b = n.
Proof.
  unfold take_exact. case_match_goal; [done |]. bool_to_prop. intros [= <- <-]. rewrite take_drop, length_take. split; [done | lia].
Qed.

Lemma be_val_snoc s c : be_val (s ++ [c]) = Z.lor (Z.shiftl (be_val s) 8) (byte_val c).
Proof. unfold be_val. by rewrite foldl_snoc. Qed.

Lemma be_val_range s : 0 <= be_val s < 2 ^ (8 * Z.of_nat (length s)).
Proof.
  induction s as [| c s IH] using rev_ind; [done |]. rewrite be_val_snoc, lor_shiftl by (lia || apply byte_val_range).
  pose proof (byte_val_range c). rewrite length_app, Nat2Z.inj_add, Z.mul_add_distr_l. cbn [length].
  rewrite Z.pow_add_r by lia. lia.
Qed.

Lemma be_bytes_length n z : length (be_bytes n z) = n.
Proof. unfold be_bytes. by rewrite length_fmap, length_seq. Qed.

Lemma be_bytes_S n z : be_bytes (S n) z = be_bytes n (Z.shiftr z 8) ++ [byte_of z].
Proof.
  unfold be_bytes. rewrite seq_S, fmap_app. cbn [fmap list_fmap]. f_equal.
  - apply list_fmap_ext. intros i x Hx. apply lookup_seq in Hx as [-> Hi]. rewrite Z.shiftr_shiftr by lia. do 2 f_equal. lia.
  - do 2 f_equal. rewrite Nat.sub_diag || replace (S n - 1 - (0 + n))%nat with 0%nat by lia. apply Z.shiftr_0_r.
Qed.

Lemma be_val_bytes n z : 0 <= z < 2 ^ (8 * Z.of_nat n) -> be_val (be_bytes n z) = z.
Proof.
  revert z. induction n as [| n IH]; intros z Hz.
  - cbn in *. lia.
  - rewrite be_bytes_S, be_val_snoc, byte_val_of, IH.
    + rewrite lor_shiftl by (lia || apply u8_range). rewrite Z.shiftr_div_pow2 by lia. unfold u8.
      pose proof (Z.div_mod z (2 ^ 8) ltac:(lia)). lia.
    + rewrite Z.shiftr_div_pow2 by lia. replace (8 * Z.of_nat (S n)) with (8 * Z.of_nat n + 8) in Hz by lia.
      rewrite Z.pow_add_r in Hz by lia. split; [apply Z.div_pos; lia | apply Z.div_lt_upper_bound; lia].
Qed.

Lemma head_byte mt ai :
  0 <= mt < 8 -> 0 <= ai < 32 ->
  Z.land (byte_val (byte_of (mt * 32 + ai))) 0x1F = ai /\ Z.shiftr (byte_val (byte_of (mt * 32 + ai))) 5 = mt.
Proof.
  intros Hm Ha. rewrite byte_val_of, u8_small by lia. change 0x1F with (Z.ones 5).
  rewrite Z.land_ones, Z.shiftr_div_pow2 by lia. Z.to_euclidean_division_equations. lia.
Qed.

(** Reading a head back. *)
Lemma parse_head mt n rest :
  0 <= mt < 8 -> 0 <= n < 2 ^ 64 ->
  exists ib s, enc_head mt n ++ rest = ib :: s /\ Z.shiftr (byte_val ib) 5 = mt /\
    readAdditional (Z.land (byte_val ib) 0x1F) s = Some (n, rest).
Proof.
  intros Hm Hn. unfold enc_head, readAdditional.
  repeat case_match_goal; bool_to_prop; cbn [app]; eexists _, _; (split; [reflexivity |]);
    match goal with |- context [byte_of (mt * 32 + ?ai)] => destruct (head_byte mt ai) as [-> ->]; [lia | lia |] end;
    (split; [reflexivity |]); cbn -[be_bytes be_val take_exact]; try (rewrite take_exact_app by apply be_bytes_length;
    rewrite be_val_bytes by (cbn; lia); reflexivity).
  by rewrite (proj2 (Z.leb_le _ _)) by lia.
Qed.

(** ** Lemmas: round trip *)

Lemma parse_items_encode levels vs rest :
  (forall v rest, val_ok levels v = true -> parse levels (encode v ++ rest) = Some (v, rest)) ->
  forallb (val_ok levels) vs = true ->
  parse_items (parse levels) (length vs) (concat (map encode vs) ++ rest) = Some (vs, rest).
Proof.
  intros Hp. induction vs as [| v vs IH]; intros Hv; [done |]. cbn [map concat length forallb parse_items] in *. bool_to_prop.
  rewrite <- app_assoc, Hp by done. by rewrite IH.
Qed.

Lemma parse_encode levels v rest : val_ok levels v = true -> parse levels (encode v ++ rest) = Some (v, rest).
Proof.
  revert v rest. induction levels as [| levels IH]; intros v rest Hv; [done |]. cbn [val_ok] in Hv.
  destruct v as [u | u | b | t | items | items |]; cbn [encode]; bool_to_prop; rewrite <- ?app_assoc.
  7:{ done. }
  all: match goal with |- context [enc_head ?mt ?n ++ ?r] => destruct (parse_head mt n r) as (ib & s & Es & Emt & Era); [lia | lia |] end;
    rewrite Es; cbn [parse]; rewrite Era, Emt; cbv iota;
    try (rewrite (proj2 (Z.ltb_ge _ _)) by lia); rewrite ?Nat2Z.id; try done.
  - by rewrite take_exact_app.
  - by rewrite take_exact_app.
  - by rewrite parse_items_encode by done.
  - assert (E : (2 * (length items / 2))%nat = length items).
    { pose proof (Nat.div_mod_eq (length items) 2). lia. }
    rewrite E. by rewrite parse_items_encode by done.
Qed.

(** ** Lemmas: consumption *)

(** Nodes and payload bytes of a value. *)
Fixpoint weight (v : Val) : nat :=
  match v with
  | BYTES b | TEXT b => S (length b)
  | ARRAY items | MAP items => S (list_sum (map weight items))
  | _ => 1
  end.

(** [p] takes a non-empty prefix that outweighs what it returns. *)
Definition consumes (p : str -> option (Val * str)) : Prop :=
  forall s v r, p s = Some (v, r) -> exists pre, s = pre ++ r /\ (weight v <= length pre)%nat.

Lemma readAdditional_consumes ai s n r : readAdditional ai s = Some (n, r) -> exists pre, s = pre ++ r.
Proof.
  unfold readAdditional. repeat case_match_goal; try done.
  1: intros [= <- <-]; by exists [].
  all: intros [= <- <-]; match goal with H : take_exact _ _ = Some _ |- _ => apply take_exact_Some in H as [-> _] end; by eexists.
Qed.

Lemma parse_items_consumes p n s vs r :
  consumes p -> parse_items p n s = Some (vs, r) -> exists pre, s = pre ++ r /\ (list_sum (map weight vs) <= length pre)%nat.
Proof.
  intros Hp. revert s vs. induction n as [| n IH]; intros s vs; cbn [parse_items].
  - intros [= <- <-]. by exists [].
  - destruct (p s) as [[v s1] |] eqn:E1; [| done]. destruct (parse_items p n s1) as [[vs1 s2] |] eqn:E2; [| done]. intros [= <- <-].
    apply Hp in E1 as (p1 & -> & H1). apply IH in E2 as (p2 & -> & H2). exists (p1 ++ p2). rewrite app_assoc, length_app.
    unfold list_sum in *. cbn. split; [done | lia].
Qed.

Lemma parse_consumes levels : consumes (parse levels).
Proof.
  induction levels as [| levels IH]; intros s v r; [done |]. cbn [parse]. destruct s as [| ib s]; [done |].
  destruct (readAdditional _ s) as [[n s1] |] eqn:E1; [| done]. apply readAdditional_consumes in E1 as [p1 ->].
  assert (Hone : forall w, weight w = 1%nat -> Some (w, s1) = Some (v, r) ->
    exists pre, ib :: p1 ++ s1 = pre ++ r /\ (weight v <= length pre)%nat).
  { intros w Hw [= <- <-]. exists (ib :: p1). cbn [length app]. split; [done | lia]. }
  assert (Hbytes : forall (f : str -> Val) b s2, (forall b, weight (f b) = S (length b)) -> take_exact (Z.to_nat n) s1 = Some (b, s2) ->
    Some (f b, s2) = Some (v, r) -> exists pre, ib :: p1 ++ s1 = pre ++ r /\ (weight v <= length pre)%nat).
  { intros f b s2 Hf Hb [= <- <-]. apply take_exact_Some in Hb as [-> _]. exists (ib :: p1 ++ b).
    cbn [app length]. rewrite Hf, length_app, <- app_assoc. split; [done | lia]. }
  assert (Hitems : forall k (f : list Val -> Val) vs s2, (forall vs, weight (f vs) = S (list_sum (map weight vs))) ->
    parse_items (parse levels) k s1 = Some (vs, s2) ->
    Some (f vs, s2) = Some (v, r) -> exists pre, ib :: p1 ++ s1 = pre ++ r /\ (weight v <= length pre)%nat).
  { intros k f vs s2 Hf Hv [= <- <-]. apply parse_items_consumes in Hv as (p2 & -> & Hw); [| done]. exists (ib :: p1 ++ p2).
    cbn [app length]. rewrite Hf, length_app, <- app_assoc. split; [done | lia]. }
  repeat case_match_goal; try done; try (by apply Hone).
  all: try (by eapply Hbytes); try (by eapply Hitems).
  intros [= <- <-]. match goal with H : parse levels s1 = Some _ |- _ => apply IH in H as (q2 & -> & _) end.
  exists (ib :: p1 ++ q2). cbn [app length weight]. rewrite <- app_assoc. split; [done | lia].
Qed.

(** ** Properties *)

(** The CBOR parser inverts the encoder and cannot be made to overread or
    overallocate. Every value within the limits on width, size, count and
    nesting is read back from its encoding, whatever follows it, with exactly
    its bytes taken; and on any input, however hostile, a successful parse
    takes a prefix at least as long as the nodes and payload bytes it returns. *)
Lemma cbor_roundtrip (levels : nat) (v : Val) (rest : str) :
  (val_ok levels v = true -> parse levels (encode v ++ rest) = Some (v, rest)) /\
  (forall s w r, parse levels s = Some (w, r) -> exists pre, s = pre ++ r /\ (weight w <= length pre)%nat).
Proof. split; [apply parse_encode | apply parse_consumes]. Qed.

Lemma cbor_roundtrip_witness :
  parse kLevels (encode (MAP [TEXT "fmt"; ARRAY [UINT 300; NINT 6]]) ++ "rest") = Some (MAP [TEXT "fmt"; ARRAY [UINT 300; NINT 6]], "rest" : str).
Proof. apply cbor_roundtrip. vm_compute. reflexivity. Defined.
