(* ===== verification/Base64Url.v ===== *)
(** Unpadded base64url as the passkey code writes and reads it ([webauthn.cpp],
    [toBase64url], [fromBase64url]): the writer is the standard encoding with
    two letters exchanged and no padding, and the reader, which skips what it
    does not know, inverts it. *)

From S2P Require Import Prelude CppString Base64 Upgrade.
Local Open Scope Z_scope.

(* webauthn.cpp:157-158 toBase64url, kTbl *)
Definition kTbl : str := "ABCDEFGHIJKLMNOPQRSTUVWXYZabcdefghijklmnopqrstuvwxyz0123456789+/".
Definition tbl (i : Z) : ascii := nth (Z.to_nat (Z.land i 63)) kTbl NUL.

(** Three bytes at a time; the last group of one or two is padded. *)
(* webauthn.cpp:161-170 toBase64url, groups *)
Fixpoint groups (s : str) : str :=
  match s with
  | [] => []
  | [a] =>
      let v := Z.shiftl (byte_val a) 16 in
      [tbl (Z.shiftr v 18); tbl (Z.shiftr v 12); "="%char; "="%char]
  | [a; b] =>
      let v := Z.lor (Z.shiftl (byte_val a) 16) (Z.shiftl (byte_val b) 8) in
      [tbl (Z.shiftr v 18); tbl (Z.shiftr v 12); tbl (Z.shiftr v 6); "="%char]
  | a :: b :: c :: s =>
      let v := Z.lor (Z.lor (Z.shiftl (byte_val a) 16) (Z.shiftl (byte_val b) 8)) (byte_val c) in
      tbl (Z.shiftr v 18) :: tbl (Z.shiftr v 12) :: tbl (Z.shiftr v 6) :: tbl v :: groups s
  end.

(* webauthn.cpp:171-172 toBase64url, letters *)
Definition url_char (c : ascii) : ascii :=
  if decide (c = "+"%char) then "-" else if decide (c = "/"%char) then "_" else c.

(* webauthn.cpp:155-180 toBase64url *)
Definition toBase64url (s : str) : str := trim_back (char_in ["="%char]) (url_char <$> groups s).

(* webauthn.cpp:184-188 fromBase64url, dec *)
Definition dec (c : ascii) : option Z :=
  if is_upper c then Some (byte_val c - byte_val "A")
  else if is_lower c then Some (26 + (byte_val c - byte_val "a"))
  else if is_digit c then Some (52 + (byte_val c - byte_val "0"))
  else if char_in ["+"%char; "-"%char] c then Some 62
  else if char_in ["/"%char; "_"%char] c then Some 63
  else None.

(** [acc] is a 32-bit unsigned integer. *)
(* webauthn.cpp:192-199 fromBase64url, loop *)
Fixpoint from_loop (s : str) (acc bits : Z) (out : str) : str :=
  match s with
  | [] => out
  | c :: s =>
      match dec c with
      | None => from_loop s acc bits out
      | Some v =>
          let acc := Z.lor (u32 (Z.shiftl acc 6)) v in
          let bits := bits + 6 in
          if 8 <=? bits
          then from_loop s acc (bits - 8) (out ++ [byte_of (Z.land (Z.shiftr acc (bits - 8)) 0xFF)])
          else from_loop s acc bits out
      end
  end.

(* webauthn.cpp:182-201 fromBase64url *)
Definition fromBase64url (s : str) : str := from_loop s 0 0 [].

(** ** Lemmas *)

Lemma tbl_sym i v : Z.land i 63 = v -> 0 <= v < 64 -> tbl i = b64_sym v.
Proof.
  intros <- Hv. unfold tbl.
  assert (E : forallb (fun i => bool_decide (nth i kTbl NUL = b64_sym (Z.of_nat i))) (seq 0 64) = true) by (vm_compute; reflexivity).
  rewrite forallb_forall in E. specialize (E (Z.to_nat (Z.land i 63))). rewrite Z2Nat.id in E by lia.
  eapply bool_decide_eq_true_1, E. apply in_seq. lia.
Qed.

Lemma land63 z : Z.land z 63 = z mod 64.
Proof. apply (Z.land_ones z 6). lia. Qed.

(** The groups are the standard encoding. *)
Lemma groups_standard s : groups s = b64Encode s.
Proof.
  assert (Hab : forall a b : ascii, Z.lor (Z.shiftl (byte_val a) 16) (Z.shiftl (byte_val b) 8) = (byte_val a * 256 + byte_val b) * 256).
  { intros a b. pose proof (byte_val_range a). pose proof (byte_val_range b).
    replace (Z.shiftl (byte_val a) 16) with (Z.shiftl (Z.shiftl (byte_val a) 8) 8) by (by rewrite Z.shiftl_shiftl by lia).
    rewrite <- Z.shiftl_lor, lor_shiftl, Z.shiftl_mul_pow2 by lia. done. }
  induction s as [| a | a b | a b c s IH] using list3_ind; cbn [groups b64Encode]; [done | ..].
  - pose proof (byte_val_range a). rewrite Z.shiftl_mul_pow2 by lia.
    rewrite (tbl_sym _ (byte_val a / 4)), (tbl_sym _ (byte_val a mod 4 * 16)); try done;
      rewrite ?land63, ?Z.shiftr_div_pow2 by lia; Z.to_euclidean_division_equations; lia.
  - pose proof (byte_val_range a). pose proof (byte_val_range b). rewrite Hab.
    rewrite (tbl_sym _ (byte_val a / 4)), (tbl_sym _ (byte_val a mod 4 * 16 + byte_val b / 16)), (tbl_sym _ (byte_val b mod 16 * 4));
      try done; rewrite ?land63, ?Z.shiftr_div_pow2 by lia; Z.to_euclidean_division_equations; lia.
  - pose proof (byte_val_range a). pose proof (byte_val_range b). pose proof (byte_val_range c). rewrite Hab.
    assert (E : Z.lor ((byte_val a * 256 + byte_val b) * 256) (byte_val c) = (byte_val a * 256 + byte_val b) * 256 + byte_val c).
    { replace ((byte_val a * 256 + byte_val b) * 256) with (Z.shiftl (byte_val a * 256 + byte_val b) 8) by (by rewrite Z.shiftl_mul_pow2 by lia).
      rewrite lor_shiftl, Z.shiftl_mul_pow2 by lia. done. }
    rewrite E, IH.
    rewrite (tbl_sym _ (byte_val a / 4)), (tbl_sym _ (byte_val a mod 4 * 16 + byte_val b / 16)),
      (tbl_sym _ (byte_val b mod 16 * 4 + byte_val c / 64)), (tbl_sym _ (byte_val c mod 64));
      try done; rewrite ?land63, ?Z.shiftr_div_pow2 by lia; Z.to_euclidean_division_equations; lia.
Qed.

(** Letters of an encoding, before the padding. *)
Definition is_sym (c : ascii) : Prop := exists v, 0 <= v < 64 /\ c = b64_sym v.

Lemma b64Encode_split s : exists sym n, b64Encode s = sym ++ replicate n "="%char /\ Forall is_sym sym.
Proof.
  assert (Hv : forall v, 0 <= v < 64 -> is_sym (b64_sym v)) by (intros v H; by exists v).
  assert (Hd : forall a : ascii, 0 <= byte_val a < 256) by apply byte_val_range.
  induction s as [| a | a b | a b c s (sym & n & E & H)] using list3_ind; cbn [b64Encode].
  - exists [], 0%nat. by split.
  - pose proof (Hd a). exists [b64_sym (byte_val a / 4); b64_sym (byte_val a mod 4 * 16)], 2%nat. split; [done |].
    repeat (apply List.Forall_cons; [apply Hv; Z.to_euclidean_division_equations; lia |]). constructor.
  - pose proof (Hd a). pose proof (Hd b).
    exists [b64_sym (byte_val a / 4); b64_sym (byte_val a mod 4 * 16 + byte_val b / 16); b64_sym (byte_val b mod 16 * 4)], 1%nat.
    split; [done |]. repeat (apply List.Forall_cons; [apply Hv; Z.to_euclidean_division_equations; lia |]). constructor.
  - pose proof (Hd a). pose proof (Hd b). pose proof (Hd c).
    exists (b64_sym (byte_val a / 4) :: b64_sym (byte_val a mod 4 * 16 + byte_val b / 16) ::
      b64_sym (byte_val b mod 16 * 4 + byte_val c / 64) :: b64_sym (byte_val c mod 64) :: sym), n. rewrite E. split; [done |].
    repeat (apply List.Forall_cons; [apply Hv; Z.to_euclidean_division_equations; lia |]). done.
Qed.

Lemma sym_chars v : 0 <= v < 64 ->
  url_char (b64_sym v) <> "="%char /\ dec (url_char (b64_sym v)) = Some v /\
  url_char (b64_sym v) <> DQUOTE /\ url_char (b64_sym v) <> BSLASH /\ 0x20 < byte_val (url_char (b64_sym v)).
Proof.
  intros Hv.
  assert (E : forallb (fun i => let c := url_char (b64_sym (Z.of_nat i)) in
    negb (char_in ["="%char; DQUOTE; BSLASH] c) && bool_decide (dec c = Some (Z.of_nat i)) && (0x20 <? byte_val c)) (seq 0 64) = true)
    by (vm_compute; reflexivity).
  rewrite forallb_forall in E. specialize (E (Z.to_nat v)). cbv beta zeta in E. rewrite Z2Nat.id in E by lia.
  assert (Hin : In (Z.to_nat v) (seq 0 64)) by (apply in_seq; lia). specialize (E Hin).
  unfold char_in in E. bool_to_prop. rewrite !not_elem_of_cons in *. naive_solver.
Qed.

(** The written form: the letters without the padding. *)
Lemma toBase64url_eq s : exists sym n, b64Encode s = sym ++ replicate n "="%char /\ Forall is_sym sym /\ toBase64url s = url_char <$> sym.
Proof.
  destruct (b64Encode_split s) as (sym & n & E & H). exists sym, n. split_conj; try done. unfold toBase64url.
  rewrite groups_standard, E, fmap_app, fmap_replicate. change (url_char "=") with "="%char. unfold trim_back.
  rewrite rev_app_distr. assert (Er : rev (replicate n "="%char) = replicate n "="%char) by (rewrite rev_alt; apply reverse_replicate).
  rewrite Er. assert (Et : forall t, trim_front (char_in ["="%char]) (replicate n "="%char ++ t) = trim_front (char_in ["="%char]) t).
  { intros t. clear. induction n as [| n IH]; [done |]. cbn [replicate app trim_front]. exact IH. }
  rewrite Et, trim_front_id; [by rewrite rev_involutive |].
  destruct (rev (url_char <$> sym)) as [| c l] eqn:El; [done |]. cbn. unfold char_in. apply bool_decide_eq_false.
  rewrite list_elem_of_singleton. intros ->.
  assert (Hin : "="%char ∈ (url_char <$> sym)).
  { apply list_elem_of_In, in_rev. rewrite El. by left. }
  apply list_elem_of_fmap in Hin as (x & Hx & Hin). rewrite Forall_forall in H. destruct (H x Hin) as (v & Hv & ->).
  by destruct (sym_chars v Hv) as (? & _).
Qed.

Lemma byte_of_land z : byte_of (Z.land z 0xFF) = byte_of z.
Proof. change 0xFF with (Z.ones 8). rewrite Z.land_ones by lia. unfold byte_of, u8. by rewrite Z.mod_mod by lia. Qed.

(** Both readers step alike on a letter. *)
Lemma from_sym sym n acc bits out :
  Forall is_sym sym -> from_loop (url_char <$> sym) acc bits out = base64_loop (sym ++ replicate n "="%char) acc bits out.
Proof.
  intros H. revert acc bits out. induction H as [| c sym (v & Hv & ->) _ IH]; intros acc bits out.
  - cbn [fmap list_fmap from_loop app]. by destruct n.
  - cbn [fmap list_fmap from_loop app]. rewrite base64_sym by done. destruct (sym_chars v Hv) as (_ & -> & _). cbv zeta.
    case_match_goal; [| apply IH]. by rewrite IH, byte_of_land.
Qed.

Lemma base64url_roundtrip s : fromBase64url (toBase64url s) = s.
Proof.
  destruct (toBase64url_eq s) as (sym & n & E & H & ->). unfold fromBase64url. rewrite (from_sym sym n) by done. rewrite <- E.
  by apply base64_encode.
Qed.

Lemma toBase64url_inj s t : toBase64url s = toBase64url t -> s = t.
Proof. intros H. by rewrite <- (base64url_roundtrip s), H, base64url_roundtrip. Qed.

(** The written form needs no escape. *)
Lemma toBase64url_plain s : Forall (fun c => c <> DQUOTE /\ c <> BSLASH /\ 0x20 < byte_val c) (toBase64url s).
Proof.
  destruct (toBase64url_eq s) as (sym & n & E & H & ->). apply Forall_fmap. eapply Forall_impl; [exact H |].
  intros c (v & Hv & ->). unfold compose. destruct (sym_chars v Hv) as (_ & _ & ? & ? & ?). done.
Qed.

Lemma toBase64url_nil s : toBase64url s = [] <-> s = [].
Proof.
  split; [| by intros ->]. intros H. by rewrite <- (base64url_roundtrip s), H.
Qed.
