(* ===== verification/Passkeys.v ===== *)
(** The store of registered passkeys ([webauthn.cpp]): the string-field reader
    of the passkey code, the JSON file it keeps the credentials in
    ([saveCredentials], [loadCredentials]), and the theorem that a saved store
    is loaded back unchanged. *)

From S2P Require Import Prelude CppString HttpUtil Base64Url.
Local Open Scope Z_scope.

(** ** The field reader *)

(* webauthn.cpp:258-264 jsonGetStr, escape *)
Definition unescape (e : ascii) : ascii :=
  if decide (e = "n"%char) then LF else if decide (e = "r"%char) then CR else e.

(* webauthn.cpp:253-268 jsonGetStr, value *)
Fixpoint value_body (s : str) : option str :=
  match s with
  | [] => None
  | c :: s' =>
      if decide (c = DQUOTE) then Some []
      else if decide (c = BSLASH) then
        match s' with
        | [] => None
        | e :: s'' => cons (unescape e) <$> value_body s''
        end
      else cons c <$> value_body s'
  end.

Definition key_pad : ascii -> bool := char_in [SP; ":"%char; TAB].

(* webauthn.cpp:243-251 jsonGetStr, occurrence *)
Definition key_value (s : str) : option str :=
  match trim_front key_pad s with
  | q :: v => if decide (q = DQUOTE) then Some (default [] (value_body v)) else None
  | [] => None
  end.

(* webauthn.cpp:239-270 jsonGetStr *)
Definition jsonGetStr (json key : str) : str :=
  scan_loop key_value (trim_front key_pad) (length json) (quoted key) json.

(** ** Credentials *)

(* webauthn.hpp:28-35 PasskeyCredential *)
Record PasskeyCredential := mkCred {
  credId : str; pubkeyX : str; pubkeyY : str; signCount : Z; label : str
}.

(** ** The file *)

(* webauthn.cpp:717-719 saveCredentials, entry *)
Definition cred_text (c : PasskeyCredential) : str :=
  "  {" ++ quoted "id" ++ ":"%char :: quoted (credId c) ++ "," ++ quoted "x" ++ ":"%char :: quoted (pubkeyX c)
  ++ "," ++ quoted "y" ++ ":"%char :: quoted (pubkeyY c) ++ "," ++ quoted "sign_count" ++ ":"%char :: to_string (signCount c)
  ++ "," ++ quoted "label" ++ ":"%char :: quoted (label c) ++ "}".

Fixpoint creds_text (cs : list PasskeyCredential) : str :=
  match cs with
  | [] => []
  | [c] => cred_text c
  | c :: cs => cred_text c ++ ","%char :: LF :: creds_text cs
  end.

Definition file_head : str := "{" ++ quoted "version" ++ ":1," ++ quoted "credentials" ++ ":[" ++ [LF].
Definition file_tail : str := LF :: "]}" ++ [LF].

(* webauthn.cpp:701-726 saveCredentials *)
Definition saveCredentials (credentialsFile : str) (opens : bool) (cs : list PasskeyCredential) (file : option str) : option str :=
  if decide (credentialsFile = []) then file
  else if negb opens then file
  else Some (file_head ++ creds_text cs ++ file_tail).

(** From an opening brace to the one that closes it, quotes respected. *)
(* webauthn.cpp:668-677 loadCredentials, object *)
Fixpoint match_brace (depth : Z) (inStr : bool) (prev : ascii) (s : str) : str * str :=
  match s with
  | [] => ([], [])
  | c :: s =>
      let inStr := if bool_decide (c = DQUOTE) && negb (bool_decide (prev = BSLASH)) then negb inStr else inStr in
      let depth := if inStr then depth
                   else if decide (c = "{"%char) then depth + 1
                   else if decide (c = "}"%char) then depth - 1 else depth in
      if negb inStr && bool_decide (c = "}"%char) && (depth =? 0) then ([c], s)
      else let (o, r) := match_brace depth inStr c s in (c :: o, r)
  end.

Definition count_pad : ascii -> bool := char_in [":"%char; SP].

(* webauthn.cpp:686-694 loadCredentials, sign_count *)
Definition read_count (obj : str) : Z :=
  match find_str (quoted "sign_count") obj with
  | None => 0
  | Some p =>
      match stoull (trim_front count_pad (substr_from obj (p + length (quoted "sign_count")))) with
      | StoOk v _ => u32 v
      | _ => 0
      end
  end.

(* webauthn.cpp:680-694 loadCredentials, credential *)
Definition read_cred (obj : str) : PasskeyCredential :=
  mkCred (jsonGetStr obj "id") (jsonGetStr obj "x") (jsonGetStr obj "y") (read_count obj) (jsonGetStr obj "label").

Definition array_pad : ascii -> bool := char_in [SP; ","%char; LF; CR; TAB].

(** Every round takes at least one byte; the fuel is the length. *)
(* webauthn.cpp:657-698 loadCredentials, array *)
Fixpoint load_loop (fuel : nat) (s : str) : list PasskeyCredential :=
  match fuel with
  | O => []
  | S fuel =>
      match trim_front array_pad s with
      | [] => []
      | c :: s' =>
          if decide (c = "]"%char) then []
          else if decide (c = "{"%char) then
            let (obj, rest) := match_brace 0 false NUL (c :: s') in
            let cred := read_cred obj in
            if bool_decide (credId cred <> []) && bool_decide (pubkeyX cred <> []) && bool_decide (pubkeyY cred <> [])
            then cred :: load_loop fuel rest else load_loop fuel rest
          else load_loop fuel s'
      end
  end.

(** The array behind the member's name, when the text has one. *)
(* webauthn.cpp:648-698 loadCredentials, text *)
Definition parse_credentials (json : str) : option (list PasskeyCredential) :=
  let? p := find_str (quoted "credentials") json in
  let? q := find_char_from "[" json p in
  let s := substr_from json (S q) in
  Some (load_loop (length s) s).

(* webauthn.cpp:641-699 loadCredentials *)
Definition loadCredentials (credentialsFile : str) (file : option str) (old : list PasskeyCredential) : list PasskeyCredential :=
  if decide (credentialsFile = []) then old
  else match file with
       | None => old
       | Some json => default old (parse_credentials json)
       end.

(** ** Lemmas: plain text *)

(** Text that [jsonEsc] leaves alone. *)
Definition plain_text (v : str) : Prop := Forall (fun c => c <> DQUOTE /\ c <> BSLASH /\ 0x20 <= byte_val c) v.

Lemma plain_esc v : plain_text v -> jsonEsc v = v.
Proof.
  intros H. induction H as [| c v (Hd & Hb & Hc) _ IH]; [done |]. rewrite jsonEsc_cons, IH. unfold esc_char.
  assert (Hlow : c <> LF /\ c <> CR /\ c <> TAB).
  { split_conj; intros ->; revert Hc; vm_compute; intros Hc; by apply Hc. }
  destruct Hlow as (? & ? & ?). rewrite !decide_False by done. rewrite (proj2 (Z.ltb_ge _ _)) by done. done.
Qed.

Lemma plain_no_quote v : plain_text v -> DQUOTE ∉ v.
Proof. intros H Hin. unfold plain_text in H. rewrite Forall_forall in H. by destruct (H _ Hin). Qed.

Lemma toBase64url_text s : plain_text (toBase64url s).
Proof. eapply Forall_impl; [apply toBase64url_plain |]. cbv beta. intros c (? & ? & ?). split_conj; [done | done | lia]. Qed.

Lemma quoted_app v r : quoted v ++ r = DQUOTE :: v ++ DQUOTE :: r.
Proof. unfold quoted. cbn [app]. by rewrite <- app_assoc. Qed.

(** The reader takes back what was written, quotes and backslashes escaped. *)
Lemma value_body_esc v r : Forall (fun c => kept_char c && negb (bool_decide (c = TAB)) = true) v -> value_body (jsonEsc v ++ DQUOTE :: r) = Some v.
Proof.
  intros Hv. induction Hv as [| c v Hc _ IH]; [done |]. rewrite jsonEsc_cons, <- app_assoc.
  assert (E : forallb (fun c => implb (kept_char c && negb (bool_decide (c = TAB))) (match esc_char c with
      | [b; e] => bool_decide (b = BSLASH) && bool_decide (unescape e = c)
      | [b] => bool_decide (b = c) && negb (char_in [DQUOTE; BSLASH] c) | _ => false end)) all_bytes = true)
    by (vm_compute; reflexivity).
  pose proof (byte_forall _ E c) as H. cbv beta in H. rewrite Hc in H. cbn [implb] in H.
  destruct (esc_char c) as [| b [| e [| ? ?]]]; try done; bool_to_prop; subst; cbn [app value_body].
  - unfold char_in in *. bool_to_prop. rewrite !not_elem_of_cons in *. by rewrite !decide_False, IH by tauto.
  - rewrite decide_False by done. by rewrite decide_True, IH by done.
Qed.

Definition readable (v : str) : Prop := Forall (fun c => kept_char c && negb (bool_decide (c = TAB)) = true) v.

Lemma plain_readable v : plain_text v -> readable v.
Proof.
  intros H. eapply Forall_impl; [exact H |]. cbv beta. intros c (_ & _ & Hc).
  rewrite andb_true_iff, negb_true_iff, bool_decide_eq_false. split; [| by intros ->].
  unfold kept_char. apply orb_true_iff. left. by apply Z.leb_le.
Qed.

(** A member of a flat object is read back. *)
Lemma jsonGetStr_field fs k v tail :
  object_ok fs -> (k, JStr v) ∈ fs -> readable v -> jsonGetStr (object_text fs tail) k = v.
Proof.
  intros Hok Hin Hv. apply scan_object; try done.
  - intros d r [-> | ->]; done.
  - intros d r [-> | ->]; done.
  - intros d r. unfold key_value. cbn [trim_front]. change (key_pad ":") with true. change (key_pad DQUOTE) with false. cbv iota.
    by rewrite decide_True, value_body_esc by done.
Qed.

(** ** Lemmas: braces *)

Definition prepend (l : str) (p : str * str) : str * str := (l ++ p.1, p.2).

Lemma prepend_app l k p : prepend l (prepend k p) = prepend (l ++ k) p.
Proof. unfold prepend. cbn. by rewrite app_assoc. Qed.

Lemma prepend_nil p : p = prepend [] p.
Proof. by destruct p. Qed.

Lemma match_brace_cons d i p c s :
  let i' := if bool_decide (c = DQUOTE) && negb (bool_decide (p = BSLASH)) then negb i else i in
  i' = true \/ (c <> "{"%char /\ c <> "}"%char) ->
  match_brace d i p (c :: s) = prepend [c] (match_brace d i' c s).
Proof.
  cbv zeta. intros H. cbn [match_brace]. destruct (if bool_decide (c = DQUOTE) && _ then negb i else i) eqn:E.
  - cbn [negb andb]. by destruct (match_brace _ _ _ s).
  - destruct H as [H | [H1 H2]]; [congruence |]. rewrite !decide_False by done. rewrite (bool_decide_false (c = "}"%char)) by done.
    cbn [negb andb]. by destruct (match_brace _ _ _ s).
Qed.

(** Through a string body and its closing quote. *)
Lemma match_brace_body d v p r :
  plain_text v -> p <> BSLASH -> match_brace d true p (v ++ DQUOTE :: r) = prepend (v ++ [DQUOTE]) (match_brace d false DQUOTE r).
Proof.
  intros Hv. revert p. induction Hv as [| c v (Hd & Hb & _) _ IH]; intros p Hp; cbn [app].
  - rewrite match_brace_cons; cbv zeta; rewrite (bool_decide_false (p = BSLASH)) by done; [done | by right].
  - rewrite match_brace_cons; cbv zeta; rewrite (bool_decide_false (c = DQUOTE)) by done; cbn [andb]; [| by left].
    by rewrite IH, prepend_app.
Qed.

Lemma match_brace_quoted d v p r :
  plain_text v -> p <> BSLASH -> match_brace d false p (quoted v ++ r) = prepend (quoted v) (match_brace d false DQUOTE r).
Proof.
  intros Hv Hp. rewrite quoted_app, match_brace_cons; cbv zeta; rewrite (bool_decide_false (p = BSLASH)) by done; [| by left].
  change (bool_decide (DQUOTE = DQUOTE) && negb false) with true. cbn [negb]. by rewrite match_brace_body, prepend_app.
Qed.

(** Through text without quotes, braces and backslashes. *)
Definition bare (l : str) : Prop := Forall (fun c => char_in [DQUOTE; BSLASH; "{"%char; "}"%char] c = false) l.

Lemma match_brace_bare d l p r :
  bare l -> p <> BSLASH -> exists p', p' <> BSLASH /\ match_brace d false p (l ++ r) = prepend l (match_brace d false p' r).
Proof.
  intros Hl. revert p. induction Hl as [| c l Hc _ IH]; intros p Hp; [exists p; split; [done | apply prepend_nil] |].
  unfold char_in in Hc. bool_to_prop. rewrite !not_elem_of_cons in Hc. destruct Hc as (H1 & H2 & H3 & H4 & _).
  destruct (IH c H2) as (p' & Hp' & E). exists p'. split; [done |]. cbn [app]. rewrite match_brace_cons; cbv zeta;
    rewrite (bool_decide_false (c = DQUOTE)) by done; cbn [andb]; [| by right]. by rewrite E, prepend_app.
Qed.

(** A field, then the rest of the object. *)
Definition field_plain (f : str * jvalue) : Prop :=
  plain_text f.1 /\ match f.2 with JStr v => plain_text v | JRaw r => bare r end.

Lemma match_brace_field d f p r :
  field_plain f -> p <> BSLASH ->
  exists p', p' <> BSLASH /\ match_brace d false p (field_text f ++ r) = prepend (field_text f) (match_brace d false p' r).
Proof.
  destruct f as [k v]. unfold field_plain, field_text. cbn [fst snd]. intros [Hk Hv] Hp. rewrite <- app_assoc, match_brace_quoted by done.
  destruct (match_brace_bare d [":"%char] DQUOTE (value_text v ++ r)) as (p1 & Hp1 & E); [by repeat constructor | done |].
  cbn [app] in *. rewrite E. destruct v as [v | w]; cbn [value_text].
  - rewrite plain_esc, match_brace_quoted by done. exists DQUOTE. split; [done |]. rewrite !prepend_app. by rewrite <- app_assoc.
  - destruct (match_brace_bare d w p1 r Hv Hp1) as (p2 & Hp2 & ->). exists p2. split; [done |]. rewrite !prepend_app. by rewrite <- app_assoc.
Qed.

Lemma match_brace_fields fs p tail :
  Forall field_plain fs -> p <> BSLASH -> match_brace 1 false p (fields_text fs tail) = (fields_text fs [], tail).
Proof.
  intros Hf. revert p. induction Hf as [| f fs Hf Hfs IH]; intros p Hp; [by cbn |].
  destruct fs as [| f2 fs].
  - cbn [fields_text]. destruct (match_brace_field 1 f p ("}"%char :: tail) Hf Hp) as (p' & Hp' & ->). by cbn.
  - assert (E2 : forall t, fields_text (f :: f2 :: fs) t = field_text f ++ ","%char :: fields_text (f2 :: fs) t) by done. rewrite !E2.
    destruct (match_brace_field 1 f p (","%char :: fields_text (f2 :: fs) tail) Hf Hp) as (p1 & Hp1 & ->).
    destruct (match_brace_bare 1 [","%char] p1 (fields_text (f2 :: fs) tail)) as (p2 & Hp2 & E); [by repeat constructor | done |].
    cbn [app] in E. rewrite E, IH by done. rewrite prepend_app. unfold prepend. cbn [fst snd]. by rewrite <- app_assoc.
Qed.

Lemma match_brace_object fs tail :
  Forall field_plain fs -> match_brace 0 false NUL (object_text fs tail) = (object_text fs [], tail).
Proof.
  intros Hf. unfold object_text. cbn [match_brace]. change (bool_decide ("{"%char = DQUOTE)) with false. cbn [andb negb].
  rewrite decide_True by done. change (bool_decide ("{"%char = "}"%char)) with false. cbn [andb]. rewrite match_brace_fields by done. done.
Qed.

(** ** Lemmas: one credential *)

Definition cred_fields (c : PasskeyCredential) : list (str * jvalue) :=
  [("id" : str, JStr (credId c)); ("x" : str, JStr (pubkeyX c)); ("y" : str, JStr (pubkeyY c));
   ("sign_count" : str, JRaw (to_string (signCount c))); ("label" : str, JStr (label c))].

(** A non-empty value in base64url. *)
Definition url_text (v : str) : Prop := v <> [] /\ exists b, v = toBase64url b.

(** A credential as the server creates it, with a label that needs no escape. *)
Definition cred_ok (c : PasskeyCredential) : Prop :=
  url_text (credId c) /\ url_text (pubkeyX c) /\ url_text (pubkeyY c) /\ 0 <= signCount c < 2 ^ 32 /\ plain_text (label c).

Lemma url_plain v : url_text v -> plain_text v.
Proof. intros [_ [b ->]]. apply toBase64url_text. Qed.

Lemma cred_text_object c : cred_ok c -> cred_text c = "  " ++ object_text (cred_fields c) [].
Proof.
  intros (Hi & Hx & Hy & _ & Hl). unfold cred_text, object_text, cred_fields. cbn [fields_text].
  unfold field_text. cbn [fst snd value_text]. rewrite !plain_esc by (first [done | by apply url_plain]).
  unfold quoted. repeat (progress (rewrite <- ?app_assoc; cbn [list_ascii_of_string String.list_ascii_of_string app])). reflexivity.
Qed.

Lemma cred_object_ok c : cred_ok c -> object_ok (cred_fields c).
Proof.
  intros (Hi & Hx & Hy & Hn & Hl). split; [by apply (bool_decide_unpack _); vm_compute |].
  repeat (apply List.Forall_cons; [split; [by repeat constructor |]; cbn [snd value_ok]; try done |]); [| constructor].
  by apply to_string_no.
Qed.

Lemma cred_fields_plain c : cred_ok c -> Forall field_plain (cred_fields c).
Proof.
  intros (Hi & Hx & Hy & Hn & Hl). assert (Hid : forall k : str, forallb is_ident k = true -> plain_text k).
  { intros k Hk. apply forallb_Forall in Hk. eapply Forall_impl; [exact Hk |]. cbv beta. intros x Hxi.
    destruct (ident_char x Hxi) as (? & ? & _). split_conj; try done.
    assert (E : forallb (fun x => implb (is_ident x) (0x20 <=? byte_val x)) all_bytes = true) by (vm_compute; reflexivity).
    pose proof (byte_forall _ E x) as Hb. cbv beta in Hb. rewrite Hxi in Hb. by apply Z.leb_le. }
  repeat (apply List.Forall_cons; [split; [by apply Hid; vm_compute |]; cbn [snd]; try (by apply url_plain); try done |]); [| constructor].
  eapply Forall_impl; [apply to_string_digits |]. cbv beta. intros x Hxd.
  assert (E : forallb (fun x => implb (is_digit x) (negb (char_in [DQUOTE; BSLASH; "{"%char; "}"%char] x))) all_bytes = true) by (vm_compute; reflexivity).
  pose proof (byte_forall _ E x) as H. cbv beta in H. rewrite Hxd in H. by apply negb_true_iff in H.
Qed.

(** Past a string member whose key and value are both different. *)
Lemma find_key_skip k k2 v d r :
  ident k -> ident k2 -> k <> k2 -> plain_text v -> v <> k -> sep d ->
  find_str (quoted k) (field_text (k2, JStr v) ++ d :: r) =
    Nat.add (length (field_text (k2, JStr v))) <$> find_str (quoted k) (d :: r).
Proof.
  intros Hk Hk2 Hne Hp Hv Hd. unfold field_text. cbn [fst snd value_text]. rewrite plain_esc by done.
  assert (El : length (quoted k2 ++ ":"%char :: quoted v) = (1 + (length k2 + (1 + (1 + (1 + (length v + 1))))))%nat).
  { unfold quoted. rewrite !length_app. cbn [length]. rewrite !length_app. cbn [length]. lia. }
  rewrite El. rewrite <- app_assoc, quoted_app. cbn [app]. rewrite quoted_app.
  assert (Eq : quoted k = DQUOTE :: (k ++ [DQUOTE])) by done. rewrite Eq.
  rewrite find_quote_skip by (by apply ident_no_key). rewrite find_str_skip by (by apply ident_no_quote).
  rewrite find_quote_skip by (by apply colon_no_key). rewrite find_byte_skip by done. rewrite find_quote_skip.
  - rewrite find_str_skip by (by apply plain_no_quote). rewrite find_quote_skip by (by apply sep_no_key).
    rewrite !fmap_add. do 2 f_equal. lia.
  - destruct (starts_with _ _) eqn:E; [| done]. rewrite <- (plain_esc v) in E by done. apply esc_match in E; [| done].
    by rewrite plain_esc in E.
Qed.

Lemma url_not_count v : url_text v -> v <> "sign_count".
Proof.
  intros [_ [b ->]] E. assert (Hb : b = fromBase64url "sign_count") by (by rewrite <- E, base64url_roundtrip).
  rewrite Hb in E. vm_compute in E. discriminate.
Qed.

Lemma read_count_object c tail : cred_ok c -> read_count (object_text (cred_fields c) tail) = signCount c.
Proof.
  intros (Hi & Hx & Hy & Hn & Hl). unfold read_count, object_text, cred_fields. set (K := ("sign_count" : str)).
  assert (HK : ident K) by (by repeat constructor).
  assert (E2 : forall f f2 fs t, fields_text (f :: f2 :: fs) t = field_text f ++ ","%char :: fields_text (f2 :: fs) t) by done.
  rewrite !E2. set (rest := fields_text _ tail).
  assert (Hsep : sep ","%char) by (by left).
  assert (Ef : find_str (quoted K) ("{"%char :: field_text ("id" : str, JStr (credId c)) ++ ","%char :: field_text ("x" : str, JStr (pubkeyX c)) ++
      ","%char :: field_text ("y" : str, JStr (pubkeyY c)) ++ ","%char :: field_text (K, JRaw (to_string (signCount c))) ++ ","%char :: rest)
    = Some (length ("{"%char :: field_text ("id" : str, JStr (credId c)) ++ ","%char :: field_text ("x" : str, JStr (pubkeyX c)) ++
      ","%char :: field_text ("y" : str, JStr (pubkeyY c)) ++ [","%char]))).
  { change (quoted K) with (DQUOTE :: (K ++ [DQUOTE])). rewrite find_byte_skip by done. change (DQUOTE :: (K ++ [DQUOTE])) with (quoted K).
    repeat (rewrite find_key_skip by (first [done | by repeat constructor | by apply url_plain | by apply url_not_count]);
      change (quoted K) with (DQUOTE :: (K ++ [DQUOTE])); rewrite find_byte_skip by done; change (DQUOTE :: (K ++ [DQUOTE])) with (quoted K)).
    unfold field_text at 4. cbn [fst]. rewrite <- app_assoc, find_str_here, !fmap_add. cbn [fmap option_fmap option_map]. f_equal.
    cbn [length]. rewrite !length_app. cbn [length]. rewrite !length_app. cbn [length]. rewrite !length_app. cbn [length]. lia. }
  rewrite Ef. unfold substr_from.
  set (pre := "{"%char :: field_text ("id" : str, JStr (credId c)) ++ ","%char :: field_text ("x" : str, JStr (pubkeyX c)) ++
      ","%char :: field_text ("y" : str, JStr (pubkeyY c)) ++ [","%char]).
  assert (Es : "{"%char :: field_text ("id" : str, JStr (credId c)) ++ ","%char :: field_text ("x" : str, JStr (pubkeyX c)) ++
      ","%char :: field_text ("y" : str, JStr (pubkeyY c)) ++ ","%char :: field_text (K, JRaw (to_string (signCount c))) ++ ","%char :: rest
    = (pre ++ quoted K) ++ ":"%char :: to_string (signCount c) ++ ","%char :: rest).
  { unfold pre, field_text at 4. cbn [fst snd value_text app]. repeat (progress (rewrite <- ?app_assoc; cbn [app])). done. }
  rewrite Es, <- length_app, drop_app_length. cbn [trim_front]. change (count_pad ":") with true. cbv iota.
  assert (Et : trim_front count_pad (to_string (signCount c) ++ ","%char :: rest) = to_string (signCount c) ++ ","%char :: rest).
  { apply trim_front_id. pose proof (to_string_digits (signCount c)) as Hd. pose proof (to_string_nonempty (signCount c)) as Hne.
    destruct (to_string (signCount c)) as [| x s]; [done |]. inversion Hd as [| ? ? Hx']; subst. cbn.
    unfold count_pad, char_in. apply bool_decide_eq_false. rewrite !not_elem_of_cons.
    split; [by intros -> |]. split; [by intros -> | apply not_elem_of_nil]. }
  rewrite Et, stoull_to_string; [by apply u32_small | ulia | done].
Qed.

Lemma read_cred_object c tail : cred_ok c -> read_cred (object_text (cred_fields c) tail) = c.
Proof.
  intros Hc. pose proof (cred_object_ok c Hc) as Ho. pose proof Hc as (Hi & Hx & Hy & Hn & Hl). unfold read_cred.
  rewrite read_count_object by done.
  assert (Hk : forall k v, (k, JStr v) ∈ cred_fields c -> plain_text v -> jsonGetStr (object_text (cred_fields c) tail) k = v).
  { intros k v Hin Hv. apply (jsonGetStr_field _ k v); [done | done | by apply plain_readable]. }
  unfold cred_fields in *. rewrite (Hk "id" (credId c)), (Hk "x" (pubkeyX c)), (Hk "y" (pubkeyY c)), (Hk "label" (label c));
    try (by apply url_plain); try done; try (apply list_elem_of_In; cbn; tauto).
  by destruct c.
Qed.

(** ** Lemmas: the whole file *)

Lemma trim_pad pre s : forallb array_pad pre = true -> trim_front array_pad (pre ++ s) = trim_front array_pad s.
Proof.
  induction pre as [| c pre IH]; [done |]. cbn [forallb app trim_front]. rewrite andb_true_iff. intros [-> H]. by apply IH.
Qed.

Lemma load_creds fuel pre cs :
  Forall cred_ok cs -> forallb array_pad pre = true -> (length cs < fuel)%nat ->
  load_loop fuel (pre ++ creds_text cs ++ file_tail) = cs.
Proof.
  intros Hcs. revert fuel pre. induction Hcs as [| c cs Hc _ IH]; intros fuel pre Hp Hf; (destruct fuel as [| fuel]; [cbn in Hf; lia |]);
    cbn [load_loop]; rewrite trim_pad by done.
  - cbn. done.
  - assert (Et : exists sep, forallb array_pad sep = true /\ creds_text (c :: cs) ++ file_tail = cred_text c ++ sep ++ creds_text cs ++ file_tail).
    { destruct cs as [| c2 cs]; [by exists [] | exists [","%char; LF]; split; [done |]].
      change (creds_text (c :: c2 :: cs)) with (cred_text c ++ ","%char :: LF :: creds_text (c2 :: cs)). by rewrite <- app_assoc. }
    destruct Et as (sp & Hsp & ->). rewrite cred_text_object, <- app_assoc, trim_pad by done.
    set (rest := sp ++ creds_text cs ++ file_tail).
    assert (Eo : object_text (cred_fields c) [] ++ rest = object_text (cred_fields c) rest).
    { unfold object_text, cred_fields. assert (E2 : forall f f2 fs t, fields_text (f :: f2 :: fs) t = field_text f ++ ","%char :: fields_text (f2 :: fs) t) by done.
      rewrite !E2. cbn [fields_text app]. repeat (progress (rewrite <- ?app_assoc; cbn [app])). done. }
    rewrite Eo. unfold object_text at 1. cbn [trim_front]. change (array_pad "{") with false. cbv iota.
    rewrite decide_False, decide_True by done. change ("{"%char :: fields_text (cred_fields c) rest) with (object_text (cred_fields c) rest).
    rewrite match_brace_object by (by apply cred_fields_plain). rewrite read_cred_object by done.
    destruct Hc as ([Hi _] & [Hx _] & [Hy _] & _). rewrite !bool_decide_true by done. cbn [andb]. f_equal.
    apply IH; [done | cbn in Hf; lia].
Qed.

Lemma creds_text_length cs : (length cs <= length (creds_text cs))%nat.
Proof.
  induction cs as [| c cs IH]; [cbn; lia |]. destruct cs as [| c2 cs].
  - unfold creds_text, cred_text. rewrite length_app. cbn. lia.
  - change (creds_text (c :: c2 :: cs)) with (cred_text c ++ ","%char :: LF :: creds_text (c2 :: cs)). rewrite length_app. cbn [length] in *. lia.
Qed.

Lemma parse_saved cs : Forall cred_ok cs -> parse_credentials (file_head ++ creds_text cs ++ file_tail) = Some cs.
Proof.
  intros Hcs. unfold parse_credentials.
  set (h1 := "{" ++ quoted "version" ++ ":1," : str). set (body := creds_text cs ++ file_tail).
  assert (E : file_head ++ body = h1 ++ quoted "credentials" ++ ":"%char :: "["%char :: LF :: body) by done. rewrite E.
  assert (Ef : find_str (quoted "credentials") (h1 ++ quoted "credentials" ++ ":"%char :: "["%char :: LF :: body) = Some (length h1)).
  { change (find_str (quoted "credentials") (h1 ++ quoted "credentials" ++ ?x)) with
      (Nat.add (length h1) <$> find_str (quoted "credentials") (quoted "credentials" ++ x)). by rewrite find_str_here. }
  rewrite Ef. unfold find_char_from, substr_from. rewrite drop_app_length.
  change (find_char "[" (quoted "credentials" ++ ":"%char :: "["%char :: LF :: body)) with (Some 14%nat). cbn [fmap option_fmap option_map].
  f_equal. change (drop (S (length h1 + 14)) (h1 ++ quoted "credentials" ++ ":"%char :: "["%char :: LF :: body)) with (LF :: body).
  apply (load_creds _ [LF] cs Hcs eq_refl). unfold body. cbn [length]. rewrite length_app. pose proof (creds_text_length cs). lia.
Qed.

(** ** Properties *)

(** The passkey store survives a restart: what [saveCredentials] writes to a
    file that can be opened, [loadCredentials] reads back, in order and with
    every field, for every list of credentials as the server creates them
    (base64url identifiers and coordinates, a 32-bit sign count) whose labels
    need no JSON escape. *)
Lemma credentials_reload (credentialsFile : str) (cs old : list PasskeyCredential) (file : option str) :
  credentialsFile <> [] -> Forall cred_ok cs ->
  loadCredentials credentialsFile (saveCredentials credentialsFile true cs file) old = cs.
Proof.
  intros Hf Hcs. unfold loadCredentials, saveCredentials. rewrite !decide_False by done. cbn [negb]. by rewrite parse_saved.
Qed.

Definition sample_cred (l : str) : PasskeyCredential := mkCred (toBase64url "id") (toBase64url "x") (toBase64url "y") 7 l.

Lemma credentials_reload_witness :
  loadCredentials "keys.json" (saveCredentials "keys.json" true [sample_cred "phone {1}"; sample_cred "tablet"] None) []
  = [sample_cred "phone {1}"; sample_cred "tablet"].
Proof.
  apply credentials_reload; [done |].
  assert (Hok : forall l, plain_text l -> cred_ok (sample_cred l)).
  { intros l Hl. unfold cred_ok, sample_cred. cbn [credId pubkeyX pubkeyY signCount label].
    split_conj; try done; try (split; [done | by eexists]); lia. }
  repeat (apply List.Forall_cons; [apply Hok; repeat (apply List.Forall_cons; [by split_conj; vm_compute |]); constructor |]). constructor.
Defined.

(** A label is written as it is, so a label with quotes can close its object
    and add another: one saved credential loads as two. *)
Definition evil_label : str :=
  DQUOTE :: "},{" ++ quoted "id" ++ ":"%char :: quoted "ZXZpbA" ++ "," ++ quoted "x" ++ ":"%char :: quoted "eA"
  ++ "," ++ quoted "y" ++ ":"%char :: quoted "eQ" ++ "," ++ quoted "label" ++ ":"%char :: DQUOTE :: "z".

Lemma label_injection :
  loadCredentials "keys.json" (saveCredentials "keys.json" true [sample_cred evil_label] None) []
  = [sample_cred []; mkCred "ZXZpbA" "eA" "eQ" 0 "z"].
Proof. vm_compute. reflexivity. Qed.
