(* ===== verification/Updater.v ===== *)
(** The client's auto-updater ([updater.cpp]): the HTTPS requests over a
    sequence of TLS reads, one check, download, verify and apply cycle with
    its progress reports, the check-time file and the periodic loop. The
    trust decision is [Trust.verifyArtifactBytes]. OpenSSL's SHA-256 is a
    parameter; sockets, TLS and the results of file operations enter as
    arguments; the Linux branch is modelled. *)

From S2P Require Import Prelude CppString Trust Upgrade HttpUtil.
Local Open Scope Z_scope.

(** ** Connections *)

(** [NoConn]: the connection, the TLS handshake, the pin check or the request
    failed. [Conn]: the plaintext that arrives, record by record; an empty
    record stands for a read that returns no data. *)
Inductive Conn := NoConn | Established (records : list str).

(** [SSL_read] of at most [n] bytes; [None] when it returns 0 or less. *)
Definition ssl_recv (n : Z) (rs : list str) : option (str * list str) :=
  match rs with
  | [] | [] :: _ => None
  | r :: rs' => if Z.of_nat (length r) <=? n then Some (r, rs') else Some (take (Z.to_nat n) r, drop (Z.to_nat n) r :: rs')
  end.

(** The fuel of the read loops: every read takes at least one byte. *)
Definition read_fuel (rs : list str) : nat := S (length (concat rs)).

(* updater.cpp:255-265 sslRead, loop *)
Fixpoint ssl_read_loop (fuel : nat) (limit : Z) (rs : list str) (out : str) : str :=
  match fuel with
  | O => out
  | S fuel =>
      if limit <=? Z.of_nat (length out) then out
      else match ssl_recv 8192 rs with
           | None => out
           | Some (b, rs) => ssl_read_loop fuel limit rs (out ++ b)
           end
  end.

(** 2 MiB. *)
Definition kReadLimit : Z := 2 * 1024 * 1024.

(* updater.cpp:250-266 sslRead *)
Definition sslRead (rs : list str) : str := ssl_read_loop (read_fuel rs) kReadLimit rs [].

(* updater.cpp:312-337 httpsGet *)
Definition httpsGet (host : str) (c : Conn) : Z * str :=
  if negb (hasValidHostname host) then (0, [])
  else match c with
       | NoConn => (0, [])
       | Established rs => let resp := sslRead rs in (parseHttpStatus resp, parseHttpBody resp)
       end.

(** One byte at a time up to the blank line. *)
(* updater.cpp:363-375 httpsGetToFile, headers *)
Fixpoint read_headers (fuel : nat) (rs : list str) (headers : str) : str * list str :=
  match fuel with
  | O => (headers, rs)
  | S fuel =>
      match ssl_recv 1 rs with
      | None => (headers, rs)
      | Some (b, rs) =>
          let headers := headers ++ b in
          if (4 <=? length headers)%nat && bool_decide (drop (length headers - 4) headers = CRLFCRLF) then (headers, rs)
          else read_headers fuel rs headers
      end
  end.

Definition kAbsoluteMaxBytes : Z := 256 * 1024 * 1024.

(** [room]: bytes the disk still takes. The result is [true] for the end of
    the loop and [false] for its error returns, with the bytes in the file. *)
(* updater.cpp:386-407 httpsGetToFile, body *)
Fixpoint read_body (fuel : nat) (room : Z) (expectedSize : Z) (rs : list str) (written : str) : bool * str :=
  match fuel with
  | O => (true, written)
  | S fuel =>
      match ssl_recv 65536 rs with
      | None => (true, written)
      | Some (b, rs) =>
          if room <? Z.of_nat (length written + length b) then (false, written ++ take (Z.to_nat room - length written) b)
          else
            let written := written ++ b in
            let n := Z.of_nat (length written) in
            if kAbsoluteMaxBytes <? n then (false, written)
            else if (0 <? expectedSize) && (expectedSize <=? n) then (true, written)
            else read_body fuel room expectedSize rs written
      end
  end.

(** The disk: whether [fopen] succeeds, and the room left. *)
Record Disk := mkDisk { can_open : bool; room : Z }.

Definition kMaxHeaderBytes : nat := Z.to_nat 16384.

(** The HTTP status, and the file as the call leaves it. *)
(* updater.cpp:340-408 httpsGetToFile *)
Definition httpsGetToFile (host : str) (c : Conn) (d : Disk) (expectedSize : Z) (old : option str) : Z * option str :=
  if negb (hasValidHostname host) then (0, old)
  else match c with
       | NoConn => (0, old)
       | Established rs =>
           let (headers, rs) := read_headers kMaxHeaderBytes rs [] in
           let status := parseHttpStatus headers in
           if negb (status =? 200) then (status, old)
           else if negb (can_open d) then (0, old)
           else
             let (ok, body) := read_body (read_fuel rs) (room d) expectedSize rs [] in
             (if ok then 200 else 0, Some body)
       end.

(** ** Parameters and environment *)

(** OpenSSL's SHA-256: the 32 bytes of the digest. *)
Class Sha256 := { sha256_digest : str -> str }.
Class Sha256Laws (H : Sha256) := { digest_length s : length (sha256_digest s) = 32%nat }.

(* updater.cpp:414-443 sha256FileHex *)
Definition sha256FileHex `{Sha256} (file : option str) : option str :=
  (fun c => hexEncode (sha256_digest c)) <$> file.

(* updater.cpp:449-474 pubkeyHexFromPem *)
Definition pubkeyHexFromPem (identityPath : str) (raw : option str) : str :=
  if decide (identityPath = []) then [] else
  match raw with
  | Some k => if decide (length k = 32%nat) then hexEncode k else []
  | None => []
  end.

Definition kClientPlatform : str := "linux-amd64".
Definition kClientVersion : str := "2.0.0.0".

(* updater.hpp:17-18 UpdateTrigger *)
Inductive UpdateTrigger := Periodic | ServerPush.

(** The four callbacks, in call order. *)
(* updater.hpp:22-33 UpdateCallbacks *)
Inductive Event :=
  | OnStage (stage : str)
  | OnError (stage msg : str)
  | OnNoop (reason : str)
  | OnDone (new_version : str).

(** Everything a cycle meets outside the program. *)
Record Env := mkEnv {
  exeDir : str;                    (* empty: not found *)
  identityPath : str;
  identityKey : option str;        (* raw public key of the identity file *)
  server : str;
  check_conn : Conn; bin_conn : Conn; sig_conn : Conn;
  bin_disk : Disk; sig_disk : Disk;
  state_open : bool;               (* the check-time file can be written *)
  epochNow : Z;
  floor : Z;                       (* delegation version compiled in *)
  perms_ok : bool; rename_ok : bool; sig_rename_ok : bool;
  exec_replaces : bool             (* arguments saved and [execv] succeeds *)
}.

(** The disk by path, and the flag that serialises the cycles. *)
Record Upd := mkUpd { files : gmap str str; inProgress : bool }.

Definition statePath (dir : str) : str := dir ++ "/ntm-client.update-state".
Definition pendingPath (dir : str) : str := dir ++ "/ntm-client.pending".
Definition pendingSigPath (dir : str) : str := dir ++ "/ntm-client.pending.sig".
Definition targetPath (dir : str) : str := dir ++ "/ntm-client".
Definition targetSigPath (dir : str) : str := dir ++ "/ntm-client.sig".

(** ** The check-time file *)

Definition kLastCheck : str := "last_check=".

(** [std::stoll]: [None] for either exception. *)
Definition stoll (s : str) : option Z :=
  match strto_scan s with
  | None => None
  | Some (neg, ds, _) =>
      let v := if neg : bool then - dec_val 0 ds else dec_val 0 ds in
      if (v <? - 2 ^ 63) || (2 ^ 63 - 1 <? v) then None else Some v
  end.

(* updater.cpp:122-131 readLastCheck, lines *)
Fixpoint last_check_line (ls : list str) : Z :=
  match ls with
  | [] => 0
  | l :: ls =>
      if starts_with kLastCheck l then
        match stoll (substr_from l 11) with Some v => v | None => last_check_line ls end
      else last_check_line ls
  end.

(* updater.cpp:117-132 readLastCheck *)
Definition readLastCheck (dir : str) (fs : gmap str str) : Z :=
  match fs !! statePath dir with None => 0 | Some c => last_check_line (getlines c) end.

(* updater.cpp:134-139 writeLastCheck *)
Definition writeLastCheck (dir : str) (t : Z) (opens : bool) (fs : gmap str str) : gmap str str :=
  if opens then <[statePath dir := kLastCheck ++ print_int t ++ [LF]]> fs else fs.

(* updater.cpp:145-158 cleanupStaleFiles *)
Definition cleanupStaleFiles (dir : str) (fs : gmap str str) : gmap str str := delete (pendingPath dir) fs.

(** ** Applying *)

(** [rename]: moves the file, replacing the target. *)
Definition move (old new : str) (fs : gmap str str) : gmap str str :=
  match fs !! old with Some c => <[new := c]> (delete old fs) | None => fs end.

(* updater.cpp:480-503 applyUpdateLinux *)
Definition applyUpdateLinux (e : Env) (dir : str) (fs : gmap str str) : bool * gmap str str :=
  if negb (perms_ok e) then (false, fs)
  else if negb (rename_ok e) || negb (bool_decide (is_Some (fs !! pendingPath dir))) then (false, fs)
  else
    let fs := move (pendingPath dir) (targetPath dir) fs in
    (true, if sig_rename_ok e then move (pendingSigPath dir) (targetSigPath dir) fs else fs).

(** ** One cycle *)

Section Cycle.
Context `{CR : Crypto} `{SH : Sha256}.
Context (productionRoots : RootSet).

Definition kMaxUpdateBytes : Z := 64 * 1024 * 1024.

(** A cycle in progress: disk, events so far, and whether the process was
    replaced. *)
Record Outcome := mkOutcome { out_files : gmap str str; events : list Event; replaced : bool }.

Definition finish (fs : gmap str str) (evs : list Event) (e : Event) : Outcome := mkOutcome fs (evs ++ [e]) false.

(** [readVec]: a file that exists and is not empty. *)
(* updater.cpp:801-811 doOneCheckCycle, readVec *)
Definition readVec (fs : gmap str str) (p : str) : option str :=
  match fs !! p with Some [] => None | o => o end.

Definition discard (dir : str) (fs : gmap str str) : gmap str str :=
  delete (pendingSigPath dir) (delete (pendingPath dir) fs).

(* updater.cpp:837-906 doOneCheckCycle, applying *)
Definition apply_stage (e : Env) (dir newVer : str) (fs : gmap str str) (evs : list Event) : Outcome :=
  let evs := evs ++ [OnStage "applying"] in
  let (ok, fs) := applyUpdateLinux e dir fs in
  if negb ok then finish (delete (pendingPath dir) fs) evs (OnError "applying" "apply-failed")
  else
    let evs := evs ++ [OnStage "restarting"; OnDone newVer] in
    if exec_replaces e then mkOutcome fs evs true
    else finish fs evs (OnError "exec" "execv-failed").

(* updater.cpp:795-835 doOneCheckCycle, verifying_signature *)
Definition verify_stage (e : Env) (dir newVer : str) (fs : gmap str str) (evs : list Event) : Outcome :=
  let evs := evs ++ [OnStage "verifying_signature"] in
  match readVec fs (pendingPath dir), readVec fs (pendingSigPath dir) with
  | Some bin, Some sig =>
      match verifyArtifactBytes productionRoots bin sig kClientPlatform (acceptPolicy (epochNow e) (floor e)) with
      | Err err => finish (discard dir fs) evs (OnError "verifying_signature" err)
      | Ok _ => apply_stage e dir newVer fs evs
      end
  | _, _ => finish (discard dir fs) evs (OnError "verifying_signature" "io-read-error")
  end.

(* updater.cpp:767-793 doOneCheckCycle, downloading_signature *)
Definition signature_stage (e : Env) (dir newVer body : str) (fs : gmap str str) (evs : list Event) : Outcome :=
  let evs := evs ++ [OnStage "downloading_signature"] in
  let fs := delete (pendingSigPath dir) fs in
  let expectedSigSize := jsonInt body "sig_size" 0 in
  let '(status, file) := httpsGetToFile (server e) (sig_conn e) (sig_disk e)
                           (if 0 <? expectedSigSize then expectedSigSize else 10 * 1024 * 1024) None in
  let fs := match file with Some c => <[pendingSigPath dir := c]> fs | None => fs end in
  if negb (status =? 200) then finish (discard dir fs) evs (OnError "downloading_signature" ("http-" ++ print_int status))
  else verify_stage e dir newVer fs evs.

(* updater.cpp:728-765 doOneCheckCycle, binary *)
Definition binary_stage (e : Env) (dir newVer sha256 body : str) (size : Z) (fs : gmap str str) (evs : list Event) : Outcome :=
  let fs := delete (pendingPath dir) fs in
  let evs := evs ++ [OnStage "downloading_binary"] in
  let '(status, file) := httpsGetToFile (server e) (bin_conn e) (bin_disk e) size None in
  let fs := match file with Some c => <[pendingPath dir := c]> fs | None => fs end in
  if negb (status =? 200) then
    finish (delete (pendingPath dir) fs) evs (OnError "downloading_binary" ("http-" ++ print_int status))
  else
    let evs := evs ++ [OnStage "verifying_sha256"] in
    if decide (sha256FileHex (fs !! pendingPath dir) = Some sha256) then signature_stage e dir newVer body fs evs
    else finish (delete (pendingPath dir) fs) evs (OnError "verifying_sha256" "hash-mismatch").

(* updater.cpp:691-718 doOneCheckCycle, response *)
Definition response_stage (e : Env) (dir body : str) (fs : gmap str str) (evs : list Event) : Outcome :=
  if negb (jsonBool body "update_available" false) then finish fs evs (OnNoop "no_update_available")
  else
    let newVer := jsonStr body "version" in
    let sha256 := jsonStr body "sha256" in
    let size := jsonInt body "size" 0 in
    if bool_decide (newVer = []) || negb (length sha256 =? 64)%nat then finish fs evs (OnError "network" "malformed-check-response")
    else if kMaxUpdateBytes <? size then finish fs evs (OnError "network" "size-cap-exceeded")
    else binary_stage e dir newVer sha256 body size fs evs.

(* updater.cpp:642-689 doOneCheckCycle, check *)
Definition check_stage (trigger : UpdateTrigger) (e : Env) (fs : gmap str str) : Outcome :=
  let dir := exeDir e in
  if decide (dir = []) then finish fs [] (OnError "network" "cannot-determine-exe-dir")
  else if decide (pubkeyHexFromPem (identityPath e) (identityKey e) = []) then finish fs [] (OnError "network" "cannot-derive-pubkey")
  else
    let evs := [OnStage "checking"] in
    let '(status, body) := httpsGet (server e) (check_conn e) in
    let fs := match trigger with Periodic => writeLastCheck dir (epochNow e) (state_open e) fs | ServerPush => fs end in
    if status =? 0 then finish fs evs (OnError "network" "connection-error")
    else if negb (status =? 200) then finish fs evs (OnError "network" ("http-" ++ print_int status))
    else response_stage e dir body fs evs.

(** The flag is set on entry and cleared on every return; a replaced process
    does not return. *)
(* updater.cpp:616-908 doOneCheckCycle *)
Definition doOneCheckCycle (trigger : UpdateTrigger) (e : Env) (u : Upd) : Upd * Outcome :=
  if inProgress u then (u, mkOutcome (files u) [OnNoop "in_progress"] false)
  else let r := check_stage trigger e (files u) in (mkUpd (out_files r) false, r).

End Cycle.

(** ** The periodic loop *)

(** The random offset: two bytes modulo 3601. *)
(* updater.cpp:931-932 runUpdater, interval *)
Definition checkInterval (b0 b1 : Z) : Z := 82800 - Z.lor (Z.shiftl b0 8) b1 mod 3601.

(* updater.cpp:944-950 runUpdater, tick *)
Definition tick `{Crypto} `{Sha256} (roots : RootSet) (interval : Z) (e : Env) (u : Upd) : Upd * bool :=
  if epochNow e - readLastCheck (exeDir e) (files u) <? interval then (u, false)
  else ((doOneCheckCycle roots Periodic e u).1, true).

(** ** Lemmas: reads *)

Lemma ssl_recv_concat n rs b rs' :
  0 < n -> ssl_recv n rs = Some (b, rs') -> concat rs = b ++ concat rs' /\ b <> [].
Proof.
  intros Hn. destruct rs as [| [| c r] rs]; [done | done |]. cbn [ssl_recv].
  destruct (_ <=? n) eqn:E; intros [= <- <-]; cbn [concat]; [done |].
  split; [by rewrite app_assoc, take_drop |]. intros H%(f_equal length). rewrite length_take in H. cbn in H. lia.
Qed.

(** ** Lemmas: paths *)

Lemma app_path_ne (d a b : str) : a <> b -> d ++ a <> d ++ b.
Proof. intros H E. by apply app_inv_head in E. Qed.

Ltac path_ne := unfold statePath, pendingPath, pendingSigPath, targetPath, targetSigPath; apply app_path_ne; discriminate.

(** ** Reports *)

Section CycleProps.
Context `{CR : Crypto} `{SH : Sha256}.
Context (roots : RootSet).
Implicit Types (e : Env) (fs : gmap str str).

Definition kStages : list str :=
  ["checking" : str; "downloading_binary" : str; "verifying_sha256" : str; "downloading_signature" : str;
   "verifying_signature" : str; "applying" : str; "restarting" : str].

Definition stages_upto (n : nat) : list Event := OnStage <$> take n kStages.

(** The stages in order up to some point, then one verdict; a failed restart
    adds its error to the completion report. *)
Definition well_reported (evs : list Event) (rep : bool) : Prop :=
  exists n fin, evs = stages_upto n ++ fin /\
    ((exists r, fin = [OnNoop r] /\ (n <= 1)%nat /\ rep = false) \/
     (exists st m, fin = [OnError st m] /\ (n <= 6)%nat /\ rep = false) \/
     (exists v, n = 7%nat /\ ((fin = [OnDone v] /\ rep = true) \/ (fin = [OnDone v; OnError "exec" "execv-failed"] /\ rep = false)))).

Lemma reported_error n fs st m : (n <= 6)%nat ->
  well_reported (events (finish fs (stages_upto n) (OnError st m))) (replaced (finish fs (stages_upto n) (OnError st m))).
Proof. intros H. exists n, [OnError st m]. split; [done |]. right. left. eauto. Qed.

Lemma reported_noop n fs r : (n <= 1)%nat ->
  well_reported (events (finish fs (stages_upto n) (OnNoop r))) (replaced (finish fs (stages_upto n) (OnNoop r))).
Proof. intros H. exists n, [OnNoop r]. split; [done |]. left. eauto. Qed.

Lemma apply_reported e dir v fs :
  well_reported (events (apply_stage e dir v fs (stages_upto 5))) (replaced (apply_stage e dir v fs (stages_upto 5))).
Proof.
  unfold apply_stage. change (stages_upto 5 ++ [OnStage "applying"]) with (stages_upto 6).
  destruct (applyUpdateLinux e dir fs) as [[|] fs']; cbn [negb]; [| by apply reported_error].
  exists 7%nat. destruct (exec_replaces e).
  - exists [OnDone v]. split; [done |]. right. right. exists v. auto.
  - exists [OnDone v; OnError "exec" "execv-failed"]. split; [done |]. right. right. exists v. auto.
Qed.

Lemma verify_reported e dir v fs :
  well_reported (events (verify_stage roots e dir v fs (stages_upto 4))) (replaced (verify_stage roots e dir v fs (stages_upto 4))).
Proof.
  unfold verify_stage. change (stages_upto 4 ++ [OnStage "verifying_signature"]) with (stages_upto 5).
  destruct (readVec fs (pendingPath dir)) as [bin |]; [| by apply reported_error; lia].
  destruct (readVec fs (pendingSigPath dir)) as [sig |]; [| by apply reported_error; lia].
  destruct (verifyArtifactBytes _ _ _ _ _); [apply apply_reported | by apply reported_error; lia].
Qed.

Lemma signature_reported e dir v body fs :
  well_reported (events (signature_stage roots e dir v body fs (stages_upto 3))) (replaced (signature_stage roots e dir v body fs (stages_upto 3))).
Proof.
  unfold signature_stage. change (stages_upto 3 ++ [OnStage "downloading_signature"]) with (stages_upto 4).
  destruct (httpsGetToFile _ _ _ _ _) as [st file].
  destruct (st =? 200); cbn [negb]; [apply verify_reported | by apply reported_error; lia].
Qed.

Lemma binary_reported e dir v sha body size fs :
  well_reported (events (binary_stage roots e dir v sha body size fs (stages_upto 1)))
                (replaced (binary_stage roots e dir v sha body size fs (stages_upto 1))).
Proof.
  unfold binary_stage. change (stages_upto 1 ++ [OnStage "downloading_binary"]) with (stages_upto 2).
  change (stages_upto 2 ++ [OnStage "verifying_sha256"]) with (stages_upto 3).
  destruct (httpsGetToFile _ _ _ _ _) as [st file].
  destruct (st =? 200); cbn [negb]; [| by apply reported_error; lia].
  case_decide; [apply signature_reported | by apply reported_error; lia].
Qed.

Lemma check_reported trigger e fs :
  well_reported (events (check_stage roots trigger e fs)) (replaced (check_stage roots trigger e fs)).
Proof.
  unfold check_stage. case_decide; [by apply (reported_error 0); lia |].
  case_decide; [by apply (reported_error 0); lia |].
  change [OnStage "checking"] with (stages_upto 1). destruct (httpsGet _ _) as [st body].
  destruct (st =? 0); [by apply reported_error; lia |].
  destruct (st =? 200); cbn [negb]; [| by apply reported_error; lia].
  unfold response_stage. destruct (jsonBool _ _ _); cbn [negb]; [| by apply reported_noop].
  destruct (_ || _); [by apply reported_error; lia |].
  destruct (_ <? _); [by apply reported_error; lia |]. apply binary_reported.
Qed.

(** ** What a cycle does to the disk *)

Definition is_done (ev : Event) : bool := match ev with OnDone _ => true | _ => false end.
Definition reports_done (evs : list Event) : bool := existsb is_done evs.

(** The two files a download may leave behind without installing anything. *)
Definition scratch (dir p : str) : Prop := p = pendingPath dir \/ p = pendingSigPath dir.

(** Nothing but scratch files changed, and no completion was reported. *)
Definition untouched (dir : str) (fs : gmap str str) (r : Outcome) : Prop :=
  (forall p, ~ scratch dir p -> out_files r !! p = fs !! p) /\ reports_done (events r) = false.

(** The binary that passed the trust check is in place, its signature beside
    it unless that last rename failed, nothing else changed, and completion
    was reported. *)
Definition installed e (dir : str) (fs : gmap str str) (bin : str) (r : Outcome) : Prop :=
  (exists sig v,
     verifyArtifactBytes roots bin sig kClientPlatform (acceptPolicy (epochNow e) (floor e)) = Ok v /\
     out_files r !! targetPath dir = Some bin /\
     out_files r !! targetSigPath dir = (if sig_rename_ok e then Some sig else fs !! targetSigPath dir) /\
     out_files r !! pendingPath dir = None /\
     out_files r !! pendingSigPath dir = (if sig_rename_ok e then None else Some sig)) /\
  (forall p, ~ scratch dir p -> p <> targetPath dir -> p <> targetSigPath dir -> out_files r !! p = fs !! p) /\
  reports_done (events r) = true.

Lemma reports_done_app a b : reports_done (a ++ b) = reports_done a || reports_done b.
Proof. apply existsb_app. Qed.

Lemma finish_untouched dir fs0 fs evs ev :
  (forall p, ~ scratch dir p -> fs !! p = fs0 !! p) -> reports_done evs = false -> is_done ev = false ->
  untouched dir fs0 (finish fs evs ev).
Proof. intros Hp He Hv. split; [done |]. cbn. by rewrite reports_done_app, He; cbn; rewrite Hv. Qed.

Lemma scratch_insert dir p q c fs : scratch dir q -> ~ scratch dir p -> <[q := c]> fs !! p = fs !! p.
Proof. intros Hq Hp. apply lookup_insert_ne. by intros ->. Qed.

Lemma scratch_delete dir p q fs : scratch dir q -> ~ scratch dir p -> delete q fs !! p = fs !! p.
Proof. intros Hq Hp. apply lookup_delete_ne. by intros ->. Qed.

Lemma scratch_pending dir : scratch dir (pendingPath dir). Proof. by left. Qed.
Lemma scratch_pending_sig dir : scratch dir (pendingSigPath dir). Proof. by right. Qed.

Lemma target_not_scratch dir : ~ scratch dir (targetPath dir) /\ ~ scratch dir (targetSigPath dir) /\ ~ scratch dir (statePath dir).
Proof. split_conj; intros [H | H]; revert H; path_ne. Qed.

Hint Resolve scratch_pending scratch_pending_sig : core.

Lemma discard_kept dir p fs : ~ scratch dir p -> discard dir fs !! p = fs !! p.
Proof. intros Hp. unfold discard. by rewrite !(scratch_delete dir) by auto. Qed.

Lemma apply_disk e dir v fs evs bin sig vd :
  fs !! pendingPath dir = Some bin -> fs !! pendingSigPath dir = Some sig ->
  verifyArtifactBytes roots bin sig kClientPlatform (acceptPolicy (epochNow e) (floor e)) = Ok vd ->
  reports_done evs = false ->
  untouched dir fs (apply_stage e dir v fs evs) \/ installed e dir fs bin (apply_stage e dir v fs evs).
Proof.
  intros Hb Hs Hv He. unfold apply_stage, applyUpdateLinux.
  assert (Hun : untouched dir fs (finish (delete (pendingPath dir) fs) (evs ++ [OnStage "applying"]) (OnError "applying" "apply-failed"))).
  { apply finish_untouched; [| by rewrite reports_done_app, He | done]. intros p Hp. by apply (scratch_delete dir). }
  destruct (perms_ok e); cbn [negb]; [| by left].
  rewrite Hb, bool_decide_true by eauto. destruct (rename_ok e); cbn [negb orb]; [| by left]. right.
  set (fs1 := <[targetPath dir := bin]> (delete (pendingPath dir) fs)).
  assert (Em : move (pendingPath dir) (targetPath dir) fs = fs1) by (unfold move; by rewrite Hb). rewrite Em.
  assert (Hs1 : fs1 !! pendingSigPath dir = Some sig).
  { unfold fs1. rewrite lookup_insert_ne, lookup_delete_ne by path_ne. done. }
  assert (Ht1 : fs1 !! targetPath dir = Some bin) by apply lookup_insert_eq.
  assert (Hts : fs1 !! targetSigPath dir = fs !! targetSigPath dir).
  { unfold fs1. rewrite lookup_insert_ne, lookup_delete_ne by path_ne. done. }
  assert (Hk1 : forall p, ~ scratch dir p -> p <> targetPath dir -> fs1 !! p = fs !! p).
  { intros p Hp Hpt. unfold fs1. rewrite lookup_insert_ne by done. by apply (scratch_delete dir). }
  set (fs2 := if sig_rename_ok e then move (pendingSigPath dir) (targetSigPath dir) fs1 else fs1).
  assert (Ht2 : fs2 !! targetPath dir = Some bin).
  { unfold fs2, move. rewrite Hs1. destruct (sig_rename_ok e); [| done].
    rewrite lookup_insert_ne, lookup_delete_ne by path_ne. done. }
  assert (Hts2 : fs2 !! targetSigPath dir = if sig_rename_ok e then Some sig else fs !! targetSigPath dir).
  { unfold fs2, move. rewrite Hs1. destruct (sig_rename_ok e); [apply lookup_insert_eq | done]. }
  assert (Hp2 : fs2 !! pendingPath dir = None).
  { unfold fs2, move. rewrite Hs1. unfold fs1. destruct (sig_rename_ok e); rewrite ?lookup_insert_ne, ?lookup_delete_ne, ?lookup_insert_ne by path_ne; apply lookup_delete_eq. }
  assert (Hps2 : fs2 !! pendingSigPath dir = if sig_rename_ok e then None else Some sig).
  { unfold fs2, move. rewrite Hs1. destruct (sig_rename_ok e); [| exact Hs1]. rewrite lookup_insert_ne by path_ne. apply lookup_delete_eq. }
  assert (Hk2 : forall p, ~ scratch dir p -> p <> targetPath dir -> p <> targetSigPath dir -> fs2 !! p = fs !! p).
  { intros p Hp Hpt Hpts. rewrite <- (Hk1 p Hp Hpt). unfold fs2, move. rewrite Hs1. destruct (sig_rename_ok e); [| done].
    rewrite lookup_insert_ne by done. by apply (scratch_delete dir). }
  assert (Hi : forall r, out_files r = fs2 -> reports_done (events r) = true -> installed e dir fs bin r).
  { intros r Er Ev. split; [exists sig, vd | split; [| done]]; rewrite Er; auto 7. }
  cbv beta iota zeta. cbn [negb]. fold fs2. destruct (exec_replaces e); apply Hi; try done; unfold finish; cbn [events];
    by rewrite !reports_done_app, He.
Qed.

Definition disk_spec e (dir : str) (fs : gmap str str) (sha : str) (r : Outcome) : Prop :=
  untouched dir fs r \/ exists bin, sha256FileHex (Some bin) = Some sha /\ installed e dir fs bin r.

Lemma disk_spec_mono e dir fs fs' sha r :
  (forall p, ~ scratch dir p -> fs' !! p = fs !! p) -> disk_spec e dir fs' sha r -> disk_spec e dir fs sha r.
Proof.
  intros Hp [[Hk Hd] | (bin & Hs & ((sig & v & Hv & Ht & Hts & Hq) & Hk & Hd))].
  - left. split; [| done]. intros p Hn. rewrite Hk by done. by apply Hp.
  - right. exists bin. split; [done |]. split; [| split; [| done]].
    + exists sig, v. split; [done |]. split; [done |]. split; [| exact Hq]. rewrite Hts.
      destruct (sig_rename_ok e); [done |]. apply Hp, (target_not_scratch dir).
    + intros p Hn H1 H2. rewrite Hk by done. by apply Hp.
Qed.

Lemma readVec_lookup fs p c : readVec fs p = Some c -> fs !! p = Some c.
Proof. unfold readVec. destruct (fs !! p) as [[| ? ?] |]; congruence. Qed.

Lemma verify_disk e dir v fs evs sha :
  sha256FileHex (fs !! pendingPath dir) = Some sha -> reports_done evs = false ->
  disk_spec e dir fs sha (verify_stage roots e dir v fs evs).
Proof.
  intros Hsha He. unfold verify_stage.
  assert (Hev : reports_done (evs ++ [OnStage "verifying_signature"]) = false) by (by rewrite reports_done_app, He).
  assert (Hfail : forall msg, disk_spec e dir fs sha (finish (discard dir fs) (evs ++ [OnStage "verifying_signature"]) (OnError "verifying_signature" msg))).
  { intros msg. left. apply finish_untouched; [intros p; apply discard_kept | done | done]. }
  destruct (readVec fs (pendingPath dir)) as [bin |] eqn:Hb; [| apply Hfail].
  destruct (readVec fs (pendingSigPath dir)) as [sig |] eqn:Hs; [| apply Hfail].
  apply readVec_lookup in Hb, Hs.
  destruct (verifyArtifactBytes _ _ _ _ _) as [vd | err] eqn:Hv; [| apply Hfail].
  destruct (apply_disk e dir v fs _ bin sig vd Hb Hs Hv Hev) as [H | H]; [by left | right].
  exists bin. split; [by rewrite Hb in Hsha | done].
Qed.

Lemma insert_file_kept dir q (file : option str) fs p :
  scratch dir q -> ~ scratch dir p -> match file with Some c => <[q := c]> fs | None => fs end !! p = fs !! p.
Proof. intros Hq Hp. destruct file; [by apply (scratch_insert dir) | done]. Qed.

Lemma signature_disk e dir v body fs evs sha :
  sha256FileHex (fs !! pendingPath dir) = Some sha -> reports_done evs = false ->
  disk_spec e dir fs sha (signature_stage roots e dir v body fs evs).
Proof.
  intros Hsha He. unfold signature_stage. destruct (httpsGetToFile _ _ _ _ _) as [st file].
  set (fs1 := match file with Some c => <[pendingSigPath dir := c]> (delete (pendingSigPath dir) fs) | None => delete (pendingSigPath dir) fs end).
  assert (Hk : forall p, ~ scratch dir p -> fs1 !! p = fs !! p).
  { intros p Hp. unfold fs1. rewrite (insert_file_kept dir) by auto. by apply (scratch_delete dir). }
  assert (Hpend : fs1 !! pendingPath dir = fs !! pendingPath dir).
  { unfold fs1. destruct file; rewrite ?lookup_insert_ne, lookup_delete_ne by path_ne; done. }
  assert (Hev : reports_done (evs ++ [OnStage "downloading_signature"]) = false) by (by rewrite reports_done_app, He).
  destruct (st =? 200); cbn [negb].
  - apply (disk_spec_mono e dir fs fs1); [done |]. apply verify_disk; [by rewrite Hpend | done].
  - left. apply finish_untouched; [| done | done]. intros p Hp. rewrite discard_kept by done. by apply Hk.
Qed.

Lemma binary_disk e dir v sha body size fs evs :
  reports_done evs = false -> disk_spec e dir fs sha (binary_stage roots e dir v sha body size fs evs).
Proof.
  intros He. unfold binary_stage. destruct (httpsGetToFile _ _ _ _ _) as [st file].
  set (fs1 := match file with Some c => <[pendingPath dir := c]> (delete (pendingPath dir) fs) | None => delete (pendingPath dir) fs end).
  assert (Hk : forall p, ~ scratch dir p -> fs1 !! p = fs !! p).
  { intros p Hp. unfold fs1. rewrite (insert_file_kept dir) by auto. by apply (scratch_delete dir). }
  assert (Hfail : forall evs' ev, reports_done evs' = false -> is_done ev = false -> disk_spec e dir fs sha (finish (delete (pendingPath dir) fs1) evs' ev)).
  { intros evs' ev Hev Hd. left. apply finish_untouched; [| done | done]. intros p Hp.
    rewrite (scratch_delete dir) by auto. by apply Hk. }
  destruct (st =? 200); cbn [negb].
  - case_decide as Hsha.
    + apply (disk_spec_mono e dir fs fs1); [done |]. apply signature_disk; [done |]. by rewrite !reports_done_app, He.
    + apply Hfail; [by rewrite !reports_done_app, He | done].
  - apply Hfail; [by rewrite reports_done_app, He | done].
Qed.

Lemma response_disk e dir body fs evs :
  reports_done evs = false -> disk_spec e dir fs (jsonStr body "sha256") (response_stage roots e dir body fs evs).
Proof.
  intros He. unfold response_stage.
  destruct (jsonBool _ _ _); cbn [negb]; [| left; by apply finish_untouched].
  destruct (_ || _); [left; by apply finish_untouched |].
  destruct (_ <? _); [left; by apply finish_untouched |]. by apply binary_disk.
Qed.

(** The files as a cycle finds them after the check-time file was written. *)
Definition stamped (trigger : UpdateTrigger) e fs : gmap str str :=
  match trigger with
  | Periodic =>
      if bool_decide (exeDir e = []) || bool_decide (pubkeyHexFromPem (identityPath e) (identityKey e) = []) then fs
      else writeLastCheck (exeDir e) (epochNow e) (state_open e) fs
  | ServerPush => fs
  end.

Lemma check_disk trigger e fs :
  disk_spec e (exeDir e) (stamped trigger e fs) (jsonStr (httpsGet (server e) (check_conn e)).2 "sha256") (check_stage roots trigger e fs).
Proof.
  unfold check_stage, stamped.
  case_decide as Hd; [rewrite bool_decide_true by done; left; apply finish_untouched; by destruct trigger |].
  rewrite bool_decide_false by done.
  case_decide as Hk; [rewrite bool_decide_true by done; left; apply finish_untouched; by destruct trigger |].
  rewrite bool_decide_false by done. cbn [orb].
  destruct (httpsGet _ _) as [st body]. cbn [snd].
  destruct (st =? 0); [left; by apply finish_untouched |].
  destruct (st =? 200); cbn [negb]; [| left; by apply finish_untouched]. by apply response_disk.
Qed.

Lemma stamped_other trigger e fs p : p <> statePath (exeDir e) -> stamped trigger e fs !! p = fs !! p.
Proof.
  intros Hp. unfold stamped, writeLastCheck. destruct trigger; [| done]. destruct (_ || _); [done |].
  destruct (state_open e); [by apply lookup_insert_ne | done].
Qed.

(** *** What an unsuccessful cycle leaves in the pending files *)

Definition is_stage (ev : Event) : bool := match ev with OnStage _ => true | _ => false end.
Definition stage_count (evs : list Event) : nat := length (filter (fun ev => is_stage ev = true) evs).

(** Before the first download nothing of the pending files is touched. Once the
    download has begun the pending binary is gone; the pending signature is as
    it was until its own download begins, gone when that or the verification
    fails, and a verified signature when the binary cannot be put in place. *)
Definition residue e (dir : str) (fs fs' : gmap str str) (stages : nat) : Prop :=
  if (stages <=? 1)%nat then fs' !! pendingPath dir = fs !! pendingPath dir /\ fs' !! pendingSigPath dir = fs !! pendingSigPath dir
  else fs' !! pendingPath dir = None /\
    if (stages <=? 3)%nat then fs' !! pendingSigPath dir = fs !! pendingSigPath dir
    else if (stages <=? 5)%nat then fs' !! pendingSigPath dir = None
    else exists bin sig v, fs' !! pendingSigPath dir = Some sig /\
      verifyArtifactBytes roots bin sig kClientPlatform (acceptPolicy (epochNow e) (floor e)) = Ok v.

Definition leaves e (dir : str) (fs : gmap str str) (r : Outcome) : Prop :=
  reports_done (events r) = false -> residue e dir fs (out_files r) (stage_count (events r)).

Lemma discard_gone dir fs : discard dir fs !! pendingPath dir = None /\ discard dir fs !! pendingSigPath dir = None.
Proof. unfold discard. split; [rewrite lookup_delete_ne by path_ne |]; apply lookup_delete_eq. Qed.

Lemma apply_leaves e dir v fs0 fs bin sig vd :
  fs !! pendingPath dir = Some bin -> fs !! pendingSigPath dir = Some sig ->
  verifyArtifactBytes roots bin sig kClientPlatform (acceptPolicy (epochNow e) (floor e)) = Ok vd ->
  leaves e dir fs0 (apply_stage e dir v fs (stages_upto 5)).
Proof.
  intros Hb Hs Hv Hd. unfold apply_stage, applyUpdateLinux in *.
  assert (Hun : residue e dir fs0 (delete (pendingPath dir) fs) 6).
  { split; [apply lookup_delete_eq |]. exists bin, sig, vd. split; [by rewrite lookup_delete_ne by path_ne | done]. }
  destruct (perms_ok e); cbn [negb] in *; [| exact Hun].
  rewrite Hb, bool_decide_true in * by eauto. destruct (rename_ok e); cbn [negb orb] in *; [| exact Hun].
  destruct (exec_replaces e); done.
Qed.

Lemma verify_leaves e dir v fs0 fs : leaves e dir fs0 (verify_stage roots e dir v fs (stages_upto 4)).
Proof.
  unfold verify_stage. change (stages_upto 4 ++ [OnStage "verifying_signature"]) with (stages_upto 5).
  assert (Hfail : forall msg, leaves e dir fs0 (finish (discard dir fs) (stages_upto 5) (OnError "verifying_signature" msg)))
    by (intros msg _; exact (discard_gone dir fs)).
  destruct (readVec fs (pendingPath dir)) as [bin |] eqn:Hb; [| apply Hfail].
  destruct (readVec fs (pendingSigPath dir)) as [sig |] eqn:Hs; [| apply Hfail]. apply readVec_lookup in Hb, Hs.
  destruct (verifyArtifactBytes _ _ _ _ _) as [vd | err] eqn:Hv; [by eapply apply_leaves | apply Hfail].
Qed.

Lemma signature_leaves e dir v body fs0 fs : leaves e dir fs0 (signature_stage roots e dir v body fs (stages_upto 3)).
Proof.
  unfold signature_stage. change (stages_upto 3 ++ [OnStage "downloading_signature"]) with (stages_upto 4).
  destruct (httpsGetToFile _ _ _ _ _) as [st file]. destruct (st =? 200); cbn [negb]; [apply verify_leaves |].
  intros _. apply discard_gone.
Qed.

Lemma binary_leaves e dir v sha body size fs : leaves e dir fs (binary_stage roots e dir v sha body size fs (stages_upto 1)).
Proof.
  unfold binary_stage. change (stages_upto 1 ++ [OnStage "downloading_binary"]) with (stages_upto 2).
  change (stages_upto 2 ++ [OnStage "verifying_sha256"]) with (stages_upto 3).
  destruct (httpsGetToFile _ _ _ _ _) as [st file].
  set (fs1 := match file with Some c => <[pendingPath dir := c]> (delete (pendingPath dir) fs) | None => delete (pendingPath dir) fs end).
  assert (Hs : delete (pendingPath dir) fs1 !! pendingSigPath dir = fs !! pendingSigPath dir)
    by (unfold fs1; destruct file; rewrite ?lookup_delete_ne, ?lookup_insert_ne, ?lookup_delete_ne by path_ne; done).
  assert (Hp : delete (pendingPath dir) fs1 !! pendingPath dir = None) by apply lookup_delete_eq.
  destruct (st =? 200); cbn [negb]; [| by intros _]. case_decide; [apply signature_leaves | by intros _].
Qed.

Lemma check_leaves trigger e fs : leaves e (exeDir e) fs (check_stage roots trigger e fs).
Proof.
  unfold check_stage. case_decide; [done |]. case_decide; [done |]. change [OnStage "checking"] with (stages_upto 1).
  destruct (httpsGet _ _) as [st body].
  set (fs1 := match trigger with Periodic => writeLastCheck (exeDir e) (epochNow e) (state_open e) fs | ServerPush => fs end).
  assert (K : forall p, scratch (exeDir e) p -> fs1 !! p = fs !! p).
  { intros p Hp. unfold fs1, writeLastCheck. destruct trigger; [| done]. destruct (state_open e); [| done].
    apply lookup_insert_ne. intros <-. by apply (target_not_scratch (exeDir e)). }
  assert (Z1 : forall evs ev, (stage_count (evs ++ [ev]) <= 1)%nat -> leaves e (exeDir e) fs (finish fs1 evs ev)).
  { intros evs ev Hn _. unfold residue. cbn [events finish out_files]. apply Nat.leb_le in Hn as ->. split; apply K; auto. }
  destruct (st =? 0); [by apply Z1; apply Nat.leb_le |]. destruct (st =? 200); cbn [negb]; [| by apply Z1; apply Nat.leb_le].
  unfold response_stage. destruct (jsonBool _ _ _); cbn [negb]; [| by apply Z1; apply Nat.leb_le].
  destruct (_ || _); [by apply Z1; apply Nat.leb_le |]. destruct (_ <? _); [by apply Z1; apply Nat.leb_le |].
  intros Hd. pose proof (binary_leaves e (exeDir e) (jsonStr body "version") (jsonStr body "sha256") body (jsonInt body "size" 0) fs1 Hd) as HB.
  unfold residue in *. rewrite !K in HB by auto. exact HB.
Qed.

(** C16: whatever the server sends and whichever file operation fails, a cycle
    of the updater changes nothing on disk but its check-time and pending
    files, or it replaces the client's binary by bytes that hash to the value
    the server announced and that passed the two-tier trust check together
    with the downloaded signature, and puts that signature beside them unless
    its rename fails; those bytes and signature also pass the startup
    self-check. It reports completion exactly in the second case. No download
    outlives its cycle: once the download stage is reported the pending binary
    is gone at the end, whether rejected or moved into place, and so is the
    pending signature, with two exceptions, both for verified signatures: a
    binary that cannot be put in place leaves its signature pending, and so
    does a rename of the signature that fails. The removals of the updater's
    own pending files are taken to succeed. *)
Theorem update_installs_verified trigger e (u : Upd) :
  inProgress u = false -> 0 <= floor e ->
  let dir := exeDir e in
  let sha := jsonStr (httpsGet (server e) (check_conn e)).2 "sha256" in
  let (u', r) := doOneCheckCycle roots trigger e u in
  let own p := scratch dir p \/ p = statePath dir in
  inProgress u' = false /\ files u' = out_files r /\
  ((forall p, ~ own p -> files u' !! p = files u !! p) /\ reports_done (events r) = false /\
   residue e dir (files u) (files u') (stage_count (events r)) \/
   exists bin sig v,
     sha256FileHex (Some bin) = Some sha /\
     verifyArtifactBytes roots bin sig kClientPlatform (acceptPolicy (epochNow e) (floor e)) = Ok v /\
     verifyArtifactBytes roots bin sig kClientPlatform startupPolicy = Ok v /\
     files u' !! targetPath dir = Some bin /\
     files u' !! targetSigPath dir = (if sig_rename_ok e then Some sig else files u !! targetSigPath dir) /\
     files u' !! pendingPath dir = None /\
     files u' !! pendingSigPath dir = (if sig_rename_ok e then None else Some sig) /\
     (forall p, ~ own p -> p <> targetPath dir -> p <> targetSigPath dir -> files u' !! p = files u !! p) /\
     reports_done (events r) = true).
Proof.
  intros Hi Hf. unfold doOneCheckCycle. rewrite Hi. cbn [files inProgress]. split; [done |]. split; [done |].
  pose proof (check_disk trigger e (files u)) as H. destruct H as [[Hk Hd] | (bin & Hs & ((sig & v & Hv & Ht & Hts & Hp & Hps) & Hk & Hd))].
  - left. split; [| split; [done | by apply check_leaves]]. intros p Hp. rewrite Hk by tauto. apply stamped_other. tauto.
  - right. exists bin, sig, v. split_conj; try done.
    + by apply (accepted_starts bin sig kClientPlatform roots (epochNow e) (floor e)).
    + rewrite Hts, stamped_other by path_ne. done.
    + intros p Hown H1 H2. rewrite Hk by tauto. apply stamped_other. tauto.
Qed.

(** Every cycle ends and says how: the reports are the stages in their
    documented order up to some point, then exactly one verdict (no update,
    an error with its stage, or done after all seven stages); a failed
    restart adds its error after the completion report, and the process is
    replaced only after that report. A cycle that finds another one running
    changes nothing and says so. *)
Lemma update_reports_once trigger e (u : Upd) :
  let (u', r) := doOneCheckCycle roots trigger e u in
  if inProgress u then u' = u /\ events r = [OnNoop "in_progress"] /\ replaced r = false
  else well_reported (events r) (replaced r).
Proof.
  unfold doOneCheckCycle. destruct (inProgress u); [done |]. apply check_reported.
Qed.
End CycleProps.

(** ** The check-time file and the periodic loop *)

Lemma digits_ne_minus z s : to_string z <> "-"%char :: s.
Proof.
  intros E. pose proof (to_string_digits z) as H. rewrite E in H. inversion H as [| ? ? Hc]. done.
Qed.

Lemma stoll_print z : - 2 ^ 63 <= z < 2 ^ 63 -> stoll (print_int z) = Some z.
Proof.
  intros Hz. unfold stoll, print_int. destruct (Z.ltb_spec z 0).
  - assert (E : strto_scan ("-"%char :: to_string (- z)) = Some (true, to_string (- z), S (length (to_string (- z))))).
    { unfold strto_scan. cbn [span]. change (is_space "-") with false. cbv iota. rewrite decide_True by done.
      pose proof (span_app is_digit (to_string (- z)) [] (to_string_digits _) I) as Es. rewrite app_nil_r in Es. rewrite Es.
      pose proof (to_string_nonempty (- z)). destruct (to_string (- z)); [done |]. done. }
    rewrite E, to_string_val by lia. rewrite (proj2 (Z.ltb_ge _ _)), (proj2 (Z.ltb_ge _ _)) by lia. cbn [orb]. f_equal. lia.
  - pose proof (strto_scan_digits (to_string z) [] (to_string_digits _) (to_string_nonempty _) I) as E.
    rewrite app_nil_r in E. rewrite E, to_string_val by lia.
    by rewrite (proj2 (Z.ltb_ge _ _)), (proj2 (Z.ltb_ge _ _)) by lia.
Qed.

Lemma print_int_noLF z : LF ∉ print_int z.
Proof.
  unfold print_int. destruct (z <? 0); [rewrite not_elem_of_cons; split; [done |] |]; by apply to_string_no.
Qed.

Lemma read_write_last_check dir t fs :
  - 2 ^ 63 <= t < 2 ^ 63 -> readLastCheck dir (writeLastCheck dir t true fs) = t.
Proof.
  intros Ht. unfold readLastCheck, writeLastCheck. rewrite lookup_insert_eq. unfold getlines.
  rewrite app_assoc. assert (Hn : LF ∉ kLastCheck ++ print_int t).
  { rewrite not_elem_of_app. split; [by apply (bool_decide_unpack _); vm_compute | apply print_int_noLF]. }
  change [LF] with (LF :: []). rewrite split_lines_line by done. cbn [split_lines app last_check_line].
  rewrite starts_with_app. change 11%nat with (length kLastCheck). unfold substr_from. rewrite drop_app_length.
  by rewrite stoll_print.
Qed.

Section Periodic.
Context `{CR : Crypto} `{SH : Sha256}.
Context (roots : RootSet) (dir : str) (interval : Z).

(** The loop of [runUpdater] starts only with a known directory and key. *)
Definition usable (e : Env) : Prop :=
  exeDir e = dir /\ pubkeyHexFromPem (identityPath e) (identityKey e) <> [] /\ state_open e = true /\
  0 <= epochNow e < 2 ^ 63.

(** The times at which the ticks of a run started a cycle. *)
Fixpoint ticks (es : list Env) (u : Upd) : Upd * list Z :=
  match es with
  | [] => (u, [])
  | e :: es =>
      let (u1, ran) := tick roots interval e u in
      let (u2, ts) := ticks es u1 in
      (u2, if ran : bool then epochNow e :: ts else ts)
  end.

Definition last_check (u : Upd) : Z := readLastCheck dir (files u).

Lemma tick_spec e (u : Upd) :
  usable e -> dir <> [] -> inProgress u = false ->
  let (u', ran) := tick roots interval e u in
  inProgress u' = false /\
  ran = (interval <=? epochNow e - last_check u) /\
  last_check u' = (if ran then epochNow e else last_check u).
Proof.
  intros (Hd & Hk & Hs & Ht) Hne Hi. unfold tick, last_check. rewrite Hd.
  destruct (Z.ltb_spec (epochNow e - readLastCheck dir (files u)) interval) as [H | H].
  - by rewrite (proj2 (Z.leb_gt _ _)) by lia.
  - rewrite (proj2 (Z.leb_le _ _)) by lia. unfold doOneCheckCycle. rewrite Hi. cbn [fst files inProgress].
    split; [done |]. split; [done |].
    pose proof (check_disk roots Periodic e (files u)) as Hc. rewrite Hd in Hc.
    assert (E : out_files (check_stage roots Periodic e (files u)) !! statePath dir = stamped Periodic e (files u) !! statePath dir).
    { destruct (target_not_scratch dir) as (_ & _ & Hns).
      destruct Hc as [[Hc _] | (bin & _ & (_ & Hc & _))]; [by apply Hc |]. apply Hc; [done | path_ne | path_ne]. }
    unfold readLastCheck. rewrite E. unfold stamped. rewrite Hd, !bool_decide_false by done. cbn [orb]. rewrite Hs.
    apply (read_write_last_check dir (epochNow e) (files u)). lia.
Qed.

(** Consecutive entries at least [interval] apart, the first one that far
    after [t0]. *)
Fixpoint spaced (t0 : Z) (ts : list Z) : Prop :=
  match ts with [] => True | t :: ts => t0 + interval <= t /\ spaced t ts end.

(** The periodic updater neither floods nor forgets: however the cycles end,
    the times at which it contacts the server are at least the interval apart,
    counted from the time in the check-time file; and after every tick the
    last contact is less than the interval old, so a due check always runs. *)
Lemma periodic_checks es (u : Upd) :
  dir <> [] -> 0 < interval -> inProgress u = false -> Forall usable es ->
  let (u', ts) := ticks es u in
  spaced (last_check u) ts /\
  last_check u' = default (last_check u) (last ts) /\
  (forall e, last es = Some e -> epochNow e - last_check u' < interval).
Proof.
  intros Hd Hint Hi Hes. revert u Hi. induction Hes as [| e es He Hes IH]; intros u Hi; [done |].
  cbn [ticks]. pose proof (tick_spec e u He Hd Hi) as Ht. destruct (tick roots interval e u) as [u1 ran].
  destruct Ht as (Hi1 & Hran & Hl1). specialize (IH u1 Hi1).
  assert (Hnow : epochNow e - last_check u1 < interval).
  { rewrite Hl1, Hran. destruct (Z.leb_spec interval (epochNow e - last_check u)); lia. }
  assert (Hsnoc : forall x : Z, default x (last (epochNow e :: (ticks es u1).2)) = default (epochNow e) (last (ticks es u1).2)).
  { intros x. rewrite last_cons. by destruct (last (ticks es u1).2). }
  assert (Hle : ran = true -> last_check u + interval <= epochNow e) by (rewrite Hran, Z.leb_le; lia).
  assert (Hes0 : es = [] -> (ticks es u1).1 = u1) by (by intros ->).
  destruct (ticks es u1) as [u2 ts]. cbn [fst snd] in *. destruct IH as (Hsp & Hl & Hf). rewrite Hl1 in Hsp, Hl.
  split_conj.
  - destruct ran; [split; auto | done].
  - destruct ran; [by rewrite Hsnoc | done].
  - intros e' He'. rewrite last_cons in He'. destruct (last es) as [x |] eqn:El; [injection He' as <-; by apply Hf |].
    injection He' as <-. apply last_None in El. by rewrite (Hes0 El).
Qed.
End Periodic.

(** The interval is between 22 and 23 hours. *)
Lemma checkInterval_range b0 b1 : 79200 <= checkInterval b0 b1 <= 82800.
Proof. unfold checkInterval. pose proof (Z.mod_pos_bound (Z.lor (Z.shiftl b0 8) b1) 3601). lia. Qed.

(** ** Sample run *)

#[export] Instance sample_sha : Sha256 := { sha256_digest s := replicate 32 (hd NUL s) }.
#[export] Instance sample_sha_laws : Sha256Laws sample_sha.
Proof. split. intros s. apply length_replicate. Qed.

Definition sample_http (body : str) : Conn :=
  Established ["HTTP/1.1 200 OK" ++ [CR; LF] ++ "X: y" ++ CRLFCRLF; body].

Definition sample_check : str :=
  object_text [("update_available" : str, JRaw "true"); ("version" : str, JStr "2.1.0.0");
    ("sha256" : str, JStr (hexEncode (replicate 32 "b"%char))); ("sig_size" : str, JRaw "0")] [LF].

Definition sample_env : Env :=
  mkEnv "/opt/ntm" "id.pem" (Some (replicate 32 "k"%char)) "ntm.example.org"
    (sample_http sample_check) (sample_http "bin") (sample_http sample_sig)
    (mkDisk true 1000000) (mkDisk true 1000000) true 1800000000 7 true true true true.

Definition sample_upd : Upd := mkUpd {[ ("/opt/ntm/ntm-client" : str) := ("old" : str) ]} false.

Definition sample_outcome : Upd * Outcome := doOneCheckCycle sample_roots Periodic sample_env sample_upd.

Lemma sample_cycle :
  files sample_outcome.1 !! targetPath "/opt/ntm" = Some ("bin" : str) /\
  events sample_outcome.2 = stages_upto 7 ++ [OnDone "2.1.0.0"].
Proof. vm_compute. auto. Qed.

(** One cycle installs; with a download that hashes to something else it leaves
    nothing of it. *)
Definition rejected_env : Env :=
  mkEnv "/opt/ntm" "id.pem" (Some (replicate 32 "k"%char)) "ntm.example.org"
    (sample_http sample_check) (sample_http "other") (sample_http sample_sig)
    (mkDisk true 1000000) (mkDisk true 1000000) true 1800000000 7 true true true true.

Lemma update_installs_verified_witness :
  inProgress sample_outcome.1 = false /\ files sample_outcome.1 !! pendingPath "/opt/ntm" = None /\
  files (doOneCheckCycle sample_roots Periodic rejected_env sample_upd).1 !! pendingPath "/opt/ntm" = None.
Proof.
  pose proof (update_installs_verified sample_roots Periodic sample_env sample_upd eq_refl ltac:(done)) as H.
  pose proof (update_installs_verified sample_roots Periodic rejected_env sample_upd eq_refl ltac:(done)) as G.
  cbv zeta in H, G. unfold sample_outcome. assert (E : reports_done (events (doOneCheckCycle sample_roots Periodic sample_env sample_upd).2) = true) by (vm_compute; reflexivity).
  assert (E2 : stage_count (events (doOneCheckCycle sample_roots Periodic rejected_env sample_upd).2) = 3%nat) by (vm_compute; reflexivity).
  assert (E3 : reports_done (events (doOneCheckCycle sample_roots Periodic rejected_env sample_upd).2) = false) by (vm_compute; reflexivity).
  destruct (doOneCheckCycle _ _ sample_env _) as [u r]. destruct (doOneCheckCycle _ _ rejected_env _) as [u2 r2]. cbn [fst snd] in *.
  destruct H as (H1 & _ & [(_ & H & _) | (bin & sig & v & _ & _ & _ & _ & _ & H & _)]); [congruence |].
  destruct G as (_ & _ & [(_ & _ & G) | (b2 & s2 & v2 & _ & _ & _ & _ & _ & _ & _ & _ & G)]); [| congruence].
  unfold residue in G. rewrite E2 in G. cbn in G. destruct G as [G _]. split; [exact H1 | split; [exact H | exact G]].
Defined.

Lemma periodic_checks_witness :
  spaced 80000 0 (ticks sample_roots 80000 [sample_env] sample_upd).2.
Proof.
  assert (Hu : Forall (usable "/opt/ntm") [sample_env]).
  { constructor; [| constructor]. split; [done |]. split; [by vm_compute |]. split; [done |]. cbn. lia. }
  pose proof (periodic_checks sample_roots "/opt/ntm" 80000 [sample_env] sample_upd ltac:(done) ltac:(lia) eq_refl Hu) as H.
  destruct (ticks _ _ _ _) as [u ts]. destruct H as [H _]. exact H.
Defined.
