(* ===== verification/UpdaterWin.v ===== *)
(** The parts of the client's update that exist on Windows only
    ([updater.cpp]): the staging directory, the swap of the executable by
    [MoveFileExW], the test run of the new one and the way back. The results
    of the system calls are arguments. *)

From S2P Require Import Prelude CppString Updater.
From stdpp Require Import gmap list.
Local Open Scope Z_scope.

(** ** Places *)

(** [appdata]: the common data directory, when it is known and the staging
    directory exists or can be made. *)
(* updater.cpp:98-110 updateStagingDir *)
Definition updateStagingDir (appdata : option str) (exe_dir : str) : str :=
  match appdata with Some p => p ++ "\ntm-client\staging" | None => exe_dir end.

Definition exePath (dir : str) : str := dir ++ "/ntm-client.exe".
Definition exeSigPath (dir : str) : str := dir ++ "/ntm-client.exe.sig".
Definition oldPath (dir : str) : str := dir ++ "/ntm-client.exe.old".
Definition oldSigPath (dir : str) : str := dir ++ "/ntm-client.exe.sig.old".
Definition pendingExe (dir : str) : str := dir ++ "/ntm-client-pending.exe".

(* updater.cpp:145-158 cleanupStaleFiles *)
Definition cleanupStaleFiles_windows (dir staging : str) (fs : gmap str str) : gmap str str :=
  delete (oldPath dir) (delete (pendingExe staging) (delete (pendingExe dir) fs)).

(** ** The swap *)

(** A call of [MoveFileExW] with [MOVEFILE_REPLACE_EXISTING]: whether the
    system carries it out. The paths are widened byte by byte, so that only
    ASCII paths name the files the rest of the program uses. *)
Definition ascii_path (p : str) : bool := forallb (fun c => byte_val c <? 128) p.

Definition moveFileEx (ok : bool) (old new : str) (fs : gmap str str) : bool * gmap str str :=
  if ok && ascii_path old && ascii_path new && bool_decide (is_Some (fs !! old)) then (true, move old new fs) else (false, fs).

(** The five calls of the swap, and the query for the pending signature. *)
Record Swap := mkSwap { sw_away : bool; sw_in : bool; sw_back : bool; sw_sigSeen : bool; sw_sigAway : bool; sw_sigIn : bool }.

(* updater.cpp:513-555 applyUpdateWindows *)
Definition applyUpdateWindows (s : Swap) (installDir pending pendingSig : str) (fs : gmap str str) : bool * gmap str str :=
  let target := exePath installDir in
  let targetSig := exeSigPath installDir in
  let old := oldPath installDir in
  let oldSig := oldSigPath installDir in
  let (moved, fs) := moveFileEx (sw_away s) target old fs in
  if negb moved then (false, fs)
  else
    let (moved, fs) := moveFileEx (sw_in s) pending target fs in
    if negb moved then (false, (moveFileEx (sw_back s) old target fs).2)
    else if sw_sigSeen s && bool_decide (is_Some (fs !! pendingSig)) then
      let fs := (moveFileEx (sw_sigAway s) targetSig oldSig fs).2 in
      (true, (moveFileEx (sw_sigIn s) pendingSig targetSig fs).2)
    else (true, fs).

(** The test run: the process starts, it ends in time, its exit code. *)
Record TestRun := mkRun { tr_starts : bool; tr_ends : bool; tr_code : Z }.

(* updater.cpp:559-578 smokeTestNewBinary *)
Definition smokeTestNewBinary (t : TestRun) : bool :=
  if negb (tr_starts t) then false
  else let exitCode := if tr_ends t then tr_code t else 1 in tr_ends t && (exitCode =? 0).

(** [None]: the behaviour is undefined. The path of the old executable for the
    way back is made from the beginning of one temporary string and the end of
    another. *)
(* updater.cpp:841-886 doOneCheckCycle, applying on Windows *)
Definition apply_stage_windows (s : Swap) (t : TestRun) (dir pending pendingSig newVer : str) (fs : gmap str str) (evs : list Event) : option Outcome :=
  let evs := evs ++ [OnStage "applying"] in
  let (ok, fs) := applyUpdateWindows s dir pending pendingSig fs in
  if negb ok then Some (finish (delete pending fs) evs (OnError "applying" "apply-failed"))
  else if negb (smokeTestNewBinary t) then None
  else Some (mkOutcome fs (evs ++ [OnStage "restarting"; OnDone newVer]) true).

(** ** Lemmas *)

Lemma app_tail_ne (d a b : str) : a <> b -> d ++ a <> d ++ b.
Proof. by intros H E%app_inv_head. Qed.

Lemma places_apart dir : NoDup [exePath dir; exeSigPath dir; oldPath dir; oldSigPath dir].
Proof.
  unfold exePath, exeSigPath, oldPath, oldSigPath. rewrite !NoDup_cons, !not_elem_of_cons.
  split_conj; try (apply app_tail_ne; by vm_compute); try apply not_elem_of_nil. apply NoDup_nil_2.
Qed.

Lemma moveFileEx_spec ok old new fs : old <> new ->
  match moveFileEx ok old new fs with
  | (true, fs') => exists c, fs !! old = Some c /\ fs' = <[new := c]> (delete old fs)
  | (false, fs') => fs' = fs
  end.
Proof.
  intros Hne. unfold moveFileEx. destruct (_ && bool_decide _) eqn:E; [| done]. apply andb_true_iff in E as [_ E]. apply bool_decide_eq_true in E as [c E].
  exists c. split; [done |]. unfold move. by rewrite E.
Qed.

Lemma moveFileEx_done old new fs c : ascii_path old = true -> ascii_path new = true -> fs !! old = Some c ->
  moveFileEx true old new fs = (true, <[new := c]> (delete old fs)).
Proof. intros Ho Hn Hc. unfold moveFileEx, move. rewrite Ho, Hn, Hc. by rewrite bool_decide_eq_true_2 by by eexists. Qed.

(** A swap that is refused at its first step changes nothing, and one that is
    refused at its second is undone, unless the way back is refused as well. *)
Lemma swap_refused s dir pending pendingSig fs fs' : pending <> exePath dir ->
  applyUpdateWindows s dir pending pendingSig fs = (false, fs') ->
  sw_back s = true -> ascii_path (exePath dir) = true -> ascii_path (oldPath dir) = true ->
  fs' !! exePath dir = fs !! exePath dir /\ forall p, p <> exePath dir -> p <> oldPath dir -> fs' !! p = fs !! p.
Proof.
  intros Hp. unfold applyUpdateWindows. pose proof (places_apart dir) as Hd. rewrite !NoDup_cons, !not_elem_of_cons in Hd.
  destruct Hd as ((_ & Heo & _ & _) & _). intros H Hb Ha1 Ha2.
  pose proof (moveFileEx_spec (sw_away s) (exePath dir) (oldPath dir) fs Heo) as H1. destruct (moveFileEx (sw_away s) _ _ fs) as [[] f1]; cbn [negb] in H.
  2:{ injection H as <-. by subst. }
  destruct H1 as (c & Hc & ->). destruct (moveFileEx (sw_in s) pending _ _) as [[] f2] eqn:E2; cbn [negb] in H.
  { by destruct (_ && _). }
  pose proof (moveFileEx_spec (sw_in s) pending (exePath dir) (<[oldPath dir:=c]> (delete (exePath dir) fs)) Hp) as H2. rewrite E2 in H2. subst f2.
  injection H as <-. unfold moveFileEx. rewrite Hb, Ha1, Ha2, lookup_insert_eq. cbn [andb]. rewrite bool_decide_eq_true_2 by by eexists. cbn [snd].
  unfold move. rewrite lookup_insert_eq. split; [by rewrite lookup_insert_eq |]. intros p Hp1 Hp2.
  rewrite lookup_insert_ne, lookup_delete_ne, lookup_insert_ne, lookup_delete_ne by done. done.
Qed.

Local Ltac at_keys := repeat first [rewrite lookup_insert_eq | rewrite lookup_insert_ne by congruence | rewrite lookup_delete_eq | rewrite lookup_delete_ne by congruence].

(** A swap with every step carried out leaves the downloaded executable and
    its signature in place and keeps those they replace. *)
Lemma swap_done back dir pending pendingSig fs bin sig old oldSig :
  Forall (fun p => ascii_path p = true) [exePath dir; oldPath dir; exeSigPath dir; oldSigPath dir; pending; pendingSig] ->
  NoDup [exePath dir; exeSigPath dir; oldPath dir; oldSigPath dir; pending; pendingSig] ->
  fs !! pending = Some bin -> fs !! pendingSig = Some sig -> fs !! exePath dir = Some old -> fs !! exeSigPath dir = Some oldSig ->
  exists fs', applyUpdateWindows (mkSwap true true back true true true) dir pending pendingSig fs = (true, fs') /\
    fs' !! exePath dir = Some bin /\ fs' !! exeSigPath dir = Some sig /\ fs' !! oldPath dir = Some old /\ fs' !! oldSigPath dir = Some oldSig /\
    fs' !! pending = None /\ fs' !! pendingSig = None.
Proof.
  intros Ha Hd Hb Hs Ho Hos. rewrite !Forall_cons in Ha. destruct Ha as (A1 & A2 & A3 & A4 & A5 & A6 & _).
  rewrite !NoDup_cons, !not_elem_of_cons in Hd. destruct Hd as ((? & ? & ? & ? & ? & _) & (? & ? & ? & ? & _) & (? & ? & ? & _) & (? & ? & _) & (? & _) & _).
  unfold applyUpdateWindows. cbn [sw_away sw_in sw_sigSeen sw_sigAway sw_sigIn].
  rewrite (moveFileEx_done _ _ fs old) by done. cbn [negb]. rewrite (moveFileEx_done _ _ _ bin) by (done || (at_keys; done)). cbn [negb].
  rewrite bool_decide_eq_true_2 by (at_keys; by eexists). cbn [andb].
  rewrite (moveFileEx_done (exeSigPath dir) (oldSigPath dir) _ oldSig); [| done | done | at_keys; done]. cbn [snd]. rewrite (moveFileEx_done pendingSig (exeSigPath dir) _ sig); [| done | done | at_keys; done]. cbn [snd].
  eexists. split; [reflexivity |]. split_conj; at_keys; done.
Qed.

(** A new executable that does not start is never taken back by defined
    behaviour. *)
Lemma way_back_undefined s t dir pending pendingSig newVer fs evs :
  (applyUpdateWindows s dir pending pendingSig fs).1 = true -> tr_starts t = false ->
  apply_stage_windows s t dir pending pendingSig newVer fs evs = None.
Proof. intros H Ht. unfold apply_stage_windows, smokeTestNewBinary. rewrite Ht. destruct (applyUpdateWindows _ _ _ _ _) as [[] f]; done. Qed.

(** When the signature cannot be moved, the new executable stands beside the
    old signature, and the update counts as done. *)
Example signature_left_behind :
  let fs := <[pendingExe "S" := "new" : str]> (<[pendingExe "S" ++ ".sig" := "newsig" : str]> (<[exePath "I" := "old" : str]> {[exeSigPath "I" := "oldsig" : str]})) in
  let r := applyUpdateWindows (mkSwap true true true true false false) "I" (pendingExe "S") (pendingExe "S" ++ ".sig") fs in
  r.1 = true /\ r.2 !! exePath "I" = Some ("new" : str) /\ r.2 !! exeSigPath "I" = Some ("oldsig" : str).
Proof. by vm_compute. Qed.
