(* ===== verification/WebAuthn.v ===== *)
(** The passkey relying party and its session table ([webauthn.cpp],
    [WebAuthnRP]): authenticator data, the registration and authentication
    ceremonies, sessions with expiry and idle timeout, and the sweeper. Every
    operation runs under one mutex and is a function on the state; the clock
    readings and random bytes of an operation are its arguments. SHA-256 and
    ECDSA are OpenSSL's. *)

From S2P Require Import Prelude CppString HttpUtil Updater Cbor Base64Url Passkeys.
Local Open Scope Z_scope.

(** [ecdsa_verify spki msg sig]: [d2i_PUBKEY] loads the 91 bytes and
    [EVP_DigestVerify] with SHA-256 accepts. *)
Class P256 := { ecdsa_verify : str -> str -> str -> bool }.

(** ** State *)

(* webauthn.hpp:17-26 WebAuthnConfig *)
Record WebAuthnConfig := mkConfig {
  rpId : str; rpName : str; credentialsFile : str; iosAppId : str;
  allowedOrigins : list str; sessionTtlHours : Z; idleTimeoutMinutes : Z
}.

(** Points of the steady clock, in nanoseconds. *)
Definition minutes (n : Z) : Z := n * (60 * 10 ^ 9).
Definition hours (n : Z) : Z := n * (3600 * 10 ^ 9).

(* webauthn.hpp:104-110 Session *)
Record Session := mkSession { expiry : Z; lastActivity : Z; isAdmin : bool; identity : str }.

(** [PendingReg] and [PendingAuth]: the challenge and when it expires. The
    file is the content of the credentials file. *)
(* webauthn.hpp:91-116 WebAuthnRP *)
Record RP := mkRP {
  pendingRegs : gmap str (str * Z);
  pendingAuths : gmap str (str * Z);
  sessions : gmap str Session;
  credentials : list PasskeyCredential;
  file : option str
}.

Section RP.
Context `{SH : Sha256} `{EC : P256} (cfg : WebAuthnConfig).

Definition set_regs (f : gmap str (str * Z) -> gmap str (str * Z)) (w : RP) : RP :=
  mkRP (f (pendingRegs w)) (pendingAuths w) (sessions w) (credentials w) (file w).
Definition set_auths (f : gmap str (str * Z) -> gmap str (str * Z)) (w : RP) : RP :=
  mkRP (pendingRegs w) (f (pendingAuths w)) (sessions w) (credentials w) (file w).
Definition set_sessions (f : gmap str Session -> gmap str Session) (w : RP) : RP :=
  mkRP (pendingRegs w) (pendingAuths w) (f (sessions w)) (credentials w) (file w).

(** Replacing the credentials writes the file. *)
Definition set_credentials (opens : bool) (cs : list PasskeyCredential) (w : RP) : RP :=
  mkRP (pendingRegs w) (pendingAuths w) (sessions w) cs (saveCredentials (credentialsFile cfg) opens cs (file w)).

(** ** Sessions *)

(** Neither expired nor idle for too long. *)
(* webauthn.cpp:577-583 isValidSession, liveness *)
Definition live (now : Z) (s : Session) : bool :=
  negb (expiry s <? now) &&
  negb ((0 <? idleTimeoutMinutes cfg) && (lastActivity s + minutes (idleTimeoutMinutes cfg) <? now)).

Definition unexpired (now : Z) (p : str * Z) : bool := negb (p.2 <? now).

(* webauthn.cpp:855-870 sweepExpired *)
Definition sweepExpired (now : Z) (w : RP) : RP :=
  mkRP (filter (fun kv => unexpired now kv.2 = true) (pendingRegs w))
       (filter (fun kv => unexpired now kv.2 = true) (pendingAuths w))
       (filter (fun kv => live now kv.2 = true) (sessions w)) (credentials w) (file w).

Definition refreshed (now : Z) (s : Session) : Session := mkSession (expiry s) now (isAdmin s) (identity s).

(** The part that the three readers of a session share: drop it when dead,
    refresh it otherwise. *)
(* webauthn.cpp:621-635 getSessionInfo *)
Definition getSession (now : Z) (token : str) (w : RP) : RP * option Session :=
  match sessions w !! token with
  | None => (w, None)
  | Some s =>
      if live now s then (set_sessions <[token := refreshed now s]> w, Some s)
      else (set_sessions (delete token) w, None)
  end.

(* webauthn.cpp:572-586 isValidSession *)
Definition isValidSession (now : Z) (token : str) (w : RP) : RP * bool :=
  let (w, s) := getSession now token w in (w, bool_decide (is_Some s)).

(* webauthn.cpp:605-619 isAdminSession *)
Definition isAdminSession (now : Z) (token : str) (w : RP) : RP * bool :=
  let (w, s) := getSession now token w in (w, match s with Some s => isAdmin s | None => false end).

(* webauthn.cpp:588-592 invalidateSession *)
Definition invalidateSession (token : str) (w : RP) : RP := set_sessions (delete token) w.

(** Entering a session with a fresh token. *)
Definition issue (now : Z) (random : str) (admin : bool) (id : str) (w : RP) : RP * str :=
  let token := toBase64url random in
  (set_sessions <[token := mkSession (now + hours (sessionTtlHours cfg)) now admin id]> w, token).

(* webauthn.cpp:594-603 createIdentitySession *)
Definition createIdentitySession (t_sweep now : Z) (random id : str) (admin : bool) (w : RP) : RP * str :=
  issue now random admin id (sweepExpired t_sweep w).

(** ** Authenticator data *)

(* webauthn.cpp:317-329 extractAuthDataFromAttestationObject *)
Definition extractAuthData (attObj : str) : option str :=
  match parse kLevels attObj with
  | Some (MAP items, _) => match get_text "authData" (MAP items) with Some (BYTES b) => Some b | _ => None end
  | _ => None
  end.

(** 32 bytes under a key of the COSE map. *)
Definition coord (v : option Val) : option str :=
  match v with Some (BYTES b) => if (length b =? 32)%nat then Some b else None | _ => None end.

(* webauthn.cpp:331-359 extractCoseP256 *)
Definition extractCoseP256 (data : str) : option (str * str) :=
  match parse kLevels data with
  | Some (MAP items, _) =>
      let v := MAP items in
      match get_int 1 v, get_int 3 v, get_int (-1) v with
      | Some (UINT 2), Some alg, Some (UINT 1) =>
          if asInt alg =? -7 then
            let? x := coord (get_int (-2) v) in
            let? y := coord (get_int (-3) v) in Some (x, y)
          else None
      | _, _, _ => None
      end
  | _ => None
  end.

(** What the call leaves in its out-parameters, and its result. *)
Record AuthData := mkAuthData { ad_ok : bool; ad_credId : str; ad_key : str * str; ad_signCount : Z }.

Definition byte_at (s : str) (i : nat) : Z := byte_val (nth i s NUL).

(* webauthn.cpp:361-401 parseAuthData *)
Definition parseAuthData (authData : str) (expectAT : bool) : AuthData :=
  let fail := mkAuthData false [] ([], []) 0 in
  if (length authData <? 37)%nat then fail
  else if negb (bool_decide (take 32 authData = sha256_digest (rpId cfg))) then fail
  else
    let flags := byte_at authData 32 in
    if Z.land flags 0x01 =? 0 then fail
    else
      let count := be_val (take 4 (drop 33 authData)) in
      if Z.land flags 0x40 =? 0 then mkAuthData (negb expectAT) [] ([], []) count
      else if (length authData <? 37 + 16 + 2)%nat then mkAuthData false [] ([], []) count
      else
        let credIdLen := Z.to_nat (Z.lor (Z.shiftl (byte_at authData 53) 8) (byte_at authData 54)) in
        if (length authData <? 55 + credIdLen)%nat then mkAuthData false [] ([], []) count
        else
          let id := toBase64url (take credIdLen (drop 55 authData)) in
          match extractCoseP256 (drop (55 + credIdLen) authData) with
          | None => mkAuthData false id ([], []) count
          | Some key => mkAuthData true id key count
          end.

(* webauthn.cpp:414-421 verifyEcdsaP256, kSpkiPrefix *)
Definition kSpkiPrefix : str :=
  byte_of <$> [0x30; 0x59; 0x30; 0x13; 0x06; 0x07; 0x2A; 0x86; 0x48; 0xCE; 0x3D; 0x02; 0x01;
               0x06; 0x08; 0x2A; 0x86; 0x48; 0xCE; 0x3D; 0x03; 0x01; 0x07; 0x03; 0x42; 0x00; 0x04].

(* webauthn.cpp:407-441 verifyEcdsaP256 *)
Definition verifyEcdsaP256 (pubX pubY msg derSig : str) : bool :=
  if negb (length pubX =? 32)%nat || negb (length pubY =? 32)%nat || bool_decide (derSig = []) then false
  else ecdsa_verify (kSpkiPrefix ++ pubX ++ pubY) msg derSig.

(** ** Ceremonies *)

(** Without configured origins, the relying party's own. *)
(* webauthn.cpp:280-282 WebAuthnRP, origins *)
Definition origins : list str :=
  if decide (rpId cfg <> [] /\ allowedOrigins cfg = []) then ["https://" ++ rpId cfg] else allowedOrigins cfg.

(** Type, challenge and origin of the client data, or the message of the first
    check that fails. *)
(* webauthn.cpp:495-509 completeAuthentication, clientDataJSON *)
Definition check_client_data (type_msg ceremony challenge clientDataJsonB64 : str) : result str :=
  let cdJson := fromBase64url clientDataJsonB64 in
  let! _ := guard_err (bool_decide (cdJson <> [])) "bad clientDataJSON" in
  let! _ := guard_err (bool_decide (jsonGetStr cdJson "type" = ceremony)) type_msg in
  let! _ := guard_err (bool_decide (fromBase64url (jsonGetStr cdJson "challenge") = challenge)) "challenge mismatch" in
  let origin := jsonGetStr cdJson "origin" in
  let! _ := guard_err (bool_decide (origin ∈ origins)) ("origin not allowed: " ++ origin) in
  Ok cdJson.

(** The first credential with either identifier, and its position. *)
(* webauthn.cpp:523-533 completeAuthentication, credential *)
Definition find_cred (id1 id2 : str) (cs : list PasskeyCredential) : option (nat * PasskeyCredential) :=
  list_find (fun c => credId c = id1 \/ credId c = id2) cs.

Definition with_count (n : Z) (c : PasskeyCredential) : PasskeyCredential :=
  mkCred (credId c) (pubkeyX c) (pubkeyY c) n (label c).

(** The assertion against the stored key; the position and the new state of
    the credential. *)
(* webauthn.cpp:511-556 completeAuthentication, assertion *)
Definition check_assertion (cs : list PasskeyCredential) (credentialIdB64 authenticatorDataB64 signatureB64 cdJson : str)
    : result (nat * PasskeyCredential) :=
  let authData := fromBase64url authenticatorDataB64 in
  let ad := parseAuthData authData false in
  let id := if ad_ok ad then ad_credId ad else credentialIdB64 in
  match find_cred credentialIdB64 id cs with
  | None => Err "credential not found"
  | Some (i, stored) =>
      let! _ := guard_err (verifyEcdsaP256 (fromBase64url (pubkeyX stored)) (fromBase64url (pubkeyY stored))
                             (authData ++ sha256_digest cdJson) (fromBase64url signatureB64))
                  "signature verification failed" in
      let n := ad_signCount ad in
      let! _ := guard_err ((n =? 0) || (signCount stored <? n)) "sign count replay detected" in
      Ok (i, if n =? 0 then stored else with_count n stored)
  end.

(** [{"session_key":...,"challenge":...,"rp_id":...,] and the members behind. *)
Definition challenge_json (sessionKey challenge rest : str) : str :=
  "{" ++ quoted "session_key" ++ ":"%char :: quoted sessionKey ++ "," ++ quoted "challenge" ++ ":"%char :: quoted (toBase64url challenge)
  ++ "," ++ quoted "rp_id" ++ ":"%char :: quoted (rpId cfg) ++ rest.

Fixpoint id_list (cs : list PasskeyCredential) : str :=
  match cs with
  | [] => []
  | [c] => quoted (credId c)
  | c :: cs => quoted (credId c) ++ ","%char :: id_list cs
  end.

(** [r1], [r2]: the 32 bytes of the challenge and the 24 of the key. *)
(* webauthn.cpp:447-471 beginAuthentication *)
Definition beginAuthentication (t_sweep now : Z) (r1 r2 : str) (w : RP) : RP * (str * str) :=
  let sessionKey := toBase64url r2 in
  (set_auths <[sessionKey := (r1, now + minutes 5)]> (sweepExpired t_sweep w),
   (sessionKey, challenge_json sessionKey r1 ("," ++ quoted "credential_ids" ++ ":[" ++ id_list (credentials w) ++ "]}"))).

(** The pending entry is dropped on every path that finds it. *)
(* webauthn.cpp:473-566 completeAuthentication *)
Definition completeAuthentication (t_sweep t_check now : Z) (random : str) (opens : bool)
    (sessionKey credentialIdB64 authenticatorDataB64 clientDataJsonB64 signatureB64 : str) (w : RP) : RP * result str :=
  let w := sweepExpired t_sweep w in
  match pendingAuths w !! sessionKey with
  | None => (w, Err "invalid or expired session")
  | Some (challenge, exp) =>
      let dropped := set_auths (delete sessionKey) in
      if exp <? t_check then (dropped w, Err "session expired")
      else
        let r :=
          let! cdJson := check_client_data "type mismatch" "webauthn.get" challenge clientDataJsonB64 in
          check_assertion (credentials w) credentialIdB64 authenticatorDataB64 signatureB64 cdJson in
        match r with
        | Err m => (dropped w, Err m)
        | Ok (i, cred) =>
            let w := dropped (set_credentials opens (<[i := cred]> (credentials w)) w) in
            let (w, token) := issue now random false [] w in (w, Ok token)
        end
  end.

(* webauthn.cpp:753-773 beginAdminRegistration *)
Definition beginAdminRegistration (t_sweep now : Z) (r1 r2 r3 : str) (w : RP) : RP * (str * str) :=
  let sessionKey := toBase64url r2 in
  (set_regs <[sessionKey := (r1, now + minutes 5)]> (sweepExpired t_sweep w),
   (sessionKey, challenge_json sessionKey r1 ("," ++ quoted "rp_name" ++ ":"%char ::
      quoted (if decide (rpName cfg = []) then rpId cfg else rpName cfg)
      ++ "," ++ quoted "user_id" ++ ":"%char :: quoted (toBase64url r3) ++ "}"))).

(** The credential an attestation describes. *)
(* webauthn.cpp:810-831 completeAdminRegistration, attestation *)
Definition check_attestation (cs : list PasskeyCredential) (attestationObjectB64 lbl : str) : result PasskeyCredential :=
  let! authData := or_err (extractAuthData (fromBase64url attestationObjectB64)) "failed to parse attestationObject" in
  let ad := parseAuthData authData true in
  let! _ := guard_err (ad_ok ad) "authData validation failed" in
  let! _ := guard_err (forallb (fun c => negb (bool_decide (credId c = ad_credId ad))) cs) "credential already registered" in
  let (x, y) := ad_key ad in
  Ok (mkCred (ad_credId ad) (toBase64url x) (toBase64url y) (ad_signCount ad)
        (if decide (lbl = []) then ("My Device" : str) else lbl)).

(* webauthn.cpp:775-835 completeAdminRegistration *)
Definition completeAdminRegistration (t_sweep t_check : Z) (opens : bool)
    (sessionKey attestationObjectB64 clientDataJsonB64 lbl : str) (w : RP) : RP * result unit :=
  let w := sweepExpired t_sweep w in
  match pendingRegs w !! sessionKey with
  | None => (w, Err "invalid or expired session")
  | Some (challenge, exp) =>
      let dropped := set_regs (delete sessionKey) in
      if exp <? t_check then (dropped w, Err "session expired")
      else
        let r :=
          let! _ := check_client_data "clientDataJSON type mismatch" "webauthn.create" challenge clientDataJsonB64 in
          check_attestation (credentials w) attestationObjectB64 lbl in
        match r with
        | Err m => (dropped w, Err m)
        | Ok cred => (dropped (set_credentials opens (credentials w ++ [cred]) w), Ok tt)
        end
  end.

(** ** Listing and deletion *)

(* webauthn.cpp:738-747 deleteCredential *)
Definition deleteCredential (opens : bool) (id : str) (w : RP) : RP * bool :=
  match list_find (fun c => credId c = id) (credentials w) with
  | None => (w, false)
  | Some (i, _) => (set_credentials opens (take i (credentials w) ++ drop (S i) (credentials w)) w, true)
  end.

(* webauthn.cpp:841-849 aasaJson *)
Definition aasaJson : str :=
  if decide (iosAppId cfg = []) then []
  else "{" ++ quoted "webcredentials" ++ ":{" ++ quoted "apps" ++ ":[" ++ quoted (iosAppId cfg) ++ "]}}".

(** The state after construction. *)
(* webauthn.cpp:276-291 WebAuthnRP *)
Definition WebAuthnRP_init (f : option str) : RP :=
  mkRP ∅ ∅ ∅ (if decide (rpId cfg = []) then [] else loadCredentials (credentialsFile cfg) f []) f.

(** ** Traces *)

(** The operations with what each reads from the clock and the random
    generator; [OpSession] is any of the three readers. *)
Inductive Op :=
| OpBeginAuth (t_sweep t : Z) (r1 r2 : str)
| OpCompleteAuth (t_sweep t_check t : Z) (random : str) (opens : bool) (key cred ad cd sig : str)
| OpBeginReg (t_sweep t : Z) (r1 r2 r3 : str)
| OpCompleteReg (t_sweep t_check : Z) (opens : bool) (key att cd lbl : str)
| OpDelete (opens : bool) (id : str)
| OpIdentity (t_sweep t : Z) (random id : str) (admin : bool)
| OpSession (t : Z) (token : str)
| OpInvalidate (token : str)
| OpSweep (t : Z).

(** The next state and the token of a session that was entered. *)
Definition exec (op : Op) (w : RP) : RP * option str :=
  match op with
  | OpBeginAuth t0 t r1 r2 => ((beginAuthentication t0 t r1 r2 w).1, None)
  | OpCompleteAuth t0 t1 t r o k c a d s =>
      let (w, res) := completeAuthentication t0 t1 t r o k c a d s w in (w, match res with Ok tok => Some tok | Err _ => None end)
  | OpBeginReg t0 t r1 r2 r3 => ((beginAdminRegistration t0 t r1 r2 r3 w).1, None)
  | OpCompleteReg t0 t1 o k a d l => ((completeAdminRegistration t0 t1 o k a d l w).1, None)
  | OpDelete o id => ((deleteCredential o id w).1, None)
  | OpIdentity t0 t r id adm => let (w, tok) := createIdentitySession t0 t r id adm w in (w, Some tok)
  | OpSession t tok => ((getSession t tok w).1, None)
  | OpInvalidate tok => (invalidateSession tok w, None)
  | OpSweep t => (sweepExpired t w, None)
  end.

(** The clock readings of an operation, in order. *)
Definition times (op : Op) : list Z :=
  match op with
  | OpBeginAuth t0 t _ _ | OpBeginReg t0 t _ _ _ | OpIdentity t0 t _ _ _ => [t0; t]
  | OpCompleteAuth t0 t1 t _ _ _ _ _ _ _ => [t0; t1; t]
  | OpCompleteReg t0 t1 _ _ _ _ _ => [t0; t1]
  | OpSession t _ | OpSweep t => [t]
  | OpDelete _ _ | OpInvalidate _ => []
  end.

(** The readings never go back; the last one. *)
Fixpoint clock_from (t : Z) (ts : list Z) : Prop :=
  match ts with [] => True | t' :: ts => t <= t' /\ clock_from t' ts end.
Definition last_time (t : Z) (ts : list Z) : Z := foldl (fun _ t => t) t ts.

(** The states of a trace, with the token each operation entered. *)
Fixpoint run (ops : list Op) (w : RP) : RP * list (Op * option str) :=
  match ops with
  | [] => (w, [])
  | op :: ops => let (w, o) := exec op w in let (w, h) := run ops w in (w, (op, o) :: h)
  end.

(** ** Specification of the session table

    Nothing is ever removed because of its age: a session stays until it is
    revoked, and a reader decides from the record alone. *)

Definition spec_step (S : gmap str Session) (e : Op * option str) : gmap str Session :=
  match e with
  | (OpCompleteAuth _ _ t _ _ _ _ _ _ _, Some tok) => <[tok := mkSession (t + hours (sessionTtlHours cfg)) t false []]> S
  | (OpIdentity _ t _ id adm, Some tok) => <[tok := mkSession (t + hours (sessionTtlHours cfg)) t adm id]> S
  | (OpSession t tok, _) =>
      match S !! tok with Some s => if live t s then <[tok := refreshed t s]> S else S | None => S end
  | (OpInvalidate tok, _) => delete tok S
  | _ => S
  end.

Definition spec_lookup (now : Z) (tok : str) (S : gmap str Session) : option Session :=
  let? s := S !! tok in if live now s then Some s else None.

(** ** Lemmas: the session table *)

(** The implementation holds the specified sessions except dead ones. *)
Definition table_rel (t : Z) (S T : gmap str Session) : Prop :=
  forall tok, T !! tok = S !! tok \/ (T !! tok = None /\ forall s, S !! tok = Some s -> live t s = false).

Lemma live_mono t t' s : t <= t' -> live t s = false -> live t' s = false.
Proof.
  unfold live. rewrite !andb_false_iff, !negb_false_iff, !andb_true_iff, !Z.ltb_lt. intros Ht [H | [H1 H2]]; [left; lia | right; lia].
Qed.

Lemma table_later t t' S T : t <= t' -> table_rel t S T -> table_rel t' S T.
Proof. intros Ht H tok. destruct (H tok) as [E | [E D]]; [by left |]. right. split; [done |]. intros s Hs. eapply live_mono; eauto. Qed.

Lemma table_sweep t S T : table_rel t S T -> table_rel t S (filter (fun kv => live t kv.2 = true) T).
Proof.
  intros H tok. set (T' := filter _ T). destruct (T' !! tok) as [s |] eqn:E.
  - apply map_lookup_filter_Some in E as [Hs _]. left. destruct (H tok) as [Ht | [Ht _]]; congruence.
  - destruct (H tok) as [Ht | [_ D]]; [| by right]. right. split; [done |]. intros s Hs. rewrite Hs in Ht.
    apply map_lookup_filter_None in E as [E | E]; [congruence | apply not_true_is_false, (E s Ht)].
Qed.

Lemma table_insert t tok s S T : table_rel t S T -> table_rel t (<[tok := s]> S) (<[tok := s]> T).
Proof.
  intros H k. destruct (decide (tok = k)) as [-> | Hk]; [left; by rewrite !lookup_insert_eq | rewrite !lookup_insert_ne by done; apply H].
Qed.

Lemma table_delete t tok S T : table_rel t S T -> table_rel t (delete tok S) (delete tok T).
Proof.
  intros H k. destruct (decide (tok = k)) as [-> | Hk]; [left; by rewrite !lookup_delete_eq | rewrite !lookup_delete_ne by done; apply H].
Qed.

(** Dropping a dead session. *)
Lemma table_drop t tok s S T : table_rel t S T -> S !! tok = Some s -> live t s = false -> table_rel t S (delete tok T).
Proof.
  intros H Hs Hl k. destruct (decide (tok = k)) as [-> | Hk].
  - right. rewrite lookup_delete_eq. split; [done |]. intros s' Hs'. congruence.
  - rewrite lookup_delete_ne by done. apply H.
Qed.

Lemma get_session_spec t tok S w :
  table_rel t S (sessions w) ->
  (getSession t tok w).2 = spec_lookup t tok S /\
  table_rel t (spec_step S (OpSession t tok, None)) (sessions (getSession t tok w).1).
Proof.
  intros H. unfold getSession, spec_lookup. cbn [spec_step]. destruct (H tok) as [E | [E D]]; rewrite E.
  - destruct (S !! tok) as [s |] eqn:Es; [| done]. destruct (live t s) eqn:El; cbn [fst snd set_sessions sessions].
    + split; [done |]. by apply table_insert.
    + split; [done |]. by eapply table_drop.
  - destruct (S !! tok) as [s |] eqn:Es; [| done]. by rewrite (D s eq_refl).
Qed.

(** One operation: the tables stay related, at the operation's last reading. *)
Lemma exec_spec op w S t0 :
  table_rel t0 S (sessions w) -> clock_from t0 (times op) ->
  let (w', o) := exec op w in
  table_rel (last_time t0 (times op)) (spec_step S (op, o)) (sessions w').
Proof.
  intros H Ht. destruct op as [ts t r1 r2 | ts tc t r o k c a d sg | ts t r1 r2 r3 | ts tc o k a d l | o id | ts t r id adm | t tok | tok | t];
    cbn [times clock_from last_time foldl] in *.
  - apply (table_later ts t); [lia |]. apply table_sweep. by apply (table_later t0); [lia |].
  - assert (Hs : table_rel ts S (sessions (sweepExpired ts w))) by (apply table_sweep, (table_later t0); [lia | done]).
    assert (Hd : table_rel t S (sessions (sweepExpired ts w))) by (apply (table_later ts); [lia | done]).
    cbn [exec]. unfold completeAuthentication. destruct (pendingAuths _ !! k) as [[ch ex] |]; [| exact Hd].
    destruct (ex <? tc); [exact Hd |]. cbv zeta. destruct (check_client_data _ _ _ _) as [cj | m]; [| exact Hd].
    destruct (check_assertion _ _ _ _ _) as [[i cr] | m]; [| exact Hd]. by apply table_insert.
  - apply (table_later ts t); [lia |]. apply table_sweep. by apply (table_later t0); [lia |].
  - assert (Hd : table_rel tc S (sessions (sweepExpired ts w))) by (apply (table_later ts), table_sweep, (table_later t0); [lia | lia | done]).
    cbn [exec]. unfold completeAdminRegistration. destruct (pendingRegs _ !! k) as [[ch ex] |]; [| exact Hd].
    destruct (ex <? tc); [exact Hd |]. cbv zeta. destruct (check_client_data _ _ _ _) as [cj | m]; [| exact Hd].
    destruct (check_attestation _ _ _) as [cr | m]; exact Hd.
  - cbn [exec]. unfold deleteCredential. by destruct (list_find _ _) as [[i ?] |].
  - apply table_insert, (table_later ts), table_sweep, (table_later t0); [lia | lia | done].
  - apply get_session_spec, (table_later t0); [lia | done].
  - by apply table_delete.
  - apply table_sweep. by apply (table_later t0); [lia |].
Qed.

Lemma last_time_app t a b : last_time t (a ++ b) = last_time (last_time t a) b.
Proof. apply foldl_app. Qed.

Lemma clock_from_app t a b : clock_from t (a ++ b) <-> clock_from t a /\ clock_from (last_time t a) b.
Proof.
  revert t. induction a as [| x a IH]; intros t; cbn [app clock_from last_time foldl]; [tauto |].
  rewrite IH. unfold last_time. tauto.
Qed.

Lemma run_ops_spec ops w S t0 :
  table_rel t0 S (sessions w) -> clock_from t0 (concat (times <$> ops)) ->
  let (w', h) := run ops w in table_rel (last_time t0 (concat (times <$> ops))) (foldl spec_step S h) (sessions w').
Proof.
  revert w S t0. induction ops as [| op ops IH]; intros w S t0 H Ht; [exact H |]. cbn [run fmap list_fmap concat] in *.
  apply clock_from_app in Ht as [Ht1 Ht2]. rewrite last_time_app. pose proof (exec_spec op w S t0 H Ht1) as H1.
  destruct (exec op w) as [w1 o]. specialize (IH w1 _ _ H1 Ht2). destruct (run ops w1) as [w2 h]. exact IH.
Qed.

(** Administrator sessions come from identities. *)
Definition admin_from (seen : list Op) (S : gmap str Session) : Prop :=
  forall tok s, S !! tok = Some s -> isAdmin s = true ->
    exists ts t r id, OpIdentity ts t r id true ∈ seen /\ tok = toBase64url r /\ expiry s = t + hours (sessionTtlHours cfg).

Lemma admin_insert seen S tok s :
  admin_from seen S ->
  (isAdmin s = true -> exists ts t r id, OpIdentity ts t r id true ∈ seen /\ tok = toBase64url r /\ expiry s = t + hours (sessionTtlHours cfg)) ->
  admin_from seen (<[tok := s]> S).
Proof.
  intros H Hs k s' Hk Ha. apply lookup_insert_Some in Hk as [[-> ->] | [_ Hk]]; [by apply Hs | by apply (H k)].
Qed.

Lemma admin_step seen op w S :
  admin_from seen S -> op ∈ seen -> admin_from seen (spec_step S (op, (exec op w).2)).
Proof.
  intros H Hin. destruct op; try exact H.
  - cbn [exec]. destruct (completeAuthentication _ _ _ _ _ _ _ _ _ _ w) as [w' [tok | m]]; [| exact H].
    by apply admin_insert.
  - apply admin_insert; [done |]. cbn [isAdmin]. intros ->. by eexists _, _, _, _.
  - cbn [spec_step]. destruct (S !! token) as [s |] eqn:Es; [| exact H]. destruct (live t s); [| exact H].
    apply admin_insert; [done |]. cbn [isAdmin refreshed expiry]. intros Ha. by apply (H token).
  - intros k s' Hk Ha. cbn [spec_step] in Hk. apply lookup_delete_Some in Hk as [_ Hk]. by apply (H k).
Qed.

Lemma run_admin seen ops w S :
  admin_from seen S -> ops ⊆ seen -> admin_from seen (foldl spec_step S (run ops w).2).
Proof.
  revert w S. induction ops as [| op ops IH]; intros w S H Hin; [exact H |]. cbn [run].
  pose proof (admin_step seen op w S H ltac:(apply Hin; by left)) as H1. destruct (exec op w) as [w1 o].
  specialize (IH w1 _ H1 ltac:(intros x Hx; apply Hin; by right)). destruct (run ops w1) as [w2 h]. exact IH.
Qed.

Lemma readers_exact (f : option str) (t0 : Z) (ops : list Op) (now : Z) (tok : str) :
  clock_from t0 (concat (times <$> ops) ++ [now]) ->
  let (w, h) := run ops (WebAuthnRP_init f) in
  let S := foldl spec_step ∅ h in
  (getSession now tok w).2 = spec_lookup now tok S /\
  ((isAdminSession now tok w).2 = true ->
    exists ts t r id, OpIdentity ts t r id true ∈ ops /\ tok = toBase64url r /\ now <= t + hours (sessionTtlHours cfg)).
Proof.
  intros Ht. apply clock_from_app in Ht as [Ht [Hn _]].
  assert (H0 : table_rel t0 ∅ (sessions (WebAuthnRP_init f))) by (intros k; by left).
  pose proof (run_ops_spec ops _ ∅ t0 H0 Ht) as H. pose proof (run_admin ops ops (WebAuthnRP_init f) ∅ ltac:(by intros ?? ?%lookup_empty_Some) ltac:(done)) as Ha.
  destruct (run ops _) as [w h]. cbn [snd] in Ha. apply (table_later _ now) in H; [| done].
  destruct (get_session_spec now tok _ w H) as [E _]. split; [exact E |]. unfold isAdminSession.
  destruct (getSession now tok w) as [w' o]. cbn [snd] in E. subst o. unfold spec_lookup.
  destruct (foldl spec_step ∅ h !! tok) as [s |] eqn:Es; [| done]. destruct (live now s) eqn:El; [| done]. cbn [snd]. intros Hadm.
  destruct (Ha tok s Es Hadm) as (ts & t & r & id & Hin & Hr & He). exists ts, t, r, id. split_conj; try done.
  unfold live in El. bool_to_prop. lia.
Qed.

Lemma run_ops_snoc ops op w :
  run (ops ++ [op]) w = ((exec op (run ops w).1).1, (run ops w).2 ++ [(op, (exec op (run ops w).1).2)]).
Proof.
  revert w. induction ops as [| o ops IH]; intros w; cbn [app run].
  - cbn [fst snd app]. by destruct (exec op w).
  - destruct (exec o w) as [w1 x]. rewrite IH. by destruct (run ops w1).
Qed.

(** ** Properties *)

(** C31: the session table is exact. Whatever operations ran before on a clock
    that never goes back, a reader of a token sees what the specification
    records, in which sessions are never removed for their age: the session
    last entered under the token unless revoked, expired, or idle for too long
    between two uses; so lazy deletion and sweeping are invisible. And a token
    that passes as an administrator's was handed out for an administrator
    identity no longer ago than the time to live. *)
Theorem session_table_exact (f : option str) (t0 : Z) (ops : list Op) (now : Z) (tok : str) :
  clock_from t0 (concat (times <$> ops) ++ [now]) ->
  let (w, h) := run ops (WebAuthnRP_init f) in
  let S := foldl spec_step ∅ h in
  (getSession now tok w).2 = spec_lookup now tok S /\
  ((isAdminSession now tok w).2 = true ->
    exists ts t r id, OpIdentity ts t r id true ∈ ops /\ tok = toBase64url r /\ now <= t + hours (sessionTtlHours cfg)).
Proof. apply readers_exact. Qed.
End RP.
