(* ===== verification/Ceremony.v ===== *)
(** The passkey ceremonies end to end: what an authenticator and a browser send
    (reference definitions after the WebAuthn standard), and the theorems that
    the relying party of [WebAuthn] accepts it, and accepts only a signature
    over its own challenge by a registered key. *)

From S2P Require Import Prelude CppString HttpUtil Updater Cbor Base64Url Passkeys WebAuthn.
Local Open Scope Z_scope.

(** A P-256 key pair: its public point, its signatures, and that the verifier
    accepts them. *)
Record KeyPair `{P256} := mkKeyPair {
  point_x : str; point_y : str; key_sign : str -> str;
  point_size : length point_x = 32%nat /\ length point_y = 32%nat;
  sign_nonempty msg : key_sign msg <> [];
  sign_accepted msg : ecdsa_verify (kSpkiPrefix ++ point_x ++ point_y) msg (key_sign msg) = true
}.

Section Ceremony.
Context `{SH : Sha256} {SL : Sha256Laws SH} `{EC : P256} (cfg : WebAuthnConfig).

(** ** Authenticator and browser *)

Definition auth_data (flags count : Z) (attested : str) : str :=
  sha256_digest (rpId cfg) ++ byte_of flags :: be_bytes 4 count ++ attested.

Definition cose_key (x y : str) : Val :=
  MAP [UINT 1; UINT 2; UINT 3; NINT 6; NINT 0; UINT 1; NINT 1; BYTES x; NINT 2; BYTES y].

Definition attested (aaguid id x y : str) : str :=
  aaguid ++ be_bytes 2 (Z.of_nat (length id)) ++ id ++ encode (cose_key x y).

Definition attestation_object (ad : str) : str :=
  encode (MAP [TEXT "fmt"; TEXT "none"; TEXT "attStmt"; MAP []; TEXT "authData"; BYTES ad]).

Definition client_data (ceremony challenge origin : str) : str :=
  object_text [("type" : str, JStr ceremony); ("challenge" : str, JStr (toBase64url challenge));
               ("origin" : str, JStr origin); ("crossOrigin" : str, JRaw "false")] [].

(** User present, without and with attested data. *)
Definition flags_get (f : Z) : Prop := 0 <= f < 256 /\ Z.land f 0x01 <> 0 /\ Z.land f 0x40 = 0.
Definition flags_create (f : Z) : Prop := 0 <= f < 256 /\ Z.land f 0x01 <> 0 /\ Z.land f 0x40 <> 0.

(** ** Lemmas: client data *)

Lemma client_data_ok ceremony challenge origin :
  readable ceremony -> readable origin ->
  let cd := client_data ceremony challenge origin in
  jsonGetStr cd "type" = ceremony /\ jsonGetStr cd "challenge" = toBase64url challenge /\ jsonGetStr cd "origin" = origin.
Proof.
  intros Hc Ho cd. unfold cd, client_data. set (fs := [_; _; _; _]).
  assert (Hok : object_ok fs).
  { split; [by apply (bool_decide_unpack _); vm_compute |].
    repeat (apply List.Forall_cons; [split; [by repeat constructor |]; try done |]); [| constructor].
    by apply (bool_decide_unpack _); vm_compute. }
  split_conj; (apply (jsonGetStr_field fs); [done | apply list_elem_of_In; cbn; tauto |]); try done.
  apply plain_readable, toBase64url_text.
Qed.

Lemma check_client_data_ok msg ceremony challenge origin :
  readable ceremony -> readable origin -> origin ∈ origins cfg ->
  check_client_data cfg msg ceremony challenge (toBase64url (client_data ceremony challenge origin))
  = Ok (client_data ceremony challenge origin).
Proof.
  intros Hc Ho Hin. unfold check_client_data. rewrite base64url_roundtrip.
  destruct (client_data_ok ceremony challenge origin Hc Ho) as (-> & -> & ->). rewrite base64url_roundtrip.
  rewrite !bool_decide_true by done. done.
Qed.

(** The converse: what an accepted text says. *)
Lemma check_client_data_inv msg ceremony challenge b64 cd :
  check_client_data cfg msg ceremony challenge b64 = Ok cd ->
  cd = fromBase64url b64 /\ jsonGetStr cd "type" = ceremony /\
  fromBase64url (jsonGetStr cd "challenge") = challenge /\ jsonGetStr cd "origin" ∈ origins cfg.
Proof.
  unfold check_client_data, guard_err. repeat (case_bool_decide; [| done]). by intros [= <-].
Qed.

(** ** Lemmas: authenticator data *)

Lemma nth_skip {A} (l : list A) c r d n : length l = n -> nth n (l ++ c :: r) d = c.
Proof. intros <-. by rewrite nth_middle. Qed.

Section Layout.
Context (flags count : Z) (tail : str).
Hypothesis Hflags : 0 <= flags < 256.
Hypothesis Hcount : 0 <= count < 2 ^ 32.

Lemma auth_data_length : length (auth_data flags count tail) = (37 + length tail)%nat.
Proof. unfold auth_data. rewrite length_app. cbn [length]. rewrite length_app, digest_length, be_bytes_length. lia. Qed.

Lemma auth_data_hash : take 32 (auth_data flags count tail) = sha256_digest (rpId cfg).
Proof. unfold auth_data. apply take_length_app, digest_length. Qed.

Lemma auth_data_flags : byte_at (auth_data flags count tail) 32 = flags.
Proof. unfold byte_at, auth_data. rewrite nth_skip by apply digest_length. rewrite byte_val_of. by apply u8_small. Qed.

Lemma auth_data_drop : drop 33 (auth_data flags count tail) = be_bytes 4 count ++ tail.
Proof.
  unfold auth_data. rewrite cons_middle, app_assoc. apply drop_length_app. rewrite length_app, digest_length. done.
Qed.

Lemma auth_data_count : be_val (take 4 (drop 33 (auth_data flags count tail))) = count.
Proof. rewrite auth_data_drop, take_length_app by apply be_bytes_length. apply be_val_bytes. cbn. lia. Qed.

Lemma auth_data_tail : drop 37 (auth_data flags count tail) = tail.
Proof. change 37%nat with (33 + 4)%nat. rewrite <- drop_drop, auth_data_drop. apply drop_length_app, be_bytes_length. Qed.
End Layout.

Lemma parse_get_data flags count :
  flags_get flags -> 0 <= count < 2 ^ 32 -> parseAuthData cfg (auth_data flags count []) false = mkAuthData true [] ([], []) count.
Proof.
  intros (Hf & Hup & Hat) Hc. unfold parseAuthData. rewrite auth_data_length, auth_data_hash, auth_data_flags, auth_data_count by done.
  cbn [length Nat.add Nat.ltb Nat.leb]. rewrite bool_decide_true by done. cbn [negb].
  rewrite (proj2 (Z.eqb_neq _ _) Hup), (proj2 (Z.eqb_eq _ _) Hat). done.
Qed.

Lemma extract_cose x y : length x = 32%nat -> length y = 32%nat -> extractCoseP256 (encode (cose_key x y)) = Some (x, y).
Proof.
  intros Hx Hy. unfold extractCoseP256. rewrite <- (app_nil_r (encode _)), parse_encode.
  - assert (Ek : get_int 1 (cose_key x y) = Some (UINT 2) /\ get_int 3 (cose_key x y) = Some (NINT 6) /\
      get_int (-1) (cose_key x y) = Some (UINT 1) /\ get_int (-2) (cose_key x y) = Some (BYTES x) /\
      get_int (-3) (cose_key x y) = Some (BYTES y)) by (split_conj; reflexivity).
    destruct Ek as (E1 & E3 & E4 & E5 & E6). unfold cose_key in *. cbv zeta. rewrite E1, E3, E4, E5, E6.
    change (asInt (NINT 6) =? -7) with true. unfold coord. by rewrite Hx, Hy.
  - unfold cose_key. cbn. by rewrite Hx, Hy.
Qed.

Lemma parse_create_data flags count aaguid id x y :
  flags_create flags -> 0 <= count < 2 ^ 32 -> length aaguid = 16%nat -> Z.of_nat (length id) < 2 ^ 16 ->
  length x = 32%nat -> length y = 32%nat ->
  parseAuthData cfg (auth_data flags count (attested aaguid id x y)) true = mkAuthData true (toBase64url id) (x, y) count.
Proof.
  intros (Hf & Hup & Hat) Hc Ha Hid Hx Hy. set (tail := attested aaguid id x y). set (ad := auth_data flags count tail).
  assert (Hlen : length tail = (16 + (2 + (length id + length (encode (cose_key x y)))))%nat).
  { unfold tail, attested. rewrite !length_app, be_bytes_length. lia. }
  assert (Ed : forall n, drop (37 + n) ad = drop n tail) by (intros n; unfold ad; by rewrite <- drop_drop, auth_data_tail).
  assert (Eid : drop 16 tail = be_bytes 2 (Z.of_nat (length id)) ++ id ++ encode (cose_key x y)) by (by apply drop_length_app).
  assert (E2 : exists b0 b1, be_bytes 2 (Z.of_nat (length id)) = [b0; b1]).
  { pose proof (be_bytes_length 2 (Z.of_nat (length id))) as Hl. destruct (be_bytes 2 _) as [| b0 [| b1 [| ? ?]]]; try done. by exists b0, b1. }
  destruct E2 as (b0 & b1 & E2).
  assert (Ev : Z.lor (Z.shiftl (byte_val b0) 8) (byte_val b1) = Z.of_nat (length id)).
  { rewrite <- (be_val_bytes 2 (Z.of_nat (length id))), E2 by (cbn; lia). done. }
  assert (Eb : forall i, nth i (drop 53 ad) NUL = nth (53 + i) ad NUL) by (intros i; by rewrite nth_drop || (rewrite !nth_lookup, lookup_drop)).
  assert (E53 : drop 53 ad = b0 :: b1 :: id ++ encode (cose_key x y)).
  { change 53%nat with (37 + 16)%nat. by rewrite Ed, Eid, E2. }
  pose proof (auth_data_length flags count tail) as Hl. pose proof (auth_data_hash flags count tail) as Hh.
  pose proof (auth_data_flags flags count tail Hf) as Hfl. pose proof (auth_data_count flags count tail Hc) as Hct. fold ad in Hl, Hh, Hfl, Hct.
  unfold parseAuthData. rewrite Hh, Hfl, Hct. rewrite bool_decide_true by done.
  rewrite (proj2 (Z.eqb_neq _ _) Hup), (proj2 (Z.eqb_neq _ _) Hat). cbn [negb].
  assert (Hb0 : byte_at ad 53 = byte_val b0) by (unfold byte_at; rewrite <- (Eb 0%nat : _ = nth 53 ad NUL), E53; done).
  assert (Hb1 : byte_at ad 54 = byte_val b1) by (unfold byte_at; rewrite <- (Eb 1%nat : _ = nth 54 ad NUL), E53; done).
  rewrite Hb0, Hb1, Ev, Nat2Z.id. rewrite !(proj2 (Nat.ltb_ge _ _)) by lia.
  assert (E55 : drop 55 ad = id ++ encode (cose_key x y)) by (change 55%nat with (53 + 2)%nat; by rewrite <- drop_drop, E53).
  rewrite <- drop_drop, E55. by rewrite take_app_length, drop_app_length, extract_cose.
Qed.

Lemma extract_attestation ad :
  Z.of_nat (length ad) <= 65536 -> extractAuthData (attestation_object ad) = Some ad.
Proof.
  intros Hl. unfold extractAuthData, attestation_object. rewrite <- (app_nil_r (encode _)), parse_encode; [done |].
  cbn -[Z.leb Z.of_nat]. rewrite (proj2 (Z.leb_le _ 65536) Hl). done.
Qed.

(** ** Lemmas: acceptance *)

(** What an accepted assertion rests on. *)
Lemma check_assertion_inv cs id ad64 sig64 cd i cred :
  check_assertion cfg cs id ad64 sig64 cd = Ok (i, cred) ->
  exists stored n, cs !! i = Some stored /\
    verifyEcdsaP256 (fromBase64url (pubkeyX stored)) (fromBase64url (pubkeyY stored))
      (fromBase64url ad64 ++ sha256_digest cd) (fromBase64url sig64) = true /\
    ((n = 0 /\ cred = stored) \/ (n <> 0 /\ signCount stored < n /\ cred = with_count n stored)) /\
    n = ad_signCount (parseAuthData cfg (fromBase64url ad64) false).
Proof.
  unfold check_assertion. set (ad := parseAuthData _ _ _). destruct (find_cred _ _ cs) as [[j stored] |] eqn:Ef; [| done].
  unfold guard_err. destruct (verifyEcdsaP256 _ _ _ _) eqn:Ev; [| done]. destruct ((ad_signCount ad =? 0) || _) eqn:En; [| done].
  intros [= <- <-]. exists stored, (ad_signCount ad). apply list_find_Some in Ef as (Hj & _). split_conj; try done.
  apply orb_true_iff in En as [En | En]; bool_to_prop.
  - left. rewrite En. done.
  - destruct (Z.eqb_spec (ad_signCount ad) 0); [by left | by right].
Qed.

Lemma sweep_pending t w k : pendingAuths (sweepExpired cfg t w) !! k = None \/
  pendingAuths (sweepExpired cfg t w) !! k = pendingAuths w !! k.
Proof.
  cbn. set (m := filter _ _). destruct (m !! k) as [p |] eqn:E; [right | by left].
  by apply map_lookup_filter_Some in E as [-> _].
Qed.

(** A fresh pending entry survives the sweep while it lasts. *)
Lemma sweep_keeps (m : gmap str (str * Z)) t k c e :
  m !! k = Some (c, e) -> t <= e -> filter (fun kv => unexpired t kv.2 = true) m !! k = Some (c, e).
Proof.
  intros Hk Ht. apply map_lookup_filter_Some. split; [done |]. unfold unexpired. cbn. by rewrite (proj2 (Z.ltb_ge _ _)).
Qed.

(** ** Lemmas: the two ceremonies *)

Section Login.
Context (K : KeyPair) (aaguid id origin : str).
Hypothesis Haaguid : length aaguid = 16%nat.
Hypothesis Hid : id <> [] /\ (length id <= 1023)%nat.
Hypothesis Horigin : readable origin /\ origin ∈ origins cfg.

(** The messages of the browser. *)
Definition created (flags count : Z) : str :=
  toBase64url (attestation_object (auth_data flags count (attested aaguid id (point_x K) (point_y K)))).
Definition asserted (flags count : Z) : str := toBase64url (auth_data flags count []).
Definition signed (flags count : Z) (challenge : str) : str :=
  toBase64url (key_sign K (auth_data flags count [] ++ sha256_digest (client_data "webauthn.get" challenge origin))).

Definition enrolled (count : Z) (lbl : str) : PasskeyCredential :=
  mkCred (toBase64url id) (toBase64url (point_x K)) (toBase64url (point_y K)) count (if decide (lbl = []) then ("My Device" : str) else lbl).

Lemma cose_length : length (encode (cose_key (point_x K) (point_y K))) = 77%nat.
Proof.
  destruct (point_size K) as [Hx Hy]. unfold cose_key. cbn [encode map concat]. rewrite Hx, Hy, !length_app, Hx, Hy. vm_compute. done.
Qed.

Lemma attestation_accepted flags count lbl cs :
  flags_create flags -> 0 <= count < 2 ^ 32 -> Forall (fun c => credId c <> toBase64url id) cs ->
  check_attestation cfg cs (created flags count) lbl = Ok (enrolled count lbl).
Proof.
  intros Hf Hc Hcs. destruct (point_size K) as [Hx Hy]. destruct Hid as [_ Hlen]. unfold check_attestation, created.
  rewrite base64url_roundtrip, extract_attestation.
  - cbn [or_err]. rewrite parse_create_data by (done || lia). cbn [ad_ok ad_credId ad_key ad_signCount guard_err].
    assert (Hfb : forallb (fun c => negb (bool_decide (credId c = toBase64url id))) cs = true).
    { apply forallb_Forall. eapply Forall_impl; [exact Hcs |]. cbv beta. intros c Hne. by rewrite bool_decide_false. }
    by rewrite Hfb.
  - rewrite auth_data_length. unfold attested. rewrite !length_app, be_bytes_length, cose_length. lia.
Qed.

Lemma assertion_accepted flags count old lbl cs challenge :
  flags_get flags -> 0 <= count < 2 ^ 32 -> count = 0 \/ old < count ->
  Forall (fun c => credId c <> [] /\ credId c <> toBase64url id) cs ->
  check_assertion cfg (cs ++ [enrolled old lbl]) (toBase64url id) (asserted flags count) (signed flags count challenge)
    (client_data "webauthn.get" challenge origin)
  = Ok (length cs, enrolled (if count =? 0 then old else count) lbl).
Proof.
  intros Hf Hc Hn Hcs. unfold check_assertion, asserted, signed. rewrite !base64url_roundtrip, parse_get_data by done.
  cbn [ad_ok ad_credId ad_signCount]. unfold find_cred.
  rewrite (proj2 (list_find_Some _ _ (length cs) (enrolled old lbl))).
  - cbn [pubkeyX pubkeyY enrolled]. rewrite !base64url_roundtrip. unfold verifyEcdsaP256. destruct (point_size K) as [-> ->].
    rewrite bool_decide_false by apply sign_nonempty. cbn [Nat.eqb negb orb]. rewrite sign_accepted. cbn [guard_err signCount enrolled].
    destruct Hn as [-> | Hn]; [done |]. rewrite (proj2 (Z.ltb_lt _ _) Hn), orb_true_r. cbn [guard_err]. by destruct (count =? 0).
  - split_conj; [by rewrite list_lookup_middle | by left |]. intros j y Hj Hlt [E | E]; rewrite lookup_app_l in Hj by done;
      rewrite Forall_lookup in Hcs; by destruct (Hcs j y Hj).
Qed.
End Login.

(** ** Properties *)

(** C30: a passkey login stands on a registered key. A call that completes an
    authentication consumes its pending challenge whatever the outcome. On an
    error it changes neither the credentials nor any live session. On success
    the challenge was issued under that session key and had not expired, the
    client data names it, the ceremony and an allowed origin, a registered
    credential's key verifies the signature over the authenticator data and
    the hash of that client data, a non-zero sign count exceeds the stored one
    and replaces it, no other credential changes, and exactly one session is
    entered, an ordinary one under the returned token. *)
Theorem authentication_sound (t_sweep t_check now : Z) (random : str) (opens : bool) (key cred64 ad64 cd64 sig64 : str) (w : RP) :
  let (w', r) := completeAuthentication cfg t_sweep t_check now random opens key cred64 ad64 cd64 sig64 w in
  let swept := sweepExpired cfg t_sweep w in
  pendingAuths w' !! key = None /\
  match r with
  | Err _ => credentials w' = credentials w /\ sessions w' = sessions swept /\ file w' = file w
  | Ok token =>
      exists challenge exp cd i stored n,
        pendingAuths w !! key = Some (challenge, exp) /\ t_check <= exp /\
        cd = fromBase64url cd64 /\ jsonGetStr cd "type" = "webauthn.get" /\
        fromBase64url (jsonGetStr cd "challenge") = challenge /\ jsonGetStr cd "origin" ∈ origins cfg /\
        credentials w !! i = Some stored /\
        verifyEcdsaP256 (fromBase64url (pubkeyX stored)) (fromBase64url (pubkeyY stored))
          (fromBase64url ad64 ++ sha256_digest cd) (fromBase64url sig64) = true /\
        n = ad_signCount (parseAuthData cfg (fromBase64url ad64) false) /\ (n = 0 \/ signCount stored < n) /\
        credentials w' = <[i := if n =? 0 then stored else with_count n stored]> (credentials w) /\
        token = toBase64url random /\
        sessions w' = <[token := mkSession (now + hours (sessionTtlHours cfg)) now false []]> (sessions swept)
  end.
Proof.
  unfold completeAuthentication. cbv zeta. set (sw := sweepExpired cfg t_sweep w).
  destruct (pendingAuths sw !! key) as [[challenge exp] |] eqn:Ep; [| done].
  assert (Hp : pendingAuths w !! key = Some (challenge, exp)) by (destruct (sweep_pending t_sweep w key) as [E | E]; fold sw in E; congruence).
  destruct (Z.ltb_spec exp t_check) as [Hx | Hx]; [by split; [apply lookup_delete_eq |] |].
  destruct (check_client_data _ _ _ _ _) as [cd | m] eqn:Ec; [| by split; [apply lookup_delete_eq |]].
  destruct (check_assertion _ _ _ _ _ _) as [[i cred] | m] eqn:Ea; [| by split; [apply lookup_delete_eq |]].
  apply check_client_data_inv in Ec as (H1 & H2 & H3 & H4). apply check_assertion_inv in Ea as (stored & n & Hi & Hv & Hn & En).
  unfold issue. cbn [fst snd]. split; [apply lookup_delete_eq |]. exists challenge, exp, cd, i, stored, n.
  split_conj; try done; [tauto |]. cbn [credentials set_sessions set_auths set_credentials]. f_equal.
  destruct Hn as [[-> ->] | (Hz & Hlt & ->)]; [done |]. by rewrite (proj2 (Z.eqb_neq _ _) Hz).
Qed.
(** C29: a passkey that a conforming authenticator creates logs in. Starting from
    any state in which its identifier is new and no identifier is empty, the
    registration that an administrator begins is completed by the attestation
    of a fresh key pair, after which an authentication begun by anyone is
    completed by that key's assertion over the issued challenge, as long as
    each pair of calls lies within five minutes and the sign count grows or is
    not used. The credential is stored last, with the new count, and the
    returned token is a valid, ordinary session until it expires or idles. *)
Theorem passkey_login (K : KeyPair) (w : RP) (aaguid id lbl origin r1 r2 r3 r4 r5 random : str)
    (f1 f2 c1 c2 t0 t1 t2 t3 t4 t5 t6 t7 t8 now : Z) (o1 o2 : bool) :
  length aaguid = 16%nat -> id <> [] /\ (length id <= 1023)%nat -> readable origin /\ origin ∈ origins cfg ->
  Forall (fun c => credId c <> [] /\ credId c <> toBase64url id) (credentials w) ->
  flags_create f1 -> flags_get f2 -> 0 <= c1 < 2 ^ 32 -> 0 <= c2 < 2 ^ 32 -> c2 = 0 \/ c1 < c2 ->
  t2 <= t1 + minutes 5 -> t3 <= t1 + minutes 5 -> t6 <= t5 + minutes 5 -> t7 <= t5 + minutes 5 ->
  live cfg now (mkSession (t8 + hours (sessionTtlHours cfg)) t8 false []) = true ->
  let (w1, reg) := beginAdminRegistration cfg t0 t1 r1 r2 r3 w in
  let (w2, res) := completeAdminRegistration cfg t2 t3 o1 reg.1 (created K aaguid id f1 c1)
                     (toBase64url (client_data "webauthn.create" r1 origin)) lbl w1 in
  let (w3, auth) := beginAuthentication cfg t4 t5 r4 r5 w2 in
  let (w4, login) := completeAuthentication cfg t6 t7 t8 random o2 auth.1 (toBase64url id) (asserted f2 c2)
                       (toBase64url (client_data "webauthn.get" r4 origin)) (signed K origin f2 c2 r4) w3 in
  res = Ok tt /\ login = Ok (toBase64url random) /\
  credentials w4 = credentials w ++ [enrolled K id (if c2 =? 0 then c1 else c2) lbl] /\
  (isValidSession cfg now (toBase64url random) w4).2 = true /\ (isAdminSession cfg now (toBase64url random) w4).2 = false.
Proof.
  intros Ha Hid [Hor Hoin] Hcs Hf1 Hf2 Hc1 Hc2 Hn H2 H3 H6 H7 Hlive.
  assert (Hty : readable "webauthn.create" /\ readable "webauthn.get") by (split; by repeat constructor).
  unfold beginAdminRegistration. cbv iota. cbn [fst]. unfold completeAdminRegistration. cbv zeta.
  cbn [sweepExpired set_regs pendingRegs]. rewrite (sweep_keeps _ t2 _ r1 (t1 + minutes 5)) by (apply lookup_insert_eq || done).
  rewrite (proj2 (Z.ltb_ge _ _) H3), check_client_data_ok by (done || apply Hty).
  rewrite attestation_accepted by (done || (eapply Forall_impl; [exact Hcs |]; cbv beta; tauto)).
  unfold beginAuthentication. cbv iota. cbn [fst]. unfold completeAuthentication. cbv zeta.
  cbn [sweepExpired set_regs set_auths set_credentials pendingAuths credentials].
  rewrite (sweep_keeps _ t6 _ r4 (t5 + minutes 5)) by (apply lookup_insert_eq || done).
  rewrite (proj2 (Z.ltb_ge _ _) H7), check_client_data_ok by (done || apply Hty).
  rewrite assertion_accepted by done. unfold issue. cbn [fst snd].
  split_conj; try done.
  - cbn [credentials set_sessions set_auths set_credentials]. rewrite <- (Nat.add_0_r (length (credentials w))). by rewrite insert_app_r.
  - unfold isValidSession, getSession. cbn [sessions set_sessions]. rewrite lookup_insert_eq, Hlive. done.
  - unfold isAdminSession, getSession. cbn [sessions set_sessions]. rewrite lookup_insert_eq, Hlive. done.
Qed.
End Ceremony.

(** ** Witnesses *)

(** A toy scheme: a signature is the first byte of the key and the message. *)
#[export] Instance sample_p256 : P256 := {
  ecdsa_verify spki msg sig := bool_decide (sig = take 1 (drop 27 spki) ++ msg)
}.

Lemma sample_verifies (c : ascii) msg :
  ecdsa_verify (kSpkiPrefix ++ replicate 32 c ++ replicate 32 c) msg (c :: msg) = true.
Proof. cbn [ecdsa_verify sample_p256]. by apply bool_decide_eq_true_2. Qed.

Lemma cons_nonempty (c : ascii) (msg : str) : c :: msg <> [].
Proof. done. Qed.

Definition sample_key (c : ascii) : KeyPair :=
  mkKeyPair sample_p256 (replicate 32 c) (replicate 32 c) (cons c)
    (conj (length_replicate 32 c) (length_replicate 32 c)) (cons_nonempty c) (sample_verifies c).

Definition sample_config : WebAuthnConfig := mkConfig "ntm.example.org" [] "keys.json" [] [] 24 15.
Definition sample_origin : str := "https://ntm.example.org".
Definition sample_rp : RP := mkRP ∅ ∅ ∅ [] None.

Lemma session_table_exact_witness :
  let ops := [OpIdentity 0 1 "t1" "sub" true; OpSession (minutes 14) (toBase64url "t1"); OpSweep (minutes 16)] in
  let (w, h) := run sample_config ops (WebAuthnRP_init sample_config None) in
  (getSession sample_config (minutes 20) (toBase64url "t1") w).2 =
    spec_lookup sample_config (minutes 20) (toBase64url "t1") (foldl (spec_step sample_config) ∅ h).
Proof.
  intros ops. assert (Ht : clock_from 0 (concat (times <$> ops) ++ [minutes 20])) by (cbn; unfold minutes; lia).
  pose proof (session_table_exact sample_config None 0 ops (minutes 20) (toBase64url "t1") Ht) as H.
  destruct (run sample_config ops _) as [w h]. apply H.
Defined.

Lemma passkey_login_witness :
  exists w token, (isValidSession sample_config (minutes 10) token w).2 = true /\
    credentials w = [enrolled (sample_key "k") "id1" 2 "phone"].
Proof.
  assert (Ho : readable sample_origin /\ sample_origin ∈ origins sample_config).
  { split; [by repeat constructor | by apply (bool_decide_unpack _); vm_compute]. }
  assert (Hi : ("id1" : str) <> [] /\ (length ("id1" : str) <= 1023)%nat) by (split; [done | cbn; lia]).
  assert (Hf1 : flags_create 0x41) by (unfold flags_create; split_conj; [lia | lia | done | done]).
  assert (Hf2 : flags_get 0x01) by (unfold flags_get; split_conj; [lia | lia | done | done]).
  pose proof (passkey_login sample_config (sample_key "k") sample_rp (replicate 16 "g"%char) "id1" "phone" sample_origin
    "c1" "s1" "u1" "c2" "s2" "t1" 0x41 0x01 1 2 0 0 (minutes 1) (minutes 1) (minutes 2) (minutes 2) (minutes 3) (minutes 3) (minutes 3) (minutes 10)
    true true eq_refl Hi Ho (List.Forall_nil _) Hf1 Hf2) as H.
  revert H. destruct (beginAdminRegistration _ _ _ _ _ _ _) as [w1 reg]. destruct (completeAdminRegistration _ _ _ _ _ _ _ _ _) as [w2 res].
  destruct (beginAuthentication _ _ _ _ _ _) as [w3 auth]. destruct (completeAuthentication _ _ _ _ _ _ _ _ _ _ _ _) as [w4 login].
  intros H. exists w4, (toBase64url "t1").
  assert (Hl : live sample_config (minutes 10) (mkSession (minutes 3 + hours (sessionTtlHours sample_config)) (minutes 3) false []) = true) by (vm_compute; done).
  unfold minutes in *. destruct H as (_ & _ & Hc & Hv & _); try lia; try exact Hl. by split.
Defined.

(** A failed check of the authenticator data is ignored when a login is
    completed: data for another relying party with the user not present, whose
    sign count is therefore not looked at, passes with a valid signature. *)
Definition absent_data : str := replicate 37 NUL.
Definition enrolled_state (cs : list PasskeyCredential) : RP := mkRP ∅ {[ ("k" : str) := ("c1" : str, minutes 5) ]} ∅ cs None.
Definition login_with (ad : str) (w : RP) : result str :=
  let cd := client_data "webauthn.get" "c1" sample_origin in
  (completeAuthentication sample_config 0 0 0 "t1" true "k" (toBase64url "id1") (toBase64url ad) (toBase64url cd)
    (toBase64url ("k"%char :: ad ++ sha256_digest cd)) w).2.

Lemma presence_not_required :
  ad_ok (parseAuthData sample_config absent_data false) = false /\
  login_with absent_data (enrolled_state [enrolled (sample_key "k") "id1" 9 "phone"]) = Ok (toBase64url "t1").
Proof. vm_compute. done. Qed.

(** A registered credential with an empty identifier is matched before every
    later one, so those can no longer log in. *)
Lemma empty_id_shadows :
  let cs := [enrolled (sample_key "e") [] 0 "empty"; enrolled (sample_key "k") "id1" 0 "phone"] in
  let ad := auth_data sample_config 0x01 0 [] in
  login_with ad (enrolled_state (drop 1 cs)) = Ok (toBase64url "t1") /\
  login_with ad (enrolled_state cs) = Err "signature verification failed".
Proof. vm_compute. done. Qed.
