(* ===== verification/RateLimit.v ===== *)
(** The server's two admission limiters: the sliding-window limiter of the web
    interface ([WebRateLimiter], [web_dashboard.cpp]) and the limit on
    simultaneous connections per address ([PerIPConnectionLimiter],
    [server_core.cpp]). Each is proved equal to its plain description: a count
    over the whole history, and a count of the open connections. *)

From S2P Require Import Prelude CppString.
Local Open Scope Z_scope.

Module WebRateLimiter.

(** The deques hold the times of the accepted requests, oldest first, in
    nanoseconds of the steady clock. *)
(* web_dashboard.cpp:565-570 WebRateLimiter *)
Record t := mk { ops_ : Z; map_ : gmap str (list Z) }.

Definition new : t := mk 0 ∅.

(** [duration_cast<seconds>(now - at).count() >= 60]; the cast truncates. *)
Definition old (now at_ : Z) : bool := 60 <=? Z.quot (now - at_) (10 ^ 9).

(* web_dashboard.cpp:557-559 tryAcquire, drain *)
Fixpoint drain (now : Z) (dq : list Z) : list Z :=
  match dq with
  | [] => []
  | x :: dq' => if old now x then drain now dq' else dq
  end.

(* web_dashboard.cpp:541-554 tryAcquire, sweep *)
Definition sweep (now : Z) (m : gmap str (list Z)) : gmap str (list Z) :=
  omap (fun q => match drain now q with [] => None | q' => Some q' end) m.

(* web_dashboard.cpp:535-563 tryAcquire *)
Definition tryAcquire (rpm : Z) (now : Z) (ip : str) (l : t) : t * bool :=
  if rpm =? 0 then (l, true)
  else
    let ops := u64 (ops_ l + 1) in
    let m := if Z.land ops 0xFF =? 0 then sweep now (map_ l) else map_ l in
    let dq := drain now (default [] (m !! ip)) in
    if rpm <=? Z.of_nat (length dq) then (mk ops (<[ip := dq]> m), false)
    else (mk ops (<[ip := dq ++ [now]]> m), true).

(** ** Specification: count the accepted requests of the last minute *)

(** Requests and accepted requests: the time and the address. *)
Definition times_of (ip : str) (h : list (Z * str)) : list Z := fst <$> filter (fun e => e.2 = ip) h.
Definition recent (now : Z) (ip : str) (h : list (Z * str)) : Z :=
  Z.of_nat (length (filter (fun x => old now x = false) (times_of ip h))).
Definition admits (rpm now : Z) (ip : str) (h : list (Z * str)) : bool := (rpm =? 0) || (recent now ip h <? rpm).

Fixpoint spec_run (rpm : Z) (h reqs : list (Z * str)) : list bool :=
  match reqs with
  | [] => []
  | (now, ip) :: reqs =>
      let b := admits rpm now ip h in b :: spec_run rpm (if b then h ++ [(now, ip)] else h) reqs
  end.

Fixpoint run (rpm : Z) (l : t) (reqs : list (Z * str)) : list bool :=
  match reqs with
  | [] => []
  | (now, ip) :: reqs => let (l, b) := tryAcquire rpm now ip l in b :: run rpm l reqs
  end.

Fixpoint in_order (t0 : Z) (reqs : list (Z * str)) : Prop :=
  match reqs with [] => True | (now, _) :: reqs => t0 <= now /\ in_order now reqs end.

(** ** Lemmas *)

Lemma old_mono now now' x : now <= now' -> old now x = true -> old now' x = true.
Proof.
  unfold old. rewrite !Z.leb_le. intros Hn Ho. pose proof (Z.quot_le_mono (now - x) (now' - x) (10 ^ 9) ltac:(lia) ltac:(lia)). lia.
Qed.

Lemma old_earlier now x y : x <= y -> old now x = false -> old now y = false.
Proof.
  unfold old. rewrite !Z.leb_gt. intros Hn Ho. pose proof (Z.quot_le_mono (now - y) (now - x) (10 ^ 9) ltac:(lia) ltac:(lia)). lia.
Qed.

(** On an ascending deque, draining drops exactly what is too old. *)
Lemma drain_spec now q :
  Sorting.Sorted.StronglySorted Z.le q ->
  exists d, q = d ++ drain now q /\ Forall (fun x => old now x = true) d /\ Forall (fun x => old now x = false) (drain now q).
Proof.
  intros Hs. induction Hs as [| x q Hs IH Hx]; [by exists [] |]. cbn [drain]. destruct (old now x) eqn:E.
  - destruct IH as (d & Eq & Hd & Hk). exists (x :: d). cbn [app]. rewrite <- Eq. split_conj; [done | by constructor | done].
  - exists []. split_conj; [done | constructor |]. constructor; [done |]. eapply Forall_impl; [exact Hx |]. intros y Hy. by eapply old_earlier.
Qed.

(** A deque after some draining: what was dropped is too old by now. *)
Definition kept (now : Z) (ts q : list Z) : Prop := exists d, ts = d ++ q /\ Forall (fun x => old now x = true) d.

Lemma kept_later now now' ts q : now <= now' -> kept now ts q -> kept now' ts q.
Proof. intros Hn (d & E & Hd). exists d. split; [done |]. eapply Forall_impl; [exact Hd |]. intros x. by apply old_mono. Qed.

Lemma sorted_suffix d q : Sorting.Sorted.StronglySorted Z.le (d ++ q) -> Sorting.Sorted.StronglySorted Z.le q.
Proof. induction d as [| x d IH]; [done |]. cbn [app]. intros H. apply IH. by inversion H. Qed.

Lemma kept_drain now ts q : Sorting.Sorted.StronglySorted Z.le ts -> kept now ts q -> kept now ts (drain now q).
Proof.
  intros Hs (d & -> & Hd). destruct (drain_spec now q (sorted_suffix _ _ Hs)) as (d' & E & Hd' & _).
  exists (d ++ d'). rewrite <- app_assoc, <- E. split; [done | by apply Forall_app].
Qed.

Lemma kept_recent now ts q :
  Sorting.Sorted.StronglySorted Z.le ts -> kept now ts q -> filter (fun x => old now x = false) ts = drain now q.
Proof.
  intros Hs (d & -> & Hd). destruct (drain_spec now q (sorted_suffix _ _ Hs)) as (d' & E & Hd' & Hk). rewrite E at 1.
  assert (Hn : forall l, Forall (fun x => old now x = true) l -> filter (fun x => old now x = false) l = []).
  { intros l Hl. induction Hl as [| x l Hx _ IH]; [done |]. by rewrite filter_cons_False by congruence. }
  rewrite !filter_app, !Hn by done. cbn [app]. clear -Hk. induction Hk as [| x l Hx _ IH]; [done |].
  rewrite filter_cons_True by done. by rewrite IH.
Qed.

Lemma times_of_snoc ip h now ip' :
  times_of ip (h ++ [(now, ip')]) = times_of ip h ++ (if decide (ip' = ip) then [now] else []).
Proof.
  unfold times_of. rewrite filter_app, fmap_app. f_equal. destruct (decide (ip' = ip)) as [E | E].
  - by rewrite filter_cons_True.
  - by rewrite filter_cons_False.
Qed.

Lemma sorted_snoc l x : Sorting.Sorted.StronglySorted Z.le l -> Forall (fun y => y <= x) l -> Sorting.Sorted.StronglySorted Z.le (l ++ [x]).
Proof.
  intros Hs. induction Hs as [| y l Hs IH Hy]; intros Hx; [repeat constructor |]. inversion Hx as [| ? ? H1 H2]; subst. cbn [app].
  constructor; [by apply IH |]. apply Forall_app. split; [done | by constructor].
Qed.

(** The limiter's table against the history. *)
Definition inv (now : Z) (h : list (Z * str)) (m : gmap str (list Z)) : Prop :=
  forall ip, Sorting.Sorted.StronglySorted Z.le (times_of ip h) /\ Forall (fun x => x <= now) (times_of ip h) /\
    kept now (times_of ip h) (default [] (m !! ip)).

Lemma inv_later now now' h m : now <= now' -> inv now h m -> inv now' h m.
Proof.
  intros Hn H ip. destruct (H ip) as (Hs & Hle & Hk). split_conj; [done | | by eapply kept_later].
  eapply Forall_impl; [exact Hle |]. cbv beta. lia.
Qed.

Lemma inv_sweep now h m : inv now h m -> inv now h (sweep now m).
Proof.
  intros H ip. destruct (H ip) as (Hs & Hle & Hk). split_conj; try done. unfold sweep. rewrite lookup_omap.
  apply (kept_drain now) in Hk; [| done]. destruct (m !! ip) as [q |]; cbn in *; [| done]. by destruct (drain now q).
Qed.

Lemma inv_insert now h m ip : inv now h m -> inv now h (<[ip := drain now (default [] (m !! ip))]> m).
Proof.
  intros H k. destruct (H k) as (Hs & Hle & Hk). split_conj; try done. destruct (decide (ip = k)) as [-> | Hne].
  - rewrite lookup_insert_eq. by apply kept_drain.
  - by rewrite lookup_insert_ne.
Qed.

Lemma inv_accept now h m ip :
  inv now h m -> inv now (h ++ [(now, ip)]) (<[ip := drain now (default [] (m !! ip)) ++ [now]]> m).
Proof.
  intros H k. destruct (H k) as (Hs & Hle & Hk). rewrite times_of_snoc. destruct (decide (ip = k)) as [-> | Hne].
  - rewrite lookup_insert_eq. apply (kept_drain now) in Hk as (d & E & Hd); [| done]. split_conj.
    + by apply sorted_snoc.
    + apply Forall_app. split; [done | by repeat constructor].
    + exists d. change (default [] (Some ?x)) with x. by rewrite app_assoc, <- E.
  - by rewrite app_nil_r, lookup_insert_ne.
Qed.

Lemma tryAcquire_spec rpm now ip h l :
  rpm <> 0 -> inv now h (map_ l) ->
  let (l', b) := tryAcquire rpm now ip l in
  b = admits rpm now ip h /\ inv now (if b then h ++ [(now, ip)] else h) (map_ l').
Proof.
  intros Hr H. unfold tryAcquire. rewrite (proj2 (Z.eqb_neq _ _) Hr). cbv zeta.
  set (m := if Z.land (u64 (ops_ l + 1)) 0xFF =? 0 then _ else _).
  assert (Hm : inv now h m) by (unfold m; destruct (_ =? 0); [by apply inv_sweep | done]).
  destruct (Hm ip) as (Hs & Hle & Hk). assert (Er : recent now ip h = Z.of_nat (length (drain now (default [] (m !! ip))))).
  { unfold recent. by rewrite (kept_recent now _ (default [] (m !! ip))). }
  unfold admits. rewrite (proj2 (Z.eqb_neq _ _) Hr), Er. cbn [orb].
  destruct (Z.leb_spec rpm (Z.of_nat (length (drain now (default [] (m !! ip)))))); cbn [map_].
  - rewrite (proj2 (Z.ltb_ge _ _)) by lia. split; [done | by apply inv_insert].
  - rewrite (proj2 (Z.ltb_lt _ _)) by lia. split; [done | by apply inv_accept].
Qed.

Lemma limiter_run_spec rpm t0 h l reqs :
  rpm <> 0 -> in_order t0 reqs -> inv t0 h (map_ l) -> run rpm l reqs = spec_run rpm h reqs.
Proof.
  intros Hr. revert t0 h l. induction reqs as [| [now ip] reqs IH]; intros t0 h l Ht H; [done |]. cbn [run spec_run in_order] in *.
  destruct Ht as [Ht Hreqs]. pose proof (tryAcquire_spec rpm now ip h l Hr (inv_later _ _ _ _ Ht H)) as Hs.
  destruct (tryAcquire rpm now ip l) as [l' b]. destruct Hs as [-> Hi]. f_equal. by eapply IH.
Qed.

(** ** Properties *)

(** The web rate limiter admits a request exactly when the limit is off or
    fewer than the configured number of requests of the same address were
    admitted within the last 60 seconds, for every sequence of requests in
    order of time: neither the lazy draining nor the sweep of every 256th call
    is visible. *)
Lemma rate_limit_exact (rpm t0 : Z) (reqs : list (Z * str)) :
  in_order t0 reqs -> run rpm new reqs = spec_run rpm [] reqs.
Proof.
  intros Ht. destruct (Z.eq_dec rpm 0) as [-> | Hr].
  - clear Ht. assert (H : forall h l, run 0 l reqs = spec_run 0 h reqs); [| apply H].
    induction reqs as [| [now ip] reqs IH]; intros h l; [done |]. cbn. f_equal. apply IH.
  - apply (limiter_run_spec rpm t0); [done | done |]. intros ip. split_conj; [constructor | constructor |]. exists []. by split.
Qed.

Lemma rate_limit_exact_witness :
  run 2 new [(0, "a" : str); (1, "a" : str); (2, "a" : str); (60 * 10 ^ 9, "a" : str); (60 * 10 ^ 9, "a" : str)] = [true; true; false; true; false].
Proof.
  rewrite (rate_limit_exact 2 0) by (cbn; lia). vm_compute. reflexivity.
Defined.

End WebRateLimiter.

(** ** Connections per address *)

Module PerIPConnectionLimiter.

(* server_core.cpp:140-143 PerIPConnectionLimiter *)
Definition maxPerIP_ (maxPerIP : Z) : Z := if 0 <? maxPerIP then maxPerIP else 1.

(** [counts_]: 32-bit unsigned counters. *)
Abbreviation t := (gmap str Z).

Definition count (m : t) (ip : str) : Z := default 0 (m !! ip).

(* server_core.cpp:145-154 tryAcquire *)
Definition tryAcquire (maxPerIP : Z) (ip : str) (m : t) : t * bool :=
  if decide (ip = []) then (m, true)
  else if maxPerIP_ maxPerIP <=? count m ip then (<[ip := count m ip]> m, false)
  else (<[ip := u32 (count m ip + 1)]> m, true).

(* server_core.cpp:156-169 release *)
Definition release (ip : str) (m : t) : t :=
  if decide (ip = []) then m
  else match m !! ip with
       | None => m
       | Some n => if n <=? 1 then delete ip m else <[ip := n - 1]> m
       end.

(** The open connections, by address: a connection is admitted or turned away,
    or an open one ends. *)
Inductive step (maxPerIP : Z) : list str * t -> list str * t -> Prop :=
| step_admit ip conns m m' : tryAcquire maxPerIP ip m = (m', true) -> step maxPerIP (conns, m) (ip :: conns, m')
| step_reject ip conns m m' : tryAcquire maxPerIP ip m = (m', false) -> step maxPerIP (conns, m) (conns, m')
| step_end ip l r m : step maxPerIP (l ++ ip :: r, m) (l ++ r, release ip m).

Definition open (ip : str) (conns : list str) : Z := Z.of_nat (length (filter (fun x => x = ip) conns)).

(** Counters are the numbers of open connections; there is no counter of zero. *)
Definition counts_open (maxPerIP : Z) (s : list str * t) : Prop :=
  forall ip, ip <> [] -> s.2 !! ip = (if open ip s.1 =? 0 then None else Some (open ip s.1)) /\ open ip s.1 <= maxPerIP_ maxPerIP.

Lemma open_cons ip x conns : open ip (x :: conns) = (if decide (x = ip) then 1 else 0) + open ip conns.
Proof.
  unfold open. rewrite filter_cons. destruct (decide (x = ip)); cbn [length]; lia.
Qed.

Lemma open_app ip l r : open ip (l ++ r) = open ip l + open ip r.
Proof. unfold open. rewrite filter_app, length_app. lia. Qed.

Lemma open_nonneg ip conns : 0 <= open ip conns.
Proof. unfold open. lia. Qed.

Lemma count_open maxPerIP conns m ip : ip <> [] -> counts_open maxPerIP (conns, m) -> count m ip = open ip conns.
Proof.
  intros Hip H. unfold count. destruct (H ip Hip) as [Hl _]. cbn [fst snd] in Hl. rewrite Hl.
  destruct (Z.eqb_spec (open ip conns) 0); cbn; lia.
Qed.

Lemma step_counts maxPerIP s s' :
  maxPerIP_ maxPerIP < 2 ^ 32 -> counts_open maxPerIP s -> step maxPerIP s s' -> counts_open maxPerIP s'.
Proof.
  intros Hmax H Hst k Hk. destruct Hst as [ip conns m m' E | ip conns m m' E | ip l r m]; cbn [fst snd];
    destruct (H k Hk) as [Hl Hb]; cbn [fst snd] in *.
  - rewrite open_cons. unfold tryAcquire in E. destruct (decide (ip = [])) as [-> | Hip]; [injection E as <-; by rewrite decide_False |].
    rewrite (count_open maxPerIP conns m ip Hip H) in E. destruct (Z.leb_spec (maxPerIP_ maxPerIP) (open ip conns)) as [| Hlt]; [done |].
    injection E as <-. destruct (decide (ip = k)) as [-> | Hne].
    + pose proof (open_nonneg k conns). rewrite lookup_insert_eq, u32_small by lia. destruct (Z.eqb_spec (1 + open k conns) 0); [lia |]. split; [f_equal; lia | lia].
    + by rewrite lookup_insert_ne.
  - unfold tryAcquire in E. destruct (decide (ip = [])) as [-> | Hip]; [done |].
    rewrite (count_open maxPerIP conns m ip Hip H) in E. destruct (Z.leb_spec (maxPerIP_ maxPerIP) (open ip conns)) as [Hge |]; [| done].
    injection E as <-. split; [| done]. destruct (decide (ip = k)) as [-> | Hne]; [| by rewrite lookup_insert_ne].
    rewrite lookup_insert_eq. assert (0 < maxPerIP_ maxPerIP) by (unfold maxPerIP_; destruct (Z.ltb_spec 0 maxPerIP); lia).
    destruct (Z.eqb_spec (open k conns) 0); [lia | done].
  - rewrite open_app, open_cons in Hl, Hb. rewrite open_app. unfold release. destruct (decide (ip = [])) as [-> | Hip]; [by rewrite decide_False in Hl, Hb |].
    destruct (H ip Hip) as [Hi _]. cbn [fst snd] in Hi. rewrite open_app, open_cons, decide_True in Hi by done.
    pose proof (open_nonneg ip l). pose proof (open_nonneg ip r). destruct (Z.eqb_spec (open ip l + (1 + open ip r)) 0) as [| Hnz] in Hi; [lia |].
    rewrite Hi. destruct (decide (ip = k)) as [-> | Hne].
    + split; [| lia]. destruct (Z.leb_spec (open k l + (1 + open k r)) 1).
      * rewrite lookup_delete_eq. destruct (Z.eqb_spec (open k l + open k r) 0); [done | lia].
      * rewrite lookup_insert_eq. destruct (Z.eqb_spec (open k l + open k r) 0); [lia | f_equal; lia].
    + split; [| lia]. destruct (_ <=? 1); [by rewrite lookup_delete_ne | by rewrite lookup_insert_ne].
Qed.

(** The per-address limiter counts the open connections: in every state
    reached from the empty one by admissions, refusals and ends of open
    connections, each address has exactly its number of open connections in
    the table (and no entry when there are none), never more than the limit,
    and a new connection is admitted exactly below it. *)
Lemma conn_limit_exact (maxPerIP : Z) (conns : list str) (m : t) (ip : str) :
  maxPerIP_ maxPerIP < 2 ^ 32 -> reach (step maxPerIP) ([], ∅) (conns, m) -> ip <> [] ->
  m !! ip = (if open ip conns =? 0 then None else Some (open ip conns)) /\ open ip conns <= maxPerIP_ maxPerIP /\
  (tryAcquire maxPerIP ip m).2 = (open ip conns <? maxPerIP_ maxPerIP).
Proof.
  intros Hmax Hr Hip. assert (H : counts_open maxPerIP (conns, m)).
  { apply (reach_invariant (step maxPerIP) (counts_open maxPerIP) ([], ∅)); [| | done].
    - intros k _. cbn [fst snd]. rewrite lookup_empty. split; [done |]. unfold open, maxPerIP_. cbn. destruct (Z.ltb_spec 0 maxPerIP); lia.
    - intros s s' Hs Hst. by eapply step_counts. }
  destruct (H ip Hip) as [Hl Hb]. cbn [fst snd] in *. split_conj; [done | done |]. unfold tryAcquire. rewrite decide_False by done.
  rewrite (count_open maxPerIP conns m ip Hip H).
  destruct (Z.leb_spec (maxPerIP_ maxPerIP) (open ip conns)); cbn [snd]; symmetry; [by apply Z.ltb_ge | by apply Z.ltb_lt].
Qed.

Lemma conn_limit_exact_witness :
  (tryAcquire 1 "a" (tryAcquire 1 "a" ∅).1).2 = false /\ (tryAcquire 1 "a" (release "a" (tryAcquire 1 "a" ∅).1)).2 = true.
Proof.
  assert (H1 : reach (step 1) ([], ∅) (["a" : str], (tryAcquire 1 "a" ∅).1)).
  { eapply reach_step; [apply reach_refl |]. by apply step_admit. }
  assert (H2 : reach (step 1) ([], ∅) ([], release "a" (tryAcquire 1 "a" ∅).1)).
  { eapply reach_step; [exact H1 |]. apply (step_end 1 "a" [] []). }
  split.
  - destruct (conn_limit_exact 1 _ _ "a" ltac:(cbn; lia) H1 ltac:(done)) as (_ & _ & ->). vm_compute. reflexivity.
  - destruct (conn_limit_exact 1 _ _ "a" ltac:(cbn; lia) H2 ltac:(done)) as (_ & _ & ->). vm_compute. reflexivity.
Defined.

End PerIPConnectionLimiter.
