(* ===== verification/ClientCtrl.v ===== *)
(** The client's side of the control channel ([client_impl.cpp],
    [processCtrlLine]): parsing of a C-line, every command, and the L-lines it
    sends back. The log files are those of [FileLog], the update cycle is that
    of [Updater]; OpenSSL's base64 encoder and SHA-256 are parameters. *)

From S2P Require Import Prelude CppString Health FileLog Trust Upgrade HttpUtil Updater.
Local Open Scope Z_scope.

(* proto_client_server.hpp:130-130 kCtrlReqIdMaxLen *)
Definition kCtrlReqIdMaxLen : nat := 32.
Definition kLogRespPrefix : str := "L ".

(** OpenSSL's [EVP_EncodeBlock] and [EVP_DecodeBlock]: the decoder returns the
    padding bytes too. *)
Class EvpBase64 := { EncodeBlock : str -> str; DecodeBlock : str -> option str }.

(** Their documented behaviour. *)
Class EvpBase64Laws (B : EvpBase64) := {
  decode_encode s : exists pad, DecodeBlock (EncodeBlock s) = Some (s ++ pad) /\
    exists sym, EncodeBlock s = sym ++ replicate (length pad) "="%char /\ "="%char ∉ sym;
  encode_length s : length (EncodeBlock s) = ((length s + 2) / 3 * 4)%nat;
  encode_text s : Forall (fun c => 0x21 <= byte_val c <= 0x7e) (EncodeBlock s)
}.

Section Ctrl.
Context `{CR : Crypto} `{SH : Sha256} `{B64 : EvpBase64}.
Context (productionRoots : RootSet).

(** What a command meets outside: the clock, the file opens, the setting, the
    environment of an update cycle, whether the file opens a second time for
    hashing, and whether the write of the [i]-th chunk succeeds. *)
Record CtrlEnv := mkCtrlEnv {
  c_now : Now; c_opens : Opens; c_auto_update : bool; c_upd_env : Env;
  c_rehash : bool; c_chunk_ok : nat -> bool
}.

Record CtrlState := mkCtrl { logs : Dir; logger : FileLogger; upd : Upd }.

Definition respond (words : str) : str := kLogRespPrefix ++ words ++ [LF].

(* client_impl.cpp:306-310 processCtrlLine, sendErr *)
Definition sendErr (reqId code msg : str) : str :=
  respond ("err " ++ reqId ++ SP :: code ++ SP :: msg).

Definition not_active (reqId : str) : str := sendErr reqId "unavailable" "file-logging-not-active".

(* client_impl.cpp:279-294 processCtrlLine, set_loglevel *)
Definition parse_level (level : str) : LogLevel * str :=
  if decide (level = "Warn") then (LWarn, level)
  else if decide (level = "Err") then (LErr, level)
  else (LInfo, ("Info" : str)).

(* client_impl.cpp:312-341 processCtrlLine, log_list *)
Definition log_list (reqId : str) (s : CtrlState) : list str :=
  if negb (active_ (logger s)) then [not_active reqId]
  else
    let fs := listFiles (logs s) (logger s) in
    [respond ("list " ++ reqId ++ " begin " ++ to_string (Z.of_nat (length fs)))]
    ++ ((fun f => respond ("list " ++ reqId ++ " file " ++ fi_name f ++ SP :: to_string (fi_size f) ++ SP :: fi_mtime f)) <$> fs)
    ++ [respond ("list " ++ reqId ++ " end")].

(** [fread] in pieces of [n] bytes; the fuel is the length of the file. *)
Fixpoint pieces (fuel n : nat) (s : str) : list str :=
  match fuel with
  | O => []
  | S fuel => match s with [] => [] | _ => take n s :: pieces fuel n (drop n s) end
  end.

Definition kRawChunk : nat := Z.to_nat 32768.

(** The loop returns at the first failed write, whose line was attempted. *)
(* client_impl.cpp:460-477 processCtrlLine, chunks *)
Fixpoint send_chunks (reqId : str) (ok : nat -> bool) (i : nat) (ps : list str) : list str * bool :=
  match ps with
  | [] => ([], true)
  | p :: ps =>
      let line := respond ("get " ++ reqId ++ " chunk " ++ EncodeBlock p) in
      if ok i then let (ls, fin) := send_chunks reqId ok (S i) ps in (line :: ls, fin) else ([line], false)
  end.

(* client_impl.cpp:392-487 processCtrlLine, log_get *)
Definition log_get (e : CtrlEnv) (reqId filename : str) (s : CtrlState) : list str :=
  if negb (active_ (logger s)) then [not_active reqId]
  else match logs s !! filename with
       | None => [sendErr reqId "not_found" "file-not-found"]
       | Some c =>
           let sha := if c_rehash e then hexEncode (sha256_digest c) else [] in
           let begin_ := respond ("get " ++ reqId ++ " begin " ++ filename ++ SP :: to_string (Z.of_nat (length c)) ++ SP :: sha) in
           let (ls, fin) := send_chunks reqId (c_chunk_ok e) 0 (pieces (length c) kRawChunk c) in
           begin_ :: ls ++ (if fin : bool then [respond ("get " ++ reqId ++ " end")] else [])
       end.

(* client_impl.cpp:513-532 processCtrlLine, update callbacks *)
Definition upd_line (reqId : str) (ev : Event) : str :=
  let sendUpd tail := respond ("upd " ++ reqId ++ SP :: tail) in
  match ev with
  | OnStage st => sendUpd ("stage " ++ st)
  | OnError st m => sendUpd ("err " ++ st ++ SP :: m)
  | OnNoop r => sendUpd ("noop " ++ r)
  | OnDone v => sendUpd ("done " ++ v)
  end.

(* client_impl.cpp:489-540 processCtrlLine, update_now *)
Definition update_now (e : CtrlEnv) (reqId : str) (s : CtrlState) : CtrlState * list str :=
  if negb (c_auto_update e) then
    let m := "ntm-client: update_now received but auto_update is disabled — add auto_update=true to config to enable" in
    let (d, g) := write (c_opens e) (c_now e) LWarn m (logs s) (logger s) in
    (mkCtrl d g (upd s), [respond ("upd " ++ reqId ++ " noop auto_update_disabled")])
  else
    let (u, r) := doOneCheckCycle productionRoots ServerPush (c_upd_env e) (upd s) in
    (mkCtrl (logs s) (logger s) u, respond ("upd " ++ reqId ++ " ack") :: (upd_line reqId <$> events r)).

(** The request id: the second word. *)
(* client_impl.cpp:296-304 processCtrlLine, words *)
Definition ctrl_words (body : str) : option (str * str * option str) :=
  let? sp1 := find_char SP body in
  let sp2 := find_char_from SP body (S sp1) in
  let reqId := match sp2 with
               | None => substr_from body (S sp1)
               | Some sp2 => substr body (S sp1) (sp2 - sp1 - 1)
               end in
  if bool_decide (reqId = []) || (kCtrlReqIdMaxLen <? length reqId)%nat then None
  else Some (substr body 0 sp1, reqId, (fun sp2 => substr_from body (S sp2)) <$> sp2).

(* client_impl.cpp:360-363 processCtrlLine, filename *)
Definition bad_filename (filename : str) : bool :=
  bool_decide (filename = []) || contains_char "/" filename || contains_char BSLASH filename || contains_str ".." filename.

(* client_impl.cpp:273-541 processCtrlLine *)
Definition processCtrlLine (e : CtrlEnv) (line : str) (s : CtrlState) : CtrlState * list str :=
  if negb (starts_with "C " line) then (s, [])
  else
    let body := substr_from line 2 in
    if starts_with "set_loglevel " body then
      let (lv, level) := parse_level (substr_from body 13) in
      let g := setLevel lv (logger s) in
      let (d, g) := write (c_opens e) (c_now e) lv ("ntm-client: log level changed to " ++ level ++ " by admin") (logs s) g in
      (mkCtrl d g (upd s), [respond ("ack set_loglevel " ++ level)])
    else
      match ctrl_words body with
      | None => (s, [])
      | Some (cmd, reqId, rest) =>
          if decide (cmd = "log_list") then (s, log_list reqId s)
          else if decide (cmd = "log_delete_all") then
            if negb (active_ (logger s)) then (s, [not_active reqId])
            else
              let '(d, g, n) := deleteAllFiles (c_opens e) (c_now e) (logs s) (logger s) in
              (mkCtrl d g (upd s), [respond ("del_all " ++ reqId ++ " ok " ++ to_string n)])
          else
            match rest with
            | None => (s, [])
            | Some filename =>
                if bad_filename filename then (s, [sendErr reqId "bad_filename" "invalid-or-missing-filename"])
                else if decide (cmd = "log_delete") then
                  if negb (active_ (logger s)) then (s, [not_active reqId])
                  else
                    let '(d, g, ok) := deleteFile filename (logs s) (logger s) in
                    (mkCtrl d g (upd s),
                     [if ok : bool then respond ("del " ++ reqId ++ " ok " ++ filename)
                      else respond ("del " ++ reqId ++ " err " ++ filename ++ " not-found")])
                else if decide (cmd = "log_get") then (s, log_get e reqId filename s)
                else if decide (cmd = "update_now") then update_now e reqId s
                else (s, [])
            end
      end.

(** The command is recognised only behind the test for a third word, which
    the server never sends: an update request is dropped without an answer. *)
Lemma update_now_ignored e reqId s :
  SP ∉ reqId -> processCtrlLine e ("C " ++ "update_now " ++ reqId) s = (s, []).
Proof.
  intros H. unfold processCtrlLine. change (negb (starts_with "C " ("C " ++ "update_now " ++ reqId))) with false.
  change (substr_from ("C " ++ "update_now " ++ reqId) 2) with (("update_now" : str) ++ SP :: reqId).
  change (starts_with "set_loglevel " (("update_now" : str) ++ SP :: reqId)) with false. cbv iota.
  unfold ctrl_words. rewrite find_char_app by (by apply (bool_decide_unpack _); vm_compute). cbv iota.
  unfold find_char_from. change (S (length ("update_now" : str))) with 11%nat.
  change (drop 11 (("update_now" : str) ++ SP :: reqId)) with reqId.
  rewrite (proj2 (find_char_None SP reqId)) by done. cbn [fmap option_fmap option_map].
  change (substr (("update_now" : str) ++ SP :: reqId) 0 (length ("update_now" : str))) with ("update_now" : str).
  destruct (_ || _); [done |]. rewrite !decide_False by done. done.
Qed.
End Ctrl.
