(* ===== verification/RemoteLogs.v ===== *)
(** Remote log management ([web_dashboard.cpp], the endpoints under
    [/api/admin/clients/:client_id/logs]): what the admin handlers ask of a
    client over its control channel, how they wait for the routed response
    lines, and how they turn them into an HTTP answer. The client's side is
    [ClientCtrl]; the routing is [Registry.CtrlChannel]. *)

From S2P Require Import Prelude CppString Health FileLog Trust Upgrade Registry Base64 HttpUtil Updater ClientCtrl.
Local Open Scope Z_scope.
Import CtrlChannel.

(** ** Requests *)

Definition is_hex_lower (c : ascii) : bool := is_digit c || in_range "a" "f" c.

(* web_dashboard.cpp:4651-4662 validateClientId *)
Definition validateClientId (id : str) : bool := (length id =? 64)%nat && forallb is_hex_lower id.

(* web_dashboard.cpp:4843-4845 log filename whitelist *)
Definition ok_filename (filename : str) : bool :=
  negb (bool_decide (filename = [])) &&
  forallb (fun c => is_digit c || is_lower c || is_upper c || char_in ["-"%char; "_"%char; "."%char] c) filename.

(** A C-line as the channel's writer sends it, without its newline. *)
Definition c_line (cmd reqId : str) (filename : option str) : str :=
  "C " ++ cmd ++ SP :: reqId ++ match filename with Some f => SP :: f | None => [] end.

(** ** Answers *)

Record Response := mkHttp { status : Z; content : str }.

Definition err_body (msg : str) : str := "{" ++ quoted "error" ++ ":"%char :: quoted msg ++ "}" ++ [LF].

(** The outcome of a wait: no channel for the client, or the response object
    as the handler finds it when it wakes or times out. *)
Definition Waited := option LogCmdResponse.

(* web_dashboard.cpp:4743-4754 list handler, line *)
Definition list_entry (line : str) : option (str * str * str) :=
  if negb (starts_with "list " line) then None
  else
    let? filePos := find_str " file " line in
    let rest := substr_from line (filePos + 6) in
    let? sp1 := find_char SP rest in
    let rem := substr_from rest (S sp1) in
    Some (match find_char SP rem with
          | None => (substr rest 0 sp1, rem, [])
          | Some sp2 => (substr rest 0 sp1, substr rem 0 sp2, substr_from rem (S sp2))
          end).

(* web_dashboard.cpp:4755-4759 list handler, entry *)
Definition entry_json (x : str * str * str) : str :=
  let '(name, size, mtime) := x in
  "{" ++ quoted "name" ++ ":"%char :: quoted (jsonEsc name) ++ "," ++ quoted "size" ++ ":"%char :: jsonEsc size
  ++ "," ++ quoted "mtime" ++ ":"%char :: quoted (jsonEsc mtime) ++ "}".

Fixpoint comma_sep (xs : list str) : str :=
  match xs with [] => [] | [x] => x | x :: xs => x ++ ","%char :: comma_sep xs end.

Definition no_logging : str :=
  "{" ++ quoted "connected" ++ ":true," ++ quoted "file_logging" ++ ":false," ++ quoted "level" ++ ":null,"
  ++ quoted "files" ++ ":[]}" ++ [LF].
Definition not_connected : str :=
  "{" ++ quoted "connected" ++ ":false," ++ quoted "file_logging" ++ ":false," ++ quoted "level" ++ ":null,"
  ++ quoted "files" ++ ":[]}" ++ [LF].

(** [health]: the client's last health report. *)
(* web_dashboard.cpp:4685-4763 GET /api/admin/clients/:client_id/logs *)
Definition get_logs (clientId : str) (health : option ClientHealthStats) (w : Waited) : Response :=
  if negb (validateClientId clientId) then mkHttp 400 (err_body "invalid client_id")
  else match health with
  | None => mkHttp 200 not_connected
  | Some hs =>
      match w with
      | None => mkHttp 504 (err_body "client did not respond (timeout)")
      | Some r =>
          if negb (done_ r) then mkHttp 504 (err_body "client did not respond (timeout)")
          else if isError r then
            if match lines r with l :: _ => contains_str "unavailable" l | [] => false end then mkHttp 200 no_logging
            else mkHttp 500 (err_body "client reported error")
          else
            let level := if decide (cfgLogLevel hs = []) then ("Info" : str) else cfgLogLevel hs in
            mkHttp 200 ("{" ++ quoted "connected" ++ ":true," ++ quoted "file_logging" ++ ":true,"
              ++ quoted "level" ++ ":"%char :: quoted (jsonEsc level) ++ "," ++ quoted "files" ++ ":["
              ++ comma_sep (entry_json <$> omap list_entry (lines r)) ++ "]}" ++ [LF])
      end
  end.

(** ** Download *)

Section Download.
Context `{B64 : EvpBase64}.

Fixpoint trailing_eq (s : str) : nat :=
  match s with c :: s => if decide (c = "="%char) then S (trailing_eq s) else 0 | [] => 0 end.

(* web_dashboard.cpp:4923-4940 download handler, chunk *)
Definition decode_chunk (b64 : str) : str :=
  match DecodeBlock b64 with
  | None => []
  | Some raw => take (length raw - trailing_eq (rev b64)) raw
  end.

(** The words of a response line: the word after the request id, and where the
    text behind it starts. *)
(* web_dashboard.cpp:4896-4902 download handler, words *)
Definition get_words (line : str) : option (str * option nat) :=
  if negb (starts_with "get " line) then None
  else
    let? sp1 := find_char SP line in
    let? sp2 := find_char_from SP line (S sp1) in
    let sp3 := find_char_from SP line (S sp2) in
    Some (match sp3 with None => substr_from line (S sp2) | Some sp3 => substr line (S sp2) (sp3 - sp2 - 1) end, sp3).

(** The begin line only sizes the buffer. *)
(* web_dashboard.cpp:4894-4942 download handler, reassembly *)
Definition reassemble_line (fileData line : str) : str :=
  match get_words line with
  | Some (subtype, Some sp3) =>
      if decide (subtype = "chunk") then fileData ++ decode_chunk (substr_from line (S sp3)) else fileData
  | _ => fileData
  end.

Definition reassemble (ls : list str) : str := foldl reassemble_line [] ls.

Definition kMaxDownload : nat := Z.to_nat (50 * 1024 * 1024).

(* web_dashboard.cpp:4830-4950 GET /api/admin/clients/:client_id/logs/:filename *)
Definition get_log_file (clientId filename : str) (w : Waited) : Response :=
  if negb (validateClientId clientId) then mkHttp 400 (err_body "invalid client_id")
  else if negb (ok_filename filename) then mkHttp 400 (err_body "invalid filename")
  else match w with
  | None => mkHttp 503 (err_body "client not connected")
  | Some r =>
      if negb (done_ r) then mkHttp 504 (err_body "file transfer timed out")
      else if isError r then mkHttp 404 (err_body "file not found or client error")
      else mkHttp 200 (take kMaxDownload (reassemble (lines r)))
  end.
End Download.

(** ** Deletion *)

Definition ok_file_body (filename : str) : str :=
  "{" ++ quoted "ok" ++ ":true," ++ quoted "file" ++ ":"%char :: quoted (jsonEsc filename) ++ "}" ++ [LF].

(* web_dashboard.cpp:4953-5009 DELETE /api/admin/clients/:client_id/logs/:filename *)
Definition delete_log_file (clientId filename : str) (w : Waited) : Response :=
  if negb (validateClientId clientId) then mkHttp 400 (err_body "invalid client_id")
  else if negb (ok_filename filename) then mkHttp 400 (err_body "invalid filename")
  else match w with
  | None => mkHttp 503 (err_body "client not connected")
  | Some r =>
      if negb (done_ r) || isError r then
        let notFound := match lines r with l :: _ => contains_str "not-found" l | [] => false end in
        mkHttp (if notFound then 404 else if done_ r then 500 else 504)
               (err_body (if notFound then "file not found" else if done_ r then "client error" else "timeout"))
      else mkHttp 200 (ok_file_body filename)
  end.

(** [std::stoi]; [None] for either exception. *)
Definition stoi (s : str) : option Z :=
  match stoll s with
  | Some v => if (v <? - 2 ^ 31) || (2 ^ 31 - 1 <? v) then None else Some v
  | None => None
  end.

(* web_dashboard.cpp:5046-5057 delete-all handler, count *)
Fixpoint deleted_count (ls : list str) : Z :=
  match ls with
  | [] => 0
  | l :: ls =>
      if starts_with "del_all " l then
        match find_str " ok " l with
        | Some p => default 0 (stoi (substr_from l (p + 4)))
        | None => 0
        end
      else deleted_count ls
  end.

Definition deleted_body (n : Z) : str :=
  "{" ++ quoted "ok" ++ ":true," ++ quoted "deleted" ++ ":"%char :: print_int n ++ "}" ++ [LF].

(* web_dashboard.cpp:5012-5060 DELETE /api/admin/clients/:client_id/logs *)
Definition delete_all_logs (clientId : str) (w : Waited) : Response :=
  if negb (validateClientId clientId) then mkHttp 400 (err_body "invalid client_id")
  else match w with
  | None => mkHttp 503 (err_body "client not connected")
  | Some r =>
      if negb (done_ r) || isError r then
        mkHttp (if done_ r then 500 else 504) (err_body (if done_ r then "client error" else "timeout"))
      else mkHttp 200 (deleted_body (deleted_count (lines r)))
  end.

(** ** Log level *)

(* web_dashboard.cpp:4773-4789 loglevel handler, body *)
Definition level_of_body (body : str) : str :=
  match find_str (quoted "level") body with
  | None => []
  | Some lp =>
      match find_char_from ":" body (lp + 7) with
      | None => []
      | Some colon =>
          match find_char_from DQUOTE body (S colon) with
          | None => []
          | Some q1 =>
              match find_char_from DQUOTE body (S q1) with
              | None => []
              | Some q2 => substr body (S q1) (q2 - q1 - 1)
              end
          end
      end
  end.

Definition valid_level (l : str) : bool :=
  bool_decide (l = "Info") || bool_decide (l = "Warn") || bool_decide (l = "Err").

Definition ok_level_body (level : str) : str :=
  "{" ++ quoted "ok" ++ ":true," ++ quoted "level" ++ ":"%char :: quoted (jsonEsc level) ++ "}" ++ [LF].

(** [ch]: the channel when the wait ends, or none; the flag is consumed. *)
(* web_dashboard.cpp:4766-4827 POST /api/admin/clients/:client_id/loglevel *)
Definition set_loglevel (clientId body : str) (ch : option t) : Response * option t :=
  if negb (validateClientId clientId) then (mkHttp 400 (err_body "invalid client_id"), ch)
  else
    let level := level_of_body body in
    if negb (valid_level level) then (mkHttp 400 (err_body "level must be Info, Warn, or Err"), ch)
    else match ch with
    | None => (mkHttp 503 (err_body "client not connected"), ch)
    | Some c =>
        let c' := mk (pending c) (ackedLevel c) false (heap c) (next c) in
        if gotAck c then (mkHttp 200 (ok_level_body level), Some c')
        else (mkHttp 504 (err_body "client did not acknowledge (timeout)"), Some c')
    end.

(** ** Lemmas: words *)

(** A body: the sub-type, then words each behind a space. *)
Definition spaced_words (ws : list str) : str := concat (cons SP <$> ws).
Definition body_of (sub : str) (ws : list str) : str := sub ++ spaced_words ws.
Definition word (w : str) : Prop := SP ∉ w.

Lemma spaced_cons w ws : spaced_words (w :: ws) = SP :: w ++ spaced_words ws.
Proof. done. Qed.

Lemma find_space_word w ws : word w -> find_char SP (w ++ spaced_words ws) = match ws with [] => None | _ => Some (length w) end.
Proof.
  intros Hw. destruct ws as [| x ws].
  - cbn. rewrite app_nil_r. by apply find_char_None.
  - rewrite spaced_cons. by apply find_char_app.
Qed.

Lemma route_words_body sub q ws :
  word sub -> word q -> route_words (body_of sub (q :: ws)) = Some (sub, q, length sub).
Proof.
  intros Hs Hq. unfold route_words, body_of. rewrite find_space_word by done.
  rewrite spaced_cons. unfold find_char_from, substr, substr_from.
  assert (Ed : drop (S (length sub)) (sub ++ SP :: q ++ spaced_words ws) = q ++ spaced_words ws).
  { rewrite cons_middle, app_assoc. apply drop_length_app. rewrite length_app. cbn. lia. }
  rewrite Ed, find_space_word, drop_0, take_app_length by done.
  destruct ws as [| x ws]; cbn [fmap option_fmap option_map].
  - by rewrite app_nil_r.
  - do 3 f_equal. apply take_length_app. lia.
Qed.

(** A word that begins with [p] at a space. *)
Lemma starts_word p w ws : SP ∉ p -> starts_with p w = false -> starts_with p (w ++ spaced_words ws) = false.
Proof.
  intros Hp Hw. destruct ws as [| x ws]; [by cbn; rewrite app_nil_r |]. rewrite spaced_cons.
  destruct (starts_with p (w ++ _)) eqn:E; [| done]. apply starts_with_sep in E; [congruence | done].
Qed.

Lemma find_no_word p ws :
  SP ∉ p -> Forall (fun w => word w /\ starts_with p w = false) ws -> find_str (SP :: p) (spaced_words ws) = None.
Proof.
  intros Hp Hws. induction Hws as [| w ws [Hw Hs] _ IH]; [done |]. rewrite spaced_cons, find_str_eq, starts_with_cons.
  rewrite starts_word by done. rewrite andb_false_r, find_str_skip by done. by rewrite IH.
Qed.

Lemma isEnd_false sub q ws :
  word sub -> sub <> "del" -> sub <> "del_all" -> sub <> "err" ->
  Forall (fun w => word w /\ starts_with "end" w = false) (q :: ws) ->
  isEnd (body_of sub (q :: ws)) sub (length sub) = false.
Proof.
  intros Hs H1 H2 H3 Hw. unfold isEnd. rewrite !(bool_decide_false _ H1), (bool_decide_false _ H2), (bool_decide_false _ H3).
  unfold find_str_from, body_of. rewrite (proj2 (Nat.ltb_ge _ _)) by (rewrite length_app; lia).
  rewrite drop_app_length. change (" end" : str) with (SP :: ("end" : str)).
  rewrite find_no_word; [done | by apply (bool_decide_unpack _); vm_compute | done].
Qed.

Lemma isEnd_last (sub q : str) :
  (sub = "list" \/ sub = "get") -> word q -> starts_with "end" q = false ->
  isEnd (body_of sub [q; ("end" : str)]) sub (length sub) = true.
Proof.
  intros Hs Hq He. unfold isEnd.
  assert (Ef : exists i, find_str_from " end" (body_of sub [q; ("end" : str)]) (length sub) = Some i).
  { unfold find_str_from, body_of. rewrite (proj2 (Nat.ltb_ge _ _)) by (rewrite length_app; lia). rewrite drop_app_length.
    change (" end" : str) with (SP :: ("end" : str)). rewrite spaced_cons, find_str_eq, starts_with_cons.
    rewrite starts_word by (done || by apply (bool_decide_unpack _); vm_compute). rewrite andb_false_r, find_str_skip by done.
    change (spaced_words [("end" : str)]) with (SP :: ("end" : str)). rewrite find_str_eq. cbn. eauto. }
  destruct Ef as [i ->]. destruct Hs as [-> | ->]; done.
Qed.

(** ** Lemmas: routing a response *)

Definition route_all (c : t) (bodies : list str) : t := foldl routeLLine c bodies.

Definition plain_sub (sub : str) : Prop := word sub /\ match sub with c :: _ => c <> "a"%char | [] => False end.

Lemma not_ack sub ws : plain_sub sub -> starts_with kAckPrefix (body_of sub ws) = false.
Proof. intros [_ H]. destruct sub as [| c sub]; [done |]. apply starts_with_ne. congruence. Qed.

Lemma route_line c sub q ws p r :
  plain_sub sub -> word q -> pending c !! q = Some p -> heap c !! p = Some r ->
  let c' := routeLLine c (body_of sub (q :: ws)) in
  pending c' = pending c /\ heap c' !! p = Some (append_line r (body_of sub (q :: ws)) sub (length sub)).
Proof.
  intros Hs Hq Hp Hr. split; [apply routeLLine_pending |]. unfold routeLLine. rewrite not_ack by done.
  rewrite route_words_body by (done || apply Hs). rewrite Hp. cbn [heap]. by rewrite lookup_alter_eq, Hr.
Qed.

(** Words that no end marker can hide in. *)
Definition safe_word (w : str) : Prop := word w /\ starts_with "end" w = false.

Section Routing.
Context (sub q : str).
Hypothesis Hsub : sub = "list" \/ sub = "get".
Hypothesis Hq : safe_word q.

Lemma sub_plain : plain_sub sub /\ word sub /\ sub <> "del" /\ sub <> "del_all" /\ sub <> "err".
Proof.
  assert (H : word "list" /\ word "get") by (split; by apply (bool_decide_unpack _); vm_compute).
  destruct Hsub as [-> | ->]; split_conj; first [done | apply H | split; [apply H | done]].
Qed.

Lemma route_open wss c p r :
  pending c !! q = Some p -> heap c !! p = Some r -> isError r = false -> Forall (Forall safe_word) wss ->
  let bodies := (fun ws => body_of sub (q :: ws)) <$> wss in
  pending (route_all c bodies) = pending c /\
  heap (route_all c bodies) !! p = Some (mkResp (lines r ++ bodies) (done_ r) false).
Proof.
  destruct sub_plain as (Hpl & Hw & H1 & H2 & H3).
  intros Hp Hr He Hws. revert c r Hp Hr He. induction Hws as [| ws wss Hws _ IH]; intros c r Hp Hr He; cbn [fmap list_fmap route_all foldl].
  - split; [done |]. rewrite app_nil_r, <- He. by destruct r.
  - destruct (route_line c sub q ws p r Hpl (proj1 Hq) Hp Hr) as [Hp' Hr'].
    unfold append_line in Hr'. rewrite decide_False, isEnd_false, orb_false_r in Hr' by (done || by constructor).
    destruct (IH (routeLLine c (body_of sub (q :: ws))) _ ltac:(by rewrite Hp') Hr' He) as [IHp IHr].
    unfold route_all in IHp, IHr. cbn [lines done_] in IHr. split; [congruence |].
    rewrite IHr. by rewrite <- app_assoc.
Qed.

(** A response is complete with its last line and not before. *)
Lemma route_response wss c p :
  pending c !! q = Some p -> heap c !! p = Some (mkResp [] false false) -> Forall (Forall safe_word) wss ->
  let full := ((fun ws => body_of sub (q :: ws)) <$> wss) ++ [body_of sub [q; ("end" : str)]] in
  heap (route_all c full) !! p = Some (mkResp full true false) /\
  forall k, (k < length full)%nat -> heap (route_all c (take k full)) !! p = Some (mkResp (take k full) false false).
Proof.
  destruct sub_plain as (Hpl & Hw & H1 & H2 & H3). intros Hp Hr Hws full. split.
  - destruct (route_open wss c p _ Hp Hr eq_refl Hws) as [Hp' Hr']. unfold full, route_all in *. rewrite foldl_app. cbn [foldl].
    destruct (route_line _ sub q [("end" : str)] p _ Hpl (proj1 Hq) ltac:(rewrite Hp'; exact Hp) Hr') as [_ Hl]. rewrite Hl.
    unfold append_line. rewrite decide_False, isEnd_last by (done || apply Hq). by rewrite orb_true_r.
  - intros k Hk. unfold full in Hk. rewrite length_app, length_fmap in Hk. cbn in Hk. unfold full.
    rewrite take_app_le by (rewrite length_fmap; lia). rewrite <- fmap_take.
    apply (route_open (take k wss) c p (mkResp [] false false)); [done | done | done | by apply Forall_take].
Qed.
End Routing.

(** ** Lemmas: the response stream *)

(** The bodies the server's line loop hands to the channel. *)
Definition bodies_of (sent : list str) : list str := (fun l => substr_from l 2) <$> (split_lines (concat sent)).1.

Lemma bodies_respond ws : Forall (fun w => LF ∉ w) ws -> bodies_of (respond <$> ws) = ws.
Proof.
  intros H. unfold bodies_of. assert (E : split_lines (concat (respond <$> ws)) = ((fun w => kLogRespPrefix ++ w) <$> ws, [])).
  { induction H as [| w ws Hw _ IH]; [done |]. cbn [fmap list_fmap concat]. unfold respond at 1.
    assert (Ea : (kLogRespPrefix ++ w ++ [LF]) ++ concat (respond <$> ws) = (kLogRespPrefix ++ w) ++ LF :: concat (respond <$> ws)).
    { by rewrite <- !app_assoc. }
    rewrite Ea, split_lines_line, IH; [done |]. rewrite not_elem_of_app. split; [by apply (bool_decide_unpack _); vm_compute | done]. }
  rewrite E. cbn [fst]. rewrite <- list_fmap_compose. rewrite <- (list_fmap_id ws) at 2. by apply list_fmap_ext.
Qed.

Lemma drop_cons_app (l : str) c r : drop (S (length l)) (l ++ c :: r) = r.
Proof. induction l as [| x l IH]; [done | exact IH]. Qed.

Lemma get_words_body q w ws :
  word q -> word w ->
  get_words (body_of "get" (q :: w :: ws)) =
    Some (w, match ws with [] => None | _ => Some (length (body_of "get" [q; w])) end) /\
  substr_from (body_of "get" (q :: w :: ws)) (S (length (body_of "get" [q; w]))) = drop 1 (spaced_words ws).
Proof.
  intros Hq Hw. unfold body_of. rewrite !spaced_cons. change (spaced_words []) with ([] : str). rewrite (app_nil_r w).
  set (G := ("get" : str)).
  assert (HG : word G) by (by apply (bool_decide_unpack _); vm_compute).
  assert (Ed : drop (S (length G + S (length q))) (G ++ SP :: q ++ SP :: w ++ spaced_words ws) = w ++ spaced_words ws).
  { replace (S (length G + S (length q))) with (S (length (G ++ SP :: q))) by (rewrite length_app; cbn; lia).
    assert (E : G ++ SP :: q ++ SP :: w ++ spaced_words ws = (G ++ SP :: q) ++ SP :: w ++ spaced_words ws) by (by rewrite <- app_assoc).
    rewrite E. apply drop_cons_app. }
  split.
  - unfold get_words. change (starts_with "get " (G ++ SP :: ?x)) with true. cbn [negb].
    rewrite find_char_app by done. unfold find_char_from. rewrite drop_cons_app, find_char_app by done.
    cbn [fmap option_fmap option_map]. replace (S (length G) + length q)%nat with (length G + S (length q))%nat by lia.
    unfold substr, substr_from. rewrite Ed, find_space_word by done.
    destruct ws as [| x ws]; cbn [fmap option_fmap option_map]; [by rewrite app_nil_r |].
    rewrite (take_length_app w) by lia. do 3 f_equal. rewrite length_app. cbn. rewrite length_app. cbn. lia.
  - unfold substr_from. replace (S (length (G ++ SP :: q ++ SP :: w))) with (S (length G + S (length q)) + S (length w))%nat
      by (rewrite length_app; cbn; rewrite length_app; cbn; lia).
    rewrite <- drop_drop, Ed. destruct ws as [| x ws]; [rewrite app_nil_r, drop_ge; [done | lia] |].
    rewrite spaced_cons. apply drop_cons_app.
Qed.

(** ** The download *)

Section DownloadProps.
Context `{CR : Crypto} `{SH : Sha256} `{B64 : EvpBase64} {BL : EvpBase64Laws B64}.
Context (roots : RootSet).

Lemma trailing_replicate n s : "="%char ∉ s -> trailing_eq (replicate n "="%char ++ s) = n.
Proof.
  intros H. induction n as [| n IH]; cbn [replicate app trailing_eq].
  - destruct s as [| c s]; [done |]. apply not_elem_of_cons in H as [H _]. cbn. by rewrite decide_False by congruence.
  - by rewrite decide_True, IH.
Qed.

Lemma decode_chunk_encode s : decode_chunk (EncodeBlock s) = s.
Proof.
  destruct (decode_encode s) as (pad & Ed & sym & Es & Hs). unfold decode_chunk. rewrite Ed, Es.
  assert (Er : rev (sym ++ replicate (length pad) "="%char) = replicate (length pad) "="%char ++ rev sym).
  { rewrite rev_app_distr. f_equal. rewrite rev_alt. apply reverse_replicate. }
  rewrite Er, trailing_replicate by (by rewrite list_elem_of_In, <- in_rev, <- list_elem_of_In).
  apply take_length_app. rewrite length_app. lia.
Qed.

Lemma pieces_concat fuel n s : (0 < n)%nat -> (length s <= fuel)%nat -> concat (pieces fuel n s) = s.
Proof.
  intros Hn. revert s. induction fuel as [| fuel IH]; intros s Hs; [by destruct s; [| cbn in Hs; lia] |].
  cbn [pieces]. destruct s as [| c s]; [done |]. cbn [concat]. rewrite IH, take_drop; [done |].
  rewrite length_drop. cbn in *. lia.
Qed.

Definition chunk_body (q p : str) : str := body_of "get" [q; ("chunk" : str); EncodeBlock p].

Lemma respond_chunk q p : respond ("get " ++ q ++ " chunk " ++ EncodeBlock p) = respond (chunk_body q p).
Proof. unfold chunk_body, body_of, spaced_words. cbn. by rewrite app_nil_r. Qed.

Lemma send_chunks_all q ok i ps :
  (forall i, ok i = true) -> send_chunks q ok i ps = ((fun p => respond (chunk_body q p)) <$> ps, true).
Proof.
  intros Hok. revert i. induction ps as [| p ps IH]; intros i; [done |]. cbn [send_chunks]. by rewrite Hok, IH, respond_chunk.
Qed.

Lemma reassemble_chunks q out ps :
  word q -> foldl reassemble_line out ((chunk_body q) <$> ps) = out ++ concat ps.
Proof.
  intros Hq. revert out. induction ps as [| p ps IH]; intros out; cbn [fmap list_fmap foldl]; [by rewrite app_nil_r |].
  assert (E : reassemble_line out (chunk_body q p) = out ++ p).
  { unfold reassemble_line, chunk_body. destruct (get_words_body q "chunk" [EncodeBlock p] Hq) as [-> Hd];
      [by apply (bool_decide_unpack _); vm_compute |]. rewrite decide_True by done. rewrite Hd.
    rewrite spaced_cons. change (drop 1 (SP :: ?x)) with x. change (spaced_words []) with ([] : str).
    by rewrite app_nil_r, decode_chunk_encode. }
  rewrite E, IH. cbn [concat]. by rewrite app_assoc.
Qed.

(** ** Lemmas: requests *)

(** A request id as [generateReqId] makes it. *)
Definition req_id_ok (q : str) : Prop := Forall (fun c => is_hex_lower c = true) q /\ (0 < length q <= kCtrlReqIdMaxLen)%nat.

Lemma hex_lower_char c : is_hex_lower c = true -> c <> SP /\ c <> LF /\ c <> "n"%char /\ c <> "i"%char.
Proof.
  intros H.
  assert (E : forallb (fun c => implb (is_hex_lower c) (negb (char_in [SP; LF; "n"%char; "i"%char] c))) all_bytes = true)
    by (vm_compute; reflexivity).
  pose proof (byte_forall _ E c) as Hc. cbv beta in Hc. rewrite H in Hc. cbn [implb] in Hc.
  unfold char_in in Hc. bool_to_prop. rewrite !not_elem_of_cons in Hc. tauto.
Qed.

(** No marker word with a letter that is not a hexadecimal digit. *)
Lemma hex_no_prefix a b c r q :
  (c = "n"%char \/ c = "i"%char) -> Forall (fun c => is_hex_lower c = true) q ->
  starts_with (a :: c :: r) q = false /\ starts_with (a :: b :: c :: r) q = false.
Proof.
  intros Hc Hq. assert (Hne : forall x, is_hex_lower x = true -> c <> x).
  { intros x Hx ->. destruct (hex_lower_char x Hx) as (_ & _ & ? & ?). by destruct Hc. }
  split.
  - destruct Hq as [| x q1 Hx [| y q2 Hy Hq]]; try done; [cbn; by rewrite andb_false_r |].
    rewrite starts_with_cons, starts_with_ne by auto. apply andb_false_r.
  - destruct Hq as [| x q1 Hx [| y q2 Hy [| z q3 Hz Hq]]]; try done; try (cbn; by rewrite !andb_false_r).
    rewrite !starts_with_cons. rewrite (bool_decide_false (c = z)) by auto. cbn. by rewrite !andb_false_r.
Qed.

Lemma hex_safe q : Forall (fun c => is_hex_lower c = true) q -> safe_word q /\ (LF ∉ q).
Proof.
  intros Hq. split_conj; [split |].
  - intros Hin. rewrite Forall_forall in Hq. by destruct (hex_lower_char _ (Hq _ Hin)).
  - apply (hex_no_prefix "e" "n" "n" ["d"%char]); auto.
  - intros Hin. rewrite Forall_forall in Hq. by destruct (hex_lower_char _ (Hq _ Hin)) as (_ & ? & _).
Qed.

Lemma to_string_safe z : safe_word (to_string z) /\ (LF ∉ to_string z).
Proof.
  split_conj; [split |]; try (by apply to_string_no).
  pose proof (to_string_digits z) as H. destruct H as [| c s Hc _]; [done |]. apply starts_with_ne. by intros <-.
Qed.

Lemma filename_text f : ok_filename f = true -> word f /\ (LF ∉ f) /\ f <> [] /\ ("/"%char ∉ f) /\ (BSLASH ∉ f).
Proof.
  unfold ok_filename. rewrite andb_true_iff, negb_true_iff, bool_decide_eq_false, forallb_Forall. intros [Hne Hf].
  set (g := fun c => is_digit c || is_lower c || is_upper c || char_in ["-"%char; "_"%char; "."%char] c) in Hf.
  assert (E : forallb (fun c => implb (g c) (negb (char_in [SP; LF; "/"%char; BSLASH] c))) all_bytes = true) by (vm_compute; reflexivity).
  assert (Hn : forall c, c ∈ f -> char_in [SP; LF; "/"%char; BSLASH] c = false).
  { intros c Hc. rewrite Forall_forall in Hf. specialize (Hf c Hc). pose proof (byte_forall _ E c) as H. cbv beta in H.
    change (g c = true) in Hf. rewrite Hf in H. by apply negb_true_iff in H. }
  split_conj; try done; intros Hc; specialize (Hn _ Hc); revert Hn; by vm_compute.
Qed.

(** The client reads the command, the request id and the rest. *)
Lemma ctrl_words_line cmd q rest :
  word cmd -> word q -> (0 < length q <= kCtrlReqIdMaxLen)%nat ->
  ctrl_words (cmd ++ SP :: q ++ match rest with Some f => SP :: f | None => [] end) = Some (cmd, q, rest).
Proof.
  intros Hc Hq Hl. unfold ctrl_words. rewrite find_char_app by done. unfold find_char_from, substr, substr_from.
  rewrite drop_cons_app, drop_0, take_app_length.
  assert (Hb : bool_decide (q = []) || (kCtrlReqIdMaxLen <? length q)%nat = false).
  { rewrite bool_decide_false by (intros ->; cbn in Hl; lia). rewrite (proj2 (Nat.ltb_ge _ _)) by lia. done. }
  destruct rest as [f |].
  - rewrite find_char_app by done. cbn [fmap option_fmap option_map]. rewrite (take_length_app q) by lia. rewrite Hb.
    do 2 f_equal. replace (S (S (length cmd) + length q)) with (S (length cmd) + S (length q))%nat by lia.
    by rewrite <- drop_drop, drop_cons_app, drop_cons_app.
  - rewrite app_nil_r. rewrite (proj2 (find_char_None SP q)) by done. cbn [fmap option_fmap option_map]. by rewrite Hb.
Qed.

(** ** The responses *)

Lemma hexEncode_hex s : Forall (fun c => is_hex_lower c = true) (hexEncode s).
Proof.
  unfold hexEncode. apply Forall_forall. intros c Hc. apply list_elem_of_In, in_concat in Hc as (l & Hl & Hc).
  apply in_map_iff in Hl as (x & <- & _). apply list_elem_of_In in Hc.
  assert (E : forallb (fun x => forallb is_hex_lower [kHex (Z.land (Z.shiftr (byte_val x) 4) 0xF); kHex (Z.land (byte_val x) 0xF)]) all_bytes = true)
    by (vm_compute; reflexivity).
  pose proof (byte_forall _ E x) as H. cbv beta in H. rewrite forallb_forall in H. apply H. by apply list_elem_of_In.
Qed.

Definition get_words_list (f : str) (content sha : str) : list (list str) :=
  [("begin" : str); f; to_string (Z.of_nat (length content)); sha]
  :: ((fun p => [("chunk" : str); EncodeBlock p]) <$> pieces (length content) kRawChunk content).

Definition get_bodies (q f content sha : str) : list str :=
  ((fun ws => body_of "get" (q :: ws)) <$> get_words_list f content sha) ++ [body_of "get" [q; ("end" : str)]].

Lemma log_get_sent e q f content s :
  active_ (logger s) = true -> logs s !! f = Some content -> c_rehash e = true -> (forall i, c_chunk_ok e i = true) ->
  log_get e q f s = respond <$> get_bodies q f content (hexEncode (sha256_digest content)).
Proof.
  intros Ha Hf Hr Hok. unfold log_get. rewrite Ha, Hf, Hr. cbn [negb]. rewrite send_chunks_all by done.
  unfold get_bodies, get_words_list. rewrite fmap_app, fmap_cons. cbn [fmap list_fmap app]. f_equal.
  - f_equal. unfold body_of, spaced_words. cbn. by rewrite app_nil_r.
  - f_equal. rewrite <- !list_fmap_compose. by apply list_fmap_ext.
Qed.

Lemma lit_safe (w : str) : bool_decide (SP ∉ w) && negb (starts_with "end" w) = true -> safe_word w.
Proof. rewrite andb_true_iff, negb_true_iff, bool_decide_eq_true. done. Qed.

Lemma encode_word p : word (EncodeBlock p) /\ (LF ∉ EncodeBlock p).
Proof.
  pose proof (encode_text p) as H. rewrite Forall_forall in H.
  split; intros Hin; apply H in Hin; revert Hin; vm_compute; intros [H1 _]; by apply H1.
Qed.

(** No chunk whose encoding looks like the end marker. *)
Definition chunks_safe (content : str) : Prop :=
  Forall (fun p => starts_with "end" (EncodeBlock p) = false) (pieces (length content) kRawChunk content).

Lemma get_words_safe f content sha :
  ok_filename f = true -> starts_with "end" f = false -> chunks_safe content -> Forall (fun c => is_hex_lower c = true) sha ->
  Forall (Forall safe_word) (get_words_list f content sha).
Proof.
  intros Hf He Hc Hs. constructor.
  - constructor; [by apply lit_safe; vm_compute |]. constructor; [split; [apply (filename_text f Hf) | done] |].
    constructor; [apply to_string_safe |]. constructor; [by apply hex_safe | constructor].
  - apply Forall_fmap. eapply Forall_impl; [exact Hc |]. intros p Hp. unfold compose.
    constructor; [by apply lit_safe; vm_compute |]. constructor; [split; [apply encode_word | done] | constructor].
Qed.

Lemma body_noLF sub ws : LF ∉ sub -> Forall (fun w => LF ∉ w) ws -> LF ∉ body_of sub ws.
Proof.
  intros Hs Hw. unfold body_of. rewrite not_elem_of_app. split; [done |].
  induction Hw as [| w ws Hw _ IH]; [apply not_elem_of_nil |]. rewrite spaced_cons, not_elem_of_cons, not_elem_of_app. done.
Qed.

Lemma get_bodies_noLF q f content sha :
  ok_filename f = true -> LF ∉ q -> LF ∉ sha -> Forall (fun w => LF ∉ w) (get_bodies q f content sha).
Proof.
  intros Hf Hq Hs. assert (Hg : LF ∉ ("get" : str)) by (by apply (bool_decide_unpack _); vm_compute).
  unfold get_bodies. apply Forall_app. split; [| constructor; [| constructor]].
  - apply Forall_fmap. unfold get_words_list. constructor.
    + unfold compose. apply body_noLF; [done |]. constructor; [done |]. constructor; [by apply (bool_decide_unpack _); vm_compute |].
      constructor; [apply (filename_text f Hf) |]. constructor; [apply to_string_safe |]. by constructor.
    + apply Forall_fmap, Forall_true. intros p. unfold compose. apply body_noLF; [done |].
      constructor; [done |]. constructor; [by apply (bool_decide_unpack _); vm_compute |]. constructor; [apply encode_word | constructor].
  - apply body_noLF; [done |]. constructor; [done |]. constructor; [by apply (bool_decide_unpack _); vm_compute | constructor].
Qed.

(** What the handler reassembles from the complete response. *)
Lemma reassemble_bodies q f content sha : word q -> reassemble (get_bodies q f content sha) = content.
Proof.
  intros Hq. unfold reassemble, get_bodies, get_words_list. cbn [fmap list_fmap app foldl].
  assert (Eb : forall x, reassemble_line x (body_of "get" [q; ("begin" : str); f; to_string (Z.of_nat (length content)); sha]) = x).
  { intros x. unfold reassemble_line. destruct (get_words_body q "begin" [f; to_string (Z.of_nat (length content)); sha] Hq) as [-> _];
      [by apply (bool_decide_unpack _); vm_compute |]. done. }
  rewrite Eb, foldl_app. cbn [foldl].
  rewrite <- list_fmap_compose. change ((fun ws => body_of "get" (q :: ws)) ∘ (fun p => [("chunk" : str); EncodeBlock p])) with (chunk_body q).
  rewrite reassemble_chunks, pieces_concat by (done || unfold kRawChunk; lia). cbn [app].
  unfold reassemble_line. destruct (get_words_body q "end" [] Hq) as [-> _]; [by apply (bool_decide_unpack _); vm_compute |]. done.
Qed.

(** C15: downloading a log file through the control channel is exact: for a
    whitelisted name and a file of at most 50 MiB none of whose chunks encodes
    to text beginning with the end marker, the client's answer to the
    handler's request leaves its state alone, the response is incomplete
    after every proper prefix of the answer's lines, and complete with the
    last one, and the handler then serves exactly the bytes of the file. *)
Theorem log_download_exact (c : t) (e : CtrlEnv) (s : CtrlState) (clientId q f content : str) :
  validateClientId clientId = true -> ok_filename f = true -> contains_str ".." f = false -> starts_with "end" f = false ->
  req_id_ok q -> active_ (logger s) = true -> logs s !! f = Some content -> (length content <= kMaxDownload)%nat ->
  c_rehash e = true -> (forall i, c_chunk_ok e i = true) -> chunks_safe content ->
  let (c1, p) := registerPending c q in
  let (s', sent) := processCtrlLine roots e (c_line "log_get" q (Some f)) s in
  let bodies := bodies_of sent in
  s' = s /\
  (forall k, (k < length bodies)%nat ->
     exists r, heap (route_all c1 (take k bodies)) !! p = Some r /\ done_ r = false) /\
  exists r, heap (route_all c1 bodies) !! p = Some r /\ get_log_file clientId f (Some r) = mkHttp 200 content.
Proof.
  intros Hid Hf Hdd Hend [Hq Hql] Ha Hl Hlen Hr Hok Hch. destruct (hex_safe q Hq) as [Hqs HqLF].
  destruct (filename_text f Hf) as (Hfw & HfLF & Hfne & Hfs & Hfb).
  cbn [registerPending]. set (c1 := mk _ _ _ _ _).
  assert (Ep : processCtrlLine roots e (c_line "log_get" q (Some f)) s = (s, log_get e q f s)).
  { unfold processCtrlLine, c_line. change (negb (starts_with "C " ("C " ++ ?x))) with false. cbv iota.
    change (substr_from ("C " ++ ?x) 2) with x. change (starts_with "set_loglevel " ("log_get" ++ ?x)) with false. cbv iota.
    rewrite (ctrl_words_line "log_get" q (Some f)) by (apply Hqs || done || by apply (bool_decide_unpack _); vm_compute).
    rewrite !decide_False by done. unfold bad_filename. rewrite bool_decide_false by done. unfold contains_char.
    rewrite (proj2 (find_char_None _ _) Hfs), (proj2 (find_char_None _ _) Hfb), Hdd. cbn [orb].
    by rewrite decide_True. }
  rewrite Ep, (log_get_sent _ _ _ content) by done. split; [done |].
  set (sha := hexEncode (sha256_digest content)). pose proof (hexEncode_hex (sha256_digest content) : Forall _ sha) as Hsha.
  rewrite bodies_respond by (apply get_bodies_noLF; [done | done | by apply hex_safe]).
  destruct (route_response "get" q (or_intror eq_refl) Hqs (get_words_list f content sha) c1 (next c)) as [Hfull Hpre];
    [apply lookup_insert_eq | apply lookup_insert_eq | by apply get_words_safe |]. split.
  - intros k Hk. eexists. split; [by apply Hpre | done].
  - eexists. split; [exact Hfull |]. unfold get_log_file. rewrite Hid, Hf. cbn [negb done_ isError lines].
    change (((fun ws => body_of "get" (q :: ws)) <$> get_words_list f content sha) ++ [body_of "get" [q; ("end" : str)]])
      with (get_bodies q f content sha).
    rewrite reassemble_bodies by apply Hqs. by rewrite firstn_all2.
Qed.
End DownloadProps.

(** ** Witness *)

(** The encoder of [Base64] in place of OpenSSL's; the decoder appends a zero
    byte per padding sign. *)
#[local] Instance sample_b64 : EvpBase64 := {
  EncodeBlock := b64Encode;
  DecodeBlock e := if decide (e = []) then Some [] else let? o := b64Decode e in Some (o ++ replicate (Z.to_nat (pad_of o)) NUL)
}.

Lemma encode_pad s :
  length (b64Encode s) = ((length s + 2) / 3 * 4)%nat /\
  exists sym, b64Encode s = sym ++ replicate (Z.to_nat (pad_of s)) "="%char /\ "="%char ∉ sym.
Proof.
  assert (Hn : forall c, b64_val c <> None -> c <> "="%char) by (intros c H ->; by apply H).
  assert (Hs : forall v, 0 <= v < 64 -> b64_sym v <> "="%char) by (intros v Hv; apply Hn; by rewrite b64_val_sym).
  assert (Hd : forall a : ascii, 0 <= byte_val a / 4 < 64 /\ 0 <= byte_val a mod 4 * 16 < 64 /\ 0 <= byte_val a / 16 < 16 /\
    0 <= byte_val a mod 16 * 4 < 64 /\ 0 <= byte_val a / 64 < 4 /\ 0 <= byte_val a mod 64 < 64).
  { intros a. pose proof (byte_val_range a). Z.to_euclidean_division_equations; lia. }
  assert (Hm : forall x y z k, 0 <= x mod y * z < 64 -> 0 <= k < z -> 0 < y -> y * z = 64 -> 0 <= x mod y * z + k < 64).
  { intros x y z k H1 H2 H3 H4. pose proof (Z.mod_pos_bound x y H3). nia. }
  induction s as [|a|a b|a b c s (Hl & sym & Es & Hp)] using list3_ind; cbn [b64Encode].
  - split; [done |]. exists []. split; [done | apply not_elem_of_nil].
  - destruct (Hd a) as (? & ? & _). split; [done |]. eexists [_; _]. split; [done |].
    rewrite !not_elem_of_cons. split_conj; try (apply not_eq_sym, Hs; lia). apply not_elem_of_nil.
  - destruct (Hd a) as (? & ? & _). destruct (Hd b) as (_ & _ & ? & ? & _). split; [done |]. eexists [_; _; _]. split; [done |].
    rewrite !not_elem_of_cons. split_conj; try (apply not_eq_sym, Hs; first [lia | by apply Hm]). apply not_elem_of_nil.
  - destruct (Hd a) as (? & ? & _). destruct (Hd b) as (_ & _ & ? & ? & _). destruct (Hd c) as (_ & _ & _ & _ & ? & ?).
    split.
    + cbn [length]. rewrite Hl. replace (S (S (S (length s))) + 2)%nat with (length s + 2 + 1 * 3)%nat by lia.
      rewrite Nat.div_add by lia. lia.
    + rewrite pad_of_cons3, Es. eexists (_ :: _ :: _ :: _ :: sym). split; [done |].
      rewrite !not_elem_of_cons. split_conj; try (apply not_eq_sym, Hs; first [lia | by apply Hm]). done.
Qed.

#[local] Instance sample_b64_laws : EvpBase64Laws sample_b64.
Proof.
  split; cbn [EncodeBlock DecodeBlock sample_b64]; intros s.
  - destruct (encode_pad s) as (_ & sym & Es & Hp). exists (replicate (Z.to_nat (pad_of s)) NUL). split.
    + case_decide as Hd.
      * apply b64Encode_nil_iff in Hd as ->. done.
      * rewrite b64Encode_nil_iff in Hd. by rewrite (proj2 (b64Decode_iff _ s)).
    + exists sym. by rewrite length_replicate.
  - apply encode_pad.
  - eapply Forall_impl; [apply b64Encode_ok |]. intros c H.
    assert (E : forallb (fun c => implb (b64_ok c) ((0x21 <=? byte_val c) && (byte_val c <=? 0x7e))) all_bytes = true)
      by (vm_compute; reflexivity).
    pose proof (byte_forall _ E c) as Hc. cbv beta in Hc, H. rewrite H in Hc. cbn [implb] in Hc. bool_to_prop. lia.
Qed.

Definition sample_id : str := replicate 64 "a"%char.
Definition sample_log : str := nameForDate "2026-03-02".
Definition sample_ctrl_env : CtrlEnv := mkCtrlEnv sample_now all_open false sample_env true (fun _ => true).
Definition sample_ctrl (content : str) : CtrlState :=
  mkCtrl {[ sample_log := content ]} (mkLogger "/var/log/ntm" sample_log true (Z.of_nat (length content)) "2026-03-02" true LInfo) sample_upd.

(** A request of the handler answered by the client: what the handler sends
    back to the administrator. *)
Definition served (req : str -> str) (handler : LogCmdResponse -> Response) (s : CtrlState) : option Response :=
  let (c, p) := registerPending CtrlChannel.new "r1" in
  let (_, sent) := processCtrlLine sample_roots sample_ctrl_env (req "r1") s in
  handler <$> heap (route_all c (bodies_of sent)) !! p.

Lemma log_download_exact_witness :
  let (c1, p) := registerPending CtrlChannel.new "a1" in
  let bodies := bodies_of (processCtrlLine sample_roots sample_ctrl_env (c_line "log_get" "a1" (Some sample_log)) (sample_ctrl "hello")).2 in
  exists r, heap (route_all c1 bodies) !! p = Some r /\ get_log_file sample_id sample_log (Some r) = mkHttp 200 "hello".
Proof.
  assert (H1 : validateClientId sample_id = true) by (by vm_compute).
  assert (H2 : ok_filename sample_log = true) by (by vm_compute).
  assert (H3 : req_id_ok "a1") by (split; [repeat constructor | cbn; unfold kCtrlReqIdMaxLen; lia]).
  assert (H4 : chunks_safe "hello") by (unfold chunks_safe; vm_compute; repeat constructor).
  assert (H5 : (length ("hello" : str) <= kMaxDownload)%nat) by (change (5 <= Z.to_nat (50 * 1024 * 1024))%nat; lia).
  pose proof (log_download_exact sample_roots CtrlChannel.new sample_ctrl_env (sample_ctrl "hello") sample_id "a1" sample_log "hello"
    H1 H2 eq_refl eq_refl H3 eq_refl (lookup_singleton_eq _ _) H5 eq_refl (fun _ => eq_refl) H4) as H.
  revert H. destruct (registerPending CtrlChannel.new "a1") as [c1 p]. destruct (processCtrlLine _ _ _ _) as [s' sent].
  intros (_ & _ & H). exact H.
Defined.

(** A file whose text encodes to a chunk that begins like the end marker is
    served as soon as that chunk arrives: here the rest of the answer is
    lost when the handler wakes between the lines. *)
Lemma download_premature_end :
  let (c1, p) := registerPending CtrlChannel.new "a1" in
  let bodies := bodies_of (processCtrlLine sample_roots sample_ctrl_env (c_line "log_get" "a1" (Some sample_log)) (sample_ctrl "zwe")).2 in
  bodies = [("get a1 begin ntm-client-2026-03-02.log 3 " ++ hexEncode (sha256_digest "zwe")) : str; "get a1 chunk endl" : str; "get a1 end" : str] /\
  done_ <$> heap (route_all c1 (take 2 bodies)) !! p = Some true.
Proof. vm_compute. done. Qed.

(** Deleting a log that does not exist is reported to the administrator as a
    success: the client's [del ... err] line does not set the error flag. *)
Lemma delete_missing_reported_ok :
  served (fun q => c_line "log_delete" q (Some ("gone.log" : str))) (fun r => delete_log_file sample_id "gone.log" (Some r)) (sample_ctrl "x")
  = Some (mkHttp 200 (ok_file_body "gone.log")).
Proof. vm_compute. done. Qed.
