(* ===== verification/WebGate.v ===== *)
(** Who may call the web interface: the header and path helpers of
    [web_auth.hpp], the demo tokens, the pre-routing handler and the session
    endpoints of [web_dashboard.cpp]. The passkey sessions are those of
    [WebAuthn], the limiters those of [RateLimit]. *)

From S2P Require Import Prelude CppString HttpUtil Registry TrafficStats Updater Base64Url Passkeys WebAuthn Ceremony RateLimit RemoteLogs.
Local Open Scope Z_scope.

(** ** Headers *)

Definition cookie_pad : ascii -> bool := char_in [SP].

(** Every round passes a semicolon; the fuel is one more than the length. *)
(* web_auth.hpp:34-51 cookieFromHeader, loop *)
Fixpoint cookie_loop (fuel : nat) (prefix s : str) : str :=
  match fuel with
  | O => []
  | S fuel =>
      match s with
      | [] => []
      | _ =>
          let s := trim_front cookie_pad s in
          if starts_with prefix s then
            let v := drop (length prefix) s in
            match find_char ";" v with None => v | Some e => take e v end
          else match find_char ";" s with None => [] | Some i => cookie_loop fuel prefix (drop (S i) s) end
      end
  end.

(* web_auth.hpp:29-52 cookieFromHeader *)
Definition cookieFromHeader (cookieHeader name : str) : str :=
  cookie_loop (S (length cookieHeader)) (name ++ "=") cookieHeader.

(* web_auth.hpp:61-67 sessionFromHeaders *)
Definition sessionFromHeaders (authHeader cookieHeader : str) : str :=
  if (7 <? length authHeader)%nat && bool_decide (take 7 authHeader = "Bearer ") then drop 7 authHeader
  else cookieFromHeader cookieHeader "ntm_session".

(* web_auth.hpp:85-101 effectiveClientIPFromHeaders *)
Definition effectiveClientIPFromHeaders (remoteAddr trustedProxy cfConnectingIP xForwardedFor : str) : str :=
  if bool_decide (trustedProxy = []) || negb (bool_decide (remoteAddr = trustedProxy)) then remoteAddr
  else if negb (bool_decide (cfConnectingIP = [])) then cfConnectingIP
  else if negb (bool_decide (xForwardedFor = [])) then
    match find_char "," xForwardedFor with None => xForwardedFor | Some comma => take comma xForwardedFor end
  else remoteAddr.

(* web_auth.hpp:158-161 isTrustedProxyCatchAll *)
Definition isTrustedProxyCatchAll (addr : str) : bool :=
  bool_decide (addr = "0.0.0.0") || bool_decide (addr = "::") || bool_decide (addr = "0:0:0:0:0:0:0:0").

(** ** Paths *)

Definition exempt_paths : list str :=
  ["/login" : str; "/.well-known/apple-app-site-association" : str; "/api/demo/begin" : str; "/api/session" : str;
   "/api/update/check" : str; "/api/update/download" : str; "/api/update/download_sig" : str;
   "/admin/upgrade/nonce" : str; "/admin/upgrade/push" : str; "/admin/client/nonce" : str; "/admin/client/push" : str].

(* web_auth.hpp:110-128 isAuthExemptPath *)
Definition isAuthExemptPath (path : str) : bool :=
  bool_decide (path ∈ exempt_paths) || ((6 <=? length path)%nat && bool_decide (take 6 path = "/auth/")).

(* web_auth.hpp:132-135 isAdminApiPath *)
Definition isAdminApiPath (path : str) : bool :=
  (11 <=? length path)%nat && bool_decide (take 11 path = "/api/admin/").

(* web_auth.hpp:144-147 hasDemoTokenPrefix *)
Definition hasDemoTokenPrefix (token : str) : bool :=
  (5 <=? length token)%nat && bool_decide (take 5 token = "demo_").

(** ** Demo tokens *)

(* proto_client_server.hpp:88-88 kDemoSessionSec *)
Definition kDemoSessionSec : Z := 900.
Definition kMaxDemoTokens : nat := Z.to_nat 1000.

(** Two lowercase digits per byte, after the prefix. *)
(* web_dashboard.cpp:59-72 generateDemoToken *)
Definition generateDemoToken (buf : str) : str := "demo_" ++ Upgrade.hexEncode buf.

(* web_dashboard.cpp:75-85 checkDemoToken *)
Definition checkDemoToken (now : Z) (token : str) (toks : gmap str Z) : gmap str Z * bool :=
  if negb (hasDemoTokenPrefix token) then (toks, false)
  else match toks !! token with
       | None => (toks, false)
       | Some expiry => if expiry <=? now then (delete token toks, false) else (toks, true)
       end.

Section Gate.
Context `{SH : StdHash} `{SHA : Sha256} `{EC : P256} (cfg : WebAuthnConfig).

(** [std::min_element] over the table in its traversal order: the first
    element with the least expiry. *)
Definition min_elem (l : list (str * Z)) : option str :=
  fst <$> foldl (fun best x => match best with
                               | None => Some x
                               | Some b => if x.2 <? b.2 then Some x else best
                               end) None l.

(* web_dashboard.cpp:3469-3486 POST /api/demo/begin, token table *)
Definition issueDemoToken (now : Z) (token : str) (toks : gmap str Z) : gmap str Z :=
  let toks := filter (fun kv => now < kv.2) toks in
  let toks := if (kMaxDemoTokens <=? size toks)%nat
              then match min_elem (iter toks) with Some k => delete k toks | None => toks end
              else toks in
  match toks !! token with Some _ => toks | None => <[token := now + kDemoSessionSec]> toks end.

Definition demo_body (token : str) : str :=
  "{" ++ quoted "ok" ++ ":true," ++ quoted "token" ++ ":"%char :: quoted token ++ "," ++ quoted "expires_in" ++ ":900}" ++ [LF].

(* web_dashboard.cpp:3458-3498 POST /api/demo/begin *)
Definition demo_begin (enabled : bool) (now : Z) (buf : str) (toks : gmap str Z) : gmap str Z * Response :=
  if negb enabled then (toks, mkHttp 503 (err_body "demo is disabled"))
  else let token := generateDemoToken buf in (issueDemoToken now token toks, mkHttp 200 (demo_body token)).

(** ** The pre-routing handler *)

Record Request := mkRequest {
  remote_addr : str; method : str; path : str;
  h_authorization : str; h_cookie : str; h_cf_connecting_ip : str; h_forwarded_for : str; body : str
}.

(* web_dashboard.cpp:660-664 sessionFromRequest *)
Definition sessionFromRequest (req : Request) : str := sessionFromHeaders (h_authorization req) (h_cookie req).

(* web_dashboard.cpp:647-653 effectiveClientIP *)
Definition effectiveClientIP (trusted_proxy : str) (req : Request) : str :=
  effectiveClientIPFromHeaders (remote_addr req) trusted_proxy (h_cf_connecting_ip req) (h_forwarded_for req).

Record WebConfig := mkWebConfig { trusted_proxy : str; rate_limit_rpm : Z }.

(** What the handler shares with the rest of the web server. *)
Record Web := mkWeb {
  rateLimiter : WebRateLimiter.t;
  sessionRateLimiter : WebRateLimiter.t;
  demoTokens : gmap str Z;
  webauthn : RP;
  dashboard_ips : MonitoringIpSet.t
}.

Definition set_rate (l : WebRateLimiter.t) (s : Web) : Web := mkWeb l (sessionRateLimiter s) (demoTokens s) (webauthn s) (dashboard_ips s).
Definition set_session_rate (l : WebRateLimiter.t) (s : Web) : Web := mkWeb (rateLimiter s) l (demoTokens s) (webauthn s) (dashboard_ips s).
Definition set_demo (d : gmap str Z) (s : Web) : Web := mkWeb (rateLimiter s) (sessionRateLimiter s) d (webauthn s) (dashboard_ips s).
Definition set_webauthn (w : RP) (s : Web) : Web := mkWeb (rateLimiter s) (sessionRateLimiter s) (demoTokens s) w (dashboard_ips s).
Definition set_ips (i : MonitoringIpSet.t) (s : Web) : Web := mkWeb (rateLimiter s) (sessionRateLimiter s) (demoTokens s) (webauthn s) i.

(** The clock readings of one request: seconds of the system clock for the
    demo token and the address table, nanoseconds of the steady clock for the
    limiter, the session, its limiter and the role. *)
Record Clock := mkClock { sys : Z; t_rate : Z; t_valid : Z; t_sess : Z; t_admin : Z }.

Inductive Verdict := Handled (status : Z) (text : str) | Unhandled.

(* web_dashboard.cpp:2781-2794 pre-routing, authentication required *)
Definition unauthenticated (req : Request) : Verdict :=
  if ((4 <=? length (path req))%nat && bool_decide (take 4 (path req) = "/api")) || negb (bool_decide (method req = "GET"))
  then Handled 401 (err_body "authentication required")
  else Handled 302 [].

(* web_dashboard.cpp:2799-2824 pre-routing, session limit and role *)
Definition authenticated (c : Clock) (token : str) (req : Request) (s : Web) : Web * Verdict :=
  let (s, ok) :=
    if negb (bool_decide (path req = "/api/admin/clients")) && negb (contains_str "/update/status" (path req))
    then let (l, ok) := WebRateLimiter.tryAcquire 300 (t_sess c) (take 32 token) (sessionRateLimiter s) in (set_session_rate l s, ok)
    else (s, true) in
  if negb ok then (s, Handled 429 (err_body "session rate limit exceeded"))
  else if isAdminApiPath (path req) then
    let (w, adm) := isAdminSession cfg (t_admin c) token (webauthn s) in
    (set_webauthn w s, if adm then Unhandled else Handled 403 (err_body "admin authentication required"))
  else (s, Unhandled).

(* web_dashboard.cpp:2740-2838 pre-routing handler *)
Definition preRouting (web : WebConfig) (c : Clock) (req : Request) (s : Web) : Web * Verdict :=
  let ip := effectiveClientIP (trusted_proxy web) req in
  if isAuthExemptPath (path req) then
    let (l, ok) := WebRateLimiter.tryAcquire (rate_limit_rpm web) (t_rate c) ip (rateLimiter s) in
    (set_rate l s, if ok then Unhandled else Handled 429 (err_body "rate limit exceeded"))
  else
    let token := sessionFromRequest req in
    let (toks, demo) := checkDemoToken (sys c) token (demoTokens s) in
    let s := set_demo toks s in
    if demo then
      (s, if isAdminApiPath (path req) then Handled 403 (err_body "admin access not available in demo mode") else Unhandled)
    else if decide (token = []) then (s, unauthenticated req)
    else
      let (w, ok) := isValidSession cfg (t_valid c) token (webauthn s) in
      let s := set_webauthn w s in
      if negb ok then (s, unauthenticated req)
      else authenticated c token req (set_ips (MonitoringIpSet.add (dashboard_ips s) ip (sys c)) s).

(** ** Session endpoints *)

(** The clock readings, the random token and whether the credentials file
    opens are those of [completeAuthentication]. *)
(* web_dashboard.cpp:3512-3541 POST /auth/login/complete *)
Definition login_complete (t_sweep t_check now : Z) (random : str) (opens : bool) (req : Request) (s : Web) : Web * (Response * option str) :=
  let f := jsonGetString (body req) in
  let sessionKey := f "session_key" in let credId := f "credential_id" in
  let authData := f "authenticator_data" in let cdJson := f "client_data_json" in let sig := f "signature" in
  if bool_decide (sessionKey = []) || bool_decide (credId = []) || bool_decide (authData = []) ||
     bool_decide (cdJson = []) || bool_decide (sig = [])
  then (s, (mkHttp 400 (err_body "missing required fields"), None))
  else
    let (w, r) := completeAuthentication cfg t_sweep t_check now random opens sessionKey credId authData cdJson sig (webauthn s) in
    (set_webauthn w s,
     match r with
     | Ok token =>
         if decide (token = []) then (mkHttp 401 (err_body (jsonEsc [])), None)
         else (mkHttp 200 ("{" ++ quoted "ok" ++ ":true," ++ quoted "token" ++ ":"%char :: quoted token ++ "}" ++ [LF]),
               Some ("ntm_session=" ++ token ++ "; HttpOnly; Secure; SameSite=Strict; Path=/; Max-Age=86400"))
     | Err e => (mkHttp 401 (err_body (jsonEsc e)), None)
     end).

(* web_dashboard.cpp:3544-3552 POST /auth/logout *)
Definition logout (req : Request) (s : Web) : Web * Response :=
  let token := sessionFromRequest req in
  (if decide (token = []) then s else set_webauthn (invalidateSession token (webauthn s)) s,
   mkHttp 200 ("{" ++ quoted "ok" ++ ":true}" ++ [LF])).

(* web_dashboard.cpp:3788-3807 GET /api/session *)
Definition session_info (siwaEnabled : bool) (now : Z) (req : Request) (s : Web) : Web * Response :=
  let token := sessionFromRequest req in
  let '(s, role, id) :=
    if decide (token = []) then (s, ("none" : str), ([] : str))
    else
      let (w, o) := getSession cfg now token (webauthn s) in
      (set_webauthn w s, match o with None => ("none" : str) | Some x => if isAdmin x then ("admin" : str) else ("user" : str) end,
       match o with None => [] | Some x => identity x end) in
  (s, mkHttp 200 ("{" ++ quoted "role" ++ ":"%char :: quoted role ++ "," ++ quoted "identity" ++ ":"%char :: quoted (jsonEsc id)
        ++ "," ++ quoted "siwa_enabled" ++ ":"%char :: (if siwaEnabled then ("true" : str) else "false") ++ "}" ++ [LF])).

(** ** Lemmas: paths and tokens *)

Lemma exempt_not_admin p : isAuthExemptPath p = true -> isAdminApiPath p = false.
Proof.
  unfold isAuthExemptPath, isAdminApiPath. intros H. destruct (Nat.leb_spec 11 (length p)) as [Hl |]; [| done]. cbn [andb].
  apply bool_decide_eq_false. intros Ep. apply orb_true_iff in H as [H | H]; [apply bool_decide_eq_true in H | apply andb_true_iff in H].
  - unfold exempt_paths in H. rewrite !elem_of_cons in H. 
    repeat (destruct H as [-> | H]; [vm_compute in Ep; discriminate |]). by apply not_elem_of_nil in H.
  - assert (E : take 6 p = take 6 (take 11 p)) by (by rewrite take_take). rewrite Ep in E.
    destruct H as [_ H]. apply bool_decide_eq_true in H. rewrite H in E. vm_compute in E. discriminate.
Qed.

Lemma min_elem_in l : l <> [] -> exists k, min_elem l = Some k /\ k ∈ l.*1.
Proof.
  intros Hl. unfold min_elem. set (f := fun (best : option (str * Z)) x => _).
  assert (H : forall l acc, (exists b, acc = Some b) \/ l <> [] ->
    exists b, foldl f acc l = Some b /\ (acc = Some b \/ b ∈ l)).
  { clear. intros l. induction l as [| x l IH]; intros acc Hne; cbn [foldl].
    - destruct Hne as [[b ->] | Hne]; [exists b; by split; [| left] | done].
    - destruct (IH (f acc x)) as (b & E & Hb).
      { left. unfold f. destruct acc as [b |]; [| by eexists]. destruct (x.2 <? b.2); by eexists. }
      exists b. split; [done |]. rewrite elem_of_cons. unfold f in Hb. destruct acc as [a |]; [destruct (x.2 <? a.2) |];
        destruct Hb as [[= <-] | Hb]; auto. }
  destruct (H l None) as (b & E & Hb); [by right |]. exists b.1. rewrite E. split; [done |]. destruct Hb as [Hb | Hb]; [done |].
  by apply list_elem_of_fmap_2.
Qed.

(** Never more than the cap. *)
Lemma issueDemoToken_bounded {SL : StdHashLaws SH} now token toks :
  (size toks <= kMaxDemoTokens)%nat -> (size (issueDemoToken now token toks) <= kMaxDemoTokens)%nat.
Proof.
  intros Hs. unfold issueDemoToken. set (m := filter _ toks).
  assert (Hm : (size m <= kMaxDemoTokens)%nat) by (etrans; [apply map_subseteq_size, map_filter_subseteq | done]).
  clearbody m. set (m' := if (kMaxDemoTokens <=? size m)%nat then _ else m).
  assert (Hpos : (0 < kMaxDemoTokens)%nat) by (unfold kMaxDemoTokens; lia).
  assert (Hm' : (size m' < kMaxDemoTokens)%nat).
  { unfold m'. destruct (Nat.leb_spec kMaxDemoTokens (size m)) as [Hge |]; [| done].
    destruct (min_elem_in (iter m)) as (k & -> & Hk).
    - intros E. pose proof (iter_perm m) as Hp. rewrite E in Hp. apply Permutation_nil_l in Hp. symmetry in Hp.
      apply map_to_list_empty_iff in Hp as ->. rewrite map_size_empty in Hge. lia.
    - rewrite (iter_perm m) in Hk. apply list_elem_of_fmap in Hk as ([k' x] & -> & Hk). apply elem_of_map_to_list in Hk.
      rewrite (map_size_delete_Some k' m) by (by eexists). cbn [fst]. lia. }
  clearbody m'. destruct (m' !! token) as [x |] eqn:E; [lia |]. rewrite map_size_insert_None by done. lia.
Qed.

(** ** Lemmas: cookies *)

(** A Cookie header as browsers write it. *)
Definition cookie_text (c : str * str) : str := c.1 ++ "="%char :: c.2.
Fixpoint cookie_header (cs : list (str * str)) : str :=
  match cs with
  | [] => []
  | [c] => cookie_text c
  | c :: cs => cookie_text c ++ ";"%char :: SP :: cookie_header cs
  end.

(** Names without separators, values without semicolons. *)
Definition cookie_ok (c : str * str) : Prop :=
  ("="%char ∉ c.1) /\ (";"%char ∉ c.1) /\ (SP ∉ c.1) /\ (";"%char ∉ c.2).

Fixpoint first_cookie (name : str) (cs : list (str * str)) : str :=
  match cs with [] => [] | c :: cs => if decide (c.1 = name) then c.2 else first_cookie name cs end.

Lemma cookie_starts name c r :
  "="%char ∉ name -> "="%char ∉ c.1 -> starts_with (name ++ "=") (cookie_text c ++ r) = bool_decide (c.1 = name).
Proof.
  destruct c as [n v]. unfold cookie_text. cbn [fst snd]. intros Hn Hc. rewrite <- app_assoc. cbn [app].
  destruct (bool_decide (n = name)) eqn:E.
  - apply bool_decide_eq_true in E as ->. apply starts_with_spec. exists (v ++ r). by rewrite <- app_assoc.
  - apply bool_decide_eq_false in E. destruct (starts_with _ _) eqn:Es; [| done]. apply starts_with_spec in Es as [t Et].
    exfalso. apply E. rewrite <- app_assoc in Et. cbn [app] in Et.
    assert (H1 : cut "=" (n ++ "="%char :: v ++ r) = Some (n, v ++ r)) by (by apply cut_app).
    change (list_ascii_of_string "=" ++ t) with ("="%char :: t) in Et. rewrite Et, cut_app in H1 by done. congruence.
Qed.

Lemma cookie_front c r : cookie_ok c -> trim_front cookie_pad (cookie_text c ++ r) = cookie_text c ++ r.
Proof.
  intros (_ & _ & Hs & _). apply trim_front_id. destruct c as [[| x n] v]; [done |]. cbn. unfold cookie_pad, char_in.
  apply bool_decide_eq_false. cbn in Hs. apply not_elem_of_cons in Hs as [Hs _]. rewrite list_elem_of_singleton. congruence.
Qed.

Lemma cookie_no_semi c : cookie_ok c -> ";"%char ∉ cookie_text c.
Proof.
  intros (_ & Hn & _ & Hv). unfold cookie_text. rewrite not_elem_of_app, not_elem_of_cons. done.
Qed.

Lemma cookie_find name cs fuel pre :
  Forall cookie_ok cs -> "="%char ∉ name -> (length cs < fuel)%nat -> forallb cookie_pad pre = true ->
  cookie_loop fuel (name ++ "=") (pre ++ cookie_header cs) = first_cookie name cs.
Proof.
  intros Hcs Hn. revert fuel pre. induction Hcs as [| c cs Hc Hcs IH]; intros fuel pre Hf Hp; (destruct fuel as [| fuel]; [cbn in Hf; lia |]).
  - cbn [cookie_header first_cookie]. rewrite app_nil_r. destruct pre as [| x pre]; [done |]. cbn [cookie_loop].
    assert (Et : trim_front cookie_pad (x :: pre) = []).
    { clear -Hp. revert Hp. generalize (x :: pre). intros l. induction l as [| y l IH]; [done |]. cbn. rewrite andb_true_iff. intros [-> H]. by apply IH. }
    rewrite Et. destruct name; done.
  - assert (Hskip : trim_front cookie_pad (pre ++ cookie_header (c :: cs)) = cookie_header (c :: cs)).
    { clear IH Hf. induction pre as [| y pre IHp]; cbn [app].
      - destruct cs as [| c2 cs]; [| by apply cookie_front]. cbn [cookie_header]. rewrite <- (app_nil_r (cookie_text c)). by apply cookie_front.
      - cbn [forallb] in Hp. apply andb_true_iff in Hp as [Hy Hp]. cbn [trim_front]. rewrite Hy. by apply IHp. }
    cbn [cookie_loop]. destruct (pre ++ cookie_header (c :: cs)) as [| y l] eqn:El.
    { exfalso. apply app_nil in El as [_ El]. destruct cs; destruct c as [[|] ?]; done. }
    rewrite Hskip. assert (Hr : exists r, cookie_header (c :: cs) = cookie_text c ++ r /\
      ((cs = [] /\ r = []) \/ (cs <> [] /\ r = ";"%char :: [SP] ++ cookie_header cs))).
    { destruct cs as [| c2 cs]; [exists []; split; [by rewrite app_nil_r | by left] |]. eexists. split; [reflexivity | by right]. }
    destruct Hr as (r & -> & Hr). rewrite cookie_starts by (done || apply Hc). cbn [first_cookie].
    pose proof (cookie_no_semi c Hc) as Hsemi. destruct Hc as (_ & _ & _ & Hv). case_bool_decide as E.
    + rewrite decide_True by done. assert (Ed : drop (length (name ++ "=")) (cookie_text c ++ r) = c.2 ++ r).
      { rewrite <- E. unfold cookie_text. rewrite <- app_assoc. change (("="%char :: c.2) ++ r) with (("=" : str) ++ c.2 ++ r).
        rewrite app_assoc. apply drop_app_length. }
      rewrite Ed. destruct Hr as [[-> ->] | [_ ->]].
      * rewrite app_nil_r. by rewrite (proj2 (find_char_None _ _)).
      * rewrite find_char_app by done. by rewrite take_app_length.
    + rewrite decide_False by done. destruct Hr as [[-> ->] | [_ ->]].
      * rewrite app_nil_r. by rewrite (proj2 (find_char_None _ _)).
      * rewrite find_char_app by done. rewrite drop_cons_app. apply IH; [cbn in Hf; lia | done].
Qed.

(** ** Properties *)

(** A session cookie is found among the others: for a Cookie header of
    names and values without semicolons, a request without a Bearer header
    carries the value of the first cookie named [ntm_session], or no token. *)
Lemma session_cookie_found (req : Request) (cs : list (str * str)) :
  Forall cookie_ok cs -> h_cookie req = cookie_header cs -> starts_with "Bearer " (h_authorization req) = false ->
  sessionFromRequest req = first_cookie "ntm_session" cs.
Proof.
  intros Hcs Hc Hb. unfold sessionFromRequest, sessionFromHeaders.
  assert (E : bool_decide (take 7 (h_authorization req) = "Bearer ") = false).
  { apply bool_decide_eq_false. intros E. enough (starts_with "Bearer " (h_authorization req) = true) by congruence.
    apply starts_with_spec. exists (drop 7 (h_authorization req)). by rewrite <- E, take_drop. }
  rewrite E, andb_false_r. unfold cookieFromHeader. rewrite Hc. apply (cookie_find _ cs _ []); [done | | | done].
  - by apply (bool_decide_unpack _); vm_compute.
  - assert (H : (length cs <= length (cookie_header cs))%nat); [| lia]. clear. induction cs as [| c cs IH]; [done |].
    destruct cs as [| c2 cs]; [unfold cookie_header, cookie_text; rewrite length_app; cbn; lia |].
    change (cookie_header (c :: c2 :: cs)) with (cookie_text c ++ ";"%char :: SP :: cookie_header (c2 :: cs)).
    rewrite length_app. cbn [length] in *. lia.
Qed.

(** C28: nothing but a live session passes the gate. In every state whose
    session table was made by the operations of the relying party on a clock
    that never goes back, a request that the pre-routing handler lets through
    to a path that needs authentication carries a token, and this is either an
    unexpired demo token, on a path outside the administration, or the token
    of a session that the specification of the table calls live; and a request
    let through to any administration path carries a token handed out for an
    administrator identity within the time to live. *)
Theorem gate_sound (web : WebConfig) (c : Clock) (req : Request) (s : Web) (f : option str) (t0 : Z) (ops : list Op) :
  clock_from t0 (concat (times <$> ops) ++ [t_valid c; t_admin c]) ->
  webauthn s = (run cfg ops (WebAuthnRP_init cfg f)).1 ->
  (preRouting web c req s).2 = Unhandled ->
  let token := sessionFromRequest req in
  (isAuthExemptPath (path req) = false ->
     token <> [] /\
     ((isAdminApiPath (path req) = false /\ hasDemoTokenPrefix token = true /\ exists e, demoTokens s !! token = Some e /\ sys c < e) \/
      is_Some (spec_lookup cfg (t_valid c) token (foldl (spec_step cfg) ∅ (run cfg ops (WebAuthnRP_init cfg f)).2)))) /\
  (isAdminApiPath (path req) = true ->
     exists ts t r id, OpIdentity ts t r id true ∈ ops /\ token = toBase64url r /\ t_admin c <= t + hours (sessionTtlHours cfg)).
Proof.
  intros Ht Hw Hu token. unfold preRouting in Hu. fold token in Hu. destruct (isAuthExemptPath (path req)) eqn:Ex.
  { split; [done |]. rewrite exempt_not_admin by done. done. }
  destruct (checkDemoToken (sys c) token (demoTokens s)) as [toks demo] eqn:Ed. destruct demo.
  - destruct (isAdminApiPath (path req)); [done |]. split; [intros _ | done].
    unfold checkDemoToken in Ed. destruct (hasDemoTokenPrefix token) eqn:Eh; [| done]. cbn [negb] in Ed.
    destruct (demoTokens s !! token) as [e |] eqn:Ee; [| done]. destruct (Z.leb_spec e (sys c)); [done |].
    split; [intros E; rewrite E in Eh; discriminate |]. left. eauto.
  - destruct (decide (token = [])) as [| Hne]; [by unfold unauthenticated in Hu; destruct (_ || _) |].
    cbn [webauthn set_demo] in Hu. rewrite Hw in Hu. apply clock_from_app in Ht as [Ht1 [Ht2 [Ht3 _]]].
    assert (Hv : clock_from t0 (concat (times <$> ops) ++ [t_valid c])) by (by apply clock_from_app).
    pose proof (readers_exact cfg f t0 ops (t_valid c) token Hv) as Hr. 
    pose proof (run_ops_snoc cfg ops (OpSession (t_valid c) token) (WebAuthnRP_init cfg f)) as Hs. unfold isValidSession in Hu.
    destruct (run cfg ops _) as [w h]. cbn [fst snd exec] in *. destruct Hr as [Hr _].
    destruct (getSession cfg (t_valid c) token w) as [w' o] eqn:Eg. cbn [snd fst] in *. subst o.
    case_bool_decide as Hlive; [| by unfold unauthenticated in Hu; destruct (_ || _)]. cbn [negb] in Hu.
    split; [intros _; by split; [| right] |]. intros Hadm. unfold authenticated in Hu.
    destruct (if negb (bool_decide (path req = _)) && _ then _ else _) as [s1 ok] eqn:El. destruct ok; [| done]. cbn [negb] in Hu.
    rewrite Hadm in Hu. assert (Hs1 : webauthn s1 = w').
    { revert El. destruct (negb _ && _); [destruct (WebRateLimiter.tryAcquire _ _ _ _) |]; intros E; by simplify_eq. }
    rewrite Hs1 in Hu.
    assert (Hc2 : clock_from t0 (concat (times <$> (ops ++ [OpSession (t_valid c) token])) ++ [t_admin c])).
    { rewrite fmap_app, concat_app. cbn [fmap list_fmap concat times app]. rewrite <- app_assoc. apply clock_from_app. split; [done |]. by cbn. }
    pose proof (readers_exact cfg f t0 _ (t_admin c) token Hc2) as Ha. rewrite Hs in Ha. destruct Ha as [_ Ha].
    destruct (isAdminSession cfg (t_admin c) token w') as [w2 adm]. destruct adm; [| done].
    destruct (Ha eq_refl) as (ts & t & r & id & Hin & Hrest). exists ts, t, r, id. split; [| done].
    apply elem_of_app in Hin as [Hin | Hin]; [done |]. by apply list_elem_of_singleton in Hin.
Qed.
End Gate.

(** ** Witnesses *)

Definition sample_request (path auth cookie : str) : Request := mkRequest "203.0.113.9" "GET" path auth cookie [] [] [].

Lemma session_cookie_found_witness :
  sessionFromRequest (sample_request "/" [] "theme=dark; ntm_session=abc; x=1") = "abc".
Proof.
  apply (session_cookie_found _ [("theme" : str, "dark" : str); ("ntm_session" : str, "abc" : str); ("x" : str, "1" : str)]); [| done | done].
  repeat (apply List.Forall_cons; [split_conj; by apply (bool_decide_unpack _); vm_compute |]). constructor.
Defined.

Definition sample_web (ops : list Op) : Web :=
  mkWeb WebRateLimiter.new WebRateLimiter.new ∅ (run sample_config ops (WebAuthnRP_init sample_config None)).1 ∅.
Definition sample_clock : Clock := mkClock 1000 (minutes 2) (minutes 2) (minutes 2) (minutes 2).

Lemma gate_sound_witness :
  exists ts t r id, OpIdentity ts t r id true ∈ [OpIdentity 0 1 "t1" "sub" true] /\ toBase64url "t1" = toBase64url r /\ minutes 2 <= t + hours 24.
Proof.
  assert (Ht : clock_from 0 (concat (times <$> [OpIdentity 0 1 "t1" "sub" true]) ++ [t_valid sample_clock; t_admin sample_clock])).
  { cbn. unfold minutes. lia. }
  destruct (gate_sound sample_config (mkWebConfig [] 30) sample_clock
    (sample_request "/api/admin/monitors" ("Bearer " ++ toBase64url "t1") []) (sample_web [OpIdentity 0 1 "t1" "sub" true]) None 0
    [OpIdentity 0 1 "t1" "sub" true] Ht eq_refl) as [_ H].
  - vm_compute. reflexivity.
  - apply H. vm_compute. reflexivity.
Defined.

(** An expired or ordinary session, a demo token and no token at all are turned
    away from an administration path. *)
Definition admin_verdict (auth : str) (ops : list Op) (demo : gmap str Z) : Verdict :=
  (preRouting sample_config (mkWebConfig [] 30) sample_clock (sample_request "/api/admin/monitors" auth []) (set_demo demo (sample_web ops))).2.

Example admin_refused :
  admin_verdict [] [] ∅ = Handled 401 (err_body "authentication required") /\
  admin_verdict ("Bearer " ++ toBase64url "t1") [OpIdentity 0 1 "t1" "sub" false] ∅ = Handled 403 (err_body "admin authentication required") /\
  admin_verdict ("Bearer " ++ toBase64url "t1") [OpIdentity (- hours 24) (- hours 24) "t1" "sub" true] ∅ = Handled 401 (err_body "authentication required") /\
  admin_verdict "Bearer demo_x" [] {[ ("demo_x" : str) := 2000 ]} = Handled 403 (err_body "admin access not available in demo mode").
Proof. vm_compute. done. Qed.

(** The history endpoint is not an administration path, so a demo token reads
    it; and the file for Apple's domain verification is behind the gate. *)
Lemma demo_reads_history :
  (preRouting sample_config (mkWebConfig [] 30) sample_clock (sample_request "/api/client/history" "Bearer demo_x" [])
     (set_demo {[ ("demo_x" : str) := 2000 ]} (sample_web []))).2 = Unhandled /\
  (preRouting sample_config (mkWebConfig [] 30) sample_clock (sample_request "/.well-known/apple-developer-domain-association.txt" [] [])
     (sample_web [])).2 = Handled 302 [].
Proof. vm_compute. done. Qed.
