(* ===== verification/UpdateDir.v ===== *)
(** The server's directory of client binaries: file names ([client_push.hpp]),
    version comparison, the scan that keeps the newest verified binary of each
    platform and the update endpoints ([web_dashboard.cpp]). The directory is
    a map from bare names to contents of its regular files; the order in which
    the file system lists it, the clock and the files that cannot be removed
    are arguments. *)

From S2P Require Import Prelude CppString Trust Upgrade HttpUtil Updater RemoteLogs.
Local Open Scope Z_scope.

(** ** File names *)

(* client_push.hpp:10-17 ClientBinaryInfo *)
Record ClientBinaryInfo := mkInfo {
  i_platform : str; i_version : str; i_filename : str; isWindows : bool; i_valid : bool
}.

Definition kPrefix : str := "ntm-client-".

(** Digits and dots, no dot first, last or doubled, two or three of them. *)
(* client_push.hpp:52-60 parseClientBinaryFilename, version *)
Fixpoint version_loop (s : str) (dots : nat) (lastWasDot : bool) : bool :=
  match s with
  | [] => negb lastWasDot && (2 <=? dots)%nat && (dots <=? 3)%nat
  | c :: s =>
      if decide (c = "."%char) then if lastWasDot then false else version_loop s (S dots) true
      else if is_digit c then version_loop s dots false
      else false
  end.

(* client_push.hpp:24-69 parseClientBinaryFilename *)
Definition parseClientBinaryFilename (name : str) : ClientBinaryInfo :=
  let info := mkInfo [] [] name in
  if (length name <=? length kPrefix)%nat then info false false
  else if negb (bool_decide (substr name 0 (length kPrefix) = kPrefix)) then info false false
  else
    let rest := substr_from name (length kPrefix) in
    let win := (4 <? length rest)%nat && bool_decide (substr_from rest (length rest - 4) = ".exe") in
    let rest := if win then substr rest 0 (length rest - 4) else rest in
    match rfind_char "-" rest with
    | None | Some O => info win false
    | Some lastHyp =>
        let platform := substr rest 0 lastHyp in
        let version := substr_from rest (S lastHyp) in
        mkInfo platform version name win
          (negb (bool_decide (platform = [])) && negb (bool_decide (version = [])) &&
           version_loop version 0 true && contains_char "-" platform)
    end.

(* client_push.hpp:72-75 isKnownClientPlatform *)
Definition isKnownClientPlatform (p : str) : bool :=
  bool_decide (p = "linux-amd64") || bool_decide (p = "windows-amd64").

(** ** Version comparison *)

(** The parts are [int]s; a part that does not fit is undefined behaviour,
    [None]. *)
(* web_dashboard.cpp:120-128 semverCmp, parse *)
Fixpoint semver_loop (s : str) (part : nat) (r : list Z) : option (list Z) :=
  match s with
  | [] => Some r
  | c :: s =>
      if decide (c = "."%char) then semver_loop s (if (part <? 3)%nat then S part else part) r
      else if is_digit c then
        let v := nth part r 0 * 10 + digit_val c in
        if 2 ^ 31 - 1 <? v then None else semver_loop s part (<[part := v]> r)
      else semver_loop s part r
  end.

Definition semver_parts (v : str) : option (list Z) := semver_loop v 0 [0; 0; 0; 0].

(* web_dashboard.cpp:130-134 semverCmp, comparison *)
Fixpoint cmp_parts (a b : list Z) : Z :=
  match a, b with
  | x :: a, y :: b => if x <? y then -1 else if y <? x then 1 else cmp_parts a b
  | _, _ => 0
  end.

(* web_dashboard.cpp:118-135 semverCmp *)
Definition semverCmp (a b : str) : option Z :=
  let? pa := semver_parts a in
  let? pb := semver_parts b in
  Some (cmp_parts pa pb).

(** ** The manifest *)

(* web_dashboard.cpp:101-107 UpdateManifestEntry *)
Record UpdateManifestEntry := mkEntry {
  m_platform : str; m_version : str; m_filename : str; sha256hex : str; sigSize : Z
}.

Definition dot_sig : str := ".sig".

(* web_dashboard.cpp:208-208 scanUpdateDir, is a signature *)
Definition is_sig (name : str) : bool :=
  (4 <? length name)%nat && bool_decide (substr_from name (length name - 4) = dot_sig).

(** The empty text when the file cannot be opened. *)
(* web_dashboard.cpp:137-161 sha256FileHex *)
Definition sha256HexOf `{Sha256} (file : option str) : str := default [] (sha256FileHex file).

Section Scan.
Context `{CR : Crypto} `{SH : Sha256} (productionRoots : RootSet).

(** What pass 1 makes of one file; [now] is the clock at that time, [floor]
    the delegation version compiled in. *)
(* web_dashboard.cpp:202-243 scanUpdateDir, pass 1 *)
Definition classify (now floor : Z) (dir : gmap str str) (name : str) : option UpdateManifestEntry :=
  if is_sig name then None
  else
    let info := parseClientBinaryFilename name in
    if negb (i_valid info) then None
    else if negb (isKnownClientPlatform (i_platform info)) then None
    else
      let? sig := dir !! (name ++ dot_sig) in
      match verifyArtifactFiles productionRoots dir name (name ++ dot_sig) (i_platform info) (acceptPolicy now floor) with
      | Err _ => None
      | Ok _ =>
          let sha := sha256HexOf (dir !! name) in
          if decide (sha = []) then None
          else Some (mkEntry (i_platform info) (i_version info) name sha (Z.of_nat (length sig)))
      end.

(* web_dashboard.cpp:249-254 scanUpdateDir, pass 2, one candidate *)
Fixpoint keep (c : UpdateManifestEntry) (keepers : list UpdateManifestEntry) : option (list UpdateManifestEntry) :=
  match keepers with
  | [] => Some [c]
  | k :: ks =>
      if decide (m_platform k = m_platform c) then
        let? r := semverCmp (m_version c) (m_version k) in
        Some (if 0 <? r then c :: ks else k :: ks)
      else cons k <$> keep c ks
  end.

(* web_dashboard.cpp:245-255 scanUpdateDir, pass 2 *)
Fixpoint select (candidates keepers : list UpdateManifestEntry) : option (list UpdateManifestEntry) :=
  match candidates with
  | [] => Some keepers
  | c :: cs => let? ks := keep c keepers in select cs ks
  end.

(* web_dashboard.cpp:257-264 scanUpdateDir, keepNames *)
Definition keepNames (keepers : list UpdateManifestEntry) : list str :=
  concat ((fun k => [m_filename k; m_filename k ++ dot_sig]) <$> keepers).

(** Removal fails for the names in [locked]. *)
(* web_dashboard.cpp:266-303 scanUpdateDir, pass 3 *)
Definition prune (locked : str -> bool) (keepers : list UpdateManifestEntry) (dir : gmap str str) : gmap str str :=
  filter (fun kv => kv.1 ∈ keepNames keepers \/ locked kv.1 = true) dir.

(** [listing]: the names in directory order; [clock]: the time when a file is
    verified. The manifest is the list of keepers and the answer their
    number. [None]: undefined behaviour in a version comparison. *)
(* web_dashboard.cpp:184-314 scanUpdateDir *)
Definition scanUpdateDir (clock : str -> Z) (floor : Z) (locked : str -> bool) (listing : list str) (dir : gmap str str)
  : option (gmap str str * list UpdateManifestEntry) :=
  let candidates := omap (fun name => classify (clock name) floor dir name) listing in
  let? keepers := select candidates [] in
  Some (prune locked keepers dir, keepers).

End Scan.

(** ** Endpoints *)

(** The loop over the manifest that every endpoint repeats. *)
(* web_dashboard.cpp:3850-3866 update endpoints, best entry *)
Fixpoint best_entry (platform : str) (best : option UpdateManifestEntry) (manifest : list UpdateManifestEntry)
  : option (option UpdateManifestEntry) :=
  match manifest with
  | [] => Some best
  | m :: ms =>
      if decide (m_platform m = platform) then
        match best with
        | None => best_entry platform (Some m) ms
        | Some b =>
            let? r := semverCmp (m_version m) (m_version b) in
            best_entry platform (Some (if 0 <? r then m else b)) ms
        end
      else best_entry platform best ms
  end.

Fixpoint raw_pairs (s : str) : option str :=
  match s with
  | h :: l :: s' =>
      let? hi := nibble h in
      let? lo := nibble l in
      cons (byte_of (Z.lor (Z.shiftl hi 4) lo)) <$> raw_pairs s'
  | _ => Some []
  end.

(** Empty on error. *)
(* web_dashboard.cpp:163-180 hexToRaw32 *)
Definition hexToRaw32 (hex : str) : str :=
  if negb (length hex =? 64)%nat then [] else default [] (raw_pairs hex).

(** The check of the public key all three endpoints begin with. *)
(* web_dashboard.cpp:3822-3848 GET /api/update/check, authorisation *)
Definition authorised (clients : gset str) (pubkeyHex : str) : option Response :=
  if negb (length pubkeyHex =? 64)%nat then Some (mkHttp 400 (err_body "pubkey must be 64 hex characters"))
  else
    let rawKey := hexToRaw32 pubkeyHex in
    if decide (rawKey = []) then Some (mkHttp 400 (err_body "pubkey must be valid hex"))
    else if negb (bool_decide (rawKey ∈ clients)) then Some (mkHttp 401 (err_body "unauthorized"))
    else None.

Definition no_update : str := "{" ++ quoted "update_available" ++ ":false}" ++ [LF].

(* web_dashboard.cpp:3877-3882 GET /api/update/check, entry *)
Definition update_text (m : UpdateManifestEntry) : str :=
  "{" ++ quoted "update_available" ++ ":true" ++
  "," ++ quoted "version" ++ ":"%char :: quoted (jsonEsc (m_version m)) ++
  "," ++ quoted "sha256" ++ ":"%char :: quoted (jsonEsc (sha256hex m)) ++
  "," ++ quoted "filename" ++ ":"%char :: quoted (jsonEsc (m_filename m)) ++
  "," ++ quoted "sig_size" ++ ":"%char :: to_string (sigSize m) ++ "}" ++ [LF].

(* web_dashboard.cpp:3814-3884 GET /api/update/check *)
Definition update_check (clients : gset str) (manifest : list UpdateManifestEntry) (pubkeyHex platform version : str)
  : option Response :=
  match authorised clients pubkeyHex with
  | Some r => Some r
  | None =>
      let? best := best_entry platform None manifest in
      match best with
      | None => Some (mkHttp 200 no_update)
      | Some m =>
          if decide (version = []) then Some (mkHttp 200 (update_text m))
          else
            let? r := semverCmp (m_version m) version in
            Some (mkHttp 200 (if r <=? 0 then no_update else update_text m))
      end
  end.

(** The common part of the two downloads: the file of the best entry. *)
Definition serve (suffix missing : str) (dir : gmap str str) (clients : gset str) (manifest : list UpdateManifestEntry)
  (pubkeyHex platform : str) : option Response :=
  match authorised clients pubkeyHex with
  | Some r => Some r
  | None =>
      let? best := best_entry platform None manifest in
      match best with
      | None => Some (mkHttp 404 (err_body "no binary for platform"))
      | Some m =>
          Some match dir !! (m_filename m ++ suffix) with
               | None => mkHttp 404 (err_body missing)
               | Some body => mkHttp 200 body
               end
      end
  end.

(* web_dashboard.cpp:3887-3959 GET /api/update/download *)
Definition update_download := serve [] "binary not accessible".

(* web_dashboard.cpp:3962-4034 GET /api/update/download_sig *)
Definition update_download_sig := serve dot_sig "signature file not accessible".

(* web_dashboard.cpp:4039-4049 POST /api/admin/update/scan *)
Definition update_scan `{Crypto} `{Sha256} (roots : RootSet) (clock : str -> Z) (floor : Z) (locked : str -> bool)
  (listing : list str) (dir : gmap str str) : option (gmap str str * list UpdateManifestEntry * Response) :=
  let? r := scanUpdateDir roots clock floor locked listing dir in
  Some (r, mkHttp 200 ("{" ++ quoted "ok" ++ ":true," ++ quoted "count" ++ ":"%char
                       :: to_string (Z.of_nat (length r.2)) ++ "}" ++ [LF])).

(** ** Lemmas: comparison *)

Lemma cmp_anti a b : length a = length b -> cmp_parts b a = - cmp_parts a b.
Proof.
  revert b. induction a as [| x a IH]; intros [| y b] H; cbn in *; [done .. |].
  rewrite IH by lia. destruct (Z.ltb_spec x y), (Z.ltb_spec y x); lia.
Qed.

Lemma cmp_trans a b c :
  length a = length b -> length b = length c -> cmp_parts a b <= 0 -> cmp_parts b c <= 0 -> cmp_parts a c <= 0.
Proof.
  revert b c. induction a as [| x a IH]; intros [| y b] [| z c] H1 H2; cbn in *; try lia.
  intros Hab Hbc. specialize (IH b c ltac:(lia) ltac:(lia)).
  destruct (Z.ltb_spec x y), (Z.ltb_spec y x), (Z.ltb_spec y z), (Z.ltb_spec z y), (Z.ltb_spec x z), (Z.ltb_spec z x); lia.
Qed.

Lemma cmp_refl a : cmp_parts a a = 0.
Proof. induction a as [| x a IH]; cbn; [done |]. by rewrite Z.ltb_irrefl. Qed.

Lemma semver_loop_length s part r ps : semver_loop s part r = Some ps -> length ps = length r.
Proof.
  revert part r. induction s as [| c s IH]; intros part r; cbn; [congruence |].
  intros Hl. repeat case_match; try done; apply IH in Hl; by rewrite ?length_insert in Hl.
Qed.

(** The parts of the version fit. *)
Definition fits (v : str) : Prop := is_Some (semver_parts v).

(** [a] is not newer than [b]. *)
Definition not_newer (a b : str) : Prop := exists r, semverCmp a b = Some r /\ r <= 0.

Lemma parts_length v ps : semver_parts v = Some ps -> length ps = 4%nat.
Proof. intros H. by apply semver_loop_length in H. Qed.

Lemma not_newer_refl v : fits v -> not_newer v v.
Proof. intros [ps H]. exists 0. unfold semverCmp. by rewrite H, cmp_refl. Qed.

Lemma not_newer_trans a b c : not_newer a b -> not_newer b c -> not_newer a c.
Proof.
  unfold not_newer, semverCmp. intros (r & Hr & Hab) (r' & Hr' & Hbc).
  destruct (semver_parts a) as [pa |] eqn:Ea, (semver_parts b) as [pb |] eqn:Eb, (semver_parts c) as [pc |] eqn:Ec; try done.
  injection Hr as <-. injection Hr' as <-. eexists. split; [done |].
  apply parts_length in Ea, Eb, Ec. apply (cmp_trans _ pb); congruence.
Qed.

Lemma semverCmp_total a b : fits a -> fits b -> exists r, semverCmp a b = Some r /\ (0 < r -> not_newer b a).
Proof.
  intros [pa Ha] [pb Hb]. unfold not_newer, semverCmp. rewrite Ha, Hb. eexists. split; [done |].
  intros Hr. eexists. split; [done |]. rewrite cmp_anti; [lia |]. apply parts_length in Ha, Hb. congruence.
Qed.

(** ** Lemmas: selection *)

Lemma keep_cases c ks :
  Forall (fun k => fits (m_version k)) (c :: ks) ->
  (Forall (fun k => m_platform k <> m_platform c) ks /\ keep c ks = Some (ks ++ [c])) \/
  exists l k r k', ks = l ++ k :: r /\ m_platform k = m_platform c /\ keep c ks = Some (l ++ k' :: r) /\
    ((k' = c /\ not_newer (m_version k) (m_version c)) \/ (k' = k /\ not_newer (m_version c) (m_version k))).
Proof.
  intros [Hc Hks]%Forall_cons. induction Hks as [| k ks Hk Hks IH]; [by left |]. cbn [keep].
  case_decide as Hp.
  - right. destruct (semverCmp_total _ _ Hc Hk) as (r & Hr & Hgt). exists [], k, ks.
    exists (if 0 <? r then c else k). rewrite Hr. split; [done |]. split; [done |].
    destruct (Z.ltb_spec 0 r) as [H | H]; (split; [done |]); [left; auto | right]. split; [done |]. by exists r.
  - destruct IH as [[Hf ->] | (l & x & r & k' & -> & Hx & -> & H)].
    + left. split; [by constructor | done].
    + right. by exists (k :: l), x, r, k'.
Qed.

(** After the candidates [seen]. *)
Definition selected (seen ks : list UpdateManifestEntry) : Prop :=
  (forall k, k ∈ ks -> k ∈ seen) /\ NoDup (m_platform <$> ks) /\
  (forall c, c ∈ seen -> exists k, k ∈ ks /\ m_platform k = m_platform c /\ not_newer (m_version c) (m_version k)).

Lemma keep_selected c seen ks :
  Forall (fun k => fits (m_version k)) (c :: seen) -> selected seen ks ->
  exists ks', keep c ks = Some ks' /\ selected (seen ++ [c]) ks'.
Proof.
  intros [Hc Hseen]%Forall_cons (Hin & Hnd & Hbest). rewrite Forall_forall in Hseen.
  assert (Hks : Forall (fun k => fits (m_version k)) (c :: ks)) by (constructor; [done |]; apply Forall_forall; eauto).
  destruct (keep_cases c ks Hks) as [[Hf ->] | (l & k & r & k' & -> & Hp & -> & Hk')]; eexists; (split; [done |]); unfold selected; split_conj.
  - intros x. rewrite !elem_of_app. intros [H | H]; [left; auto | by right].
  - rewrite fmap_app, NoDup_app. split_conj; [done | | apply NoDup_singleton].
    intros p (x & -> & Hx)%list_elem_of_fmap. cbn. rewrite list_elem_of_singleton. rewrite Forall_forall in Hf. by apply Hf.
  - intros x. rewrite elem_of_app, list_elem_of_singleton. intros [(y & Hy & ?)%Hbest | ->].
    + exists y. split; [by apply elem_of_app; left | done].
    + exists c. split; [apply elem_of_app; right; by constructor |]. split; [done | by apply not_newer_refl].
  - assert (Hkin : k' ∈ seen ++ [c]).
    { apply elem_of_app. destruct Hk' as [[-> _] | [-> _]]; [right; by constructor | left].
      apply Hin, elem_of_app. right. by constructor. }
    intros x. rewrite elem_of_app, elem_of_cons. intros [H | [-> | H]]; [| done |]; apply elem_of_app; left; apply Hin, elem_of_app;
      [by left | right; by constructor].
  - assert (E : m_platform k' = m_platform k) by (by destruct Hk' as [[-> _] | [-> _]]).
    rewrite fmap_app, fmap_cons in Hnd |- *. by rewrite E.
  - assert (Hold : not_newer (m_version k) (m_version k') /\ not_newer (m_version c) (m_version k')).
    { assert (fits (m_version k)) by (apply Hseen, Hin, elem_of_app; right; by constructor).
      destruct Hk' as [[-> Hn] | [-> Hn]]; (split; [| try done]); try done; by apply not_newer_refl. }
    assert (E : m_platform k' = m_platform k) by (by destruct Hk' as [[-> _] | [-> _]]).
    intros x. rewrite elem_of_app, list_elem_of_singleton. intros [(y & Hy & Hpy & Hny)%Hbest | ->].
    + apply elem_of_app in Hy as [Hy | [-> | Hy]%elem_of_cons].
      * exists y. split; [by apply elem_of_app; left | done].
      * exists k'. split; [apply elem_of_app; right; by constructor |]. split; [congruence |].
        apply (not_newer_trans _ (m_version k)); tauto.
      * exists y. split; [apply elem_of_app; right; by constructor | done].
    + exists k'. split; [apply elem_of_app; right; by constructor |]. split; [congruence | tauto].
Qed.

Lemma select_selected cs seen ks :
  Forall (fun k => fits (m_version k)) (seen ++ cs) -> selected seen ks ->
  exists ks', select cs ks = Some ks' /\ selected (seen ++ cs) ks'.
Proof.
  revert seen ks. induction cs as [| c cs IH]; intros seen ks Hf Hs; cbn [select].
  - exists ks. by rewrite app_nil_r.
  - assert (Hf' := Hf). rewrite Forall_app, Forall_cons in Hf'. destruct Hf' as (H1 & H2 & H3).
    destruct (keep_selected c seen ks) as (ks' & -> & Hs'); [by constructor | done |].
    rewrite cons_middle, app_assoc in Hf |- *. by apply IH.
Qed.

Lemma selected_nil : selected [] [].
Proof. unfold selected. split_conj; [done | constructor | by intros c Hc%elem_of_nil]. Qed.

(** ** The scan *)

Section ScanProps.
Context `{CR : Crypto} `{SH : Sha256} {SL : Sha256Laws SH} (roots : RootSet).
Implicit Types (dir : gmap str str) (m : UpdateManifestEntry).

(** The entry describes a verified binary of the directory: its name parses,
    its platform is supported, its signature file is present and passes the
    trust check for that platform, and hash and signature size are those of
    the files. *)
Definition offered (now floor : Z) dir (name : str) m : Prop :=
  let info := parseClientBinaryFilename name in
  is_sig name = false /\ i_valid info = true /\ isKnownClientPlatform (i_platform info) = true /\
  exists bin sig v,
    dir !! name = Some bin /\ dir !! (name ++ dot_sig) = Some sig /\
    verifyArtifactBytes roots bin sig (i_platform info) (acceptPolicy now floor) = Ok v /\
    m = mkEntry (i_platform info) (i_version info) name (hexEncode (sha256_digest bin)) (Z.of_nat (length sig)).

Lemma hex_digest_nonempty s : hexEncode (sha256_digest s) <> [].
Proof. intros E%(f_equal length). rewrite hexEncode_length, digest_length in E. done. Qed.

Lemma classify_spec now floor dir name m : classify roots now floor dir name = Some m <-> offered now floor dir name m.
Proof.
  unfold classify, offered, verifyArtifactFiles, readFile, sha256HexOf, sha256FileHex.
  destruct (is_sig name); [split; [done | by intros []] |].
  destruct (i_valid _); cbn [negb]; [| split; [done | by intros (_ & ? & _)]].
  destruct (isKnownClientPlatform _); cbn [negb]; [| split; [done | by intros (_ & _ & ? & _)]].
  destruct (dir !! (name ++ dot_sig)) as [sig |]; [| split; [done | by intros (_ & _ & _ & ? & ? & ? & _ & ? & _)]].
  destruct (dir !! name) as [bin |]; cbn [or_err]; [| split; [done | by intros (_ & _ & _ & ? & ? & ? & ? & _)]].
  destruct (verifyArtifactBytes _ _ _ _ _) as [v | e] eqn:Ev.
  - cbn. rewrite decide_False by apply hex_digest_nonempty. split.
    + intros [= <-]. split_conj; try done. by exists bin, sig, v.
    + by intros (_ & _ & _ & ? & ? & ? & [= <-] & [= <-] & _ & ->).
  - split; [done |]. intros (_ & _ & _ & ? & ? & ? & [= <-] & [= <-] & E & _). congruence.
Qed.

Lemma offered_name now floor dir name m : offered now floor dir name m -> m_filename m = name.
Proof. by intros (_ & _ & _ & bin & sig & v & _ & _ & _ & ->). Qed.

(** Every version in a file name of the directory fits. *)
Definition versions_fit dir : Prop :=
  forall name, is_Some (dir !! name) -> is_sig name = false -> i_valid (parseClientBinaryFilename name) = true ->
  fits (i_version (parseClientBinaryFilename name)).

Definition lists (listing : list str) dir : Prop := forall name, name ∈ listing <-> is_Some (dir !! name).

Lemma scan_spec clock floor locked listing dir :
  lists listing dir -> versions_fit dir ->
  exists ms, scanUpdateDir roots clock floor locked listing dir = Some (prune locked ms dir, ms) /\
    (forall m, m ∈ ms -> offered (clock (m_filename m)) floor dir (m_filename m) m) /\
    NoDup (m_platform <$> ms) /\
    (forall name c, offered (clock name) floor dir name c ->
       exists m, m ∈ ms /\ m_platform m = m_platform c /\ not_newer (m_version c) (m_version m)).
Proof.
  intros Hl Hv. unfold scanUpdateDir. set (cs := omap _ listing).
  assert (Hcs : forall c, c ∈ cs <-> exists name, name ∈ listing /\ offered (clock name) floor dir name c).
  { intros c. unfold cs. rewrite list_elem_of_omap. by setoid_rewrite classify_spec. }
  destruct (select_selected cs [] []) as (ms & -> & Hin & Hnd & Hbest); [| apply selected_nil |].
  - apply Forall_forall. cbn [app]. intros c (name & Hn & Ho)%Hcs. destruct Ho as (Hsig & Hval & _ & bin & sig & v & Hb & _ & _ & ->).
    apply Hv; [by exists bin | done | done].
  - exists ms. split_conj; try done.
    + intros m (name & _ & Ho)%Hin%Hcs. by rewrite (offered_name _ _ _ _ _ Ho).
    + intros name c Ho. apply Hbest, Hcs. exists name. split; [| done]. apply Hl.
      destruct Ho as (_ & _ & _ & bin & sig & v & Hb & _). by exists bin.
Qed.

Lemma scan_prune_lookup locked ms dir name :
  prune locked ms dir !! name = if decide (name ∈ keepNames ms \/ locked name = true) then dir !! name else None.
Proof.
  unfold prune. case_decide as H.
  - destruct (dir !! name) as [c |] eqn:E; [by apply map_lookup_filter_Some | apply map_lookup_filter_None; by left].
  - apply map_lookup_filter_None. right. intros c Hc. exact H.
Qed.

Lemma keepNames_in ms name :
  name ∈ keepNames ms <-> exists m, m ∈ ms /\ (name = m_filename m \/ name = m_filename m ++ dot_sig).
Proof.
  unfold keepNames. rewrite list_elem_of_In, in_concat. setoid_rewrite <- list_elem_of_In. setoid_rewrite list_elem_of_fmap. split.
  - intros (l & (m & -> & Hm) & Hn). exists m. split; [done |].
    by rewrite !elem_of_cons, elem_of_nil in Hn; destruct Hn as [-> | [-> | []]]; auto.
  - intros (m & Hm & Hn). eexists. split; [by exists m |]. destruct Hn as [-> | ->]; [left | right; left].
Qed.

(** A binary acceptable at some time was acceptable before. *)
Lemma offered_earlier now now' floor dir name m :
  now <= now' -> offered now' floor dir name m -> offered now floor dir name m.
Proof.
  intros Hle (H1 & H2 & H3 & bin & sig & v & Hb & Hs & Hv & E). unfold offered. split_conj; try done. exists bin, sig, v.
  split_conj; try done. revert Hv. unfold verifyArtifactBytes. rewrite !verify_spec.
  intros (b & d & key & ids & ? & ? & ? & Ht & ? & He & ? & Hrest). exists b, d, key, ids. cbn in *.
  split_conj; try apply Ht; try apply Hrest; try done; intros _; specialize (He eq_refl); lia.
Qed.

Lemma offered_prune now floor locked ms dir name m :
  offered now floor (prune locked ms dir) name m -> offered now floor dir name m.
Proof.
  intros (H1 & H2 & H3 & bin & sig & v & Hb & Hs & H). unfold offered. split_conj; try done. exists bin, sig, v.
  rewrite scan_prune_lookup in Hb, Hs. by repeat case_decide.
Qed.

Lemma offered_kept now floor locked ms dir m :
  m ∈ ms -> offered now floor dir (m_filename m) m -> offered now floor (prune locked ms dir) (m_filename m) m.
Proof.
  intros Hm (H1 & H2 & H3 & bin & sig & v & Hb & Hs & H). unfold offered. split_conj; try done. exists bin, sig, v.
  rewrite !scan_prune_lookup. rewrite !decide_True by (left; apply keepNames_in; eauto). done.
Qed.

Lemma offered_unique now floor dir name m m' :
  offered now floor dir name m -> offered now floor dir name m' -> m = m'.
Proof. rewrite <- !classify_spec. congruence. Qed.

Lemma is_sig_app name : name <> [] -> is_sig (name ++ dot_sig) = true.
Proof.
  intros Hn. unfold is_sig, substr_from. rewrite length_app. change (length dot_sig) with 4%nat.
  replace (length name + 4 - 4)%nat with (length name) by lia. rewrite drop_app_length, bool_decide_true by done.
  destruct name; [done |]. by rewrite (proj2 (Nat.ltb_lt _ _)) by (cbn [length]; lia).
Qed.

Lemma valid_name_nonempty name : i_valid (parseClientBinaryFilename name) = true -> name <> [].
Proof. by intros H ->. Qed.

(** A kept file that could be an entry is one of the kept binaries. *)
Lemma kept_binary now floor dir ms name m :
  (forall k, k ∈ ms -> offered (now (m_filename k)) floor dir (m_filename k) k) ->
  offered (now name) floor dir name m -> name ∈ keepNames ms -> m ∈ ms.
Proof.
  intros Hms Ho (k & Hk & [-> | ->])%keepNames_in.
  - by rewrite (offered_unique _ _ _ _ _ _ Ho (Hms k Hk)).
  - destruct Ho as (Hs & _). destruct (Hms k Hk) as (_ & Hv & _). by rewrite is_sig_app in Hs by by apply valid_name_nonempty.
Qed.

Lemma same_platform ms (m m' : UpdateManifestEntry) :
  NoDup (m_platform <$> ms) -> m ∈ ms -> m' ∈ ms -> m_platform m = m_platform m' -> m = m'.
Proof.
  intros Hnd (i & Hi)%list_elem_of_lookup (j & Hj)%list_elem_of_lookup E.
  assert (i = j) as ->; [| congruence].
  apply (NoDup_lookup _ i j (m_platform m) Hnd); rewrite list_lookup_fmap; [by rewrite Hi | rewrite Hj; cbn; congruence].
Qed.

(** C23: the scan of the update directory does what the updater relies on. It
    never fails when the versions in the file names fit an [int]; the manifest
    then has at most one entry for a platform, every entry describes a binary
    of the directory whose signature passed the trust check, with its true
    hash and signature size, and no verified binary of the platform is newer.
    Afterwards the directory holds, unchanged, exactly the listed binaries and
    their signatures, apart from files that could not be removed; and a
    second scan at the same clock, in any order, changes nothing. *)
Theorem scan_keeps_best clock floor locked listing dir :
  lists listing dir -> versions_fit dir ->
  exists dir' ms, scanUpdateDir roots clock floor locked listing dir = Some (dir', ms) /\
    NoDup (m_platform <$> ms) /\
    (forall m, m ∈ ms -> offered (clock (m_filename m)) floor dir' (m_filename m) m) /\
    (forall name c, offered (clock name) floor dir name c ->
       exists m, m ∈ ms /\ m_platform m = m_platform c /\ not_newer (m_version c) (m_version m)) /\
    (forall name, dir' !! name = if decide (name ∈ keepNames ms \/ locked name = true) then dir !! name else None) /\
    (forall listing', lists listing' dir' -> (forall name, locked name = false) ->
       exists ms', scanUpdateDir roots clock floor locked listing' dir' = Some (dir', ms') /\ ms' ≡ₚ ms).
Proof.
  intros Hl Hv. destruct (scan_spec clock floor locked listing dir Hl Hv) as (ms & E & Hms & Hnd & Hbest).
  exists (prune locked ms dir), ms. assert (Hms' := fun m Hm => offered_kept _ _ locked ms dir m Hm (Hms m Hm)).
  split_conj; try done; [apply scan_prune_lookup |]. intros listing' Hl' Hlock.
  destruct (scan_spec clock floor locked listing' (prune locked ms dir)) as (ms' & -> & Hin & Hnd' & Hbest'); [done | |].
  { intros name [c Hc]. apply Hv. rewrite scan_prune_lookup in Hc. case_decide; [by exists c | done]. }
  assert (Hsub : forall m, m ∈ ms' -> m ∈ ms).
  { intros m Hm. specialize (Hin m Hm). apply (kept_binary clock floor dir _ (m_filename m)); [done | by eapply offered_prune |].
    destruct Hin as (_ & _ & _ & bin & sig & v & Hb & _). rewrite scan_prune_lookup, Hlock in Hb. by case_decide as H; [destruct H |]. }
  assert (P : ms' ≡ₚ ms).
  { apply NoDup_Permutation; [by eapply NoDup_fmap_1 | by eapply NoDup_fmap_1 |]. intros m. split; [auto |]. intros Hm.
    destruct (Hbest' (m_filename m) m (Hms' m Hm)) as (m' & Hm' & Hp & _).
    by rewrite <- (same_platform ms m' m Hnd (Hsub _ Hm') Hm Hp). }
  exists ms'. split; [| done]. f_equal. f_equal. apply map_eq. intros name.
  assert (K : name ∈ keepNames ms' <-> name ∈ keepNames ms) by (rewrite !keepNames_in; by setoid_rewrite P).
  rewrite !scan_prune_lookup. repeat case_decide; tauto.
Qed.
End ScanProps.

(** ** Sample directory *)

Definition sample_name : str := "ntm-client-linux-amd64-2.1.0.0".

(** A signed binary, an unsigned newer one, and a stray signature. *)
Definition sample_dir : gmap str str :=
  {[ sample_name := ("bin" : str); sample_name ++ dot_sig := sample_sig;
     ("ntm-client-linux-amd64-9.0.0" : str) := ("evil" : str); ("stray.sig" : str) := ("x" : str) ]}.

Lemma lists_keys (dir : gmap str str) : lists (map_to_list dir).*1 dir.
Proof.
  intros name. rewrite list_elem_of_fmap. split.
  - intros ([k c] & -> & H%elem_of_map_to_list). by exists c.
  - intros [c Hc]. exists (name, c). split; [done |]. by apply elem_of_map_to_list.
Qed.

Lemma sample_fits : versions_fit sample_dir.
Proof.
  assert (H : map_Forall (fun name _ => i_valid (parseClientBinaryFilename name) = true ->
    fits (i_version (parseClientBinaryFilename name))) sample_dir).
  { unfold fits. apply (bool_decide_unpack _). by vm_compute. }
  intros name [c Hc] _. exact (H name c Hc).
Qed.

Lemma scan_keeps_best_witness :
  exists dir' ms, scanUpdateDir sample_roots (fun _ => 1800000000) 7 (fun _ => false) (map_to_list sample_dir).*1 sample_dir = Some (dir', ms) /\
    NoDup (m_platform <$> ms).
Proof.
  destruct (scan_keeps_best sample_roots (fun _ => 1800000000) 7 (fun _ => false) _ sample_dir (lists_keys _) sample_fits)
    as (dir' & ms & H1 & H2 & _). exists dir', ms. auto.
Defined.

(** What that scan leaves. *)
Lemma sample_scan :
  (fun r => (map_to_list r.1).*1 ++ (m_version <$> r.2)) <$>
    scanUpdateDir sample_roots (fun _ => 1800000000) 7 (fun _ => false) (map_to_list sample_dir).*1 sample_dir
  = Some [sample_name ++ dot_sig; sample_name; "2.1.0.0" : str].
Proof. vm_compute. reflexivity. Qed.

(** A check with an oversized version runs into signed overflow. *)
Lemma version_overflow :
  update_check {[ replicate 32 "k"%char ]} [mkEntry "linux-amd64" "2.1.0.0" sample_name [] 0]
    (hexEncode (replicate 32 "k"%char)) "linux-amd64" "99999999999.0.0" = None.
Proof. vm_compute. reflexivity. Qed.
