(* ===== verification/Push.v ===== *)
(** The push endpoints of [web_dashboard.cpp]: nonces and signed uploads that
    replace the server ([/admin/upgrade]) or add a client binary to the update
    directory ([/admin/client]), and the admin endpoints that tell a client to
    update itself and follow its progress. The pieces are those of [Upgrade],
    [Trust], [RateLimit] and [UpdateDir]; SHA3-256 is OpenSSL's, and what the
    file system does with each write enters as an argument. *)

From S2P Require Import Prelude CppString Base64 Trust Upgrade Registry RateLimit HttpUtil Updater RemoteLogs UpdateDir.
Local Open Scope Z_scope.

(** [sha3_256]: empty when OpenSSL fails. *)
Class Sha3 := { sha3_256 : str -> str }.

(** Steady-clock nanoseconds. *)
Definition kNonceTtl : Z := 300 * 10 ^ 9.

(** A multipart body: text fields, and file parts with a name of their own. *)
Record Form := mkForm { fields : gmap str str; file_parts : gmap str str }.

(* web_dashboard.cpp:4243-4247 upgrade push, getField *)
Definition getField (f : Form) (name : str) : str :=
  match fields f !! name with Some v => v | None => default [] (file_parts f !! name) end.

Definition too_many : Response := mkHttp 429 (err_body "rate limit exceeded").

(** ** Replacing the server *)

(** The limiters of the two endpoints, the nonces and the disk. *)
Record UpgradeState := mkUpgrade {
  u_nonce_limit : WebRateLimiter.t; u_push_limit : WebRateLimiter.t; u_nonces : NonceStore.t; u_fs : gmap str str
}.

(** [t0], [t1], [t2]: readings of the steady clock by the limiter and the
    nonce store; [epoch] and [floor] are those of the trust policy. *)
Record PushEnv := mkPushEnv { t0 : Z; t1 : Z; t2 : Z; epoch : Z; floor : Z }.

Definition nonce_body (nonce rest : str) : str :=
  "{" ++ quoted "nonce" ++ ":"%char :: quoted nonce ++ "," ++ rest ++ "}" ++ [LF].

(* web_dashboard.cpp:4201-4224 GET /admin/upgrade/nonce *)
Definition upgrade_nonce (e : PushEnv) (raw : option str) (server_version ip : str) (s : UpgradeState) : UpgradeState * Response :=
  let (lim, ok) := WebRateLimiter.tryAcquire 5 (t0 e) ip (u_nonce_limit s) in
  let s := mkUpgrade lim (u_push_limit s) (u_nonces s) (u_fs s) in
  if negb ok then (s, too_many)
  else
    let (ns, nonce) := NonceStore.generate raw kNonceTtl (t1 e) (t2 e) (u_nonces s) in
    let s := mkUpgrade lim (u_push_limit s) ns (u_fs s) in
    if decide (nonce = []) then (s, mkHttp 500 (err_body "nonce generation failed"))
    else (s, mkHttp 200 (nonce_body nonce (quoted "server_version" ++ ":"%char :: quoted server_version))).

Section Uploads.
Context `{CR : Crypto} `{SH : Sha256} `{S3 : Sha3} (roots : RootSet).

(** Steps (c) and (d): the bundle, then the proof by the key it names. *)
(* web_dashboard.cpp:4295-4327 upgrade push, verification *)
Definition check_upload (e : PushEnv) (platform nonceBytes binary sig authProof : str) : result Verified :=
  match verifyArtifactBytes roots binary sig platform (acceptPolicy (epoch e) (floor e)) with
  | Err _ => Err "binary signature verification failed"
  | Ok v =>
      match verifyUpgradeAuth nonceBytes (sha3_256 binary) authProof (v_keySpki v) with
      | Err _ => Err "auth proof verification failed"
      | Ok _ => Ok v
      end
  end.

(** The process restarts itself after the answer: the last component. *)
(* web_dashboard.cpp:4227-4381 POST /admin/upgrade/push *)
Definition upgrade_push (e : PushEnv) (io : Faults) (binary_path server_version ip : str) (form : Form) (s : UpgradeState)
  : UpgradeState * Response * bool :=
  let (lim, ok) := WebRateLimiter.tryAcquire 1 (t0 e) ip (u_push_limit s) in
  let s := mkUpgrade (u_nonce_limit s) lim (u_nonces s) (u_fs s) in
  if negb ok then (s, too_many, false)
  else
    let version := getField form "version" in
    let nonceHex := getField form "nonce" in
    let proof := getField form "auth_proof" in
    let binary := getField form "binary" in
    let sig := getField form "signature" in
    if decide (version = [] \/ nonceHex = [] \/ proof = [] \/ binary = [] \/ sig = [])
    then (s, mkHttp 400 (err_body "missing required field"), false)
    else
      let (ns, ok) := NonceStore.consume nonceHex (t1 e) (t2 e) (u_nonces s) in
      let s := mkUpgrade (u_nonce_limit s) lim ns (u_fs s) in
      if negb ok then (s, mkHttp 403 (err_body "invalid, expired, or already-used nonce"), false)
      else
        let nonceBytes := hexDecode nonceHex in
        let authProof := Upgrade.base64Decode proof in
        if decide (nonceBytes = [] \/ sha3_256 binary = [] \/ authProof = [])
        then (s, mkHttp 400 (err_body "malformed nonce, binary, or auth_proof"), false)
        else
          match check_upload e "linux-amd64" nonceBytes binary sig authProof with
          | Err msg => (s, mkHttp 403 (err_body msg), false)
          | Ok _ =>
              let newVer := parseSemver version in
              let curVer := parseSemver server_version in
              if negb (valid newVer) || negb (valid curVer)
              then (s, mkHttp 400 (err_body "unparseable version string"), false)
              else if sv_le newVer curVer then
                (s, mkHttp 409 (err_body ("uploaded binary v" ++ sv_str newVer ++ " is not newer than current v"
                                          ++ sv_str curVer ++ "; discarding")), false)
              else
                let (fs, ok) := writeUpgradeAtomically io binary_path binary sig (u_fs s) in
                let s := mkUpgrade (u_nonce_limit s) lim ns fs in
                if negb ok then (s, mkHttp 500 (err_body "failed to write upgrade"), false)
                else (s, mkHttp 200 ("{" ++ quoted "ok" ++ ":true," ++ quoted "upgraded_to" ++ ":"%char
                                     :: quoted (sv_str newVer) ++ "}" ++ [LF]), true)
          end.

(** ** Adding a client binary *)

Record ClientPushState := mkClientPush {
  c_nonce_limit : WebRateLimiter.t; c_push_limit : WebRateLimiter.t; c_nonces : NonceStore.t;
  c_dir : gmap str str; c_manifest : list UpdateManifestEntry
}.

(* web_dashboard.cpp:4416-4429 GET /admin/client/nonce, platform_versions *)
Definition platform_versions (ms : list UpdateManifestEntry) : str :=
  "{" ++ comma_sep ((fun m => quoted (jsonEsc (m_platform m)) ++ ":"%char :: quoted (jsonEsc (m_version m))) <$> ms) ++ "}".

(* web_dashboard.cpp:4397-4434 GET /admin/client/nonce *)
Definition client_nonce (e : PushEnv) (raw : option str) (ip : str) (s : ClientPushState) : ClientPushState * Response :=
  let (lim, ok) := WebRateLimiter.tryAcquire 5 (t0 e) ip (c_nonce_limit s) in
  let s := mkClientPush lim (c_push_limit s) (c_nonces s) (c_dir s) (c_manifest s) in
  if negb ok then (s, too_many)
  else
    let (ns, nonce) := NonceStore.generate raw kNonceTtl (t1 e) (t2 e) (c_nonces s) in
    let s := mkClientPush lim (c_push_limit s) ns (c_dir s) (c_manifest s) in
    if decide (nonce = []) then (s, mkHttp 500 (err_body "nonce generation failed"))
    else (s, mkHttp 200 (nonce_body nonce (quoted "platform_versions" ++ ":"%char :: platform_versions (c_manifest s)))).

(** What becomes of a file written through a stream: it cannot be created; the
    stream reports an error; or it reports none and the disk holds the
    bytes given, which need not be all of them, since the stream's buffer is
    flushed after the last test. *)
Inductive WriteResult := NoCreate | WriteFails (stored : str) | Written (stored : str).

Record PushIo := mkPushIo {
  w_binary : WriteResult; w_chmod : bool; w_sig : WriteResult; w_rename_sig : bool; w_rename_bin : bool
}.

Definition tmp_suffix : str := ".upload_tmp".

(** The last component says whether the stream was usable to the end. *)
Definition write_file (path : str) (w : WriteResult) (fs : gmap str str) : gmap str str * bool :=
  match w with
  | NoCreate => (fs, false)
  | WriteFails c => (<[path := c]> fs, false)
  | Written c => (<[path := c]> fs, true)
  end.

(* web_dashboard.cpp:4580-4584 client push, cleanup *)
Definition remove_temps (filename : str) (fs : gmap str str) : gmap str str :=
  delete (filename ++ dot_sig ++ tmp_suffix) (delete (filename ++ tmp_suffix) fs).

(** Step (h): [None] when both files are in place, the error otherwise. *)
(* web_dashboard.cpp:4586-4628 client push, files *)
Definition store_push (io : PushIo) (filename : str) (fs : gmap str str) : gmap str str * option str :=
  let binTmp := filename ++ tmp_suffix in
  let sigTmp := filename ++ dot_sig ++ tmp_suffix in
  let (fs, ok) := write_file binTmp (w_binary io) fs in
  if negb ok then
    (remove_temps filename fs,
     Some match w_binary io with NoCreate => "cannot create temp file" : str | _ => "write failed" : str end)
  else if negb (w_chmod io) then (remove_temps filename fs, Some ("chmod failed" : str))
  else
    let (fs, ok) := write_file sigTmp (w_sig io) fs in
    if negb ok then
      (remove_temps filename fs,
       Some match w_sig io with NoCreate => "cannot create sig temp file" : str | _ => "sig write failed" : str end)
    else if negb (w_rename_sig io) then (remove_temps filename fs, Some ("sig rename failed" : str))
    else
      let fs := rename_file sigTmp (filename ++ dot_sig) fs in
      if negb (w_rename_bin io) then (fs, Some ("binary rename failed" : str))
      else (rename_file binTmp filename fs, None).

(* web_dashboard.cpp:4569-4573 client push, filename *)
Definition push_filename (platform version : str) : str :=
  kPrefix ++ platform ++ "-" ++ version ++ (if contains_str "windows" platform then ".exe" else []).

(** The manifest's version of the platform, when it parses and is not older. *)
(* web_dashboard.cpp:4546-4567 client push, version check *)
Fixpoint not_newer_than (newVer : Semver) (platform : str) (ms : list UpdateManifestEntry) : option Semver :=
  match ms with
  | [] => None
  | m :: ms =>
      if decide (m_platform m = platform) then
        let curVer := parseSemver (m_version m) in
        if valid curVer && sv_le newVer curVer then Some curVer else None
      else not_newer_than newVer platform ms
  end.

(** [None]: undefined behaviour in the scan. [clock], [locked] and [listing]
    are those of the scan, [listing] as the directory then stands. *)
(* web_dashboard.cpp:4437-4641 POST /admin/client/push *)
Definition client_push (e : PushEnv) (io : PushIo) (clock : str -> Z) (locked : str -> bool)
  (listing : gmap str str -> list str) (ip : str) (form : Form) (s : ClientPushState) : option (ClientPushState * Response) :=
  let (lim, ok) := WebRateLimiter.tryAcquire 1 (t0 e) ip (c_push_limit s) in
  let s := mkClientPush (c_nonce_limit s) lim (c_nonces s) (c_dir s) (c_manifest s) in
  if negb ok then Some (s, too_many)
  else
    let platform := getField form "platform" in
    let version := getField form "version" in
    let nonceHex := getField form "nonce" in
    let proof := getField form "auth_proof" in
    let binary := getField form "binary" in
    let sig := getField form "signature" in
    if decide (platform = [] \/ version = [] \/ nonceHex = [] \/ proof = [] \/ binary = [] \/ sig = [])
    then Some (s, mkHttp 400 (err_body "missing required field"))
    else
      let (ns, ok) := NonceStore.consume nonceHex (t1 e) (t2 e) (c_nonces s) in
      let s := mkClientPush (c_nonce_limit s) lim ns (c_dir s) (c_manifest s) in
      if negb ok then Some (s, mkHttp 403 (err_body "invalid, expired, or already-used nonce"))
      else
        let nonceBytes := hexDecode nonceHex in
        let authProof := Upgrade.base64Decode proof in
        if decide (nonceBytes = [] \/ sha3_256 binary = [] \/ authProof = [])
        then Some (s, mkHttp 400 (err_body "malformed nonce, binary, or auth_proof"))
        else if negb (isKnownClientPlatform platform) then Some (s, mkHttp 400 (err_body "unknown platform"))
        else
          match check_upload e platform nonceBytes binary sig authProof with
          | Err msg => Some (s, mkHttp 403 (err_body msg))
          | Ok _ =>
              let newVer := parseSemver version in
              if negb (valid newVer) then Some (s, mkHttp 400 (err_body "unparseable version string"))
              else
                match not_newer_than newVer platform (c_manifest s) with
                | Some curVer =>
                    Some (s, mkHttp 409 (err_body ("pushed version " ++ sv_str newVer ++ " is not newer than current "
                                                   ++ sv_str curVer ++ " for platform " ++ platform)))
                | None =>
                    match store_push io (push_filename platform version) (c_dir s) with
                    | (fs, Some msg) =>
                        Some (mkClientPush (c_nonce_limit s) lim ns fs (c_manifest s), mkHttp 500 (err_body msg))
                    | (fs, None) =>
                        let? r := scanUpdateDir roots clock (floor e) locked (listing fs) fs in
                        Some (mkClientPush (c_nonce_limit s) lim ns r.1 r.2,
                              mkHttp 200 ("{" ++ quoted "ok" ++ ":true," ++ quoted "platform" ++ ":"%char
                                          :: quoted (jsonEsc platform) ++ "," ++ quoted "version" ++ ":"%char
                                          :: quoted (jsonEsc version) ++ "}" ++ [LF]))
                    end
                end
          end.

End Uploads.

(** ** Telling a client to update *)

(** The random request id, the lines sent to the client, and the update
    statuses. *)
(* web_dashboard.cpp:4071-4143 POST /api/admin/clients/:client_id/update *)
Definition client_update (clients : gset str) (connected : bool) (raw : str) (now now' now'' : Z) (clientId : str)
  (reg : UpdateRegistry.t) : UpdateRegistry.t * option str * Response :=
  if negb (validateClientId clientId) then (reg, None, mkHttp 400 (err_body "invalid client_id"))
  else
    let rawKey := hexToRaw32 clientId in
    if decide (rawKey = []) then (reg, None, mkHttp 400 (err_body "invalid client_id"))
    else if negb (bool_decide (rawKey ∈ clients)) then (reg, None, mkHttp 404 (err_body "client not found"))
    else if negb connected then (reg, None, mkHttp 409 (err_body "client_offline"))
    else
      let reqId := hexEncode raw in
      (UpdateRegistry.set reg clientId (UpdateRegistry.mkStatus reqId "sent" [] [] now now false) now' now'',
       Some (c_line "update_now" reqId None),
       mkHttp 200 ("{" ++ quoted "ok" ++ ":true," ++ quoted "req_id" ++ ":"%char :: quoted (jsonEsc reqId) ++ "}" ++ [LF])).

(** Ten minutes after a push. *)
(* web_dashboard.cpp:4125-4137 client update, watchdog *)
Definition update_watchdog (clientId reqId : str) (now : Z) (reg : UpdateRegistry.t) : UpdateRegistry.t :=
  let cur := UpdateRegistry.get reg clientId in
  if negb (bool_decide (UpdateRegistry.req_id cur = [])) && bool_decide (UpdateRegistry.req_id cur = reqId)
     && negb (UpdateRegistry.terminal cur)
  then (UpdateRegistry.applyUpdLine reg clientId reqId "timeout" "watchdog" [] true now).1
  else reg.

Definition or_null (s : str) : str := if decide (s = []) then "null" else quoted (jsonEsc s).

(* web_dashboard.cpp:4145-4181 GET /api/admin/clients/:client_id/update/status *)
Definition update_status (clientId : str) (reg : UpdateRegistry.t) : Response :=
  if negb (validateClientId clientId) then mkHttp 400 (err_body "invalid client_id")
  else
    let s := UpdateRegistry.get reg clientId in
    if decide (UpdateRegistry.req_id s = []) then mkHttp 200 ("{}" ++ [LF])
    else
      let seconds t := print_int (Z.quot t (10 ^ 9)) in
      mkHttp 200
        ("{" ++ quoted "req_id" ++ ":"%char :: quoted (jsonEsc (UpdateRegistry.req_id s)) ++ "," ++
         quoted "stage" ++ ":"%char :: quoted (jsonEsc (UpdateRegistry.stage s)) ++ "," ++
         quoted "started_at" ++ ":"%char :: seconds (UpdateRegistry.started_at s) ++ "," ++
         quoted "updated_at" ++ ":"%char :: seconds (UpdateRegistry.updated_at s) ++ "," ++
         quoted "error" ++ ":"%char :: or_null (UpdateRegistry.error s) ++ "," ++
         quoted "new_version" ++ ":"%char :: or_null (UpdateRegistry.new_version s) ++ "," ++
         quoted "terminal" ++ ":"%char :: (if UpdateRegistry.terminal s then "true" else "false" : str) ++ "}" ++ [LF]).

(** ** Lemmas: the two version readers agree *)

Definition digits (w : str) : Prop := Forall (fun c => is_digit c = true) w.

(** The parts behind the first one. *)
Definition dotted (ws : list str) : str := concat (cons "."%char <$> ws).

Lemma version_shape s dots lastWasDot :
  version_loop s dots lastWasDot = true ->
  exists w ws, s = w ++ dotted ws /\ digits w /\ Forall digits ws /\ Forall (fun w => w <> []) ws /\
    (lastWasDot = true -> w <> []) /\ (2 <= dots + length ws <= 3)%nat.
Proof.
  revert dots lastWasDot. induction s as [| c s IH]; intros dots last; cbn [version_loop].
  - intros H. exists [], []. bool_to_prop. split_conj; try done; [constructor | by destruct last | cbn; lia | cbn; lia].
  - case_decide as Hc; [subst c; destruct last; [done |] |]; [| destruct (is_digit c) eqn:Ed; [| done]].
    + intros (w & ws & -> & Hw & Hws & Hne & Hl & Hd)%IH. exists [], (w :: ws).
      split_conj; try done; [by constructor | by constructor | constructor; [by apply Hl | done] | cbn; lia | cbn; lia].
    + intros (w & ws & -> & Hw & Hws & Hne & Hl & Hd)%IH. exists (c :: w), ws.
      split_conj; try done; try lia; by constructor.
Qed.

Lemma digit_not_dot c : is_digit c = true -> c <> "."%char.
Proof. intros H ->. done. Qed.

Lemma digits_no_dot w : digits w -> "."%char ∉ w.
Proof. intros H Hin. unfold digits in H. rewrite Forall_forall in H. by specialize (H _ Hin). Qed.

(** One run of digits in the dashboard's reader. *)
Lemma semver_digits w s part r ps :
  digits w -> (part < length r)%nat -> semver_loop (w ++ s) part r = Some ps -> (forall i, 0 <= nth i r 0 <= 2 ^ 31 - 1) ->
  let v := dec_val (nth part r 0) w in
  semver_loop s part (<[part := v]> r) = Some ps /\ 0 <= v <= 2 ^ 31 - 1.
Proof.
  intros Hw. revert r. induction Hw as [| c w Hc Hw IH]; intros r Hp; cbn [app dec_val].
  - intros H Hr. split; [| apply Hr]. destruct (lookup_lt_is_Some_2 r part Hp) as [x Hx]. by rewrite list_insert_id by (by rewrite nth_lookup, Hx).
  - cbn [semver_loop]. rewrite decide_False by by apply digit_not_dot. rewrite Hc.
    destruct (_ <? _) eqn:E; [done |]. intros H Hr. apply Z.ltb_ge in E.
    assert (Hd : 0 <= digit_val c) by (unfold is_digit, in_range, digit_val in *; bool_to_prop; change (byte_val "0") with 48 in *; lia).
    apply IH in H.
    + rewrite list_insert_insert_eq in H. by rewrite nth_lookup, list_lookup_insert_eq in H.
    + by rewrite length_insert.
    + intros i. rewrite nth_lookup. destruct (decide (i = part)) as [-> | Hi].
      * rewrite list_lookup_insert_eq by done. cbn. pose proof (Hr part). lia.
      * rewrite list_lookup_insert_ne by done. rewrite <- nth_lookup. apply Hr.
Qed.

Lemma part_digits w :
  digits w -> w <> [] -> dec_val 0 w <= 2 ^ 31 - 1 -> part w = Some (dec_val 0 w).
Proof.
  intros Hw Hne Hv. unfold part, stoull. pose proof (strto_scan_digits w [] Hw Hne I) as E. rewrite app_nil_r in E. rewrite E.
  pose proof (dec_val_nonneg 0 w ltac:(lia) Hw). cbv beta iota zeta.
  rewrite (proj2 (Z.ltb_ge _ _)) by (unfold UINT64_MAX; lia). by rewrite Nat.eqb_refl, u32_small by lia.
Qed.

(** The dots and the parts of a three-part text. *)
Lemma dots3 a b c :
  "."%char ∉ a -> "."%char ∉ b -> "."%char ∉ c ->
  let s := a ++ "."%char :: b ++ "."%char :: c in
  let d1 := length a in
  let d2 := (S d1 + length b)%nat in
  find_char "." s = Some d1 /\ find_char_from "." s (S d1) = Some d2 /\
  find_char_from "." s (S d2) = None /\
  substr s 0 d1 = a /\ substr s (S d1) (d2 - d1 - 1) = b /\ substr_from s (S d2) = c.
Proof.
  intros Ha Hb Hc s d1 d2.
  assert (L1 : length (a ++ ["."%char]) = S d1) by (rewrite length_app; cbn; lia).
  assert (L2 : length (a ++ "."%char :: b ++ ["."%char]) = S d2)
    by (rewrite !length_app; cbn; rewrite !length_app; cbn; lia).
  assert (E1 : s = (a ++ ["."%char]) ++ b ++ "."%char :: c) by (unfold s; by rewrite <- !app_assoc).
  assert (E2 : s = (a ++ "."%char :: b ++ ["."%char]) ++ c)
    by (unfold s; rewrite <- app_assoc; cbn; by rewrite <- app_assoc).
  split_conj.
  - by apply find_char_app.
  - by eapply find_at.
  - rewrite <- L2, E2, find_char_from_app. by rewrite (proj2 (find_char_None _ c)).
  - by eapply (substr_at []).
  - eapply substr_at; [exact E1 | done | lia].
  - unfold substr_from. rewrite <- L2, E2. apply drop_app_length.
Qed.

(** The same four numbers. *)
Definition semver_list (v : Semver) : list Z := [major v; minor v; patch v; revision v].

Lemma semver_dot s part r : (part < 3)%nat -> semver_loop ("."%char :: s) part r = semver_loop s (S part) r.
Proof. intros H. cbn [semver_loop]. rewrite decide_True by done. by rewrite (proj2 (Nat.ltb_lt part 3)). Qed.

Lemma readers_agree s ps :
  version_loop s 0 true = true -> semver_parts s = Some ps ->
  valid (parseSemver s) = true /\ semver_list (parseSemver s) = ps.
Proof.
  intros (a & ws & -> & Ha & Hws & Hne & Hna & Hlen)%version_shape H. specialize (Hna eq_refl).
  assert (Hz : forall x y z w i, 0 <= x <= 2 ^ 31 - 1 -> 0 <= y <= 2 ^ 31 - 1 -> 0 <= z <= 2 ^ 31 - 1 -> 0 <= w <= 2 ^ 31 - 1 ->
    0 <= nth i [x; y; z; w] 0 <= 2 ^ 31 - 1) by (intros x y z w [| [| [| [| [| i]]]]]; cbn; lia).
  destruct ws as [| b [| c [| d [| ? ?]]]]; cbn in Hlen; try lia; unfold dotted in *; cbn [fmap list_fmap concat] in *;
    rewrite Forall_cons in Hws; destruct Hws as [Hb Hws]; rewrite Forall_cons in Hws; destruct Hws as [Hc Hws];
    rewrite Forall_cons in Hne; destruct Hne as [Hnb Hne]; rewrite Forall_cons in Hne; destruct Hne as [Hnc Hne].
  all: unfold semver_parts in H; rewrite <- ?app_assoc, ?app_nil_r in *; cbn [app] in *.
  all: apply semver_digits in H as [H Hva]; [| done | cbn; lia | intros i; apply Hz; lia].
  all: rewrite semver_dot in H by lia; cbn [nth insert list_insert] in H, Hva.
  all: apply semver_digits in H as [H Hvb]; [| done | cbn; lia | intros i; apply Hz; lia].
  all: rewrite semver_dot in H by lia; cbn [nth insert list_insert] in H, Hvb.
  - rewrite <- (app_nil_r c) in H.
    apply semver_digits in H as [H Hvc]; [| done | cbn; lia | intros i; apply Hz; lia]. cbn [nth insert list_insert] in H, Hvc.
    destruct (dots3 a b c) as (F1 & F2 & F3 & P1 & P2 & P3); try by apply digits_no_dot.
    unfold parseSemver. rewrite decide_False by (by destruct a). rewrite F1, F2, F3, P1, P2, P3, !part_digits by (done || lia).
    cbn in H. by injection H as <-.
  - apply Forall_cons in Hws as [Hd _]. apply Forall_cons in Hne as [Hnd _].
    apply semver_digits in H as [H Hvc]; [| done | cbn; lia | intros i; apply Hz; lia].
    rewrite semver_dot in H by lia; cbn [nth insert list_insert] in H, Hvc. rewrite <- (app_nil_r d) in H.
    apply semver_digits in H as [H Hvd]; [| done | cbn; lia | intros i; apply Hz; lia]. cbn [nth insert list_insert] in H, Hvd.
    destruct (dots4 a b c d) as (F1 & F2 & F3 & F4 & P1 & P2 & P3 & P4); try by apply digits_no_dot.
    unfold parseSemver. rewrite decide_False by (by destruct a). rewrite F1, F2, F3, F4, P1, P2, P3, P4, !part_digits by (done || lia).
    cbn in H. by injection H as <-.
Qed.

(** On the versions that file names carry, the two comparisons of the program
    agree. *)
Lemma comparisons_agree a b :
  version_loop a 0 true = true -> version_loop b 0 true = true -> fits a -> fits b ->
  sv_le (parseSemver a) (parseSemver b) = true <-> not_newer a b.
Proof.
  intros Ha Hb [pa Ea] [pb Eb]. destruct (readers_agree a pa Ha Ea) as [_ <-], (readers_agree b pb Hb Eb) as [_ <-].
  unfold not_newer, semverCmp. rewrite Ea, Eb. unfold sv_le. rewrite negb_true_iff, <- not_true_iff_false, sv_gt_spec.
  cbn [semver_list cmp_parts].
  assert (E : forall P : Z -> Prop, forall x, (exists r, Some x = Some r /\ P r) <-> P x) by naive_solver.
  rewrite E. repeat case_match; bool_to_prop; lia.
Qed.

(** ** Lemmas: names of pushed binaries *)

Lemma version_chars v dots last : version_loop v dots last = true -> Forall (fun c => is_digit c || bool_decide (c = "."%char) = true) v.
Proof.
  revert dots last. induction v as [| c v IH]; intros dots lst; cbn [version_loop]; [constructor |].
  case_decide as Hc; [destruct lst; [done |] | destruct (is_digit c) eqn:Ed; [| done]]; intros H%IH; constructor; try done.
  - by rewrite Hc.
  - by rewrite Ed.
Qed.

Lemma version_nonempty v : version_loop v 0 true = true -> v <> [].
Proof. by intros H ->. Qed.

(** The last byte of a name decides its suffix tests. *)
Lemma suffix_last (x suf : str) (d c : ascii) :
  (length suf <= length x)%nat -> substr_from x (length x - length suf) = suf -> last suf = Some c -> last x = Some d -> c = d.
Proof.
  intros Hl E Hs Hx. rewrite <- (take_drop (length x - length suf) x) in Hx. unfold substr_from in E. rewrite E in Hx.
  rewrite last_app, Hs in Hx. congruence.
Qed.

Lemma version_last v x : version_loop v 0 true = true -> exists d, last (x ++ v) = Some d /\ (is_digit d = true \/ d = "."%char).
Proof.
  intros H. assert (Hne := version_nonempty v H). apply version_chars in H.
  destruct (last v) as [d |] eqn:E; [| by apply last_None in E].
  exists d. split; [by rewrite last_app, E |]. rewrite Forall_forall in H.
  assert (Hin : d ∈ v) by (apply last_Some in E as [l ->]; set_solver).
  specialize (H d Hin). apply orb_true_iff in H as [H | H]; [by left | right; by bool_to_prop].
Qed.

Definition exe (w : bool) : str := if w then ".exe" else [].

(** The test for the executable suffix, and its removal. *)
Lemma exe_suffix x v w :
  version_loop v 0 true = true ->
  let rest := (x ++ v) ++ exe w in
  ((4 <? length rest)%nat && bool_decide (substr_from rest (length rest - 4) = ".exe")) = w /\
  (if w then substr rest 0 (length rest - 4) else rest) = x ++ v.
Proof.
  intros Hv rest. destruct w; unfold rest; [change (exe true) with (".exe" : str) | change (exe false) with ([] : str)].
  - rewrite length_app. change (length (".exe" : str)) with 4%nat.
    unfold substr_from, substr. cbn [drop]. rewrite Nat.add_sub, drop_app_length, drop_0, take_app_length, bool_decide_true by done.
    pose proof (version_nonempty v Hv). destruct v as [| c v]; [done |].
    rewrite length_app. cbn [length]. by rewrite (proj2 (Nat.ltb_lt _ _)) by lia.
  - rewrite app_nil_r. split; [| done]. apply not_true_iff_false. intros [Hl%Nat.ltb_lt E%bool_decide_eq_true]%andb_true_iff.
    destruct (version_last v x Hv) as (d & Hd & Hdd).
    apply (suffix_last _ (".exe" : str) d "e") in E; [| cbn; lia | done | done]. subst d. by destruct Hdd.
Qed.

Lemma parse_named p v w :
  p <> [] -> contains_char "-" p = true -> version_loop v 0 true = true ->
  let f := kPrefix ++ (p ++ "-"%char :: v) ++ exe w in
  parseClientBinaryFilename f = mkInfo p v f w true.
Proof.
  intros Hne Hm Hv f. unfold parseClientBinaryFilename.
  assert (L : (length f <=? length kPrefix)%nat = false) by (apply Nat.leb_gt; unfold f; rewrite !length_app; cbn; lia).
  assert (E1 : substr f 0 (length kPrefix) = kPrefix) by (unfold f, substr; cbn [drop]; apply take_app_length).
  assert (E2 : substr_from f (length kPrefix) = (p ++ "-"%char :: v) ++ exe w) by (apply drop_app_length).
  rewrite L, E1, bool_decide_true by done. cbn [negb]. rewrite E2, (cons_middle _ p v), (app_assoc p).
  destruct (exe_suffix (p ++ ["-"%char]) v w Hv) as [-> ->]. rewrite <- app_assoc. cbn [app].
  rewrite rfind_char_app.
  2: { intros Hin. apply version_chars in Hv. rewrite Forall_forall in Hv. by specialize (Hv _ Hin). }
  destruct p as [| c p]; [done |]. cbn [length].
  assert (P1 : substr ((c :: p) ++ "-"%char :: v) 0 (S (length p)) = c :: p) by (unfold substr; rewrite drop_0; apply (take_app_length (c :: p))).
  assert (P2 : substr_from ((c :: p) ++ "-"%char :: v) (S (S (length p))) = v).
  { unfold substr_from. rewrite cons_middle, app_assoc. by rewrite (drop_app_length' ((c :: p) ++ ["-"%char])) by (rewrite length_app; cbn; lia). }
  rewrite P1, P2, Hm, Hv, bool_decide_false, bool_decide_false by (done || by apply version_nonempty). done.
Qed.

Lemma not_sig x v w : version_loop v 0 true = true -> is_sig ((x ++ v) ++ exe w) = false.
Proof.
  intros Hv. apply not_true_iff_false. intros [Hl%Nat.ltb_lt E%bool_decide_eq_true]%andb_true_iff.
  destruct w; [change (exe true) with (".exe" : str) in * | change (exe false) with ([] : str) in *].
  - apply (suffix_last _ dot_sig "e" "g") in E; [done | exact (Nat.lt_le_incl _ _ Hl) | done | by rewrite last_app].
  - rewrite app_nil_r in *. destruct (version_last v x Hv) as (d & Hd & Hdd).
    apply (suffix_last _ dot_sig d "g") in E; [| exact (Nat.lt_le_incl _ _ Hl) | done | done]. subst d. by destruct Hdd.
Qed.

(** The name that the client push composes is read back by the scan, and is
    not a signature name. *)
Lemma parse_push_filename p v :
  isKnownClientPlatform p = true -> version_loop v 0 true = true ->
  let f := push_filename p v in
  is_sig f = false /\ exists w, parseClientBinaryFilename f = mkInfo p v f w true.
Proof.
  intros Hp Hv f. unfold isKnownClientPlatform in Hp.
  assert (Hf : f = ((kPrefix ++ p ++ "-") ++ v) ++ exe (contains_str "windows" p) /\
               f = kPrefix ++ (p ++ "-"%char :: v) ++ exe (contains_str "windows" p)).
  { unfold f, push_filename, exe. rewrite <- !app_assoc. done. }
  split; [rewrite (proj1 Hf); by apply not_sig |]. exists (contains_str "windows" p). rewrite (proj2 Hf).
  apply orb_true_iff in Hp as [->%bool_decide_eq_true | ->%bool_decide_eq_true]; by apply parse_named.
Qed.

(** ** Lemmas: the files of a push *)

(** The names a push writes, and those it leaves when it fails. *)
Definition push_temp (f name : str) : Prop := name = f ++ tmp_suffix \/ name = f ++ dot_sig ++ tmp_suffix.
Definition push_file (f name : str) : Prop := name = f \/ name = f ++ dot_sig \/ push_temp f name.

Lemma push_names (f : str) :
  f <> f ++ dot_sig /\ f <> f ++ tmp_suffix /\ f <> f ++ dot_sig ++ tmp_suffix /\
  f ++ dot_sig <> f ++ tmp_suffix /\ f ++ dot_sig <> f ++ dot_sig ++ tmp_suffix /\
  f ++ tmp_suffix <> f ++ dot_sig ++ tmp_suffix.
Proof.
  split_conj; intros E; try (by apply app_inv_head in E); by rewrite <- (app_nil_r f) in E at 1; apply app_inv_head in E.
Qed.

Lemma remove_temps_other f name fs : ~ push_temp f name -> remove_temps f fs !! name = fs !! name.
Proof. intros H. unfold remove_temps, push_temp in *. rewrite !lookup_delete_ne; naive_solver. Qed.

Lemma write_file_other (path name : str) (w : WriteResult) (fs : gmap str str) : name <> path -> (write_file path w fs).1 !! name = fs !! name.
Proof. intros H. destruct w; cbn; [done | by apply lookup_insert_ne ..]. Qed.

Lemma rename_file_other (old new name : str) (fs : gmap str str) :
  name <> old -> name <> new -> rename_file old new fs !! name = fs !! name.
Proof. intros H1 H2. unfold rename_file. destruct (fs !! old); [| done]. by rewrite lookup_insert_ne, lookup_delete_ne. Qed.

Lemma store_push_frame (io : PushIo) (f name : str) (fs : gmap str str) :
  name <> f ++ dot_sig -> ~ push_temp f name -> (name = f -> is_Some (store_push io f fs).2) ->
  (store_push io f fs).1 !! name = fs !! name.
Proof.
  intros Hs Ht Hf. assert (Ht' := Ht). apply Decidable.not_or in Ht' as [Hb Hst].
  unfold store_push in *. pose proof (write_file_other (f ++ tmp_suffix) name (w_binary io) fs Hb) as W1.
  destruct (write_file (f ++ tmp_suffix) _ fs) as [fs1 ok1]. cbn [fst] in W1.
  destruct ok1; cbn [negb] in *; [| cbn [fst]; by rewrite remove_temps_other].
  destruct (w_chmod io); cbn [negb] in *; [| cbn [fst]; by rewrite remove_temps_other].
  pose proof (write_file_other (f ++ dot_sig ++ tmp_suffix) name (w_sig io) fs1 Hst) as W2.
  destruct (write_file (f ++ dot_sig ++ tmp_suffix) _ fs1) as [fs2 ok2]. cbn [fst] in W2.
  destruct ok2; cbn [negb] in *; [| cbn [fst]; rewrite remove_temps_other by done; congruence].
  destruct (w_rename_sig io); cbn [negb] in *; [| cbn [fst]; rewrite remove_temps_other by done; congruence].
  destruct (w_rename_bin io); cbn [negb fst snd] in *; [| rewrite rename_file_other by done; congruence].
  rewrite rename_file_other; [| done | intros E; by destruct (Hf E)]. rewrite rename_file_other by done. congruence.
Qed.

(** Every step succeeds and the disk keeps what was written. *)
Definition intact (io : PushIo) (bin sig : str) : Prop :=
  io = mkPushIo (Written bin) true (Written sig) true true.

Lemma store_push_intact (bin sig f : str) (fs : gmap str str) :
  let r := store_push (mkPushIo (Written bin) true (Written sig) true true) f fs in
  r.2 = None /\ r.1 !! f = Some bin /\ r.1 !! (f ++ dot_sig) = Some sig /\
  r.1 !! (f ++ tmp_suffix) = None /\ r.1 !! (f ++ dot_sig ++ tmp_suffix) = None /\
  (forall name, ~ push_file f name -> r.1 !! name = fs !! name).
Proof.
  destruct (push_names f) as (N1 & N2 & N3 & N4 & N5 & N6).
  unfold store_push. cbn [write_file w_binary w_chmod w_sig w_rename_sig w_rename_bin negb].
  set (fs2 := <[f ++ dot_sig ++ tmp_suffix := sig]> (<[f ++ tmp_suffix := bin]> fs)).
  assert (E1 : rename_file (f ++ dot_sig ++ tmp_suffix) (f ++ dot_sig) fs2 = <[f ++ dot_sig := sig]> (delete (f ++ dot_sig ++ tmp_suffix) fs2)).
  { unfold rename_file. by replace (fs2 !! (f ++ dot_sig ++ tmp_suffix)) with (Some sig) by (symmetry; apply lookup_insert_eq). }
  rewrite E1. set (fs3 := <[f ++ dot_sig := sig]> _).
  assert (Hb : fs3 !! (f ++ tmp_suffix) = Some bin).
  { unfold fs3, fs2. rewrite lookup_insert_ne, lookup_delete_ne, lookup_insert_ne by done. apply lookup_insert_eq. }
  unfold rename_file. rewrite Hb. cbn [fst snd]. split_conj; [done | apply lookup_insert_eq | ..].
  - rewrite lookup_insert_ne, lookup_delete_ne by done. apply lookup_insert_eq.
  - rewrite lookup_insert_ne by done. apply lookup_delete_eq.
  - unfold fs3. rewrite !lookup_insert_ne, lookup_delete_ne, lookup_insert_ne by done. apply lookup_delete_eq.
  - intros name Hn. unfold push_file, push_temp in Hn. unfold fs3, fs2.
    rewrite lookup_insert_ne, lookup_delete_ne, lookup_insert_ne, lookup_delete_ne, !lookup_insert_ne; naive_solver.
Qed.

(** ** Properties of the client push *)

Section PushProps.
Context `{CR : Crypto} `{SH : Sha256} {SL : Sha256Laws SH} `{S3 : Sha3} (roots : RootSet).
Implicit Types (e : PushEnv) (io : PushIo) (form : Form) (s : ClientPushState).

(** Whatever the versions, what a scan lists it has verified. *)
Lemma keep_elem c ks ks' m : keep c ks = Some ks' -> m ∈ ks' -> m = c \/ m ∈ ks.
Proof.
  revert ks'. induction ks as [| k ks IH]; intros ks' E; cbn in E.
  - injection E as <-. intros ->%list_elem_of_singleton. by left.
  - case_decide.
    + destruct (semverCmp _ _); [| done]. injection E as <-. rewrite elem_of_cons.
      destruct (_ <? _); intros [-> | Hm]%elem_of_cons; auto.
    + destruct (keep c ks) as [ks1 |]; [| done]. injection E as <-. rewrite !elem_of_cons.
      intros [-> | Hm]; [auto |]. destruct (IH ks1 eq_refl Hm); auto.
Qed.

Lemma select_elem cs ks ks' m : select cs ks = Some ks' -> m ∈ ks' -> m ∈ cs \/ m ∈ ks.
Proof.
  revert ks. induction cs as [| c cs IH]; intros ks E Hm; cbn in E; [injection E as ->; by right |].
  destruct (keep c ks) as [ks1 |] eqn:Ek; [| done].
  destruct (IH ks1 E Hm) as [H | H]; [left; by right |]. destruct (keep_elem c ks ks1 m Ek H) as [-> | ?]; [left; left | by right].
Qed.

Lemma scan_offers (clock : str -> Z) (fl : Z) (locked : str -> bool) (listing : list str) (dir dir' : gmap str str) (ms : list UpdateManifestEntry) (m : UpdateManifestEntry) :
  scanUpdateDir roots clock fl locked listing dir = Some (dir', ms) -> m ∈ ms ->
  offered roots (clock (m_filename m)) fl dir' (m_filename m) m.
Proof.
  unfold scanUpdateDir. set (cs := omap _ _). destruct (select cs []) as [ks |] eqn:Es; [| done]. intros [= <- <-] Hm.
  apply offered_kept; [done |]. destruct (select_elem _ _ _ m Es Hm) as [Hc | Hc%elem_of_nil]; [| done].
  unfold cs in Hc. apply list_elem_of_omap in Hc as (name & _ & Ho%classify_spec). by rewrite (offered_name _ _ _ _ _ _ Ho).
Qed.

(** The upload carries a trusted binary and a proof of its build key. *)
Definition upload_ok e form (v : Verified) : Prop :=
  verifyArtifactBytes roots (getField form "binary") (getField form "signature") (getField form "platform")
    (acceptPolicy (epoch e) (floor e)) = Ok v /\
  evp_verify (v_keySpki v) (hexDecode (getField form "nonce") ++ sha3_256 (getField form "binary"))
    (Upgrade.base64Decode (getField form "auth_proof")) = Ok tt.

Lemma check_upload_Ok e (platform nonceBytes binary sig proof : str) (v : Verified) :
  check_upload roots e platform nonceBytes binary sig proof = Ok v ->
  verifyArtifactBytes roots binary sig platform (acceptPolicy (epoch e) (floor e)) = Ok v /\
  evp_verify (v_keySpki v) (nonceBytes ++ sha3_256 binary) proof = Ok tt.
Proof.
  unfold check_upload, verifyUpgradeAuth. destruct (verifyArtifactBytes _ _ _ _ _) as [w |]; [| done].
  case_decide; [done |]. destruct (evp_verify _ _ _) as [[] |] eqn:E; [| done]. by intros [= <-].
Qed.

(** C21: a client push is safe. Whatever is uploaded and whatever the disk
    does, either nothing is published: the answer is an error, the manifest
    and every file but temporary ones and one signature stay as they were; or
    the answer is a success, the nonce was live and is now spent, the binary
    passed the trust check for its platform, the proof over nonce and binary
    verifies with the very key that check named, the version is newer than
    the published one, and every entry of the new manifest is a verified
    binary of the directory. *)
Theorem client_push_safe e io (clock : str -> Z) (locked : str -> bool) (listing : gmap str str -> list str) (ip : str) form s s' (r : Response) :
  client_push roots e io clock locked listing ip form s = Some (s', r) ->
  let platform := getField form "platform" in
  let version := getField form "version" in
  let f := push_filename platform version in
  (status r <> 200 /\ c_manifest s' = c_manifest s /\
   forall name, name <> f ++ dot_sig -> ~ push_temp f name -> c_dir s' !! name = c_dir s !! name) \/
  (status r = 200 /\
   NonceStore.consume (getField form "nonce") (t1 e) (t2 e) (c_nonces s) = (c_nonces s', true) /\
   isKnownClientPlatform platform = true /\ (exists v, upload_ok e form v) /\
   valid (parseSemver version) = true /\ not_newer_than (parseSemver version) platform (c_manifest s) = None /\
   forall m, m ∈ c_manifest s' -> offered roots (clock (m_filename m)) (floor e) (c_dir s') (m_filename m) m).
Proof.
  unfold client_push. destruct (WebRateLimiter.tryAcquire _ _ _ _) as [lim ok].
  destruct ok; cbn [negb]; [| intros [= <- <-]; by left].
  case_decide; [intros [= <- <-]; by left |].
  destruct (NonceStore.consume _ _ _ _) as [ns ok] eqn:En. cbn [c_nonces] in En.
  destruct ok; cbn [negb]; [| intros [= <- <-]; by left].
  case_decide; [intros [= <- <-]; by left |].
  destruct (isKnownClientPlatform _) eqn:Ep; cbn [negb]; [| intros [= <- <-]; by left].
  destruct (check_upload _ _ _ _ _ _ _) as [v | msg] eqn:Ec; [| intros [= <- <-]; by left].
  destruct (valid _) eqn:Ev; cbn [negb]; [| intros [= <- <-]; by left]. cbn [c_manifest c_dir].
  destruct (not_newer_than _ _ _) eqn:Em; [intros [= <- <-]; by left |].
  set (f := push_filename _ _). pose proof (store_push_frame io f) as Hframe. specialize (fun name => Hframe name (c_dir s)).
  destruct (store_push io f (c_dir s)) as [fs [msg |]].
  - intros [= <- <-]. left. split; [done |]. split; [done |]. intros name H1 H2. cbn in Hframe |- *. apply Hframe; eauto.
  - destruct (scanUpdateDir _ _ _ _ _ _) as [[dir' ms] |] eqn:Es; [| done]. intros [= <- <-]. right.
    split_conj; try done; [exists v; by apply check_upload_Ok |]. intros m Hm. by eapply scan_offers.
Qed.

(** ** Publication *)

(** The manifest is what a scan at these times makes of the directory. *)
Definition synced (clock : str -> Z) (fl : Z) (dir : gmap str str) (ms : list UpdateManifestEntry) : Prop :=
  versions_fit dir /\ NoDup (m_platform <$> ms) /\
  (forall m, m ∈ ms -> offered roots (clock (m_filename m)) fl dir (m_filename m) m) /\
  (forall name c, offered roots (clock name) fl dir name c ->
     exists m, m ∈ ms /\ m_platform m = m_platform c /\ not_newer (m_version c) (m_version m)).

(** Every scan establishes it. *)
Lemma scan_synced (clock : str -> Z) (fl : Z) (locked : str -> bool) (listing : list str) (dir dir' : gmap str str) ms :
  lists listing dir -> versions_fit dir -> scanUpdateDir roots clock fl locked listing dir = Some (dir', ms) ->
  synced clock fl dir' ms.
Proof.
  intros Hl Hf E. destruct (scan_spec roots clock fl locked listing dir Hl Hf) as (ms' & E' & Hoff & Hnd & Hb).
  rewrite E' in E. injection E as <- <-. split; [| split; [done | split]].
  - intros name [c Hc]. rewrite scan_prune_lookup in Hc. case_decide; [| done]. apply Hf. by exists c.
  - intros m Hm. by apply offered_kept, Hoff.
  - intros name c Ho. by apply (Hb name), offered_prune with (locked := locked) (ms := ms').
Qed.

Lemma valid_version name : i_valid (parseClientBinaryFilename name) = true ->
  version_loop (i_version (parseClientBinaryFilename name)) 0 true = true.
Proof.
  unfold parseClientBinaryFilename. intros Hv. repeat case_match; cbn in *; try done; by bool_to_prop.
Qed.

Lemma offered_version clock fl dir name m :
  versions_fit dir -> offered roots clock fl dir name m -> version_loop (m_version m) 0 true = true /\ fits (m_version m).
Proof.
  intros Hf (H1 & H2 & _ & bin & sig & v & Hb & _ & _ & ->). cbn [m_version].
  split; [by apply valid_version | by apply Hf; [exists bin | ..]].
Qed.

(** What the version check of the push refuses. *)
Lemma newer_accepted (clock : str -> Z) (fl : Z) (dir : gmap str str) ms (platform version : str) :
  synced clock fl dir ms -> version_loop version 0 true = true -> fits version ->
  (forall m, m ∈ ms -> m_platform m = platform -> ~ not_newer version (m_version m)) ->
  not_newer_than (parseSemver version) platform ms = None.
Proof.
  intros (Hf & _ & Hoff & _) Hv Hfit. induction ms as [| m ms IH]; intros Hnew; [done |]. cbn [not_newer_than].
  case_decide as Hp; [| apply IH; intros x Hx; [apply Hoff | apply Hnew]; by right].
  destruct (offered_version _ _ _ _ _ Hf (Hoff m ltac:(by left))) as [Hmv Hmf].
  destruct (sv_le _ _) eqn:E; [| by rewrite andb_false_r].
  destruct (Hnew m ltac:(by left) Hp). by apply comparisons_agree.
Qed.

(** The directory after the files are in place: nothing else is new. *)
Lemma offered_after_store (clock fl : Z) (bin sig f name : str) (dir : gmap str str) m :
  is_sig f = false -> name <> f ->
  offered roots clock fl (store_push (mkPushIo (Written bin) true (Written sig) true true) f dir).1 name m ->
  offered roots clock fl dir name m.
Proof.
  intros Hf Hne. destruct (store_push_intact bin sig f dir) as (_ & _ & _ & Ht1 & Ht2 & Hother).
  set (fs := (store_push _ f dir).1) in *. intros (H1 & H2 & H3 & b & sg & v & Hb & Hs & H).
  assert (Hnn : name <> []) by by apply valid_name_nonempty.
  assert (N1 : ~ push_file f name).
  { intros [-> | [-> | [-> | ->]]]; try congruence. destruct f; [done |]. by rewrite is_sig_app in H1. }
  assert (N2 : ~ push_file f (name ++ dot_sig)).
  { intros [E | [E | [E | E]]]; [| by apply app_inv_tail in E | congruence ..].
    by rewrite <- E, is_sig_app in Hf. }
  unfold offered. split_conj; try done. exists b, sg, v. by rewrite <- !Hother.
Qed.

Lemma versions_fit_store (bin sig platform version : str) (dir : gmap str str) :
  versions_fit dir -> isKnownClientPlatform platform = true -> version_loop version 0 true = true -> fits version ->
  versions_fit (store_push (mkPushIo (Written bin) true (Written sig) true true) (push_filename platform version) dir).1.
Proof.
  intros Hf Hp Hv Hfit name Hin Hns. set (f := push_filename platform version) in *.
  destruct (parse_push_filename platform version Hp Hv) as (Hsf & w & Hparse). fold f in Hsf, Hparse.
  destruct (store_push_intact bin sig f dir) as (_ & _ & _ & Ht1 & Ht2 & Hother).
  destruct (decide (name = f)) as [-> | Hne]; [by rewrite Hparse |]. apply Hf; [| done].
  rewrite <- Hother; [done |]. intros [-> | [-> | [-> | ->]]]; [done | | by rewrite Ht1 in Hin; destruct Hin | by rewrite Ht2 in Hin; destruct Hin].
  assert (f <> []) by (by apply valid_name_nonempty; rewrite Hparse). by rewrite is_sig_app in Hns.
Qed.

(** The scan after an intact upload publishes it. *)
Lemma scan_publishes (clock0 clock : str -> Z) (fl : Z) (locked : str -> bool) (listing : list str) (dir : gmap str str) ms
  (platform version bin sig : str) v :
  synced clock0 fl dir ms -> (forall name, clock0 name <= clock name) ->
  isKnownClientPlatform platform = true -> version_loop version 0 true = true -> fits version ->
  (forall m, m ∈ ms -> m_platform m = platform -> ~ not_newer version (m_version m)) ->
  let f := push_filename platform version in
  verifyArtifactBytes roots bin sig platform (acceptPolicy (clock f) fl) = Ok v ->
  let fs := (store_push (mkPushIo (Written bin) true (Written sig) true true) f dir).1 in
  lists listing fs ->
  exists dir' ms', scanUpdateDir roots clock fl locked listing fs = Some (dir', ms') /\
    mkEntry platform version f (hexEncode (sha256_digest bin)) (Z.of_nat (length sig)) ∈ ms' /\
    dir' !! f = Some bin /\ dir' !! (f ++ dot_sig) = Some sig /\ synced clock fl dir' ms'.
Proof.
  intros (Hfit & _ & _ & Hbest) Hclock Hp Hv Hvf Hnew f Hver fs Hl.
  destruct (parse_push_filename platform version Hp Hv) as (Hsf & w & Hparse). fold f in Hsf, Hparse.
  destruct (store_push_intact bin sig f dir) as (_ & Hfb & Hfs & _). fold fs in Hfb, Hfs.
  assert (Hfit' : versions_fit fs) by by apply versions_fit_store.
  destruct (scan_spec roots clock fl locked listing fs Hl Hfit') as (ms' & Hscan & Hoff & Hnd & Hb).
  set (E := mkEntry platform version f (hexEncode (sha256_digest bin)) (Z.of_nat (length sig))).
  assert (HE : offered roots (clock f) fl fs f E).
  { unfold offered. rewrite Hparse. split_conj; try done. by exists bin, sig, v. }
  assert (Hin : E ∈ ms').
  { destruct (Hb f E HE) as (m & Hm & Hmp & Hmv). assert (Ho := Hoff m Hm).
    destruct (decide (m_filename m = f)) as [Ef | Hne].
    - rewrite Ef in Ho. by rewrite (offered_unique _ _ _ _ _ _ _ HE Ho).
    - apply (offered_after_store _ _ bin sig f) in Ho; [| done | done].
      apply (offered_earlier _ (clock0 (m_filename m))) in Ho; [| done].
      destruct (Hbest _ _ Ho) as (m0 & Hm0 & Hp0 & Hv0). destruct (Hnew m0 Hm0); [by rewrite Hp0, Hmp |].
      by apply (not_newer_trans _ (m_version m)). }
  assert (Hk : f ∈ keepNames ms' /\ f ++ dot_sig ∈ keepNames ms') by (split; apply keepNames_in; exists E; auto).
  exists (prune locked ms' fs), ms'. rewrite !scan_prune_lookup, !decide_True by tauto. split_conj; try done.
  by apply (scan_synced clock fl locked listing fs).
Qed.

(** C20: an authentic newer upload is published. When limiter, nonce, trust check
    and proof accept, the version is a plain one newer than the published
    entry of its platform, and the disk keeps what is written, the push
    answers with success, the manifest lists exactly that binary for the
    platform, binary and signature are in the directory under the composed
    name, and the manifest again is what a scan makes of the directory; so
    the next push, and every update check, starts from a true manifest. *)
Theorem client_push_publishes e io (clock0 clock : str -> Z) (locked : str -> bool) (listing : gmap str str -> list str)
  (ip raw proof : str) form s (v v' : Verified) :
  let platform := getField form "platform" in
  let version := getField form "version" in
  let bin := getField form "binary" in
  let sig := getField form "signature" in
  let f := push_filename platform version in
  synced clock0 (floor e) (c_dir s) (c_manifest s) -> (forall name, clock0 name <= clock name) ->
  (forall d, lists (listing d) d) -> intact io bin sig ->
  (WebRateLimiter.tryAcquire 1 (t0 e) ip (c_push_limit s)).2 = true ->
  getField form "nonce" = hexEncode raw -> raw <> [] -> (NonceStore.consume (hexEncode raw) (t1 e) (t2 e) (c_nonces s)).2 = true ->
  getField form "auth_proof" = b64Encode proof -> proof <> [] -> sha3_256 bin <> [] ->
  isKnownClientPlatform platform = true -> version_loop version 0 true = true -> fits version ->
  (forall m, m ∈ c_manifest s -> m_platform m = platform -> ~ not_newer version (m_version m)) ->
  upload_ok e form v -> verifyArtifactBytes roots bin sig platform (acceptPolicy (clock f) (floor e)) = Ok v' ->
  exists s' r, client_push roots e io clock locked listing ip form s = Some (s', r) /\ status r = 200 /\
    (forall m, m ∈ c_manifest s' /\ m_platform m = platform <->
       m = mkEntry platform version f (hexEncode (sha256_digest bin)) (Z.of_nat (length sig))) /\
    c_dir s' !! f = Some bin /\ c_dir s' !! (f ++ dot_sig) = Some sig /\
    synced clock (floor e) (c_dir s') (c_manifest s').
Proof.
  intros platform version bin sig f Hsync Hclock Hl -> Hlim En Hraw Hns Ep Hproof Hsha Hp Hv Hfit Hnew [Hver Hauth] Hver'.
  fold platform bin sig in Hver. destruct (scan_publishes clock0 clock (floor e) locked _ (c_dir s) (c_manifest s) platform version bin sig v'
    Hsync Hclock Hp Hv Hfit Hnew Hver' (Hl _)) as (dir' & ms' & Hscan & Hin & Hd1 & Hd2 & Hs').
  destruct (store_push_intact bin sig f (c_dir s)) as (Hok & _).
  assert (Hvalid : valid (parseSemver version) = true) by (destruct Hfit as [ps Hps]; by apply (readers_agree _ ps)).
  assert (Hne : platform <> [] /\ version <> [] /\ bin <> [] /\ sig <> []).
  { split_conj; [by intros E; rewrite E in Hp | by apply version_nonempty | |]; intros E; rewrite E in Hver;
      apply verify_spec in Hver as (b & d & key & ids & Hpb & _ & _ & _ & _ & _ & _ & _ & _ & _ & Hsig & _); [done |].
    by vm_compute in Hpb. }
  unfold client_push. destruct (WebRateLimiter.tryAcquire _ _ _ _) as [lim ok]. cbn [snd] in Hlim. subst ok. cbn [negb].
  fold platform version bin sig. rewrite En, Ep.
  assert (Hhex : hexEncode raw <> []) by (intros E%(f_equal hexDecode); by rewrite (proj1 (hex_roundtrip raw [])) in E).
  assert (Hb64 : b64Encode proof <> []) by (by destruct proof as [| ? [| ? [| ? ?]]]).
  rewrite decide_False by tauto. cbn [c_nonces].
  destruct (NonceStore.consume _ _ _ _) as [ns ok]. cbn [snd] in Hns. subst ok. cbn [negb].
  rewrite En, Ep in Hauth. rewrite (proj1 (hex_roundtrip raw [])), (proj1 (base64Decode_encode proof)) in *.
  rewrite decide_False by tauto. rewrite Hp. cbn [negb].
  fold bin in Hauth. unfold check_upload, verifyUpgradeAuth. rewrite Hver, decide_False, Hauth by tauto. rewrite Hvalid. cbn [negb c_manifest c_dir].
  rewrite (newer_accepted clock0 (floor e) (c_dir s)) by done. fold f.
  fold f in Hscan, Hin, Hd1, Hd2. destruct (store_push _ f (c_dir s)) as [fs err]. cbn [fst snd] in Hok, Hscan. subst err. rewrite Hscan.
  eexists _, _. split; [done |]. cbn [fst snd c_manifest c_dir status]. split; [done |]. split; [| done].
  destruct Hs' as (_ & Hnd & _). intros m. split; [intros [Hm Hmp] | by intros ->]. by apply (same_platform ms').
Qed.
End PushProps.

(** ** Sample push *)

#[export] Instance sample_sha3 : Sha3 := { sha3_256 s := replicate 32 (hd NUL s) }.

Definition sample_form : Form :=
  mkForm (list_to_map [("platform" : str, "linux-amd64" : str); ("version" : str, "2.2.0.0" : str);
            ("nonce" : str, hexEncode "nn"); ("auth_proof" : str, b64Encode ("Knn" ++ replicate 32 "b"%char))])
         (list_to_map [("binary" : str, "bin" : str); ("signature" : str, sample_sig)]).

Definition noon : str -> Z := fun _ => 1800000000.
Definition keys_of (d : gmap str str) : list str := (map_to_list d).*1.

(** The state after a scan of the sample directory, with one nonce issued. *)
Definition sample_push_state : ClientPushState :=
  let r := default (∅, []) (scanUpdateDir sample_roots noon 7 (fun _ => false) (keys_of sample_dir) sample_dir) in
  mkClientPush WebRateLimiter.new WebRateLimiter.new {[ hexEncode "nn" := NonceStore.mkEntry 100 false ]} r.1 r.2.

Definition sample_push_env : PushEnv := mkPushEnv 0 1 2 1800000000 7.
Definition sample_push_io : PushIo := mkPushIo (Written "bin") true (Written sample_sig) true true.

Definition sample_push : option (ClientPushState * Response) :=
  client_push sample_roots sample_push_env sample_push_io noon (fun _ => false) keys_of "203.0.113.9" sample_form sample_push_state.

Definition sample_verified : Verified :=
  mkVerified 7 (daysFromCivil 2030 1 31 * 86400 + 23 * 3600 + 59 * 60 + 58) "lb" "K".

Lemma client_push_publishes_witness :
  exists s' r, sample_push = Some (s', r) /\ status r = 200.
Proof.
  assert (Hs : synced sample_roots noon 7 (c_dir sample_push_state) (c_manifest sample_push_state)).
  { unfold sample_push_state.
    destruct (scan_spec sample_roots noon 7 (fun _ => false) (keys_of sample_dir) sample_dir (lists_keys _) sample_fits) as (ms & E & _).
    rewrite E. exact (scan_synced sample_roots noon 7 (fun _ => false) _ sample_dir _ _ (lists_keys _) sample_fits E). }
  assert (Hnew : forall m, m ∈ c_manifest sample_push_state -> m_platform m = getField sample_form "platform" ->
    ~ not_newer (getField sample_form "version") (m_version m)).
  { intros m Hm _ (x & Hx & Hle).
    assert (Hf : Forall (fun m => semverCmp (getField sample_form "version") (m_version m) = Some 1) (c_manifest sample_push_state)) by
      (apply (bool_decide_unpack _); vm_compute; reflexivity).
    rewrite Forall_forall in Hf. rewrite (Hf m Hm) in Hx. injection Hx as <-. lia. }
  assert (Hup : upload_ok sample_roots sample_push_env sample_form sample_verified) by (split; vm_compute; reflexivity).
  assert (Hfit : fits (getField sample_form "version")) by (eexists; vm_compute; reflexivity).
  destruct (client_push_publishes sample_roots sample_push_env sample_push_io noon noon (fun _ => false) keys_of
    "203.0.113.9" "nn" ("Knn" ++ replicate 32 "b"%char) sample_form sample_push_state sample_verified sample_verified
    Hs (fun _ => Z.le_refl _) lists_keys ltac:(vm_compute; reflexivity) ltac:(vm_compute; reflexivity) ltac:(vm_compute; reflexivity)
    ltac:(vm_compute; discriminate) ltac:(vm_compute; reflexivity) ltac:(vm_compute; reflexivity) ltac:(vm_compute; discriminate)
    ltac:(vm_compute; discriminate) ltac:(vm_compute; reflexivity) ltac:(vm_compute; reflexivity) Hfit Hnew Hup
    ltac:(vm_compute; reflexivity)) as (s' & r & H1 & H2 & _).
  exists s', r. exact (conj H1 H2).
Defined.

Lemma client_push_safe_witness :
  match sample_push with
  | Some (s', r) => status r = 200 -> exists v, upload_ok sample_roots sample_push_env sample_form v
  | None => True
  end.
Proof.
  destruct sample_push as [[s' r] |] eqn:E; [| exact I]. intros Hr. unfold sample_push in E.
  pose proof (client_push_safe sample_roots sample_push_env sample_push_io noon (fun _ => false) keys_of "203.0.113.9"
    sample_form sample_push_state s' r E) as [(Hn & _) | (_ & _ & _ & Hv & _)]; [by destruct (Hn Hr) | exact Hv].
Defined.

(** A version that only the lenient reader accepts is answered with success
    although the scan that follows deletes the upload. *)
Definition plus_form : Form :=
  mkForm (<[("version" : str) := ("+3.0.0" : str)]> (fields sample_form)) (file_parts sample_form).

Lemma push_ok_but_deleted :
  (fun r => (status r.2, m_version <$> c_manifest r.1)) <$>
    client_push sample_roots sample_push_env sample_push_io noon (fun _ => false) keys_of "203.0.113.9" plus_form sample_push_state
  = Some (200, ["2.1.0.0" : str]).
Proof. vm_compute. reflexivity. Qed.
