(* ===== verification/Delivery.v ===== *)
(** From the update directory to the running client: the server's update
    endpoints ([UpdateDir]) answered to the client's update cycle ([Updater]).
    The HTTP library of the server and the TLS connection between the two are
    not modelled; what they owe is [delivers]: an answer with status 200 whose
    body arrives whole, cut into records in any way. *)

From S2P Require Import Prelude CppString Base64 Trust Upgrade HttpUtil Updater RemoteLogs UpdateDir Push.
Local Open Scope Z_scope.

(** ** Delivery *)

Definition status_ok : str := "HTTP/1.1 200 ".

(** Records that carry an answer with this body; the head ends at the first
    blank line and fits the client's limit. *)
Definition delivers (c : Conn) (body : str) : Prop :=
  exists rs head, c = Established rs /\ Forall (fun r => r <> []) rs /\
    concat rs = (status_ok ++ head) ++ CRLFCRLF ++ body /\
    find_str CRLFCRLF ((status_ok ++ head) ++ CRLFCRLF) = Some (length (status_ok ++ head)) /\
    (length (status_ok ++ head) + 4 <= kMaxHeaderBytes)%nat.

(** The whole answer fits the limit of an answer read into memory. *)
Definition short (c : Conn) : Prop :=
  match c with NoConn => True | Established rs => Z.of_nat (length (concat rs)) <= kReadLimit end.

(** ** Lemmas: reading records *)

Definition solid (rs : list str) : Prop := Forall (fun r => r <> []) rs.

Lemma ssl_recv_spec n rs :
  0 < n -> solid rs ->
  match ssl_recv n rs with
  | None => concat rs = []
  | Some (b, rs') => solid rs' /\ concat rs = b ++ concat rs' /\ b <> [] /\ Z.of_nat (length b) <= n
  end.
Proof.
  intros Hn Hs. destruct Hs as [| r rs Hr Hs]; [done |]. destruct r as [| c r]; [done |].
  pose proof (ssl_recv_concat n ((c :: r) :: rs)) as Hc. cbn [ssl_recv] in *. destruct (_ <=? n) eqn:E.
  - destruct (Hc _ _ Hn eq_refl). apply Z.leb_le in E. done.
  - destruct (Hc _ _ Hn eq_refl) as [E1 E2]. apply Z.leb_gt in E. split_conj; try done.
    + constructor; [| done]. intros H%(f_equal length). rewrite length_drop in H. cbn [length] in *. lia.
    + rewrite length_take. lia.
Qed.

Lemma ssl_read_loop_all fuel limit rs out :
  solid rs -> (length (concat rs) < fuel)%nat -> Z.of_nat (length (out ++ concat rs)) <= limit ->
  ssl_read_loop fuel limit rs out = out ++ concat rs.
Proof.
  revert rs out. induction fuel as [| fuel IH]; intros rs out Hs Hf Hl; [lia |]. cbn [ssl_read_loop].
  rewrite length_app in Hl. destruct (Z.leb_spec limit (Z.of_nat (length out))) as [Hge | Hlt].
  - assert (E : concat rs = []) by (apply length_zero_iff_nil; lia). by rewrite E, app_nil_r.
  - pose proof (ssl_recv_spec 8192 rs ltac:(lia) Hs) as H. destruct (ssl_recv 8192 rs) as [[b rs'] |].
    + destruct H as (Hs' & E & Hb & _). rewrite E, app_assoc in *. rewrite length_app in *.
      apply IH; [done | destruct b; [done | cbn [length] in *; lia] | rewrite !length_app; lia].
    + by rewrite H, app_nil_r.
Qed.

Lemma status_delivered t : parseHttpStatus (status_ok ++ t) = 200.
Proof.
  unfold parseHttpStatus. rewrite length_app. change (length status_ok) with 13%nat. rewrite (proj2 (Nat.ltb_ge _ _)) by lia.
  change (starts_with "HTTP/" (status_ok ++ t)) with true. change (find_char SP (status_ok ++ t)) with (Some 8%nat). cbn [negb].
  change (substr_from (status_ok ++ t) 9) with (("200" : str) ++ SP :: t). unfold strtoll.
  by rewrite strto_scan_digits by (by repeat constructor).
Qed.

Lemma httpsGet_delivers host c body :
  hasValidHostname host = true -> delivers c body -> short c -> httpsGet host c = (200, body).
Proof.
  intros Hh (rs & head & -> & Hs & E & Hf & _) Hsh. unfold httpsGet, sslRead, read_fuel. rewrite Hh. cbn [negb].
  rewrite ssl_read_loop_all by (done || lia). cbn [app]. rewrite E.
  assert (Es : parseHttpStatus ((status_ok ++ head) ++ CRLFCRLF ++ body) = 200) by (rewrite <- app_assoc; apply status_delivered).
  rewrite Es. f_equal. unfold parseHttpBody. rewrite find_str_tail by done. unfold substr_from. rewrite app_assoc.
  change 4%nat with (length CRLFCRLF). rewrite <- length_app. apply drop_app_length.
Qed.

(** No earlier prefix of the head ends in a blank line. *)
Lemma head_prefix (h x : str) (c : ascii) (y : str) :
  find_str CRLFCRLF (h ++ CRLFCRLF) = Some (length h) -> h ++ CRLFCRLF = x ++ c :: y ->
  let p := x ++ [c] in
  ((4 <=? length p)%nat && bool_decide (drop (length p - 4) p = CRLFCRLF)) = bool_decide (y = []).
Proof.
  intros Hf E p. assert (Ep : h ++ CRLFCRLF = p ++ y) by (unfold p; by rewrite <- app_assoc).
  destruct (decide (y = [])) as [Hy | Hy]; [rewrite (bool_decide_true (y = [])) by done | rewrite (bool_decide_false (y = [])) by done].
  - subst y. rewrite app_nil_r in Ep. rewrite <- Ep, length_app. change (length CRLFCRLF) with 4%nat.
    rewrite Nat.add_sub, drop_app_length, bool_decide_true by done. by rewrite (proj2 (Nat.leb_le _ _)) by lia.
  - apply not_true_iff_false. intros [Hl%Nat.leb_le Hd%bool_decide_eq_true]%andb_true_iff.
    pose proof (find_str_first _ _ _ Hf (take (length p - 4) p) y) as H.
    rewrite Ep, <- Hd, app_assoc, take_drop in H. specialize (H eq_refl). rewrite length_take in H.
    apply (f_equal length) in Ep. rewrite !length_app in Ep. change (length CRLFCRLF) with 4%nat in Ep.
    destruct y; [done |]. cbn [length] in Ep. lia.
Qed.

Lemma ssl_recv_one rs c s :
  solid rs -> concat rs = c :: s -> exists rs', ssl_recv 1 rs = Some ([c], rs') /\ solid rs' /\ concat rs' = s.
Proof.
  intros Hs E. pose proof (ssl_recv_spec 1 rs ltac:(lia) Hs) as H. destruct (ssl_recv 1 rs) as [[b rs'] |].
  - destruct H as (Hs' & Ec & Hb & Hl). rewrite E in Ec. destruct b as [| d [| ? ?]]; [done | | cbn [length] in Hl; lia].
    injection Ec as <- ->. by exists rs'.
  - congruence.
Qed.

(** The head is read to its end and nothing behind it. *)
Lemma read_headers_all (fuel : nat) (rs : list str) (h x z body : str) :
  solid rs -> find_str CRLFCRLF (h ++ CRLFCRLF) = Some (length h) -> h ++ CRLFCRLF = x ++ z -> z <> [] ->
  concat rs = z ++ body -> (length z <= fuel)%nat ->
  exists rs', read_headers fuel rs x = (h ++ CRLFCRLF, rs') /\ solid rs' /\ concat rs' = body.
Proof.
  intros Hs Hf. revert fuel rs x Hs. induction z as [| c z IH]; intros fuel rs x Hs E Hz Ec Hl; [done |].
  destruct fuel as [| fuel]; [cbn in Hl; lia |]. cbn [read_headers].
  destruct (ssl_recv_one rs c (z ++ body) Hs Ec) as (rs' & -> & Hs' & Ec').
  rewrite (head_prefix h x c z Hf E). case_bool_decide as Hzn.
  - subst z. exists rs'. by rewrite E.
  - apply IH; [done | by rewrite E, <- app_assoc | done | done | cbn in Hl; lia].
Qed.

(** The body is written whole. *)
Lemma read_body_all fuel rm expected rs written :
  solid rs -> (length (concat rs) < fuel)%nat ->
  let total := written ++ concat rs in
  Z.of_nat (length total) <= rm -> Z.of_nat (length total) <= kAbsoluteMaxBytes ->
  (expected <= 0 \/ Z.of_nat (length total) <= expected) ->
  read_body fuel rm expected rs written = (true, total).
Proof.
  intros Hs Hf total Hr Ha He. unfold total in *. clear total. revert rs written Hs Hf Hr Ha He.
  induction fuel as [| fuel IH]; intros rs written Hs Hf Hr Ha He; [lia |]. cbn [read_body].
  pose proof (ssl_recv_spec 65536 rs ltac:(lia) Hs) as H. destruct (ssl_recv 65536 rs) as [[b rs'] |].
  - destruct H as (Hs' & E & Hb & _). rewrite E in *. rewrite !length_app in *.
    rewrite (proj2 (Z.ltb_ge _ _)), (proj2 (Z.ltb_ge _ _)) by lia.
    assert (Hlen : (0 < length b)%nat) by (destruct b; [done | cbn; lia]).
    destruct ((0 <? expected) && _) eqn:Eg.
    + apply andb_true_iff in Eg as [Eg1%Z.ltb_lt Eg2%Z.leb_le].
      assert (Ez : concat rs' = []) by (apply length_zero_iff_nil; lia). by rewrite Ez, app_nil_r.
    + rewrite app_assoc. apply IH; rewrite ?length_app; try done; lia.
  - by rewrite H, app_nil_r.
Qed.

Lemma httpsGetToFile_delivers host c d expected old body :
  hasValidHostname host = true -> delivers c body -> can_open d = true ->
  Z.of_nat (length body) <= room d -> Z.of_nat (length body) <= kAbsoluteMaxBytes ->
  (expected <= 0 \/ Z.of_nat (length body) <= expected) ->
  httpsGetToFile host c d expected old = (200, Some body).
Proof.
  intros Hh (rs & head & -> & Hs & E & Hf & Hl) Ho Hr Ha He. unfold httpsGetToFile. rewrite Hh. cbn [negb].
  destruct (read_headers_all kMaxHeaderBytes rs (status_ok ++ head) [] ((status_ok ++ head) ++ CRLFCRLF) body)
    as (rs' & -> & Hs' & Ec); try done; [by rewrite E, app_assoc | by rewrite length_app |].
  rewrite <- app_assoc, status_delivered, Ho. cbn [negb Z.eqb]. unfold read_fuel.
  rewrite read_body_all; rewrite ?Ec; try done. lia.
Qed.

(** ** Lemmas: the server's answers *)

Definition check_fields (m : UpdateManifestEntry) : list (str * jvalue) :=
  [("update_available" : str, JRaw "true"); ("version" : str, JStr (m_version m)); ("sha256" : str, JStr (sha256hex m));
   ("filename" : str, JStr (m_filename m)); ("sig_size" : str, JRaw (to_string (sigSize m)))].

Lemma update_text_object m : update_text m = object_text (check_fields m) [LF].
Proof.
  unfold update_text, object_text, check_fields. cbn [fields_text]. unfold field_text. cbn [fst snd value_text].
  unfold quoted. cbn [app]. repeat (rewrite <- app_assoc; cbn [app]). reflexivity.
Qed.

Lemma check_fields_ok m : object_ok (check_fields m).
Proof.
  split; [by apply (bool_decide_unpack _); vm_compute |].
  assert (Hd : DQUOTE ∉ to_string (sigSize m)) by by apply to_string_no.
  repeat constructor; try done; by apply (bool_decide_unpack _); vm_compute.
Qed.

Lemma raw_pairs_encode s : raw_pairs (hexEncode s) = Some s.
Proof.
  induction s as [| c s IH]; [done |]. destruct (hex_byte c) as (H1 & H2 & H3).
  change (hexEncode (c :: s)) with
    (kHex (Z.land (Z.shiftr (byte_val c) 4) 0xF) :: kHex (Z.land (byte_val c) 0xF) :: hexEncode s).
  cbn [raw_pairs]. by rewrite H1, H2, IH; cbn; rewrite H3.
Qed.

Lemma authorised_key (clients : gset str) (k : str) : length k = 32%nat -> k ∈ clients -> authorised clients (hexEncode k) = None.
Proof.
  intros Hl Hk. unfold authorised, hexToRaw32. rewrite hexEncode_length, Hl. cbn [Nat.mul Nat.add Nat.eqb negb].
  rewrite raw_pairs_encode. change (default [] (Some k)) with k. rewrite decide_False by (by intros ->). by rewrite bool_decide_true.
Qed.

(** The only entry of its platform is the best one. *)
Lemma best_entry_only p m ms best :
  fits (m_version m) -> (forall x, x ∈ ms -> m_platform x = p -> x = m) -> (best = Some m \/ (best = None /\ m ∈ ms /\ m_platform m = p)) ->
  best_entry p best ms = Some (Some m).
Proof.
  intros [ps Hps]. revert best. induction ms as [| x ms IH]; intros best Honly Hb; cbn [best_entry].
  - destruct Hb as [-> | (-> & Hm%elem_of_nil & _)]; [done | by destruct Hm].
  - assert (IH' : forall b, (b = Some m \/ (b = None /\ m ∈ ms /\ m_platform m = p)) -> best_entry p b ms = Some (Some m)).
    { intros b Hb'. apply IH; [| done]. intros y Hy. apply Honly. by right. }
    case_decide as Hp.
    + rewrite (Honly x) in * by (done || by left). destruct Hb as [-> | (-> & _)]; [| apply IH'; by left].
      unfold semverCmp. rewrite Hps, cmp_refl. apply IH'. by left.
    + apply IH'. destruct Hb as [-> | (-> & [-> | Hm]%elem_of_cons & Hmp)]; [by left | done | by right].
Qed.

(** ** The client gets what the server publishes *)

Section Delivered.
Context `{CR : Crypto} `{SH : Sha256} {SL : Sha256Laws SH} (roots : RootSet).
Implicit Types (e : Env) (m : UpdateManifestEntry) (ms : list UpdateManifestEntry) (evs : list Event).

(** The three requests of a cycle, answered by the server and delivered. *)
Definition answered (clients : gset str) (ms : list UpdateManifestEntry) (dir : gmap str str) (pub : str) (e : Env) : Prop :=
  (forall r, update_check clients ms pub kClientPlatform kClientVersion = Some r -> delivers (check_conn e) (content r) /\ short (check_conn e)) /\
  (forall r, update_download dir clients ms pub kClientPlatform = Some r -> delivers (bin_conn e) (content r)) /\
  (forall r, update_download_sig dir clients ms pub kClientPlatform = Some r -> delivers (sig_conn e) (content r)).

(** Room on the client's disk, and every file operation succeeds. *)
Definition writable (e : Env) (bin sig : str) : Prop :=
  can_open (bin_disk e) = true /\ can_open (sig_disk e) = true /\
  Z.of_nat (length bin) <= Z.min (room (bin_disk e)) kAbsoluteMaxBytes /\
  Z.of_nat (length sig) <= Z.min (room (sig_disk e)) (10 * 1024 * 1024) /\
  perms_ok e = true /\ rename_ok e = true /\ sig_rename_ok e = true.

Lemma plain_version v : version_loop v 0 true = true -> Forall (fun c => plain_char c = true) v.
Proof.
  intros H%version_chars. apply (Forall_impl _ _ _ H). intros c Hc.
  assert (E : forallb (fun c => implb (is_digit c || bool_decide (c = "."%char)) (plain_char c)) all_bytes = true) by (vm_compute; reflexivity).
  pose proof (byte_forall _ E c) as Hi. cbv beta in Hi. by rewrite Hc in Hi.
Qed.

Lemma plain_hex s : Forall (fun c => plain_char c = true) (hexEncode s).
Proof.
  induction s as [| c s IH]; [constructor |].
  change (hexEncode (c :: s)) with
    (kHex (Z.land (Z.shiftr (byte_val c) 4) 0xF) :: kHex (Z.land (byte_val c) 0xF) :: hexEncode s).
  assert (E : forallb (fun c => plain_char (kHex (Z.land (Z.shiftr (byte_val c) 4) 0xF)) && plain_char (kHex (Z.land (byte_val c) 0xF)))
    all_bytes = true) by (vm_compute; reflexivity).
  pose proof (byte_forall _ E c) as H. cbv beta in H. apply andb_true_iff in H as [? ?]. by repeat constructor.
Qed.

(** The verifying stage on the downloaded pair. *)
Lemma verify_installs e dir newVer fs evs bin sig v :
  fs !! pendingPath dir = Some bin -> fs !! pendingSigPath dir = Some sig -> bin <> [] -> sig <> [] ->
  verifyArtifactBytes roots bin sig kClientPlatform (acceptPolicy (epochNow e) (Updater.floor e)) = Ok v -> writable e bin sig ->
  let r := verify_stage roots e dir newVer fs evs in
  out_files r !! targetPath dir = Some bin /\ out_files r !! targetSigPath dir = Some sig /\
  events r = evs ++ [OnStage "verifying_signature"; OnStage "applying"; OnStage "restarting"; OnDone newVer]
             ++ (if exec_replaces e then [] else [OnError "exec" "execv-failed"]) /\
  replaced r = exec_replaces e.
Proof.
  intros Hb Hs Hbn Hsn Hv (_ & _ & _ & _ & Hp & Hr & Hsr). unfold verify_stage, readVec. rewrite Hb, Hs.
  destruct bin as [| b0 bin]; [done |]. destruct sig as [| s0 sig]; [done |]. rewrite Hv.
  unfold apply_stage, applyUpdateLinux. rewrite Hp, Hr, Hsr, Hb, bool_decide_true by eauto. cbn [negb orb].
  unfold move. rewrite Hb, lookup_insert_ne, lookup_delete_ne, Hs by path_ne.
  destruct (exec_replaces e); cbn [out_files events replaced finish]; rewrite <- ?app_assoc; cbn [app];
    (split; [| split; [apply lookup_insert_eq | done]]); rewrite lookup_insert_ne, lookup_delete_ne by path_ne; apply lookup_insert_eq.
Qed.

(** What the check answers about a newer entry, as the client reads it. *)
Lemma check_answer (clients : gset str) ms (k : str) m :
  length k = 32%nat -> k ∈ clients -> m ∈ ms -> m_platform m = kClientPlatform ->
  (forall x, x ∈ ms -> m_platform x = kClientPlatform -> x = m) -> fits (m_version m) ->
  ~ not_newer (m_version m) kClientVersion ->
  update_check clients ms (hexEncode k) kClientPlatform kClientVersion = Some (mkHttp 200 (update_text m)).
Proof.
  intros Hl Hk Hm Hp Honly Hf Hn. unfold update_check. rewrite authorised_key by done.
  rewrite (best_entry_only _ m) by auto. rewrite decide_False by done.
  destruct (semverCmp_total (m_version m) kClientVersion Hf) as (r & Hr & _); [by eexists |]. rewrite Hr.
  destruct (Z.leb_spec r 0); [| done]. destruct Hn. by exists r.
Qed.

Lemma serve_answer (suffix missing : str) (dir : gmap str str) (clients : gset str) ms (k : str) m (body : str) :
  length k = 32%nat -> k ∈ clients -> m ∈ ms -> m_platform m = kClientPlatform ->
  (forall x, x ∈ ms -> m_platform x = kClientPlatform -> x = m) -> fits (m_version m) ->
  dir !! (m_filename m ++ suffix) = Some body ->
  serve suffix missing dir clients ms (hexEncode k) kClientPlatform = Some (mkHttp 200 body).
Proof.
  intros Hl Hk Hm Hp Honly Hf Hd. unfold serve. rewrite authorised_key by done.
  rewrite (best_entry_only _ m) by auto. by rewrite Hd.
Qed.

(** The stages up to the verification, on delivered downloads. *)
Lemma response_reaches e (dir : str) (fs : gmap str str) evs m (bin sig : str) :
  version_loop (m_version m) 0 true = true -> sha256hex m = hexEncode (sha256_digest bin) -> sigSize m = Z.of_nat (length sig) ->
  hasValidHostname (server e) = true -> delivers (bin_conn e) bin -> delivers (sig_conn e) sig -> writable e bin sig ->
  exists fs1, fs1 !! pendingPath dir = Some bin /\ fs1 !! pendingSigPath dir = Some sig /\
    response_stage roots e dir (update_text m) fs evs =
    verify_stage roots e dir (m_version m) fs1 (((evs ++ [OnStage "downloading_binary"]) ++ [OnStage "verifying_sha256"])
                                                ++ [OnStage "downloading_signature"]).
Proof.
  intros Hver Hsha Hsz Hh Hdb Hds (Ho1 & Ho2 & Hr1 & Hr2 & _).
  exists (<[pendingSigPath dir := sig]> (delete (pendingSigPath dir) (<[pendingPath dir := bin]> (delete (pendingPath dir) fs)))).
  split; [rewrite lookup_insert_ne, lookup_delete_ne by path_ne; apply lookup_insert_eq |]. split; [apply lookup_insert_eq |].
  assert (Hok := check_fields_ok m). unfold response_stage. rewrite update_text_object.
  assert (Hin : forall k val, (k, val) ∈ check_fields m <-> In (k, val) (check_fields m)) by (intros; apply list_elem_of_In).
  rewrite (jsonBool_field _ _ true) by first [done | apply Hin; cbn; tauto]. cbn [negb].
  rewrite (jsonStr_field _ "version" (m_version m)) by first [done | apply Hin; cbn; tauto | by apply plain_version].
  rewrite (jsonStr_field _ "sha256" (sha256hex m)) by first [done | apply Hin; cbn; tauto | rewrite Hsha; apply plain_hex].
  rewrite bool_decide_false by (by apply version_nonempty). rewrite Hsha, hexEncode_length, digest_length. cbn [Nat.mul Nat.add Nat.eqb negb orb].
  assert (Hsize : jsonInt (object_text (check_fields m) [LF]) "size" 0 = 0).
  { unfold jsonInt. rewrite raw_absent; [done | done | by apply (bool_decide_unpack _); vm_compute ..]. }
  rewrite Hsize. change (kMaxUpdateBytes <? 0) with false. cbv iota. unfold binary_stage.
  rewrite (httpsGetToFile_delivers _ _ _ _ _ bin) by (done || lia). change (200 =? 200) with true. cbn [negb].
  rewrite lookup_insert_eq. unfold sha256FileHex. cbn [fmap option_fmap option_map]. rewrite decide_True by done.
  unfold signature_stage. rewrite (jsonInt_field _ "sig_size" (sigSize m)) by first [done | apply Hin; cbn; tauto | lia].
  rewrite (httpsGetToFile_delivers _ _ _ _ _ sig) by
    (try done; try (unfold kAbsoluteMaxBytes; lia); rewrite Hsz; destruct (Z.ltb_spec 0 (Z.of_nat (length sig))); lia).
  reflexivity.
Qed.

(** C17: updates arrive. A registered client that runs a cycle against a server
    whose manifest lists one newer binary for its platform, which also passes
    the trust check by the client's own clock and floor, ends with exactly
    that binary and signature installed, reports the seven stages in order
    and the published version, and restarts; however the answers are cut into
    records, whatever head the HTTP library writes, and whatever files a
    previous cycle left behind. *)
Theorem update_delivered (trigger : UpdateTrigger) e (u : Upd) (clients : gset str) ms (dir : gmap str str) (k : str) m (bin sig : str) :
  inProgress u = false -> exeDir e <> [] -> identityPath e <> [] -> identityKey e = Some k -> length k = 32%nat -> k ∈ clients ->
  hasValidHostname (server e) = true ->
  m ∈ ms -> m_platform m = kClientPlatform -> (forall x, x ∈ ms -> m_platform x = kClientPlatform -> x = m) ->
  offered roots (epochNow e) (Updater.floor e) dir (m_filename m) m ->
  dir !! m_filename m = Some bin -> dir !! (m_filename m ++ dot_sig) = Some sig ->
  fits (m_version m) -> ~ not_newer (m_version m) kClientVersion ->
  answered clients ms dir (hexEncode k) e -> writable e bin sig ->
  let (u', r) := doOneCheckCycle roots trigger e u in
  files u' !! targetPath (exeDir e) = Some bin /\ files u' !! targetSigPath (exeDir e) = Some sig /\
  events r = stages_upto 7 ++ [OnDone (m_version m)] ++ (if exec_replaces e then [] else [OnError "exec" "execv-failed"]) /\
  replaced r = exec_replaces e.
Proof.
  intros Hi Hx Hid Hk Hl Hkc Hh Hm Hp Honly Ho Hb Hs Hfit Hnew (Hac & Had & Has) Hw.
  destruct Ho as (_ & Hval & _ & bin' & sig' & v & Hb' & Hs' & Hv & Em).
  assert (bin' = bin) as -> by congruence. assert (sig' = sig) as -> by congruence.
  destruct (Hac _ (check_answer clients ms k m Hl Hkc Hm Hp Honly Hfit Hnew)) as [Hdc Hsh]. cbn [content] in Hdc.
  rewrite <- (app_nil_r (m_filename m)) in Hb.
  pose proof (Had _ (serve_answer [] _ dir clients ms k m bin Hl Hkc Hm Hp Honly Hfit Hb)) as Hdb.
  pose proof (Has _ (serve_answer dot_sig _ dir clients ms k m sig Hl Hkc Hm Hp Honly Hfit Hs)) as Hds. cbn [content] in Hdb, Hds.
  assert (Hplat : i_platform (parseClientBinaryFilename (m_filename m)) = kClientPlatform) by (pose proof (f_equal m_platform Em) as E; cbn in E; congruence).
  assert (Hver : version_loop (m_version m) 0 true = true) by (rewrite (f_equal m_version Em); by apply valid_version).
  rewrite Hplat in Hv.
  assert (Hne : bin <> [] /\ sig <> []).
  { split; intros E; rewrite E in Hv; apply verify_spec in Hv as (b & d & key & ids & Hpb & _ & _ & _ & _ & _ & _ & _ & _ & _ & Hsg & _);
      [done | by vm_compute in Hpb]. }
  unfold doOneCheckCycle. rewrite Hi. unfold check_stage. rewrite decide_False by done.
  assert (Hpub : pubkeyHexFromPem (identityPath e) (identityKey e) = hexEncode k).
  { unfold pubkeyHexFromPem. rewrite decide_False, Hk by done. by rewrite decide_True. }
  rewrite Hpub, decide_False by (intros E%(f_equal length); rewrite hexEncode_length, Hl in E; done).
  rewrite (httpsGet_delivers _ _ (update_text m)) by done. change (200 =? 0) with false. change (200 =? 200) with true. cbn [negb].
  set (fs := match trigger with Periodic => _ | ServerPush => _ end). cbn [files].
  destruct (response_reaches e (exeDir e) fs [OnStage "checking"] m bin sig) as (fs1 & Hf1 & Hf2 & ->); try done; [apply (f_equal sha256hex Em) | apply (f_equal sigSize Em) |].
  destruct (verify_installs e (exeDir e) (m_version m) fs1 (stages_upto 4) bin sig v) as (H1 & H2 & H3 & H4); try done; try tauto.
Qed.
End Delivered.

(** ** Sample delivery *)

Lemma sample_delivers (body : str) : body <> [] -> delivers (sample_http body) body.
Proof.
  intros Hb. eexists _, (("OK" : str) ++ [CR; LF] ++ "X: y"). split; [reflexivity |]. split; [by repeat constructor |].
  split; [cbn [concat]; by rewrite app_nil_r |]. split; [vm_compute; reflexivity |].
  apply Nat.leb_le. vm_compute. reflexivity.
Qed.

Definition sample_entry : UpdateManifestEntry :=
  mkEntry "linux-amd64" "2.1.0.0" sample_name (hexEncode (sha256_digest "bin")) (Z.of_nat (length sample_sig)).

Definition sample_client : Env :=
  mkEnv "/opt/ntm" "id.pem" (Some (replicate 32 "k"%char)) "ntm.example.org"
    (sample_http (update_text sample_entry)) (sample_http "bin") (sample_http sample_sig)
    (mkDisk true 1000000) (mkDisk true 1000000) true 1800000000 7 true true true true.

Lemma update_delivered_witness :
  files (doOneCheckCycle sample_roots ServerPush sample_client sample_upd).1 !! targetPath "/opt/ntm" = Some ("bin" : str).
Proof.
  assert (Hm : sample_entry ∈ [sample_entry]) by apply list_elem_of_here.
  assert (Honly : forall x, x ∈ [sample_entry] -> m_platform x = kClientPlatform -> x = sample_entry).
  { intros x Hx _. by apply list_elem_of_singleton. }
  assert (Hk : replicate 32 "k"%char ∈ ({[ replicate 32 "k"%char ]} : gset str)) by (by apply elem_of_singleton).
  assert (Hl : length (replicate 32 "k"%char) = 32%nat) by reflexivity.
  assert (Ho : offered sample_roots 1800000000 7 sample_dir sample_name sample_entry).
  { apply classify_spec. vm_compute. reflexivity. }
  assert (Hfit : fits (m_version sample_entry)) by (eexists; vm_compute; reflexivity).
  assert (Hnew : ~ not_newer (m_version sample_entry) kClientVersion).
  { intros (r & Hr & Hle). assert (E : semverCmp (m_version sample_entry) kClientVersion = Some 1) by (vm_compute; reflexivity).
    rewrite E in Hr. injection Hr as <-. lia. }
  assert (Hans : answered {[ replicate 32 "k"%char ]} [sample_entry] sample_dir (hexEncode (replicate 32 "k"%char)) sample_client).
  { split; [| split]; intros r.
    - rewrite (check_answer _ _ _ sample_entry Hl Hk Hm eq_refl Honly Hfit Hnew). intros [= <-].
      split; [apply sample_delivers; discriminate |]. cbn [short check_conn sample_client sample_http]. apply Z.leb_le. vm_compute. reflexivity.
    - unfold update_download. rewrite (serve_answer _ _ _ _ _ _ sample_entry "bin" Hl Hk Hm eq_refl Honly Hfit) by (vm_compute; reflexivity).
      intros [= <-]. apply sample_delivers. discriminate.
    - unfold update_download_sig. rewrite (serve_answer _ _ _ _ _ _ sample_entry sample_sig Hl Hk Hm eq_refl Honly Hfit) by (vm_compute; reflexivity).
      intros [= <-]. apply sample_delivers. vm_compute. discriminate. }
  assert (Hw : writable sample_client "bin" sample_sig) by (split_conj; vm_compute; done).
  pose proof (update_delivered sample_roots ServerPush sample_client sample_upd {[ replicate 32 "k"%char ]} [sample_entry] sample_dir
    (replicate 32 "k"%char) sample_entry "bin" sample_sig eq_refl ltac:(discriminate) ltac:(discriminate) eq_refl Hl Hk
    ltac:(vm_compute; reflexivity) Hm eq_refl Honly Ho ltac:(vm_compute; reflexivity) ltac:(vm_compute; reflexivity) Hfit Hnew Hans Hw) as H.
  destruct (doOneCheckCycle _ _ _ _) as [u r]. exact (proj1 H).
Defined.
