(* ===== verification/Summary.v ===== *)
(** The dashboard's summary ([web_dashboard.cpp], [buildSummaryJson]): how the
    entity flows of a snapshot are classified, grouped, summed, sorted and cut,
    and which interfaces and clients are left out. The order of the hash
    tables is a parameter; [std::sort] on the rows, whose order among equal
    rows is unspecified, is a merge sort of rows taken in that arbitrary
    order. The text is in [SummaryJson]. *)

From stdpp Require Import sorting.
From S2P Require Import Prelude CppString Wire Health TrafficStats Registry IpRange UpdateDir.
Import HiddenEntities.
Local Open Scope Z_scope.

(** ** Keys *)

(** [client|iface], cut at the first bar. *)
(* web_dashboard.cpp:858-860 buildSummaryJson, interface key *)
Definition split_key (key : str) : str * str :=
  match cut "|" key with Some (client, iface) => (client, iface) | None => ([], key) end.

(* web_dashboard.cpp:760-765 buildSummaryJson, isHexClientId *)
Definition isHexClientId (s : str) : bool :=
  (length s =? 64)%nat && forallb (fun c => is_digit c || in_range "a" "f" c) s.

(** Scope and address of a key [@[scope]:address]. *)
(* web_dashboard.cpp:769-778 buildSummaryJson, parseReporterScoped *)
Definition parseReporterScoped (s : str) : option (str * str) :=
  match s with
  | c0 :: c1 :: r =>
      if (length s <? 5)%nat || negb (bool_decide (c0 = "@"%char)) || negb (bool_decide (c1 = "["%char)) then None
      else match cut "]" r with
           | Some (scope, d :: lanIp) => if decide (d = ":"%char) then Some (scope, lanIp) else None
           | _ => None
           end
  | _ => None
  end.

(* web_dashboard.cpp:779-785 buildSummaryJson, displayClient *)
Definition displayClient (nicknames : gmap str str) (s : str) : str :=
  if isHexClientId s then default s (nicknames !! s) else s.

(* web_dashboard.cpp:795-800 buildSummaryJson, isInfraEndpoint *)
Definition isInfraEndpoint (serverIps dashboardIps : gset str) (key : str) : bool :=
  let ip := match parseReporterScoped key with Some (_, lanIp) => lanIp | None => key end in
  bool_decide (ip ∈ serverIps) || bool_decide (ip ∈ dashboardIps).

(** Hundredths of a percent, the product modulo 2^64. *)
(* web_dashboard.cpp:802-811 buildSummaryJson, fmtPct *)
Definition fmtPct (num denom : Z) : str :=
  if denom =? 0 then "0.00"
  else
    let pct100 := u64 (num * 10000) / denom in
    let frac := pct100 mod 100 in
    to_string (pct100 / 100) ++ "."%char :: (if frac <? 10 then ["0"%char] else []) ++ to_string frac.

Section Views.
Context `{Inet}.

(* web_dashboard.cpp:813-827 buildSummaryJson, resolveEntityMain *)
Definition resolveEntityMain (nicknames : gmap str str) (s : str) : str :=
  if isHexClientId s then default s (nicknames !! s)
  else match parseReporterScoped s with
       | Some (scope, _) => if decide (scope = "null") then "LAN (no internet)" else "LAN (" ++ scope ++ ")"
       | None => if isLanIP s then "Local Devices" else s
       end.

(** The entity strings under which the flows of public addresses are stored
    are added to the set. *)
(* web_dashboard.cpp:737-749 buildSummaryJson, addEntityStrings *)
Definition addEntityStrings (resolver : option Resolver) (set : gset str) : gset str :=
  match resolver with
  | None => set
  | Some R =>
      set ∪ list_to_set (omap (fun key =>
        if isLanIP key then None
        else let entity := entityFor R key in
             if isUnknownEntity entity then None else Some entity) (elements set))
  end.

(* web_dashboard.cpp:953-956 buildSummaryJson, local endpoint *)
Definition local_endpoint (s : str) : bool := bool_decide (is_Some (parseReporterScoped s)) || isLanIP s || isHexClientId s.

(* web_dashboard.cpp:976-977 buildSummaryJson, unidentified endpoint *)
Definition unidentified (s : str) : bool := bool_decide (is_Some (parseReporterScoped s)) || isLanIP s.
End Views.

(** ** Groups *)

(** Display name of the client, interface, source and destination. *)
(* web_dashboard.cpp:879-886 buildSummaryJson, SummaryKey *)
Definition SummaryKey : Type := str * str * str * str.

#[export] Instance summary_key_eq : EqDecision SummaryKey := _.
#[export] Instance summary_key_countable : Countable SummaryKey := _.

(* web_dashboard.cpp:908-908 buildSummaryJson, LanStats *)
Record LanStats := mkLan { outPkts : Z; outBytes : Z; inPkts : Z; inBytes : Z }.

Definition zero_lan : LanStats := mkLan 0 0 0 0.
Definition lan_out (c : Counter) (l : LanStats) : LanStats := mkLan (u64 (outPkts l + packets c)) (u64 (outBytes l + bytes c)) (inPkts l) (inBytes l).
Definition lan_in (c : Counter) (l : LanStats) : LanStats := mkLan (outPkts l) (outBytes l) (u64 (inPkts l + packets c)) (u64 (inBytes l + bytes c)).

(* web_dashboard.cpp:896-909 buildSummaryJson, accumulators *)
Record Groups := mkGroups {
  summaryGroups : gmap SummaryKey Counter;
  internetGroups : gmap SummaryKey Counter;
  localGroups : gmap SummaryKey Counter;
  overheadGroups : gmap SummaryKey Counter;
  lanMap : gmap str LanStats;
  totalAllBytes : Z;
  overheadTotal : Counter;
  localTotal : Counter
}.

Definition no_groups : Groups := mkGroups ∅ ∅ ∅ ∅ ∅ 0 zero_counter zero_counter.

Definition bump {K} `{Countable K} (k : K) (c : Counter) (m : gmap K Counter) : gmap K Counter :=
  <[k := plus_counter (at_key zero_counter m k) c]> m.

Definition bump_lan (k : str) (f : LanStats -> LanStats) (m : gmap str LanStats) : gmap str LanStats :=
  <[k := f (at_key zero_lan m k)]> m.

(** What the rows depend on besides the flows. *)
Record View := mkView { nicknames : gmap str str; serverIps : gset str; dashboardIps : gset str; hidden : option t }.

(* web_dashboard.cpp:861-861 buildSummaryJson, hidden interface *)
Definition hidden_key (v : View) (key : str) : bool :=
  match hidden v with Some h => isIfaceHidden h (split_key key).1 (split_key key).2 | None => false end.

(* web_dashboard.cpp:1214-1214 buildSummaryJson, hidden client *)
Definition hidden_client (v : View) (id : str) : bool :=
  match hidden v with Some h => isClientHidden h id | None => false end.

(** A flow of one interface: its key and counter. *)
Record Flow := mkFlow { f_client : str; f_iface : str; f_src : str; f_dst : str; f_count : Counter }.

Section Groups.
Context `{IN : Inet} `{SH : StdHash} (v : View).

(* web_dashboard.cpp:930-931 buildSummaryJson, isOvhd *)
Definition is_overhead (f : Flow) : bool :=
  isInfraEndpoint (serverIps v) (dashboardIps v) (f_src f) || isInfraEndpoint (serverIps v) (dashboardIps v) (f_dst f) ||
  (isHexClientId (f_src f) && isHexClientId (f_dst f)).

Definition is_local (f : Flow) : bool := local_endpoint (f_src f) && local_endpoint (f_dst f).

(* web_dashboard.cpp:945-947 buildSummaryJson, row key *)
Definition row_key (f : Flow) : SummaryKey :=
  (displayClient (nicknames v) (f_client f), f_iface f, resolveEntityMain (nicknames v) (f_src f), resolveEntityMain (nicknames v) (f_dst f)).

(* web_dashboard.cpp:976-979 buildSummaryJson, LAN detail *)
Definition add_lan (f : Flow) (m : gmap str LanStats) : gmap str LanStats :=
  let m := if unidentified (f_src f) then bump_lan (f_src f) (lan_out (f_count f)) m else m in
  if unidentified (f_dst f) then bump_lan (f_dst f) (lan_in (f_count f)) m else m.

(* web_dashboard.cpp:919-981 buildSummaryJson, one flow *)
Definition add_flow (g : Groups) (f : Flow) : Groups :=
  let c := f_count f in
  let k := row_key f in
  let total := u64 (totalAllBytes g + bytes c) in
  if is_overhead f then
    mkGroups (summaryGroups g) (internetGroups g) (localGroups g) (bump k c (overheadGroups g)) (lanMap g)
      total (plus_counter (overheadTotal g) c) (localTotal g)
  else if is_local f then
    mkGroups (bump k c (summaryGroups g)) (internetGroups g) (bump k c (localGroups g)) (overheadGroups g) (add_lan f (lanMap g))
      total (overheadTotal g) (plus_counter (localTotal g) c)
  else
    mkGroups (bump k c (summaryGroups g)) (bump k c (internetGroups g)) (localGroups g) (overheadGroups g) (add_lan f (lanMap g))
      total (overheadTotal g) (localTotal g).

(** The flows of the interfaces that are not hidden, in table order. *)
Definition flow_of (key : str) (ek : FlowKey * Counter) : Flow :=
  mkFlow (split_key key).1 (split_key key).2 ek.1.1 ek.1.2 ek.2.

(* web_dashboard.cpp:911-982 buildSummaryJson, both loops *)
Definition group_flows (entityFlows : gmap str CounterMap) : Groups :=
  fold_left (fun g kv => if hidden_key v kv.1 then g else fold_left (fun g ek => add_flow g (flow_of kv.1 ek)) (iter kv.2) g)
    (iter entityFlows) no_groups.

(** ** Rows *)

(** Descending order of a measure. *)
Definition descending {A} (measure : A -> Z) (a b : A) : Prop := measure b <= measure a.

#[export] Instance descending_dec {A} (measure : A -> Z) a b : Decision (descending measure a b).
Proof. unfold descending. apply _. Defined.

(** The rows shown, and whether some were cut. *)
(* web_dashboard.cpp:992-999 buildSummaryJson, sort and truncate *)
Definition top_rows {A} (measure : A -> Z) (maxLines : nat) (rows : list A) : list A * bool :=
  let sorted := merge_sort (descending measure) rows in
  if (0 <? maxLines)%nat && (maxLines <? length sorted)%nat then (take maxLines sorted, true) else (sorted, false).

(* web_dashboard.cpp:984-1047 buildSummaryJson, entity rows *)
Definition entity_rows (maxLines : nat) (m : gmap SummaryKey Counter) : list (SummaryKey * Counter) * bool :=
  top_rows (fun r => bytes r.2) maxLines (iter m).

(* web_dashboard.cpp:1049-1066 buildSummaryJson, LAN rows *)
Definition lan_rows (maxLines : nat) (m : gmap str LanStats) : list (str * LanStats) * bool :=
  top_rows (fun r => u64 (outBytes r.2 + inBytes r.2)) maxLines (iter m).

(* web_dashboard.cpp:856-861 buildSummaryJson, interfaces *)
Definition interface_rows (totals : InterfaceTotals) : list (str * str * Counter) :=
  omap (fun kv => if hidden_key v kv.1 then None else Some (split_key kv.1, kv.2)) (iter totals).

(* web_dashboard.cpp:1200-1214 buildSummaryJson, health rows *)
Definition health_rows (registry : option ClientRegistry.t) : list (str * ClientHealthStats) :=
  match registry with
  | None => []
  | Some r => filter (fun kv => hidden_client v kv.1 = false) (iter (ClientRegistry.clientHealth r))
  end.
End Groups.

(** ** Lemmas: sums *)

Definition zsum (l : list Z) : Z := fold_right Z.add 0 l.

Lemma zsum_app a b : zsum (a ++ b) = zsum a + zsum b.
Proof. unfold zsum. induction a as [| x a IH]; cbn [app fold_right]; lia. Qed.

Lemma zsum_perm a b : a ≡ₚ b -> zsum a = zsum b.
Proof. unfold zsum. induction 1; cbn [fold_right]; lia. Qed.

(** The sum of the counters of some flows, modulo 2^64. *)
Definition sum_flows (l : list Flow) : Counter :=
  mkCounter (u64 (zsum (map (fun f => packets (f_count f)) l))) (u64 (zsum (map (fun f => bytes (f_count f)) l))).

(** The entry of a group: none without flows. *)
Definition tally (l : list Flow) : option Counter := match l with [] => None | _ => Some (sum_flows l) end.

Lemma sum_flows_snoc l f : sum_flows (l ++ [f]) = plus_counter (sum_flows l) (f_count f).
Proof.
  unfold sum_flows, plus_counter. cbn [packets bytes]. rewrite !map_app, !zsum_app, !u64_add_l. cbn [map zsum fold_right].
  by rewrite !Z.add_0_r.
Qed.

Lemma sum_flows_perm l l' : l ≡ₚ l' -> sum_flows l = sum_flows l'.
Proof. intros H. unfold sum_flows. f_equal; f_equal; apply zsum_perm; by rewrite H. Qed.

Lemma tally_perm l l' : l ≡ₚ l' -> tally l = tally l'.
Proof.
  intros H. unfold tally. destruct l as [| f l], l' as [| f' l']; try done.
  - by apply Permutation_nil_cons in H.
  - symmetry in H. by apply Permutation_nil_cons in H.
  - f_equal. by apply sum_flows_perm.
Qed.

Lemma tally_snoc l f : tally (l ++ [f]) = Some (plus_counter (default zero_counter (tally l)) (f_count f)).
Proof.
  assert (E : default zero_counter (tally l) = sum_flows l) by (by destruct l).
  rewrite E, <- sum_flows_snoc. by destruct l.
Qed.

Section GroupLemmas.
Context `{IN : Inet} `{SH : StdHash, SHL : !StdHashLaws SH} (v : View).

#[local] Abbreviation row_key := (row_key v).
#[local] Abbreviation is_overhead := (is_overhead v).

(** The map groups the flows of a class by their row. *)
Definition groups_by (Q : Flow -> bool) (fs : list Flow) (m : gmap SummaryKey Counter) : Prop :=
  forall k, m !! k = tally (filter (fun f => Q f = true /\ row_key f = k) fs).

Lemma groups_by_take Q fs m f : Q f = true -> groups_by Q fs m -> groups_by Q (fs ++ [f]) (bump (row_key f) (f_count f) m).
Proof.
  intros HQ Hm k. rewrite filter_app, filter_cons, filter_nil. unfold bump. case_decide as E.
  - destruct E as [_ <-]. rewrite tally_snoc, lookup_insert_eq. unfold at_key. by rewrite Hm.
  - rewrite app_nil_r, lookup_insert_ne by tauto. apply Hm.
Qed.

Lemma groups_by_pass Q fs m f : Q f = false -> groups_by Q fs m -> groups_by Q (fs ++ [f]) m.
Proof.
  intros HQ Hm k. rewrite filter_app, filter_cons, filter_nil, decide_False by (intros [? _]; congruence). by rewrite app_nil_r.
Qed.

(** The flows out of and into an address that is not identified. *)
Definition lan_flows (endpoint : Flow -> str) (ip : str) (fs : list Flow) : list Flow :=
  filter (fun f => is_overhead f = false /\ unidentified ip = true /\ endpoint f = ip) fs.

Definition lan_entry (o i : list Flow) : option LanStats :=
  match o, i with
  | [], [] => None
  | _, _ => Some (mkLan (packets (sum_flows o)) (bytes (sum_flows o)) (packets (sum_flows i)) (bytes (sum_flows i)))
  end.

Definition lan_tally (ip : str) (fs : list Flow) : option LanStats := lan_entry (lan_flows f_src ip fs) (lan_flows f_dst ip fs).

Lemma lan_entry_out (o i : list Flow) (f : Flow) : lan_entry (o ++ [f]) i = Some (lan_out (f_count f) (default zero_lan (lan_entry o i))).
Proof.
  assert (E : lan_entry (o ++ [f]) i = Some (mkLan (packets (sum_flows (o ++ [f]))) (bytes (sum_flows (o ++ [f]))) (packets (sum_flows i)) (bytes (sum_flows i))))
    by (by destruct o).
  rewrite E, sum_flows_snoc. by destruct o, i.
Qed.

Lemma lan_entry_in (o i : list Flow) (f : Flow) : lan_entry o (i ++ [f]) = Some (lan_in (f_count f) (default zero_lan (lan_entry o i))).
Proof.
  assert (E : lan_entry o (i ++ [f]) = Some (mkLan (packets (sum_flows o)) (bytes (sum_flows o)) (packets (sum_flows (i ++ [f]))) (bytes (sum_flows (i ++ [f])))))
    by (by destruct o, i).
  rewrite E, sum_flows_snoc. by destruct o, i.
Qed.

Lemma bump_lan_lookup ip k (g : LanStats -> LanStats) m :
  bump_lan k g m !! ip = if decide (k = ip) then Some (g (at_key zero_lan m k)) else m !! ip.
Proof. unfold bump_lan. case_decide as E; [subst; apply lookup_insert_eq | by apply lookup_insert_ne]. Qed.

Lemma lan_tally_step (ip : str) (fs : list Flow) (f : Flow) (m : gmap str LanStats) :
  m !! ip = lan_tally ip fs -> is_overhead f = false -> add_lan f m !! ip = lan_tally ip (fs ++ [f]).
Proof.
  intros Hm Ho.
  assert (Es : forall e : Flow -> str, lan_flows e ip (fs ++ [f]) = lan_flows e ip fs ++ (if unidentified (e f) && bool_decide (e f = ip) then [f] else [])).
  { intros e. unfold lan_flows. rewrite filter_app, filter_cons, filter_nil. f_equal. case_decide as E.
    - destruct E as (_ & Hu & <-). by rewrite Hu, bool_decide_true.
    - destruct (unidentified (e f)) eqn:Eu; [| done]. case_bool_decide as Ee; [| done]. destruct E. by subst. }
  set (m1 := if unidentified (f_src f) then bump_lan (f_src f) (lan_out (f_count f)) m else m).
  assert (H1 : m1 !! ip = lan_entry (lan_flows f_src ip (fs ++ [f])) (lan_flows f_dst ip fs)).
  { rewrite Es. unfold m1. destruct (unidentified (f_src f)); cbn [andb]; [| by rewrite app_nil_r]. rewrite bump_lan_lookup.
    case_decide as E; [| rewrite bool_decide_false, app_nil_r by done; done].
    rewrite bool_decide_true, lan_entry_out by done. unfold at_key. rewrite E, Hm. done. }
  unfold add_lan. cbv zeta. fold m1. unfold lan_tally. rewrite (Es f_dst).
  destruct (unidentified (f_dst f)); cbn [andb]; [| by rewrite app_nil_r]. rewrite bump_lan_lookup.
  case_decide as E; [| rewrite bool_decide_false, app_nil_r by done; done].
  rewrite bool_decide_true, lan_entry_in by done. unfold at_key. by rewrite E, H1.
Qed.

(** What the accumulators hold after some flows. *)
Record grouped (fs : list Flow) (g : Groups) : Prop := {
  g_summary : groups_by (fun f => negb (is_overhead f)) fs (summaryGroups g);
  g_internet : groups_by (fun f => negb (is_overhead f) && negb (is_local f)) fs (internetGroups g);
  g_local : groups_by (fun f => negb (is_overhead f) && is_local f) fs (localGroups g);
  g_overhead : groups_by is_overhead fs (overheadGroups g);
  g_lan : forall ip, lanMap g !! ip = lan_tally ip fs;
  g_total : totalAllBytes g = bytes (sum_flows fs);
  g_overhead_total : overheadTotal g = sum_flows (filter (fun f => is_overhead f = true) fs);
  g_local_total : localTotal g = sum_flows (filter (fun f => negb (is_overhead f) && is_local f = true) fs)
}.

Lemma grouped_step (fs : list Flow) (g : Groups) (f : Flow) : grouped fs g -> grouped (fs ++ [f]) (add_flow v g f).
Proof.
  intros [Gs Gi Gl Go Gn Gt Got Glt]. unfold add_flow.
  assert (Ht : u64 (totalAllBytes g + bytes (f_count f)) = bytes (sum_flows (fs ++ [f]))) by (by rewrite sum_flows_snoc, Gt).
  destruct (is_overhead f) eqn:Eo; [| destruct (is_local f) eqn:El];
    (split; cbn [summaryGroups internetGroups localGroups overheadGroups lanMap totalAllBytes overheadTotal localTotal];
     [.. | exact Ht | rewrite filter_app, filter_cons, filter_nil | rewrite filter_app, filter_cons, filter_nil]);
    try (apply groups_by_take; [rewrite ?Eo, ?El; done | done]); try (apply groups_by_pass; [rewrite ?Eo, ?El; done | done]);
    try (rewrite decide_True by (by rewrite ?Eo, ?El)); try (rewrite decide_False by (by rewrite ?Eo, ?El));
    rewrite ?app_nil_r; try done; try (rewrite sum_flows_snoc; congruence); intros ip.
  - rewrite Gn. unfold lan_tally, lan_flows. rewrite !filter_app, !filter_cons, !filter_nil, !decide_False by (intros [? _]; congruence).
    by rewrite !app_nil_r.
  - by apply lan_tally_step.
  - by apply lan_tally_step.
Qed.

Lemma grouped_all (fs : list Flow) : grouped fs (fold_left (add_flow v) fs no_groups).
Proof.
  induction fs as [| f fs IH] using rev_ind.
  - split; try done; intros k; apply lookup_empty.
  - rewrite fold_left_app. by apply grouped_step.
Qed.

Lemma grouped_perm (fs fs' : list Flow) (g : Groups) : fs ≡ₚ fs' -> grouped fs g -> grouped fs' g.
Proof.
  intros H [Gs Gi Gl Go Gn Gt Got Glt]. split; try (intros k; rewrite ?Gs, ?Gi, ?Gl, ?Go; apply tally_perm; by rewrite H).
  - intros ip. rewrite Gn. unfold lan_tally, lan_flows.
    assert (E : forall a b a' b' : list Flow, a ≡ₚ a' -> b ≡ₚ b' -> lan_entry a b = lan_entry a' b').
    { intros a b a' b' Ha Hb. unfold lan_entry. rewrite (sum_flows_perm _ _ Ha), (sum_flows_perm _ _ Hb).
      destruct a, b, a', b'; try done;
        repeat match goal with X : [] ≡ₚ _ :: _ |- _ => by apply Permutation_nil_cons in X | X : _ :: _ ≡ₚ [] |- _ => symmetry in X; by apply Permutation_nil_cons in X end. }
    apply E; by rewrite H.
  - rewrite Gt. f_equal. by apply sum_flows_perm.
  - rewrite Got. apply sum_flows_perm. by rewrite H.
  - rewrite Glt. apply sum_flows_perm. by rewrite H.
Qed.

(** The flows that are shown: those of the interfaces that are not hidden. *)
Definition shown_flows (entityFlows : gmap str CounterMap) : list Flow :=
  kv ← map_to_list entityFlows; if hidden_key v kv.1 then [] else flow_of kv.1 <$> map_to_list kv.2.

Lemma group_flows_eq (m : gmap str CounterMap) :
  group_flows v m = fold_left (add_flow v) (kv ← iter m; if hidden_key v kv.1 then [] else flow_of kv.1 <$> iter kv.2) no_groups.
Proof.
  unfold group_flows. generalize no_groups. induction (iter m) as [| kv l IH]; intros g; cbn [fold_left mbind list_bind]; [done |].
  rewrite fold_left_app, IH. f_equal. destruct (hidden_key v kv.1); [done |].
  generalize g. induction (iter kv.2) as [| ek es IHe]; intros g'; cbn [fold_left fmap list_fmap]; [done |]. apply IHe.
Qed.

Lemma group_flows_grouped (m : gmap str CounterMap) : grouped (shown_flows m) (group_flows v m).
Proof.
  rewrite group_flows_eq. eapply grouped_perm; [| apply grouped_all]. unfold shown_flows. rewrite (iter_perm m).
  generalize (map_to_list m). intros l. induction l as [| kv l IH]; cbn [mbind list_bind]; [done |].
  rewrite IH. f_equiv. destruct (hidden_key v kv.1); [done |]. by rewrite iter_perm.
Qed.

Lemma shown_flows_elem (m : gmap str CounterMap) (f : Flow) :
  f ∈ shown_flows m <-> exists key table fk c, m !! key = Some table /\ table !! fk = Some c /\ hidden_key v key = false /\ f = flow_of key (fk, c).
Proof.
  unfold shown_flows. rewrite list_elem_of_bind. split.
  - intros ([key table] & Hf & Hin). cbn in Hf. destruct (hidden_key v key) eqn:Eh; [by apply elem_of_nil in Hf |].
    apply list_elem_of_fmap in Hf as ([fk c] & -> & Hc). apply elem_of_map_to_list in Hin, Hc. by exists key, table, fk, c.
  - intros (key & table & fk & c & Hk & Hc & Hh & ->). exists (key, table). split; [| by apply elem_of_map_to_list]. cbn. rewrite Hh.
    apply list_elem_of_fmap. exists (fk, c). split; [done |]. by apply elem_of_map_to_list.
Qed.

(** Every flow is in exactly one class. *)
Lemma class_split (fs : list Flow) :
  sum_flows fs = plus_counter (plus_counter (sum_flows (filter (fun f => is_overhead f = true) fs)) (sum_flows (filter (fun f => negb (is_overhead f) && is_local f = true) fs)))
                   (sum_flows (filter (fun f => negb (is_overhead f) && negb (is_local f) = true) fs)).
Proof.
  assert (E : fs ≡ₚ filter (fun f => is_overhead f = true) fs ++ filter (fun f => negb (is_overhead f) && is_local f = true) fs ++
                   filter (fun f => negb (is_overhead f) && negb (is_local f) = true) fs).
  { induction fs as [| f fs IH]; [done |]. rewrite !filter_cons.
    destruct (is_overhead f), (is_local f); cbn [negb andb]; repeat case_decide; try done; cbn [app]; rewrite IH at 1; [done | done | |].
    - by rewrite Permutation_middle.
    - rewrite !app_assoc. by rewrite Permutation_middle. }
  assert (A : forall a b, sum_flows (a ++ b) = plus_counter (sum_flows a) (sum_flows b)).
  { intros a b. unfold sum_flows, plus_counter. cbn [packets bytes]. by rewrite !map_app, !zsum_app, !u64_add_l, !u64_add_r. }
  rewrite (sum_flows_perm _ _ E), !A. unfold plus_counter. cbn [packets bytes]. by rewrite !u64_add_l, !u64_add_r, !Z.add_assoc.
Qed.

(** C14: the summary accounts for every flow it shows, once. For each row of
    each table the counter is the sum, modulo 2^64, of exactly the flows of
    interfaces that are not hidden whose class and labels are the row's: the
    flows of the monitoring itself in one table, the local and the internet
    flows in two more and together in the main one; a row without flows does
    not exist. The address table adds up what goes out of and into each
    unidentified address, and the byte total is that of the three classes. *)
Theorem summary_groups_exact (m : gmap str CounterMap) :
  let fs := shown_flows m in
  let g := group_flows v m in
  (forall f, f ∈ fs <-> exists key table fk c, m !! key = Some table /\ table !! fk = Some c /\ hidden_key v key = false /\ f = flow_of key (fk, c)) /\
  grouped fs g /\
  totalAllBytes g = u64 (bytes (overheadTotal g) + bytes (localTotal g) +
                         bytes (sum_flows (filter (fun f => negb (is_overhead f) && negb (is_local f) = true) fs))).
Proof.
  cbv zeta. split; [apply shown_flows_elem |]. pose proof (group_flows_grouped m) as G. split; [done |].
  rewrite (g_total _ _ G), (class_split (shown_flows m)), (g_overhead_total _ _ G), (g_local_total _ _ G).
  unfold plus_counter. cbn [bytes]. by rewrite u64_add_l.
Qed.
End GroupLemmas.

(** ** Rows *)

Section RowLemmas.
Context {A : Type} (measure : A -> Z).

#[local] Instance descending_total : Total (descending measure).
Proof. intros a b. unfold descending. lia. Qed.

#[local] Instance descending_trans : Transitive (descending measure).
Proof. intros a b c. unfold descending. lia. Qed.

(** The rows shown are the largest, in descending order; none is lost unless
    there are more than the limit, and then exactly the limit is shown. *)
Lemma top_rows_spec (maxLines : nat) (rows : list A) :
  let '(top, cut) := top_rows measure maxLines rows in
  exists rest, top ++ rest ≡ₚ rows /\ Sorting.Sorted.StronglySorted (descending measure) top /\
    (forall a b, a ∈ top -> b ∈ rest -> measure b <= measure a) /\
    (if cut then rest <> [] /\ length top = maxLines else rest = []) /\ (0 < maxLines -> length top <= maxLines)%nat.
Proof.
  unfold top_rows. set (s := merge_sort (descending measure) rows).
  assert (Hp : s ≡ₚ rows) by apply merge_sort_Permutation.
  assert (Hs : Sorting.Sorted.StronglySorted (descending measure) s) by (apply StronglySorted_merge_sort; apply _).
  destruct (0 <? maxLines)%nat eqn:E0, (maxLines <? length s)%nat eqn:E1; cbn [andb]; bool_to_prop.
  1: { exists (drop maxLines s). rewrite take_drop. split; [done |]. rewrite <- (take_drop maxLines s) in Hs.
       split; [eapply StronglySorted_app_1_l; exact Hs |]. split; [intros a b Ha Hb; eapply (StronglySorted_app_1_elem_of (descending measure)); [exact Hs | exact Ha | exact Hb] |].
       split; [| intros _; rewrite length_take; lia]. split; [| rewrite length_take; lia].
       intros E. apply (f_equal length) in E. rewrite length_drop in E. cbn in E. lia. }
  all: exists []; rewrite app_nil_r; split; [done |]; split; [done |]; split; [intros a b _ Hb; by apply elem_of_nil in Hb |]; split; [done | lia].
Qed.
End RowLemmas.

Section RowProps.
Context `{IN : Inet} `{SH : StdHash, SHL : !StdHashLaws SH}.

(** The rows of a table are its largest. They come in descending order of
    bytes, each with the counter of its group and no group twice; without the
    truncation mark every group is there; with it, exactly the configured
    number of rows is shown and no group left out has more bytes than one
    shown. *)
Lemma summary_rows_top (maxLines : nat) (m : gmap SummaryKey Counter) :
  let '(rows, cut) := entity_rows maxLines m in
  NoDup rows.*1 /\ (forall k c, (k, c) ∈ rows -> m !! k = Some c) /\
  Sorting.Sorted.StronglySorted (fun a b => bytes b.2 <= bytes a.2) rows /\
  (forall k c, m !! k = Some c -> (k, c) ∈ rows \/ (cut = true /\ forall r, r ∈ rows -> bytes c <= bytes r.2)) /\
  (if cut then length rows = maxLines else length rows = size m) /\ (0 < maxLines -> length rows <= maxLines)%nat.
Proof.
  unfold entity_rows. pose proof (top_rows_spec (fun r : SummaryKey * Counter => bytes r.2) maxLines (iter m)) as H.
  destruct (top_rows _ _ _) as [rows cut]. destruct H as (rest & Hp & Hs & Hle & Hcut & Hlen).
  rewrite iter_perm in Hp.
  assert (Hin : forall x, x ∈ rows -> x ∈ map_to_list m) by (intros x Hx; rewrite <- Hp; apply elem_of_app; by left).
  split_conj.
  - eapply (NoDup_app rows.*1 rest.*1). rewrite <- fmap_app, Hp. apply NoDup_fst_map_to_list.
  - intros k c Hk. by apply elem_of_map_to_list, Hin.
  - exact Hs.
  - intros k c Hk%elem_of_map_to_list. rewrite <- Hp, elem_of_app in Hk. destruct Hk as [Hk | Hk]; [by left | right].
    destruct cut; [| subst; by apply elem_of_nil in Hk]. split; [done |]. intros r Hr. exact (Hle r (k, c) Hr Hk).
  - destruct cut; [by destruct Hcut |]. subst rest. rewrite app_nil_r in Hp. by rewrite (Permutation_length Hp), length_map_to_list.
  - exact Hlen.
Qed.

Lemma split_key_ci (client iface : str) : "|"%char ∉ client -> split_key (ci_key client iface) = (client, iface).
Proof. intros H. unfold split_key, ci_key. change (client ++ "|" ++ iface) with (client ++ "|"%char :: iface). by rewrite cut_app. Qed.

Lemma interface_rows_elem (v : View) (totals : InterfaceTotals) (r : str * str * Counter) :
  r ∈ interface_rows v totals <-> exists key, totals !! key = Some r.2 /\ split_key key = r.1 /\ hidden_key v key = false.
Proof.
  unfold interface_rows. rewrite list_elem_of_omap. split.
  - intros ([key c] & Hin & E). rewrite iter_perm in Hin. apply elem_of_map_to_list in Hin. cbn in E.
    destruct (hidden_key v key) eqn:Eh; [done |]. injection E as <-. by exists key.
  - intros (key & Hk & Es & Eh). exists (key, r.2). rewrite iter_perm, elem_of_map_to_list. split; [done |]. cbn. rewrite Eh, Es. by destruct r.
Qed.

(** The accumulators are determined by the flows. *)
Lemma grouped_unique (v : View) (fs : list Flow) (g g' : Groups) : grouped v fs g -> grouped v fs g' -> g = g'.
Proof.
  intros [A1 B1 C1 D1 E1 F1 G1 H1] [A2 B2 C2 D2 E2 F2 G2 H2].
  destruct g, g'. cbn in *. f_equal; try congruence; apply map_eq; intros k; (etrans; [|symmetry]); eauto.
Qed.

(** The view of a dashboard that hides nothing, and what a table holds of the
    interfaces that are not hidden. *)
Definition unhidden (v : View) : View := mkView (nicknames v) (serverIps v) (dashboardIps v) None.

Definition without_hidden {A} (v : View) (m : gmap str A) : gmap str A := filter (fun kv => hidden_key v kv.1 = false) m.

Definition forget_hidden (v : View) (r : ClientRegistry.t) : ClientRegistry.t :=
  ClientRegistry.mk (ClientRegistry.ipToClientId r) (ClientRegistry.clientToExternalIp r)
    (filter (fun kv => hidden_client v kv.1 = false) (ClientRegistry.clientHealth r)) (ClientRegistry.protoRejections r).

Lemma map_to_list_without {A} (P : str * A -> Prop) `{forall x, Decision (P x)} (m : gmap str A) :
  map_to_list (filter P m) ≡ₚ filter P (map_to_list m).
Proof.
  apply NoDup_Permutation; [apply NoDup_map_to_list | apply NoDup_filter, NoDup_map_to_list |].
  intros [k a]. rewrite elem_of_map_to_list, map_lookup_filter_Some, list_elem_of_filter, elem_of_map_to_list; tauto.
Qed.

Lemma shown_without (v : View) (m : gmap str CounterMap) : shown_flows v m ≡ₚ shown_flows (unhidden v) (without_hidden v m).
Proof.
  unfold shown_flows, without_hidden. rewrite map_to_list_without. induction (map_to_list m) as [| kv l IH]; [done |].
  rewrite filter_cons. cbn [mbind list_bind]. destruct (hidden_key v kv.1) eqn:E; case_decide; try congruence; [exact IH |].
  cbn [mbind list_bind]. change (hidden_key (unhidden v) kv.1) with false. by rewrite IH.
Qed.

Lemma groups_without (v : View) (m : gmap str CounterMap) : group_flows v m = group_flows (unhidden v) (without_hidden v m).
Proof.
  pose proof (group_flows_grouped v m) as G1. pose proof (group_flows_grouped (unhidden v) (without_hidden v m)) as G2.
  apply (grouped_unique v (shown_flows v m)); [exact G1 |].
  apply (grouped_perm v (shown_flows (unhidden v) (without_hidden v m))); [symmetry; apply shown_without |].
  destruct G2 as [A B C D E F G H]. by split.
Qed.

Lemma rows_without (v : View) (m : InterfaceTotals) : interface_rows v m ≡ₚ interface_rows (unhidden v) (without_hidden v m).
Proof.
  unfold interface_rows, without_hidden. rewrite !iter_perm, map_to_list_without. induction (map_to_list m) as [| kv l IH]; [done |].
  rewrite filter_cons. cbn [omap list_omap]. destruct (hidden_key v kv.1) eqn:E; [rewrite decide_False by congruence; exact IH |].
  rewrite decide_True by done. cbn [omap list_omap]. change (hidden_key (unhidden v) kv.1) with false. cbv iota. by rewrite IH.
Qed.

Lemma health_without (v : View) (registry : option ClientRegistry.t) :
  health_rows v registry ≡ₚ health_rows (unhidden v) (forget_hidden v <$> registry).
Proof.
  destruct registry as [r |]; [| done]. cbn. rewrite !iter_perm, map_to_list_without.
  assert (E : forall l : list (str * ClientHealthStats), filter (fun kv => hidden_client (unhidden v) kv.1 = false) l = l).
  { induction l as [| kv l IH]; [done |]. rewrite filter_cons, decide_True by done. by rewrite IH. }
  by rewrite E.
Qed.

(** C27: what hiding takes out of the summary, and what is left. The interface
    rows, all groups of flows from which the entity tables are cut, their totals,
    the address table and the health rows are those of a dashboard that hides nothing over
    a store that never saw the hidden interfaces, nor any interface of a hidden
    client, and over a registry without the health of hidden clients. An
    interface is listed exactly when it has been seen and neither it nor its
    client is hidden, with the packets and bytes of all retained days (modulo
    2^64). Hiding does not reach the other end of a flow: where a shown client
    has exchanged bytes with a hidden one, the row of the shown client still
    names the hidden one ([hidden_peer_named]). *)
Theorem summary_hides (v : View) (h : t) (ts : TrafficStats) (now : Z) (registry : option ClientRegistry.t) :
  hidden v = Some h ->
  let snap := (snapshot now ts).1 in
  let g := group_flows v (entityFlowsOut snap) in
  let g' := group_flows (unhidden v) (without_hidden v (entityFlowsOut snap)) in
  (forall key, hidden_key v key = isIfaceHidden h (split_key key).1 (split_key key).2) /\
  interface_rows v (totalsOut snap) ≡ₚ interface_rows (unhidden v) (without_hidden v (totalsOut snap)) /\
  g = g' /\
  health_rows v registry ≡ₚ health_rows (unhidden v) (forget_hidden v <$> registry) /\
  (forall client iface c, (client, iface, c) ∈ interface_rows v (totalsOut snap) <->
     isIfaceHidden h client iface = false /\ exists key, split_key key = (client, iface) /\ totalsOut snap !! key = Some c /\
       c = mkCounter (u64 (sum_total packets key (all_buckets ts))) (u64 (sum_total bytes key (all_buckets ts)))) /\
  (forall id s, (id, s) ∈ health_rows v registry -> isClientHidden h id = false).
Proof.
  intros Hh. cbv zeta. split_conj.
  - intros key. unfold hidden_key. by rewrite Hh.
  - apply rows_without.
  - apply groups_without.
  - apply health_without.
  - intros client iface c. rewrite interface_rows_elem. cbn [fst snd]. unfold hidden_key. rewrite Hh. split.
    + intros (key & Hk & Es & Eh). rewrite Es in Eh. split; [done |]. exists key. split; [done |]. split; [done |].
      rewrite <- snapshot_totals with (now := now). unfold at_key. by rewrite Hk.
    + intros (Eh & key & Es & Hk & _). exists key. by rewrite Es.
  - intros id s Hin. unfold health_rows in Hin. destruct registry as [r |]; [| by apply elem_of_nil in Hin].
    apply list_elem_of_filter in Hin as [Hid _]. unfold hidden_client in Hid. by rewrite Hh in Hid.
Qed.
End RowProps.

(** ** Example *)

(** One interface of one client, then hidden. *)
Definition sample_hidden : t := HiddenEntities.mk ∅ {[ ("c1" : str, "eth0" : str) ]}.
Definition sample_view : View := mkView ∅ ∅ ∅ (Some sample_hidden).
Definition open_view : View := mkView ∅ ∅ ∅ (Some (HiddenEntities.mk ∅ ∅)).

Lemma summary_hides_witness :
  interface_rows open_view (totalsOut (snapshot 90000 sample_state).1) <> [] /\
  (forall c, ("c1" : str, "eth0" : str, c) ∉ interface_rows sample_view (totalsOut (snapshot 90000 sample_state).1)).
Proof.
  split; [vm_compute; discriminate |]. intros c Hin.
  destruct (summary_hides sample_view sample_hidden sample_state 90000 None eq_refl) as (_ & _ & _ & _ & H & _).
  destruct (H "c1" "eth0" c) as [H1 _]. destruct (H1 Hin) as [Hf _]. assert (Ht : isIfaceHidden sample_hidden "c1" "eth0" = true) by (vm_compute; reflexivity).
  rewrite Ht in Hf. discriminate Hf.
Defined.

(** A hidden client with a nickname, and a flow of a shown client to it. *)
Lemma hidden_peer_named :
  let hid : str := repeat "a"%char 64 in
  let v := mkView {[ hid := ("laptop" : str) ]} ∅ ∅ (Some (HiddenEntities.mk {[ hid ]} ∅)) in
  let flows : gmap str CounterMap := {[ ("c2|eth0" : str) := {[ (("AS1 Example" : str), hid) := mkCounter 1 100 ]} ]} in
  summaryGroups (group_flows v flows) !! (("c2" : str), ("eth0" : str), ("AS1 Example" : str), ("laptop" : str)) = Some (mkCounter 1 100).
Proof. vm_compute. reflexivity. Qed.

(** What the store keeps of one packet, behind two keys. *)
Definition sample_flows : gmap str CounterMap :=
  let table := at_key ∅ (entityFlowsOut (snapshot 90000 sample_state).1) "c1|eth0" in
  <[("c1|eth0" : str) := table]> (<[("c2|wlan0" : str) := table]> ∅).

Lemma summary_groups_exact_witness :
  length (shown_flows open_view sample_flows) = 2%nat /\ length (shown_flows sample_view sample_flows) = 1%nat /\
  totalAllBytes (group_flows open_view sample_flows) = bytes (sum_flows (shown_flows open_view sample_flows)).
Proof.
  split; [vm_compute; reflexivity |]. split; [vm_compute; reflexivity |].
  destruct (summary_groups_exact open_view sample_flows) as (_ & G & _). exact (g_total _ _ _ G).
Defined.
