(* ===== verification/SummaryJson.v ===== *)
(** The text of the dashboard's summary ([web_dashboard.cpp],
    [buildSummaryJson]) from the rows of [Summary], the client health, the
    rejected clients and the update manifest. The theorem says that whatever
    strings clients send, the text is JSON and its value is the summary. *)

From S2P Require Import Prelude CppString Wire Health HttpUtil Json Passkeys TrafficStats Registry IpRange UpdateDir Summary.
Import HiddenEntities.
Local Open Scope Z_scope.

(* server_version.hpp:7-7 kServerVersion *)
Definition kServerVersion : str := "3.0.0.0".

(** What the handler passes: the stores, the clock read twice, the flag of the
    demo server. *)
Record Inputs := mkInputs {
  i_snapshot : Snapshot;
  i_windowStart : Z;
  i_nicknames : gmap str str;
  i_registry : option ClientRegistry.t;
  i_serverIps : option MonitoringIpSet.t;
  i_dashboardIps : option MonitoringIpSet.t;
  i_resolver : option Resolver;
  i_hidden : option t;
  i_maxEntityLines : nat;
  i_manifest : list UpdateManifestEntry;
  i_demoEnabled : bool;
  i_now : Z;
  i_nowHealth : Z
}.

(** ** Text *)

Definition str_field (k v : str) : str := quoted k ++ ":"%char :: quoted (jsonEsc v).
Definition num_field (k : str) (z : Z) : str := quoted k ++ ":"%char :: print_int z.
Definition bool_field (k : str) (b : bool) : str := quoted k ++ ":"%char :: bool_text b.

(** A comma between fields. *)
Definition row_text (fields : list str) : str := LF :: "    {" ++ items_text true fields ++ "}".

(* web_dashboard.cpp:863-873 buildSummaryJson, interface row *)
Definition interface_text (nicknames : gmap str str) (r : str * str * Counter) : str :=
  row_text [str_field "client" (displayClient nicknames r.1.1); str_field "client_id" r.1.1; str_field "iface" r.1.2;
            num_field "packets" (packets r.2); num_field "bytes" (bytes r.2)].

(* web_dashboard.cpp:1099-1105 buildSummaryJson, emitEntityRows *)
Definition entity_text (r : SummaryKey * Counter) : str :=
  row_text [str_field "client" r.1.1.1.1; str_field "iface" r.1.1.1.2; num_field "packets" (packets r.2); num_field "bytes" (bytes r.2);
            str_field "src_entity" r.1.1.2; str_field "dst_entity" r.1.2].

(* web_dashboard.cpp:1171-1177 buildSummaryJson, LAN labels *)
Definition lan_labels (ip : str) : str * str :=
  match parseReporterScoped ip with
  | Some (scope, lanIp) => (lanIp, if decide (scope = "null") then ("no internet" : str) else scope)
  | None => (ip, [])
  end.

(* web_dashboard.cpp:1171-1190 buildSummaryJson, LAN row *)
Definition lan_text (r : str * LanStats) : str :=
  let (displayIp, reportedBy) := lan_labels r.1 in
  row_text [str_field "ip" displayIp; str_field "reported_by" reportedBy; num_field "out_packets" (outPkts r.2);
            num_field "out_bytes" (outBytes r.2); num_field "in_packets" (inPkts r.2); num_field "in_bytes" (inBytes r.2)].

(* web_dashboard.cpp:1217-1218 buildSummaryJson, stale *)
Definition is_stale (now : Z) (hs : ClientHealthStats) : bool := (0 <=? reportedAtSec hs) && (90 <? now - reportedAtSec hs).

(* web_dashboard.cpp:1215-1256 buildSummaryJson, health row *)
Definition health_text (nicknames : gmap str str) (now : Z) (r : str * ClientHealthStats) : str :=
  let (id, hs) := r in
  row_text ([str_field "client" (displayClient nicknames id); str_field "client_id" id;
             str_field "version" (if decide (version hs = []) then ("?" : str) else version hs); str_field "platform" (platform hs);
             num_field "pcap_recv" (pcapRecv hs); num_field "pcap_drop" (pcapDrop hs);
             quoted "pcap_drop_pct" ++ ":"%char :: quoted (fmtPct (pcapDrop hs) (u64 (pcapRecv hs + pcapDrop hs)));
             num_field "buf_drop" (bufDrop hs); quoted "buf_drop_pct" ++ ":"%char :: quoted (fmtPct (bufDrop hs) (pcapRecv hs));
             num_field "reported_at" (reportedAtSec hs); bool_field "stale" (is_stale now hs)] ++
            (if 0 <? wireProtoVersion hs then
               [num_field "wire_proto_version" (wireProtoVersion hs); bool_field "wire_proto_ok" (wireProtoVersion hs =? kWireProtoVersion)]
             else []) ++
            (if 0 <? aggIntervalMs hs then [num_field "agg_interval_ms" (aggIntervalMs hs); num_field "agg_flows" (aggFlows hs)] else [])).

(* web_dashboard.cpp:1275-1281 buildSummaryJson, rejected client *)
Definition rejection_text (r : ClientRegistry.ProtoRejectionRecord) : str :=
  row_text [str_field "peer_ip" (ClientRegistry.peerIp r); num_field "attempted_auth_version" (ClientRegistry.attemptedVersion r);
            num_field "at" (ClientRegistry.atSec r)].

(* web_dashboard.cpp:1295-1303 buildSummaryJson, manifest entry *)
Definition manifest_text (m : UpdateManifestEntry) : str :=
  row_text [str_field "platform" (m_platform m); str_field "version" (m_version m); str_field "filename" (m_filename m);
            str_field "sha256" (sha256hex m)].

(* web_dashboard.cpp:1121-1127 buildSummaryJson, totals *)
Definition totals_text (c : Counter) (all : Z) : str :=
  "{" ++ num_field "packets" (packets c) ++ "," ++ num_field "bytes" (bytes c) ++ "," ++
  quoted "pct_of_total_bytes" ++ ":"%char :: quoted (fmtPct (bytes c) all) ++ "}".

Definition key_text (k : str) : str := ","%char :: LF :: "  " ++ quoted k ++ ": ".

Definition list_text (rows : list str) : str := "[" ++ items_text true rows ++ LF :: "  ]".

Section Text.
Context `{IN : Inet} `{SH : StdHash} (i : Inputs).

(* web_dashboard.cpp:719-754 buildSummaryJson, address sets *)
Definition view : View :=
  let ips o := match o with Some s => MonitoringIpSet.ipSet s | None => ∅ end in
  mkView (i_nicknames i) (addEntityStrings (i_resolver i) (ips (i_serverIps i))) (addEntityStrings (i_resolver i) (ips (i_dashboardIps i))) (i_hidden i).

Definition groups : Groups := group_flows view (entityFlowsOut (i_snapshot i)).

Definition rejections : list ClientRegistry.ProtoRejectionRecord :=
  match i_registry i with Some r => ClientRegistry.protoRejections r | None => [] end.

(* web_dashboard.cpp:704-1311 buildSummaryJson *)
Definition buildSummaryJson : str :=
  let rows := entity_rows (i_maxEntityLines i) in
  let all := totalAllBytes groups in
  "{" ++ LF :: "  " ++ quoted "api_version" ++ ": " ++ print_int kApiVersion ++
  key_text "server_version" ++ quoted kServerVersion ++
  key_text "server_wire_proto_version" ++ print_int kWireProtoVersion ++
  key_text "demo_server_enabled" ++ bool_text (i_demoEnabled i) ++
  key_text "window_start" ++ print_int (i_windowStart i) ++
  key_text "generated_at" ++ print_int (i_now i) ++
  key_text "interfaces" ++ list_text (interface_text (i_nicknames i) <$> interface_rows view (totalsOut (i_snapshot i))) ++
  key_text "entities" ++ list_text (entity_text <$> (rows (summaryGroups groups)).1) ++
  key_text "truncated" ++ bool_text (rows (summaryGroups groups)).2 ++
  key_text "entities_internet" ++ list_text (entity_text <$> (rows (internetGroups groups)).1) ++
  key_text "truncated_internet" ++ bool_text (rows (internetGroups groups)).2 ++
  key_text "entities_local" ++ list_text (entity_text <$> (rows (localGroups groups)).1) ++
  key_text "truncated_local" ++ bool_text (rows (localGroups groups)).2 ++
  key_text "local_summary" ++ totals_text (localTotal groups) all ++
  key_text "overhead_entities" ++ list_text (entity_text <$> (rows (overheadGroups groups)).1) ++
  key_text "truncated_overhead" ++ bool_text (rows (overheadGroups groups)).2 ++
  key_text "overhead_summary" ++ totals_text (overheadTotal groups) all ++
  key_text "entities_lan" ++ list_text (lan_text <$> (lan_rows (i_maxEntityLines i) (lanMap groups)).1) ++
  key_text "truncated_lan" ++ bool_text (lan_rows (i_maxEntityLines i) (lanMap groups)).2 ++
  key_text "client_health" ++ list_text (health_text (i_nicknames i) (i_nowHealth i) <$> health_rows view (i_registry i)) ++
  key_text "proto_rejected_clients" ++ list_text (rejection_text <$> rejections) ++
  key_text "update_manifest" ++ list_text (manifest_text <$> i_manifest i) ++
  LF :: "}" ++ [LF].
End Text.

(** ** The document *)

Definition field (k : str) (d : Doc) : str * str * str * Doc := ([], k, [], d).
Definition row_doc (fields : list (str * str * str * Doc)) : str * Doc := (LF :: "    ", DObj fields []).
Definition root_field (k : str) (d : Doc) : str * str * str * Doc := (LF :: "  ", k, " " : str, d).
Definition list_doc (rows : list (str * Doc)) : Doc := DArr rows (LF :: "  ").

Definition interface_doc (nicknames : gmap str str) (r : str * str * Counter) : str * Doc :=
  row_doc [field "client" (DStr (displayClient nicknames r.1.1)); field "client_id" (DStr r.1.1); field "iface" (DStr r.1.2);
           field "packets" (DNum (packets r.2)); field "bytes" (DNum (bytes r.2))].

Definition entity_doc (r : SummaryKey * Counter) : str * Doc :=
  row_doc [field "client" (DStr r.1.1.1.1); field "iface" (DStr r.1.1.1.2); field "packets" (DNum (packets r.2)); field "bytes" (DNum (bytes r.2));
           field "src_entity" (DStr r.1.1.2); field "dst_entity" (DStr r.1.2)].

Definition lan_doc (r : str * LanStats) : str * Doc :=
  row_doc [field "ip" (DStr (lan_labels r.1).1); field "reported_by" (DStr (lan_labels r.1).2); field "out_packets" (DNum (outPkts r.2));
           field "out_bytes" (DNum (outBytes r.2)); field "in_packets" (DNum (inPkts r.2)); field "in_bytes" (DNum (inBytes r.2))].

Definition health_doc (nicknames : gmap str str) (now : Z) (r : str * ClientHealthStats) : str * Doc :=
  let hs := r.2 in
  row_doc ([field "client" (DStr (displayClient nicknames r.1)); field "client_id" (DStr r.1);
            field "version" (DStr (if decide (version hs = []) then ("?" : str) else version hs)); field "platform" (DStr (platform hs));
            field "pcap_recv" (DNum (pcapRecv hs)); field "pcap_drop" (DNum (pcapDrop hs));
            field "pcap_drop_pct" (DStr (fmtPct (pcapDrop hs) (u64 (pcapRecv hs + pcapDrop hs))));
            field "buf_drop" (DNum (bufDrop hs)); field "buf_drop_pct" (DStr (fmtPct (bufDrop hs) (pcapRecv hs)));
            field "reported_at" (DNum (reportedAtSec hs)); field "stale" (DBool (is_stale now hs))] ++
           (if 0 <? wireProtoVersion hs then
              [field "wire_proto_version" (DNum (wireProtoVersion hs)); field "wire_proto_ok" (DBool (wireProtoVersion hs =? kWireProtoVersion))]
            else []) ++
           (if 0 <? aggIntervalMs hs then [field "agg_interval_ms" (DNum (aggIntervalMs hs)); field "agg_flows" (DNum (aggFlows hs))] else [])).

Definition rejection_doc (r : ClientRegistry.ProtoRejectionRecord) : str * Doc :=
  row_doc [field "peer_ip" (DStr (ClientRegistry.peerIp r)); field "attempted_auth_version" (DNum (ClientRegistry.attemptedVersion r));
           field "at" (DNum (ClientRegistry.atSec r))].

Definition manifest_doc (m : UpdateManifestEntry) : str * Doc :=
  row_doc [field "platform" (DStr (m_platform m)); field "version" (DStr (m_version m)); field "filename" (DStr (m_filename m));
           field "sha256" (DStr (sha256hex m))].

Definition totals_doc (c : Counter) (all : Z) : Doc :=
  DObj [field "packets" (DNum (packets c)); field "bytes" (DNum (bytes c)); field "pct_of_total_bytes" (DStr (fmtPct (bytes c) all))] [].

Section Document.
Context `{IN : Inet} `{SH : StdHash} (i : Inputs).

Definition summary_doc : Doc :=
  let g := groups i in
  let rows := entity_rows (i_maxEntityLines i) in
  let all := totalAllBytes g in
  DObj [
    root_field "api_version" (DNum kApiVersion);
    root_field "server_version" (DStr kServerVersion);
    root_field "server_wire_proto_version" (DNum kWireProtoVersion);
    root_field "demo_server_enabled" (DBool (i_demoEnabled i));
    root_field "window_start" (DNum (i_windowStart i));
    root_field "generated_at" (DNum (i_now i));
    root_field "interfaces" (list_doc (interface_doc (i_nicknames i) <$> interface_rows (view i) (totalsOut (i_snapshot i))));
    root_field "entities" (list_doc (entity_doc <$> (rows (summaryGroups g)).1));
    root_field "truncated" (DBool (rows (summaryGroups g)).2);
    root_field "entities_internet" (list_doc (entity_doc <$> (rows (internetGroups g)).1));
    root_field "truncated_internet" (DBool (rows (internetGroups g)).2);
    root_field "entities_local" (list_doc (entity_doc <$> (rows (localGroups g)).1));
    root_field "truncated_local" (DBool (rows (localGroups g)).2);
    root_field "local_summary" (totals_doc (localTotal g) all);
    root_field "overhead_entities" (list_doc (entity_doc <$> (rows (overheadGroups g)).1));
    root_field "truncated_overhead" (DBool (rows (overheadGroups g)).2);
    root_field "overhead_summary" (totals_doc (overheadTotal g) all);
    root_field "entities_lan" (list_doc (lan_doc <$> (lan_rows (i_maxEntityLines i) (lanMap g)).1));
    root_field "truncated_lan" (DBool (lan_rows (i_maxEntityLines i) (lanMap g)).2);
    root_field "client_health" (list_doc (health_doc (i_nicknames i) (i_nowHealth i) <$> health_rows (view i) (i_registry i)));
    root_field "proto_rejected_clients" (list_doc (rejection_doc <$> rejections i));
    root_field "update_manifest" (list_doc (manifest_doc <$> i_manifest i)) ] [LF].
End Document.

(** ** Lemmas *)

Lemma fmtPct_plain n d : jsonEsc (fmtPct n d) = fmtPct n d.
Proof.
  apply plain_esc. unfold plain_text, fmtPct. destruct (d =? 0); [by apply (bool_decide_unpack _); vm_compute |].
  assert (D : forall z, Forall (fun c => c <> DQUOTE /\ c <> BSLASH /\ 32 <= byte_val c) (to_string z)).
  { intros z. eapply Forall_impl; [apply to_string_digits |]. intros c Hc.
    assert (G : forall c, implb (is_digit c) (negb (bool_decide (c = DQUOTE)) && negb (bool_decide (c = BSLASH)) && (32 <=? byte_val c)) = true)
      by (apply byte_forall; vm_compute; reflexivity).
    specialize (G c). rewrite Hc in G. cbn [implb] in G. bool_to_prop. done. }
  apply Forall_app. split; [apply D |]. apply Forall_cons. split; [by vm_compute |]. apply Forall_app. split; [| apply D].
  destruct (_ <? 10); [by apply (bool_decide_unpack _); vm_compute | apply List.Forall_nil].
Qed.

Lemma row_doc_text (fs : list (str * str * str * Doc)) : item_text (row_doc fs) = row_text (member_text <$> fs).
Proof. reflexivity. Qed.

Lemma interface_doc_text n r : item_text (interface_doc n r) = interface_text n r.
Proof. reflexivity. Qed.

Lemma entity_doc_text r : item_text (entity_doc r) = entity_text r.
Proof. reflexivity. Qed.

Lemma lan_doc_text r : item_text (lan_doc r) = lan_text r.
Proof. unfold lan_doc, lan_text. destruct (lan_labels r.1). reflexivity. Qed.

Lemma rejection_doc_text r : item_text (rejection_doc r) = rejection_text r.
Proof. reflexivity. Qed.

Lemma manifest_doc_text m : item_text (manifest_doc m) = manifest_text m.
Proof. reflexivity. Qed.

Lemma pct_field k n d : member_text (field k (DStr (fmtPct n d))) = quoted k ++ ":"%char :: quoted (fmtPct n d).
Proof. unfold member_text, field. cbn [fst snd render app]. by rewrite fmtPct_plain. Qed.

Lemma health_doc_text n now r : item_text (health_doc n now r) = health_text n now r.
Proof.
  destruct r as [id hs]. unfold health_doc, health_text. cbn [fst snd]. rewrite row_doc_text, !fmap_app. cbn [fmap list_fmap]. rewrite !pct_field.
  do 2 f_equal. f_equal; [by destruct (0 <? wireProtoVersion hs) | by destruct (0 <? aggIntervalMs hs)].
Qed.

Lemma totals_doc_text c all : render (totals_doc c all) = totals_text c all.
Proof.
  unfold totals_doc. rewrite render_obj. cbn [fmap list_fmap]. rewrite pct_field. unfold totals_text. cbn [items_text app].
  repeat (rewrite <- app_assoc; cbn [app]). reflexivity.
Qed.

Lemma list_doc_text {A} (doc : A -> str * Doc) (text : A -> str) (l : list A) :
  (forall x, item_text (doc x) = text x) -> render (list_doc (doc <$> l)) = list_text (text <$> l).
Proof.
  intros H. unfold list_doc, list_text. rewrite render_arr. rewrite <- list_fmap_compose.
  rewrite (list_fmap_ext (item_text ∘ doc) text) by (intros; apply H). reflexivity.
Qed.

Lemma root_text k d rest :
  items_text false (member_text (root_field k d) :: rest) = key_text k ++ render d ++ items_text false rest.
Proof. cbn [items_text]. unfold member_text, root_field, key_text. cbn [fst snd app]. repeat (rewrite <- app_assoc; cbn [app]). reflexivity. Qed.

Lemma root_first k d rest :
  items_text true (member_text (root_field k d) :: rest) = LF :: "  " ++ quoted k ++ ": " ++ render d ++ items_text false rest.
Proof. cbn [items_text]. unfold member_text, root_field. cbn [fst snd app]. repeat (rewrite <- app_assoc; cbn [app]). reflexivity. Qed.

Section Properties.
Context `{IN : Inet} `{SH : StdHash}.

Lemma summary_text (i : Inputs) : buildSummaryJson i = render (summary_doc i) ++ [LF].
Proof.
  unfold summary_doc. cbv zeta. rewrite render_obj. cbn [fmap list_fmap]. rewrite root_first. rewrite !root_text.
  rewrite !(list_doc_text entity_doc entity_text _ entity_doc_text).
  rewrite (list_doc_text (interface_doc _) _ _ (interface_doc_text _)), (list_doc_text lan_doc _ _ lan_doc_text),
    (list_doc_text (health_doc _ _) _ _ (health_doc_text _ _)), (list_doc_text rejection_doc _ _ rejection_doc_text),
    (list_doc_text manifest_doc _ _ manifest_doc_text), !totals_doc_text.
  cbn [items_text render]. unfold buildSummaryJson. cbv zeta. cbn [app]. repeat (rewrite <- app_assoc; cbn [app]). reflexivity.
Qed.
End Properties.

Lemma row_ok fs : Forall (fun m : str * str * str * Doc => ws m.1.1.1 /\ ident m.1.1.2 /\ ws m.1.2 /\ doc_ok m.2) fs -> ws (row_doc fs).1 /\ doc_ok (row_doc fs).2.
Proof. intros H. split; [literal_ok |]. apply obj_ok; [apply List.Forall_nil | done]. Qed.

Lemma list_ok {A} (doc : A -> str * Doc) (l : list A) : (forall x, ws (doc x).1 /\ doc_ok (doc x).2) -> doc_ok (list_doc (doc <$> l)).
Proof. intros H. apply arr_ok; [literal_ok |]. apply Forall_fmap, Forall_forall. intros x _. apply H. Qed.

Lemma totals_ok c all : doc_ok (totals_doc c all).
Proof. apply obj_ok; [apply List.Forall_nil |]. members_ok; exact I. Qed.

Lemma health_ok n now r : ws (health_doc n now r).1 /\ doc_ok (health_doc n now r).2.
Proof.
  apply row_ok. rewrite !Forall_app. split; [members_ok; exact I |].
  split; [destruct (0 <? wireProtoVersion _) | destruct (0 <? aggIntervalMs _)]; members_ok; exact I.
Qed.

Section JsonTheorem.
Context `{IN : Inet} `{SH : StdHash}.

Lemma summary_doc_ok (i : Inputs) : doc_ok (summary_doc i).
Proof.
  unfold summary_doc. cbv zeta. apply obj_ok; [literal_ok |].
  members_ok; try exact I; try apply totals_ok; apply list_ok; intros x; try apply health_ok; apply row_ok; members_ok; exact I.
Qed.

(** C26: the summary is JSON whatever strings clients, networks and file names
    bring in: a strict reader takes the whole text and gets back exactly the
    rows of the summary, string by string, less control characters that have
    no place in them. *)
Theorem summary_is_json (i : Inputs) :
  parse_json (buildSummaryJson i) = Some (value (summary_doc i)).
Proof.
  rewrite summary_text. apply (parse_render (summary_doc i) [] [LF]); [apply summary_doc_ok | apply List.Forall_nil | literal_ok].
Qed.
End JsonTheorem.
