(* ===== verification/SiwaStore.v ===== *)
(** Sign in with Apple, the identities ([siwa.hpp], [siwa.cpp]): the readers of
    token and key documents, e-mail comparison, and the store of admin
    identities with its file ([SiwaAdminStore]). The theorems say that a
    pinned e-mail address no longer admits anybody else, and that a saved
    store is loaded back, except for records without an address. *)

From S2P Require Import Prelude CppString HttpUtil Passkeys.
Local Open Scope Z_scope.

(** ** Field readers *)

Definition json_space : ascii -> bool := char_in [SP; TAB; LF; CR].

(** The value up to its closing quote or the end; an escape stands for the
    escaped byte, and a final backslash for itself. *)
(* siwa.hpp:143-149 jwtGetStr, loop *)
Fixpoint str_value (s : str) : str :=
  match s with
  | [] => []
  | c :: s' =>
      if decide (c = DQUOTE) then []
      else if decide (c = BSLASH) then
        match s' with
        | [] => [c]
        | d :: s'' => d :: str_value s''
        end
      else c :: str_value s'
  end.

Definition needle (key : str) : str := quoted key ++ [":"%char].

(* siwa.hpp:132-150 jwtGetStr *)
Definition jwtGetStr (json key : str) : str :=
  match find_str (needle key) json with
  | None => []
  | Some pos =>
      match trim_front json_space (substr_from json (pos + length (needle key))) with
      | q :: v => if decide (q = DQUOTE) then str_value v else []
      | [] => []
      end
  end.

(** [long long] accumulation; [None] is signed overflow. *)
(* siwa.hpp:161-165 jwtGetLong, digits *)
Fixpoint long_digits (v : Z) (s : str) : option Z :=
  match s with
  | [] => Some v
  | c :: s =>
      if is_digit c then
        let v := v * 10 + digit_val c in
        if INT64_MAX <? v then None else long_digits v s
      else Some v
  end.

(* siwa.hpp:153-167 jwtGetLong *)
Definition jwtGetLong (json key : str) : option Z :=
  match find_str (needle key) json with
  | None => Some 0
  | Some pos =>
      match trim_front (char_in [SP]) (substr_from json (pos + length (needle key))) with
      | [] => Some 0
      | c :: s =>
          if decide (c = "-"%char) then Z.opp <$> long_digits 0 s else long_digits 0 (c :: s)
      end
  end.

(** ** Identities *)

(* siwa.hpp:46-50 SiwaAdminIdentity *)
Record SiwaAdminIdentity := mkId { email : str; sub : str }.

(** [CRYPTO_memcmp] of the lowered texts. *)
(* siwa.hpp:236-249 siwaEmailsEqual *)
Definition siwaEmailsEqual (a b : str) : bool :=
  (length a =? length b)%nat && bool_decide (tolower <$> a = tolower <$> b).

Fixpoint find_from {A} (f : A -> bool) (i : nat) (l : list A) : option nat :=
  match l with
  | [] => None
  | x :: l => if f x then Some i else find_from f (S i) l
  end.

(** [None] for -1. *)
(* siwa.hpp:257-269 matchAdminIdentity *)
Definition matchAdminIdentity (ids : list SiwaAdminIdentity) (s e : str) : option nat :=
  match find_from (fun id => negb (bool_decide (sub id = [])) && bool_decide (sub id = s)) 0 ids with
  | Some i => Some i
  | None =>
      if decide (e = []) then None
      else find_from (fun id => bool_decide (sub id = []) && siwaEmailsEqual (email id) e) 0 ids
  end.

(** ** The store *)

(* siwa.cpp:31-46 splitCsv *)
Definition splitCsv (csv : str) (lowercase : bool) : list str :=
  omap (fun tok =>
    let tok := trim_back (char_in [SP]) (trim_front (char_in [SP]) tok) in
    if decide (tok = []) then None else Some (if lowercase then tolower <$> tok else tok))
    (split_char "," csv).

(* siwa.cpp:96-97 load, padding *)
Definition list_pad : ascii -> bool := char_in [SP; LF; CR; ","%char].

(** The objects of an array. Every round drops a byte; the fuel is the length. *)
(* siwa.cpp:94-111 load, loop *)
Fixpoint objects (fuel : nat) (s : str) : list str :=
  match fuel with
  | O => []
  | S fuel =>
      match trim_front list_pad s with
      | [] => []
      | c :: s' =>
          if decide (c = "]"%char) then []
          else if decide (c = "{"%char) then
            match find_char "}" (c :: s') with
            | None => []
            | Some e => substr (c :: s') 0 (S e) :: objects fuel (substr_from (c :: s') (S e))
            end
          else objects fuel s'
      end
  end.

(* siwa.cpp:103-109 load, record *)
Definition read_identity (obj : str) : option SiwaAdminIdentity :=
  let id := mkId (tolower <$> jwtGetStr obj "email") (jwtGetStr obj "sub") in
  if decide (email id = []) then None else Some id.

(** The file's text, [None] when it does not open. *)
(* siwa.cpp:81-112 SiwaAdminStore::load *)
Definition load (filePath : str) (file : option str) : list SiwaAdminIdentity :=
  if decide (filePath = []) then []
  else match file with
       | None => []
       | Some json =>
           match find_char "[" json with
           | None => []
           | Some p => omap read_identity (objects (length json) (substr_from json (S p)))
           end
       end.

Definition identity_text (id : SiwaAdminIdentity) : str :=
  "  {" ++ quoted "email" ++ ":"%char :: quoted (email id) ++ "," ++ quoted "sub" ++ ":"%char :: quoted (sub id) ++ "}".

Fixpoint identities_text (ids : list SiwaAdminIdentity) : str :=
  match ids with
  | [] => []
  | [id] => identity_text id
  | id :: ids => identity_text id ++ ","%char :: LF :: identities_text ids
  end.

Definition store_text (ids : list SiwaAdminIdentity) : str := "[" ++ LF :: identities_text ids ++ LF :: "]" ++ [LF].

(** The file afterwards. *)
(* siwa.cpp:115-137 saveSnapshot *)
Definition saveSnapshot (filePath : str) (opens : bool) (ids : list SiwaAdminIdentity) (file : option str) : option str :=
  if decide (filePath = []) then file
  else if negb opens then file
  else Some (store_text ids).

(* siwa.cpp:56-63 SiwaAdminStore, e-mail entries *)
Definition seed_email (ids : list SiwaAdminIdentity) (e : str) : list SiwaAdminIdentity :=
  if existsb (fun id => siwaEmailsEqual (email id) e) ids then ids else ids ++ [mkId e []].

(* siwa.cpp:68-75 SiwaAdminStore, subject entries *)
Definition seed_sub (ids : list SiwaAdminIdentity) (s : str) : list SiwaAdminIdentity :=
  if existsb (fun id => bool_decide (sub id = s)) ids then ids else ids ++ [mkId [] s].

(** The identities and the file after construction. *)
(* siwa.cpp:48-79 SiwaAdminStore::SiwaAdminStore *)
Definition SiwaAdminStore_init (filePath configEmails configSubs : str) (opens : bool) (file : option str)
  : list SiwaAdminIdentity * option str :=
  let ids := foldl seed_email (load filePath file) (splitCsv configEmails true) in
  let ids := foldl seed_sub ids (splitCsv configSubs false) in
  (ids, saveSnapshot filePath opens ids file).

(* siwa.cpp:151-173 SiwaAdminStore::matchAndPin *)
Definition matchAndPin (filePath : str) (opens : bool) (s e : str) (ids : list SiwaAdminIdentity) (file : option str)
  : list SiwaAdminIdentity * option str * bool :=
  match matchAdminIdentity ids s e with
  | None => (ids, file, false)
  | Some i =>
      match ids !! i with
      | Some id =>
          if decide (sub id = []) then
            let ids := <[i := mkId (email id) s]> ids in (ids, saveSnapshot filePath opens ids file, true)
          else (ids, file, true)
      | None => (ids, file, true)
      end
  end.

(** ** Lemmas: the file *)

Definition id_fields (id : SiwaAdminIdentity) : list (str * jvalue) :=
  [("email" : str, JStr (email id)); ("sub" : str, JStr (sub id))].

(** Texts that need no escape and contain no brace, addresses in lower case. *)
Definition id_ok (id : SiwaAdminIdentity) : Prop :=
  plain_text (email id) /\ plain_text (sub id) /\ ("}"%char ∉ email id) /\ ("}"%char ∉ sub id) /\ tolower <$> email id = email id.

Definition object_of (id : SiwaAdminIdentity) : str := object_text (id_fields id) [].

Lemma identity_text_object id : id_ok id -> identity_text id = "  " ++ object_of id.
Proof.
  intros (He & Hs & _). unfold identity_text, object_of, object_text, id_fields, fields_text, field_text. cbn [fst snd value_text].
  rewrite !plain_esc by done. unfold quoted. cbn [app]. repeat (rewrite <- app_assoc; cbn [app]). reflexivity.
Qed.

Lemma id_fields_ok id : object_ok (id_fields id).
Proof. split; [by apply (bool_decide_unpack _); vm_compute | repeat constructor; by apply (bool_decide_unpack _); vm_compute]. Qed.

Lemma str_value_plain v r : plain_text v -> str_value (v ++ DQUOTE :: r) = v.
Proof.
  intros H. induction H as [| c v (Hd & Hb & _) _ IH]; cbn [app str_value]; [done |].
  by rewrite !decide_False, IH by done.
Qed.

Lemma jwtGetStr_field fs k v tail :
  object_ok fs -> (k, JStr v) ∈ fs -> plain_text v -> jwtGetStr (object_text fs tail) k = v.
Proof.
  intros Hok Hin Hv. destruct (object_find fs k _ tail Hok Hin) as (pos & d & r & Hd & Ef & Edr).
  unfold jwtGetStr, needle. rewrite Ef. unfold substr_from. rewrite Edr. cbn [value_text].
  rewrite plain_esc, quoted_app by done. rewrite trim_front_id by done. by rewrite decide_True, str_value_plain.
Qed.

Lemma read_identity_object id :
  id_ok id -> read_identity (object_of id) = if decide (email id = []) then None else Some id.
Proof.
  intros (He & Hs & _ & _ & Hl). unfold read_identity, object_of.
  rewrite (jwtGetStr_field _ "email" (email id)) by (apply id_fields_ok || done || left).
  rewrite (jwtGetStr_field _ "sub" (sub id)) by (apply id_fields_ok || done || (right; left)).
  rewrite Hl. cbn [email]. by destruct id.
Qed.

(** An object runs to its closing brace, the only one in it. *)
Lemma object_brace id : id_ok id ->
  exists body, object_of id = "{"%char :: body ++ ["}"%char] /\ "}"%char ∉ body.
Proof.
  intros (He & Hs & Hbe & Hbs & _).
  exists (quoted "email" ++ [":"%char; DQUOTE] ++ email id ++ [DQUOTE; ","%char] ++ quoted "sub" ++ [":"%char; DQUOTE] ++ sub id ++ [DQUOTE]).
  split.
  - unfold object_of, object_text, id_fields, fields_text, field_text. cbn [fst snd value_text].
    rewrite !plain_esc by done. unfold quoted. cbn [app]. repeat (rewrite <- app_assoc; cbn [app]). reflexivity.
  - rewrite !not_elem_of_app. split_conj; try done; by apply (bool_decide_unpack _); vm_compute.
Qed.

Lemma objects_object fuel id r :
  id_ok id -> objects (S fuel) (identity_text id ++ r) = object_of id :: objects fuel r.
Proof.
  intros Hid. rewrite identity_text_object by done. destruct (object_brace id Hid) as (body & E & Hb).
  rewrite E. cbn [objects]. assert (Et : trim_front list_pad (("  " ++ "{"%char :: body ++ ["}"%char]) ++ r) = "{"%char :: (body ++ ["}"%char]) ++ r) by reflexivity.
  rewrite Et, decide_False, decide_True by done.
  assert (Ef : find_char "}" ("{"%char :: (body ++ ["}"%char]) ++ r) = Some (S (length body))).
  { rewrite <- app_assoc. cbn [app]. apply (find_char_app _ ("{"%char :: body)). by apply not_elem_of_cons. }
  assert (El : length ("{"%char :: body ++ ["}"%char]) = S (S (length body))) by (cbn; rewrite length_app; cbn; lia).
  rewrite Ef. change ("{"%char :: (body ++ ["}"%char]) ++ r) with (("{"%char :: body ++ ["}"%char]) ++ r).
  unfold substr, substr_from. rewrite drop_0, <- El, take_app_length, drop_app_length. done.
Qed.

Lemma objects_comma fuel r : objects fuel (","%char :: LF :: r) = objects fuel r.
Proof. by destruct fuel. Qed.

Lemma objects_all fuel ids :
  Forall id_ok ids -> (length ids < fuel)%nat ->
  objects fuel (LF :: identities_text ids ++ LF :: "]" ++ [LF]) = object_of <$> ids.
Proof.
  intros H Hf. assert (Elf : forall f s, objects f (LF :: s) = objects f s) by (intros [| f] s; done). rewrite Elf.
  revert fuel Hf. induction H as [| id ids Hid Hids IH]; intros fuel Hf; cbn [length] in Hf.
  - destruct fuel; [lia | done].
  - destruct fuel as [| fuel]; [lia |]. destruct ids as [| id2 ids]; cbn [identities_text].
    + rewrite objects_object by done. destruct fuel; done.
    + rewrite <- app_assoc, objects_object by done. cbn [app]. rewrite objects_comma. cbn [fmap list_fmap]. f_equal.
      apply IH. lia.
Qed.

Lemma identities_text_length ids : (length ids <= length (identities_text ids))%nat.
Proof.
  induction ids as [| id ids IH]; [done |].
  assert (0 < length (identity_text id))%nat by (unfold identity_text; rewrite length_app; cbn; lia).
  destruct ids as [| id2 ids]; cbn [identities_text length] in *; rewrite ?length_app; cbn [length]; lia.
Qed.

(** The admin file is reloaded, but not entirely: what a save wrote, a
    restart reads back in order, except that every record without an e-mail
    address, the form in which configured subject identifiers are kept, is
    lost. *)
Lemma admins_reload (filePath : str) ids file :
  filePath <> [] -> Forall id_ok ids ->
  load filePath (saveSnapshot filePath true ids file) = filter (fun id => email id <> []) ids.
Proof.
  intros Hp Hids. unfold load, saveSnapshot. rewrite !decide_False by done. cbn [negb].
  assert (E : find_char "[" (store_text ids) = Some 0%nat /\
    substr_from (store_text ids) 1 = LF :: identities_text ids ++ LF :: "]" ++ [LF]) by done.
  destruct E as [-> ->]. rewrite objects_all; [| done |].
  2: { unfold store_text. pose proof (identities_text_length ids). rewrite length_app. cbn [length]. rewrite length_app. cbn. lia. }
  induction Hids as [| id ids Hid Hids IH]; [done |]. cbn [fmap list_fmap omap list_omap].
  rewrite read_identity_object by done. rewrite filter_cons. destruct (decide (email id = [])) as [E | E].
  - rewrite decide_False by tauto. apply IH.
  - rewrite decide_True by done. by rewrite IH.
Qed.

(** ** Admission *)

(** Logins: whether the file can be written, subject and address. *)
Fixpoint logins (filePath : str) (ls : list (bool * str * str)) (ids : list SiwaAdminIdentity) (file : option str)
  : list SiwaAdminIdentity * option str * list bool :=
  match ls with
  | [] => (ids, file, [])
  | (opens, s, e) :: ls =>
      let '(ids, file, ok) := matchAndPin filePath opens s e ids file in
      let '(ids, file, oks) := logins filePath ls ids file in
      (ids, file, ok :: oks)
  end.

Lemma find_from_Some {A} (f : A -> bool) i l j :
  find_from f i l = Some j -> exists k x, j = (i + k)%nat /\ l !! k = Some x /\ f x = true.
Proof.
  revert i. induction l as [| x l IH]; intros i; cbn; [done |]. destruct (f x) eqn:E.
  - intros [= <-]. exists 0%nat, x. split; [lia | done].
  - intros (k & y & -> & Hy & Hf)%IH. exists (S k), y. split; [lia | done].
Qed.

Lemma find_from_None {A} (f : A -> bool) i l x : find_from f i l = None -> x ∈ l -> f x = false.
Proof.
  revert i. induction l as [| y l IH]; intros i; cbn; [by intros _ Hx%elem_of_nil |]. destruct (f y) eqn:E; [done |].
  intros H [-> | Hx]%elem_of_cons; [done | by eapply IH].
Qed.

(** One attempt with a subject. *)
Lemma match_spec filePath (opens : bool) (s e : str) ids file :
  s <> [] ->
  let '(ids', file', ok) := matchAndPin filePath opens s e ids file in
  (ok = true <-> (exists id, id ∈ ids /\ (sub id = s \/ (e <> [] /\ sub id = [] /\ siwaEmailsEqual (email id) e = true)))) /\
  (ok = true -> exists id, id ∈ ids' /\ sub id = s) /\
  length ids' = length ids /\
  forall i id, ids !! i = Some id -> exists id', ids' !! i = Some id' /\ email id' = email id /\
    (id' = id \/ (sub id = [] /\ sub id' = s /\ siwaEmailsEqual (email id) e = true /\ forall x, x ∈ ids -> sub x <> s)).
Proof.
  intros Hs. unfold matchAndPin, matchAdminIdentity.
  destruct (find_from _ 0 ids) as [i |] eqn:Esub.
  - apply find_from_Some in Esub as (k & x & -> & Hx & Hf). bool_to_prop. cbn [Nat.add]. rewrite Hx, decide_False by done.
    split; [| split; [| split; [done |]]].
    + split; [| done]. intros _. exists x. split; [by eapply list_elem_of_lookup_2 | by left].
    + intros _. exists x. split; [by eapply list_elem_of_lookup_2 | done].
    + intros j id Hj. exists id. auto.
  - assert (Hno : forall x, x ∈ ids -> sub x <> s).
    { intros x Hx E. apply (find_from_None _ _ _ x Esub) in Hx. rewrite E, (bool_decide_false (s = [])), (bool_decide_true (s = s)) in Hx by done. done. }
    destruct (decide (e = [])) as [He | He].
    + split; [| split; [done | split; [done |]]]; [| intros j id Hj; exists id; auto].
      split; [done |]. intros (id & Hid & [E | (E & _)]); [by destruct (Hno id Hid) | done].
    + destruct (find_from (fun id => bool_decide (sub id = []) && siwaEmailsEqual (email id) e) 0 ids) as [i |] eqn:Em.
      * apply find_from_Some in Em as (k & x & -> & Hx & Hf). bool_to_prop. cbn [Nat.add]. rewrite Hx, decide_True by done.
        split; [| split; [| split; [by rewrite length_insert |]]].
        -- split; [| done]. intros _. exists x. split; [by eapply list_elem_of_lookup_2 | by right].
        -- intros _. exists (mkId (email x) s). split; [| done]. apply list_elem_of_lookup. exists k.
           apply list_lookup_insert_eq. by eapply lookup_lt_Some.
        -- intros j id Hj. destruct (decide (j = k)) as [-> | Hjk].
           ++ exists (mkId (email x) s). rewrite list_lookup_insert_eq by (by eapply lookup_lt_Some).
              assert (id = x) as -> by congruence. split; [done |]. split; [done |]. right. done.
           ++ exists id. rewrite list_lookup_insert_ne by done. auto.
      * split; [| split; [done | split; [done |]]]; [| intros j id Hj; exists id; auto].
        split; [done |]. intros (id & Hid & [E | (_ & E1 & E2)]); [by destruct (Hno id Hid) |].
        apply (find_from_None _ _ _ id Em) in Hid. by rewrite E1, E2, bool_decide_true in Hid.
Qed.

(** C38: an administrator record belongs to one person for good. Over any
    sequence of logins with a subject, no record is added or removed and no
    address changes; a record with a subject never changes; a record gains a
    subject only through a login with its own address by a subject that no
    record had; and every login that is admitted as administrator has its
    subject in a record from then on, so no more subjects are ever admitted
    than there are records. *)
Theorem admin_pins (filePath : str) (ls : list (bool * str * str)) (ids : list SiwaAdminIdentity) (file : option str) :
  Forall (fun l => l.1.2 <> []) ls ->
  let '(ids', file', oks) := logins filePath ls ids file in
  length ids' = length ids /\ length oks = length ls /\
  (forall i id, ids !! i = Some id -> exists id', ids' !! i = Some id' /\ email id' = email id /\
     (id' = id \/ (sub id = [] /\ sub id' <> [] /\
                   exists opens e, (opens, sub id', e) ∈ ls /\ siwaEmailsEqual (email id) e = true))) /\
  (forall k opens s e, ls !! k = Some (opens, s, e) -> oks !! k = Some true -> exists id, id ∈ ids' /\ sub id = s).
Proof.
  intros Hls. revert ids file. induction Hls as [| [[opens s] e] ls Hs Hls IH]; intros ids file; cbn [logins].
  { split_conj; try done. intros i id Hi. exists id. auto. }
  cbn in Hs. pose proof (match_spec filePath opens s e ids file Hs) as H. destruct (matchAndPin _ _ _ _ _ _) as [[ids1 file1] ok].
  destruct H as (_ & Hin & Hlen & Hrec). specialize (IH ids1 file1).
  destruct (logins filePath ls ids1 file1) as [[ids2 file2] oks]. destruct IH as (Hlen2 & Hlo & Hrec2 & Hin2).
  assert (Hkeep : forall x, x ∈ ids1 -> sub x <> [] -> x ∈ ids2).
  { intros x (i & Hi)%list_elem_of_lookup Hx. destruct (Hrec2 i x Hi) as (y & Hy & _ & [-> | (E & _)]); [| done].
    by eapply list_elem_of_lookup_2. }
  split_conj; [congruence | cbn; congruence | |].
  - intros i id Hi. destruct (Hrec i id Hi) as (id1 & H1 & E1 & C1). destruct (Hrec2 i id1 H1) as (id2 & H2 & E2 & C2).
    exists id2. split; [done |]. split; [congruence |]. destruct C1 as [-> | (C1 & C2' & C3 & _)].
    + destruct C2 as [-> | (Ca & Cb & o & e' & Cc & Cd)]; [by left | right]. split_conj; try done. exists o, e'. split; [by right | done].
    + right. destruct C2 as [-> | (Ca & _)]; [| congruence]. split; [done |]. split; [congruence |].
      exists opens, e. rewrite C2'. split; [left | done].
  - intros [| k] o s' e' Hk Ho; cbn in Hk, Ho; [| by apply (Hin2 k o s' e')].
    injection Hk as <- <- <-. injection Ho as ->. destruct (Hin eq_refl) as (id & Hid & Es). exists id. split; [| done].
    apply Hkeep; congruence.
Qed.

Definition sample_ids : list SiwaAdminIdentity := [mkId "ann@example.org" []; mkId [] "001.bob"].

Lemma admin_pins_witness :
  (logins "ids.json" [(true, "002.ann" : str, "Ann@Example.org" : str); (true, "003.eve" : str, "ann@example.org" : str)] sample_ids None).2
    = [true; false] /\
  length (logins "ids.json" [(true, "002.ann" : str, "Ann@Example.org" : str)] sample_ids None).1.1 = 2%nat.
Proof.
  split; [vm_compute; reflexivity |].
  pose proof (admin_pins "ids.json" [(true, "002.ann" : str, "Ann@Example.org" : str)] sample_ids None ltac:(by repeat constructor)) as H.
  destruct (logins _ _ _ _) as [[ids' file'] oks]. destruct H as [H _]. exact H.
Defined.

Lemma admins_reload_witness :
  load "ids.json" (saveSnapshot "ids.json" true sample_ids None) = [mkId "ann@example.org" []].
Proof.
  rewrite (admins_reload "ids.json" sample_ids None); [reflexivity | discriminate |].
  repeat apply List.Forall_cons; [| | apply List.Forall_nil]; split_conj; by apply (bool_decide_unpack _); vm_compute.
Defined.
