(* ===== verification/Hidden.v ===== *)
(** Hidden clients and interfaces: the file the dashboard writes
    ([web_dashboard.cpp], [saveHiddenEntities]), its reader
    ([server_core.cpp], [loadHiddenEntities]), and the endpoints that change
    the store. The theorem says that an accepted request survives a restart;
    the examples, that an interface with a brace or a quote in its name does
    not. *)

From stdpp Require Import sorting.
From S2P Require Import Prelude CppString HttpUtil Json Registry TrafficStats Passkeys RemoteLogs.
Import HiddenEntities.
Local Open Scope Z_scope.

(** ** The file *)

(** The elements of an unordered set, in the order of its table. *)
Definition set_order `{StdHash} (s : gset str) : list str := (iter (gset_to_gmap tt s)).*1.

(** [operator<] on pairs of strings. *)
Definition pair_le (a b : str * str) : Prop :=
  str_ltb a.1 b.1 = true \/ (a.1 = b.1 /\ (str_ltb a.2 b.2 = true \/ a.2 = b.2)).

#[export] Instance pair_le_dec a b : Decision (pair_le a b).
Proof. unfold pair_le. apply _. Defined.

(** The elements of an ordered set. *)
Definition ordered (s : gset (str * str)) : list (str * str) := merge_sort pair_le (elements s).

Definition client_item (id : str) : str := LF :: "    " ++ quoted (jsonEsc id).

Definition iface_item (p : str * str) : str :=
  LF :: "    {" ++ quoted "client_id" ++ ":"%char :: quoted (jsonEsc p.1) ++ "," ++ quoted "iface" ++ ":"%char :: quoted (jsonEsc p.2) ++ "}".

(* web_dashboard.cpp:671-688 saveHiddenEntities, text *)
Definition hidden_text `{StdHash} (h : t) : str :=
  "{" ++ LF :: "  " ++ quoted "hidden_clients" ++ ": [" ++ items_text true (client_item <$> set_order (hiddenClients h)) ++
  LF :: "  ]," ++ LF :: "  " ++ quoted "hidden_interfaces" ++ ": [" ++ items_text true (iface_item <$> ordered (hiddenIfaces h)) ++
  LF :: "  ]" ++ LF :: "}" ++ [LF].

(** What the file system makes of a save: the file cannot be opened, only [n]
    bytes are stored (the stream's state is not looked at after the writing),
    all are. *)
Inductive Save := NotOpened | Short (n : nat) | Complete.

(** Whether the save is taken to have succeeded, and the file afterwards. *)
(* web_dashboard.cpp:668-697 saveHiddenEntities *)
Definition saveHiddenEntities `{StdHash} (filePath : str) (save : Save) (h : t) (file : option str) : bool * option str :=
  if decide (filePath = []) then (true, file)
  else match save with
       | NotOpened => (false, file)
       | Short n => (true, Some (take n (hidden_text h)))
       | Complete => (true, Some (hidden_text h))
       end.

(** The quoted items of the text between the brackets. *)
(* server_core.cpp:409-420 loadHiddenEntities, clients loop *)
Fixpoint quoted_items (fuel : nat) (seg : str) : list str :=
  match fuel with
  | O => []
  | S fuel =>
      match cut DQUOTE seg with
      | None => []
      | Some (_, r) =>
          match cut DQUOTE r with
          | None => []
          | Some (id, r) => id :: quoted_items fuel r
          end
      end
  end.

(* server_core.cpp:400-423 loadHiddenEntities, clients *)
Definition load_clients (text : str) : gset str :=
  match find_str (quoted "hidden_clients") text with
  | None => ∅
  | Some p =>
      match cut "[" (substr_from text p) with
      | None => ∅
      | Some (_, r) =>
          match cut "]" r with
          | None => ∅
          | Some (seg, _) => list_to_set (filter (fun id => length id = 64%nat) (quoted_items (length seg) seg))
          end
      end
  end.

(* server_core.cpp:442-452 loadHiddenEntities, extractVal *)
Definition extractVal (obj key : str) : str :=
  match find_str (quoted key) obj with
  | None => []
  | Some k =>
      match cut ":" (substr_from obj (k + length key + 2)) with
      | None => []
      | Some (_, r) =>
          match cut DQUOTE r with
          | None => []
          | Some (_, r) => match cut DQUOTE r with None => [] | Some (v, _) => v end
          end
      end
  end.

(** [s] is the text from [pos] on, [limit] is [rb - pos]. Every round drops at
    least a brace. *)
(* server_core.cpp:434-458 loadHiddenEntities, interfaces loop *)
Fixpoint objects (fuel : nat) (s : str) (limit : nat) : list str :=
  match fuel with
  | O => []
  | S fuel =>
      if (limit =? 0)%nat then []
      else match find_char "{" s with
           | None => []
           | Some ob =>
               match find_char "}" (drop ob s) with
               | None => []
               | Some c =>
                   if (limit <=? ob)%nat then []
                   else take (S c) (drop ob s) :: objects fuel (drop (ob + S c) s) (limit - (ob + S c))
               end
           end
  end.

(* server_core.cpp:453-456 loadHiddenEntities, one object *)
Definition read_iface (obj : str) : option (str * str) :=
  let clientId := extractVal obj "client_id" in
  let iface := extractVal obj "iface" in
  if decide (length clientId = 64%nat /\ iface <> []) then Some (clientId, iface) else None.

(* server_core.cpp:425-461 loadHiddenEntities, interfaces *)
Definition load_ifaces (text : str) : gset (str * str) :=
  match find_str (quoted "hidden_interfaces") text with
  | None => ∅
  | Some p =>
      match find_char "[" (substr_from text p), rfind_char "]" text with
      | Some l, Some rb =>
          let lb := (p + l)%nat in
          if (lb <? rb)%nat then
            list_to_set (omap read_iface (objects (length text) (drop (S lb) text) (rb - S lb)))
          else ∅
      | _, _ => ∅
      end
  end.

(** [None]: the file does not exist. *)
(* server_core.cpp:383-467 loadHiddenEntities *)
Definition loadHiddenEntities (path : str) (file : option str) : t :=
  if decide (path = []) then mk ∅ ∅
  else match file with
       | None => mk ∅ ∅
       | Some text => mk (load_clients text) (load_ifaces text)
       end.

(** ** Endpoints *)

(** The store and its file. *)
Record HiddenWeb := mkHiddenWeb { store : t; hidden_file : option str }.

(* web_dashboard.cpp:3350-3351 hidden/client, client id *)
Definition lower_hex64 (s : str) : bool :=
  (length s =? 64)%nat && forallb (fun c => is_digit c || in_range "a" "f" c) s.

(* web_dashboard.cpp:3358-3358 hidden/client, action *)
Definition known_action (a : str) : bool := bool_decide (a = "hide") || bool_decide (a = "unhide").

(* web_dashboard.cpp:3386-3389 hidden/client, answer *)
Definition hidden_answer (b : bool) : Response :=
  mkHttp 200 ("{" ++ quoted "ok" ++ ":true," ++ quoted "hidden" ++ ":"%char :: (if b then "true" else "false") ++ "}" ++ [LF]).

(* web_dashboard.cpp:3374-3382 hidden/client, save *)
Definition save_and_answer `{StdHash} (filePath : str) (save : Save) (h : t) (hidden : bool) (w : HiddenWeb) : HiddenWeb * Response :=
  let (ok, file) := saveHiddenEntities filePath save h (hidden_file w) in
  (mkHiddenWeb h file, if ok then hidden_answer hidden else mkHttp 500 (err_body "server error: cannot write hidden entities file")).

(* web_dashboard.cpp:3342-3390 hidden/client *)
Definition hide_client `{StdHash} (filePath : str) (save : Save) (body : str) (w : HiddenWeb) : HiddenWeb * Response :=
  let clientId := jsonGetString body "client_id" in
  let action := jsonGetString body "action" in
  if negb (lower_hex64 clientId) then (w, mkHttp 400 (err_body "client_id must be 64 lowercase hex chars"))
  else if negb (known_action action) then (w, mkHttp 400 (err_body "action must be hide or unhide"))
  else
    let cs := if decide (action = "hide") then {[ clientId ]} ∪ hiddenClients (store w) else hiddenClients (store w) ∖ {[ clientId ]} in
    save_and_answer filePath save (mk cs (hiddenIfaces (store w))) (bool_decide (clientId ∈ cs)) w.

(** The en dash of the message, in UTF-8. *)
Definition en_dash : str := ["226"%char; "128"%char; "147"%char].

(* web_dashboard.cpp:3396-3453 hidden/interface *)
Definition hide_iface `{StdHash} (filePath : str) (save : Save) (body : str) (w : HiddenWeb) : HiddenWeb * Response :=
  let clientId := jsonGetString body "client_id" in
  let iface := jsonGetString body "iface" in
  let action := jsonGetString body "action" in
  if negb (lower_hex64 clientId) then (w, mkHttp 400 (err_body "client_id must be 64 lowercase hex chars"))
  else if bool_decide (iface = []) || (Wire.kMaxIfaceLabelLen <? length iface)%nat then
    (w, mkHttp 400 (err_body ("iface must be 1" ++ en_dash ++ "64 characters")))
  else if negb (known_action action) then (w, mkHttp 400 (err_body "action must be hide or unhide"))
  else
    let fs := if decide (action = "hide") then {[ (clientId, iface) ]} ∪ hiddenIfaces (store w) else hiddenIfaces (store w) ∖ {[ (clientId, iface) ]} in
    save_and_answer filePath save (mk (hiddenClients (store w)) fs) (bool_decide ((clientId, iface) ∈ fs)) w.

(* web_dashboard.cpp:3313-3336 hidden, list *)
Definition hidden_list `{StdHash} (w : HiddenWeb) : Response :=
  mkHttp 200 ("{" ++ quoted "hidden_clients" ++ ":[" ++
    items_text true ((fun id => quoted (jsonEsc id)) <$> set_order (hiddenClients (store w))) ++
    "]," ++ quoted "hidden_interfaces" ++ ":[" ++
    items_text true ((fun p => "{" ++ quoted "client_id" ++ ":"%char :: quoted (jsonEsc p.1) ++ "," ++ quoted "iface" ++ ":"%char ::
                        quoted (jsonEsc p.2) ++ "}") <$> ordered (hiddenIfaces (store w))) ++ "]}" ++ [LF]).

(** ** Lemmas: the text *)

Definition hexchar (c : ascii) : bool := is_digit c || in_range "a" "f" c.

Lemma hex64_no c s : hexchar c = false -> lower_hex64 s = true -> c ∉ s.
Proof.
  unfold lower_hex64. intros Hc [_ H]%andb_true_iff Hin. apply forallb_Forall in H. rewrite Forall_forall in H.
  specialize (H c Hin). unfold hexchar in Hc. cbn in H. congruence.
Qed.

Lemma hex64_length s : lower_hex64 s = true -> length s = 64%nat.
Proof. unfold lower_hex64. intros [H _]%andb_true_iff. by apply Nat.eqb_eq. Qed.

Lemma hex64_plain s : lower_hex64 s = true -> plain_text s.
Proof.
  unfold lower_hex64, plain_text. intros [_ H]%andb_true_iff. apply forallb_Forall in H.
  eapply Forall_impl; [exact H |]. intros c Hc.
  assert (G : forall x, implb (hexchar x) (negb (bool_decide (x = DQUOTE)) && negb (bool_decide (x = BSLASH)) && (0x20 <=? byte_val x)) = true)
    by (apply byte_forall; vm_compute; reflexivity).
  specialize (G c). unfold hexchar in G. cbn in Hc. rewrite Hc in G. cbn [implb] in G. bool_to_prop. done.
Qed.

(** A search string with a byte the text lacks. *)
Lemma find_str_absent c p l : c ∈ p -> (c ∉ l) -> find_str p l = None.
Proof. intros Hp Hl. apply find_str_None. intros x y ->. destruct Hl. rewrite !elem_of_app. auto. Qed.

Definition iface_ok (p : str * str) : Prop :=
  lower_hex64 p.1 = true /\ p.2 <> [] /\ plain_text p.2 /\ "}"%char ∉ p.2.

Definition store_ok (h : t) : Prop :=
  (forall id, id ∈ hiddenClients h -> lower_hex64 id = true) /\ (forall p, p ∈ hiddenIfaces h -> iface_ok p).

Lemma quoted_items_spec b ids fuel tail :
  Forall (fun id => lower_hex64 id = true) ids -> (length ids <= fuel)%nat -> (DQUOTE ∉ tail) ->
  quoted_items fuel (items_text b (client_item <$> ids) ++ tail) = ids.
Proof.
  intros H. revert b fuel. induction H as [| id ids Hid H IH]; intros b fuel Hf Ht; cbn [fmap list_fmap items_text app].
  - destruct fuel; cbn [quoted_items]; [done |]. by rewrite (proj2 (cut_None _ _)).
  - destruct fuel as [| fuel]; [cbn in Hf; lia |]. cbn [quoted_items].
    unfold client_item. rewrite plain_esc by (by apply hex64_plain). unfold quoted.
    replace (((if b then [] else [","%char]) ++ (LF :: "    " ++ DQUOTE :: id ++ [DQUOTE]) ++ items_text false (client_item <$> ids)) ++ tail)
      with (((if b then [] else [","%char]) ++ LF :: "    ") ++ DQUOTE :: id ++ DQUOTE :: items_text false (client_item <$> ids) ++ tail)
      by (destruct b; cbn [app]; repeat (rewrite <- app_assoc; cbn [app]); done).
    rewrite cut_app by (destruct b; by apply (bool_decide_unpack _); vm_compute).
    rewrite cut_app by (by apply (hex64_no DQUOTE)). f_equal. apply IH; [cbn in Hf; lia | done].
Qed.

Lemma items_no c b l : (c <> ","%char) -> (forall i, i ∈ l -> c ∉ i) -> c ∉ items_text b l.
Proof.
  intros Hc. revert b. induction l as [| i l IH]; intros b H; cbn [items_text]; [by apply not_elem_of_nil |].
  rewrite !not_elem_of_app. split; [destruct b; [by apply not_elem_of_nil | by apply not_elem_of_cons; split; [| by apply not_elem_of_nil]] |].
  split; [apply H; by left | apply IH; intros j Hj; apply H; by right].
Qed.

Lemma client_item_no c id : c ∉ (LF :: "    " ++ [DQUOTE]) -> lower_hex64 id = true -> hexchar c = false -> c ∉ client_item id.
Proof.
  intros Hc Hid Hx. unfold client_item, quoted. rewrite plain_esc by (by apply hex64_plain).
  rewrite not_elem_of_cons, not_elem_of_app, not_elem_of_cons, not_elem_of_app in *. destruct Hc as (H1 & H2 & H3 & _).
  split; [done |]. split; [done |]. split; [done |]. split; [by apply hex64_no |]. apply not_elem_of_cons. by split; [| apply not_elem_of_nil].
Qed.

Definition clients_text (ids : list str) : str := items_text true (client_item <$> ids).

Lemma clients_no c ids : c ∉ (LF :: "    ," ++ [DQUOTE]) -> hexchar c = false ->
  Forall (fun id => lower_hex64 id = true) ids -> c ∉ clients_text ids.
Proof.
  intros Hc Hx H. rewrite not_elem_of_cons, not_elem_of_app in Hc. destruct Hc as (H1 & H2 & H3). apply items_no.
  - intros ->. by destruct H2; apply (bool_decide_unpack _); vm_compute.
  - intros i (id & -> & Hid)%list_elem_of_fmap. rewrite Forall_forall in H. apply client_item_no; [| by apply H | done].
    rewrite not_elem_of_cons, not_elem_of_app. split; [done |]. split; [| done].
    intros Hin. destruct H2. change (c ∈ list_ascii_of_string "    " ++ ["," %char]). apply elem_of_app. by left.
Qed.

(** What stands before and after the first list. *)
Definition head_text : str := "{" ++ LF :: "  ".
Definition mid_text : str := LF :: "  ]," ++ LF :: "  ".

Lemma hidden_text_eq `{StdHash} (h : t) :
  hidden_text h = head_text ++ quoted "hidden_clients" ++ ": [" ++ clients_text (set_order (hiddenClients h)) ++ mid_text ++
    quoted "hidden_interfaces" ++ ": [" ++ items_text true (iface_item <$> ordered (hiddenIfaces h)) ++ LF :: "  ]" ++ LF :: "}" ++ [LF].
Proof. unfold hidden_text, head_text, mid_text, clients_text. cbn [app]. repeat (rewrite <- app_assoc; cbn [app]). reflexivity. Qed.

Lemma set_order_perm `{StdHash, !StdHashLaws _} (s : gset str) : set_order s ≡ₚ elements s.
Proof.
  unfold set_order. rewrite iter_perm. apply NoDup_Permutation; [apply NoDup_fst_map_to_list | apply NoDup_elements |].
  intros x. rewrite elem_of_elements, list_elem_of_fmap. split.
  - intros ([y u] & -> & Hy). apply elem_of_map_to_list, lookup_gset_to_gmap_Some in Hy. tauto.
  - intros Hx. exists (x, tt). split; [done |]. by apply elem_of_map_to_list, lookup_gset_to_gmap_Some.
Qed.

Lemma clients_reload `{StdHash, !StdHashLaws _} (h : t) : store_ok h -> load_clients (hidden_text h) = hiddenClients h.
Proof.
  intros [Hc _]. set (ids := set_order (hiddenClients h)).
  assert (Hids : Forall (fun id => lower_hex64 id = true) ids).
  { apply Forall_forall. intros id Hin. apply Hc. unfold ids in Hin. by rewrite set_order_perm, elem_of_elements in Hin. }
  unfold load_clients. rewrite hidden_text_eq. fold ids. unfold quoted at 1. rewrite find_str_skip by (by apply (bool_decide_unpack _); vm_compute).
  fold (quoted "hidden_clients"). rewrite find_str_here. cbn [fmap option_fmap option_map].
  unfold substr_from. rewrite drop_length_app by lia.
  assert (E : forall (x y : str), quoted "hidden_clients" ++ ": [" ++ x ++ y = (quoted "hidden_clients" ++ ": ") ++ "["%char :: x ++ y).
  { intros. rewrite <- app_assoc. reflexivity. }
  rewrite E, cut_app by (by apply (bool_decide_unpack _); vm_compute). unfold mid_text at 1.
  match goal with |- context [clients_text ids ++ ?m ++ ?r] =>
    replace (clients_text ids ++ m ++ r) with ((clients_text ids ++ LF :: "  ") ++ "]"%char :: ("," ++ LF :: "  ") ++ r)
      by (rewrite <- app_assoc; reflexivity) end.
  rewrite cut_app.
  2: { rewrite not_elem_of_app. split; [apply clients_no; [by apply (bool_decide_unpack _); vm_compute | done | done] |].
       by apply (bool_decide_unpack _); vm_compute. }
  unfold clients_text. rewrite quoted_items_spec; [| done | | by apply (bool_decide_unpack _); vm_compute].
  - apply set_eq. intros x. rewrite elem_of_list_to_set, list_elem_of_filter. unfold ids. rewrite set_order_perm, elem_of_elements.
    split; [tauto |]. intros Hx. split; [by apply hex64_length, Hc | done].
  - rewrite length_app. transitivity (length (items_text true (client_item <$> ids))); [| lia].
    generalize true. clear. induction ids as [| i ids IH]; intros b; cbn [fmap list_fmap items_text length]; [lia |].
    rewrite !length_app. specialize (IH false). unfold client_item at 1. cbn [length]. lia.
Qed.

(** ** Lemmas: the interface list *)

Definition iface_object (p : str * str) : str :=
  "{" ++ quoted "client_id" ++ ":"%char :: quoted p.1 ++ "," ++ quoted "iface" ++ ":"%char :: quoted p.2 ++ "}".

Lemma iface_item_eq p : iface_ok p -> iface_item p = (LF :: "    ") ++ iface_object p.
Proof.
  intros (Hc & _ & Hp & _). unfold iface_item, iface_object. rewrite !plain_esc by (done || by apply hex64_plain). reflexivity.
Qed.

Lemma extract_client p : iface_ok p -> extractVal (iface_object p) "client_id" = p.1.
Proof.
  intros (Hc & _). unfold extractVal, iface_object. unfold quoted at 1. rewrite find_str_skip by (by apply (bool_decide_unpack _); vm_compute).
  fold (quoted "client_id"). rewrite find_str_here. cbn [fmap option_fmap option_map]. unfold substr_from.
  set (r := "," ++ quoted "iface" ++ _). change (drop _ _) with (":"%char :: quoted p.1 ++ r).
  change (":"%char :: quoted p.1 ++ r) with ([] ++ ":"%char :: quoted p.1 ++ r). rewrite cut_app by apply not_elem_of_nil.
  rewrite quoted_app. change (DQUOTE :: p.1 ++ DQUOTE :: r) with ([] ++ DQUOTE :: p.1 ++ DQUOTE :: r).
  rewrite cut_app by apply not_elem_of_nil. rewrite cut_app by (by apply hex64_no). done.
Qed.

Lemma extract_iface p : iface_ok p -> extractVal (iface_object p) "iface" = p.2.
Proof.
  intros (Hc & _ & Hp & _). unfold extractVal.
  set (l := "{" ++ quoted "client_id"). set (m := quoted p.1). set (r := ":"%char :: quoted p.2 ++ "}").
  assert (E : iface_object p = l ++ ":"%char :: m ++ ","%char :: quoted "iface" ++ r).
  { unfold iface_object, l, m, r. cbn [app]. repeat (rewrite <- app_assoc; cbn [app]). reflexivity. }
  rewrite E, find_str_sep.
  2-4: try done; by apply (bool_decide_unpack _); vm_compute.
  rewrite find_str_sep.
  2-3: try done; by apply (bool_decide_unpack _); vm_compute.
  2: { apply (find_str_absent "i"); [by apply (bool_decide_unpack _); vm_compute |]. unfold m, quoted.
       rewrite not_elem_of_cons, not_elem_of_app. split; [done |]. split; [by apply hex64_no | by apply (bool_decide_unpack _); vm_compute]. }
  rewrite find_str_here. cbn [fmap option_fmap option_map]. unfold substr_from.
  assert (D : drop (S (length l) + (S (length m) + 0) + length ("iface" : str) + 2) (l ++ ":"%char :: m ++ ","%char :: quoted "iface" ++ r) = r).
  { replace (l ++ ":"%char :: m ++ ","%char :: quoted "iface" ++ r) with ((l ++ ":"%char :: m ++ ","%char :: quoted "iface") ++ r)
      by (rewrite <- app_assoc; cbn [app]; by rewrite <- app_assoc).
    apply drop_length_app. rewrite !length_app. cbn [length]. rewrite length_app. cbn. lia. }
  rewrite D. unfold r. change (":"%char :: quoted p.2 ++ "}") with ([] ++ ":"%char :: quoted p.2 ++ "}").
  rewrite cut_app by apply not_elem_of_nil. rewrite quoted_app.
  match goal with |- context [cut DQUOTE (DQUOTE :: ?x)] => change (DQUOTE :: x) with ([] ++ DQUOTE :: x) end.
  rewrite cut_app by apply not_elem_of_nil. rewrite cut_app by (by apply plain_no_quote). done.
Qed.

Lemma read_object p : iface_ok p -> read_iface (iface_object p) = Some p.
Proof.
  intros Hp. unfold read_iface. rewrite extract_client, extract_iface by done. destruct Hp as (Hc & Hi & _).
  rewrite decide_True by (split; [by apply hex64_length | done]). by destruct p.
Qed.

(** An object ends at its only closing brace. *)
Lemma object_split p : iface_ok p -> exists body, iface_object p = "{"%char :: body ++ ["}"%char] /\ "}"%char ∉ body.
Proof.
  intros (Hc & _ & _ & Hb).
  exists (quoted "client_id" ++ ":"%char :: quoted p.1 ++ "," ++ quoted "iface" ++ ":"%char :: quoted p.2). split.
  - unfold iface_object. cbn [app]. repeat (rewrite <- app_assoc; cbn [app]). reflexivity.
  - unfold quoted. repeat (rewrite not_elem_of_app || rewrite not_elem_of_cons || apply conj); try done; try (by apply hex64_no);
      by apply (bool_decide_unpack _); vm_compute.
Qed.

Definition list_end : str := LF :: "  ]" ++ LF :: "}" ++ [LF].

Lemma objects_spec ps b fuel :
  Forall iface_ok ps -> (length ps <= fuel)%nat ->
  objects fuel (items_text b (iface_item <$> ps) ++ list_end) (length (items_text b (iface_item <$> ps)) + 3) = iface_object <$> ps.
Proof.
  intros H. revert b fuel. induction H as [| p ps Hp H IH]; intros b fuel Hf; cbn [fmap list_fmap items_text app].
  - destruct fuel; [done |]. reflexivity.
  - destruct fuel as [| fuel]; [cbn in Hf; lia |]. cbn [objects]. rewrite iface_item_eq by done.
    destruct (object_split p Hp) as (body & Eo & Hb). set (rest := items_text false (iface_item <$> ps)).
    set (sep := (if b then [] else [","%char]) ++ LF :: "    ").
    assert (Ho : length (iface_object p) = S (S (length body))) by (rewrite Eo; cbn; rewrite length_app; cbn; lia).
    assert (E : ((if b then [] else [","%char]) ++ ((LF :: "    ") ++ iface_object p) ++ rest) = sep ++ iface_object p ++ rest).
    { unfold sep. by rewrite <- !app_assoc. }
    rewrite E. rewrite <- (app_assoc sep), <- app_assoc.
    rewrite (proj2 (Nat.eqb_neq _ _)) by lia.
    assert (Ef : find_char "{" (sep ++ iface_object p ++ rest ++ list_end) = Some (length sep)).
    { rewrite Eo. cbn [app]. apply find_char_app. unfold sep. destruct b; by apply (bool_decide_unpack _); vm_compute. }
    rewrite Ef, drop_app_length.
    assert (Eg : find_char "}" (iface_object p ++ rest ++ list_end) = Some (S (length body))).
    { rewrite Eo. change (("{"%char :: body ++ ["}"%char]) ++ rest ++ list_end) with (("{"%char :: (body ++ ["}"%char]) ++ rest ++ list_end)).
      rewrite <- app_assoc. cbn [app]. apply (find_char_app _ ("{"%char :: body)). by apply not_elem_of_cons. }
    rewrite Eg, (proj2 (Nat.leb_gt _ _)) by (rewrite !length_app; lia).
    rewrite <- Ho, take_app_length. f_equal.
    assert (Ed : drop (length sep + length (iface_object p)) (sep ++ iface_object p ++ rest ++ list_end) = rest ++ list_end).
    { rewrite (app_assoc sep). apply drop_length_app. rewrite length_app. lia. }
    assert (El : (length (sep ++ iface_object p ++ rest) + 3 - (length sep + length (iface_object p)) = length rest + 3)%nat)
      by (rewrite !length_app; lia).
    rewrite Ed, El. apply IH. cbn in Hf. lia.
Qed.

Lemma omap_objects ps : Forall iface_ok ps -> omap read_iface (iface_object <$> ps) = ps.
Proof. induction 1 as [| p ps Hp H IH]; [done |]. cbn [fmap list_fmap omap list_omap]. rewrite read_object by done. f_equal; exact IH. Qed.

(** The text before the second list holds no other key of that name. *)
Lemma find_ifaces_key ids r :
  Forall (fun id => lower_hex64 id = true) ids ->
  let pre := head_text ++ quoted "hidden_clients" ++ ": [" ++ clients_text ids ++ mid_text in
  find_str (quoted "hidden_interfaces") (pre ++ quoted "hidden_interfaces" ++ r) = Some (length pre).
Proof.
  intros Hids pre. set (key := quoted "hidden_interfaces").
  assert (Hne : key <> []) by done. assert (Hlf : LF ∉ key) by (by apply (bool_decide_unpack _); vm_compute).
  assert (Hline : forall l : str, "_"%char ∉ l -> find_str key l = None).
  { intros l Hl. apply (find_str_absent "_"); [by apply (bool_decide_unpack _); vm_compute | done]. }
  destruct (clients_text ids ++ LF :: "  ],") as [| c0 X] eqn:EX; [by destruct (clients_text ids) |].
  assert (HX : "_"%char ∉ c0 :: X).
  { rewrite <- EX, not_elem_of_app. split; [| by apply (bool_decide_unpack _); vm_compute].
    apply clients_no; [by apply (bool_decide_unpack _); vm_compute | done | done]. }
  assert (Ec : c0 = LF).
  { unfold clients_text in EX. destruct ids; cbn in EX; by injection EX. }
  subst c0. apply not_elem_of_cons in HX as [_ HX].
  assert (Epre : pre = (head_text ++ quoted "hidden_clients" ++ ": [") ++ (LF :: X) ++ LF :: "  ").
  { rewrite <- EX. unfold pre, mid_text. rewrite <- !app_assoc. reflexivity. }
  assert (E : pre ++ key ++ r = "{" ++ LF :: ("  " ++ quoted "hidden_clients" ++ ": [") ++ LF :: X ++ LF :: "  " ++ key ++ r).
  { rewrite Epre, <- !app_assoc. reflexivity. }
  assert (L : length pre = (1 + S (length ("  " ++ quoted "hidden_clients" ++ ": [")) + S (length X) + 3)%nat).
  { rewrite Epre, !length_app. cbn. lia. }
  rewrite L, E.
  rewrite find_str_sep by (done || (apply Hline; by apply (bool_decide_unpack _); vm_compute)).
  rewrite find_str_sep.
  2-3: done.
  2: { vm_compute. reflexivity. }
  rewrite find_str_sep by (done || by apply Hline).
  assert (Ek : find_str key ("  " ++ key ++ r) = Some 2%nat).
  { pose proof (find_str_skip DQUOTE ("hidden_interfaces" ++ [DQUOTE]) "  " (key ++ r) ltac:(by apply (bool_decide_unpack _); vm_compute)) as H.
    change (DQUOTE :: ("hidden_interfaces" ++ [DQUOTE])) with key in H. by rewrite H, find_str_here. }
  change (SP :: SP :: key ++ r) with ("  " ++ key ++ r). rewrite Ek. cbn [fmap option_fmap option_map]. f_equal. cbn. lia.
Qed.

Lemma ifaces_reload `{StdHash, !StdHashLaws _} (h : t) : store_ok h -> load_ifaces (hidden_text h) = hiddenIfaces h.
Proof.
  intros [Hc Hi]. set (ids := set_order (hiddenClients h)). set (ps := ordered (hiddenIfaces h)).
  assert (Hids : Forall (fun id => lower_hex64 id = true) ids).
  { apply Forall_forall. intros id Hin. apply Hc. unfold ids in Hin. by rewrite set_order_perm, elem_of_elements in Hin. }
  assert (Hperm : ps ≡ₚ elements (hiddenIfaces h)) by apply merge_sort_Permutation.
  assert (Hps : Forall iface_ok ps).
  { apply Forall_forall. intros p Hin. apply Hi. by rewrite Hperm, elem_of_elements in Hin. }
  set (pre := head_text ++ quoted "hidden_clients" ++ ": [" ++ clients_text ids ++ mid_text).
  set (it := items_text true (iface_item <$> ps)).
  assert (E : hidden_text h = pre ++ quoted "hidden_interfaces" ++ ": [" ++ it ++ list_end).
  { rewrite hidden_text_eq. unfold pre, it, list_end. by rewrite <- !app_assoc. }
  unfold load_ifaces. rewrite E.
  pose proof (find_ifaces_key ids (": [" ++ it ++ list_end) Hids) as K. cbv zeta in K. fold pre in K. rewrite K. clear K.
  unfold substr_from. rewrite drop_app_length.
  assert (Ef : find_char "[" (quoted "hidden_interfaces" ++ ": [" ++ it ++ list_end) = Some 21%nat).
  { change (quoted "hidden_interfaces" ++ ": [" ++ it ++ list_end) with ((quoted "hidden_interfaces" ++ ": ") ++ "["%char :: it ++ list_end).
    apply find_char_app. by apply (bool_decide_unpack _); vm_compute. }
  rewrite Ef.
  assert (Er : rfind_char "]" (pre ++ quoted "hidden_interfaces" ++ ": [" ++ it ++ list_end) = Some (length pre + 22 + length it + 3)%nat).
  { replace (pre ++ quoted "hidden_interfaces" ++ ": [" ++ it ++ list_end)
      with ((pre ++ quoted "hidden_interfaces" ++ ": [" ++ it ++ LF :: "  ") ++ "]"%char :: LF :: "}" ++ [LF])
      by (rewrite <- !app_assoc; reflexivity).
    rewrite rfind_char_app by (by apply (bool_decide_unpack _); vm_compute). f_equal. rewrite !length_app. cbn. lia. }
  rewrite Er. cbn zeta. rewrite (proj2 (Nat.ltb_lt _ _)) by lia.
  assert (Ed : drop (S (length pre + 21)) (pre ++ quoted "hidden_interfaces" ++ ": [" ++ it ++ list_end) = it ++ list_end).
  { replace (pre ++ quoted "hidden_interfaces" ++ ": [" ++ it ++ list_end) with ((pre ++ quoted "hidden_interfaces" ++ ": [") ++ it ++ list_end)
      by (by rewrite <- !app_assoc).
    apply drop_length_app. rewrite !length_app. cbn. lia. }
  rewrite Ed. replace (length pre + 22 + length it + 3 - S (length pre + 21))%nat with (length it + 3)%nat by lia.
  unfold it at 2 3. rewrite objects_spec, omap_objects; [| done | done |].
  - apply set_eq. intros x. rewrite elem_of_list_to_set, Hperm. apply elem_of_elements.
  - rewrite !length_app. transitivity (length it); [| lia]. unfold it. generalize true. clear.
    induction ps as [| p ps IH]; intros b; cbn [fmap list_fmap items_text length]; [lia |].
    rewrite !length_app. specialize (IH false). unfold iface_item at 1. cbn [length]. lia.
Qed.

Lemma hidden_reload `{StdHash, !StdHashLaws _} (path : str) (h : t) :
  path <> [] -> store_ok h -> loadHiddenEntities path (Some (hidden_text h)) = h.
Proof.
  intros Hp Hh. unfold loadHiddenEntities. rewrite decide_False by done. rewrite clients_reload, ifaces_reload by done. by destruct h.
Qed.

(** ** Requests *)

Inductive HideRequest := HideClient (save : Save) (body : str) | HideIface (save : Save) (body : str).

Section Requests.
Context `{SH : StdHash, SHL : !StdHashLaws SH}.
Context (path : str).
Hypothesis path_set : path <> [].

Definition hide (r : HideRequest) (w : HiddenWeb) : HiddenWeb * Response :=
  match r with HideClient save body => hide_client path save body w | HideIface save body => hide_iface path save body w end.

Definition hide_all (rs : list HideRequest) (w : HiddenWeb) : HiddenWeb := foldl (fun w r => (hide r w).1) w rs.

Definition save_of (r : HideRequest) : Save := match r with HideClient s _ => s | HideIface s _ => s end.

Definition body_of (r : HideRequest) : str := match r with HideClient _ b => b | HideIface _ b => b end.

(** Interface names that need no escape and have no closing brace. *)
Definition clean_request (r : HideRequest) : Prop :=
  let i := jsonGetString (body_of r) "iface" in plain_text i /\ "}"%char ∉ i.

(** The store before and after an accepted request. *)
Definition obeyed (r : HideRequest) (h h' : t) : Prop :=
  let c := jsonGetString (body_of r) "client_id" in
  let i := jsonGetString (body_of r) "iface" in
  let a := jsonGetString (body_of r) "action" in
  match r with
  | HideClient _ _ => (forall id, isClientHidden h' id = if decide (id = c) then bool_decide (a = "hide") else isClientHidden h id) /\
                      hiddenIfaces h' = hiddenIfaces h
  | HideIface _ _ => hiddenClients h' = hiddenClients h /\
                     forall p, p ∈ hiddenIfaces h' <-> if decide (p = (c, i)) then a = "hide" else p ∈ hiddenIfaces h
  end.

(** What a save that is taken to have succeeded leaves of a text. *)
Definition stored (save : Save) (text : str) (file : option str) : Prop :=
  match save with NotOpened => False | Short n => file = Some (take n text) | Complete => file = Some text end.

(** What every request does, answer by answer. *)
Definition hide_result (r : HideRequest) (w w' : HiddenWeb) (resp : Response) : Prop :=
  store_ok (store w') /\
  (status resp = 200 /\ obeyed r (store w) (store w') /\ stored (save_of r) (hidden_text (store w')) (hidden_file w') \/
   status resp = 400 /\ w' = w \/
   status resp = 500 /\ obeyed r (store w) (store w') /\ hidden_file w' = hidden_file w).

Lemma save_result r h b w :
  let save := save_of r in store_ok h -> obeyed r (store w) h ->
  let '(w', resp) := save_and_answer path save h b w in hide_result r w w' resp.
Proof.
  intros save Hh Ho. unfold save_and_answer, saveHiddenEntities, hide_result. rewrite decide_False by done. fold save.
  destruct save; (split; [done |]); [right; right; cbn; auto | left; cbn; auto | left; cbn; auto].
Qed.

Lemma hide_spec r w : store_ok (store w) -> clean_request r ->
  let '(w', resp) := hide r w in hide_result r w w' resp.
Proof.
  intros [Hc Hi] Hr. destruct r as [save body | save body]; cbn [hide]; unfold hide_client, hide_iface;
    destruct (lower_hex64 _) eqn:Eh; cbn [negb]; try (by split; [done | right; left]).
  - destruct (known_action _) eqn:Ea; cbn [negb]; [| by split; [done | right; left]]. apply (save_result (HideClient save body)).
    + split; cbn; [| done]. intros id Hid. case_decide; [apply elem_of_union in Hid as [->%elem_of_singleton | Hin]; auto | apply elem_of_difference in Hid as [Hin _]; auto].
    + unfold obeyed. cbn [body_of hiddenClients hiddenIfaces]. split; [| done]. intros id. unfold isClientHidden. cbn [hiddenClients]. case_decide as Ea'.
      * rewrite Ea', (bool_decide_true (("hide" : str) = "hide")) by done. case_decide; [apply bool_decide_true; set_solver | apply bool_decide_ext; set_solver].
      * rewrite (bool_decide_false (_ = ("hide" : str))) by done. case_decide; [apply bool_decide_false; set_solver | apply bool_decide_ext; set_solver].
  - destruct (_ || _) eqn:El; [by split; [done | right; left] |]. bool_to_prop.
    destruct (known_action _) eqn:Ea; cbn [negb]; [| by split; [done | right; left]]. destruct Hr as [Hp Hb]. cbn in Hp, Hb. apply (save_result (HideIface save body)).
    + split; cbn; [done |]. intros p Hin. case_decide.
      * apply elem_of_union in Hin as [->%elem_of_singleton | H']; [by split_and! | auto].
      * apply elem_of_difference in Hin as [H' _]. auto.
    + unfold obeyed. cbn [body_of hiddenClients hiddenIfaces]. split; [done |]. intros p. case_decide as Ea'; case_decide; set_solver.
Qed.

(** C25: hiding survives a restart. Let no request, before or now, name an
    interface with a quote, a backslash, a control character or a closing brace
    ([clean_request]; [brace_lost] shows that the reader does not give back a
    name with a brace). After any
    requests, some of which may have failed to write the file or have written
    a part of it, a request that is answered with success has hidden or shown
    exactly what it names at once; and if its file was stored completely, a
    server started from the file hides exactly what the running one hides. A
    file that was stored in part is a prefix of the intended one: the answer is
    the same. A refused request changes nothing. *)
Theorem hide_persists (rs : list HideRequest) (r : HideRequest) (w0 : HiddenWeb) :
  store_ok (store w0) -> Forall clean_request (rs ++ [r]) ->
  let w := hide_all rs w0 in
  let '(w', resp) := hide r w in
  (status resp = 200 -> obeyed r (store w) (store w') /\
     match save_of r with
     | Complete => loadHiddenEntities path (hidden_file w') = store w'
     | Short n => hidden_file w' = Some (take n (hidden_text (store w')))
     | NotOpened => False
     end) /\
  (status resp = 400 -> w' = w) /\ store_ok (store w').
Proof.
  intros H0 [Hrs Hr%Forall_inv]%Forall_app. cbv zeta.
  assert (Hw : store_ok (store (hide_all rs w0))).
  { unfold hide_all. revert w0 H0. induction Hrs as [| x rs Hx Hrs IH]; intros w0 H0; [done |]. cbn [foldl]. apply IH.
    pose proof (hide_spec x w0 H0 Hx) as H. destruct (hide x w0). by destruct H. }
  pose proof (hide_spec r _ Hw Hr) as H. destruct (hide r _) as [w' resp]. destruct H as (Hok & H).
  split; [| split; [| done]].
  - intros E. destruct H as [(_ & Ho & Hf) | [(E' & _) | (E' & _)]]; [| lia | lia]. split; [done |].
    unfold stored in Hf. destruct (save_of r); [done | done |]. rewrite Hf. by apply hidden_reload.
  - intros E. destruct H as [(E' & _) | [(_ & ->) | (E' & _)]]; [lia | done | lia].
Qed.
End Requests.

(** ** Examples *)

Definition sample_id : str := repeat "a"%char 64.

Definition hide_body (iface action : str) : str :=
  "{" ++ quoted "client_id" ++ ":"%char :: quoted sample_id ++ "," ++ quoted "iface" ++ ":"%char :: quoted iface ++ "," ++
  quoted "action" ++ ":"%char :: quoted action ++ "}".

Definition no_hidden : HiddenWeb := mkHiddenWeb (mk ∅ ∅) None.

Lemma no_hidden_ok : store_ok (store no_hidden).
Proof. split; cbn; set_solver. Qed.

Lemma hide_persists_witness :
  let '(w', resp) := hide "hidden.json" (HideClient Complete (hide_body "eth0" "hide")) (hide_all "hidden.json" [HideIface NotOpened (hide_body "eth0" "hide")] no_hidden) in
  status resp = 200 /\ loadHiddenEntities "hidden.json" (hidden_file w') = store w'.
Proof.
  assert (H : let '(_, resp) := hide "hidden.json" (HideClient Complete (hide_body "eth0" "hide")) (hide_all "hidden.json" [HideIface NotOpened (hide_body "eth0" "hide")] no_hidden) in
              status resp = 200) by (vm_compute; reflexivity).
  assert (Hcl : Forall clean_request ([HideIface NotOpened (hide_body "eth0" "hide")] ++ [HideClient Complete (hide_body "eth0" "hide")])).
  { assert (E : jsonGetString (hide_body "eth0" "hide") "iface" = "eth0") by (vm_compute; reflexivity).
    repeat apply List.Forall_cons; try apply List.Forall_nil; unfold clean_request; cbn [body_of]; rewrite E;
      (split; [unfold plain_text; by apply (bool_decide_unpack _); vm_compute | by apply (bool_decide_unpack _); vm_compute]). }
  pose proof (hide_persists "hidden.json" ltac:(discriminate) [HideIface NotOpened (hide_body "eth0" "hide")] (HideClient Complete (hide_body "eth0" "hide"))
    no_hidden no_hidden_ok Hcl) as P. cbv zeta in P.
  destruct (hide _ _ _) as [w' resp]. split; [exact H |]. exact (proj2 (proj1 P H)).
Defined.

(** An interface with a closing brace in its name is hidden until the next
    start only. *)
Lemma brace_lost :
  let '(w, resp) := hide_iface "hidden.json" Complete (hide_body "a}b" "hide") no_hidden in
  status resp = 200 /\ isIfaceHidden (store w) sample_id "a}b" = true /\
  isIfaceHidden (loadHiddenEntities "hidden.json" (hidden_file w)) sample_id "a}b" = false.
Proof. vm_compute. auto. Qed.

(** A request answered with an error has nevertheless hidden the client, until
    the next start. *)
Lemma failed_but_hidden :
  let '(w, resp) := hide_client "hidden.json" NotOpened (hide_body "eth0" "hide") no_hidden in
  status resp = 500 /\ isClientHidden (store w) sample_id = true /\ hidden_file w = None.
Proof. vm_compute. auto. Qed.

(** A disk that takes only a part of the file: the answer is success, and after
    the next start the client is shown again. *)
Lemma short_file_accepted :
  let '(w, resp) := hide_client "hidden.json" (Short 40) (hide_body "eth0" "hide") no_hidden in
  status resp = 200 /\ isClientHidden (store w) sample_id = true /\
  isClientHidden (loadHiddenEntities "hidden.json" (hidden_file w)) sample_id = false.
Proof. vm_compute. auto. Qed.
