(* ===== verification/AdminViews.v ===== *)
(** The remaining endpoints of the dashboard ([web_dashboard.cpp]): a client's
    history, the monitoring addresses, the client list and a client's reported
    configuration, the purge of a client's data and the switch of the demo
    server. The theorems say that the reports are JSON and show the stores
    they read, and that a purge erases exactly the client it names. *)

From S2P Require Import Prelude CppString Health History HttpUtil Json Passkeys TrafficStats Registry RateLimit RemoteLogs Hidden Summary SummaryJson.
Local Open Scope Z_scope.

(** ** History *)

(* web_dashboard.cpp:2893-2900 client/history, client id *)
Definition hex64 (s : str) : bool :=
  (length s =? 64)%nat && forallb (fun c => is_digit c || in_range "a" "f" c || in_range "A" "F" c) s.

(** The number of minutes asked for; 0 is the whole window. *)
(* web_dashboard.cpp:2901-2908 client/history, minutes *)
Definition history_minutes (mStr : str) : Z :=
  if decide (mStr = []) then 0
  else match stoi mStr with
       | None => 0
       | Some m => if (m <? 1) || (Z.of_nat kMinuteSlots <? m) then 0 else m
       end.

(* web_dashboard.cpp:2921-2928 client/history, bucket *)
Definition bucket_text (b : HistoryBucket) : str :=
  "{" ++ items_text true [num_field "t" (hb_t b); num_field "in_bytes" (hb_inBytes b); num_field "out_bytes" (hb_outBytes b);
                          num_field "in_packets" (hb_inPackets b); num_field "out_packets" (hb_outPackets b)] ++ "}".

(** [None]: no shard for the client, which does not happen. *)
(* web_dashboard.cpp:2889-2932 client/history *)
Definition client_history `{StdHash} (ts : TrafficStats) (nowSec : Z) (clientId mStr : str) : option Response :=
  if negb (hex64 clientId) then Some (mkHttp 400 ("{" ++ quoted "error" ++ ":"%char :: quoted "client_id must be 64 hex characters" ++ "}"))
  else
    let? (bucketSeconds, buckets) := snapshotHistory ts clientId (history_minutes mStr) nowSec in
    Some (mkHttp 200 ("{" ++ quoted "client_id" ++ ":"%char :: quoted clientId ++ "," ++ num_field "bucket_seconds" bucketSeconds ++ "," ++
      num_field "window_days" (Z.of_nat (windowDays_ (ts_config ts))) ++ "," ++ quoted "buckets" ++ ":[" ++
      items_text true (bucket_text <$> buckets) ++ "]}")).

(** ** Lists *)

(* web_dashboard.cpp:2952-2958 monitors, entry *)
Definition monitor_text (now : Z) (e : str * Z) : str :=
  "{" ++ items_text true [str_field "ip" e.1; num_field "last_seen" e.2; bool_field "active" (now - e.2 <=? 300)] ++ "}".

(* web_dashboard.cpp:2937-2964 monitors *)
Definition monitors `{StdHash} (now : Z) (ips : option MonitoringIpSet.t) : Response :=
  let entries := match ips with Some s => iter s | None => [] end in
  mkHttp 200 ("{" ++ quoted "wire_agents" ++ ":[]," ++ quoted "dashboard_clients" ++ ":[" ++ items_text true (monitor_text now <$> entries) ++ "]}" ++ [LF]).

(* web_dashboard.cpp:3231-3235 clients, entry *)
Definition client_text (health : gmap str ClientHealthStats) (kv : str * str) : str :=
  "{" ++ items_text true [str_field "client_id" kv.1; str_field "nickname" kv.2; bool_field "connected" (bool_decide (is_Some (health !! kv.1)))] ++ "}".

(* web_dashboard.cpp:3214-3240 clients *)
Definition clients_list `{StdHash} (nicknames : gmap str str) (health : gmap str ClientHealthStats) : Response :=
  mkHttp 200 ("{" ++ quoted "clients" ++ ":[" ++ items_text true (client_text health <$> iter nicknames) ++ "]}" ++ [LF]).

(* web_dashboard.cpp:3288-3299 client/config, config object *)
Definition config_text (hs : ClientHealthStats) : str :=
  "{" ++ items_text true [
    str_field "transport" (cfgTransport hs); bool_field "compress" (cfgCompress hs =? 1); num_field "send_buffer" (cfgSendBuffer hs);
    bool_field "auto_update" (cfgAutoUpdate hs =? 1); num_field "reconnect_attempts" (cfgReconnectAttempts hs);
    num_field "reconnect_interval" (cfgReconnectInterval hs); num_field "agg_target_lines" (cfgAggTarget hs);
    num_field "agg_min_ms" (cfgAggMinMs hs); num_field "agg_max_ms" (cfgAggMaxMs hs); num_field "agg_max_flows" (cfgAggMaxFlows hs) ] ++ "}".

(* web_dashboard.cpp:3248-3307 client/config *)
Definition client_config (nicknames : gmap str str) (health : gmap str ClientHealthStats) (clientId : str) : Response :=
  if negb (lower_hex64 clientId) then mkHttp 400 (err_body "client_id must be 64 lowercase hex chars")
  else
    let hs := health !! clientId in
    mkHttp 200 ("{" ++ items_text true [
      str_field "client_id" clientId; str_field "nickname" (default [] (nicknames !! clientId)); bool_field "connected" (bool_decide (is_Some hs));
      quoted "config" ++ ":"%char :: match hs with
        | Some hs => if decide (cfgTransport hs = []) then "null" else config_text hs
        | None => "null"
        end ] ++ "}" ++ [LF]).

(** ** Purge *)

(** The client a name stands for: a nickname, a client id, or an id of the
    nickname table. *)
(* web_dashboard.cpp:3001-3018 purge, resolve *)
Definition resolve_client `{StdHash} (nicknames : gmap str str) (name : str) : str :=
  let hexId := default [] (fst <$> (list_find (fun kv => kv.2 = name) (iter nicknames) ≫= fun p => Some p.2)) in
  let hexId := if bool_decide (hexId = []) && isHexClientId name then name else hexId in
  if decide (hexId = []) then default [] (fst <$> (list_find (fun kv => kv.1 = name) (iter nicknames) ≫= fun p => Some p.2)) else hexId.

(* web_dashboard.cpp:2970-3039 purge *)
Definition purge `{StdHash} (nicknames : gmap str str) (now : Z) (ip body : str) (limiter : WebRateLimiter.t) (ts : TrafficStats)
  : option (WebRateLimiter.t * TrafficStats * Response) :=
  let (limiter, admitted) := WebRateLimiter.tryAcquire 5 now ip limiter in
  if negb admitted then Some (limiter, ts, mkHttp 429 (err_body "rate limit exceeded"))
  else
    let clientName := jsonGetString body "client" in
    if decide (clientName = []) then Some (limiter, ts, mkHttp 400 (err_body "bad request: client field required"))
    else
      let hexId := resolve_client nicknames clientName in
      if decide (hexId = []) then Some (limiter, ts, mkHttp 404 (err_body "client not found"))
      else
        let? (ts, _) := ts_purgeClient hexId ts in
        Some (limiter, ts, mkHttp 200 ("{" ++ quoted "ok" ++ ":true," ++ str_field "client_id" hexId ++ "," ++ quoted "message" ++ ":"%char ::
          quoted "client data purged" ++ "}" ++ [LF])).

(** ** Demo switch *)

(** Whether demo mode is on, and the start of its session. *)
Record Demo := mkDemo { demoEnabled : bool; demoSessionStart : Z }.

(* web_dashboard.cpp:3168-3205 demo *)
Definition demo_switch (body : str) (d : Demo) : Demo * Response :=
  match find_str (quoted "enabled") body with
  | None => (d, mkHttp 400 (err_body "missing enabled field"))
  | Some pos =>
      match find_if (char_in ["t"%char; "f"%char]) (substr_from body (pos + 9)) with
      | None => (d, mkHttp 400 (err_body "enabled must be true or false"))
      | Some p =>
          let enabled := bool_decide (substr_from body (pos + 9) !! p = Some "t"%char) in
          (mkDemo enabled (if enabled then 0 else demoSessionStart d),
           mkHttp 200 ("{" ++ quoted "ok" ++ ":true," ++ bool_field "demo_enabled" enabled ++ "}" ++ [LF]))
      end
  end.

(** The start of the demo session at a request for the demo summary. *)
(* web_dashboard.cpp:324-329 buildDemoSummaryJson, session *)
Definition demo_session (now : Z) (d : Demo) : Demo :=
  if (demoSessionStart d =? 0) || (900 <=? now - demoSessionStart d) then mkDemo (demoEnabled d) now else d.

(** ** The documents *)

Definition bucket_doc (b : HistoryBucket) : str * Doc :=
  ([], DObj [field "t" (DNum (hb_t b)); field "in_bytes" (DNum (hb_inBytes b)); field "out_bytes" (DNum (hb_outBytes b));
             field "in_packets" (DNum (hb_inPackets b)); field "out_packets" (DNum (hb_outPackets b))] []).

Definition history_doc (clientId : str) (bucketSeconds windowDays : Z) (buckets : list HistoryBucket) : Doc :=
  DObj [field "client_id" (DStr clientId); field "bucket_seconds" (DNum bucketSeconds); field "window_days" (DNum windowDays);
        field "buckets" (DArr (bucket_doc <$> buckets) [])] [].

Definition monitor_doc (now : Z) (e : str * Z) : str * Doc :=
  ([], DObj [field "ip" (DStr e.1); field "last_seen" (DNum e.2); field "active" (DBool (now - e.2 <=? 300))] []).

Definition monitors_doc (now : Z) (entries : list (str * Z)) : Doc :=
  DObj [field "wire_agents" (DArr [] []); field "dashboard_clients" (DArr (monitor_doc now <$> entries) [])] [].

Definition client_doc (health : gmap str ClientHealthStats) (kv : str * str) : str * Doc :=
  ([], DObj [field "client_id" (DStr kv.1); field "nickname" (DStr kv.2); field "connected" (DBool (bool_decide (is_Some (health !! kv.1))))] []).

Definition clients_doc `{StdHash} (nicknames : gmap str str) (health : gmap str ClientHealthStats) : Doc :=
  DObj [field "clients" (DArr (client_doc health <$> iter nicknames) [])] [].

Definition config_doc (hs : option ClientHealthStats) : Doc :=
  match hs with
  | Some hs =>
      if decide (cfgTransport hs = []) then DNull
      else DObj [
        field "transport" (DStr (cfgTransport hs)); field "compress" (DBool (cfgCompress hs =? 1)); field "send_buffer" (DNum (cfgSendBuffer hs));
        field "auto_update" (DBool (cfgAutoUpdate hs =? 1)); field "reconnect_attempts" (DNum (cfgReconnectAttempts hs));
        field "reconnect_interval" (DNum (cfgReconnectInterval hs)); field "agg_target_lines" (DNum (cfgAggTarget hs));
        field "agg_min_ms" (DNum (cfgAggMinMs hs)); field "agg_max_ms" (DNum (cfgAggMaxMs hs)); field "agg_max_flows" (DNum (cfgAggMaxFlows hs)) ] []
  | None => DNull
  end.

Definition client_config_doc (nicknames : gmap str str) (health : gmap str ClientHealthStats) (clientId : str) : Doc :=
  DObj [field "client_id" (DStr clientId); field "nickname" (DStr (default [] (nicknames !! clientId)));
        field "connected" (DBool (bool_decide (is_Some (health !! clientId)))); field "config" (config_doc (health !! clientId))] [].

(** ** Lemmas *)

Lemma hex64_esc s : hex64 s = true -> jsonEsc s = s.
Proof.
  intros [_ H]%andb_true_iff. rewrite forallb_forall in H. apply plain_esc. unfold plain_text. apply Forall_forall. intros c Hc%list_elem_of_In%H.
  assert (G : forall c, implb (is_digit c || in_range "a" "f" c || in_range "A" "F" c)
    (negb (bool_decide (c = DQUOTE)) && negb (bool_decide (c = BSLASH)) && (32 <=? byte_val c)) = true) by (apply byte_forall; vm_compute; reflexivity).
  specialize (G c). rewrite Hc in G. cbn [implb] in G. bool_to_prop. done.
Qed.

(** Rows next to each other. *)
Lemma dense_arr {A} (doc : A -> str * Doc) (text : A -> str) (l : list A) :
  (forall x, item_text (doc x) = text x) -> render (DArr (doc <$> l) []) = "["%char :: items_text true (text <$> l) ++ "]".
Proof.
  intros H. rewrite render_arr, <- list_fmap_compose. by rewrite (list_fmap_ext (item_text ∘ doc) text) by (intros; apply H).
Qed.

Lemma dense_ok {A} (doc : A -> str * Doc) (l : list A) : (forall x, ws (doc x).1 /\ doc_ok (doc x).2) -> doc_ok (DArr (doc <$> l) []).
Proof. intros H. apply arr_ok; [apply List.Forall_nil |]. apply Forall_fmap, Forall_forall. intros x _. apply H. Qed.

Ltac dense_row := split; [apply List.Forall_nil |]; apply obj_ok; [apply List.Forall_nil |]; members_ok; exact I.

Lemma member_of_field k d : member_text (field k d) = quoted k ++ ":"%char :: render d.
Proof. reflexivity. Qed.

Lemma config_doc_text o :
  render (config_doc o) = match o with Some hs => if decide (cfgTransport hs = []) then "null" else config_text hs | None => "null" end.
Proof. destruct o as [hs |]; [| done]. unfold config_doc. case_decide; reflexivity. Qed.

(** The text of a view and of its document, with their concatenations to the right. *)
Ltac same_text :=
  rewrite render_obj; cbn [fmap list_fmap]; rewrite !member_of_field;
  rewrite ?(dense_arr bucket_doc bucket_text), ?(dense_arr (monitor_doc _) (monitor_text _)), ?(dense_arr (client_doc _) (client_text _)) by reflexivity;
  cbn [items_text render content]; unfold str_field, num_field, bool_field, quoted; repeat (rewrite <- app_assoc; cbn [app]); reflexivity.

Section Views.
Context `{SH : StdHash}.

Lemma history_text clientId bs w l : hex64 clientId = true ->
  "{" ++ quoted "client_id" ++ ":"%char :: quoted clientId ++ "," ++ num_field "bucket_seconds" bs ++ "," ++
      num_field "window_days" w ++ "," ++ quoted "buckets" ++ ":[" ++ items_text true (bucket_text <$> l) ++ "]}"
  = render (history_doc clientId bs w l).
Proof. intros H. unfold history_doc. rewrite <- (hex64_esc clientId H) at 1. same_text. Qed.

Lemma monitors_text now ips :
  content (monitors now ips) = render (monitors_doc now (match ips with Some s => iter s | None => [] end)) ++ [LF].
Proof. unfold monitors, monitors_doc. same_text. Qed.

Lemma clients_text n h : content (clients_list n h) = render (clients_doc n h) ++ [LF].
Proof. unfold clients_list, clients_doc. same_text. Qed.

Lemma client_config_text n h id : lower_hex64 id = true -> content (client_config n h id) = render (client_config_doc n h id) ++ [LF].
Proof.
  intros H. unfold client_config, client_config_doc. rewrite H. cbn [negb]. cbv zeta. rewrite <- config_doc_text. same_text.
Qed.
End Views.

Section JsonViews.
Context `{SH : StdHash}.

(** The reports are JSON: a strict reader takes each answer and gets back the
    rows of the stores: the history buckets, the monitoring addresses, the
    clients with their nicknames, and the configuration a client reported. *)
Lemma admin_views_json :
  (forall (ts : TrafficStats) (now : Z) (clientId mStr : str) (bs : Z) (l : list HistoryBucket),
     hex64 clientId = true -> snapshotHistory ts clientId (history_minutes mStr) now = Some (bs, l) ->
     exists r, client_history ts now clientId mStr = Some r /\ status r = 200 /\
       parse_json (content r) = Some (value (history_doc clientId bs (Z.of_nat (windowDays_ (ts_config ts))) l))) /\
  (forall now ips, parse_json (content (monitors now ips)) = Some (value (monitors_doc now (match ips with Some s => iter s | None => [] end)))) /\
  (forall n h, parse_json (content (clients_list n h)) = Some (value (clients_doc n h))) /\
  (forall n h id, lower_hex64 id = true -> parse_json (content (client_config n h id)) = Some (value (client_config_doc n h id))).
Proof.
  split_conj.
  - intros ts now clientId mStr bs l Hh Hs. unfold client_history. rewrite Hh, Hs. cbn [negb]. eexists; split_conj; [done | done |].
    cbn [content]. rewrite history_text by done. rewrite <- (app_nil_r (render _)). apply (parse_render _ [] []); [| apply List.Forall_nil ..].
    apply obj_ok; [apply List.Forall_nil |]. members_ok; try exact I. apply dense_ok. intros x. dense_row.
  - intros now ips. rewrite monitors_text. apply (parse_render _ [] [LF]); [| apply List.Forall_nil | literal_ok].
    apply obj_ok; [apply List.Forall_nil |]. members_ok; [apply arr_ok; apply List.Forall_nil |]. apply dense_ok. intros x. dense_row.
  - intros n h. rewrite clients_text. apply (parse_render _ [] [LF]); [| apply List.Forall_nil | literal_ok].
    apply obj_ok; [apply List.Forall_nil |]. members_ok. apply dense_ok. intros x. dense_row.
  - intros n h id H. rewrite client_config_text by done. apply (parse_render _ [] [LF]); [| apply List.Forall_nil | literal_ok].
    apply obj_ok; [apply List.Forall_nil |]. members_ok; try exact I. destruct (h !! id) as [hs |]; [| exact I]. cbn [config_doc].
    case_decide; [exact I |]. apply obj_ok; [apply List.Forall_nil |]. members_ok; exact I.
Qed.

(** A purge touches the store only when it answers 200, and then exactly as
    [TrafficStats.purgeClient_exact] says for the client the name stands for. *)
Lemma purge_endpoint_exact nicknames now ip body limiter ts limiter' ts' r :
  purge nicknames now ip body limiter ts = Some (limiter', ts', r) ->
  (status r <> 200 /\ ts' = ts) \/
  (status r = 200 /\ exists name id found, name = jsonGetString body "client" /\ name <> [] /\ id = resolve_client nicknames name /\ id <> [] /\
     ts_purgeClient id ts = Some (ts', found)).
Proof.
  unfold purge. destruct (WebRateLimiter.tryAcquire _ _ _ _) as [l' []]; cbn [negb]; [| intros [= <- <- <-]; left; split; [discriminate | done]].
  cbv zeta. case_decide; [intros [= <- <- <-]; left; split; [discriminate | done] |].
  case_decide; [intros [= <- <- <-]; left; split; [discriminate | done] |].
  destruct (ts_purgeClient _ ts) as [[t2 found] |] eqn:E; [| done]. intros [= <- <- <-]. right. split; [done |]. by eexists _, _, found.
Qed.

End JsonViews.

(** A nickname that is another client's identifier takes the purge of that
    client: nicknames are looked up before identifiers. *)
Lemma nickname_takes_purge `{SH : StdHash} `{!StdHashLaws SH} (a b : str) (nicknames : gmap str str) :
  nicknames !! a = Some b -> (forall k, nicknames !! k = Some b -> k = a) -> a <> [] -> resolve_client nicknames b = a.
Proof.
  intros Ha Hu Hne. unfold resolve_client. cbv zeta.
  destruct (list_find (fun kv => kv.2 = b) (iter nicknames)) as [[i [k v]] |] eqn:E.
  - apply list_find_Some in E as (Hi & Hv & _). cbn in Hv. subst v. apply list_elem_of_lookup_2 in Hi.
    rewrite iter_perm, elem_of_map_to_list in Hi. apply Hu in Hi as ->. cbn. rewrite bool_decide_false by done. by rewrite decide_False.
  - exfalso. apply list_find_None in E. rewrite Forall_forall in E. apply (E (a, b)); [| done]. by rewrite iter_perm, elem_of_map_to_list.
Qed.

Lemma nickname_takes_purge_example :
  let b := repeat "b"%char 64 in
  resolve_client {[ repeat "a"%char 64 := b; b := "office" : str ]} b = repeat "a"%char 64.
Proof. vm_compute. reflexivity. Qed.
