(* ===== verification/Siwa.v ===== *)
(** Sign in with Apple, the token validation ([siwa.hpp], [siwa.cpp]) and its
    three endpoints ([web_dashboard.cpp]): pending web flows, the key cache, the
    replay cache of the native flow, and the sessions they open. RSA
    verification and SHA-256 are OpenSSL's, the download of the keys is
    libcurl's; clocks and random bytes are arguments. The theorems say which
    tokens open a session, and that neither a state nor a native token opens a
    second one. *)

From S2P Require Import Prelude CppString Upgrade HttpUtil Updater Base64Url Passkeys WebAuthn RemoteLogs SiwaStore.
Local Open Scope Z_scope.

(** PKCS#1 v1.5 with SHA-256: modulus, exponent, message, signature. *)
Class Rsa := { rs256_verify : str -> str -> str -> str -> bool }.

(** ** Tokens *)

(* siwa.hpp:83-88 siwaBase64urlDecode, table *)
Definition dec_char (c : ascii) : option Z :=
  if is_upper c then Some (byte_val c - byte_val "A")
  else if is_lower c then Some (26 + (byte_val c - byte_val "a"))
  else if is_digit c then Some (52 + (byte_val c - byte_val "0"))
  else if char_in ["+"%char; "-"%char] c then Some 62
  else if char_in ["/"%char; "_"%char] c then Some 63
  else None.

(* siwa.hpp:94-101 siwaBase64urlDecode, loop *)
Fixpoint decode_loop (s : str) (acc bits : Z) (out : str) : str :=
  match s with
  | [] => out
  | c :: s =>
      match dec_char c with
      | None => decode_loop s acc bits out
      | Some v =>
          let acc := Z.lor (u32 (Z.shiftl acc 6)) v in
          let bits := bits + 6 in
          if 8 <=? bits
          then decode_loop s acc (bits - 8) (out ++ [byte_of (Z.land (Z.shiftr acc (bits - 8)) 0xFF)])
          else decode_loop s acc bits out
      end
  end.

(* siwa.hpp:80-103 siwaBase64urlDecode *)
Definition siwaBase64urlDecode (s : str) : str := decode_loop s 0 0 [].

(* siwa.hpp:56-64 JwtParts *)
Record JwtParts := mkJwt {
  headerB64 : str; payloadB64 : str; sigB64 : str; signingInput : str; headerJson : str; payloadJson : str
}.

(* siwa.hpp:67-72 SiwaJwksKey *)
Record SiwaJwksKey := mkKey { kid : str; k_n : str; k_e : str }.

(* siwa.hpp:106-126 parseJwt *)
Definition parseJwt (token : str) : option JwtParts :=
  let? dot1 := find_char "." token in
  let? dot2 := find_char_from "." token (S dot1) in
  let h := substr token 0 dot1 in
  let p := substr token (S dot1) (dot2 - dot1 - 1) in
  let hBytes := siwaBase64urlDecode h in
  let pBytes := siwaBase64urlDecode p in
  if bool_decide (hBytes = []) || bool_decide (pBytes = []) then None
  else Some (mkJwt h p (substr_from token (S dot2)) (substr token 0 dot2) hBytes pBytes).

Definition kIssuer : str := "https://appleid.apple.com".
Definition kClockSkewSec : Z := 30.

(** [None]: signed overflow. The empty text is success. *)
(* siwa.hpp:172-198 validateAppleClaims *)
Definition validateAppleClaims (payload : str) (allowedAuds : list str) (expectedNonceHash : str) (nowUtcSec : Z) : option str :=
  if negb (bool_decide (jwtGetStr payload "iss" = kIssuer)) then Some ("iss mismatch" : str)
  else
    let aud := jwtGetStr payload "aud" in
    if negb (existsb (fun a => bool_decide (a = aud)) allowedAuds) then Some ("aud not in allowlist: " ++ aud)
    else
      let? exp := jwtGetLong payload "exp" in
      if exp =? 0 then Some ("token expired" : str)
      else if INT64_MAX <? exp + kClockSkewSec then None
      else if exp + kClockSkewSec <? nowUtcSec then Some ("token expired" : str)
      else if negb (bool_decide (expectedNonceHash = [])) && negb (bool_decide (jwtGetStr payload "nonce" = expectedNonceHash))
      then Some ("nonce mismatch" : str)
      else Some [].

Definition upper_hex (v : Z) : ascii := nth (Z.to_nat v) ("0123456789ABCDEF" : str) NUL.

(* siwa.hpp:207-222 buildAuthorizeUrl, urlEncode *)
Definition urlEncode (s : str) : str :=
  concat ((fun c => if is_digit c || is_lower c || is_upper c || char_in ["-"%char; "_"%char; "."%char; "~"%char] c then [c]
                    else ["%"%char; upper_hex (Z.shiftr (byte_val c) 4); upper_hex (Z.land (byte_val c) 0xF)]) <$> s).

(* siwa.hpp:202-232 buildAuthorizeUrl *)
Definition buildAuthorizeUrl (serviceId redirectUri state nonceHash : str) : str :=
  "https://appleid.apple.com/auth/authorize?response_type=code%20id_token&response_mode=form_post&client_id="
  ++ urlEncode serviceId ++ "&redirect_uri=" ++ urlEncode redirectUri ++ "&scope=email&state=" ++ urlEncode state
  ++ "&nonce=" ++ urlEncode nonceHash.

(** ** The validator *)

(* siwa.hpp:31-40 SiwaConfig *)
Record SiwaConfig := mkSiwaConfig { serviceId : str; iosBundleId : str; redirectUri : str; adminFile : str; domainAssocText : str }.

(* siwa.hpp:352-356 SiwaValidator::PendingState *)
Record PendingState := mkPending { nonceRaw : str; p_expiry : Z }.

(* siwa.hpp:358-367 SiwaValidator *)
Record Validator := mkValidator {
  pending : gmap str PendingState; jwksKeys : list SiwaJwksKey; jwksExpiry : Z; nativeReplayCache : gmap str Z
}.

Definition set_pending (f : gmap str PendingState -> gmap str PendingState) (v : Validator) : Validator :=
  mkValidator (f (pending v)) (jwksKeys v) (jwksExpiry v) (nativeReplayCache v).
Definition set_keys (ks : list SiwaJwksKey) (t : Z) (v : Validator) : Validator :=
  mkValidator (pending v) ks t (nativeReplayCache v).
Definition set_replay (f : gmap str Z -> gmap str Z) (v : Validator) : Validator :=
  mkValidator (pending v) (jwksKeys v) (jwksExpiry v) (f (nativeReplayCache v)).

Definition new_validator : Validator := mkValidator ∅ [] 0 ∅.

(* siwa.cpp:227-233 parseJwksJson, key *)
Definition read_key (obj : str) : option SiwaJwksKey :=
  let k := mkKey (jwtGetStr obj "kid") (jwtGetStr obj "n") (jwtGetStr obj "e") in
  if bool_decide (k_n k = []) || bool_decide (k_e k = []) then None else Some k.

(* siwa.cpp:210-237 parseJwksJson *)
Definition parseJwksJson (json : str) : list SiwaJwksKey :=
  match find_str (quoted "keys") json with
  | None => []
  | Some p =>
      match find_char_from "[" json p with
      | None => []
      | Some p => omap read_key (objects (length json) (substr_from json (S p)))
      end
  end.

(** One use of the key cache: the steady clock before and after the download,
    and the body, [None] unless the server answered 200. *)
Record Fetch := mkFetch { f_now : Z; f_done : Z; f_body : option str }.

(* siwa.cpp:262-333 ensureJwks *)
Definition ensureJwks (f : Fetch) (v : Validator) : Validator * bool :=
  if negb (bool_decide (jwksKeys v = [])) && (f_now f <? jwksExpiry v) then (v, true)
  else match f_body f with
       | None => (v, false)
       | Some body =>
           match parseJwksJson body with
           | [] => (v, false)
           | ks => (set_keys ks (f_done f + hours 1) v, true)
           end
       end.

Section Validation.
Context `{SH : Sha256} `{RS : Rsa} (cfg : SiwaConfig).

(* siwa.cpp:185-193 sha256Hex *)
Definition sha256Hex (s : str) : str := hexEncode (sha256_digest s).

(* siwa.cpp:339-390 rsaVerifyRS256 *)
Definition rsaVerifyRS256 (key : SiwaJwksKey) (input sig : str) : bool :=
  let n := siwaBase64urlDecode (k_n key) in
  let e := siwaBase64urlDecode (k_e key) in
  let s := siwaBase64urlDecode sig in
  if bool_decide (n = []) || bool_decide (e = []) || bool_decide (s = []) then false
  else rs256_verify n e input s.

Definition find_kid (id : str) (ks : list SiwaJwksKey) : option SiwaJwksKey :=
  snd <$> list_find (fun k => kid k = id) ks.

(* siwa.cpp:410-427 verifyJwt, key *)
Definition find_key (f1 f2 : Fetch) (id : str) (v : Validator) : Validator * result SiwaJwksKey :=
  let (v, ok) := ensureJwks f1 v in
  if negb ok then (v, Err "JWKS unavailable")
  else match find_kid id (jwksKeys v) with
       | Some k => (v, Ok k)
       | None =>
           let (v, ok) := ensureJwks f2 (set_keys [] (jwksExpiry v) v) in
           if negb ok then (v, Err "JWKS refresh failed")
           else match find_kid id (jwksKeys v) with
                | Some k => (v, Ok k)
                | None => (v, Err ("no JWKS key matching kid=" ++ id))
                end
       end.

(** Subject and address, or an error. *)
(* siwa.cpp:396-445 verifyJwt *)
Definition verifyJwt (f1 f2 : Fetch) (now : Z) (idToken : str) (allowedAuds : list str) (nonceHash : str) (v : Validator)
  : option (Validator * result (str * str)) :=
  match parseJwt idToken with
  | None => Some (v, Err "malformed JWT")
  | Some parts =>
      let alg := jwtGetStr (headerJson parts) "alg" in
      if negb (bool_decide (alg = "RS256")) then Some (v, Err ("unsupported alg: " ++ alg))
      else
        let (v, r) := find_key f1 f2 (jwtGetStr (headerJson parts) "kid") v in
        match r with
        | Err e => Some (v, Err e)
        | Ok key =>
            if negb (rsaVerifyRS256 key (signingInput parts) (sigB64 parts)) then Some (v, Err "signature verification failed")
            else
              let? claimErr := validateAppleClaims (payloadJson parts) allowedAuds nonceHash now in
              if negb (bool_decide (claimErr = [])) then Some (v, Err claimErr)
              else
                let sub := jwtGetStr (payloadJson parts) "sub" in
                if decide (sub = []) then Some (v, Err "missing sub claim")
                else Some (v, Ok (sub, jwtGetStr (payloadJson parts) "email"))
        end
  end.

(* siwa.cpp:451-456 sweepPending *)
Definition sweepPending (now : Z) (v : Validator) : Validator :=
  set_pending (filter (fun kv => now <= p_expiry kv.2)) v.

(** The random bytes of state and nonce; state and redirect URL. *)
(* siwa.cpp:458-473 beginFlow *)
Definition beginFlow (t_sweep t : Z) (raw_state raw_nonce : str) (v : Validator) : Validator * (str * str) :=
  let v := sweepPending t_sweep v in
  let state := hexEncode raw_state in
  let nonce := hexEncode raw_nonce in
  (set_pending <[state := mkPending nonce (t + minutes 10)]> v,
   (state, buildAuthorizeUrl (serviceId cfg) (redirectUri cfg) state (sha256Hex nonce))).

(* siwa.cpp:475-491 verifyCallback *)
Definition verifyCallback (t_sweep : Z) (f1 f2 : Fetch) (now : Z) (state idToken : str) (allowedAuds : list str) (v : Validator)
  : option (Validator * result (str * str)) :=
  let v := sweepPending t_sweep v in
  match pending v !! state with
  | None => Some (v, Err "unknown or expired state")
  | Some p => verifyJwt f1 f2 now idToken allowedAuds (sha256Hex (nonceRaw p)) (set_pending (delete state) v)
  end.

Definition replay_key (sub : str) (exp : Z) : str := sub ++ ":"%char :: print_int exp.

(** Entries whose grace period ended; [None] is signed overflow. *)
(* siwa.cpp:510-513 verifyNative, prune *)
Definition prune_replay (now : Z) (m : gmap str Z) : option (gmap str Z) :=
  if decide (map_Forall (fun _ e => e + 60 <= INT64_MAX) m) then Some (filter (fun kv => now <= kv.2 + 60) m) else None.

(** [u1] and [u2]: the system clock at the replay check and at validation. *)
(* siwa.cpp:493-527 verifyNative *)
Definition verifyNative (u1 u2 : Z) (f1 f2 : Fetch) (idToken : str) (allowedAuds : list str) (v : Validator)
  : option (Validator * result (str * str)) :=
  match parseJwt idToken with
  | None => Some (v, Err "malformed JWT")
  | Some parts =>
      let sub := jwtGetStr (payloadJson parts) "sub" in
      let? exp := jwtGetLong (payloadJson parts) "exp" in
      let watched := negb (bool_decide (sub = [])) && (0 <? exp) in
      let? m := if watched then prune_replay u1 (nativeReplayCache v) else Some (nativeReplayCache v) in
      let v := set_replay (fun _ => m) v in
      if watched && bool_decide (is_Some (m !! replay_key sub exp)) then Some (v, Err "token replay detected")
      else
        let? (v, r) := verifyJwt f1 f2 u2 idToken allowedAuds [] v in
        Some (match r with Ok _ => if watched then set_replay <[replay_key sub exp := exp]> v else v | Err _ => v end, r)
  end.

End Validation.

(** ** Endpoints *)

(** The validator, the admin records with their file, the web sessions. *)
Record SiwaWeb := mkSiwaWeb { validator : Validator; admins : list SiwaAdminIdentity; admins_file : option str; sessions_rp : RP }.

(** An answer: status, body, cookies set, redirect target. *)
Record Answer := mkAnswer { a_http : Response; cookies : list str; location : option str }.

Definition plain_answer (r : Response) : Answer := mkAnswer r [] None.

Definition kStateCookie : str := "ntm_siwa_state=".

Section Endpoints.
Context `{SH : Sha256} `{RS : Rsa} (cfg : SiwaConfig) (rp : WebAuthnConfig).

(* web_dashboard.cpp:3651-3662 GET /auth/apple/start *)
Definition apple_start (t_sweep t : Z) (raw_state raw_nonce : str) (w : SiwaWeb) : SiwaWeb * Answer :=
  let (v, r) := beginFlow cfg t_sweep t raw_state raw_nonce (validator w) in
  (mkSiwaWeb v (admins w) (admins_file w) (sessions_rp w),
   mkAnswer (mkHttp 302 [])
     [kStateCookie ++ r.1 ++ "; HttpOnly; Secure; SameSite=None; Path=/auth/apple/callback; Max-Age=600"] (Some r.2)).

(** The role, the pinned record and the session of a verified identity. [opens]:
    the admin file can be written. *)
(* web_dashboard.cpp:3691-3695 POST /auth/apple/callback, session *)
Definition open_session (opens : bool) (t_sweep now : Z) (random sub email : str) (v : Validator) (w : SiwaWeb)
  : SiwaWeb * bool * str :=
  let '(ids, file, isAdmin) := matchAndPin (adminFile cfg) opens sub email (admins w) (admins_file w) in
  let (s, token) := createIdentitySession rp t_sweep now random sub isAdmin (sessions_rp w) in
  (mkSiwaWeb v ids file s, isAdmin, token).

(** Clock readings and outside results of one request. *)
Record LoginEnv := mkLoginEnv {
  l_sweep : Z; l_fetch1 : Fetch; l_fetch2 : Fetch; l_utc1 : Z; l_utc2 : Z;
  l_opens : bool; l_sess_sweep : Z; l_sess_now : Z; l_random : str
}.

(** The handler does not look at the request's cookies. *)
(* web_dashboard.cpp:3666-3732 POST /auth/apple/callback *)
Definition apple_callback (e : LoginEnv) (state idToken : str) (w : SiwaWeb) : option (SiwaWeb * Answer) :=
  if bool_decide (state = []) || bool_decide (idToken = [])
  then Some (w, plain_answer (mkHttp 400 "Bad callback: missing state or id_token"))
  else
    let? (v, r) := verifyCallback (l_sweep e) (l_fetch1 e) (l_fetch2 e) (l_utc2 e) state idToken [serviceId cfg] (validator w) in
    match r with
    | Err msg =>
        Some (mkSiwaWeb v (admins w) (admins_file w) (sessions_rp w),
              plain_answer (mkHttp 401 ("Sign in with Apple failed: " ++ msg)))
    | Ok (sub, email) =>
        let '(w, isAdmin, token) := open_session (l_opens e) (l_sess_sweep e) (l_sess_now e) (l_random e) sub email v w in
        let dest : str := if isAdmin then "/admin" else "/" in
        Some (w, mkAnswer
          (mkHttp 200 ("<!DOCTYPE html><html><head><meta http-equiv='refresh' content='0;url=" ++ dest ++
                       "'></head><body><script>location.replace('" ++ dest ++ "')</script></body></html>"))
          ["ntm_session=" ++ token ++ "; HttpOnly; Secure; SameSite=Strict; Path=/; Max-Age=86400";
           kStateCookie ++ "; HttpOnly; Secure; SameSite=None; Path=/auth/apple/callback; Max-Age=0; Expires=Thu, 01 Jan 1970 00:00:00 GMT"]
          None)
    end.

Definition native_auds : list str := serviceId cfg :: (if decide (iosBundleId cfg = []) then [] else [iosBundleId cfg]).

(* web_dashboard.cpp:3736-3773 POST /auth/apple/native *)
Definition apple_native (e : LoginEnv) (body : str) (w : SiwaWeb) : option (SiwaWeb * Answer) :=
  let idToken := jsonGetString body "identity_token" in
  if decide (idToken = []) then Some (w, plain_answer (mkHttp 400 (err_body "identity_token required")))
  else
    let? (v, r) := verifyNative (l_utc1 e) (l_utc2 e) (l_fetch1 e) (l_fetch2 e) idToken native_auds (validator w) in
    match r with
    | Err msg => Some (mkSiwaWeb v (admins w) (admins_file w) (sessions_rp w), plain_answer (mkHttp 401 (err_body (jsonEsc msg))))
    | Ok (sub, email) =>
        let '(w, isAdmin, token) := open_session (l_opens e) (l_sess_sweep e) (l_sess_now e) (l_random e) sub email v w in
        Some (w, plain_answer (mkHttp 200
          ("{" ++ quoted "ok" ++ ":true," ++ quoted "token" ++ ":"%char :: quoted token ++ "," ++
           quoted "role" ++ ":"%char :: quoted (if isAdmin then "admin" else "user") ++ "}" ++ [LF])))
    end.

End Endpoints.

(** ** Lemmas: accepted tokens *)

Section SiwaProps.
Context `{SH : Sha256} `{RS : Rsa}.
Implicit Types (v : Validator) (f : Fetch).

(** The token is signed by one of the keys and its claims hold at [now]. *)
Definition genuine (now : Z) (tok : str) (auds : list str) (nonceHash : str) (keys : list SiwaJwksKey) (s e : str) : Prop :=
  exists parts key exp,
    parseJwt tok = Some parts /\ jwtGetStr (headerJson parts) "alg" = "RS256" /\
    key ∈ keys /\ kid key = jwtGetStr (headerJson parts) "kid" /\
    rsaVerifyRS256 key (signingInput parts) (sigB64 parts) = true /\
    jwtGetStr (payloadJson parts) "iss" = kIssuer /\ jwtGetStr (payloadJson parts) "aud" ∈ auds /\
    jwtGetLong (payloadJson parts) "exp" = Some exp /\ exp <> 0 /\ now <= exp + 30 /\
    (nonceHash = [] \/ jwtGetStr (payloadJson parts) "nonce" = nonceHash) /\
    s = jwtGetStr (payloadJson parts) "sub" /\ s <> [] /\ e = jwtGetStr (payloadJson parts) "email".

(** The keys were cached before or come from a download. *)
Definition from_apple (f1 f2 : Fetch) v (k : SiwaJwksKey) : Prop :=
  k ∈ jwksKeys v \/ exists f body, (f = f1 \/ f = f2) /\ f_body f = Some body /\ k ∈ parseJwksJson body.

Lemma claims_ok (payload nonceHash : str) auds now :
  validateAppleClaims payload auds nonceHash now = Some [] ->
  jwtGetStr payload "iss" = kIssuer /\ jwtGetStr payload "aud" ∈ auds /\
  exists exp, jwtGetLong payload "exp" = Some exp /\ exp <> 0 /\ now <= exp + 30 /\
    (nonceHash = [] \/ jwtGetStr payload "nonce" = nonceHash).
Proof.
  unfold validateAppleClaims. destruct (bool_decide (jwtGetStr payload "iss" = kIssuer)) eqn:Ei; cbn [negb]; [| done].
  destruct (existsb _ auds) eqn:Ea; cbn [negb]; [| by intros [=]].
  apply bool_decide_eq_true in Ei. apply existsb_exists in Ea as (a & Ha & Eq). apply bool_decide_eq_true in Eq. subst a.
  destruct (jwtGetLong payload "exp") as [x |]; [| done].
  destruct (Z.eqb_spec x 0) as [| Hx]; [done |]. destruct (INT64_MAX <? x + kClockSkewSec); [done |].
  destruct (Z.ltb_spec (x + kClockSkewSec) now) as [| Hnow]; [done |]. unfold kClockSkewSec in Hnow.
  destruct (negb (bool_decide (nonceHash = [])) && _) eqn:En; [done |]. intros _. split; [done |]. split; [by apply list_elem_of_In |].
  exists x. split_conj; try done. apply andb_false_iff in En as [En | En]; apply negb_false_iff, bool_decide_eq_true in En; auto.
Qed.

Lemma ensure_keys f v v' ok : ensureJwks f v = (v', ok) ->
  pending v' = pending v /\ nativeReplayCache v' = nativeReplayCache v /\
  forall k, k ∈ jwksKeys v' -> k ∈ jwksKeys v \/ exists body, f_body f = Some body /\ k ∈ parseJwksJson body.
Proof.
  unfold ensureJwks. destruct (_ && _); [intros [= <- <-]; auto |]. destruct (f_body f) as [body |]; [| intros [= <- <-]; auto].
  destruct (parseJwksJson body) as [| k0 ks] eqn:E; intros [= <- <-]; [auto |]. split; [done |]. split; [done |].
  intros k Hk. right. exists body. by rewrite E.
Qed.

Lemma find_key_spec f1 f2 (id : str) v v' r : find_key f1 f2 id v = (v', r) ->
  pending v' = pending v /\ nativeReplayCache v' = nativeReplayCache v /\
  (forall k, k ∈ jwksKeys v' -> from_apple f1 f2 v k) /\
  (forall k, r = Ok k -> k ∈ jwksKeys v' /\ kid k = id).
Proof.
  assert (Hfind : forall ks k, find_kid id ks = Some k -> k ∈ ks /\ kid k = id).
  { intros ks k. unfold find_kid. intros ([i x] & Hl & ->)%fmap_Some. apply list_find_Some in Hl as (Hi & Hk & _).
    split; [by eapply list_elem_of_lookup_2 | done]. }
  unfold find_key, from_apple. destruct (ensureJwks f1 v) as [v1 ok1] eqn:E1. apply ensure_keys in E1 as (P1 & R1 & K1).
  assert (K1' : forall k, k ∈ jwksKeys v1 -> k ∈ jwksKeys v \/ exists f body, (f = f1 \/ f = f2) /\ f_body f = Some body /\ k ∈ parseJwksJson body).
  { intros k [Hk | (body & Hb & Hk)]%K1; [by left | right; by exists f1, body; auto]. }
  destruct ok1; cbn [negb]; [| intros [= <- <-]; by split_conj].
  destruct (find_kid id (jwksKeys v1)) as [k1 |] eqn:F1.
  { intros [= <- <-]. split_conj; try done. intros k [= <-]. by apply Hfind. }
  destruct (ensureJwks f2 _) as [v2 ok2] eqn:E2. apply ensure_keys in E2 as (P2 & R2 & K2). cbn in P2, R2, K2.
  assert (K2' : forall k, k ∈ jwksKeys v2 -> k ∈ jwksKeys v \/ exists f body, (f = f1 \/ f = f2) /\ f_body f = Some body /\ k ∈ parseJwksJson body).
  { intros k [Hk%elem_of_nil | (body & Hb & Hk)]%K2; [done | right; exists f2, body; auto]. }
  rewrite P1 in P2. rewrite R1 in R2.
  destruct ok2; cbn [negb]; [| intros [= <- <-]; by split_conj].
  destruct (find_kid id (jwksKeys v2)) as [k2 |] eqn:F2; intros [= <- <-]; split_conj; try done. intros k [= <-]. by apply Hfind.
Qed.

Lemma verifyJwt_spec f1 f2 now (tok nonceHash : str) auds v v' r :
  verifyJwt f1 f2 now tok auds nonceHash v = Some (v', r) ->
  pending v' = pending v /\ nativeReplayCache v' = nativeReplayCache v /\
  (forall k, k ∈ jwksKeys v' -> from_apple f1 f2 v k) /\
  (forall s e, r = Ok (s, e) -> genuine now tok auds nonceHash (jwksKeys v') s e).
Proof.
  assert (H0 : forall k, k ∈ jwksKeys v -> from_apple f1 f2 v k) by (by left).
  unfold verifyJwt, genuine. destruct (parseJwt tok) as [parts |] eqn:Ep; [| intros [= <- <-]; by split_conj].
  destruct (bool_decide (_ = _)) eqn:Ea; cbn [negb]; [| intros [= <- <-]; by split_conj]. apply bool_decide_eq_true in Ea.
  destruct (find_key _ _ _ _) as [v1 rk] eqn:Ek. apply find_key_spec in Ek as (P & R & K & F).
  destruct rk as [key | msg]; [| intros [= <- <-]; by split_conj]. destruct (F key eq_refl) as [Hkey Hkid].
  destruct (rsaVerifyRS256 _ _ _) eqn:Ev; cbn [negb]; [| intros [= <- <-]; by split_conj].
  destruct (validateAppleClaims _ _ _ _) as [claimErr |] eqn:Ec; [| done].
  destruct (bool_decide (claimErr = [])) eqn:Ee; cbn [negb]; [| intros [= <- <-]; by split_conj].
  apply bool_decide_eq_true in Ee. subst claimErr. apply claims_ok in Ec as (Hi & Hau & exp & Hx & Hx0 & Hn & Hno).
  case_decide as Hs; intros [= <- <-]; [by split_conj |]. split; [done |]. split; [done |]. split; [done |].
  intros s e [= <- <-]. by exists parts, key, exp.
Qed.

(** ** A state and a native token are good for one login *)

Inductive Op :=
  | Begin (t_sweep t : Z) (raw_state raw_nonce : str)
  | Callback (t_sweep : Z) (f1 f2 : Fetch) (now : Z) (state tok : str) (auds : list str)
  | Native (u1 u2 : Z) (f1 f2 : Fetch) (tok : str) (auds : list str).

Context (cfg : SiwaConfig).

Definition exec (v : Validator) (o : Op) : option Validator :=
  match o with
  | Begin t_sweep t rs rn => Some (beginFlow cfg t_sweep t rs rn v).1
  | Callback t_sweep f1 f2 now state tok auds => fst <$> verifyCallback t_sweep f1 f2 now state tok auds v
  | Native u1 u2 f1 f2 tok auds => fst <$> verifyNative u1 u2 f1 f2 tok auds v
  end.

Fixpoint run_siwa (v : Validator) (ops : list Op) : option Validator :=
  match ops with [] => Some v | o :: ops => let? w := exec v o in run_siwa w ops end.

(** The system clock does not go back; [u] is its last reading. *)
Fixpoint timely (u : Z) (ops : list Op) : Prop :=
  match ops with
  | [] => True
  | Native u1 u2 _ _ _ _ :: ops => u <= u1 <= u2 /\ timely u2 ops
  | _ :: ops => timely u ops
  end.

Fixpoint last_reading (u : Z) (ops : list Op) : Z :=
  match ops with
  | [] => u
  | Native _ u2 _ _ _ _ :: ops => last_reading u2 ops
  | _ :: ops => last_reading u ops
  end.

Definition not_beginning (state : str) (o : Op) : Prop :=
  match o with Begin _ _ rs _ => hexEncode rs <> state | _ => True end.

Lemma sweep_none now state v : pending v !! state = None -> pending (sweepPending now v) !! state = None.
Proof. intros H. cbn. apply map_lookup_filter_None. by left. Qed.

Lemma native_pending u1 u2 f1 f2 tok auds v v' r :
  verifyNative u1 u2 f1 f2 tok auds v = Some (v', r) -> pending v' = pending v.
Proof.
  unfold verifyNative. destruct (parseJwt tok); [| by intros [= <- <-]]. destruct (jwtGetLong _ _) as [exp |]; [| done].
  set (w := _ && _). destruct (if w then _ else _) as [m |]; [| done].
  destruct (w && _); [by intros [= <- <-] |]. destruct (verifyJwt _ _ _ _ _ _ _) as [[v1 r1] |] eqn:E; [| done].
  apply verifyJwt_spec in E as (P & _). destruct r1 as [[s e] | msg]; [destruct w |]; by intros [= <- <-].
Qed.

Lemma callback_pending t f1 f2 now (state tok : str) auds v v' r :
  verifyCallback t f1 f2 now state tok auds v = Some (v', r) ->
  pending v' = delete state (filter (fun kv => t <= p_expiry kv.2) (pending v)).
Proof.
  unfold verifyCallback. destruct (pending (sweepPending t v) !! state) as [p |] eqn:E.
  - intros H. apply verifyJwt_spec in H as (P & _). exact P.
  - intros [= <- _]. cbn in E |- *. by rewrite delete_id.
Qed.

Lemma no_state_step state v v' o :
  pending v !! state = None -> not_beginning state o -> exec v o = Some v' -> pending v' !! state = None.
Proof.
  intros Hp Hn. destruct o; cbn [exec] in *.
  - intros [= <-]. cbn. rewrite lookup_insert_ne by done. by apply (sweep_none t_sweep).
  - intros ([v1 r] & E & ->)%fmap_Some. cbn. rewrite (callback_pending _ _ _ _ _ _ _ _ _ _ E).
    destruct (decide (state = state0)) as [-> | Hs]; [apply lookup_delete_eq | rewrite lookup_delete_ne by done].
    by apply (sweep_none t_sweep).
  - intros ([v1 r] & E & ->)%fmap_Some. cbn. by rewrite (native_pending _ _ _ _ _ _ _ _ _ E).
Qed.

(** The replay entry of a token, until it cannot be accepted any more. *)
Definition remembered (u : Z) (sub : str) (exp : Z) v : Prop :=
  nativeReplayCache v !! replay_key sub exp = Some exp \/ exp + 60 < u.

Lemma replay_key_inj s s' x x' : replay_key s x = replay_key s' x' -> 0 < x -> 0 < x' -> x = x'.
Proof.
  unfold replay_key, print_int. intros E Hx Hx'. rewrite (proj2 (Z.ltb_ge x 0)), (proj2 (Z.ltb_ge x' 0)) in E by lia.
  apply last_sep_inj in E as [_ E]; [| by apply to_string_no ..].
  rewrite <- (to_string_val x), <- (to_string_val x') by lia. by rewrite E.
Qed.

Lemma prune_lookup_replay u m m' k e :
  prune_replay u m = Some m' -> m !! k = Some e -> m' !! k = Some e \/ e + 60 < u.
Proof.
  unfold prune_replay. case_decide; [| done]. intros [= <-] Hk. destruct (decide (u <= e + 60)); [left | right; lia].
  by apply map_lookup_filter_Some.
Qed.

Lemma native_remembers u sub exp u1 u2 f1 f2 tok auds v v' r :
  0 < exp -> u <= u1 -> remembered u sub exp v -> verifyNative u1 u2 f1 f2 tok auds v = Some (v', r) ->
  remembered u1 sub exp v'.
Proof.
  intros Hx Hu [Hm | Hm]; [| intros _; right; lia]. unfold verifyNative, remembered.
  destruct (parseJwt tok); [| intros [= <- <-]; by left]. destruct (jwtGetLong _ _) as [x |]; [| done].
  set (s0 := jwtGetStr _ "sub"). set (w := _ && _).
  destruct (if w then _ else _) as [m |] eqn:Em; [| done].
  assert (H : m !! replay_key sub exp = Some exp \/ exp + 60 < u1).
  { destruct w; [by eapply prune_lookup_replay | injection Em as <-; by left]. }
  destruct (w && bool_decide _) eqn:Ed; [intros [= <- <-]; cbn; tauto |].
  destruct (verifyJwt _ _ _ _ _ _ _) as [[v1 r1] |] eqn:E; [| done]. apply verifyJwt_spec in E as (_ & R & _). cbn in R.
  destruct r1 as [[s e] | msg]; [| intros [= <- <-]; rewrite R; tauto].
  destruct w eqn:Ew; intros [= <- <-]; cbn; rewrite R; [| tauto]. destruct H as [H | H]; [left | by right].
  destruct (decide (replay_key s0 x = replay_key sub exp)) as [Ek | Ek]; [| by rewrite lookup_insert_ne].
  assert (x = exp) as ->.
  { apply andb_true_iff in Ew as [_ Ew%Z.ltb_lt]. by apply (replay_key_inj s0 sub). }
  rewrite Ek. apply lookup_insert_eq.
Qed.

Lemma run_remembers u sub exp ops v v' :
  0 < exp -> timely u ops -> remembered u sub exp v -> run_siwa v ops = Some v' -> remembered (last_reading u ops) sub exp v'.
Proof.
  intros Hx. revert u v. induction ops as [| o ops IH]; intros u v Ht Hr; cbn [run_siwa]; [by intros [= <-] |].
  destruct (exec v o) as [v1 |] eqn:E; [| done]. intros Hrun. destruct o; cbn [timely last_reading exec] in *.
  - injection E as <-. apply (IH u _ Ht) in Hrun; [done | exact Hr].
  - apply fmap_Some in E as ([v2 r] & E & ->). apply (IH u v2 Ht); [| done].
    assert (R : nativeReplayCache v2 = nativeReplayCache v).
    { unfold verifyCallback in E. destruct (_ !! _); [by apply verifyJwt_spec in E as (_ & R & _) | by injection E as <- _]. }
    unfold remembered. by rewrite R.
  - apply fmap_Some in E as ([v2 r] & E & ->). destruct Ht as [Hu Ht]. apply (IH u2 v2 Ht); [| done].
    destruct (native_remembers u sub exp u1 u2 f1 f2 tok auds v v2 r Hx ltac:(lia) Hr E) as [H | H]; [by left | right; lia].
Qed.

(** What an accepted native login leaves behind. *)
Lemma native_accepted u1 u2 f1 f2 tok auds v v' s e :
  30 < u2 -> verifyNative u1 u2 f1 f2 tok auds v = Some (v', Ok (s, e)) ->
  genuine u2 tok auds [] (jwksKeys v') s e /\ (forall k, k ∈ jwksKeys v' -> from_apple f1 f2 v k) /\
  exists parts exp, parseJwt tok = Some parts /\ jwtGetLong (payloadJson parts) "exp" = Some exp /\ 0 < exp /\
    s = jwtGetStr (payloadJson parts) "sub" /\ s <> [] /\ nativeReplayCache v' !! replay_key s exp = Some exp.
Proof.
  intros Hu. unfold verifyNative. destruct (parseJwt tok) as [parts |] eqn:Ep; [| done].
  destruct (jwtGetLong (payloadJson parts) "exp") as [exp |] eqn:Ex; [| done].
  set (w := _ && (0 <? exp)). destruct (if w then _ else _) as [m |]; [| done]. destruct (w && _); [done |].
  destruct (verifyJwt _ _ _ _ _ _ _) as [[v1 r1] |] eqn:E; [| done]. apply verifyJwt_spec in E as (_ & R & K & G).
  destruct r1 as [[s1 e1] | msg]; [| done]. specialize (G s1 e1 eq_refl).
  assert (Hg := G). destruct Hg as (parts' & key & exp' & Ep' & _ & _ & _ & _ & _ & _ & Ex' & _ & Hx & _ & Hs & Hs0 & _).
  assert (parts' = parts) as -> by congruence. assert (exp' = exp) as -> by congruence.
  assert (Hw : w = true) by (unfold w; rewrite <- Hs, bool_decide_false by done; apply Z.ltb_lt; lia). rewrite Hw.
  intros [= <- <- <-]. split; [done |]. split; [done |]. exists parts, exp. split_conj; try done; [lia |].
  rewrite Hs. apply lookup_insert_eq.
Qed.

Lemma native_again u u1 u2 f1 f2 tok auds v v' parts exp s r :
  0 < exp -> u <= u1 -> u1 <= u2 -> parseJwt tok = Some parts -> jwtGetLong (payloadJson parts) "exp" = Some exp ->
  s = jwtGetStr (payloadJson parts) "sub" -> s <> [] -> remembered u s exp v ->
  verifyNative u1 u2 f1 f2 tok auds v = Some (v', r) -> exists msg, r = Err msg.
Proof.
  intros Hx Hu Hu2 Ep Ex Es Hs Hm. unfold verifyNative. rewrite Ep, Ex, <- Es, bool_decide_false by done.
  rewrite (proj2 (Z.ltb_lt _ _)) by done. cbn [negb andb]. destruct (prune_replay u1 _) as [m |] eqn:Em; [| done].
  case_bool_decide as Hin; [intros [= _ <-]; by eexists |].
  assert (Hold : exp + 60 < u1).
  { destruct Hm as [Hm | Hm]; [| lia]. destruct (prune_lookup_replay _ _ _ _ _ Em Hm) as [H | H]; [| done]. destruct Hin. by exists exp. }
  destruct (verifyJwt _ _ _ _ _ _ _) as [[v1 r1] |] eqn:E; [| done]. apply verifyJwt_spec in E as (_ & _ & _ & G).
  destruct r1 as [[s1 e1] | msg]; [| intros [= _ <-]; by eexists].
  destruct (G s1 e1 eq_refl) as (p' & key & x' & Ep' & _ & _ & _ & _ & _ & _ & Ex' & _ & Hn & _).
  assert (p' = parts) as -> by congruence. assert (x' = exp) as -> by congruence. lia.
Qed.

(** C37: a token that the native flow accepted is never accepted again. However
    the validator is used in between, as long as the system clock does not go
    back, a second presentation of the token fails: as a replay while the
    cache remembers it, as expired afterwards. *)
Theorem native_token_once u1 u2 f1 f2 tok auds v v1 s e ops v2 u1' u2' f1' f2' auds' v3 r :
  30 < u2 -> verifyNative u1 u2 f1 f2 tok auds v = Some (v1, Ok (s, e)) ->
  timely u2 ops -> run_siwa v1 ops = Some v2 ->
  last_reading u2 ops <= u1' <= u2' -> verifyNative u1' u2' f1' f2' tok auds' v2 = Some (v3, r) ->
  genuine u2 tok auds [] (jwksKeys v1) s e /\ (forall k, k ∈ jwksKeys v1 -> from_apple f1 f2 v k) /\ exists msg, r = Err msg.
Proof.
  intros Hu H1 Ht Hrun Hu' H2. destruct (native_accepted _ _ _ _ _ _ _ _ _ _ Hu H1) as (G & K & parts & exp & Ep & Ex & Hx & Es & Hs & Hm).
  split; [done |]. split; [done |].
  apply (native_again (last_reading u2 ops) u1' u2' f1' f2' tok auds' v2 v3 parts exp s r); try done; try lia.
  apply (run_remembers u2 s exp ops v1); try done. by left.
Qed.

(** A web login needs the flow it answers. A callback is accepted only for a
    state begun less than ten minutes before, with a token signed by a current
    key whose issuer, audience and expiry hold and whose nonce is the hash of
    that flow's nonce; and a state once presented, whatever came of it, is
    never accepted again unless it is issued again. *)
Lemma callback_once t f1 f2 now (state tok : str) auds v v1 r ops v2 t' f1' f2' now' (tok' : str) auds' v3 r' :
  verifyCallback t f1 f2 now state tok auds v = Some (v1, r) ->
  Forall (not_beginning state) ops -> run_siwa v1 ops = Some v2 ->
  verifyCallback t' f1' f2' now' state tok' auds' v2 = Some (v3, r') ->
  (forall s e, r = Ok (s, e) -> exists p, pending v !! state = Some p /\ t <= p_expiry p /\
     genuine now tok auds (sha256Hex (nonceRaw p)) (jwksKeys v1) s e /\ forall k, k ∈ jwksKeys v1 -> from_apple f1 f2 v k) /\
  r' = Err "unknown or expired state".
Proof.
  intros H1 Hops Hrun H2. split.
  - intros s e ->. unfold verifyCallback in H1. destruct (pending (sweepPending t v) !! state) as [p |] eqn:E; [| done].
    apply map_lookup_filter_Some in E as [Hp Hexp]. apply verifyJwt_spec in H1 as (_ & _ & K & G). exists p. auto.
  - assert (Hn : pending v1 !! state = None) by (rewrite (callback_pending _ _ _ _ _ _ _ _ _ _ H1); apply lookup_delete_eq).
    assert (Hn2 : pending v2 !! state = None).
    { clear H1 H2. revert v1 Hn Hrun. induction Hops as [| o ops Ho Hops IH]; intros v1 Hn; cbn [run_siwa]; [by intros [= <-] |].
      destruct (exec v1 o) as [v1' |] eqn:E; [| done]. apply IH. by eapply no_state_step. }
    unfold verifyCallback in H2. rewrite sweep_none in H2 by done. by injection H2 as _ <-.
Qed.
End SiwaProps.

(** ** Sample tokens *)

(** A toy scheme: the signature is the beginning of the message. *)
#[export] Instance sample_rsa : Rsa := { rs256_verify n e msg sig := bool_decide (sig = take 3 msg) }.

Definition sample_jwt (nonce : str) : str :=
  let input := toBase64url (object_text [("alg" : str, JStr "RS256"); ("kid" : str, JStr "k1")] []) ++ "."%char ::
    toBase64url (object_text [("iss" : str, JStr kIssuer); ("aud" : str, JStr "svc"); ("exp" : str, JRaw "1800000600");
      ("sub" : str, JStr "001.ann"); ("email" : str, JStr "ann@example.org"); ("nonce" : str, JStr nonce)] []) in
  input ++ "."%char :: toBase64url (take 3 input).

Definition sample_fetch : Fetch :=
  mkFetch 0 1 (Some ("{" ++ quoted "keys" ++ ": [" ++
    object_text [("kid" : str, JStr "k1"); ("n" : str, JStr "AQAB"); ("e" : str, JStr "AQAB")] [] ++ "]}")).

Definition sample_siwa : SiwaConfig := mkSiwaConfig "svc" [] "https://ntm.example.org/auth/apple/callback" "ids.json" [].

#[local] Abbreviation sample_native :=
  (verifyNative 1800000000 1800000000 sample_fetch sample_fetch (sample_jwt []) ["svc" : str] new_validator).

#[local] Abbreviation again_native :=
  (verifyNative 1800000600 1800000630 sample_fetch sample_fetch (sample_jwt []) ["svc" : str]).

Lemma sample_native_runs : exists v1 s e v3 r, sample_native = Some (v1, Ok (s, e)) /\ again_native v1 = Some (v3, r).
Proof.
  assert (H : match sample_native with Some (v1, Ok _) => is_Some (again_native v1) | _ => False end)
    by (vm_compute; eexists; reflexivity).
  destruct sample_native as [[v1 [[s e] | msg]] |]; [| destruct H | destruct H]. destruct H as [[v3 r] E]. exists v1, s, e, v3, r. exact (conj eq_refl E).
Qed.

Lemma native_token_once_witness :
  exists v1 x v3 msg, sample_native = Some (v1, Ok x) /\ again_native v1 = Some (v3, Err msg).
Proof.
  destruct sample_native_runs as (v1 & s & e & v3 & r & E1 & E2).
  destruct (native_token_once sample_siwa 1800000000 1800000000 sample_fetch sample_fetch (sample_jwt []) ["svc" : str] new_validator v1 s e
    [] v1 1800000600 1800000630 sample_fetch sample_fetch ["svc" : str] v3 r ltac:(lia) E1 I eq_refl ltac:(cbn; lia) E2) as (_ & _ & msg & Hr).
  exists v1, (s, e), v3, msg. rewrite <- Hr. exact (conj E1 E2).
Defined.

(** The web flow: begun, answered, answered again. *)
Definition sample_begun : Validator := (beginFlow sample_siwa 0 0 "ss" "nn" new_validator).1.

#[local] Abbreviation sample_callback :=
  (verifyCallback 5 sample_fetch sample_fetch 1800000000 (hexEncode "ss") (sample_jwt (sha256Hex (hexEncode "nn"))) ["svc" : str]).

Lemma sample_callback_runs : exists v1 x v3 r, sample_callback sample_begun = Some (v1, Ok x) /\ sample_callback v1 = Some (v3, r).
Proof.
  assert (H : match sample_callback sample_begun with Some (v1, Ok _) => is_Some (sample_callback v1) | _ => False end)
    by (vm_compute; eexists; reflexivity).
  destruct (sample_callback sample_begun) as [[v1 [x | msg]] |]; [| destruct H | destruct H]. destruct H as [[v3 r] E]. exists v1, x, v3, r. exact (conj eq_refl E).
Qed.

Lemma callback_once_witness :
  exists v1 x v3, sample_callback sample_begun = Some (v1, Ok x) /\
    sample_callback v1 = Some (v3, Err "unknown or expired state").
Proof.
  destruct sample_callback_runs as (v1 & x & v3 & r & E1 & E2).
  destruct (callback_once sample_siwa 5 sample_fetch sample_fetch 1800000000 _ _ _ sample_begun v1 (Ok x) [] v1
    5 sample_fetch sample_fetch 1800000000 _ _ v3 r E1 (List.Forall_nil _) eq_refl E2) as (_ & Hr).
  exists v1, x, v3. rewrite <- Hr. exact (conj E1 E2).
Defined.

(** A token whose expiry has too many digits runs into signed overflow before
    its signature is looked at. *)
Lemma native_overflow :
  verifyNative 0 0 sample_fetch sample_fetch
    (toBase64url "{}" ++ "."%char :: toBase64url (object_text [("sub" : str, JStr "x"); ("exp" : str, JRaw "99999999999999999999")] []) ++ ".")
    [] new_validator = None.
Proof. vm_compute. reflexivity. Qed.

(** An unknown key id empties the key cache when the download fails. *)
Lemma unknown_kid_empties_cache :
  (fun r => jwksKeys r.1) <$>
    verifyJwt (mkFetch 0 1 None) (mkFetch 0 1 None) 0
      (toBase64url (object_text [("alg" : str, JStr "RS256"); ("kid" : str, JStr "zz")] []) ++ "."%char :: toBase64url "{}" ++ ".")
      [] [] (set_keys [mkKey "k1" "AQAB" "AQAB"] 100 new_validator)
  = Some [].
Proof. vm_compute. reflexivity. Qed.
