(* ===== verification/Binary32.v ===== *)
(** Single-precision arithmetic: [float] is IEEE binary32 with rounding to
    nearest, ties to even, evaluated operation by operation as on SSE, by the
    Standard Library's executable specification at 24 bits of precision. The
    lemmas bound the error of a sum of two products, which is what the flush
    interval computes. *)

From Stdlib Require Import Floats.SpecFloat.
From S2P Require Import Prelude.
Local Open Scope Z_scope.

Definition f32 := spec_float.
Definition f32_of_u32 (z : Z) : f32 := binary_normalize 24 128 z 0 false.
Definition f32_mul : f32 -> f32 -> f32 := SFmul 24 128.
Definition f32_add : f32 -> f32 -> f32 := SFadd 24 128.

(** [static_cast<std::uint32_t>] of a float: truncation toward zero. *)
Definition f32_to_u32 (x : f32) : Z :=
  match x with
  | S754_finite false m e => u32 (if 0 <=? e then Z.shiftl (Zpos m) e else Z.shiftr (Zpos m) (- e))
  | _ => 0
  end.

(** The literals [0.7f] and [0.3f]: 11744051 / 2^24 and 10066330 / 2^25. *)
Definition f32_07 : f32 := S754_finite false 11744051 (-24).
Definition f32_03 : f32 := S754_finite false 10066330 (-25).

(** ** Rounding *)

(** A value in units of 2^-160, below the least exponent. *)
Definition val (m e : Z) : Z := m * 2 ^ (e + 160).

(** [v] is within one part in 2^k of [w]. *)
Definition near (k v w : Z) : Prop := 2 ^ k * w - w <= 2 ^ k * v <= 2 ^ k * w + w.

(** A positive float of value [v], within the range where no exponent limit matters. *)
Definition is_val (x : f32) (v : Z) : Prop :=
  exists m e, x = S754_finite false m e /\ -149 <= e <= 100 /\ Zpos m <= 2 ^ 24 /\ v = val (Zpos m) e.

Lemma digits2_bounds p : 2 ^ (Zpos (digits2_pos p) - 1) <= Zpos p < 2 ^ Zpos (digits2_pos p).
Proof.
  induction p as [p IH | p IH |]; cbn [digits2_pos]; [| | cbn; lia].
  all: rewrite Pos2Z.inj_succ; replace (Z.succ (Zpos (digits2_pos p)) - 1) with (Z.succ (Zpos (digits2_pos p) - 1)) by lia;
    rewrite !Z.pow_succ_r by lia; lia.
Qed.

Lemma digits2_le p n : 0 < n -> Zpos p < 2 ^ n -> Zpos (digits2_pos p) <= n.
Proof.
  intros Hn H. destruct (Z.le_gt_cases (Zpos (digits2_pos p)) n) as [| Hg]; [done |]. exfalso.
  pose proof (digits2_bounds p) as [Hb _]. pose proof (Z.pow_le_mono_r 2 n (Zpos (digits2_pos p) - 1) ltac:(lia) ltac:(lia)). lia.
Qed.

Lemma digits2_ge p n : 2 ^ n <= Zpos p -> n < Zpos (digits2_pos p).
Proof.
  intros H. destruct (Z.lt_ge_cases n (Zpos (digits2_pos p))) as [| Hg]; [done |]. exfalso.
  pose proof (digits2_bounds p) as [_ Hb]. pose proof (Z.pow_le_mono_r 2 (Zpos (digits2_pos p)) n ltac:(lia) ltac:(lia)). lia.
Qed.

Lemma shr_1_m r : 0 <= shr_m r -> shr_m (shr_1 r) = shr_m r / 2.
Proof.
  destruct r as [[| [p | p |] | p] r s]; cbn [shr_1 shr_m]; intros H; [done | | | done | lia].
  - rewrite (Pos2Z.inj_xI p). apply Z.div_unique with 1; lia.
  - rewrite (Pos2Z.inj_xO p). apply Z.div_unique with 0; lia.
Qed.

Lemma iter_shr_m p : forall r, 0 <= shr_m r -> shr_m (SpecFloat.iter_pos shr_1 p r) = shr_m r / 2 ^ Zpos p.
Proof.
  assert (Hd : forall a n, 0 <= a -> 0 <= n -> a / 2 / 2 ^ n = a / 2 ^ (n + 1)).
  { intros a n Ha Hn. rewrite Z.div_div by lia. rewrite Z.pow_add_r by lia. f_equal. lia. }
  assert (Hp : forall a n, 0 <= a -> 0 <= n -> a / 2 ^ n / 2 ^ n = a / 2 ^ (2 * n)).
  { intros a n Ha Hn. rewrite Z.div_div by lia. rewrite <- Z.pow_add_r by lia. do 2 f_equal. lia. }
  assert (Hn : forall a n, 0 <= a -> 0 <= n -> 0 <= a / 2 ^ n) by (intros a n Ha Hn; apply Z.div_pos; lia).
  induction p as [p IH | p IH |]; intros r Hr; cbn [SpecFloat.iter_pos].
  - assert (H1 : 0 <= shr_m (shr_1 r)) by (rewrite shr_1_m by done; apply Z.div_pos; lia).
    rewrite IH by (rewrite IH by done; by apply Hn). rewrite IH by done. rewrite Hp by lia. rewrite shr_1_m by done. by rewrite Hd by lia.
  - rewrite IH by (rewrite IH by done; by apply Hn). rewrite IH by done. by rewrite Hp by lia.
  - rewrite shr_1_m by done. done.
Qed.

Lemma val_shift m e n : 0 <= n -> -160 <= e -> val m (e + n) = val (m * 2 ^ n) e.
Proof. intros Hn He. unfold val. replace (e + n + 160) with (n + (e + 160)) by lia. rewrite Z.pow_add_r by lia. lia. Qed.

Lemma near_refl k v : 0 <= v -> near k v v.
Proof. unfold near. lia. Qed.

(** Rounding an exact positive number. *)
Lemma round_near m e : -149 <= e -> e + Zpos (digits2_pos m) <= 100 ->
  exists v, is_val (binary_round_aux 24 128 false (Zpos m) e loc_Exact) v /\ near 23 v (val (Zpos m) e).
Proof.
  intros He Hd. pose proof (digits2_bounds m) as Hm. unfold binary_round_aux, shr_fexp. cbn [shr_record_of_loc Zdigits2].
  set (d := Zpos (digits2_pos m)) in *. assert (Hd0 : 0 < d) by done.
  unfold fexp, emin. change (3 - 128 - 24) with (-149).
  destruct (Z.le_gt_cases d 24) as [Hs | Hs].
  - assert (En : Z.max (d + e - 24) (-149) - e <= 0) by lia. destruct (Z.max _ _ - e) as [| p | p] eqn:Ek; [| lia |].
    all: cbn [shr shr_m loc_of_shr_record round_nearest_even shr_record_of_loc Zdigits2]; fold d; rewrite Ek; cbn [shr shr_m].
    all: rewrite (proj2 (Z.leb_le _ _)) by lia; eexists; (split; [by eexists m, e; split_conj; [reflexivity | lia | lia | pose proof (Z.pow_le_mono_r 2 d 24 ltac:(lia) ltac:(lia)); lia | reflexivity] |]);
      apply near_refl; unfold val; lia.
  - assert (En : Z.max (d + e - 24) (-149) - e = d - 24) by lia. rewrite En. destruct (d - 24) as [| p | p] eqn:Ek; [lia | | lia].
    cbn [shr]. set (r := SpecFloat.iter_pos shr_1 p _).
    assert (Eq : shr_m r = Zpos m / 2 ^ Zpos p) by (unfold r; by rewrite iter_shr_m).
    set (q := Zpos m / 2 ^ Zpos p) in *.
    assert (Hq : 2 ^ 23 <= q < 2 ^ 24).
    { unfold q. replace d with (Zpos p + 24) in Hm by lia. replace (Zpos p + 24 - 1) with (23 + Zpos p) in Hm by lia.
      rewrite !Z.pow_add_r in Hm by lia. split; [apply Z.div_le_lower_bound; lia | apply Z.div_lt_upper_bound; lia]. }
    assert (Hr : Zpos m = 2 ^ Zpos p * q + Zpos m mod 2 ^ Zpos p) by (apply Z.div_mod; lia).
    pose proof (Z.mod_pos_bound (Zpos m) (2 ^ Zpos p) ltac:(lia)) as Hmod.
    assert (Hne : exists x, round_nearest_even (shr_m r) (loc_of_shr_record r) = Zpos x /\ (Zpos x = q \/ Zpos x = q + 1)).
    { rewrite Eq. assert (H : forall l, round_nearest_even q l = q \/ round_nearest_even q l = q + 1)
        by (intros [| []]; cbn [round_nearest_even]; auto; destruct (Z.even q); auto).
      specialize (H (loc_of_shr_record r)). destruct (round_nearest_even q _) as [| x | x]; [lia | by exists x | lia]. }
    destruct Hne as (x & -> & Hx).
    assert (Hnear : near 23 (val (Zpos x) (e + Zpos p)) (val (Zpos m) e)).
    { rewrite val_shift by lia. unfold near, val. assert (Hp : 0 < 2 ^ (e + 160)) by (apply Z.pow_pos_nonneg; lia).
      assert (H23 : 2 ^ 23 * (2 ^ Zpos p) <= Zpos m) by nia.
      assert (Hlo : 2 ^ 23 * Zpos m - Zpos m <= 2 ^ 23 * (Zpos x * 2 ^ Zpos p)) by nia.
      assert (Hhi : 2 ^ 23 * (Zpos x * 2 ^ Zpos p) <= 2 ^ 23 * Zpos m + Zpos m) by nia. nia. }
    cbn [shr_record_of_loc Zdigits2]. set (d2 := Zpos (digits2_pos x)).
    assert (Hx24 : 2 ^ 23 <= Zpos x <= 2 ^ 24) by lia.
    assert (Hd2 : 24 <= d2) by (pose proof (digits2_ge x 23 ltac:(lia)); lia).
    destruct (Z.eq_dec (Zpos x) (2 ^ 24)) as [E24 | N24].
    + assert (x = 16777216%positive) as -> by lia. unfold d2 in *. change (Zpos (digits2_pos 16777216)) with 25 in *.
      replace (Z.max (25 + (e + Zpos p) - 24) (-149) - (e + Zpos p)) with 1 by lia. cbn [shr SpecFloat.iter_pos shr_1 shr_m].
      rewrite (proj2 (Z.leb_le _ _)) by lia. eexists. split; [eexists _, _; split_conj; [reflexivity | lia | lia | lia | reflexivity] |].
      replace (val 8388608 (e + Zpos p + 1)) with (val 16777216 (e + Zpos p)); [exact Hnear |].
      rewrite (val_shift 8388608 (e + Zpos p) 1) by lia. done.
    + assert (Hd3 : d2 = 24) by (pose proof (digits2_le x 24 ltac:(lia) ltac:(lia)); unfold d2 in *; lia). rewrite Hd3.
      replace (Z.max (24 + (e + Zpos p) - 24) (-149) - (e + Zpos p)) with 0 by lia. cbn [shr shr_m].
      rewrite (proj2 (Z.leb_le _ _)) by lia. eexists. split; [eexists _, _; split_conj; [reflexivity | lia | lia | lia | reflexivity] | exact Hnear].
Qed.

Lemma iter_xO k m : Zpos (Pos.iter xO m k) = Zpos m * 2 ^ Zpos k.
Proof.
  induction k as [| k IH] using Pos.peano_ind; [cbn; lia |]. rewrite Pos.iter_succ, Pos2Z.inj_xO, IH, Pos2Z.inj_succ, Z.pow_succ_r by lia. lia.
Qed.

(** The same of a number with fewer digits than a float has. *)
Lemma normal_near m e : -149 <= e -> e + Zpos (digits2_pos m) <= 100 ->
  exists v, is_val (binary_round 24 128 false m e) v /\ near 23 v (val (Zpos m) e).
Proof.
  intros He Hd. pose proof (digits2_bounds m) as Hm. unfold binary_round, shl_align, fexp, emin. change (3 - 128 - 24) with (-149).
  set (d := Zpos (digits2_pos m)) in *. set (e' := Z.max (d + e - 24) (-149)).
  destruct (e' - e) as [| k | k] eqn:Ek; [by apply round_near | by apply round_near |].
  destruct (round_near (Pos.iter xO m k) e') as (v & Hv & Hn); [lia | |].
  - enough (Zpos (digits2_pos (Pos.iter xO m k)) <= d + Zpos k) by lia. apply digits2_le; [lia |].
    rewrite iter_xO, Z.pow_add_r by lia. assert (0 < 2 ^ Zpos k) by (apply Z.pow_pos_nonneg; lia). nia.
  - exists v. split; [exact Hv |]. rewrite iter_xO in Hn. rewrite <- val_shift in Hn by lia.
    by replace (e' + Zpos k) with e in Hn by lia.
Qed.

Lemma is_val_pos x v : is_val x v -> 0 < v.
Proof. intros (m & e & _ & He & _ & ->). unfold val. assert (0 < 2 ^ (e + 160)) by (apply Z.pow_pos_nonneg; lia). lia. Qed.

(** The exponent of a value of ordinary size. *)
Lemma is_val_exp m e n : -149 <= e -> Zpos m <= 2 ^ 24 -> 2 ^ 140 <= val (Zpos m) e < 2 ^ n -> 0 <= n -> -44 <= e <= n - 160.
Proof.
  intros He Hm [Hlo Hhi] Hn. unfold val in *. split.
  - destruct (Z.le_gt_cases (-44) e) as [| Hg]; [done |]. exfalso.
    pose proof (Z.pow_le_mono_r 2 (e + 160) 115 ltac:(lia) ltac:(lia)). change (2 ^ 140) with (2 ^ 25 * 2 ^ 115) in Hlo. nia.
  - destruct (Z.le_gt_cases e (n - 160)) as [| Hg]; [done |]. exfalso.
    pose proof (Z.pow_le_mono_r 2 n (e + 160) ltac:(lia) ltac:(lia)). nia.
Qed.

(** ** The operations *)

Lemma of_u32_near z : 0 < z < 2 ^ 32 -> exists v, is_val (f32_of_u32 z) v /\ near 23 v (z * 2 ^ 160).
Proof.
  intros Hz. destruct z as [| p | p]; [lia | | lia]. unfold f32_of_u32, binary_normalize.
  apply (normal_near p 0); [lia |]. pose proof (digits2_le p 32 ltac:(lia) ltac:(lia)). lia.
Qed.

Lemma mul_near m k x v : Zpos m < 2 ^ 24 -> 0 <= k <= 30 -> is_val x v -> 2 ^ 140 <= v < 2 ^ 200 ->
  exists w u, is_val (f32_mul (S754_finite false m (- k)) x) u /\ near 23 u w /\ 2 ^ k * w = Zpos m * v.
Proof.
  intros Hm Hk (m2 & e & -> & He & Hm2 & ->) Hv.
  destruct (is_val_exp m2 e 200 ltac:(lia) Hm2 Hv ltac:(lia)) as [H1 H2].
  unfold f32_mul, SFmul. cbn [xorb]. destruct (round_near (m * m2) (- k + e)) as (u & Hu & Hn); [lia | |].
  - enough (Zpos (digits2_pos (m * m2)) <= 48) by lia. apply digits2_le; [lia |]. rewrite Pos2Z.inj_mul.
    change (2 ^ 48) with (2 ^ 24 * 2 ^ 24). nia.
  - eexists _, u. split; [exact Hu |]. split; [exact Hn |]. unfold val. rewrite Pos2Z.inj_mul.
    replace (e + 160) with (k + (- k + e + 160)) by lia. rewrite (Z.pow_add_r 2 k) by lia. lia.
Qed.

Lemma align_val m e ez : ez <= e -> -149 <= ez -> val (Zpos (fst (shl_align m e ez))) ez = val (Zpos m) e.
Proof.
  intros H Hz. unfold shl_align. destruct (ez - e) as [| k | k] eqn:Ek; [| lia |]; cbn [fst].
  - by replace ez with e by lia.
  - rewrite iter_xO, <- val_shift by lia. by replace (ez + Zpos k) with e by lia.
Qed.

Lemma add_near x y v w : is_val x v -> is_val y w -> 2 ^ 140 <= v < 2 ^ 200 -> 2 ^ 140 <= w < 2 ^ 200 ->
  exists u, is_val (f32_add x y) u /\ near 23 u (v + w).
Proof.
  intros (m1 & e1 & -> & He1 & Hm1 & ->) (m2 & e2 & -> & He2 & Hm2 & ->) Hv Hw.
  destruct (is_val_exp m1 e1 200 ltac:(lia) Hm1 Hv ltac:(lia)) as [? ?]. destruct (is_val_exp m2 e2 200 ltac:(lia) Hm2 Hw ltac:(lia)) as [? ?].
  unfold f32_add, SFadd. set (ez := Z.min e1 e2). cbn [cond_Zopp].
  pose proof (align_val m1 e1 ez ltac:(lia) ltac:(lia)) as A1. pose proof (align_val m2 e2 ez ltac:(lia) ltac:(lia)) as A2.
  set (a := fst (shl_align m1 e1 ez)) in *. set (b := fst (shl_align m2 e2 ez)) in *.
  assert (Es : val (Zpos (a + b)) ez = val (Zpos m1) e1 + val (Zpos m2) e2) by (rewrite <- A1, <- A2; unfold val; rewrite Pos2Z.inj_add; lia).
  change (Zpos a + Zpos b) with (Zpos (a + b)). unfold binary_normalize.
  destruct (normal_near (a + b) ez) as (u & Hu & Hn); [lia | |].
  - enough (Zpos (digits2_pos (a + b)) <= 41 - ez) by lia. apply digits2_le; [lia |].
    destruct (Z.lt_ge_cases (Zpos (a + b)) (2 ^ (41 - ez))) as [| Hg]; [done |]. exfalso.
    assert (Hs : val (2 ^ (41 - ez)) ez <= val (Zpos (a + b)) ez) by (unfold val; apply Z.mul_le_mono_nonneg_r; [apply Z.pow_nonneg; lia | done]).
    unfold val at 1 in Hs. rewrite <- Z.pow_add_r in Hs by lia. replace (41 - ez + (ez + 160)) with 201 in Hs by lia. rewrite Es in Hs. lia.
  - exists u. split; [exact Hu |]. by rewrite <- Es.
Qed.

Lemma to_u32_val x v : is_val x v -> v < 2 ^ 192 -> f32_to_u32 x = v / 2 ^ 160.
Proof.
  intros (m & e & -> & He & _ & ->) Hv. unfold f32_to_u32, val in *.
  assert (E : (if 0 <=? e then Z.shiftl (Zpos m) e else Z.shiftr (Zpos m) (- e)) = Zpos m * 2 ^ (e + 160) / 2 ^ 160).
  { destruct (Z.leb_spec 0 e).
    - rewrite Z.shiftl_mul_pow2 by lia. rewrite Z.pow_add_r, Z.mul_assoc by lia. by rewrite Z.div_mul by lia.
    - rewrite Z.shiftr_div_pow2 by lia. replace 160 with (- e + (e + 160)) at 2 by lia. rewrite (Z.pow_add_r 2 (- e) (e + 160)) by lia.
      rewrite Z.div_mul_cancel_r; [done | apply Z.pow_nonzero; lia | apply Z.pow_nonzero; lia]. }
  rewrite E. apply u32_small. split; [apply Z.div_pos; [|lia]; assert (0 < 2 ^ (e + 160)) by (apply Z.pow_pos_nonneg; lia); lia |].
  apply Z.div_lt_upper_bound; [lia |]. change (2 ^ 160 * 2 ^ 32) with (2 ^ 192). exact Hv.
Qed.

(** The smoothing of the flush interval, truncated, is the exact value to one
    part in a million. *)
Lemma smoothing_near c m : 0 < c <= 65536 -> 0 < m <= 65536 ->
  let r := f32_to_u32 (f32_add (f32_mul f32_07 (f32_of_u32 c)) (f32_mul f32_03 (f32_of_u32 m))) in
  10 * 2 ^ 20 * r <= (2 ^ 20 + 1) * (7 * c + 3 * m) /\ (2 ^ 20 - 1) * (7 * c + 3 * m) < 10 * 2 ^ 20 * (r + 1).
Proof.
  intros Hc Hm. destruct (of_u32_near c ltac:(lia)) as (vc & Ic & Nc). destruct (of_u32_near m ltac:(lia)) as (vm & Im & Nm).
  unfold near in Nc, Nm. assert (Bc : 2 ^ 140 <= vc < 2 ^ 200) by lia. assert (Bm : 2 ^ 140 <= vm < 2 ^ 200) by lia.
  destruct (mul_near 11744051 24 _ vc ltac:(lia) ltac:(lia) Ic Bc) as (w7 & v7 & I7 & N7 & E7).
  destruct (mul_near 10066330 25 _ vm ltac:(lia) ltac:(lia) Im Bm) as (w3 & v3 & I3 & N3 & E3).
  unfold near in N7, N3.
  destruct (add_near _ _ v7 v3 I7 I3 ltac:(lia) ltac:(lia)) as (u & Iu & Nu). unfold near in Nu.
  cbv zeta. change f32_07 with (S754_finite false 11744051 (- (24))). change f32_03 with (S754_finite false 10066330 (- (25))).
  rewrite (to_u32_val _ u Iu) by lia.
  pose proof (Z.div_mod u (2 ^ 160) ltac:(lia)) as Hd. pose proof (Z.mod_pos_bound u (2 ^ 160) ltac:(lia)) as Hb.
  generalize dependent (u / 2 ^ 160). generalize dependent (u mod 2 ^ 160). intros; split; lia.
Qed.
