(* ===== verification/FlowAggregator.v ===== *)
(** Client-side flow accumulation and the adaptive flush interval
    ([flow_aggregator.hpp]), with the two places of [client_impl.cpp] that use
    the flow table: [accumulateFlow] and the drain of [senderLoop]. *)

From S2P Require Import Prelude CppString Wire Binary32.

(** ** AdaptiveInterval *)
Module AdaptiveInterval.

(* flow_aggregator.hpp:67-72 AdaptiveInterval::Config *)
Record Config := mkConfig {
  targetLinesPerSec : Z;
  minIntervalMs : Z;
  maxIntervalMs : Z
}.

(* flow_aggregator.hpp:67-72 AdaptiveInterval::Config, initialisers *)
Definition default_config : Config := mkConfig 500 100 5000.

(* flow_aggregator.hpp:122-125 AdaptiveInterval, data members *)
Record t := mk { cfg_ : Config; currentMs_ : Z }.

(* flow_aggregator.hpp:74-82 AdaptiveInterval::AdaptiveInterval *)
Definition create (cfg : Config) : t := mk cfg (minIntervalMs cfg).

(* flow_aggregator.hpp:89-103 AdaptiveInterval::update, desired *)
Definition desired_ms (cfg : Config) (flowsEmitted : Z) : Z :=
  if (flowsEmitted =? 0) || (targetLinesPerSec cfg =? 0) then maxIntervalMs cfg
  else
    let d := u64 (flowsEmitted * 1000) / targetLinesPerSec cfg in
    if maxIntervalMs cfg <? d then maxIntervalMs cfg
    else if d <? minIntervalMs cfg then minIntervalMs cfg
    else u32 d.

(* flow_aggregator.hpp:105-108 AdaptiveInterval::update, smoothing *)
Definition ema (current desired : Z) : Z :=
  f32_to_u32 (f32_add (f32_mul f32_07 (f32_of_u32 current))
                      (f32_mul f32_03 (f32_of_u32 desired))).

(* flow_aggregator.hpp:87-111 AdaptiveInterval::update *)
Definition update (a : t) (flowsEmitted : Z) : t :=
  let desired := desired_ms (cfg_ a) flowsEmitted in
  let next := ema (currentMs_ a) desired in
  mk (cfg_ a) (clamp next (minIntervalMs (cfg_ a)) (maxIntervalMs (cfg_ a))).

(* flow_aggregator.hpp:114-114 AdaptiveInterval::intervalMs *)
Definition intervalMs (a : t) : Z := currentMs_ a.

(* flow_aggregator.hpp:120-120 AdaptiveInterval::reset *)
Definition reset (a : t) : t := mk (cfg_ a) (minIntervalMs (cfg_ a)).

(** The events that move the controller: a timer flush, a reconnect. *)
Inductive step : t -> t -> Prop :=
| step_update a n : 0 <= n < 2 ^ 32 -> step a (update a n)
| step_reset a : step a (reset a).

Definition valid_config (c : Config) : Prop :=
  0 <= targetLinesPerSec c < 2 ^ 32 /\ 0 <= minIntervalMs c /\
  minIntervalMs c <= maxIntervalMs c < 2 ^ 32.

Definition in_bounds (a : t) : Prop :=
  minIntervalMs (cfg_ a) <= currentMs_ a <= maxIntervalMs (cfg_ a).

(** The mathematical demand the controller aims at. *)
Definition target_ms (c : Config) (n : Z) : Z :=
  Z.max (minIntervalMs c) (Z.min (maxIntervalMs c) (n * 1000 / targetLinesPerSec c)).

Lemma desired_ms_spec c n :
  valid_config c -> 0 < n < 2 ^ 32 -> 0 < targetLinesPerSec c ->
  desired_ms c n = target_ms c n.
Proof.
  intros (Ht & Hm & Hx) Hn Hp. unfold desired_ms, target_ms.
  rewrite (proj2 (Z.eqb_neq n 0)), (proj2 (Z.eqb_neq (targetLinesPerSec c) 0)) by lia.
  simpl orb. cbv iota. rewrite u64_small by lia.
  assert (0 <= n * 1000 / targetLinesPerSec c) by (apply Z.div_pos; lia).
  repeat case_match_goal; bool_to_prop; rewrite ?u32_small; lia.
Qed.

Lemma update_in_bounds a n : valid_config (cfg_ a) -> in_bounds (update a n).
Proof. intros (_ & _ & H). unfold in_bounds, update. simpl. apply clamp_range. lia. Qed.

(** The flush interval never leaves [minIntervalMs, maxIntervalMs]: in
    every state reachable from construction through timer flushes with any
    flow count and reconnects, under any configuration with min <= max. *)
Lemma interval_always_in_bounds (c : Config) (a : t) :
  valid_config c -> reach step (create c) a -> cfg_ a = c /\ in_bounds a.
Proof.
  intros Hc. apply (reach_invariant step (fun a => cfg_ a = c /\ in_bounds a)).
  - split; [done|]. destruct Hc as (_ & _ & H). unfold in_bounds, create. simpl. lia.
  - intros b d [Eb Hb] Hs. destruct Hs as [b n Hn | b].
    + split; [done|]. apply update_in_bounds. by rewrite Eb.
    + split; [done|]. rewrite <- Eb in Hc. destruct Hc as (_ & _ & H).
      unfold in_bounds, reset. simpl. lia.
Qed.

Lemma interval_always_in_bounds_witness :
  let a := update (update (create default_config) 0) 4000 in
  cfg_ a = default_config /\ in_bounds a.
Proof.
  apply (interval_always_in_bounds default_config).
  - unfold valid_config. simpl. lia.
  - apply (reach_step _ _ (update (create default_config) 0)).
    + apply (reach_step _ _ (create default_config)); [constructor|]. constructor. lia.
    + constructor. lia.
Defined.

(** The controller with no traffic: one flush, and [k] of them. *)
Definition idle_step (cfg : Config) (ms : Z) : Z := currentMs_ (update (mk cfg ms) 0).
Definition idle (cfg : Config) (k : nat) (ms : Z) : Z := Nat.iter k (idle_step cfg) ms.

(** The bounds a configuration file can set: the parser clamps the maximum to
    60000, and a minimum above it is left out here. *)
Definition bounds_ok (cfg : Config) : Prop := 0 < minIntervalMs cfg <= maxIntervalMs cfg /\ maxIntervalMs cfg <= 65536.

(** One flush covers 30 % of the distance to the maximum, less one rounding,
    but never the whole of it. *)
Lemma idle_step_spec cfg ms : bounds_ok cfg -> minIntervalMs cfg <= ms <= maxIntervalMs cfg ->
  let r := idle_step cfg ms in
  minIntervalMs cfg <= r <= maxIntervalMs cfg /\ 10 * (maxIntervalMs cfg - r) <= 7 * (maxIntervalMs cfg - ms) + 11 /\
  (ms < maxIntervalMs cfg -> r < maxIntervalMs cfg) /\ (ms < maxIntervalMs cfg - 3 -> ms < r) /\
  (maxIntervalMs cfg - 3 <= ms -> maxIntervalMs cfg - 3 <= r).
Proof.
  intros (Hm & Hx) Hms. unfold idle_step, update. cbn [cfg_ currentMs_]. change (desired_ms cfg 0) with (maxIntervalMs cfg).
  pose proof (smoothing_near ms (maxIntervalMs cfg) ltac:(lia) ltac:(lia)) as H. cbv zeta in H. fold (ema ms (maxIntervalMs cfg)) in H.
  generalize dependent (ema ms (maxIntervalMs cfg)). intros t [H1 H2]. change (2 ^ 20) with 1048576 in *. unfold clamp. cbv zeta.
  destruct (Z.ltb_spec t (minIntervalMs cfg)); [| destruct (Z.ltb_spec (maxIntervalMs cfg) t)]; lia.
Qed.

Lemma idle_contracts cfg k ms : bounds_ok cfg -> minIntervalMs cfg <= ms <= maxIntervalMs cfg ->
  let r := idle cfg k ms in
  minIntervalMs cfg <= r <= maxIntervalMs cfg /\ (ms < maxIntervalMs cfg -> r < maxIntervalMs cfg) /\
  10 ^ Z.of_nat k * (3 * (maxIntervalMs cfg - r) - 11) <= 7 ^ Z.of_nat k * (3 * 65536).
Proof.
  intros Hb Hms. cbv zeta. induction k as [| k (IH1 & IH2 & IH3)]; [destruct Hb; cbn; lia |].
  change (idle cfg (S k) ms) with (idle_step cfg (idle cfg k ms)).
  destruct (idle_step_spec cfg (idle cfg k ms) Hb IH1) as (R & C & L & _).
  generalize dependent (idle_step cfg (idle cfg k ms)). intros r R C L.
  rewrite Nat2Z.inj_succ, !Z.pow_succ_r by lia. split; [exact R |]. split; [auto |].
  pose proof (Z.pow_pos_nonneg 10 (Z.of_nat k) ltac:(lia) ltac:(lia)). nia.
Qed.

(** C34: an idle client backs off and settles just below the configured
    maximum. For any bounds with a positive minimum, not above the maximum, and
    a maximum of at most 65536 ms (the parser allows 60000), from any interval
    within the bounds: an idle flush lengthens an interval that is more than
    3 ms below the maximum; after 35 idle flushes the interval is within 3 ms
    of the maximum and stays there; and an interval below the maximum never
    reaches it, although the comment in the source says that it does. *)
Theorem idle_backoff (cfg : Config) (ms : Z) (k : nat) :
  bounds_ok cfg -> minIntervalMs cfg <= ms <= maxIntervalMs cfg ->
  (ms < maxIntervalMs cfg - 3 -> ms < idle cfg 1 ms) /\
  maxIntervalMs cfg - 3 <= idle cfg (k + 35) ms <= maxIntervalMs cfg /\
  (ms < maxIntervalMs cfg -> idle cfg k ms < maxIntervalMs cfg).
Proof.
  intros Hb Hms. split; [apply (idle_step_spec cfg ms Hb Hms) |]. split; [| apply (idle_contracts cfg k ms Hb Hms)].
  induction k as [| k IH].
  - destruct (idle_contracts cfg 35 ms Hb Hms) as (R & _ & C). change (0 + 35)%nat with 35%nat.
    change (10 ^ Z.of_nat 35) with 100000000000000000000000000000000000 in C.
    change (7 ^ Z.of_nat 35) with 378818692265664781682717625943 in C. lia.
  - change (idle cfg (S k + 35) ms) with (idle_step cfg (idle cfg (k + 35) ms)).
    destruct (idle_contracts cfg (k + 35) ms Hb Hms) as (R & _). destruct (idle_step_spec cfg _ Hb R) as (R2 & _ & _ & _ & K). lia.
Qed.

(** The default bounds: 26 idle flushes from the minimum stop at 4997 of 5000. *)
Lemma idle_default : idle default_config 26 100 = 4997 /\ idle_step default_config 4997 = 4997.
Proof. vm_compute. auto. Qed.

Lemma idle_backoff_witness :
  100 < idle default_config 1 100 /\ 4997 <= idle default_config 40 100 <= 5000 /\ idle default_config 5 100 < 5000.
Proof.
  assert (Hb : bounds_ok default_config) by (split; cbn; lia).
  destruct (idle_backoff default_config 100 5 Hb ltac:(cbn; lia)) as (H1 & H2 & H3). cbn [minIntervalMs maxIntervalMs default_config] in *.
  change (5 + 35)%nat with 40%nat in H2. split_conj; [apply H1; lia | lia | lia | apply H3; lia].
Defined.

End AdaptiveInterval.

(** ** The flow table *)

(* flow_aggregator.hpp:19-29 AggFlowKey *)
Record AggFlowKey := mkAggFlowKey { k_iface : str; k_srcIp : str; k_dstIp : str }.

#[export] Instance AggFlowKey_eq_dec : EqDecision AggFlowKey.
Proof. solve_decision. Defined.

#[export] Instance AggFlowKey_countable : Countable AggFlowKey.
Proof.
  refine (inj_countable' (fun k => (k_iface k, k_srcIp k, k_dstIp k))
            (fun '(a, b, c) => mkAggFlowKey a b c) _).
  by intros [].
Defined.

(** [std::hash<std::string>] is a parameter. *)
(* flow_aggregator.hpp:31-42 AggFlowKeyHash *)
Definition AggFlowKeyHash (h : str -> Z) (k : AggFlowKey) : Z :=
  let combine seed x :=
    Z.lxor seed (u64 (h x + 0x9e3779b9 + u64 (Z.shiftl seed 6) + Z.shiftr seed 2)) in
  combine (combine (h (k_iface k)) (k_srcIp k)) (k_dstIp k).

(* flow_aggregator.hpp:44-44 FlowMap *)
Abbreviation FlowTable := (gmap AggFlowKey Z).

Definition key_of (m : PacketMeta) : AggFlowKey :=
  mkAggFlowKey (pm_iface m) (pm_srcIp m) (pm_dstIp m).

(** [flowTable_[key] += meta.bytes] (a 64-bit counter); the result also says
    whether the cap asks for an early flush. *)
(* client_impl.cpp:148-159 ClientConnection::accumulateFlow *)
Definition accumulateFlow (aggMaxFlows : Z) (t : FlowTable) (m : PacketMeta) : FlowTable * bool :=
  let key := key_of m in
  let t' := <[key := u64 (default 0 (t !! key) + pm_bytes m)]> t in
  (t', aggMaxFlows <=? Z.of_nat (size t')).

(** One line of the drain: [snprintf(buf, 256, "D %.64s %.46s %.46s %llu\n")],
    kept only when it fits the buffer. *)
(* client_impl.cpp:578-585 ClientConnection::senderLoop, one D-line *)
Definition encode_flow (kv : AggFlowKey * Z) : str :=
  let line := ("D " : str) ++ take 64 (c_str (k_iface kv.1)) ++ " " ++ take 46 (c_str (k_srcIp kv.1))
              ++ " " ++ take 46 (c_str (k_dstIp kv.1)) ++ " " ++ to_string kv.2 ++ [LF] in
  if (0 <? length line)%nat && (length line <? 256)%nat then line else [].

(** The drain: the table is swapped out, printed in some order, cleared. *)
(* client_impl.cpp:566-587 ClientConnection::senderLoop, drain *)
Definition drain (t : FlowTable) : FlowTable * str * Z :=
  (∅, concat (encode_flow <$> map_to_list t), u32 (Z.of_nat (size t))).

(** *** What the table holds *)

Definition record_all (cap : Z) (ps : list PacketMeta) : FlowTable :=
  foldl (fun t m => (accumulateFlow cap t m).1) ∅ ps.

(** The bytes observed on one flow. *)
Definition flow_bytes (k : AggFlowKey) (ps : list PacketMeta) : Z :=
  foldr Z.add 0 (pm_bytes <$> filter (fun m => key_of m = k) ps).

Lemma record_all_snoc cap ps m :
  record_all cap (ps ++ [m]) = (accumulateFlow cap (record_all cap ps) m).1.
Proof. unfold record_all. by rewrite foldl_app. Qed.

Lemma flow_bytes_snoc k ps m :
  flow_bytes k (ps ++ [m]) =
  flow_bytes k ps + (if decide (key_of m = k) then pm_bytes m else 0).
Proof.
  unfold flow_bytes. rewrite filter_app, fmap_app, foldr_app, filter_cons, filter_nil.
  generalize (pm_bytes <$> filter (fun m => key_of m = k) ps). intros l.
  destruct (decide (key_of m = k)); simpl; induction l; simpl; lia.
Qed.

Lemma record_all_lookup cap ps k :
  record_all cap ps !! k =
    if decide (Exists (fun m => key_of m = k) ps) then Some (u64 (flow_bytes k ps)) else None.
Proof.
  induction ps as [|m ps IH] using rev_ind.
  - rewrite decide_False by (intros H; inversion H). apply lookup_empty.
  - rewrite record_all_snoc. unfold accumulateFlow. simpl fst.
    rewrite flow_bytes_snoc.
    destruct (decide (key_of m = k)) as [Ek|Ek].
    + rewrite decide_True by (apply Exists_app; right; by constructor).
      rewrite Ek, lookup_insert_eq, IH. f_equal.
      destruct (decide (Exists _ ps)) as [|N]; simpl; [apply u64_add_l|].
      f_equal. f_equal. unfold flow_bytes.
      replace (filter (fun m0 => key_of m0 = k) ps) with (@nil PacketMeta); [done|].
      symmetry. apply elem_of_nil_inv. intros x [Hx Hin]%list_elem_of_filter.
      apply N, Exists_exists. eauto.
    + rewrite lookup_insert_ne by done. rewrite IH, Z.add_0_r.
      destruct (decide (Exists _ ps)) as [Y|N].
      * by rewrite decide_True by (apply Exists_app; by left).
      * rewrite decide_False; [done|]. rewrite Exists_app. intros [?|H]; [done|]. inversion H as [? ? E|? ? E]; [done|inversion E].
Qed.

(** The flow table is exact: after any sequence of captured packets, a flow
    has an entry exactly when one of its packets was seen, and the entry is
    the sum of those packets' lengths (modulo the 64-bit counter). *)
Lemma flow_table_exact (cap : Z) (ps : list PacketMeta) (k : AggFlowKey) (v : Z) :
  record_all cap ps !! k = Some v <->
  (exists m, m ∈ ps /\ key_of m = k) /\ v = u64 (flow_bytes k ps).
Proof.
  rewrite record_all_lookup. rewrite <- Exists_exists.
  destruct (decide _); split; try done.
  - intros [= <-]. done.
  - by intros [_ ->].
  - by intros [? _].
Qed.

(** *** Lines fit their buffer *)

Lemma encode_flow_length_bound kv :
  0 <= kv.2 < 2 ^ 64 ->
  (length (("D " : str) ++ take 64 (c_str (k_iface kv.1)) ++ " " ++ take 46 (c_str (k_srcIp kv.1))
              ++ " " ++ take 46 (c_str (k_dstIp kv.1)) ++ " " ++ to_string kv.2 ++ [LF]) <= 182)%nat.
Proof.
  intros Hv. pose proof (to_string_length _ Hv). rewrite !length_app, !length_take.
  change (length ("D " : str)) with 2%nat. change (length (" " : str)) with 1%nat.
  change (length [LF]) with 1%nat. lia.
Qed.

Definition flow_line (kv : AggFlowKey * Z) : str :=
  data_line (mkPacketMeta (take 64 (c_str (k_iface kv.1))) (take 46 (c_str (k_srcIp kv.1)))
                          (take 46 (c_str (k_dstIp kv.1))) kv.2).

Lemma encode_flow_eq kv :
  0 <= kv.2 < 2 ^ 64 -> encode_flow kv = "D " ++ flow_line kv ++ [LF].
Proof.
  intros Hv. pose proof (encode_flow_length_bound kv Hv) as Hl. unfold encode_flow.
  rewrite (proj2 (Nat.ltb_lt _ 256)) by lia. rewrite (proj2 (Nat.ltb_lt 0 _)).
  - simpl andb. cbv iota. unfold flow_line, data_line. simpl.
    repeat (rewrite <- app_assoc; simpl). reflexivity.
  - rewrite length_app. simpl. lia.
Qed.

(** A label that prints unchanged: a token without NUL, within the limit. *)
Definition printable (n : nat) (s : str) : Prop := token s /\ NUL ∉ s /\ (length s <= n)%nat.

Definition key_printable (k : AggFlowKey) : Prop :=
  printable 64 (k_iface k) /\ printable 46 (k_srcIp k) /\ printable 46 (k_dstIp k).

Lemma printed_label n s : printable n s -> take n (c_str s) = s.
Proof. intros (_ & N & L). rewrite c_str_id by done. by apply take_ge. Qed.

Definition meta_of (kv : AggFlowKey * Z) : PacketMeta :=
  mkPacketMeta (k_iface kv.1) (k_srcIp kv.1) (k_dstIp kv.1) kv.2.

Lemma flow_line_printable kv : key_printable kv.1 -> flow_line kv = data_line (meta_of kv).
Proof. intros (Hi & Hs & Hd). unfold flow_line. by rewrite !printed_label by done. Qed.

Lemma flow_line_parsed kv :
  key_printable kv.1 -> 0 <= kv.2 < 2 ^ 64 ->
  parseDataLine (flow_line kv) 0 0 = if UINT32_MAX <? kv.2 then None else Some (meta_of kv).
Proof.
  intros Hk Hv. rewrite flow_line_printable by done. destruct Hk as ((Ti & _ & Li) & (Ts & _ & Ls) & (Td & _ & Ld)).
  apply (parseDataLine_data_line (meta_of kv) 0 0); simpl.
  - by split_conj.
  - unfold labels_fit. simpl. change (lim_iface 0) with 64%nat. change (lim_ip 0) with 50%nat. lia.
  - ulia.
Qed.

(** C: from the flow table to the server: a flow with printable labels is sent
    as one complete line (never cut by the 256-byte buffer), and the server,
    under its default limits, reads back exactly that flow when its byte total
    fits 32 bits - and drops the line when the total is larger. *)
Theorem drained_flow_parsed (kv : AggFlowKey * Z) :
  key_printable kv.1 -> 0 <= kv.2 < 2 ^ 64 ->
  exists body, encode_flow kv = "D " ++ body ++ [LF] /\
    parseDataLine body 0 0 = if UINT32_MAX <? kv.2 then None else Some (meta_of kv).
Proof.
  intros Hk Hv. exists (flow_line kv). split; [by apply encode_flow_eq | by apply flow_line_parsed].
Qed.

Definition sample_key : AggFlowKey := mkAggFlowKey "eth0" "10.0.0.1" "8.8.8.8".

Lemma sample_key_printable : key_printable sample_key.
Proof.
  assert (T : forall n s, forallb (fun c => negb (isSep c) && bool_decide (c <> NUL)) s = true ->
            s <> [] -> (length s <= n)%nat -> printable n s).
  { intros n s H Hne Hl. rewrite forallb_Forall in H. split; [split; [done|]|split; [|done]].
    - eapply Forall_impl; [exact H|]. intros c Hc. by apply andb_true_iff in Hc as [? _].
    - intros Hin. rewrite Forall_forall in H.
      specialize (H _ Hin). apply andb_true_iff in H as [_ H]. by apply bool_decide_eq_true in H. }
  split; [|split]; apply T; try reflexivity; try discriminate; apply Nat.leb_le; reflexivity.
Qed.

Lemma drained_flow_parsed_witness :
  exists body, encode_flow (sample_key, 2 ^ 32) = "D " ++ body ++ [LF] /\
    parseDataLine body 0 0 = None.
Proof. apply (drained_flow_parsed (sample_key, 2 ^ 32)); [apply sample_key_printable|simpl; lia]. Defined.
