(* ===== verification/Config.v ===== *)
(** Configuration files: the client's ([client_types.hpp],
    [client_config_parse.hpp]) and the server's ([server_core.cpp],
    [loadServerConfig]). Each is a list of key=value lines folded over the
    defaults; the if-else chain that dispatches on the key is a table of
    branches, the first with the key taken. Narrowing casts of values already
    clamped to the target type are left out. [std::stoul] is that of an LP64
    platform. The theorems say that no file takes a setting out of its range,
    and that settings of different keys do not interact. *)

From S2P Require Import Prelude CppString Wire Health.
From coqutil Require Import Datatypes.RecordSetters.
Import OCamlLikeNotations.
Local Open Scope Z_scope.

(** ** Values *)

(** [std::stoul] inside the [try]: [None] is an exception. *)
Definition stoul (v : str) : option Z :=
  match stoull v with StoOk n _ => Some n | _ => None end.

(** A branch that parses a number and stores what [f] makes of it. *)
Definition with_number {C} (v : str) (f : Z -> C -> C) (c : C) : C :=
  match stoul v with Some n => f n c | None => c end.

Definition min_max (lo hi n : Z) : Z := Z.min hi (Z.max lo n).

Definition blank : ascii -> bool := char_in [SP; TAB].

(** A value without its leading blanks, unless it has nothing else. *)
Definition trim_value (v : str) : str :=
  match find_if (fun c => negb (blank c)) v with
  | None => v
  | Some i => drop i v
  end.

(** The key and the untrimmed value of a line: after leading blanks, not a
    comment, up to the first equals sign, without blanks before it. *)
Definition split_setting (line : str) : option (str * str) :=
  let line := trim_front blank line in
  match line with
  | [] => None
  | c :: _ =>
      if decide (c = "#"%char) then None
      else match cut "=" line with
           | None => None
           | Some (k, v) => Some (trim_back blank k, v)
           end
  end.

(** A branch: its key and what it does with the value. *)
Definition Branch (C : Type) : Type := str * (str -> C -> C).

Fixpoint find_branch {C} (k : str) (bs : list (Branch C)) : option (str -> C -> C) :=
  match bs with
  | [] => None
  | (k', f) :: bs => if decide (k = k') then Some f else find_branch k bs
  end.

(** ** Lemmas on tables *)

Lemma stoul_range v n : stoul v = Some n -> 0 <= n <= UINT64_MAX.
Proof. unfold stoul. destruct (stoull v) eqn:E; [| done | done]. intros [= <-]. by apply stoull_range in E. Qed.

Lemma find_branch_elem {C} k (bs : list (Branch C)) f : find_branch k bs = Some f -> (k, f) ∈ bs.
Proof.
  induction bs as [| [k' g] bs IH]; cbn [find_branch]; [done |].
  case_decide as E; [intros [= <-]; subst; left | intros H; right; auto].
Qed.

Lemma find_branch_keys {C} k (bs : list (Branch C)) : is_Some (find_branch k bs) <-> k ∈ bs.*1.
Proof.
  induction bs as [| [k' g] bs IH]; cbn [find_branch fmap list_fmap fst]; [split; [intros [? H]; done | intros H; by apply elem_of_nil in H] |].
  rewrite elem_of_cons. case_decide; [split; [by left | by eexists] |]. rewrite IH. tauto.
Qed.

Section Settings.
Context {C : Type} (bs : list (Branch C)).

(** A setting: key and value; one without a branch changes nothing. *)
Definition apply_setting (c : C) (kv : str * str) : C :=
  match find_branch kv.1 bs with Some f => f kv.2 c | None => c end.

(** Branches of different keys commute. *)
Definition independent : Prop :=
  Forall (fun b => Forall (fun b' => b.1 <> b'.1 -> forall v w c, b.2 v (b'.2 w c) = b'.2 w (b.2 v c)) bs) bs.

Hypothesis Hind : independent.

Lemma apply_commute c kv kv' :
  kv.1 <> kv'.1 -> apply_setting (apply_setting c kv) kv' = apply_setting (apply_setting c kv') kv.
Proof.
  intros Hne. unfold apply_setting.
  destruct (find_branch kv.1 bs) as [f |] eqn:E, (find_branch kv'.1 bs) as [g |] eqn:E'; try done.
  apply find_branch_elem in E, E'. pose proof (proj1 (Forall_forall _ _) Hind _ E') as H.
  by apply (proj1 (Forall_forall _ _) H _ E (not_eq_sym Hne)).
Qed.

Lemma apply_front c kv l r :
  (forall x, x ∈ l -> x.1 <> kv.1) ->
  foldl apply_setting c (l ++ kv :: r) = foldl apply_setting (apply_setting c kv) (l ++ r).
Proof.
  revert c. induction l as [| x l IH]; intros c Hl; cbn [app foldl]; [done |].
  rewrite IH by (intros y Hy; apply Hl; by right). rewrite apply_commute; [done |]. apply Hl. by left.
Qed.

(** Only the sequence of values of each key matters. *)
Definition of_key (k : str) (s : list (str * str)) : list (str * str) := filter (fun kv => kv.1 = k) s.

Lemma of_key_none k l : (forall x, x ∈ l -> x.1 <> k) -> of_key k l = [].
Proof.
  unfold of_key. induction l as [| x l IH]; intros H; [done |]. rewrite filter_cons_False by (apply H; by left).
  apply IH. intros y Hy. apply H. by right.
Qed.

Lemma of_key_split kv s' s0 :
  of_key kv.1 s' = kv :: s0 ->
  exists l r, s' = l ++ kv :: r /\ (forall x, x ∈ l -> x.1 <> kv.1) /\ of_key kv.1 r = s0.
Proof.
  unfold of_key. induction s' as [| x s' IH]; [done |]. rewrite filter_cons. case_decide as E.
  - intros [= -> <-]. exists [], s'. split; [done |]. split; [| done]. intros y Hy. by apply elem_of_nil in Hy.
  - intros H. destruct (IH H) as (l & r & -> & Hl & Hr). exists (x :: l), r. split; [done |]. split; [| done].
    intros y [-> | Hy]%elem_of_cons; auto.
Qed.

Lemma settings_per_key s s' c :
  (forall k, of_key k s = of_key k s') -> foldl apply_setting c s = foldl apply_setting c s'.
Proof.
  revert s' c. induction s as [| kv s IH]; intros s' c H.
  - destruct s' as [| kv' s']; [done |]. specialize (H kv'.1). unfold of_key in H. rewrite filter_nil, filter_cons_True in H by done. done.
  - pose proof (H kv.1) as Hk. unfold of_key in Hk at 1. rewrite filter_cons_True in Hk by done. symmetry in Hk.
    destruct (of_key_split _ _ _ Hk) as (l & r & -> & Hl & Hr). rewrite apply_front by done. cbn [foldl]. apply IH.
    intros k. specialize (H k). unfold of_key in *. rewrite filter_app in *. rewrite !filter_cons in H.
    case_decide as E; [| done]. subst k. fold (of_key kv.1 l) in *. rewrite (of_key_none _ l) in * by done. by injection H.
Qed.
End Settings.

(** ** The client's configuration *)

Module ClientConf.

(* client_types.hpp:23-76 ClientConfig *)
Record ClientConfig := mkClientConfig {
  server : str;
  port : Z;
  identityPath : str;
  tlsCaPath : str;
  tlsServerCertPath : str;
  sendBufferBytes : Z;
  verbose : bool;
  externalIpUrl : str;
  externalIpTimeoutMs : Z;
  reconnectMaxAttempts : Z;
  reconnectIntervalSec : Z;
  auto_update : bool;
  web_port : Z;
  aggTargetLinesPerSec : Z;
  aggMinIntervalMs : Z;
  aggMaxIntervalMs : Z;
  aggMaxFlows : Z;
  useCompression : bool;
  transport : TransportMode;
  log_dir : str;
  log_level : str;
  is_daemon : bool
}.

(* client_types.hpp:25-75 ClientConfig, initialisers *)
Definition default_config : ClientConfig :=
  mkClientConfig "127.0.0.1" kDefaultPort [] [] [] 0 false "http://checkip.amazonaws.com/" 5000 10 60
    false 8443 500 100 5000 10000 true TcpTls [] "Info" false.

(* client_config_parse.hpp:27-30 cfg_detail *)
Definition kMaxLineLen : nat := Z.to_nat 8192.
Definition kMaxValueLen : nat := Z.to_nat 2048.
Definition kMinSendBuf : Z := 4096.
Definition kMaxSendBuf : Z := 2 * 1024 * 1024.

(* client_config_parse.hpp:69-72 parseConfigLine, truth values *)
Definition truth (v : str) : bool := bool_decide (to_lower v ∈ ["1" : str; "true" : str; "yes" : str]).

(* client_config_parse.hpp:161-164 parseConfigLine, compress *)
Definition untruth (v : str) : bool := bool_decide (to_lower v ∈ ["0" : str; "false" : str; "no" : str]).

(* client_config_parse.hpp:45-194 parseConfigLine, branches *)
Definition branches : list (Branch ClientConfig) := [
  ("server" : str, fun v c => { c with server := v });
  ("port" : str, fun v => with_number v (fun p c => if negb (p =? 0) && (p <=? 65535) then { c with port := p } else c));
  ("identity" : str, fun v c => { c with identityPath := v });
  ("ca" : str, fun v c => { c with tlsCaPath := v });
  ("server_cert" : str, fun v c => { c with tlsServerCertPath := v });
  ("send_buffer_bytes" : str, fun v => with_number v (fun n c =>
     let n := if n <? kMinSendBuf then kMinSendBuf else n in
     let n := if kMaxSendBuf <? n then kMaxSendBuf else n in
     { c with sendBufferBytes := n }));
  ("verbose" : str, fun v c => { c with verbose := truth v });
  ("external_ip_url" : str, fun v c => if decide (v = []) then c else { c with externalIpUrl := v });
  ("external_ip_timeout_ms" : str, fun v => with_number v (fun n c =>
     if (500 <=? n) && (n <=? 30000) then { c with externalIpTimeoutMs := n } else c));
  ("reconnect_attempts" : str, fun v => with_number v (fun n c =>
     if (1 <=? n) && (n <=? 1000) then { c with reconnectMaxAttempts := n } else c));
  ("reconnect_interval_sec" : str, fun v => with_number v (fun n c =>
     if (1 <=? n) && (n <=? 3600) then { c with reconnectIntervalSec := n } else c));
  ("auto_update" : str, fun v c => { c with auto_update := truth v });
  ("web_port" : str, fun _ c => c);
  ("agg_target_lines_per_sec" : str, fun v => with_number v (fun n c => { c with aggTargetLinesPerSec := Z.min n 1000000 }));
  ("agg_min_interval_ms" : str, fun v => with_number v (fun n c => { c with aggMinIntervalMs := clamp n 50 5000 }));
  ("agg_max_interval_ms" : str, fun v => with_number v (fun n c => { c with aggMaxIntervalMs := clamp n 100 60000 }));
  ("agg_max_flows" : str, fun v => with_number v (fun n c => { c with aggMaxFlows := clamp n 100 1000000 }));
  ("compress" : str, fun v c => { c with useCompression := negb (untruth v) });
  ("transport" : str, fun v c =>
     { c with transport := if bool_decide (to_lower v ∈ ["websocket" : str; "ws" : str]) then WebSocket else TcpTls });
  ("log_dir" : str, fun v c => { c with log_dir := v });
  ("log_level" : str, fun v c =>
     { c with log_level := if bool_decide (v ∈ ["Info" : str; "Warn" : str; "Err" : str]) then v else ("Info" : str) }) ].

(** Whether the key was recognised, and the fields afterwards. *)
(* client_config_parse.hpp:38-196 parseConfigLine *)
Definition parseConfigLine (key val : str) (out : ClientConfig) : bool * ClientConfig :=
  let v := take kMaxValueLen val in
  match find_branch key branches with
  | Some f => (true, f v out)
  | None => (false, out)
  end.

(* client_config_parse.hpp:210-213 loadClientConfig, line end *)
Definition line_end (line : str) : str :=
  let line := take kMaxLineLen line in
  match rev line with
  | c :: r => if decide (c = CR) then rev r else line
  | [] => line
  end.

(* client_config_parse.hpp:210-225 loadClientConfig, one line *)
Definition config_line (out : ClientConfig) (line : str) : ClientConfig :=
  match split_setting (line_end line) with
  | None => out
  | Some (key, val) => (parseConfigLine key (trim_value val) out).2
  end.

(** [None]: the file does not open. *)
(* client_config_parse.hpp:203-228 loadClientConfig *)
Definition loadClientConfig (file : option str) (out : ClientConfig) : option ClientConfig :=
  match file with
  | None => None
  | Some text => Some (foldl config_line out (getlines text))
  end.

(** ** Lemmas *)

(** What every field is worth after any file. *)
Record config_ok (c : ClientConfig) : Prop := {
  port_ok : 1 <= port c <= 65535;
  sendBuffer_ok : sendBufferBytes c = 0 \/ kMinSendBuf <= sendBufferBytes c <= kMaxSendBuf;
  timeout_ok : 500 <= externalIpTimeoutMs c <= 30000;
  attempts_ok : 1 <= reconnectMaxAttempts c <= 1000;
  interval_ok : 1 <= reconnectIntervalSec c <= 3600;
  target_ok : 0 <= aggTargetLinesPerSec c <= 1000000;
  aggMin_ok : 50 <= aggMinIntervalMs c <= 5000;
  aggMax_ok : 100 <= aggMaxIntervalMs c <= 60000;
  aggFlows_ok : 100 <= aggMaxFlows c <= 1000000;
  url_ok : externalIpUrl c <> [];
  level_ok : log_level c ∈ ["Info" : str; "Warn" : str; "Err" : str]
}.

Lemma default_ok : config_ok default_config.
Proof. split; try (cbn; lia); try done. left. Qed.

Lemma branches_keep_ok : Forall (fun b => forall v c, config_ok c -> config_ok (b.2 v c)) branches.
Proof.
  unfold branches. repeat apply List.Forall_cons; try apply List.Forall_nil; cbn [snd]; intros v c Hc; try (by destruct Hc; split);
    unfold with_number, clamp; try destruct (stoul v) as [n |] eqn:E; try done; try apply stoul_range in E;
    repeat case_match; bool_to_prop; try done; destruct Hc; split; cbn; unfold constant, kMinSendBuf, kMaxSendBuf in *; try done; try lia; try (by left).
Qed.

Lemma parse_ok key val c : config_ok c -> config_ok (parseConfigLine key val c).2.
Proof.
  intros Hc. unfold parseConfigLine. destruct (find_branch key branches) as [f |] eqn:E; [| done].
  apply find_branch_elem in E. exact (proj1 (List.Forall_forall _ _) branches_keep_ok (key, f) (proj1 (list_elem_of_In _ _) E) _ _ Hc).
Qed.

Lemma load_ok file c c' : config_ok c -> loadClientConfig file c = Some c' -> config_ok c'.
Proof.
  intros Hc. destruct file as [text |]; [| done]. intros [= <-]. revert c Hc.
  induction (getlines text) as [| l ls IH]; intros c Hc; cbn [foldl]; [done |]. apply IH. unfold config_line.
  destruct (split_setting _) as [[k v] |]; [| done]. by apply parse_ok.
Qed.

(** ** Independence of settings *)

Lemma branches_independent : independent branches.
Proof.
  unfold independent, branches.
  repeat (apply List.Forall_cons; [repeat (apply List.Forall_cons; [cbn [fst snd]; intros Hne v w c;
    first [by destruct Hne | unfold with_number; repeat case_match; reflexivity] |]); apply List.Forall_nil |]).
  apply List.Forall_nil.
Qed.

(** The settings of a text: the keys and the values their branches get. *)
Definition setting_of (line : str) : option (str * str) :=
  (fun kv => (kv.1, take kMaxValueLen (trim_value kv.2))) <$> split_setting (line_end line).

Definition settings (text : str) : list (str * str) := omap setting_of (getlines text).

Lemma config_line_setting c line :
  config_line c line = match setting_of line with Some kv => apply_setting branches c kv | None => c end.
Proof.
  unfold config_line, setting_of. destruct (split_setting _) as [[k v] |]; [| done].
  cbn [fmap option_fmap option_map fst snd]. unfold parseConfigLine, apply_setting. cbn [fst snd]. by destruct (find_branch k branches).
Qed.

Lemma load_settings text c : loadClientConfig (Some text) c = Some (foldl (apply_setting branches) c (settings text)).
Proof.
  cbn [loadClientConfig]. f_equal. unfold settings. revert c.
  induction (getlines text) as [| l ls IH]; intros c; cbn [foldl omap list_omap]; [done |].
  rewrite IH, config_line_setting. by destruct (setting_of l).
Qed.

(** A client configuration file means its settings, key by key: two files
    that give every key the same sequence of values load to the same
    configuration, whatever their order, comments, blanks and line ends; and
    every integer of the result is within the range of its setting, whatever
    the file holds. *)
Lemma config_per_key (t1 t2 : str) (c : ClientConfig) :
  config_ok c -> (forall k, of_key k (settings t1) = of_key k (settings t2)) ->
  exists c', loadClientConfig (Some t1) c = Some c' /\ loadClientConfig (Some t2) c = Some c' /\ config_ok c'.
Proof.
  intros Hc H. exists (foldl (apply_setting branches) c (settings t1)). split; [apply load_settings |]. split.
  - rewrite load_settings. f_equal. symmetry. apply settings_per_key; [apply branches_independent | done].
  - eapply load_ok; [done |]. apply load_settings.
Qed.

Definition sample_text : str := "port = 7000" ++ CR :: LF :: "# comment" ++ LF :: "transport=WS" ++ [LF].
Definition sample_text' : str := "transport=WS" ++ LF :: "  port=7000".

Lemma config_per_key_witness :
  exists c', loadClientConfig (Some sample_text) default_config = Some c' /\
    loadClientConfig (Some sample_text') default_config = Some c' /\ config_ok c'.
Proof.
  apply (config_per_key sample_text sample_text' default_config default_ok).
  assert (E : settings sample_text = [("port" : str, "7000" : str); ("transport" : str, "WS" : str)]) by (vm_compute; reflexivity).
  assert (E' : settings sample_text' = [("transport" : str, "WS" : str); ("port" : str, "7000" : str)]) by (vm_compute; reflexivity).
  intros k. rewrite E, E'. unfold of_key. rewrite !filter_cons, !filter_nil. cbn [fst].
  destruct (decide (("port" : str) = k)) as [<- |]; [reflexivity |]. reflexivity.
Defined.

(** Both clamps of the aggregation interval are in range, but nothing orders
    them: the interval controller then clamps between reversed bounds. *)
Lemma reversed_bounds :
  (fun c => (aggMinIntervalMs c, aggMaxIntervalMs c)) <$>
    loadClientConfig (Some ("agg_min_interval_ms=5000" ++ LF :: "agg_max_interval_ms=100")) default_config
  = Some (5000, 100).
Proof. vm_compute. reflexivity. Qed.

End ClientConf.

(** ** The server's configuration *)

Module ServerConf.

(* server_core.cpp:70-134 ServerConfig *)
Record ServerConfig := mkServerConfig {
  port : Z;
  client_bind : str;
  allowed_keys : str;
  cert : str;
  key : str;
  require_tls : bool;
  verbose : bool;
  web_port : Z;
  web_bind : str;
  web_rate_limit_rpm : Z;
  aggregation_window_days : Z;
  max_recv_buffer_bytes : Z;
  ip_db_path : str;
  ip_db_url : str;
  ip_db_update_interval_days : Z;
  ip_db_auto_update : bool;
  max_flow_entries_per_key : Z;
  max_entity_flow_entries_per_key : Z;
  max_ifaces_per_client : Z;
  max_entity_lines_in_summary : Z;
  max_snapshot_entries_for_print : Z;
  max_iface_len : Z;
  max_ip_len : Z;
  max_concurrent_connections : Z;
  max_connections_per_ip : Z;
  idle_timeout_seconds : Z;
  max_d_lines_per_second_per_connection : Z;
  update_dir : str;
  trusted_proxy : str;
  hidden_entities_file : str;
  webauthn_rp_id : str;
  webauthn_rp_name : str;
  webauthn_credentials_file : str;
  webauthn_ios_app_id : str;
  webauthn_allowed_origins : str;
  webauthn_session_ttl_hours : Z;
  webauthn_idle_timeout_minutes : Z;
  siwa_service_id : str;
  siwa_ios_bundle_id : str;
  siwa_redirect_uri : str;
  siwa_admins : str;
  siwa_admin_subs : str;
  siwa_admin_file : str;
  siwa_domain_assoc_file : str
}.

(* server_core.cpp:73-133 ServerConfig, initialisers *)
Definition default_config : ServerConfig :=
  mkServerConfig kDefaultPort [] [] [] [] false false 8443 "0.0.0.0" 30 7 (1024 * 1024)
    "/var/lib/ntm-server/ip2asn-combined.tsv.gz" "https://iptoasn.com/data/ip2asn-combined.tsv.gz" 7 true
    100000 100000 256 50000 200000 (Z.of_nat kMaxIfaceLabelLen) (Z.of_nat kMaxIpLabelLen) 1000 20 300 20000
    [] [] [] [] [] [] [] [] 24 15 [] [] [] [] [] [] [].

(* server_core.cpp:917-943 knownServerConfigKeys *)
Definition knownServerConfigKeys : list str := [
  "port" : str; "client_bind" : str; "allowed_keys" : str; "cert" : str; "key" : str; "require_tls" : str; "verbose" : str;
  "web_port" : str; "web_bind" : str; "web_rate_limit_rpm" : str; "aggregation_window_days" : str; "max_recv_buffer_bytes" : str;
  "ip_db_path" : str; "ip_db_url" : str; "ip_db_update_interval_days" : str; "ip_db_auto_update" : str;
  "max_flow_entries_per_key" : str; "max_entity_flow_entries_per_key" : str; "max_ifaces_per_client" : str;
  "max_entity_lines_in_summary" : str; "max_snapshot_entries_for_print" : str; "max_iface_len" : str; "max_ip_len" : str;
  "max_concurrent_connections" : str; "max_connections_per_ip" : str; "idle_timeout_seconds" : str;
  "max_d_lines_per_second_per_connection" : str; "webauthn_rp_id" : str; "webauthn_rp_name" : str;
  "webauthn_credentials_file" : str; "webauthn_ios_app_id" : str; "webauthn_allowed_origins" : str;
  "webauthn_session_ttl_hours" : str; "webauthn_idle_timeout_minutes" : str; "siwa_service_id" : str;
  "siwa_ios_bundle_id" : str; "siwa_redirect_uri" : str; "siwa_admins" : str; "siwa_admin_subs" : str; "siwa_admin_file" : str;
  "siwa_domain_assoc_file" : str; "update_dir" : str; "trusted_proxy" : str; "hidden_entities_file" : str ].

Definition truth (v : str) : bool := bool_decide (to_lower v ∈ ["true" : str; "yes" : str; "1" : str]).

(* server_core.cpp:1000-1159 loadServerConfig, branches *)
Definition branches : list (Branch ServerConfig) := [
  ("port" : str, fun v => with_number v (fun u c => { c with port := Z.max 1 (Z.min 65535 u) }));
  ("client_bind" : str, fun v c => { c with client_bind := v });
  ("allowed_keys" : str, fun v c => { c with allowed_keys := v });
  ("cert" : str, fun v c => { c with cert := v });
  ("key" : str, fun v c => { c with key := v });
  ("require_tls" : str, fun v c => { c with require_tls := truth v });
  ("verbose" : str, fun v c => { c with verbose := truth v });
  ("web_port" : str, fun v => with_number v (fun u c => { c with web_port := Z.min 65535 u }));
  ("web_bind" : str, fun v c => { c with web_bind := v });
  ("web_rate_limit_rpm" : str, fun v => with_number v (fun u c => { c with web_rate_limit_rpm := Z.min 100000 u }));
  ("webauthn_rp_id" : str, fun v c => { c with webauthn_rp_id := v });
  ("webauthn_rp_name" : str, fun v c => { c with webauthn_rp_name := v });
  ("webauthn_credentials_file" : str, fun v c => { c with webauthn_credentials_file := v });
  ("webauthn_ios_app_id" : str, fun v c => { c with webauthn_ios_app_id := v });
  ("webauthn_allowed_origins" : str, fun v c => { c with webauthn_allowed_origins := v });
  ("siwa_service_id" : str, fun v c => { c with siwa_service_id := v });
  ("siwa_ios_bundle_id" : str, fun v c => { c with siwa_ios_bundle_id := v });
  ("siwa_redirect_uri" : str, fun v c => { c with siwa_redirect_uri := v });
  ("siwa_admins" : str, fun v c => { c with siwa_admins := v });
  ("siwa_admin_subs" : str, fun v c => { c with siwa_admin_subs := v });
  ("siwa_admin_file" : str, fun v c => { c with siwa_admin_file := v });
  ("siwa_domain_assoc_file" : str, fun v c => { c with siwa_domain_assoc_file := v });
  ("webauthn_session_ttl_hours" : str, fun v => with_number v (fun u c => { c with webauthn_session_ttl_hours := min_max 1 720 u }));
  ("webauthn_idle_timeout_minutes" : str, fun v => with_number v (fun u c => { c with webauthn_idle_timeout_minutes := min_max 1 1440 u }));
  ("update_dir" : str, fun v c => { c with update_dir := v });
  ("trusted_proxy" : str, fun v c => { c with trusted_proxy := v });
  ("hidden_entities_file" : str, fun v c => { c with hidden_entities_file := v });
  ("aggregation_window_days" : str, fun v => with_number v (fun u c => { c with aggregation_window_days := Z.max 1 (Z.min 365 u) }));
  ("ip_db_path" : str, fun v c => { c with ip_db_path := v });
  ("ip_db_url" : str, fun v c => { c with ip_db_url := v });
  ("ip_db_update_interval_days" : str, fun v => with_number v (fun u c => { c with ip_db_update_interval_days := min_max 1 365 u }));
  ("ip_db_auto_update" : str, fun v c =>
     { c with ip_db_auto_update := bool_decide (to_lower v ∈ ["1" : str; "true" : str; "yes" : str; "on" : str]) });
  ("max_recv_buffer_bytes" : str, fun v => with_number v (fun u c => { c with max_recv_buffer_bytes := min_max 4096 (16 * 1024 * 1024) u }));
  ("max_flow_entries_per_key" : str, fun v => with_number v (fun u c => { c with max_flow_entries_per_key := min_max 100 1000000 u }));
  ("max_entity_flow_entries_per_key" : str, fun v => with_number v (fun u c => { c with max_entity_flow_entries_per_key := min_max 100 1000000 u }));
  ("max_ifaces_per_client" : str, fun v => with_number v (fun u c => { c with max_ifaces_per_client := min_max 1 100000 u }));
  ("max_entity_lines_in_summary" : str, fun v => with_number v (fun u c => { c with max_entity_lines_in_summary := min_max 100 1000000 u }));
  ("max_snapshot_entries_for_print" : str, fun v => with_number v (fun u c => { c with max_snapshot_entries_for_print := min_max 1000 2000000 u }));
  ("max_iface_len" : str, fun v => with_number v (fun u c => { c with max_iface_len := min_max 8 256 u }));
  ("max_ip_len" : str, fun v => with_number v (fun u c => { c with max_ip_len := min_max 15 64 u }));
  ("max_concurrent_connections" : str, fun v => with_number v (fun u c => { c with max_concurrent_connections := min_max 10 100000 u }));
  ("max_connections_per_ip" : str, fun v => with_number v (fun u c => { c with max_connections_per_ip := min_max 1 1000 u }));
  ("idle_timeout_seconds" : str, fun v => with_number v (fun u c => { c with idle_timeout_seconds := min_max 10 86400 (u32 u) }));
  ("max_d_lines_per_second_per_connection" : str, fun v =>
     with_number v (fun u c => { c with max_d_lines_per_second_per_connection := min_max 100 1000000 (u32 u) })) ].

(* server_core.cpp:995-995 loadServerConfig, empty values *)
Definition may_be_empty (k : str) : bool := bool_decide (k ∈ ["allowed_keys" : str; "cert" : str; "key" : str]).

(** The configuration and the count of recognised keys. *)
(* server_core.cpp:971-1164 loadServerConfig, one line *)
Definition config_line (st : ServerConfig * Z) (line : str) : ServerConfig * Z :=
  let (cfg, recognized) := st in
  match split_setting (trim_back (char_in [CR; LF]) line) with
  | None => st
  | Some (k, val) =>
      if negb (bool_decide (k ∈ knownServerConfigKeys)) then st
      else
        let recognized := recognized + 1 in
        let val := trim_value val in
        if bool_decide (val = []) && negb (may_be_empty k) then (cfg, recognized)
        else match find_branch k branches with
             | Some f => (f val cfg, recognized)
             | None => (cfg, recognized)
             end
  end.

(** [path] empty: defaults. [file]: the text, [None] when it does not open.
    The result is the configuration, [ok], and the recognised keys. *)
(* server_core.cpp:951-1168 loadServerConfig *)
Definition loadServerConfig (path : str) (file : option str) : ServerConfig * bool * Z :=
  if decide (path = []) then (default_config, true, 0)
  else match file with
       | None => (default_config, false, 0)
       | Some text => let (cfg, n) := foldl config_line (default_config, 0) (getlines text) in (cfg, true, n)
       end.

(** ** Lemmas *)

(** The ranges of every setting. *)
Record config_ok (c : ServerConfig) : Prop := {
  port_ok : 1 <= port c <= 65535;
  rpm_ok : 0 <= web_rate_limit_rpm c <= 100000;
  window_ok : 1 <= aggregation_window_days c <= 365;
  recv_ok : 4096 <= max_recv_buffer_bytes c <= 16 * 1024 * 1024;
  refresh_ok : 1 <= ip_db_update_interval_days c <= 365;
  flows_ok : 100 <= max_flow_entries_per_key c <= 1000000;
  entities_ok : 100 <= max_entity_flow_entries_per_key c <= 1000000;
  ifaces_ok : 1 <= max_ifaces_per_client c <= 100000;
  summary_ok : 100 <= max_entity_lines_in_summary c <= 1000000;
  print_ok : 1000 <= max_snapshot_entries_for_print c <= 2000000;
  iface_len_ok : 8 <= max_iface_len c <= 256;
  ip_len_ok : 15 <= max_ip_len c <= 64;
  connections_ok : 10 <= max_concurrent_connections c <= 100000;
  per_ip_ok : 1 <= max_connections_per_ip c <= 1000;
  idle_ok : 10 <= idle_timeout_seconds c <= 86400;
  dlines_ok : 100 <= max_d_lines_per_second_per_connection c <= 1000000;
  ttl_ok : 1 <= webauthn_session_ttl_hours c <= 720;
  idle_minutes_ok : 1 <= webauthn_idle_timeout_minutes c <= 1440
}.

Lemma server_default_ok : config_ok default_config.
Proof. split; by vm_compute. Qed.

Lemma min_max_range lo hi n : lo <= hi -> lo <= min_max lo hi n <= hi.
Proof. unfold min_max. lia. Qed.

Lemma server_branches_keep_ok : Forall (fun b => forall v c, config_ok c -> config_ok (b.2 v c)) branches.
Proof.
  unfold branches. repeat apply List.Forall_cons; try apply List.Forall_nil; cbn [snd]; intros v c Hc; try (by destruct Hc; split);
    unfold with_number; destruct (stoul v) as [n |] eqn:E; try done; apply stoul_range in E; destruct Hc; split; cbn; unfold constant;
    try done; try (apply min_max_range; lia); lia.
Qed.

(** Every known key has a branch and every branch has a known key. *)
Lemma keys_handled k : is_Some (find_branch k branches) <-> k ∈ knownServerConfigKeys.
Proof.
  rewrite find_branch_keys. assert (E : branches.*1 ≡ₚ knownServerConfigKeys) by (apply (bool_decide_unpack _); vm_compute; reflexivity).
  by rewrite E.
Qed.

Lemma line_ok st line : config_ok st.1 -> config_ok (config_line st line).1.
Proof.
  destruct st as [cfg n]. cbn [fst]. intros Hc. unfold config_line. destruct (split_setting _) as [[k v] |]; [| done].
  case_bool_decide; cbn [negb]; [| done]. destruct (bool_decide (trim_value v = []) && _); [done |].
  destruct (find_branch k branches) as [f |] eqn:E; [| done]. apply find_branch_elem in E. cbn [fst].
  exact (proj1 (List.Forall_forall _ _) server_branches_keep_ok (k, f) (proj1 (list_elem_of_In _ _) E) _ _ Hc).
Qed.

(** Whatever the file holds, every setting is within its range. *)
Lemma server_load_ok path file : config_ok (loadServerConfig path file).1.1.
Proof.
  unfold loadServerConfig. case_decide; [exact server_default_ok |]. destruct file as [text |]; [| exact server_default_ok].
  destruct (foldl _ _ _) as [cfg n] eqn:E. cbn [fst]. change cfg with ((cfg, n).1). rewrite <- E.
  assert (Hd : config_ok (default_config, 0).1) by exact server_default_ok. revert Hd. generalize (default_config, 0).
  clear E. induction (getlines text) as [| l ls IH]; intros st Hst; cbn [foldl]; [done |]. apply IH. by apply line_ok.
Qed.

End ServerConf.
