(* ===== verification/Sender.v ===== *)
(** The sender of the client ([client_impl.cpp]): connecting, the address
    announce, and the rounds of [senderLoop], each of which drains the flow
    table, reconnects when needed, serves control commands, reports health
    and sends the flows. Sockets, clocks, the host's addresses and the results
    of writes enter a round as its environment; zlib's compressor is a
    parameter. The theorems say what becomes of every captured byte, what a
    session carries, and when the client reconnects and gives up. *)

From S2P Require Import Prelude CppString Wire Health FlowAggregator Trust Upgrade HttpUtil Updater FileLog ClientCtrl TrafficStats Registry WireLoop Auth WebSocket Config.
From coqutil Require Import Datatypes.RecordSetters.
Import OCamlLikeNotations.
Import ClientConf.
Local Open Scope Z_scope.

(* proto_client_server.hpp:142-144 kHealthIntervalSec *)
Definition kHealthIntervalSec : Z := 30.

(** A compressor from its initial state on. *)
Class Deflater := { DState : Type; deflateInit : DState; deflate : DState -> str -> DState * str }.

Section Sender.
Context `{CRY : Crypto} `{SH : Sha256} `{B64 : EvpBase64} `{ED : Ed25519} `{DF : Deflater}.
Context (productionRoots : RootSet).

(** ** A connection *)

(** What becomes of a call of [deflateAndWrite]: the bytes are out; the write
    failed after a part of them, of which the other side can read [n] bytes of
    the text (with compression, what the part inflates to); the compressor
    failed. *)
Inductive WrRes := Wrote | WriteFails (n : nat) | FeedFails.

(** Who sends. The flows of a flush are kept beside their lines. A write is its
    text, the bytes handed to the transport, its result, and the part of the
    text that gets through. *)
Inductive Kind := KAnnounce | KCtrl | KHealth | KFlows (t : FlowTable).

Record Sent := mkSent { s_kind : Kind; s_plain : str; s_raw : str; s_ok : bool; s_through : str }.

Inductive Transport := Tcp | Ws (t : WebSocketTransport).

(** [c_wr i] is the result of the [i]-th write of the session; [c_log] lists
    the writes of the session in order. *)
Record Conn := mkConn { c_transport : Transport; c_deflater : option DState; c_wr : nat -> WrRes; c_log : list Sent }.

Definition next_ok (c : Conn) (i : nat) : bool := match c_wr c (length (c_log c) + i) with Wrote => true | _ => false end.

(** What gets through of the next write. *)
Definition through (c : Conn) (data : str) : str :=
  match c_wr c (length (c_log c)) with Wrote => data | WriteFails n => take n data | FeedFails => [] end.

(* client_impl.cpp:236-246 deflateAndWrite *)
Definition deflateAndWrite (k : Kind) (data : str) (c : Conn) : Conn * bool :=
  match data with
  | [] => (c, true)
  | _ =>
      match c_deflater c with
      | None =>
          let ok := next_ok c 0 in
          ({ c with c_log := c_log c ++ [mkSent k data data ok (through c data)] }, ok)
      | Some d =>
          match c_wr c (length (c_log c)) with
          | FeedFails => ({ c with c_log := c_log c ++ [mkSent k data [] false []] }, false)
          | _ =>
              let (d, compBuf) := deflate d data in
              let ok := next_ok c 0 in
              (mkConn (c_transport c) (Some d) (c_wr c) (c_log c ++ [mkSent k data compBuf ok (through c data)]), ok)
          end
      end
  end.

(** One call per line, up to the first that fails. *)
Fixpoint write_lines (k : Kind) (ls : list str) (c : Conn) : Conn * bool :=
  match ls with
  | [] => (c, true)
  | l :: ls => let (c, ok) := deflateAndWrite k l c in if ok : bool then write_lines k ls c else (c, false)
  end.

(** One call per line, results ignored. *)
Definition write_ignoring (k : Kind) (ls : list str) (c : Conn) : Conn :=
  foldl (fun c l => (deflateAndWrite k l c).1) c ls.

Definition x_text (extIp : str) : str := kExtIPLinePrefix ++ (if decide (extIp = []) then kExtIPNull else extIp) ++ [LF].
Definition a_text (ip : str) : str := kAddrLinePrefix ++ ip ++ [LF].

(** [None]: the time of the last announce is not touched. *)
(* client_impl.cpp:249-268 sendAnnounce *)
Definition sendAnnounce (lanAddrs : list str) (extIp : str) (nowSec : Z) (c : Conn) : Conn * option Z * bool :=
  match lanAddrs with
  | [] => (c, None, true)
  | _ =>
      let (c, ok) := write_lines KAnnounce (x_text extIp :: (a_text <$> lanAddrs)) c in
      (c, if ok : bool then Some nowSec else None, ok)
  end.

(* client_transport_tcptls.cpp:195-248 TcpTlsTransport::pollCtrlLines *)
Definition tcp_poll (p : Poll) (inBuf : str) : str * option (list str) :=
  match p with
  | NotReady | WouldBlock => (inBuf, Some [])
  | Broken => (inBuf, None)
  | Chunk data =>
      let (ls, rest) := split_lines (inBuf ++ data) in
      (rest, Some (filter (fun l : str => l <> []) (trim_back (char_in [CR]) <$> ls)))
  end.

(** The lines of a poll, or [None] when the connection is gone. *)
Definition poll_lines (p : Poll) (inBuf : str) (c : Conn) : Conn * str * option (list str) :=
  match c_transport c with
  | Tcp => let (inBuf, o) := tcp_poll p inBuf in (c, inBuf, o)
  | Ws t => let (t, o) := pollCtrlLines p t in ({ c with c_transport := Ws t }, inBuf, o)
  end.

(** ** The client *)

(** The members of [ClientConnection] that change, and the command state;
    [past] lists the connections that are closed. *)
Record Client := mkClient {
  flowTable : FlowTable;
  aggInterval : AdaptiveInterval.t;
  aggLastFlows : Z;
  conn : option Conn;
  sessionStart : Z;
  ctrlInBuf : str;
  lastReannounceTime : Z;
  lastHealthReportSec : Z;
  totalPcapRecv : Z; totalPcapDrop : Z; sendBufDrops : Z;
  reconnectFailures : Z;
  lastReconnectAttempt : Z;
  runningSender : bool;
  g_running : bool;
  ctrl : CtrlState;
  past : list Conn
}.

(* client_impl.cpp:1066-1087 runClient, connection *)
(* client_impl.cpp:60-114 ClientConnection::ClientConnection *)
Definition client_init (cfg : ClientConfig) (st : CtrlState) : Client :=
  mkClient ∅ (AdaptiveInterval.create (AdaptiveInterval.mkConfig (aggTargetLinesPerSec cfg) (aggMinIntervalMs cfg) (aggMaxIntervalMs cfg)))
    0 None 0 [] 0 0 0 0 0 0 0 true true st [].

(** A connection attempt: whether TCP, TLS, the pin and the upgrade succeed,
    the identity file, the server's answers of the authentication exchange,
    the host's addresses, and the results of the session's writes. *)
Record Attempt := mkAttempt {
  e_connects : bool; e_identity : IdentityFile; e_answers : list (option str);
  e_lan : list str; e_ext : str; e_wr : nat -> WrRes;
  e_announced : Z; e_started : Z    (* clock readings, ns *)
}.

Definition set_conn (o : option Conn) (s : Client) : Client := { s with conn := o }.

(* client_impl.cpp:732-736 closeUnlocked *)
Definition closeUnlocked (s : Client) : Client :=
  match conn s with None => s | Some c => { { s with past := past s ++ [c] } with conn := None } end.

Definition announce (lan : list str) (ext : str) (nowSec : Z) (s : Client) : Client * bool :=
  match conn s with
  | None => (s, true)
  | Some c =>
      let '(c, at_, ok) := sendAnnounce lan ext nowSec c in
      let s := { s with conn := Some c } in
      ({ s with lastReannounceTime := default (lastReannounceTime s) at_ }, ok)
  end.

(* client_impl.cpp:738-816 connectUnlocked *)
Definition connectUnlocked (cfg : ClientConfig) (e : Attempt) (s : Client) : Client * bool :=
  match conn s with
  | Some _ => (s, true)
  | None =>
      if negb (e_connects e) then (s, false)
      else
        match exec (performClientAuth (ClientConf.identityPath cfg) (e_identity e) (useCompression cfg)) (e_answers e) with
        | Some (Ok caps) =>
            let zlib := negb (Z.land (default kCapNone caps) kCapZlib =? 0) in
            let t := match transport cfg with WebSocket => Ws transport_init | TcpTls => Tcp end in
            let s := { s with conn := Some (mkConn t (if zlib then Some deflateInit else None) (e_wr e) []) } in
            let (s, ok) := announce (e_lan e) (e_ext e) (seconds (e_announced e)) s in
            if negb ok then (closeUnlocked s, false)
            else ({ s with sessionStart := e_started e }, true)
        | _ => (s, false)
        end
  end.

(** ** A round of the sender *)

(** What one round meets: packets that arrive after the cap is tested, the
    clock at its readings, a change of the host's addresses, the attempt to
    connect, the poll of the control channel and the commands' surroundings. *)
Record Env := mkEnv {
  r_late : list PacketMeta;
  r_now : Z; r_reconnect : Z; r_session : Z;    (* clock readings, ns *)
  r_netChanged : bool;
  r_attempt : Attempt;
  r_poll : Poll;
  r_ctrl : nat -> CtrlEnv
}.

(** The result of a chunk's write is that of its place in the session. *)
Definition with_chunks (c : Conn) (e : CtrlEnv) : CtrlEnv :=
  mkCtrlEnv (c_now e) (c_opens e) (c_auto_update e) (c_upd_env e) (c_rehash e) (fun i => next_ok c (S i)).

(** The commands of one poll in order. *)
(* client_impl.cpp:654-658 senderLoop, commands *)
Fixpoint serve (e : nat -> CtrlEnv) (ls : list str) (st : CtrlState) (c : Conn) : CtrlState * Conn :=
  match ls with
  | [] => (st, c)
  | l :: ls =>
      let (st, responses) := processCtrlLine productionRoots (with_chunks c (e 0%nat)) l st in
      serve (fun i => e (S i)) ls st (write_ignoring KCtrl responses c)
  end.

Definition captured (cfg : ClientConfig) (ps : list PacketMeta) (t : FlowTable) : FlowTable :=
  foldl (fun t m => (accumulateFlow (aggMaxFlows cfg) t m).1) t ps.

(** The cap test, the drain and the interval: the flows taken out and their lines. *)
(* client_impl.cpp:552-595 senderLoop, drain *)
Definition flush_stage (cfg : ClientConfig) (e : Env) (s : Client) : FlowTable * str * Client :=
  let forcedFlush := aggMaxFlows cfg <=? Z.of_nat (size (flowTable s)) in
  let taken := captured cfg (r_late e) (flowTable s) in
  let '(rest, flushBuffer, flowCount) := drain taken in
  let s := { s with flowTable := rest } in
  (taken, flushBuffer,
   if forcedFlush : bool then s
   else { { s with aggInterval := AdaptiveInterval.update (aggInterval s) flowCount } with aggLastFlows := flowCount }).

(* client_impl.cpp:601-603 senderLoop, health due *)
Definition health_due (e : Env) (s : Client) : bool := kHealthIntervalSec <=? seconds (r_now e) - lastHealthReportSec s.

(** [None]: the round is over. *)
(* client_impl.cpp:605-642 senderLoop, reconnect *)
Definition connect_stage (cfg : ClientConfig) (e : Env) (idle : bool) (s : Client) : Client * bool :=
  match conn s with
  | Some _ => (s, true)
  | None =>
      if idle : bool then (s, false)
      else
        let waitInterval := (0 <? reconnectFailures s) && (seconds (r_reconnect e - lastReconnectAttempt s) <? reconnectIntervalSec cfg) in
        if waitInterval then (s, false)
        else
          let s := { s with lastReconnectAttempt := r_reconnect e } in
          let (s, ok) := connectUnlocked cfg (r_attempt e) s in
          if negb ok then
            let s := { s with reconnectFailures := u32 (reconnectFailures s + 1) } in
            if reconnectMaxAttempts cfg <=? reconnectFailures s then ({ { s with g_running := false } with runningSender := false }, false)
            else (s, false)
          else ({ { s with reconnectFailures := 0 } with aggInterval := AdaptiveInterval.reset (aggInterval s) }, true)
  end.

(* client_impl.cpp:644-659 senderLoop, control lines *)
Definition ctrl_stage (e : Env) (s : Client) : Client :=
  match conn s with
  | None => s
  | Some c =>
      let '(c, inBuf, o) := poll_lines (r_poll e) (ctrlInBuf s) c in
      let s := { { s with conn := Some c } with ctrlInBuf := inBuf } in
      match o with
      | None => closeUnlocked s
      | Some ls => let (st, c) := serve (r_ctrl e) ls (ctrl s) c in { { s with ctrl := st } with conn := Some c }
      end
  end.

(* client_impl.cpp:665-672 senderLoop, announce *)
Definition announce_stage (e : Env) (s : Client) : Client :=
  match conn s with
  | None => s
  | Some _ =>
      if r_netChanged e && (kAnnounceRateLimitSec <=? seconds (r_now e) - lastReannounceTime s) then
        let s := { s with lastReannounceTime := seconds (r_now e) } in
        let (s, ok) := announce (e_lan (r_attempt e)) (e_ext (r_attempt e)) (seconds (e_announced (r_attempt e))) s in
        if ok : bool then s else closeUnlocked s
      else s
  end.

(* client_impl.cpp:677-700 senderLoop, health values *)
Definition health_source (cfg : ClientConfig) (s : Client) : HealthSource :=
  mkHealthSource (totalPcapRecv s) (totalPcapDrop s) (sendBufDrops s) kClientVersion kClientPlatform
    (AdaptiveInterval.intervalMs (aggInterval s)) (aggLastFlows s) (transport cfg) (useCompression cfg) (sendBufferBytes cfg)
    (auto_update cfg) (reconnectMaxAttempts cfg) (reconnectIntervalSec cfg) (aggTargetLinesPerSec cfg)
    (aggMinIntervalMs cfg) (aggMaxIntervalMs cfg) (aggMaxFlows cfg) (level_ (logger (ctrl s))).

(* client_impl.cpp:715-717 senderLoop, send or close *)
Definition send (k : Kind) (data : str) (s : Client) : Client :=
  match conn s with
  | None => s
  | Some c => let (c, ok) := deflateAndWrite k data c in let s := { s with conn := Some c } in if ok : bool then s else closeUnlocked s
  end.

(* client_impl.cpp:674-704 senderLoop, health *)
Definition health_stage (cfg : ClientConfig) (e : Env) (due : bool) (s : Client) : Client :=
  match conn s with
  | None => s
  | Some _ =>
      if due : bool then
        let s := { s with lastHealthReportSec := seconds (r_now e) } in
        send KHealth (kHealthLinePrefix ++ health_body (health_source cfg s) ++ [LF]) s
      else s
  end.

(* client_impl.cpp:706-713 senderLoop, session age *)
Definition age_stage (e : Env) (s : Client) : Client :=
  match conn s with
  | None => s
  | Some _ =>
      let elapsed := Z.max 0 (seconds (r_session e - sessionStart s)) in
      if kMaxSessionSeconds <=? elapsed then closeUnlocked s else s
  end.

(* client_impl.cpp:547-718 senderLoop, one round *)
Definition sender_round (cfg : ClientConfig) (e : Env) (s : Client) : Client :=
  if negb (runningSender s) then s
  else
    let '(taken, flushBuffer, s) := flush_stage cfg e s in
    let due := health_due e s in
    let idle := bool_decide (flushBuffer = []) && negb (r_netChanged e) && negb due in
    let (s, go) := connect_stage cfg e idle s in
    if negb go then s
    else
      let s := ctrl_stage e s in
      if idle : bool then s
      else
        let s := announce_stage e s in
        let s := health_stage cfg e due s in
        let s := age_stage e s in
        send (KFlows taken) flushBuffer s.

(** What happens to the client: a captured packet, counts of the capture
    device, a round. *)
Inductive Event := Packet (m : PacketMeta) | Stats (recv drop : Z) | Round (e : Env).

(* client_impl.cpp:161-165 addPcapStats *)
Definition addPcapStats (recv drop : Z) (s : Client) : Client :=
  { { s with totalPcapRecv := u64 (totalPcapRecv s + recv) } with totalPcapDrop := u64 (totalPcapDrop s + drop) }.

Definition client_event (cfg : ClientConfig) (s : Client) (ev : Event) : Client :=
  match ev with
  | Packet m => { s with flowTable := captured cfg [m] (flowTable s) }
  | Stats recv drop => addPcapStats recv drop s
  | Round e => sender_round cfg e s
  end.

Definition client_run (cfg : ClientConfig) (st : CtrlState) (evs : list Event) : Client :=
  foldl (client_event cfg) (client_init cfg st) evs.
End Sender.

(** ** Lemmas: what a step leaves alone *)

Section Accounts.
Context `{CRY : Crypto} `{SH : Sha256} `{B64 : EvpBase64} `{ED : Ed25519} `{DF : Deflater}.
Context (productionRoots : RootSet).

Definition is_flows (w : Sent) : bool := match s_kind w with KFlows _ => true | _ => false end.

Definition flow_writes (c : Conn) : list Sent := filter (fun w => is_flows w = true) (c_log c).

(** The flushes written in all sessions, in order. *)
Definition flow_log (s : Client) : list Sent := concat (flow_writes <$> past s ++ option_list (conn s)).

Definition other (k : Kind) : Prop := match k with KFlows _ => False | _ => True end.

Lemma deflate_log k data c :
  exists ws, c_log (deflateAndWrite k data c).1 = c_log c ++ ws /\
    (forall w, w ∈ ws -> s_kind w = k /\ s_plain w = data /\ data <> [] /\ s_ok w = (deflateAndWrite k data c).2 /\
       s_through w `prefix_of` data /\ (s_ok w = true -> s_through w = data)) /\
    (data <> [] -> length ws = 1%nat) /\ (data = [] -> (deflateAndWrite k data c).2 = true).
Proof.
  assert (Ht : through c data `prefix_of` data /\ (next_ok c 0 = true -> through c data = data)).
  { unfold through, next_ok. rewrite Nat.add_0_r. destruct (c_wr c _); [done | split; [apply prefix_take | done] | split; [apply prefix_nil | done]]. }
  unfold deflateAndWrite. destruct data as [| b data].
  - exists []. split_conj; [by rewrite app_nil_r | by intros w ?%not_elem_of_nil | done | done].
  - destruct (c_deflater c) as [d |]; [destruct (c_wr c _); [destruct (deflate d _) | destruct (deflate d _) |] |]; eexists [_]; cbn [c_log fst snd];
      (split_conj; [reflexivity | intros w ->%list_elem_of_singleton; cbn [s_kind s_plain s_ok s_through]; split_conj; try done; try apply Ht; apply prefix_nil | done | done]).
Qed.

Lemma deflate_other k data c : other k -> flow_writes (deflateAndWrite k data c).1 = flow_writes c.
Proof.
  intros Hk. destruct (deflate_log k data c) as (ws & E & Hws & _). unfold flow_writes. rewrite E, filter_app.
  replace (filter _ ws) with (@nil Sent); [apply app_nil_r |]. symmetry. apply elem_of_nil_inv.
  intros w [Hf [Ek _]%Hws]%list_elem_of_filter. revert Hf. unfold is_flows. rewrite Ek. by destruct k.
Qed.

Lemma write_lines_other k ls : other k -> forall c, flow_writes (write_lines k ls c).1 = flow_writes c.
Proof.
  intros Hk. induction ls as [| l ls IH]; intros c; cbn [write_lines]; [done |].
  pose proof (deflate_other k l c Hk) as H. destruct (deflateAndWrite k l c) as [c' []]; cbn [fst] in *; [by rewrite IH | done].
Qed.

Lemma write_ignoring_other k ls : other k -> forall c, flow_writes (write_ignoring k ls c) = flow_writes c.
Proof. intros Hk. unfold write_ignoring. induction ls as [| l ls IH]; intros c; cbn [foldl]; [done |]. by rewrite IH, deflate_other. Qed.

Lemma serve_other ls : forall e st c, flow_writes (serve productionRoots e ls st c).2 = flow_writes c.
Proof.
  induction ls as [| l ls IH]; intros e st c; cbn [serve]; [done |]. destruct (processCtrlLine _ _ _ _) as [st' rs].
  rewrite IH. by apply write_ignoring_other.
Qed.

(** A step outside the flow accounts. *)
Definition quiet (s s' : Client) : Prop := flowTable s' = flowTable s /\ flow_log s' = flow_log s /\ sendBufDrops s' = sendBufDrops s.

Lemma quiet_refl s : quiet s s.
Proof. done. Qed.

Lemma quiet_trans s1 s2 s3 : quiet s1 s2 -> quiet s2 s3 -> quiet s1 s3.
Proof. intros (E1 & E2 & E3) (F1 & F2 & F3). repeat split; by etrans. Qed.

Lemma close_quiet s : quiet s (closeUnlocked s).
Proof.
  unfold closeUnlocked, quiet, flow_log. destruct (conn s) as [c |] eqn:E; [| by rewrite E]. cbn. by rewrite app_nil_r.
Qed.

(** The connection changed, its flow writes did not. *)
Lemma conn_quiet s c c' : conn s = Some c -> flow_writes c' = flow_writes c -> quiet s (set_conn (Some c') s).
Proof.
  intros E H. unfold quiet, flow_log, set_conn. rewrite E. split; [done | split; [| done]]. cbn. rewrite !fmap_app, !concat_app. cbn. by rewrite H.
Qed.

Lemma send_announce_other lan ext t c : flow_writes (sendAnnounce lan ext t c).1.1 = flow_writes c.
Proof.
  unfold sendAnnounce. destruct lan as [| a lan]; [done |].
  pose proof (write_lines_other KAnnounce (x_text ext :: (a_text <$> a :: lan)) I c) as H.
  destruct (write_lines _ _ c) as [c' []]; exact H.
Qed.

Lemma announce_quiet lan ext t s : quiet s (announce lan ext t s).1.
Proof.
  unfold announce. destruct (conn s) as [c |] eqn:E; [| done]. pose proof (send_announce_other lan ext t c) as H.
  destruct (sendAnnounce lan ext t c) as [[c' o] ok]. exact (conn_quiet s c c' E H).
Qed.

Lemma new_conn_quiet s c : conn s = None -> c_log c = [] -> quiet s (set_conn (Some c) s).
Proof.
  intros E H. unfold quiet, flow_log, set_conn. rewrite E. split; [done | split; [| done]]. cbn. rewrite !fmap_app, !concat_app. cbn.
  unfold flow_writes at 2. by rewrite H, !app_nil_r.
Qed.

Lemma connect_quiet cfg e s : quiet s (connectUnlocked cfg e s).1.
Proof.
  unfold connectUnlocked. destruct (conn s) as [c |] eqn:E; [done |]. destruct (e_connects e); [| done]. cbn [negb].
  destruct (exec _ _) as [[caps | m] |]; [| done | done].
  match goal with |- context [mkConn ?t ?d ?w []] => pose proof (new_conn_quiet s (mkConn t d w []) E eq_refl) as Q end.
  unfold set_conn in Q. match type of Q with quiet _ ?s1 => pose proof (announce_quiet (e_lan e) (e_ext e) (seconds (e_announced e)) s1) as Q2; destruct (announce _ _ _ s1) as [s2 ok] end.
  cbn [fst] in Q2. eapply quiet_trans; [exact Q |]. eapply quiet_trans; [exact Q2 |]. destruct ok; [done |]. apply close_quiet.
Qed.

Lemma connect_stage_quiet cfg e idle s : quiet s (connect_stage cfg e idle s).1.
Proof.
  unfold connect_stage. destruct (conn s) as [c |]; [done |]. destruct idle; [done |]. destruct (_ && _); [done |].
  match goal with |- context [connectUnlocked cfg ?a ?s1] => pose proof (connect_quiet cfg a s1) as Q; destruct (connectUnlocked cfg a s1) as [s2 []] end;
    cbn [fst negb] in *; [exact Q |]. by destruct (_ <=? _).
Qed.

Lemma poll_other p b c : flow_writes (poll_lines p b c).1.1 = flow_writes c.
Proof. unfold poll_lines. destruct (c_transport c); [by destruct (tcp_poll p b) | by destruct (pollCtrlLines p t)]. Qed.

Lemma ctrl_stage_quiet e s : quiet s (ctrl_stage productionRoots e s).
Proof.
  unfold ctrl_stage. destruct (conn s) as [c |] eqn:E; [| done]. pose proof (poll_other (r_poll e) (ctrlInBuf s) c) as H.
  destruct (poll_lines _ _ c) as [[c' b] [ls |]]; cbn [fst] in H.
  - pose proof (serve_other ls (r_ctrl e) (ctrl s) c') as H2.
    match goal with |- context [serve _ _ _ ?st _] => change st with (ctrl s) end.
    destruct (serve _ _ _ _ _) as [st c2]. cbn [snd] in H2. rewrite H in H2. exact (conn_quiet s c c2 E H2).
  - eapply quiet_trans; [exact (conn_quiet s c c' E H) |]. eapply quiet_trans; [| apply close_quiet]. done.
Qed.

Lemma announce_stage_quiet e s : quiet s (announce_stage e s).
Proof.
  unfold announce_stage. destruct (conn s) as [c |]; [| done]. destruct (_ && _); [| done].
  match goal with |- context [announce ?a ?b ?t ?s1] => pose proof (announce_quiet a b t s1) as Q; destruct (announce a b t s1) as [s2 []] end;
    cbn [fst] in Q; [exact Q |]. eapply quiet_trans; [exact Q | apply close_quiet].
Qed.

Lemma send_quiet k data s : other k -> quiet s (send k data s).
Proof.
  intros Hk. unfold send. destruct (conn s) as [c |] eqn:E; [| done]. pose proof (deflate_other k data c Hk) as H.
  destruct (deflateAndWrite k data c) as [c' []]; cbn [fst] in H; [exact (conn_quiet s c c' E H) |].
  eapply quiet_trans; [exact (conn_quiet s c c' E H) | apply close_quiet].
Qed.

Lemma health_stage_quiet cfg e due s : quiet s (health_stage cfg e due s).
Proof. unfold health_stage. destruct (conn s); [| done]. destruct due; [| done]. eapply quiet_trans; [| by apply send_quiet]. done. Qed.

Lemma age_stage_quiet e s : quiet s (age_stage e s).
Proof. unfold age_stage. destruct (conn s); [| done]. destruct (_ <=? _); [apply close_quiet | done]. Qed.
End Accounts.

(** ** Lemmas: the text of a flush and what the server reads in it *)

(** The bytes a line adds to a flow on the server, under its default limits. *)
Definition line_bytes (k : AggFlowKey) (line : str) : Z :=
  match line with
  | "D"%char :: " "%char :: body =>
      match parseDataLine body 0 0 with
      | Some m => if decide (key_of m = k) then pm_bytes m else 0
      | None => 0
      end
  | _ => 0
  end.

Definition total (l : list Z) : Z := foldr Z.add 0 l.

Definition server_bytes (k : AggFlowKey) (text : str) : Z := total (line_bytes k <$> (split_lines text).1).

Definition flush_text (t : FlowTable) : str := concat (encode_flow <$> map_to_list t).

Definition held (k : AggFlowKey) (t : FlowTable) : Z := default 0 (t !! k).

Definition table_ok (t : FlowTable) : Prop := forall k v, t !! k = Some v -> key_printable k /\ 0 <= v < 2 ^ 64.

Lemma total_app l1 l2 : total (l1 ++ l2) = total l1 + total l2.
Proof. unfold total. induction l1 as [| x l IH]; cbn [foldr app]; lia. Qed.

#[export] Instance total_perm : Proper ((≡ₚ) ==> eq) total.
Proof. intros l1 l2 H. unfold total. induction H; cbn [foldr]; lia. Qed.

Lemma label_no_lf n s : printable n s -> LF ∉ s.
Proof.
  intros ([_ H] & _ & _) Hin. rewrite Forall_forall in H. apply H in Hin. discriminate Hin.
Qed.

Lemma flow_line_no_lf kv : key_printable kv.1 -> LF ∉ flow_line kv.
Proof.
  intros Hk. rewrite flow_line_printable by done. destruct Hk as (Hi & Hs & Hd). apply label_no_lf in Hi, Hs, Hd.
  unfold data_line, meta_of. cbn [pm_iface pm_srcIp pm_dstIp pm_bytes]. rewrite !not_elem_of_app. split_conj; try done.
  all: try (by apply (bool_decide_unpack _); vm_compute).
  intros Hin. pose proof (to_string_digits kv.2) as H. rewrite Forall_forall in H. by apply H in Hin.
Qed.

Lemma server_bytes_cons k kv text :
  key_printable kv.1 -> 0 <= kv.2 < 2 ^ 64 ->
  server_bytes k (encode_flow kv ++ text) = (if decide (kv.1 = k) then if UINT32_MAX <? kv.2 then 0 else kv.2 else 0) + server_bytes k text.
Proof.
  intros Hk Hv. rewrite encode_flow_eq by done. unfold server_bytes.
  assert (E : (("D " : str) ++ flow_line kv ++ [LF]) ++ text = ("D"%char :: " "%char :: flow_line kv) ++ LF :: text) by (change (("D " : str)) with (["D"%char; " "%char]); cbn [app]; by rewrite <- app_assoc).
  rewrite E, split_lines_line.
  - destruct (split_lines text) as [ls r]. cbn [fst fmap list_fmap total foldr line_bytes]. rewrite flow_line_parsed by done.
    destruct (UINT32_MAX <? kv.2); cbn; [by destruct (decide _) |]. unfold key_of, meta_of. cbn. by destruct kv as [[] ?].
  - rewrite !not_elem_of_cons. split_conj; [done | done | by apply flow_line_no_lf].
Qed.

(** The server reads a flush back flow by flow, except for flows beyond 32 bits. *)
Lemma server_bytes_flush k t : table_ok t -> server_bytes k (flush_text t) = if UINT32_MAX <? held k t then 0 else held k t.
Proof.
  intros Ht. unfold flush_text, held in *.
  assert (G : forall l, (forall kv, kv ∈ l -> key_printable kv.1 /\ 0 <= kv.2 < 2 ^ 64) ->
    server_bytes k (concat (encode_flow <$> l)) = total ((fun kv => if decide (kv.1 = k) then if UINT32_MAX <? kv.2 then 0 else kv.2 else 0) <$> l)).
  { induction l as [| kv l IH]; intros Hl; [done |]. rewrite !fmap_cons. cbn [concat]. destruct (Hl kv) as [H1 H2]; [by left |].
    rewrite server_bytes_cons by done. rewrite IH; [done |]. intros x Hx. apply Hl. by right. }
  rewrite G by (intros [k' v] Hin%elem_of_map_to_list; by apply Ht). clear G.
  assert (Z0 : forall m : FlowTable, m !! k = None ->
    total ((fun kv => if decide (kv.1 = k) then if UINT32_MAX <? kv.2 then 0 else kv.2 else 0) <$> map_to_list m) = 0).
  { intros m Hm. assert (H : forall kv, kv ∈ map_to_list m -> kv.1 <> k) by (intros [k' v] Hin%elem_of_map_to_list; cbn; congruence).
    induction (map_to_list m) as [| kv l IH]; [done |]. cbn. rewrite decide_False by (apply H; by left). rewrite Z.add_0_l. apply IH.
    intros x Hx. apply H. by right. }
  destruct (t !! k) as [v |] eqn:E; cbn [default]; [| by apply Z0].
  rewrite <- (map_to_list_delete t k v E), fmap_cons. cbn [total foldr fst snd]. rewrite decide_True by done.
  pose proof (Z0 (delete k t) (lookup_delete_eq t k)) as H. unfold total, id in *. lia.
Qed.

Lemma line_bytes_nonneg k l : 0 <= line_bytes k l.
Proof.
  unfold line_bytes. repeat case_match_goal; try lia.
  match goal with H : parseDataLine _ _ _ = Some _ |- _ => apply parseDataLine_bounds in H; lia end.
Qed.

(** A part of a text holds no more than the whole. *)
Lemma server_bytes_prefix k a text : a `prefix_of` text -> 0 <= server_bytes k a <= server_bytes k text.
Proof.
  assert (Hn : forall ls, 0 <= total (line_bytes k <$> ls)).
  { induction ls as [| l ls IH]; [done |]. rewrite fmap_cons. cbn [total foldr]. fold (total (line_bytes k <$> ls)).
    pose proof (line_bytes_nonneg k l). lia. }
  intros [b ->]. unfold server_bytes. rewrite split_lines_app. destruct (split_lines a) as [la ra], (split_lines (ra ++ b)) as [lb rb].
  cbn [fst]. rewrite fmap_app, total_app. pose proof (Hn la). pose proof (Hn lb). lia.
Qed.

(** ** Lemmas: the accounts of a round *)

Lemma flow_bytes_cons k m ps : flow_bytes k (m :: ps) = (if decide (key_of m = k) then pm_bytes m else 0) + flow_bytes k ps.
Proof. unfold flow_bytes. rewrite filter_cons. by destruct (decide (key_of m = k)). Qed.

Lemma flow_bytes_app k ps qs : flow_bytes k (ps ++ qs) = flow_bytes k ps + flow_bytes k qs.
Proof. induction ps as [| m ps IH]; [done |]. cbn [app]. rewrite !flow_bytes_cons, IH. lia. Qed.

Lemma flow_bytes_nonneg k ps : (forall m, m ∈ ps -> 0 <= pm_bytes m) -> 0 <= flow_bytes k ps.
Proof.
  induction ps as [| m ps IH]; intros H; [done |]. rewrite flow_bytes_cons.
  assert (0 <= pm_bytes m) by (apply H; by left). assert (0 <= flow_bytes k ps) by (apply IH; intros x Hx; apply H; by right).
  destruct (decide _); lia.
Qed.

Lemma captured_held cfg k ps : forall t,
  (forall m, m ∈ ps -> 0 <= pm_bytes m) -> 0 <= held k t -> held k t + flow_bytes k ps < 2 ^ 64 ->
  held k (captured cfg ps t) = held k t + flow_bytes k ps.
Proof.
  induction ps as [| m ps IH]; intros t Hm Ht Hb; [cbn; lia |]. rewrite flow_bytes_cons in *.
  assert (Hm0 : 0 <= pm_bytes m) by (apply Hm; by left).
  assert (Hps : forall x, x ∈ ps -> 0 <= pm_bytes x) by (intros x Hx; apply Hm; by right).
  pose proof (flow_bytes_nonneg k ps Hps) as Hn. change (captured cfg (m :: ps) t) with (captured cfg ps (accumulateFlow (aggMaxFlows cfg) t m).1).
  assert (E : held k (accumulateFlow (aggMaxFlows cfg) t m).1 = held k t + (if decide (key_of m = k) then pm_bytes m else 0)).
  { unfold held in *. cbn. destruct (decide (key_of m = k)) as [-> | Hk]; [rewrite lookup_insert_eq | rewrite lookup_insert_ne by done; lia].
    cbn. apply u64_small. lia. }
  rewrite IH; rewrite ?E; [lia | done | destruct (decide _); lia | lia].
Qed.

Lemma captured_ok cfg ps : forall t,
  table_ok t -> (forall m, m ∈ ps -> key_printable (key_of m)) -> table_ok (captured cfg ps t).
Proof.
  induction ps as [| m ps IH]; intros t Ht Hm; [done |]. apply (IH (accumulateFlow (aggMaxFlows cfg) t m).1); [| intros x Hx; apply Hm; by right].
  intros k v. cbn. destruct (decide (key_of m = k)) as [<- | Hk].
  - rewrite lookup_insert_eq. intros [= <-]. split; [apply Hm; by left | apply u64_range].
  - rewrite lookup_insert_ne by done. apply Ht.
Qed.

Lemma flush_text_nonempty t : table_ok t -> flush_text t = [] -> t = ∅.
Proof.
  intros Ht E. unfold flush_text in E. destruct (map_to_list t) as [| kv l] eqn:El; [by apply map_to_list_empty_iff |].
  assert (Hin : kv ∈ map_to_list t) by (rewrite El; by left). destruct kv as [k v]. apply elem_of_map_to_list, Ht in Hin as [_ Hv].
  rewrite fmap_cons in E. cbn [concat] in E. apply app_eq_nil in E as [E _]. by rewrite encode_flow_eq in E by done.
Qed.

Lemma held_nonneg k t : table_ok t -> 0 <= held k t.
Proof. intros Ht. unfold held. destruct (t !! k) as [v |] eqn:E; cbn; [by apply Ht in E as [_ ?]; lia | done]. Qed.

Section Rounds.
Context `{CRY : Crypto} `{SH : Sha256} `{B64 : EvpBase64} `{ED : Ed25519} `{DF : Deflater}.
Context (productionRoots : RootSet).

(** What a round may add to the flushes written. *)
Definition flushed (t : FlowTable) (s s' : Client) : Prop :=
  exists w, flow_log s' = flow_log s ++ [w] /\ s_kind w = KFlows t /\ s_plain w = flush_text t /\ s_through w `prefix_of` flush_text t /\
    (s_ok w = true -> s_through w = flush_text t) /\ (is_Some (conn s') -> s_ok w = true).

Lemma send_flows t s :
  flush_text t <> [] -> (conn s = None /\ send (KFlows t) (flush_text t) s = s) \/ flushed t s (send (KFlows t) (flush_text t) s).
Proof.
  intros Hne. unfold send. destruct (conn s) as [c |] eqn:E; [right | by left].
  destruct (deflate_log (KFlows t) (flush_text t) c) as (ws & El & Hws & Hl & _). specialize (Hl Hne).
  destruct ws as [| w [| ? ?]]; try discriminate Hl. destruct (Hws w) as (Hk & Hp & _ & Ho & Ht & Hto); [by left |].
  destruct (deflateAndWrite _ _ c) as [c' ok]. cbn [fst snd] in *. exists w.
  assert (L : flow_log (set_conn (Some c') s) = flow_log s ++ [w]).
  { unfold flow_log, set_conn. cbn. rewrite E, !fmap_app, !concat_app. cbn. unfold flow_writes at 2 4. rewrite El, filter_app, !app_nil_r, filter_cons, filter_nil.
    rewrite decide_True by (unfold is_flows; by rewrite Hk). by rewrite app_assoc. }
  destruct ok.
  - split_conj; [exact L | done ..].
  - destruct (close_quiet (set_conn (Some c') s)) as (_ & Q & _). split_conj; [rewrite <- L; exact Q | done | done | done | done |].
    intros [? H]. discriminate H.
Qed.

Lemma send_round taken s s1 s6 :
  table_ok taken -> flowTable s6 = flowTable s1 -> flow_log s6 = flow_log s1 -> sendBufDrops s6 = sendBufDrops s1 ->
  flowTable s1 = ∅ -> flow_log s1 = flow_log s -> sendBufDrops s1 = sendBufDrops s ->
  let s' := send (KFlows taken) (flush_text taken) s6 in
  flowTable s' = ∅ /\ sendBufDrops s' = sendBufDrops s /\
  ((flow_log s' = flow_log s /\ (is_Some (conn s') -> taken = ∅)) \/ flushed taken s s').
Proof.
  intros Ht T L D T1 L1 D1 s'.
  assert (K : flowTable s' = flowTable s6 /\ sendBufDrops s' = sendBufDrops s6).
  { subst s'. unfold send. destruct (conn s6) as [c |]; [| done]. destruct (deflateAndWrite _ _ c) as [c' []]; done. }
  destruct K as [K1 K2]. split_conj; [congruence .. |]. subst s'.
  destruct (decide (flush_text taken = [])) as [E | E].
  - left. split; [| intros _; by apply flush_text_nonempty]. rewrite E. unfold send. destruct (conn s6) as [c |] eqn:Ec; [| congruence].
    cbn [deflateAndWrite]. rewrite <- L1, <- L. exact (proj1 (proj2 (conn_quiet s6 c c Ec eq_refl))).
  - destruct (send_flows taken s6 E) as [[E1 E2] | (w & Hw & ?)].
    + left. rewrite E2. split; [congruence |]. intros [c Hc]. congruence.
    + right. exists w. split; [by rewrite Hw, L, L1 | done].
Qed.

Lemma connect_down cfg e s : (connectUnlocked cfg e s).2 = false -> conn (connectUnlocked cfg e s).1 = None.
Proof.
  unfold connectUnlocked. destruct (conn s) as [c |] eqn:E; [done |]. destruct (e_connects e); [| done]. cbn [negb].
  destruct (exec _ _) as [[caps | m] |]; [| done | done]. destruct (announce _ _ _ _) as [s2 []]; [done |]. intros _. cbn.
  unfold closeUnlocked. by destruct (conn s2) eqn:E2.
Qed.

Lemma connect_stage_down cfg e idle s : (connect_stage cfg e idle s).2 = false -> conn (connect_stage cfg e idle s).1 = None.
Proof.
  unfold connect_stage. destruct (conn s) as [c |] eqn:E; [done |]. destruct idle; [done |]. destruct (_ && _); [done |].
  match goal with |- context [connectUnlocked cfg ?a ?s1] => pose proof (connect_down cfg a s1) as H; destruct (connectUnlocked cfg a s1) as [s2 []] end;
    cbn [negb fst snd] in *; [done |]. intros _. specialize (H eq_refl). by destruct (_ <=? _).
Qed.

(** A round is a flush, steps outside the accounts, and at most one flush written. *)
Lemma round_shape cfg e s : runningSender s = true ->
  let taken := captured cfg (r_late e) (flowTable s) in
  exists s1 s6, flowTable s1 = ∅ /\ flow_log s1 = flow_log s /\ sendBufDrops s1 = sendBufDrops s /\ quiet s1 s6 /\
    let s' := sender_round productionRoots cfg e s in
    (s' = s6 /\ (flush_text taken = [] \/ conn s6 = None)) \/ s' = send (KFlows taken) (flush_text taken) s6.
Proof.
  intros Hr taken. unfold sender_round. rewrite Hr. cbn [negb]. unfold flush_stage, drain. fold taken. cbv zeta.
  fold (flush_text taken). set (s1 := if _ : bool then _ else _). exists s1.
  assert (H1 : flowTable s1 = ∅ /\ flow_log s1 = flow_log s /\ sendBufDrops s1 = sendBufDrops s) by (subst s1; by destruct (_ <=? _)).
  clearbody s1. destruct H1 as (T1 & L1 & D1). set (idle := _ && _ && _).
  assert (Hi : idle = true -> flush_text taken = []) by (subst idle; intros [[H _]%andb_true_iff _]%andb_true_iff; by bool_to_prop).
  clearbody idle. pose proof (connect_stage_quiet cfg e idle s1) as Q1. pose proof (connect_stage_down cfg e idle s1) as Hd.
  destruct (connect_stage cfg e idle s1) as [s2 go]. cbn [fst snd] in Q1, Hd.
  destruct go; cbn [negb]; [| exists s2; split_conj; try done; left; split; [done | right; by apply Hd]].
  pose proof (quiet_trans _ _ _ Q1 (ctrl_stage_quiet productionRoots e s2)) as Q2. generalize dependent (ctrl_stage productionRoots e s2). intros s3 Q2.
  destruct idle; [exists s3; split_conj; try done; left; split; [done | left; by apply Hi] |].
  eexists. split; [exact T1 |]. split; [exact L1 |]. split; [exact D1 |]. split; [| right; reflexivity].
  eapply quiet_trans; [exact Q2 |]. eapply quiet_trans; [apply announce_stage_quiet |]. eapply quiet_trans; [apply health_stage_quiet | apply age_stage_quiet].
Qed.

Lemma send_drops k data s : sendBufDrops (send k data s) = sendBufDrops s.
Proof. unfold send. destruct (conn s) as [c |]; [| done]. destruct (deflateAndWrite _ _ c) as [c' []]; done. Qed.

Lemma round_drops cfg e s : sendBufDrops (sender_round productionRoots cfg e s) = sendBufDrops s.
Proof.
  destruct (runningSender s) eqn:Hr; [| unfold sender_round; by rewrite Hr].
  destruct (round_shape cfg e s Hr) as (s1 & s6 & _ & _ & D1 & (_ & _ & D6) & [[-> _] | ->]); rewrite ?send_drops; congruence.
Qed.

Lemma round_accounts cfg e s :
  runningSender s = true -> let taken := captured cfg (r_late e) (flowTable s) in table_ok taken ->
  let s' := sender_round productionRoots cfg e s in
  flowTable s' = ∅ /\ ((flow_log s' = flow_log s /\ (is_Some (conn s') -> taken = ∅)) \/ flushed taken s s').
Proof.
  intros Hr taken Ht s'. destruct (round_shape cfg e s Hr) as (s1 & s6 & T1 & L1 & D1 & (T6 & L6 & D6) & S). fold taken s' in S.
  destruct S as [[-> Hi] | ->]; [| by destruct (send_round taken s s1 s6) as (? & _ & ?)].
  split; [congruence |]. left. split; [congruence |]. intros [c Hc]. destruct Hi as [Hi | Hi]; [by apply flush_text_nonempty | congruence].
Qed.

(** ** The accounts of a run *)

Definition event_packets (ev : Event) : list PacketMeta :=
  match ev with Packet m => [m] | Stats _ _ => [] | Round e => r_late e end.

Definition all_packets (evs : list Event) : list PacketMeta := concat (event_packets <$> evs).

(** What the server's parser finds of a flow in what gets through of the
    flushes, each read on its own. *)
Definition received (k : AggFlowKey) (s : Client) : Z :=
  total ((fun w => server_bytes k (s_through w)) <$> flow_log s).

Definition alive (s : Client) : Prop := is_Some (conn s) /\ runningSender s = true.

(** The client is connected and running after every round. *)
Definition steady (cfg : ClientConfig) (st : CtrlState) (evs : list Event) : Prop :=
  forall evs1 e evs2, evs = evs1 ++ Round e :: evs2 -> alive (client_run productionRoots cfg st (evs1 ++ [Round e])).

Lemma client_run_snoc cfg st evs ev :
  client_run productionRoots cfg st (evs ++ [ev]) = client_event productionRoots cfg (client_run productionRoots cfg st evs) ev.
Proof. unfold client_run. by rewrite foldl_app. Qed.

Lemma all_packets_snoc evs ev : all_packets (evs ++ [ev]) = all_packets evs ++ event_packets ev.
Proof. unfold all_packets. rewrite fmap_app, concat_app. cbn. by rewrite app_nil_r. Qed.

(** Every flush held at most what a line of the server's parser can say of the flow. *)
Definition lines_fit (k : AggFlowKey) (s : Client) : Prop :=
  Forall (fun w => match s_kind w with KFlows t => held k t <= UINT32_MAX | _ => True end) (flow_log s).

Lemma received_flushed k t s s' : flushed t s s' -> table_ok t ->
  received k s <= received k s' <= received k s + held k t /\
  (is_Some (conn s') -> lines_fit k s' -> received k s' = received k s + held k t /\ lines_fit k s).
Proof.
  intros (w & Hl & Hk & Hp & Ht & Hto & Ho) Hok. unfold received, lines_fit. rewrite Hl, fmap_app, total_app. cbn [fmap list_fmap total foldr].
  pose proof (server_bytes_prefix k _ _ Ht) as Hb. rewrite server_bytes_flush in Hb by done. pose proof (held_nonneg k _ Hok) as Hn.
  split; [destruct (UINT32_MAX <? held k t); lia |]. intros Hc [Hf1 Hf2]%Forall_app. split; [| exact Hf1].
  apply List.Forall_inv in Hf2. rewrite Hk in Hf2. rewrite Hto, server_bytes_flush by auto. rewrite (proj2 (Z.ltb_ge _ _)) by done. lia.
Qed.

(** The accounts of flow [k]: nothing is read twice, and nothing is missing
    while the client is steady and the lines fit. *)
Definition accounts (steady : Prop) (k : AggFlowKey) (s : Client) (ps : list PacketMeta) : Prop :=
  table_ok (flowTable s) /\ 0 <= received k s /\
  received k s + held k (flowTable s) <= flow_bytes k ps /\
  (steady -> lines_fit k s -> received k s + held k (flowTable s) = flow_bytes k ps).

Lemma accounts_round cfg (P Q : Prop) k s ps e :
  (Q -> P /\ alive (sender_round productionRoots cfg e s)) ->
  (forall m, m ∈ r_late e -> key_printable (key_of m) /\ 0 <= pm_bytes m) ->
  flow_bytes k (ps ++ r_late e) < 2 ^ 64 ->
  accounts P k s ps -> accounts Q k (sender_round productionRoots cfg e s) (ps ++ r_late e).
Proof.
  intros HQ Hm Hk (Ht & H0 & Hle & Heq). unfold accounts. rewrite flow_bytes_app in *.
  pose proof (flow_bytes_nonneg k (r_late e) (fun m Hin => proj2 (Hm m Hin))) as Hn. pose proof (held_nonneg k _ Ht) as Hh.
  destruct (runningSender s) eqn:Hr.
  2:{ assert (E : sender_round productionRoots cfg e s = s) by (unfold sender_round; by rewrite Hr). rewrite E in *.
      split_conj; [done | done | lia |]. intros [_ [_ H]]%HQ. congruence. }
  set (taken := captured cfg (r_late e) (flowTable s)).
  assert (Hok : table_ok taken) by (apply captured_ok; [done | intros m Hin; by apply Hm]).
  assert (Hheld : held k taken = held k (flowTable s) + flow_bytes k (r_late e)).
  { apply captured_held; [intros m Hin; by apply Hm | done | lia]. }
  destruct (round_accounts cfg e s Hr Hok) as (T & C). rewrite T. fold taken in C.
  change (held k ∅) with 0. assert (E0 : table_ok ∅) by (intros ? ? H; discriminate H).
  destruct C as [[L Hc] | F].
  - assert (R : received k (sender_round productionRoots cfg e s) = received k s) by (unfold received; by rewrite L).
    rewrite R. split_conj; [done | done | lia |]. intros [HP [Ha _]]%HQ Hf. unfold lines_fit in Hf. rewrite L in Hf.
    specialize (Heq HP Hf). apply Hc in Ha. rewrite Ha in Hheld. change (held k ∅) with 0 in Hheld. lia.
  - destruct (received_flushed k taken s _ F Hok) as [R Hd]. split_conj; [done | lia | lia |].
    intros [HP [Ha _]]%HQ Hf. destruct (Hd Ha Hf) as [-> Hf0]. specialize (Heq HP Hf0). lia.
Qed.

Lemma accounts_weaken (P Q : Prop) k s ps : (Q -> P) -> accounts P k s ps -> accounts Q k s ps.
Proof. intros H (? & ? & ? & E). unfold accounts. split_conj; [done .. |]. intros ?. by apply E, H. Qed.

Lemma accounts_packet cfg P k m s ps :
  flow_bytes k (ps ++ [m]) < 2 ^ 64 -> key_printable (key_of m) /\ 0 <= pm_bytes m -> 0 <= flow_bytes k [m] ->
  accounts P k s ps -> accounts P k { s with flowTable := captured cfg [m] (flowTable s) } (ps ++ [m]).
Proof.
  intros Hk [Hp Hb] Hn (Ht & H0 & Hle & Heq). rewrite flow_bytes_app in *.
  assert (Hh : held k (captured cfg [m] (flowTable s)) = held k (flowTable s) + flow_bytes k [m]).
  { apply captured_held; [by intros ? ->%list_elem_of_singleton | by apply held_nonneg |]. lia. }
  unfold accounts. split; [apply captured_ok; [done |]; by intros ? ->%list_elem_of_singleton |]. rewrite flow_bytes_app.
  change (received k { s with flowTable := captured cfg [m] (flowTable s) }) with (received k s).
  change (flowTable { s with flowTable := captured cfg [m] (flowTable s) }) with (captured cfg [m] (flowTable s)).
  rewrite Hh. split_conj; [done | lia |]. intros H Hf. specialize (Heq H Hf). lia.
Qed.

Lemma accounts_run cfg st k evs :
  (forall m, m ∈ all_packets evs -> key_printable (key_of m) /\ 0 <= pm_bytes m) ->
  flow_bytes k (all_packets evs) < 2 ^ 64 ->
  accounts (steady cfg st evs) k (client_run productionRoots cfg st evs) (all_packets evs).
Proof.
  induction evs as [| ev evs IH] using rev_ind; intros Hm Hk.
  - split; [intros ? ? H; discriminate H | done].
  - rewrite all_packets_snoc in *. rewrite client_run_snoc.
    assert (Hs : steady cfg st (evs ++ [ev]) -> steady cfg st evs).
    { intros H e1 e e2 ->. apply (H e1 e (e2 ++ [ev])). by rewrite <- app_assoc. }
    pose proof (flow_bytes_nonneg k (event_packets ev) (fun m Hin => proj2 (Hm m (proj2 (elem_of_app _ _ _) (or_intror Hin))))) as Hn.
    assert (A : accounts (steady cfg st evs) k (client_run productionRoots cfg st evs) (all_packets evs)).
    { apply IH; [intros m Hin; apply Hm; apply elem_of_app; by left |]. rewrite flow_bytes_app in Hk. lia. }
    destruct ev as [m | r d | e]; cbn [client_event event_packets] in *.
    + apply (accounts_weaken _ _ k _ _ Hs). apply accounts_packet; [done | | done | done]. apply Hm, elem_of_app. right. by left.
    + rewrite app_nil_r. by apply (accounts_weaken _ _ k _ _ Hs).
    + apply (accounts_round cfg (steady cfg st evs)); [| | done | done].
      * intros H. split; [by apply Hs |]. pose proof (H evs e [] eq_refl) as Ha. by rewrite client_run_snoc in Ha.
      * intros m Hin. apply Hm, elem_of_app. by right.
Qed.

End Rounds.

(** ** Lemmas: attempts to connect *)

Section Attempts.
Context `{CRY : Crypto} `{SH : Sha256} `{B64 : EvpBase64} `{ED : Ed25519} `{DF : Deflater}.
Context (productionRoots : RootSet) (cfg : ClientConfig).

(** The connection after the authentication, if it gets that far. *)
Definition authenticated (a : Attempt) : option Conn :=
  if negb (e_connects a) then None
  else match exec (performClientAuth (ClientConf.identityPath cfg) (e_identity a) (useCompression cfg)) (e_answers a) with
       | Some (Ok caps) =>
           let zlib := negb (Z.land (default kCapNone caps) kCapZlib =? 0) in
           Some (mkConn (match transport cfg with WebSocket => Ws transport_init | TcpTls => Tcp end) (if zlib then Some deflateInit else None) (e_wr a) [])
       | _ => None
       end.

(** Whether an attempt ends in a session. *)
Definition succeeds (a : Attempt) : bool :=
  match authenticated a with Some c => (sendAnnounce (e_lan a) (e_ext a) 0 c).2 | None => false end.

Lemma send_announce_time lan ext t t' (c : Conn) : (sendAnnounce lan ext t c).2 = (sendAnnounce lan ext t' c).2.
Proof. unfold sendAnnounce. destruct lan; [done |]. by destruct (write_lines _ _ c). Qed.

Lemma connect_outcome a s : conn s = None -> (connectUnlocked cfg a s).2 = succeeds a.
Proof.
  intros E. unfold connectUnlocked, succeeds, authenticated. rewrite E. destruct (e_connects a); [| done]. cbn [negb].
  destruct (exec _ _) as [[caps | m] |]; [| done | done]. unfold announce. cbn.
  rewrite (send_announce_time _ _ 0 (seconds (e_announced a))). destruct (sendAnnounce _ _ _ _) as [[c o] ok]. cbn. by destruct ok.
Qed.

(** The parts that only [connect_stage] changes. *)
Definition same_link (s s' : Client) : Prop :=
  reconnectFailures s' = reconnectFailures s /\ lastReconnectAttempt s' = lastReconnectAttempt s /\
  runningSender s' = runningSender s /\ g_running s' = g_running s /\ lastHealthReportSec s' = lastHealthReportSec s.

Lemma close_link s : same_link s (closeUnlocked s).
Proof. unfold closeUnlocked. by destruct (conn s). Qed.

Lemma announce_link lan ext t s : same_link s (announce lan ext t s).1.
Proof. unfold announce. destruct (conn s); [| done]. by destruct (sendAnnounce _ _ _ _) as [[? ?] ?]. Qed.

Lemma connect_link a s : same_link s (connectUnlocked cfg a s).1.
Proof.
  unfold connectUnlocked. destruct (conn s); [done |]. destruct (e_connects a); [| done]. cbn [negb].
  destruct (exec _ _) as [[caps | m] |]; [| done | done].
  match goal with |- context [announce ?x ?y ?z ?s1] => pose proof (announce_link x y z s1) as (A & B & C & D & E); destruct (announce x y z s1) as [s2 []] end;
    cbn in *; [done |]. destruct (close_link s2) as (A' & B' & C' & D' & E'). unfold same_link. rewrite A', B', C', D', E'. done.
Qed.

Lemma flush_link e s : same_link s (flush_stage cfg e s).2 /\ conn (flush_stage cfg e s).2 = conn s.
Proof. unfold flush_stage. cbn. by destruct (_ <=? _). Qed.

(** A round while the server is out of reach. *)
Definition due (e : Env) (s : Client) : Prop := health_due e s = true.

Definition waited (e : Env) (s : Client) : Prop :=
  reconnectFailures s = 0 \/ reconnectIntervalSec cfg <= seconds (r_reconnect e - lastReconnectAttempt s).

Lemma down_round e s :
  runningSender s = true -> conn s = None -> due e s -> waited e s -> succeeds (r_attempt e) = false ->
  let s' := sender_round productionRoots cfg e s in
  let n := u32 (reconnectFailures s + 1) in
  conn s' = None /\ reconnectFailures s' = n /\ lastReconnectAttempt s' = r_reconnect e /\ lastHealthReportSec s' = lastHealthReportSec s /\
  runningSender s' = negb (reconnectMaxAttempts cfg <=? n) /\ (g_running s' = if reconnectMaxAttempts cfg <=? n then false else g_running s).
Proof.
  intros Hr Hc Hd Hw Hf. cbv zeta. unfold sender_round. rewrite Hr. cbn [negb].
  pose proof (flush_link e s) as F. destruct (flush_stage cfg e s) as [[taken text] s1]. cbn [snd] in F.
  destruct F as ((A & B & C & D & H) & Ec).
  assert (Hd1 : health_due e s1 = true) by (unfold health_due; rewrite H; exact Hd). rewrite Hd1. cbn [negb]. rewrite andb_false_r.
  assert (W : (0 <? reconnectFailures s1) && (seconds (r_reconnect e - lastReconnectAttempt s1) <? reconnectIntervalSec cfg) = false).
  { rewrite A, B. destruct Hw as [-> | Hw]; [done |]. rewrite (proj2 (Z.ltb_ge _ (reconnectIntervalSec cfg))) by exact Hw. apply andb_false_r. }
  unfold connect_stage. rewrite Ec, Hc, W.
  match goal with |- context [connectUnlocked cfg ?a ?s2] => pose proof (connect_outcome a s2) as O; pose proof (connect_down cfg a s2) as N;
    pose proof (connect_link a s2) as L; destruct (connectUnlocked cfg a s2) as [s3 ok] end.
  cbn [fst snd] in *. rewrite Hf in O. assert (ok = false) as -> by (apply O; transitivity (conn s1); [reflexivity | congruence]).
  cbn [negb]. destruct L as (A3 & B3 & C3 & D3 & H3). specialize (N eq_refl). cbv zeta.
  match goal with |- context [if reconnectMaxAttempts cfg <=? ?x then (_, false) else _] => change x with (u32 (reconnectFailures s3 + 1)) end.
  assert (A4 : reconnectFailures s3 = reconnectFailures s) by (etrans; [exact A3 | exact A]).
  assert (B4 : lastReconnectAttempt s3 = r_reconnect e) by exact B3.
  assert (C4 : runningSender s3 = true) by (etrans; [exact C3 |]; etrans; [exact C | exact Hr]).
  assert (D4 : g_running s3 = g_running s) by (etrans; [exact D3 | exact D]).
  assert (H4 : lastHealthReportSec s3 = lastHealthReportSec s) by (etrans; [exact H3 | exact H]).
  rewrite <- A4. destruct (reconnectMaxAttempts cfg <=? u32 (reconnectFailures s3 + 1)); split_conj; try done; by rewrite ?A4.
Qed.

(** A round before the interval has passed does not try. *)
Definition too_early (e : Env) (s : Client) : Prop := seconds (r_reconnect e - lastReconnectAttempt s) < reconnectIntervalSec cfg.

Lemma early_round e s :
  conn s = None -> 0 < reconnectFailures s -> too_early e s ->
  let s' := sender_round productionRoots cfg e s in same_link s s' /\ conn s' = None.
Proof.
  intros Hc Hf He. cbv zeta. unfold sender_round. destruct (runningSender s); [| done]. cbn [negb].
  pose proof (flush_link e s) as F. destruct (flush_stage cfg e s) as [[taken text] s1]. cbn [snd] in F. destruct F as (F & Ec).
  assert (W : forall idle, connect_stage cfg e idle s1 = (s1, false)).
  { intros idle. unfold connect_stage. rewrite Ec, Hc. destruct idle; [done |]. destruct F as (A & B & _).
    by rewrite A, B, (proj2 (Z.ltb_lt _ _) Hf), (proj2 (Z.ltb_lt _ _) He). }
  rewrite W. cbn [negb]. split; [exact F | congruence].
Qed.

(** Writes that succeed. *)
Definition good (c : Conn) : Prop := forall i, c_wr c i = Wrote.

Lemma deflate_good k data c : good c -> good (deflateAndWrite k data c).1 /\ (deflateAndWrite k data c).2 = true.
Proof.
  intros H. unfold deflateAndWrite, next_ok. destruct data; [done |]. rewrite !H. destruct (c_deflater c); [| by rewrite ?H].
  by destruct (deflate d _).
Qed.

Lemma write_lines_good k ls : forall c, good c -> good (write_lines k ls c).1 /\ (write_lines k ls c).2 = true.
Proof.
  induction ls as [| l ls IH]; intros c H; cbn [write_lines]; [done |]. destruct (deflate_good k l c H) as [H1 H2].
  destruct (deflateAndWrite k l c) as [c' ok]. cbn [fst snd] in *. subst ok. by apply IH.
Qed.

Lemma write_ignoring_good k ls : forall c, good c -> good (write_ignoring k ls c).
Proof. unfold write_ignoring. induction ls as [| l ls IH]; intros c H; cbn [foldl]; [done |]. apply IH. by apply deflate_good. Qed.

Lemma serve_good ls : forall e st c, good c -> good (serve productionRoots e ls st c).2.
Proof.
  induction ls as [| l ls IH]; intros e st c H; cbn [serve]; [done |]. destruct (processCtrlLine _ _ _ _) as [st' rs].
  by apply IH, write_ignoring_good.
Qed.

Lemma poll_good p b c : p <> Broken -> good c -> good (poll_lines p b c).1.1 /\ is_Some (poll_lines p b c).2.
Proof.
  intros Hp H. unfold poll_lines. destruct (c_transport c) as [| t].
  - unfold tcp_poll. destruct p as [| data | |]; [| destruct (split_lines _) | |]; try congruence; split; by try eexists.
  - assert (E : exists t' ls, pollCtrlLines p t = (t', Some ls)).
    { unfold pollCtrlLines. destruct (_ <? _)%nat; [destruct (extract_lines t); by eexists _, _ |].
      destruct p; try congruence; try by eexists _, _. match goal with |- context [extract_lines ?x] => destruct (extract_lines x) end. by eexists _, _. }
    destruct E as (t' & ls & ->). split; [done | by eexists].
Qed.

(** A session in progress. *)
Definition up (t0 : Z) (g : bool) (s : Client) : Prop :=
  (exists c, conn s = Some c /\ good c) /\ runningSender s = true /\ reconnectFailures s = 0 /\ g_running s = g /\ sessionStart s = t0.

Lemma up_conn t0 g s c : good c -> up t0 g s -> up t0 g (set_conn (Some c) s).
Proof. intros Hc (_ & H). split; [by exists c | exact H]. Qed.

Lemma announce_up lan ext t t0 g s : up t0 g s -> up t0 g (announce lan ext t s).1 /\ (announce lan ext t s).2 = true.
Proof.
  intros U. pose proof U as ((c & E & Hc) & _). unfold announce. rewrite E. unfold sendAnnounce. destruct lan as [| a lan].
  - split; [exact (up_conn t0 g s c Hc U) | done].
  - destruct (write_lines_good KAnnounce (x_text ext :: (a_text <$> a :: lan)) c Hc) as [H1 H2].
    destruct (write_lines _ _ c) as [c' ok]. cbn [fst snd] in *. subst ok. split; [exact (up_conn t0 g s c' H1 U) | done].
Qed.

Lemma ctrl_up e t0 g s : r_poll e <> Broken -> up t0 g s -> up t0 g (ctrl_stage productionRoots e s).
Proof.
  intros Hp U. pose proof U as ((c & E & Hc) & _). unfold ctrl_stage. rewrite E.
  destruct (poll_good (r_poll e) (ctrlInBuf s) c Hp Hc) as [H1 [ls H2]]. destruct (poll_lines _ _ c) as [[c' b] o]. cbn [fst snd] in *. subst o.
  pose proof (serve_good ls (r_ctrl e) (ctrl s) c' H1) as H3. match goal with |- context [serve _ _ _ ?st _] => change st with (ctrl s) end.
  destruct (serve _ _ _ _ _) as [st c2]. exact (up_conn t0 g s c2 H3 U).
Qed.

Lemma send_up k data t0 g s : up t0 g s -> up t0 g (send k data s).
Proof.
  intros U. pose proof U as ((c & E & Hc) & _). unfold send. rewrite E. destruct (deflate_good k data c Hc) as [H1 H2].
  destruct (deflateAndWrite k data c) as [c' ok]. cbn [fst snd] in *. subst ok. exact (up_conn t0 g s c' H1 U).
Qed.

Lemma announce_stage_up e t0 g s : up t0 g s -> up t0 g (announce_stage e s).
Proof.
  intros U. pose proof U as ((c & E & Hc) & _). unfold announce_stage. rewrite E. destruct (_ && _); [| done].
  match goal with |- context [announce ?a ?b ?t ?s1] => destruct (announce_up a b t t0 g s1 U) as [H1 H2]; destruct (announce a b t s1) as [s2 ok] end.
  cbn [fst snd] in *. by subst ok.
Qed.

Lemma health_stage_up e d t0 g s : up t0 g s -> up t0 g (health_stage cfg e d s).
Proof. intros U. pose proof U as ((c & E & Hc) & _). unfold health_stage. rewrite E. destruct d; [| done]. apply send_up. exact U. Qed.

Lemma age_stage_up e t0 g s : seconds (r_session e - t0) < kMaxSessionSeconds -> up t0 g s -> up t0 g (age_stage e s).
Proof.
  intros H U. pose proof U as ((c & E & Hc) & _ & _ & _ & Et). unfold age_stage. rewrite E, Et. rewrite (proj2 (Z.leb_gt _ _)); [done |].
  unfold kMaxSessionSeconds in *. lia.
Qed.

(** An attempt against a reachable server whose connection then works for the
    rest of the round. *)
Definition reaches (e : Env) : Prop :=
  is_Some (authenticated (r_attempt e)) /\ (forall i, e_wr (r_attempt e) i = Wrote) /\ r_poll e <> Broken /\
  seconds (r_session e - e_started (r_attempt e)) < kMaxSessionSeconds.

Lemma announce_good lan ext t s c : conn s = Some c -> good c ->
  (exists c', conn (announce lan ext t s).1 = Some c' /\ good c') /\ (announce lan ext t s).2 = true.
Proof.
  intros E Hc. unfold announce. rewrite E. unfold sendAnnounce. destruct lan as [| a lan]; [split; [by exists c | done] |].
  destruct (write_lines_good KAnnounce (x_text ext :: (a_text <$> a :: lan)) c Hc) as [H1 H2].
  destruct (write_lines _ _ c) as [c' ok]. cbn [fst snd] in *. subst ok. split; [by exists c' | done].
Qed.

Lemma connect_up a s : conn s = None -> is_Some (authenticated a) -> (forall i, e_wr a i = Wrote) ->
  let s' := (connectUnlocked cfg a s).1 in
  (connectUnlocked cfg a s).2 = true /\ (exists c, conn s' = Some c /\ good c) /\ sessionStart s' = e_started a.
Proof.
  intros E [c Ha] Hw. unfold connectUnlocked. rewrite E. unfold authenticated in Ha. destruct (e_connects a); [| done]. cbn [negb] in *.
  destruct (exec _ _) as [[caps | m] |]; [| done | done]. injection Ha as Ec.
  assert (Hc : good c) by (subst c; exact Hw). cbv zeta. rewrite Ec.
  match goal with |- context [announce ?x ?y ?z ?s1] => destruct (announce_good x y z s1 c eq_refl Hc) as [G1 G2]; destruct (announce x y z s1) as [s2 ok] end.
  cbn [fst snd] in *. by subst ok.
Qed.

Lemma up_round e s :
  runningSender s = true -> conn s = None -> due e s -> waited e s -> reaches e ->
  up (e_started (r_attempt e)) (g_running s) (sender_round productionRoots cfg e s).
Proof.
  intros Hr Hc Hd Hw (Ha & Hwr & Hp & Hage). unfold sender_round. rewrite Hr. cbn [negb].
  pose proof (flush_link e s) as F. destruct (flush_stage cfg e s) as [[taken text] s1]. cbn [snd] in F.
  destruct F as ((A & B & C & D & H) & Ec).
  assert (Hd1 : health_due e s1 = true) by (unfold health_due; rewrite H; exact Hd). rewrite Hd1. cbn [negb]. rewrite andb_false_r.
  assert (U : exists s2, connect_stage cfg e false s1 = (s2, true) /\ up (e_started (r_attempt e)) (g_running s) s2).
  { assert (W : (0 <? reconnectFailures s1) && (seconds (r_reconnect e - lastReconnectAttempt s1) <? reconnectIntervalSec cfg) = false).
    { rewrite A, B. destruct Hw as [-> | Hw]; [done |]. rewrite (proj2 (Z.ltb_ge _ (reconnectIntervalSec cfg))) by exact Hw. apply andb_false_r. }
    unfold connect_stage. rewrite Ec, Hc, W.
    match goal with |- context [connectUnlocked cfg ?a ?s2] => destruct (connect_up a s2) as (G1 & G2 & G3);
      [transitivity (conn s1); [reflexivity | congruence] | exact Ha | exact Hwr |];
      pose proof (connect_link a s2) as L; destruct (connectUnlocked cfg a s2) as [s3 ok] end.
    cbn [fst snd] in *. subst ok. destruct L as (_ & _ & C3 & D3 & _). cbn [negb]. eexists; split; [reflexivity |]. unfold up. split_conj.
    - exact G2.
    - etrans; [exact C3 |]. etrans; [exact C | exact Hr].
    - done.
    - etrans; [exact D3 | exact D].
    - exact G3. }
  destruct U as (s2 & -> & U). cbn [negb].
  apply send_up, age_stage_up; [done |]. by apply health_stage_up, announce_stage_up, ctrl_up.
Qed.

(** Attempts at least [reconnectIntervalSec] apart. *)
Fixpoint spaced (prev : option Z) (es : list Env) : Prop :=
  match es with
  | [] => True
  | e :: es =>
      match prev with Some t => reconnectIntervalSec cfg <= seconds (r_reconnect e - t) | None => True end /\ spaced (Some (r_reconnect e)) es
  end.

Lemma spaced_front es es2 : forall p, spaced p (es ++ es2) -> spaced p es.
Proof. induction es as [| e es IH]; intros p H; [done |]. destruct H as [H1 H2]. split; [done | by apply IH]. Qed.

Lemma spaced_last es e : forall p, spaced p (es ++ [e]) ->
  match last es with Some x => reconnectIntervalSec cfg <= seconds (r_reconnect e - r_reconnect x) | None => True end.
Proof.
  induction es as [| x es IH]; intros p H; [done |]. destruct H as [_ H]. destruct es as [| y es]; [exact (proj1 H) |].
  rewrite last_cons_cons. exact (IH _ H).
Qed.

Definition rounds (es : list Env) (s : Client) : Client := foldl (fun s e => sender_round productionRoots cfg e s) s es.

Definition max_attempts : Z := reconnectMaxAttempts cfg.

Lemma stopped_rounds es s : runningSender s = false -> rounds es s = s.
Proof.
  intros H. induction es as [| e es IH]; [done |]. unfold rounds in *. cbn [foldl].
  assert (E : sender_round productionRoots cfg e s = s) by (unfold sender_round; by rewrite H). by rewrite E.
Qed.

(** [n] failed attempts in a row. *)
Lemma down_rounds es : forall s, 0 <= max_attempts < 2 ^ 32 ->
  runningSender s = true -> conn s = None -> 0 <= reconnectFailures s < max_attempts ->
  Forall (fun e => due e s /\ succeeds (r_attempt e) = false) es ->
  spaced (if reconnectFailures s =? 0 then None else Some (lastReconnectAttempt s)) es ->
  let s' := rounds es s in
  let n := reconnectFailures s + Z.of_nat (length es) in
  reconnectFailures s' = Z.min n max_attempts /\ conn s' = None /\ lastHealthReportSec s' = lastHealthReportSec s /\
  runningSender s' = (n <? max_attempts) /\ g_running s' = (if n <? max_attempts then g_running s else false) /\
  (es <> [] -> n <= max_attempts -> Some (lastReconnectAttempt s') = r_reconnect <$> last es).
Proof.
  induction es as [| e es IH]; intros s Hm Hr Hc Hf HF Hsp; cbv zeta.
  - cbn [rounds foldl length]. rewrite Z.add_0_r. rewrite (proj2 (Z.ltb_lt _ _)) by lia. split_conj; [lia | done ..].
  - apply Forall_cons in HF as [[Hd Hs] HF]. destruct Hsp as [Hsp1 Hsp2].
    assert (Hw : waited e s) by (unfold waited; destruct (reconnectFailures s =? 0) eqn:E; bool_to_prop; [by left | by right]).
    destruct (down_round e s Hr Hc Hd Hw Hs) as (C1 & F1 & A1 & H1 & R1 & G1). rewrite u32_small in F1, R1, G1 by lia.
    change (rounds (e :: es) s) with (rounds es (sender_round productionRoots cfg e s)).
    generalize dependent (sender_round productionRoots cfg e s). intros s1 C1 F1 A1 H1 R1 G1. fold max_attempts in R1, G1.
    cbn [length]. rewrite Nat2Z.inj_succ.
    destruct (max_attempts <=? reconnectFailures s + 1) eqn:E; bool_to_prop; cbn [negb] in R1.
    + rewrite (stopped_rounds es s1 R1). rewrite (proj2 (Z.ltb_ge (_ + Z.succ _) _)) by lia. split_conj; try done; [lia |].
      intros _ Hn. assert (es = []) as -> by (destruct es; [done |]; cbn [length] in Hn; lia). by rewrite A1.
    + destruct (IH s1) as (F2 & C2 & H2 & R2 & G2 & L2); [done | done | done | lia | | |].
      * eapply Forall_impl; [exact HF |]. intros x [Hx1 Hx2]. split; [| done]. unfold due, health_due in *. by rewrite H1.
      * rewrite F1. rewrite (proj2 (Z.eqb_neq _ 0)) by lia. by rewrite A1.
      * rewrite F1 in *. replace (reconnectFailures s + Z.succ (Z.of_nat (length es))) with (reconnectFailures s + 1 + Z.of_nat (length es)) by lia.
        split; [exact F2 |]. split; [exact C2 |]. split; [congruence |]. split; [exact R2 |]. split; [by rewrite G2, G1 |].
        intros _ Hn. destruct es as [| e2 es]; [cbn; by rewrite A1 |]. rewrite last_cons_cons. by apply L2.
Qed.

(** C22: reconnecting: from a lost connection on, with health due, the client
    tries again at most once per interval; after [n] failed attempts in a row
    the failure count is [n] and it runs on below the maximum, and at the
    maximum it stops itself and the program; and the first attempt before that
    which meets a reachable server ends the round connected, running and with
    the count back at 0. A round less than the interval after the last failed
    attempt makes none. *)
Theorem reconnects_or_gives_up (s : Client) (es : list Env) (e : Env) :
  runningSender s = true -> g_running s = true -> conn s = None -> reconnectFailures s = 0 -> 0 < max_attempts < 2 ^ 32 ->
  Forall (fun e => due e s) (es ++ [e]) -> Forall (fun e => succeeds (r_attempt e) = false) es -> spaced None (es ++ [e]) ->
  let s' := rounds es s in
  let n := Z.of_nat (length es) in
  (reconnectFailures s' = Z.min n max_attempts /\ conn s' = None /\ runningSender s' = (n <? max_attempts) /\ g_running s' = (n <? max_attempts)) /\
  (0 < n < max_attempts -> Some (lastReconnectAttempt s') = r_reconnect <$> last es /\
     forall early, too_early early s' -> let s'' := rounds [early] s' in same_link s' s'' /\ conn s'' = None) /\
  (n < max_attempts -> reaches e -> alive (rounds (es ++ [e]) s) /\ reconnectFailures (rounds (es ++ [e]) s) = 0 /\ g_running (rounds (es ++ [e]) s) = true).
Proof.
  intros Hr Hg Hc Hf Hm Hd Hs Hsp. apply Forall_app in Hd as [Hd He]. apply List.Forall_inv in He.
  destruct (down_rounds es s) as (F & C & H & R & G & L); [lia | done | done | lia | by apply Forall_and | by rewrite Hf; apply (spaced_front es [e]) |].
  rewrite Hf, Z.add_0_l in *. cbv zeta. rewrite Hg in G. split; [split_conj; [done .. | by rewrite G; destruct (_ <? _)] |]. split.
  { intros Hn. split; [apply L; [intros ->; cbn in Hn; lia | lia] |]. intros early Hx. apply early_round; [done | lia | done]. }
  intros Hn Hre.
  rewrite (proj2 (Z.ltb_lt _ _)) in R, G by done.
  assert (Hw : waited e (rounds es s)).
  { unfold waited. destruct (decide (es = [])) as [-> | Hne]; [left; exact Hf | right]. specialize (L Hne ltac:(lia)).
    pose proof (spaced_last es e None Hsp) as K. destruct (last es) as [x |]; [| done]. injection L as ->. exact K. }
  assert (Hde : due e (rounds es s)) by (unfold due, health_due in *; by rewrite H).
  pose proof (up_round e (rounds es s) R C Hde Hw Hre) as ((c & Ec & _) & U1 & U2 & U3 & _). rewrite G in U3.
  unfold rounds in *. rewrite foldl_app. split_conj; [split; [by exists c | done] | done | done].
Qed.
End Attempts.

(** ** Samples *)

Lemma steady_check `{CRY : Crypto} `{SH : Sha256} `{B64 : EvpBase64} `{ED : Ed25519} `{DF : Deflater} roots cfg st evs :
  (forall n e, evs !! n = Some (Round e) -> (n < length evs)%nat -> alive (client_run roots cfg st (take (S n) evs))) -> steady roots cfg st evs.
Proof.
  intros H e1 e e2 ->. specialize (H (length e1) e). replace (take (S (length e1)) (e1 ++ Round e :: e2)) with (e1 ++ [Round e]) in H.
  - apply H; [by rewrite lookup_app_r, Nat.sub_diag by lia |]. rewrite length_app. cbn. lia.
  - rewrite take_app_ge by lia. replace (S (length e1) - length e1)%nat with 1%nat by lia. cbn. by rewrite take_0.
Qed.

#[local] Instance sample_base64 : EvpBase64 := { EncodeBlock s := s; DecodeBlock s := Some s }.
#[local] Instance sample_deflater : Deflater := { DState := unit; deflateInit := tt; deflate d s := (d, s) }.

#[local] Abbreviation sample_conf := { default_config with ClientConf.identityPath := ("id.pem" : str) }.

#[local] Abbreviation sample_attempt :=
  (mkAttempt true (IdentityKey sample_priv) [Some sample_nonce; Some [byte_of 0]; Some [byte_of 1]] ["10.0.0.2" : str] [] (fun _ => Wrote)
    100000000000 100000000000).

#[local] Abbreviation no_server := (mkAttempt false NoPem [] [] [] (fun _ => WriteFails 0) 0 0).

#[local] Abbreviation round_at t a p := (mkEnv [] (t * 1000000000) (t * 1000000000) (t * 1000000000) false a p (fun _ => mkCtrlEnv sample_now all_open false sample_env true (fun _ => true))).

#[local] Abbreviation sample_state :=
  (mkCtrl ∅ (mkLogger "/var/log/ntm" (nameForDate "2026-03-02") true 0 "2026-03-02" true LInfo) sample_upd).

#[local] Abbreviation sample_packet n := (Packet (mkPacketMeta "eth0" "10.0.0.1" "8.8.8.8" n)).

#[local] Abbreviation sample_events :=
  [sample_packet 700; sample_packet 800; Round (round_at 100 sample_attempt NotReady); sample_packet 60;
   Round (round_at 101 no_server (Chunk (("C log_list r1" : str) ++ [LF])))].

Lemma alive_check (s : @Client sample_deflater) : (match conn s with Some _ => runningSender s | None => false end) = true -> alive s.
Proof. unfold alive. destruct (conn s); [by split; [eexists |] | done]. Qed.

Lemma sample_steady : steady sample_roots sample_conf sample_state sample_events.
Proof.
  apply steady_check. intros n e E Hn. destruct n as [| [| [| [| [| n]]]]]; cbn in E, Hn; try discriminate E; try lia;
    apply alive_check; vm_compute; reflexivity.
Qed.

Lemma sample_packets : forall m, m ∈ all_packets sample_events -> key_printable (key_of m) /\ 0 <= pm_bytes m.
Proof.
  intros m Hin. cbn in Hin. rewrite !elem_of_cons in Hin. destruct Hin as [-> | [-> | [-> | Hin]]]; [split; [apply sample_key_printable | cbn; lia] .. |].
  by apply not_elem_of_nil in Hin.
Qed.

Lemma sample_flow : flow_bytes sample_key (all_packets sample_events) = 1560.
Proof. vm_compute. reflexivity. Qed.

Lemma sample_lines_fit : lines_fit sample_key (client_run sample_roots sample_conf sample_state sample_events).
Proof.
  assert (H : forallb (fun w => match s_kind w with KFlows t => held sample_key t <=? UINT32_MAX | _ => true end)
    (flow_log (client_run sample_roots sample_conf sample_state sample_events)) = true) by (vm_compute; reflexivity).
  apply forallb_Forall in H. eapply Forall_impl; [exact H |]. cbn. intros w Hw. destruct (s_kind w); [done | done | done | by apply Z.leb_le].
Qed.


#[local] Abbreviation sample_failures := [round_at 100 no_server NotReady; round_at 170 no_server NotReady].

Lemma reconnects_or_gives_up_witness :
  let s := rounds sample_roots sample_conf (sample_failures ++ [round_at 240 sample_attempt NotReady]) (client_init sample_conf sample_state) in
  alive s /\ reconnectFailures s = 0 /\ g_running s = true.
Proof.
  apply (reconnects_or_gives_up sample_roots sample_conf (client_init sample_conf sample_state) sample_failures (round_at 240 sample_attempt NotReady)).
  1, 2, 3, 4: reflexivity.
  - vm_compute. split; reflexivity.
  - repeat (apply List.Forall_cons; [vm_compute; reflexivity |]). apply List.Forall_nil.
  - repeat (apply List.Forall_cons; [vm_compute; reflexivity |]). apply List.Forall_nil.
  - cbn [spaced app]. split_conj; try exact I; vm_compute; discriminate.
  - vm_compute. reflexivity.
  - split; [vm_compute; by eexists |]. split; [intros i; reflexivity |]. split; [discriminate | vm_compute; reflexivity].
Defined.

(** ** Shown by the model *)

(** No path counts a dropped flush: the figure in the health line stays 0,
    although the flows drained in a round without a connection are gone. *)
Lemma buf_drop_stays_zero `{CRY : Crypto} `{SH : Sha256} `{B64 : EvpBase64} `{ED : Ed25519} `{DF : Deflater} roots cfg st evs :
  sendBufDrops (client_run roots cfg st evs) = 0.
Proof.
  induction evs as [| ev evs IH] using rev_ind; [done |]. rewrite client_run_snoc. destruct ev as [m | r d | e]; cbn [client_event]; [exact IH .. |].
  by rewrite round_drops.
Qed.

Lemma disconnected_flows_lost :
  let s := client_run sample_roots sample_conf sample_state [sample_packet 700; Round (round_at 100 no_server NotReady)] in
  flowTable s = ∅ /\ received sample_key s = 0 /\ sendBufDrops s = 0 /\ runningSender s = true.
Proof. vm_compute. by split_conj. Qed.

(** A flush whose write fails after its first line has counted that line: were
    the flows queued again, the server would count them twice. *)
Lemma partial_flush_counted :
  let part := mkAttempt true (IdentityKey sample_priv) [Some sample_nonce; Some [byte_of 0]; Some [byte_of 1]] ["10.0.0.2" : str] []
    (fun i => if (i <=? 2)%nat then Wrote else WriteFails 200) 100000000000 100000000000 in
  let s := client_run sample_roots sample_conf sample_state [sample_packet 700; Round (round_at 100 part NotReady)] in
  received sample_key s = 700 /\ flowTable s = ∅ /\ conn s = None.
Proof. vm_compute. by split_conj. Qed.

(** An address change within 30 seconds of an announce is consumed without an
    announce, and nothing makes up for it later. *)
Lemma address_change_lost `{CRY : Crypto} `{DF : Deflater} (e : Env) (s : Client) :
  seconds (r_now e) - lastReannounceTime s < kAnnounceRateLimitSec -> announce_stage e s = s.
Proof.
  intros H. unfold announce_stage. destruct (conn s); [| done]. by rewrite (proj2 (Z.leb_gt _ _)), andb_false_r by exact H.
Qed.

(** The flush of the round that ends a session after six hours is dropped. *)
Lemma last_flush_dropped :
  let late := mkEnv [mkPacketMeta "eth0" "10.0.0.1" "8.8.8.8" 5] (21700 * 1000000000) (21700 * 1000000000) (21700 * 1000000000) false no_server NotReady
    (r_ctrl (round_at 0 no_server NotReady)) in
  let s := client_run sample_roots sample_conf sample_state [Round (round_at 100 sample_attempt NotReady); Round late] in
  received sample_key s = 0 /\ flowTable s = ∅ /\ conn s = None.
Proof. vm_compute. by split_conj. Qed.
