(* ===== verification/Zlib.v ===== *)
(** Compression ([zlib_stream.hpp]): the feed loops that hand a buffer to zlib
    and collect its output 8 KiB at a time. zlib is a parameter; its laws say
    what its manual says of one call. The loops implement the interfaces that
    the sender ([Sender.Deflater]) and the session ([WireLoop.Inflater]) are
    built on, and the theorem says that they are transparent: whatever way the
    compressed bytes are cut up, the server reads what the client wrote, and
    has all of a write as soon as it has the write's bytes. *)

From S2P Require Import Prelude CppString WireLoop Sender.
Local Open Scope nat_scope.

(** ** zlib *)

(** Result codes; [Z_OTHER] stands for the errors. *)
Inductive ZRet := Z_OK | Z_BUF_ERROR | Z_STREAM_END | Z_OTHER.

#[export] Instance zret_eq_dec : EqDecision ZRet.
Proof. solve_decision. Defined.

(** What a call returns: the code, the stream, how much input it took and what
    it wrote. *)
Record ZCall (S : Type) := mkZ { z_ret : ZRet; z_next : S; z_used : nat; z_out : str }.
Arguments mkZ {S}.
Arguments z_ret {S}.
Arguments z_next {S}.
Arguments z_used {S}.
Arguments z_out {S}.

(** [deflate] with [Z_SYNC_FLUSH] and [inflate] with [Z_NO_FLUSH], given the
    input left and the room for output. *)
Class Zlib := {
  DStream : Type;
  zDeflateInit : DStream;
  zdeflate : DStream -> str -> nat -> ZCall DStream;
  IStream : Type;
  zInflateInit : IStream;
  zInflateReset : IStream -> IStream;
  zinflate : IStream -> str -> nat -> ZCall IStream
}.

(** ** The loops *)

Definition kChunk : nat := Z.to_nat 8192.

(** [static_cast<uInt>(len)]. *)
Definition avail_in (input : str) : str := take (Z.to_nat (u32 (Z.of_nat (length input)))) input.

Section Feed.
Context `{ZL : Zlib}.

(** The stream, the output with the new bytes, and the result of the call;
    [None]: out of fuel. *)
(* zlib_stream.hpp:63-73 ZlibDeflater::feed, loop *)
Fixpoint deflate_loop (fuel : nat) (zs : DStream) (input out : str) : option (DStream * str * bool) :=
  match fuel with
  | O => None
  | S fuel =>
      let c := zdeflate zs input kChunk in
      if decide (z_ret c = Z_OTHER) then Some (z_next c, out, false)
      else
        let out := out ++ z_out c in
        let rest := drop (z_used c) input in
        if negb (bool_decide (rest = [])) || (length (z_out c) =? kChunk) then deflate_loop fuel (z_next c) rest out
        else Some (z_next c, out, true)
  end.

(* zlib_stream.hpp:56-75 ZlibDeflater::feed *)
Definition deflater_feed (fuel : nat) (zs : DStream) (input out : str) : option (DStream * str * bool) :=
  if decide (input = []) then Some (zs, out, true) else deflate_loop fuel zs (avail_in input) out.

(* zlib_stream.hpp:107-124 ZlibInflater::feed, loop *)
Fixpoint inflate_loop (fuel : nat) (zs : IStream) (input out : str) : option (IStream * str * bool) :=
  match fuel with
  | O => None
  | S fuel =>
      let c := zinflate zs input kChunk in
      match z_ret c with
      | Z_STREAM_END => Some (zInflateReset (z_next c), out ++ z_out c, true)
      | Z_OTHER => Some (z_next c, out, false)
      | _ =>
          let out := out ++ z_out c in
          if length (z_out c) =? kChunk then inflate_loop fuel (z_next c) (drop (z_used c) input) out
          else Some (z_next c, out, true)
      end
  end.

(* zlib_stream.hpp:100-126 ZlibInflater::feed *)
Definition inflater_feed (fuel : nat) (zs : IStream) (input out : str) : option (IStream * str * bool) :=
  if decide (input = []) then Some (zs, out, true) else inflate_loop fuel zs (avail_in input) out.
End Feed.

(** ** What zlib promises *)

(** How an input ends for an inflating stream: it wants more, it is at the end
    of the compressed data, or the data is corrupt. *)
Inductive Fate (S : Type) := Goes (s : S) | Ends (s : S) | Corrupt.
Arguments Goes {S}.
Arguments Ends {S}.
Arguments Corrupt {S}.

(** [d_writes zs x] and [i_writes zs x] are the bytes that a stream still has
    to write for the input [x], however its calls are cut. A call takes part
    of the input and writes part of the output; it stops short of the room only
    when it has done all. Inflating is a stream function, and it undoes a
    flushed deflate. *)
Class ZlibLaws `(ZL : Zlib) := {
  d_writes : DStream -> str -> str;
  d_after : DStream -> str -> DStream;
  i_writes : IStream -> str -> str;
  i_fate : IStream -> str -> Fate IStream;
  in_step : DStream -> IStream -> Prop;

  zdeflate_law zs input room : 0 < room ->
    let c := zdeflate zs input room in
    (z_ret c = Z_OK \/ z_ret c = Z_BUF_ERROR) /\ length (z_out c) <= room /\
    d_writes zs input = z_out c ++ d_writes (z_next c) (drop (z_used c) input) /\
    d_after zs input = d_after (z_next c) (drop (z_used c) input) /\
    (length (z_out c) < room -> drop (z_used c) input = [] /\ d_writes (z_next c) [] = [] /\ d_after (z_next c) [] = z_next c);

  zinflate_law zs input room : 0 < room ->
    let c := zinflate zs input room in
    let rest := drop (z_used c) input in
    length (z_out c) <= room /\
    match z_ret c with
    | Z_OK | Z_BUF_ERROR =>
        i_writes zs input = z_out c ++ i_writes (z_next c) rest /\ i_fate zs input = i_fate (z_next c) rest /\
        (length (z_out c) < room -> i_writes (z_next c) rest = [] /\ i_fate (z_next c) rest = Goes (z_next c))
    | Z_STREAM_END => i_writes zs input = z_out c /\ i_fate zs input = Ends (z_next c)
    | Z_OTHER => i_fate zs input = Corrupt
    end;

  i_stream zs a b :
    i_fate zs (a ++ b) = match i_fate zs a with Goes zs' => i_fate zs' b | f => f end /\
    i_writes zs (a ++ b) = i_writes zs a ++ match i_fate zs a with Goes zs' => i_writes zs' b | _ => [] end;
  i_settled zs x zs' : i_fate zs x = Goes zs' -> i_writes zs' [] = [] /\ i_fate zs' [] = Goes zs';
  i_settled_init : i_writes zInflateInit [] = [] /\ i_fate zInflateInit [] = Goes zInflateInit;

  step_init : in_step zDeflateInit zInflateInit;
  step_flush d i x : in_step d i -> x <> [] ->
    i_writes i (d_writes d x) = x /\ exists i', i_fate i (d_writes d x) = Goes i' /\ in_step (d_after d x) i'
}.

(** ** Lemmas *)

(** The writes of a session in order. *)
Fixpoint deflate_all `{DF : Deflater} (d : DState) (xs : list str) : DState * list str :=
  match xs with
  | [] => (d, [])
  | x :: xs => let (d, y) := deflate d x in let (d, ys) := deflate_all d xs in (d, y :: ys)
  end.

Lemma deflate_all_cons `{DF : Deflater} x (xs : list str) (d : DState) :
  (deflate_all d (x :: xs)).2 = (deflate d x).2 :: (deflate_all (deflate d x).1 xs).2.
Proof. cbn [deflate_all]. destruct (deflate d x) as [d1 y]. cbn [fst snd]. by destruct (deflate_all d1 xs). Qed.

Lemma deflate_all_take `{DF : Deflater} k : forall (xs : list str) (d : DState), (deflate_all d (take k xs)).2 = take k (deflate_all d xs).2.
Proof.
  induction k as [| k IH]; intros xs d; [by destruct xs |]. destruct xs as [| x xs]; [done |]. cbn [take deflate_all].
  destruct (deflate d x) as [d1 y]. specialize (IH xs d1). destruct (deflate_all d1 (take k xs)) as [? ys1], (deflate_all d1 xs) as [? ys2].
  cbn [snd take] in *. by rewrite IH.
Qed.

Section Loops.
Context `{ZL : Zlib} `{!ZlibLaws ZL}.

Lemma kChunk_pos : 0 < kChunk.
Proof. unfold kChunk. lia. Qed.

Lemma avail_in_small x : (Z.of_nat (length x) < 2 ^ 32)%Z -> avail_in x = x.
Proof. intros H. unfold avail_in. rewrite u32_small by lia. rewrite Nat2Z.id. by rewrite take_ge by lia. Qed.

Lemma deflate_loop_exact fuel : forall zs input out, length (d_writes zs input) < fuel ->
  deflate_loop fuel zs input out = Some (d_after zs input, out ++ d_writes zs input, true).
Proof.
  induction fuel as [| fuel IH]; intros zs input out Hf; [lia |]. cbn [deflate_loop]. pose proof kChunk_pos as Hk.
  destruct (zdeflate_law zs input kChunk Hk) as (Hr & Hl & Hw & Ha & Hd). rewrite decide_False by (destruct Hr as [-> | ->]; done).
  rewrite Hw in Hf. rewrite length_app in Hf. rewrite Hw, Ha.
  destruct (negb _ || _) eqn:E.
  - destruct (decide (length (z_out (zdeflate zs input kChunk)) < kChunk)) as [Hlt | Hge].
    + destruct (Hd Hlt) as (Hrest & _). rewrite Hrest, bool_decide_true in E by done. cbn [negb orb] in E. bool_to_prop. lia.
    + rewrite IH by lia. by rewrite app_assoc.
  - apply orb_false_iff in E as [E1 E2]. apply negb_false_iff, bool_decide_eq_true in E1. bool_to_prop.
    destruct Hd as (_ & Hw' & Ha'); [lia |]. by rewrite E1, Hw', Ha', app_nil_r.
Qed.

Lemma inflate_loop_exact fuel : forall zs input out, length (i_writes zs input) < fuel ->
  match i_fate zs input with
  | Goes zs' => inflate_loop fuel zs input out = Some (zs', out ++ i_writes zs input, true)
  | Ends zs' => inflate_loop fuel zs input out = Some (zInflateReset zs', out ++ i_writes zs input, true)
  | Corrupt => exists zs' o, inflate_loop fuel zs input out = Some (zs', o, false)
  end.
Proof.
  induction fuel as [| fuel IH]; intros zs input out Hf; [lia |]. cbn [inflate_loop]. pose proof kChunk_pos as Hk.
  destruct (zinflate_law zs input kChunk Hk) as (Hl & Hc). set (c := zinflate zs input kChunk) in *.
  assert (K : (z_ret c = Z_OK \/ z_ret c = Z_BUF_ERROR) \/ z_ret c = Z_STREAM_END \/ z_ret c = Z_OTHER) by (destruct (z_ret c); tauto).
  destruct K as [K | [K | K]]; [| rewrite K in Hc |- *; destruct Hc as [-> ->]; done | rewrite K in Hc |- *; rewrite Hc; by eexists _, _].
  assert (Hc' : i_writes zs input = z_out c ++ i_writes (z_next c) (drop (z_used c) input) /\ i_fate zs input = i_fate (z_next c) (drop (z_used c) input) /\
    (length (z_out c) < kChunk -> i_writes (z_next c) (drop (z_used c) input) = [] /\ i_fate (z_next c) (drop (z_used c) input) = Goes (z_next c)))
    by (destruct K as [K | K]; by rewrite K in Hc).
  clear Hc. destruct Hc' as (Hw & Hfate & Hd).
  assert (E : forall A (a b d : A), match z_ret c with Z_STREAM_END => a | Z_OTHER => b | _ => d end = d) by (intros; by destruct K as [-> | ->]).
  rewrite E. clear E. destruct (Nat.eqb_spec (length (z_out c)) kChunk) as [Hfull | Hpart].
  - rewrite Hfate, Hw. rewrite Hw, length_app in Hf. specialize (IH (z_next c) (drop (z_used c) input) (out ++ z_out c) ltac:(lia)).
    rewrite <- app_assoc in IH. exact IH.
  - destruct Hd as [Hw' Hf']; [lia |]. by rewrite Hfate, Hf', Hw, Hw', app_nil_r.
Qed.

(** The bytes a feed adds, as the interfaces of sender and session have them. *)
#[export] Instance zlib_deflater : Deflater := {
  DState := DStream;
  deflateInit := zDeflateInit;
  deflate d x := match deflater_feed (S (length (d_writes d (avail_in x)))) d x [] with Some (d, out, _) => (d, out) | None => (d, []) end
}.

#[export] Instance zlib_inflater : Inflater := {
  ZState := IStream;
  z_feed z b := match inflater_feed (S (length (i_writes z (avail_in b)))) z b [] with Some (z, out, true) => Some (z, out) | _ => None end
}.

Lemma deflate_exact d x : x <> [] -> (Z.of_nat (length x) < 2 ^ 32)%Z -> deflate d x = (d_after d x, d_writes d x).
Proof.
  intros Hx Hl. cbn. unfold deflater_feed. rewrite decide_False by done. by rewrite avail_in_small, deflate_loop_exact by (done || lia).
Qed.

Lemma z_feed_goes z b z' : (Z.of_nat (length b) < 2 ^ 32)%Z -> i_writes z [] = [] -> i_fate z [] = Goes z ->
  i_fate z b = Goes z' -> z_feed z b = Some (z', i_writes z b).
Proof.
  intros Hl Hw Hf Hb. cbn. unfold inflater_feed. destruct (decide (b = [])) as [-> | Hne].
  - rewrite Hw. rewrite Hf in Hb. by injection Hb as ->.
  - pose proof (inflate_loop_exact (S (length (i_writes z (avail_in b)))) z b []) as H. rewrite avail_in_small in * by done.
    specialize (H ltac:(lia)). rewrite Hb in H. by rewrite H.
Qed.

(** A write [deflateAndWrite] hands to zlib. *)
Definition fits (x : str) : Prop := x <> [] /\ (Z.of_nat (length x) < 2 ^ 32)%Z.

Lemma deflate_all_fate xs : forall d i, in_step d i -> Forall fits xs ->
  let ys := concat (deflate_all (DF := zlib_deflater) d xs).2 in
  i_writes i [] = [] -> i_fate i [] = Goes i ->
  i_writes i ys = concat xs /\ exists i', i_fate i ys = Goes i'.
Proof.
  induction xs as [| x xs IH]; intros d i Hs Hx ys Hw Hf; subst ys.
  - cbn. split; [done | by exists i].
  - apply Forall_cons in Hx as [[Hne Hl] Hx].
    destruct (step_flush d i x Hs Hne) as (Ew & i1 & Ef & Hs1). destruct (i_settled _ _ _ Ef) as [Hw1 Hf1].
    destruct (IH _ _ Hs1 Hx Hw1 Hf1) as (IW & i2 & IF).
    replace (deflate_all (DF := zlib_deflater) d (x :: xs)).2 with (d_writes d x :: (deflate_all (DF := zlib_deflater) (d_after d x) xs).2)
      by (rewrite deflate_all_cons, deflate_exact by done; done).
    cbn [concat]. destruct (i_stream i (d_writes d x) (concat (deflate_all (DF := zlib_deflater) (d_after d x) xs).2)) as [SF SW].
    rewrite SF, SW, Ef, Ew, IW. split; [done | by exists i2].
Qed.

(** Any cut of a stream that does not fail reads as the whole. *)
Lemma decode_pieces rs : forall i i', Forall (fun r : str => Z.of_nat (length r) < 2 ^ 32)%Z rs ->
  i_writes i [] = [] -> i_fate i [] = Goes i -> i_fate i (concat rs) = Goes i' ->
  decode (Some i) rs = Some (i_writes i (concat rs), Some i').
Proof.
  induction rs as [| r rs IH]; intros i i' Hr Hw Hf Hg; cbn [concat decode] in *.
  - rewrite Hf in Hg. injection Hg as <-. by rewrite Hw.
  - apply Forall_cons in Hr as [Hl Hr]. destruct (i_stream i r (concat rs)) as [SF SW]. rewrite SF in Hg. rewrite SW.
    destruct (i_fate i r) as [i1 | i1 |] eqn:E; [| done | done]. rewrite (z_feed_goes i r i1) by done.
    destruct (i_settled _ _ _ E) as [Hw1 Hf1].
    match goal with |- context [decode ?z rs] => replace (decode z rs) with (Some (i_writes i1 (concat rs), Some (i' : ZState))) by (symmetry; by apply IH) end. done.
Qed.

Lemma fate_prefix i a b i' : i_fate i (a ++ b) = Goes i' -> exists i1, i_fate i a = Goes i1.
Proof. intros H. destruct (i_stream i a b) as [SF _]. rewrite SF in H. destruct (i_fate i a); [by eexists | done | done]. Qed.

Lemma writes_prefix i a b : i_writes i a `prefix_of` i_writes i (a ++ b).
Proof. destruct (i_stream i a b) as [_ ->]. by eexists. Qed.

(** Compression is transparent. Let the client write any texts through its
    deflater and let the server receive any part of the bytes from the start,
    cut in any way: its inflater accepts all of it and what it hands on is the
    start of what the client wrote; and as soon as the bytes of a write are
    there, so is its whole text. *)
Lemma zlib_transparent (xs rs : list str) (rest : str) :
  let ys := (deflate_all (DF := zlib_deflater) zDeflateInit xs).2 in
  Forall fits xs -> Forall (fun r : str => Z.of_nat (length r) < 2 ^ 32)%Z rs -> concat rs ++ rest = concat ys ->
  exists t z, decode (Some zInflateInit) rs = Some (t, Some z) /\ t `prefix_of` concat xs /\
    forall k, concat (take k ys) `prefix_of` concat rs -> concat (take k xs) `prefix_of` t.
Proof.
  intros ys Hx Hr He. destruct i_settled_init as [Hw Hf].
  destruct (deflate_all_fate xs _ _ step_init Hx Hw Hf) as (W & i' & F). fold ys in W, F. rewrite <- He in W, F.
  destruct (fate_prefix _ _ _ _ F) as [i1 F1]. exists (i_writes zInflateInit (concat rs)), i1. split; [by apply decode_pieces |].
  split; [rewrite <- W; apply writes_prefix |]. intros k [u Hk].
  destruct (deflate_all_fate (take k xs) _ _ step_init (Forall_take _ k _ Hx) Hw Hf) as (Wk & _).
  rewrite deflate_all_take in Wk. fold ys in Wk. rewrite <- Wk, Hk. apply writes_prefix.
Qed.
End Loops.

(** ** A concrete stream *)

(** A codec that stores: enough to see that the laws can hold. *)
Definition store (_ : unit) (input : str) (room : nat) : ZCall unit :=
  let n := Nat.min room (length input) in mkZ Z_OK tt n (take n input).

#[export] Instance stored : Zlib := {
  DStream := unit; zDeflateInit := tt; zdeflate := store;
  IStream := unit; zInflateInit := tt; zInflateReset _ := tt; zinflate := store
}.

#[export] Instance stored_laws : ZlibLaws stored.
Proof.
  refine {| d_writes := fun (_ : @DStream stored) x => x; d_after := fun _ _ => tt : @DStream stored; i_writes := fun (_ : @IStream stored) x => x;
            i_fate := fun _ _ => Goes (tt : @IStream stored); in_step := fun _ _ => True |}.
  - intros zs input room Hr. cbn. rewrite length_take, take_drop. split_conj; [by left | lia | done | done |]. intros H. split; [| done].
    rewrite drop_ge by lia. done.
  - intros zs input room Hr. cbn. rewrite length_take, take_drop. split_conj; [lia | done | done |]. intros H. split; [| done].
    rewrite drop_ge by lia. done.
  - done.
  - intros zs x []. done.
  - done.
  - done.
  - intros d i x _ Hx. split; [done |]. by exists tt.
Defined.

Lemma zlib_transparent_witness :
  exists t z, decode (Some (zInflateInit : @ZState (@zlib_inflater stored stored_laws))) ["H a" : str; LF :: "D " : str] = Some (t, Some z) /\
    t `prefix_of` concat ["H a" ++ [LF] : str; "D eth0 1" ++ [LF] : str].
Proof.
  destruct (zlib_transparent ["H a" ++ [LF] : str; "D eth0 1" ++ [LF] : str] ["H a" : str; LF :: "D " : str] ("eth0 1" ++ [LF]))
    as (t & z & H1 & H2 & _).
  - repeat constructor; discriminate.
  - repeat constructor.
  - vm_compute. reflexivity.
  - by exists t, z.
Defined.
