(* ===== verification/EndToEnd.v ===== *)
(** Client and server over one connection: the sender ([Sender]), the
    compression between them ([Zlib]) and the session loop ([WireLoop]). What
    the client writes in a connection are whole lines; the server handles those
    lines, in order and nothing else, however the bytes travel. *)

From S2P Require Import Prelude CppString Wire Health FlowAggregator Trust Upgrade HttpUtil Updater FileLog ClientCtrl TrafficStats Registry WireLoop Auth WebSocket Config Sender Zlib.
From coqutil Require Import Datatypes.RecordSetters.
Import OCamlLikeNotations.
Import ClientConf.

(** ** Texts of whole lines *)

(** Every line of the text is complete. *)
Definition whole (x : str) : Prop := x = [] \/ exists y, x = y ++ [LF].

Definition lines (x : str) : list str := (split_lines x).1.

Lemma whole_lf y : whole (y ++ [LF]).
Proof. right. by exists y. Qed.

Lemma whole_app x y : whole x -> whole y -> whole (x ++ y).
Proof. intros Hx [-> | [z ->]]; [by rewrite app_nil_r |]. right. exists (x ++ z). by rewrite app_assoc. Qed.

Lemma whole_concat xs : Forall whole xs -> whole (concat xs).
Proof. induction 1; [by left | by apply whole_app]. Qed.

Lemma whole_rest x : whole x -> (split_lines x).2 = [].
Proof.
  intros [-> | [y ->]]; [done |]. rewrite split_lines_app. destruct (split_lines y) as [ls r] eqn:E. apply split_lines_spec in E as (_ & _ & Hr).
  change [LF] with (LF :: []). by rewrite split_lines_line by done.
Qed.

Lemma lines_app x y : whole x -> lines (x ++ y) = lines x ++ lines y.
Proof.
  intros Hx%whole_rest. unfold lines. rewrite split_lines_app. destruct (split_lines x) as [ls r]. cbn [snd] in Hx. subst r.
  by destruct (split_lines ([] ++ y)) eqn:E; cbn [app] in E; rewrite E.
Qed.

Lemma lines_concat xs : Forall whole xs -> lines (concat xs) = concat (lines <$> xs).
Proof. induction 1 as [| x xs Hx _ IH]; [done |]. cbn [concat fmap list_fmap]. by rewrite lines_app, IH. Qed.

Lemma lines_prefix x y : x `prefix_of` y -> lines x `prefix_of` lines y.
Proof.
  intros [z ->]. unfold lines. rewrite split_lines_app. destruct (split_lines x) as [ls r]. destruct (split_lines (r ++ z)) as [lb rb]. by exists lb.
Qed.

(** ** Every connection of a client *)

Section Writes.
Context `{CRY : Crypto} `{SH : Sha256} `{B64 : EvpBase64} `{ED : Ed25519} `{DF : Deflater}.
Context (productionRoots : RootSet).

Lemma whole_respond x : whole (respond x).
Proof. unfold respond. rewrite app_assoc. apply whole_lf. Qed.

Lemma one_whole x : Forall whole [respond x].
Proof. constructor; [apply whole_respond | constructor]. Qed.

Lemma send_chunks_whole reqId ok ps : forall i, Forall whole (send_chunks reqId ok i ps).1.
Proof.
  induction ps as [| p ps IH]; intros i; cbn [send_chunks]; [constructor |]. destruct (ok i); [| apply one_whole].
  specialize (IH (S i)). destruct (send_chunks reqId ok (S i) ps) as [ls fin]. constructor; [apply whole_respond | done].
Qed.

Lemma log_list_whole reqId st : Forall whole (log_list reqId st).
Proof.
  unfold log_list. destruct (negb _); [apply one_whole |]. rewrite !Forall_app. split; [apply one_whole |]. split; [| apply one_whole].
  apply Forall_fmap, Forall_forall. intros f _. apply whole_respond.
Qed.

Lemma log_get_whole e reqId name st : Forall whole (log_get e reqId name st).
Proof.
  unfold log_get. destruct (negb _); [apply one_whole |]. destruct (logs st !! name) as [c |]; [| apply one_whole].
  pose proof (send_chunks_whole reqId (c_chunk_ok e) (pieces (length c) kRawChunk c) 0) as H. destruct (send_chunks _ _ _ _) as [ls fin].
  constructor; [apply whole_respond |]. apply Forall_app. split; [done |]. destruct fin; [apply one_whole | constructor].
Qed.

Lemma update_now_whole e reqId st : Forall whole (update_now productionRoots e reqId st).2.
Proof.
  unfold update_now. destruct (negb _); [by case_match; apply one_whole |]. case_match. constructor; [apply whole_respond |].
  apply Forall_fmap, Forall_forall. intros ev _. destruct ev; apply whole_respond.
Qed.

(** Every answer to a command is a line. *)
Lemma ctrl_whole e line st : Forall whole (processCtrlLine productionRoots e line st).2.
Proof.
  unfold processCtrlLine, not_active, sendErr.
  repeat (case_match; try solve [constructor | apply one_whole | apply log_list_whole | apply log_get_whole | apply update_now_whole]).
Qed.

(** A property of connections that a new one has and that writes of whole
    lines preserve. *)
Context (P : Conn -> Prop).
Hypothesis P_new : forall t d wr, d = None \/ d = Some deflateInit -> P (mkConn t d wr []).
Hypothesis P_transport : forall c t, P c -> P { c with c_transport := t }.
Hypothesis P_write : forall k data c, whole data -> P c -> P (deflateAndWrite k data c).1.

Definition kept (s : Client) : Prop := Forall P (past s) /\ forall c, conn s = Some c -> P c.

Lemma write_lines_kept k ls : forall c, Forall whole ls -> P c -> P (write_lines k ls c).1.
Proof.
  induction ls as [| l ls IH]; intros c Hl Hc; cbn [write_lines]; [done |]. apply Forall_cons in Hl as [Hl Hls].
  pose proof (P_write k l c Hl Hc) as H. destruct (deflateAndWrite k l c) as [c' []]; [by apply IH | done].
Qed.

Lemma write_ignoring_kept k ls : forall c, Forall whole ls -> P c -> P (write_ignoring k ls c).
Proof.
  unfold write_ignoring. induction ls as [| l ls IH]; intros c Hl Hc; cbn [foldl]; [done |]. apply Forall_cons in Hl as [Hl Hls].
  apply IH; [done | by apply P_write].
Qed.

Lemma serve_kept ls : forall e st c, P c -> P (serve productionRoots e ls st c).2.
Proof.
  induction ls as [| l ls IH]; intros e st c Hc; cbn [serve]; [done |].
  pose proof (ctrl_whole (with_chunks c (e 0%nat)) l st) as H. destruct (processCtrlLine _ _ _ _) as [st' rs]. apply IH. by apply write_ignoring_kept.
Qed.

Lemma same_kept s s' : past s' = past s -> conn s' = conn s -> kept s -> kept s'.
Proof. unfold kept. by intros -> ->. Qed.

Lemma set_kept s s' c : past s' = past s -> conn s' = Some c -> P c -> kept s -> kept s'.
Proof. unfold kept. intros -> -> Hc [Hp _]. split; [done |]. by intros ? [= <-]. Qed.

Lemma close_kept s : kept s -> kept (closeUnlocked s).
Proof.
  intros [Hp Hc]. unfold closeUnlocked. destruct (conn s) as [c |] eqn:E; [| by split; [| rewrite E]]. split; [| done].
  apply Forall_app. split; [done |]. constructor; [by apply Hc | constructor].
Qed.

Lemma announce_text_whole lan ext : Forall whole (x_text ext :: (a_text <$> lan)).
Proof.
  constructor; [unfold x_text; rewrite app_assoc; apply whole_lf |]. apply Forall_fmap, Forall_forall. intros ip _.
  unfold compose, a_text. rewrite app_assoc. apply whole_lf.
Qed.

Lemma announce_kept lan ext t s : kept s -> kept (announce lan ext t s).1.
Proof.
  intros Hs. unfold announce. destruct (conn s) as [c |] eqn:E; [| done].
  assert (Hc : P (sendAnnounce lan ext t c).1.1).
  { unfold sendAnnounce. destruct lan as [| ip lan]; [by apply Hs |]. pose proof (write_lines_kept KAnnounce _ c (announce_text_whole (ip :: lan) ext)) as H.
    destruct (write_lines _ _ c). by apply H, Hs. }
  destruct (sendAnnounce lan ext t c) as [[c' at_] ok]. by apply (set_kept s _ c').
Qed.

Lemma connect_kept cfg e s : kept s -> kept (connectUnlocked cfg e s).1.
Proof.
  intros Hs. unfold connectUnlocked. destruct (conn s) as [c |] eqn:E; [done |]. destruct (e_connects e); [| done]. cbn [negb].
  destruct (exec _ _) as [[caps | m] |]; [| done | done]. cbv zeta.
  match goal with |- context [announce ?l ?x ?t ?s1] => assert (H1 : kept s1); [| pose proof (announce_kept l x t s1 H1) as H; destruct (announce l x t s1) as [s2 []]] end.
  - eapply (set_kept s); [done | done | | exact Hs]. apply P_new. destruct (negb _); [by right | by left].
  - eapply same_kept; [.. | exact H]; done.
  - by apply close_kept.
Qed.

Lemma connect_stage_kept cfg e idle s : kept s -> kept (connect_stage cfg e idle s).1.
Proof.
  intros Hs. unfold connect_stage. destruct (conn s) as [c |]; [done |]. destruct idle; [done |]. destruct (_ && _); [done |].
  match goal with |- context [connectUnlocked cfg ?a ?s1] => pose proof (connect_kept cfg a s1) as H; destruct (connectUnlocked cfg a s1) as [s2 []] end;
    (specialize (H (same_kept s _ eq_refl eq_refl Hs)); cbn [negb fst] in *); [eapply same_kept; [.. | exact H]; done |].
  case_match; eapply same_kept; try exact H; done.
Qed.

Lemma ctrl_stage_kept e s : kept s -> kept (ctrl_stage productionRoots e s).
Proof.
  intros Hs. unfold ctrl_stage. destruct (conn s) as [c |] eqn:E; [| done].
  assert (Hc : P (poll_lines (r_poll e) (ctrlInBuf s) c).1.1).
  { unfold poll_lines. destruct (c_transport c); [destruct (tcp_poll _ _) | destruct (pollCtrlLines _ _); apply P_transport]; by apply Hs. }
  destruct (poll_lines _ _ c) as [[c' b] o]. cbn [fst] in Hc. destruct o as [ls |].
  - pose proof (serve_kept ls (r_ctrl e) (ctrl s) c' Hc) as H. cbn [ctrl]. destruct (serve _ _ _ _ c') as [st c''].
    eapply (set_kept s); [reflexivity | reflexivity | exact H | exact Hs].
  - apply close_kept. eapply (set_kept s); [reflexivity | reflexivity | exact Hc | exact Hs].
Qed.

Lemma announce_stage_kept e s : kept s -> kept (announce_stage e s).
Proof.
  intros Hs. unfold announce_stage. destruct (conn s) as [c |]; [| done]. destruct (_ && _); [| done]. cbv zeta.
  match goal with |- context [announce ?l ?x ?t ?s1] => pose proof (announce_kept l x t s1 (same_kept s _ eq_refl eq_refl Hs)) as H; destruct (announce l x t s1) as [s2 []] end;
    [done | by apply close_kept].
Qed.

Lemma send_kept k data s : whole data -> kept s -> kept (send k data s).
Proof.
  intros Hd Hs. unfold send. destruct (conn s) as [c |] eqn:E; [| done]. pose proof (P_write k data c Hd) as H.
  destruct (deflateAndWrite k data c) as [c' []]; [| apply close_kept]; (eapply (set_kept s); [reflexivity | reflexivity | by apply H, Hs | exact Hs]).
Qed.

Lemma health_stage_kept cfg e due s : kept s -> kept (health_stage cfg e due s).
Proof.
  intros Hs. unfold health_stage. destruct (conn s) as [c |]; [| done]. destruct due; [| done]. apply send_kept; [rewrite app_assoc; apply whole_lf |].
  by eapply (same_kept s).
Qed.

Lemma age_stage_kept e s : kept s -> kept (age_stage e s).
Proof. intros Hs. unfold age_stage. destruct (conn s) as [c |]; [| done]. case_match; [by apply close_kept | done]. Qed.

Lemma flush_whole t : table_ok t -> whole (flush_text t).
Proof.
  intros Ht. apply whole_concat, Forall_fmap, Forall_forall. intros [k v] Hin%elem_of_map_to_list. apply Ht in Hin as [_ Hv].
  unfold compose. rewrite encode_flow_eq by done. rewrite app_assoc. apply whole_lf.
Qed.

Lemma round_kept cfg e s : table_ok (captured cfg (r_late e) (flowTable s)) -> kept s -> kept (sender_round productionRoots cfg e s).
Proof.
  intros Ht Hs. unfold sender_round. destruct (runningSender s); [| done]. cbn [negb]. unfold flush_stage, drain. cbv zeta. set (s1 := if _ : bool then _ else _).
  assert (H1 : kept s1) by (subst s1; case_match; by eapply (same_kept s)). clearbody s1. set (idle := _ && _ && _). clearbody idle.
  match goal with |- context [connect_stage cfg e idle ?x] => pose proof (connect_stage_kept cfg e idle x H1) as H2; destruct (connect_stage cfg e idle x) as [s2 []] end;
    cbn [negb fst] in *; [| done]. pose proof (ctrl_stage_kept e s2 H2) as H3. destruct idle; [done |].
  apply send_kept; [by apply flush_whole |]. by apply age_stage_kept, health_stage_kept, announce_stage_kept.
Qed.

(** The table is well formed and every connection, past or present, has the
    property. *)
Lemma run_kept cfg st evs : (forall m, m ∈ all_packets evs -> key_printable (key_of m)) ->
  let s := client_run productionRoots cfg st evs in table_ok (flowTable s) /\ kept s.
Proof.
  induction evs as [| ev evs IH] using rev_ind; intros Hm; cbv zeta.
  - split; [intros ? ? H; discriminate H | by split].
  - rewrite client_run_snoc. rewrite all_packets_snoc in Hm. destruct IH as [Ht Hs]; [intros m Hin; apply Hm, elem_of_app; by left |].
    assert (Hm' : forall m, m ∈ event_packets ev -> key_printable (key_of m)) by (intros m Hin; apply Hm, elem_of_app; by right).
    destruct ev as [m | r d | e]; cbn [client_event event_packets] in *.
    + split; [by apply captured_ok | by eapply (same_kept (client_run productionRoots cfg st evs))].
    + split; [done | by eapply (same_kept (client_run productionRoots cfg st evs))].
    + assert (Hok : table_ok (captured cfg (r_late e) (flowTable (client_run productionRoots cfg st evs)))) by (by apply captured_ok).
      split; [| by apply round_kept]. destruct (runningSender (client_run productionRoots cfg st evs)) eqn:Hr; [| unfold sender_round; by rewrite Hr].
      destruct (round_accounts productionRoots cfg e _ Hr Hok) as [-> _]. intros ? ? H. discriminate H.
Qed.
End Writes.

(** ** What a connection carries *)

Section Compressed.
Context `{CRY : Crypto} `{SH : Sha256} `{B64 : EvpBase64} `{ED : Ed25519} `{DF : Deflater}.

Lemma deflate_all_snoc xs x : forall d, deflate_all d (xs ++ [x]) =
  let (d1, ys) := deflate_all d xs in let (d2, y) := deflate d1 x in (d2, ys ++ [y]).
Proof.
  induction xs as [| x0 xs IH]; intros d; cbn [deflate_all app]; [by destruct (deflate d x) |]. destruct (deflate d x0) as [d0 y0]. rewrite IH.
  destruct (deflate_all d0 xs) as [d1 ys]. by destruct (deflate d1 x) as [d2 y].
Qed.

(** The texts written and the bytes sent. *)
Definition texts (c : Conn) : list str := s_plain <$> c_log c.
Definition sent_bytes (c : Conn) : list str := s_raw <$> c_log c.

(** While the compressor does not fail, a connection carries its texts, all of
    them lines, as they are or deflated one after another. *)
Definition faithful (c : Conn) : Prop :=
  (forall i, c_wr c i <> FeedFails) ->
  Forall (fun x => x <> [] /\ whole x) (texts c) /\
  match c_deflater c with
  | None => sent_bytes c = texts c
  | Some d => deflate_all deflateInit (texts c) = (d, sent_bytes c)
  end.

Lemma faithful_new t d wr : d = None \/ d = Some deflateInit -> faithful (mkConn t d wr []).
Proof. intros [-> | ->] _; (split; [constructor | done]). Qed.

Lemma faithful_write k data c : whole data -> faithful c -> faithful (deflateAndWrite k data c).1.
Proof.
  intros Hd Hc. unfold deflateAndWrite. destruct data as [| b data]; [done |]. unfold faithful, texts, sent_bytes in *.
  destruct (c_deflater c) as [d |] eqn:E.
  - assert (Hr : (forall i, c_wr c i <> FeedFails) -> c_wr c (length (c_log c)) <> FeedFails) by auto.
    destruct (c_wr c (length (c_log c))); cbn [fst c_wr c_log c_deflater]; [.. | by intros H%Hr];
      destruct (deflate d _) as [d' y] eqn:Ey; cbn [fst c_wr c_log c_deflater]; intros H; destruct (Hc H) as [Hw He];
      rewrite !fmap_app; cbn [fmap list_fmap s_plain s_raw]; (split; [apply Forall_app; split; [done | by apply Forall_singleton] |]);
      by rewrite deflate_all_snoc, He, Ey.
  - cbn [fst]. match goal with |- context [{ c with c_log := ?l }] => change ({ c with c_log := l }) with (mkConn (c_transport c) (c_deflater c) (c_wr c) l) end.
    cbn [c_wr c_log c_deflater]. intros H. destruct (Hc H) as [Hw He]. rewrite E. rewrite !fmap_app. cbn [fmap list_fmap s_plain s_raw].
    split; [apply Forall_app; split; [done | by apply Forall_singleton] | by rewrite He].
Qed.
End Compressed.

(** ** The session of the server *)

Section Session.
Context `{CRY : Crypto} `{SH : Sha256} `{B64 : EvpBase64} `{ED : Ed25519} `{ZL : Zlib, ZLL : !ZlibLaws ZL} `{IN : Inet} `{HASH : StdHash}.

#[local] Existing Instance zlib_deflater.
#[local] Existing Instance zlib_inflater.

(** The lines a connection carries. *)
Definition written (c : Conn) : list str := concat (lines <$> texts c).

(** The server decompresses exactly when the client compresses. *)
Definition opened (c : Conn) : option (@ZState zlib_inflater) := match c_deflater c with Some _ => Some (zInflateInit : @ZState zlib_inflater) | None => None end.

Definition below_4GiB (x : str) : Prop := Z.of_nat (length x) < 2 ^ 32.

Lemma decode_plain rs : decode (IF := zlib_inflater) None rs = Some (concat rs, None).
Proof. induction rs as [| r rs IH]; [done |]. cbn [decode]. by rewrite IH. Qed.

(** What the decompressor makes of a part of a connection's bytes. *)
Lemma carried_text (c : Conn) (rs : list str) (rest : str) :
  faithful c -> (forall i, c_wr c i <> FeedFails) -> Forall below_4GiB (texts c) -> Forall below_4GiB rs ->
  concat rs ++ rest = concat (sent_bytes c) ->
  exists t z, decode (opened c) rs = Some (t, z) /\ t `prefix_of` concat (texts c) /\
    forall k, concat (take k (sent_bytes c)) `prefix_of` concat rs -> concat (take k (texts c)) `prefix_of` t.
Proof.
  intros Hc Hf Ht Hr He. destruct (Hc Hf) as [Hw Hs]. unfold opened. destruct (c_deflater c) as [d |].
  - assert (Hfits : Forall fits (texts c)) by (apply Forall_forall; intros x Hx; rewrite Forall_forall in Hw, Ht; split; [by apply Hw | by apply Ht]).
    assert (E : sent_bytes c = (deflate_all deflateInit (texts c)).2) by (by rewrite Hs). rewrite E in He |- *.
    destruct (zlib_transparent (texts c) rs rest Hfits Hr He) as (t & z & ? & ? & ?). by exists t, (Some z).
  - exists (concat rs), None. split; [apply decode_plain |]. rewrite Hs in *. rewrite <- He. split; [by eexists | done].
Qed.

Lemma take_prefix_lines c k : Forall whole (texts c) -> concat (lines <$> take k (texts c)) = lines (concat (take k (texts c))).
Proof. intros H. symmetry. apply lines_concat. by apply Forall_take. Qed.

(** C2: the server handles what the client writes. Take any connection of any
    run of a client whose compressor works, and let the server receive any
    part of its bytes from the start, cut in any way. After any rounds of its
    loop, the lines the session has handled are the first of the lines that
    the client wrote in that connection; all lines of a write whose bytes have
    arrived are handled; and no line is pending or missing when all have. *)
Theorem writes_handled (roots : RootSet) (cfg : ClientConfig) (st : CtrlState) (evs : list Event) (c : Conn)
  (wire : WireConfig) (clientId clientIp : str) (start : Z) (rs : list WireLoop.Round) (ws ws' : Shared * Session) z' buffer (missing : str) :
  let s := client_run (DF := zlib_deflater) roots cfg st evs in
  (forall m, m ∈ all_packets evs -> key_printable (key_of m)) ->
  c ∈ past s ++ option_list (conn s) -> (forall i, c_wr c i <> FeedFails) -> Forall below_4GiB (texts c) ->
  Forall below_4GiB (WireLoop.received rs) -> concat (WireLoop.received rs) ++ missing = concat (sent_bytes c) ->
  run wire clientId clientIp (IF := zlib_inflater) start rs ws (opened c) [] = Continue ws' z' buffer ->
  exists acts, exec_acts wire clientId clientIp acts ws = Some ws' /\
    let handled := concat (act_line <$> acts) in
    handled `prefix_of` written c /\
    (forall k, concat (take k (sent_bytes c)) `prefix_of` concat (WireLoop.received rs) -> concat (lines <$> take k (texts c)) `prefix_of` handled) /\
    (missing = [] -> handled = written c /\ buffer = []).
Proof.
  intros s Hm Hin Hf Ht Hr He HR.
  assert (Hc : faithful c).
  { destruct (run_kept (DF := zlib_deflater) roots faithful faithful_new (fun c t H => H) faithful_write cfg st evs Hm) as (_ & Hp & Hn).
    apply elem_of_app in Hin as [Hin | Hin]; [rewrite Forall_forall in Hp; by apply Hp |]. fold s in Hn. destruct (conn s); [| by apply not_elem_of_nil in Hin].
    apply list_elem_of_singleton in Hin as ->. by apply Hn. }
  destruct (carried_text c (WireLoop.received rs) missing Hc Hf Ht Hr He) as (t & z & D & Tp & Tk).
  destruct (Hc Hf) as [Hw _]. assert (Hwh : Forall whole (texts c)) by (eapply Forall_impl; [exact Hw | by intros x [_ ?]]).
  apply run_acts in HR as (t' & acts & D' & X & Sp); [| apply not_elem_of_nil]. rewrite D in D'. injection D' as <- _.
  assert (El : concat (act_line <$> acts) = lines t) by (unfold lines; cbn [app] in Sp; by rewrite <- Sp).
  exists acts. split; [done |]. cbv zeta. rewrite El. unfold written. split_conj.
  - rewrite <- lines_concat by done. by apply lines_prefix.
  - intros k Hk%Tk. rewrite take_prefix_lines by done. by apply lines_prefix.
  - intros ->. rewrite app_nil_r in He. assert (Et : t = concat (texts c)).
    { specialize (Tk (length (c_log c))). unfold sent_bytes, texts in *. rewrite !take_ge in Tk by (by rewrite length_fmap). rewrite He in Tk.
      by apply (anti_symm prefix); [| apply Tk]. }
    rewrite Et in *. split; [by apply lines_concat |]. pose proof (whole_rest _ (whole_concat _ Hwh)) as E. cbn [app] in Sp. by rewrite <- Sp in E.
Qed.
End Session.

(** ** A run *)

#[local] Instance sample_codec64 : EvpBase64 := { EncodeBlock s := s; DecodeBlock s := Some s }.
#[local] Existing Instance zlib_deflater.

#[local] Abbreviation sample_conf := { default_config with ClientConf.identityPath := ("id.pem" : str) }.

#[local] Abbreviation sample_meta := (mkPacketMeta "eth0" "10.0.0.1" "8.8.8.8" 700).

(** A client that connects with compression, announces its address and sends
    one flow. *)
#[local] Abbreviation sample_events :=
  [Packet sample_meta;
     Sender.Round (mkEnv [] 100000000000 100000000000 100000000000 false
       (mkAttempt true (IdentityKey sample_priv) [Some sample_nonce; Some [byte_of 0]; Some [byte_of 1]] ["10.0.0.2" : str] [] (fun _ => Wrote)
         100000000000 100000000000) NotReady (fun _ => mkCtrlEnv sample_now all_open false sample_env true (fun _ => true)))].

#[local] Abbreviation sample_client :=
  (client_run (DF := zlib_deflater) sample_roots sample_conf
    (mkCtrl ∅ (mkLogger "/var/log/ntm" (nameForDate "2026-03-02") true 0 "2026-03-02" true LInfo) sample_upd) sample_events).

#[local] Abbreviation sample_conn := (default (mkConn Tcp None (fun _ => Wrote) []) (conn sample_client)).

(** The bytes of the connection in two pieces, cut inside a line. *)
#[local] Abbreviation sample_pieces :=
  (let ys := concat (sent_bytes sample_conn) in
   [mkRound true (sample_clock 100) (Data (take 20 ys)) (fun _ => sample_clock 100);
    mkRound true (sample_clock 101) Retry (fun _ => sample_clock 101);
    mkRound true (sample_clock 102) (Data (drop 20 ys)) (fun _ => sample_clock 102)]).

#[local] Abbreviation sample_session_run :=
  (run sample_wire_config "c1" "203.0.113.9" (IF := zlib_inflater) (WireLoop.steady (sample_clock 100)) sample_pieces (sample_shared, sample_session)
    (opened sample_conn) []).

Lemma sample_packet_ok m : m ∈ all_packets sample_events -> key_printable (key_of m).
Proof. intros ->%list_elem_of_singleton. apply sample_key_printable. Qed.

Lemma sample_conn_there : sample_conn ∈ past sample_client ++ option_list (conn sample_client).
Proof.
  assert (H : is_Some (conn sample_client)) by (apply is_Some_check; vm_compute; reflexivity).
  destruct H as [c E]. rewrite E. apply elem_of_app. right. by left.
Qed.

Lemma sample_conn_small : Forall below_4GiB (texts sample_conn).
Proof.
  assert (H : forallb (fun x : str => Z.of_nat (length x) <? 2 ^ 32) (texts sample_conn) = true) by (vm_compute; reflexivity).
  apply List.Forall_forall. rewrite List.forallb_forall in H. intros x Hx. by apply Z.ltb_lt, H.
Qed.

Lemma writes_handled_witness :
  exists ws' acts, exec_acts sample_wire_config "c1" "203.0.113.9" acts (sample_shared, sample_session) = Some ws' /\
    concat (act_line <$> acts) = written sample_conn /\ length (written sample_conn) = 4%nat.
Proof.
  assert (H : match sample_session_run with Continue _ _ _ => true | _ => false end = true) by (vm_compute; reflexivity).
  destruct sample_session_run as [ws' z' buffer | |] eqn:E; [| discriminate H | discriminate H].
  assert (Hw : forall i, c_wr sample_conn i <> FeedFails).
  { intros i. change (c_wr sample_conn i) with ((fun _ : nat => Wrote) i). discriminate. }
  destruct (writes_handled sample_roots sample_conf _ sample_events sample_conn sample_wire_config "c1" "203.0.113.9" (WireLoop.steady (sample_clock 100)) sample_pieces (sample_shared, sample_session) ws' z' buffer []
    sample_packet_ok sample_conn_there Hw sample_conn_small) as (acts & X & _ & _ & Hall).
  - repeat constructor.
  - vm_compute. reflexivity.
  - exact E.
  - exists ws', acts. split; [exact X |]. split; [by apply Hall | vm_compute; reflexivity].
Defined.
