(* ===== verification/Sniffer.v ===== *)
(** Packet capture on the client ([client_impl.cpp]): the handler that turns a
    captured frame into a flow, the device statistics, the list of devices
    and the set of running sniffers. libpcap delivers frames, counters and
    devices; [inet_ntop] is a parameter. The theorems say that no frame makes
    the handler read past its captured bytes, what it makes of every frame,
    and that the running sniffers follow the devices. *)

From S2P Require Import Prelude CppString Wire FlowAggregator.
Local Open Scope Z_scope.

(** The C library's address printer: 4 and 16 bytes in network order. *)
Class InetNtop := { inet_ntop4 : str -> option str; inet_ntop6 : str -> option str }.

(** POSIX: addresses of the right size are printed, as one word of fewer than
    [INET6_ADDRSTRLEN] bytes. *)
Class InetNtopLaws (N : InetNtop) := {
  ntop4_prints a : length a = 4%nat -> exists t, inet_ntop4 a = Some t /\ printable 45 t;
  ntop6_prints a : length a = 16%nat -> exists t, inet_ntop6 a = Some t /\ printable 45 t
}.

(** ** Frames *)

Definition DLT_EN10MB : Z := 1.
Definition DLT_LINUX_SLL : Z := 113.
Definition DLT_LINUX_SLL2 : Z := 276.

(** The bytes captured of a frame; reading past them is undefined ([None]). *)
Definition read_bytes (pkt : str) (off n : nat) : option str :=
  if (off + n <=? length pkt)%nat then Some (take n (drop off pkt)) else None.

(** A 16-bit field in network order. *)
Definition read_u16 (pkt : str) (off : nat) : option Z :=
  let? b := read_bytes pkt off 2 in
  match b with [hi; lo] => Some (byte_val hi * 256 + byte_val lo) | _ => None end.

(* client_core.hpp:24-46 ipv4_header and ipv6_header *)
Definition ip_layout (isV6 : bool) : nat * nat * nat * nat := (* size, source, destination, address length *)
  if isV6 then (40, 8, 24, 16)%nat else (20, 12, 16, 4)%nat.

(** The offset of the IP header and its version; the inner [None] is an early
    return. *)
Definition by_type (off : nat) (et : Z) : option (bool * nat) :=
  if et =? 0x0800 then Some (false, off) else if et =? 0x86DD then Some (true, off) else None.

(* client_impl.cpp:866-893 handlePacket, link layer *)
Definition link_layer (linkType : Z) (pkt : str) : option (option (bool * nat)) :=
  let caplen := length pkt in
  if linkType =? DLT_EN10MB then
    if (caplen <? 14)%nat then Some None else let? et := read_u16 pkt 12 in Some (by_type 14 et)
  else if (linkType =? DLT_LINUX_SLL) || (linkType =? DLT_LINUX_SLL2) then
    if (caplen <? 16)%nat then Some None else let? proto := read_u16 pkt 14 in Some (by_type 16 proto)
  else Some None.

(** [None]: a read past the captured bytes; [Some None]: the frame is ignored. *)
(* client_impl.cpp:859-919 handlePacket *)
Definition handlePacket `{InetNtop} (running : bool) (linkType : Z) (label : str) (len : Z) (pkt : str) : option (option PacketMeta) :=
  if negb running then Some None
  else
    let? l3 := link_layer linkType pkt in
    match l3 with
    | None => Some None
    | Some (isV6, l3Off) =>
        let '(size, src, dst, n) := ip_layout isV6 in
        if (length pkt <? l3Off + size)%nat then Some None
        else
          let? srcAddr := read_bytes pkt (l3Off + src) n in
          let? dstAddr := read_bytes pkt (l3Off + dst) n in
          let ntop := if isV6 then inet_ntop6 else inet_ntop4 in
          match ntop srcAddr, ntop dstAddr with
          | Some srcBuf, Some dstBuf => Some (Some (mkPacketMeta label srcBuf dstBuf len))
          | _, _ => Some None
          end
    end.

(** ** Statistics *)

(** The sniffer's last counts and the second it read them. *)
Record StatsState := mkStats { lastStatsSec : Z; prevRecv : Z; prevDrop : Z }.

(** [ps]: what [pcap_stats] reports, [None] when it fails; the result adds the
    amounts passed to [addPcapStats]. *)
(* client_impl.cpp:974-988 run, statistics *)
Definition stats_poll (nowSec : Z) (ps : option (Z * Z)) (s : StatsState) : StatsState * option (Z * Z) :=
  if 30 <=? nowSec - lastStatsSec s then
    match ps with
    | Some (recv, drop) => (mkStats nowSec recv drop, Some (u32 (recv - prevRecv s), u32 (drop - prevDrop s)))
    | None => (mkStats nowSec (prevRecv s) (prevDrop s), None)
    end
  else (s, None).

(** ** Devices *)

Record Device := mkDevice { d_name : option str; d_loopback : bool; d_addresses : bool; d_description : option str }.

(* client_linux.cpp:248-254 isLoopbackIface *)
Definition isLoopbackIface (d : Device) : bool :=
  d_loopback d || bool_decide (d_name d = Some ("lo" : str)).

Definition space_to_dash (c : ascii) : ascii := if decide (c = SP) then "-"%char else c.

(* client_impl.cpp:1105-1108 runClient, label *)
Definition device_label (name : str) (d : Device) : str :=
  map space_to_dash (match d_description d with Some (c :: r) => c :: r | _ => name end).

(** [emplace] keeps the first entry of a name. *)
(* client_impl.cpp:1098-1109 runClient, one device *)
Definition add_device (out : gmap str str) (d : Device) : gmap str str :=
  match d_name d with
  | None => out
  | Some name =>
      if isLoopbackIface d || negb (d_addresses d) then out
      else match out !! name with Some _ => out | None => <[name := device_label name d]> out end
  end.

(** [None]: [pcap_findalldevs] failed. *)
(* client_impl.cpp:1088-1113 runClient, enumerateDesired *)
Definition enumerateDesired (devs : option (list Device)) : option (gmap str str) := foldl add_device ∅ <$> devs.

(** A sniffer: its label, and whether its thread still captures. *)
Record Sniffer := mkSniffer { sn_label : str; sn_alive : bool }.

(** The running sniffers by device. *)
(* client_impl.cpp:1119-1141 runClient, syncSniffers *)
Definition syncSniffers (desired : gmap str str) (sniffers : gmap str Sniffer) : gmap str Sniffer :=
  let kept := filter (fun kv => is_Some (desired !! kv.1)) sniffers in
  map_fold (fun name label m => match m !! name with Some _ => m | None => <[name := mkSniffer label true]> m end) kept desired.

(** One second of the main loop. *)
(* client_impl.cpp:1158-1168 runClient, rescan *)
Definition rescan_tick (devs : option (list Device)) (st : Z * gmap str Sniffer) : Z * gmap str Sniffer :=
  let (sinceScanSec, sniffers) := st in
  let sinceScanSec := sinceScanSec + 1 in
  if sinceScanSec <? 30 then (sinceScanSec, sniffers)
  else match enumerateDesired devs with
       | Some d2 => (0, syncSniffers d2 sniffers)
       | None => (0, sniffers)
       end.

(** ** Lemmas: reads *)

Lemma read_bytes_some pkt off n : (off + n <= length pkt)%nat -> read_bytes pkt off n = Some (take n (drop off pkt)).
Proof. intros H. unfold read_bytes. by rewrite (proj2 (Nat.leb_le _ _)). Qed.

Lemma read_bytes_size pkt off n b : read_bytes pkt off n = Some b -> length b = n.
Proof.
  unfold read_bytes. destruct (_ <=? _)%nat eqn:E; [| done]. bool_to_prop. intros [= <-]. rewrite length_take, length_drop. lia.
Qed.

Lemma read_u16_some pkt off : (off + 2 <= length pkt)%nat -> is_Some (read_u16 pkt off).
Proof.
  intros H. unfold read_u16. rewrite read_bytes_some by done. pose proof (read_bytes_size pkt off 2 _ (read_bytes_some pkt off 2 H)) as L.
  destruct (take 2 (drop off pkt)) as [| a [| b [| ? ?]]]; try discriminate L. by eexists.
Qed.

Lemma by_type_shape off et v o : by_type off et = Some (v, o) -> o = off.
Proof. unfold by_type. destruct (_ =? _); [by intros [= _ <-] |]. destruct (_ =? _); [by intros [= _ <-] | done]. Qed.

Lemma link_layer_defined lt pkt : is_Some (link_layer lt pkt).
Proof.
  unfold link_layer. destruct (lt =? DLT_EN10MB); [| destruct (_ || _); [| done]]; (destruct (_ <? _)%nat eqn:E; [done |]; bool_to_prop);
    [destruct (read_u16_some pkt 12) as [x ->]; [lia | done] | destruct (read_u16_some pkt 14) as [x ->]; [lia | done]].
Qed.

(** ** Frames and what becomes of them *)

(** An IP packet: the header around the addresses, and what follows. *)
Inductive Ip := V4 (head src dst rest : str) | V6 (head src dst rest : str).

Definition ip_ok (p : Ip) : Prop :=
  match p with
  | V4 head src dst _ => length head = 12%nat /\ length src = 4%nat /\ length dst = 4%nat
  | V6 head src dst _ => length head = 8%nat /\ length src = 16%nat /\ length dst = 16%nat
  end.

Definition ip_bytes (p : Ip) : str :=
  match p with V4 head src dst rest | V6 head src dst rest => head ++ src ++ dst ++ rest end.

Definition ip_size (p : Ip) : nat := match p with V4 _ _ _ _ => 20 | V6 _ _ _ _ => 40 end.

Definition ip_type (p : Ip) : str := match p with V4 _ _ _ _ => [byte_of 0x08; byte_of 0x00] | V6 _ _ _ _ => [byte_of 0x86; byte_of 0xDD] end.

(** The link header up to the type field: 12 bytes of addresses on Ethernet,
    14 bytes of a cooked capture. *)
Definition link_head (linkType : Z) : option nat :=
  if linkType =? DLT_EN10MB then Some 12%nat else if linkType =? DLT_LINUX_SLL then Some 14%nat else None.

Definition ip_meta `{InetNtop} (label : str) (len : Z) (p : Ip) : option PacketMeta :=
  match p with
  | V4 _ src dst _ => match inet_ntop4 src, inet_ntop4 dst with Some a, Some b => Some (mkPacketMeta label a b len) | _, _ => None end
  | V6 _ src dst _ => match inet_ntop6 src, inet_ntop6 dst with Some a, Some b => Some (mkPacketMeta label a b len) | _, _ => None end
  end.

Lemma read_at (a b c : str) off n : length a = off -> length b = n -> read_bytes (a ++ b ++ c) off n = Some b.
Proof.
  intros <- <-. rewrite read_bytes_some by (rewrite !length_app; lia). f_equal. rewrite drop_app_length. by rewrite take_app_length.
Qed.

Section Frames.
Context `{NT : InetNtop}.

Lemma link_layer_frame lt h head ty rest : link_head lt = Some h -> length head = h -> length ty = 2%nat ->
  link_layer lt (head ++ ty ++ rest) = (fun et => by_type (h + 2) et) <$> read_u16 ty 0.
Proof.
  unfold link_head, link_layer. intros Hl Hh Ht.
  assert (R : read_u16 (head ++ ty ++ rest) h = read_u16 ty 0).
  { unfold read_u16. rewrite (read_at head ty rest h 2) by done. change ty with ([] ++ ty) at 2. rewrite <- (app_nil_r ty) at 2. by rewrite (read_at [] ty [] 0 2). }
  assert (Hlen : (h + 2 <= length (head ++ ty ++ rest))%nat) by (rewrite !length_app; lia).
  destruct (lt =? DLT_EN10MB) eqn:E1.
  - injection Hl as <-. rewrite (proj2 (Nat.ltb_ge _ _)) by (cbn in Hlen; lia). rewrite R. by destruct (read_u16 ty 0).
  - destruct (lt =? DLT_LINUX_SLL) eqn:E2; [| done]. injection Hl as <-. cbn [orb].
    rewrite (proj2 (Nat.ltb_ge _ _)) by (cbn in Hlen; lia). rewrite R. by destruct (read_u16 ty 0).
Qed.

Definition version_of (p : Ip) : bool := match p with V4 _ _ _ _ => false | V6 _ _ _ _ => true end.

Lemma ip_link lt h head p rest : link_head lt = Some h -> length head = h ->
  link_layer lt (head ++ ip_type p ++ rest) = Some (Some (version_of p, (h + 2)%nat)).
Proof. intros Hl Hh. rewrite (link_layer_frame lt h) by (done || by destruct p). by destruct p. Qed.

Lemma whole_frame lt h head p label len : link_head lt = Some h -> length head = h -> ip_ok p ->
  handlePacket true lt label len (head ++ ip_type p ++ ip_bytes p) = Some (ip_meta label len p).
Proof.
  intros Hl Hh Hp. unfold handlePacket. cbn [negb]. rewrite (ip_link lt h) by done. cbn iota beta.
  assert (Ht : length (ip_type p) = 2%nat) by by destruct p.
  assert (A : forall (a x c : str) off n, ip_bytes p = a ++ x ++ c -> length a = off -> length x = n ->
     read_bytes (head ++ ip_type p ++ ip_bytes p) (h + 2 + off) n = Some x).
  { intros a x c off n -> Ha Hx. replace (head ++ ip_type p ++ a ++ x ++ c) with ((head ++ ip_type p ++ a) ++ x ++ c) by (by rewrite <- !app_assoc).
    apply read_at; [rewrite !length_app; lia | done]. }
  destruct p as [hd src dst rest | hd src dst rest]; destruct Hp as (H1 & H2 & H3); cbn [version_of ip_layout].
  - rewrite (proj2 (Nat.ltb_ge _ _)) by (cbn [ip_bytes]; rewrite !length_app; lia).
    rewrite (A hd src (dst ++ rest)) by done. rewrite (A (hd ++ src) dst rest) by (try done; cbn [ip_bytes]; rewrite ?length_app, <- ?app_assoc; (done || lia)).
    cbn [ip_meta]. by destruct (inet_ntop4 src), (inet_ntop4 dst).
  - rewrite (proj2 (Nat.ltb_ge _ _)) by (cbn [ip_bytes]; rewrite !length_app; lia).
    rewrite (A hd src (dst ++ rest)) by done. rewrite (A (hd ++ src) dst rest) by (try done; cbn [ip_bytes]; rewrite ?length_app, <- ?app_assoc; (done || lia)).
    cbn [ip_meta]. by destruct (inet_ntop6 src), (inet_ntop6 dst).
Qed.

Lemma short_frame lt h head p label len n : link_head lt = Some h -> length head = h -> (n < h + 2 + ip_size p)%nat ->
  handlePacket true lt label len (take n (head ++ ip_type p ++ ip_bytes p)) = Some None.
Proof.
  intros Hl Hh Hn. unfold handlePacket. cbn [negb]. destruct (decide (n < h + 2)%nat) as [Hs | Hs].
  - assert (L : (length (take n (head ++ ip_type p ++ ip_bytes p)) < h + 2)%nat) by (rewrite length_take; lia).
    unfold link_layer. unfold link_head in Hl. destruct (lt =? DLT_EN10MB); [injection Hl as <- | destruct (lt =? DLT_LINUX_SLL); [injection Hl as <- | done]];
      cbn [orb]; by rewrite (proj2 (Nat.ltb_lt _ _)) by (cbn in L; lia).
  - assert (Ht : length (ip_type p) = 2%nat) by by destruct p.
    assert (E : take n (head ++ ip_type p ++ ip_bytes p) = head ++ ip_type p ++ take (n - (h + 2)) (ip_bytes p)).
    { rewrite take_app_ge by lia. f_equal. rewrite take_app_ge by lia. f_equal. f_equal. lia. }
    rewrite E, (ip_link lt h) by done. cbn iota beta.
    destruct p; cbn [version_of ip_layout ip_size] in *; by rewrite (proj2 (Nat.ltb_lt _ _)) by (rewrite !length_app, length_take; lia).
Qed.

Lemma ip_meta_rest label len p n : ip_ok p ->
  exists p', ip_ok p' /\ ip_type p' = ip_type p /\ ip_bytes p' = take (ip_size p + n) (ip_bytes p) /\ ip_meta label len p' = ip_meta label len p.
Proof.
  intros Hp. destruct p as [hd src dst rest | hd src dst rest]; [exists (V4 hd src dst (take n rest)) | exists (V6 hd src dst (take n rest))];
    (split; [exact Hp |]; split; [done |]; split; [| done]); destruct Hp as (H1 & H2 & H3); cbn [ip_bytes ip_size];
    rewrite (take_app_ge hd), (take_app_ge src), (take_app_ge dst) by lia; do 4 f_equal; lia.
Qed.

(** C24: capture: no frame, of whatever link type and length, makes the handler
    read past the bytes that were captured of it; and an Ethernet or cooked
    frame with an IPv4 or IPv6 packet, cut anywhere, counts the length on the
    wire under the addresses of its IP header as soon as that header is
    complete, and nothing before. *)
Theorem frames_measured :
  (forall running lt label len pkt, is_Some (handlePacket running lt label len pkt)) /\
  (forall lt h head p label len n, link_head lt = Some h -> length head = h -> ip_ok p ->
     handlePacket true lt label len (take n (head ++ ip_type p ++ ip_bytes p))
     = Some (if (h + 2 + ip_size p <=? n)%nat then ip_meta label len p else None)).
Proof.
  split.
  - intros running lt label len pkt. unfold handlePacket. destruct running; [| by eexists]. cbn [negb].
    destruct (link_layer_defined lt pkt) as [[[v o] |] ->]; [| by eexists]. destruct v; cbn [ip_layout];
      (destruct (_ <? _)%nat eqn:E; [by eexists |]; bool_to_prop; rewrite !read_bytes_some by lia; repeat case_match; by eexists).
  - intros lt h head p label len n Hl Hh Hp. destruct (h + 2 + ip_size p <=? n)%nat eqn:E; bool_to_prop; [| by apply (short_frame lt h)].
    destruct (ip_meta_rest label len p (n - (h + 2 + ip_size p)) Hp) as (p' & Hp' & Et & Eb & <-).
    rewrite <- (whole_frame lt h head p' label len) by done. f_equal. rewrite Et, Eb.
    assert (Ht : length (ip_type p) = 2%nat) by by destruct p.
    rewrite take_app_ge by lia. f_equal. rewrite take_app_ge by lia. do 2 f_equal. lia.
Qed.
End Frames.

(** What is captured can be sent: one word per address, and a label that fits
    the line. *)
Lemma captured_printable `{NT : InetNtop} `{!InetNtopLaws NT} label len p : ip_ok p -> printable 64 label ->
  exists m, ip_meta label len p = Some m /\ key_printable (key_of m) /\ pm_bytes m = len.
Proof.
  intros Hp Hl. assert (W : forall t, printable 45 t -> printable 46 t) by (intros t (? & ? & ?); split; [done | split; [done | lia]]).
  destruct p as [hd src dst rest | hd src dst rest]; destruct Hp as (_ & H2 & H3); cbn [ip_meta].
  - destruct (ntop4_prints src H2) as (a & -> & Ha), (ntop4_prints dst H3) as (b & -> & Hb). eexists. split; [done |]. split; [| done]. split; [exact Hl | split; by apply W].
  - destruct (ntop6_prints src H2) as (a & -> & Ha), (ntop6_prints dst H3) as (b & -> & Hb). eexists. split; [done |]. split; [| done]. split; [exact Hl | split; by apply W].
Qed.

(** A frame of a version 2 cooked capture has its type in bytes 0 and 1 and its
    packet at byte 20; the handler reads it as version 1. *)
Lemma sll2_ignored `{NT : InetNtop} label len (p : Ip) :
  let header := ip_type p ++ repeat NUL 18 in handlePacket true DLT_LINUX_SLL2 label len (header ++ ip_bytes p) = Some None.
Proof. by destruct p. Qed.

(** ** Lemmas: statistics and devices *)

(** The amounts passed on are those the device counted since the last reading,
    whether or not its 32-bit counters have wrapped. *)
Lemma stats_poll_exact now r d r' d' (s : StatsState) :
  prevRecv s = u32 r -> prevDrop s = u32 d -> 30 <= now - lastStatsSec s -> 0 <= r' - r < 2 ^ 32 -> 0 <= d' - d < 2 ^ 32 ->
  stats_poll now (Some (u32 r', u32 d')) s = (mkStats now (u32 r') (u32 d'), Some (r' - r, d' - d)).
Proof.
  intros Er Ed Hn Hr Hd. unfold stats_poll. rewrite (proj2 (Z.leb_le _ _)), Er, Ed by done.
  assert (E : forall x y, 0 <= x - y < 2 ^ 32 -> u32 (u32 x - u32 y) = x - y).
  { intros x y H. unfold u32 in *. rewrite <- Zminus_mod. by apply Z.mod_small. }
  by rewrite !E.
Qed.

Definition eligible (d : Device) : bool := negb (isLoopbackIface d) && d_addresses d.

Lemma add_device_lookup out d name :
  add_device out d !! name =
    match out !! name with
    | Some l => Some l
    | None => if bool_decide (d_name d = Some name) && eligible d then Some (device_label name d) else None
    end.
Proof.
  unfold add_device, eligible. destruct (d_name d) as [n |]; [| by destruct (out !! name)].
  destruct (decide (n = name)) as [-> | Hn].
  - rewrite bool_decide_true by done. destruct (isLoopbackIface d), (d_addresses d); cbn; destruct (out !! name) eqn:E; try done;
      try by rewrite E. by rewrite lookup_insert_eq.
  - rewrite bool_decide_false by congruence. cbn [andb]. destruct (_ || _); [by destruct (out !! name) |].
    destruct (out !! n); [by destruct (out !! name) |]. rewrite lookup_insert_ne by done. by destruct (out !! name).
Qed.

Lemma enumerate_lookup devs name : forall out,
  foldl add_device out devs !! name =
    match out !! name with
    | Some l => Some l
    | None => (fun p => device_label name p.2) <$> list_find (fun d => bool_decide (d_name d = Some name) && eligible d = true) devs
    end.
Proof.
  induction devs as [| d devs IH]; intros out; cbn [foldl list_find]; [by destruct (out !! name) |]. rewrite IH, add_device_lookup.
  destruct (out !! name); [done |]. destruct (bool_decide (d_name d = Some name) && eligible d) eqn:E; [by rewrite decide_True |].
  rewrite decide_False by done. by destruct (list_find _ devs) as [[? ?] |].
Qed.

Lemma merge_lookup (m : gmap str str) (acc : gmap str Sniffer) name :
  map_fold (fun n label r => match r !! n with Some _ => r | None => <[n := mkSniffer label true]> r end) acc m !! name =
    match acc !! name with Some x => Some x | None => (fun l => mkSniffer l true) <$> m !! name end.
Proof.
  revert name.
  apply (map_fold_weak_ind (fun r m => forall name, r !! name = match acc !! name with Some x => Some x | None => (fun l => mkSniffer l true) <$> m !! name end)).
  - intros name. rewrite lookup_empty. by destruct (acc !! name).
  - intros n l m' r Hn IH name. pose proof (IH n) as In. rewrite Hn in In. destruct (decide (n = name)) as [-> | Hne].
    + rewrite lookup_insert_eq. destruct (acc !! name) as [x |]; cbn in In; rewrite In; [exact In | by rewrite lookup_insert_eq].
    + rewrite (lookup_insert_ne m') by done. destruct (r !! n); [apply IH |]. rewrite lookup_insert_ne by done. apply IH.
Qed.

Lemma quiet_ticks earlier : forall since (sniffers : gmap str Sniffer), since + Z.of_nat (length earlier) < 30 ->
  foldl (fun st d => rescan_tick d st) (since, sniffers) earlier = (since + Z.of_nat (length earlier), sniffers).
Proof.
  induction earlier as [| d l IH]; intros since sn H; cbn [foldl length]; [by rewrite Z.add_0_r |]. cbn [length] in H. rewrite Nat2Z.inj_succ in *.
  cbn [rescan_tick]. rewrite (proj2 (Z.ltb_lt _ _)) by lia. rewrite IH by lia. f_equal. lia.
Qed.

Lemma device_label_no_space name d : SP ∉ device_label name d.
Proof.
  unfold device_label. generalize (match d_description d with Some (c :: r) => c :: r | _ => name end). intros t Hin.
  apply list_elem_of_In, in_map_iff in Hin as (c & E & _). unfold space_to_dash in E. case_decide; [discriminate E | congruence].
Qed.

Lemma sync_lookup desired sniffers name :
  syncSniffers desired sniffers !! name =
    (fun label => default (mkSniffer label true) (sniffers !! name)) <$> desired !! name.
Proof.
  unfold syncSniffers.
  set (kept := filter _ sniffers).
  assert (K : kept !! name = match desired !! name with Some _ => sniffers !! name | None => None end).
  { subst kept. destruct (desired !! name) eqn:E, (sniffers !! name) eqn:E2.
    - apply map_lookup_filter_Some. cbn. rewrite E. by split.
    - apply map_lookup_filter_None. by left.
    - apply map_lookup_filter_None. right. cbn. rewrite E. intros ? _ [? ?]. done.
    - apply map_lookup_filter_None. by left. }
  clearbody kept.
  rewrite (merge_lookup desired kept name), K. destruct (desired !! name) as [l |]; [| done]. by destruct (sniffers !! name).
Qed.

Lemma enumerated devs name : is_Some (foldl add_device ∅ devs !! name) <-> exists d, d ∈ devs /\ d_name d = Some name /\ eligible d = true.
Proof.
  rewrite enumerate_lookup, lookup_empty, fmap_is_Some. split.
  - intros [[i d] H]. apply list_find_Some in H as (Hi & [H1%bool_decide_eq_true H2]%andb_true_iff & _). exists d.
    split; [by eapply list_elem_of_lookup_2 | done].
  - intros (d & Hd & H1 & H2). eapply list_find_elem_of; [exact Hd |]. by rewrite bool_decide_true.
Qed.

Lemma sync_empty desired name : is_Some (syncSniffers desired ∅ !! name) <-> is_Some (desired !! name).
Proof. by rewrite sync_lookup, fmap_is_Some. Qed.

(** The sniffers follow the devices: from any state of the one-second loop,
    by the end of the scan period there is a sniffer for exactly the devices
    of that scan that have a name, an address and are not the loopback; those
    that ran before go on untouched, the others are new and carry the label of
    the first such device, without spaces. *)
Lemma sniffers_follow (since : Z) (sniffers : gmap str Sniffer) (earlier : list (option (list Device))) (devs : list Device) :
  0 <= since < 30 -> Z.of_nat (length earlier) = 29 - since ->
  let '(since', sniffers') := foldl (fun st d => rescan_tick d st) (since, sniffers) (earlier ++ [Some devs]) in
  since' = 0 /\
  (forall name, is_Some (sniffers' !! name) <-> exists d, d ∈ devs /\ d_name d = Some name /\ eligible d = true) /\
  (forall name s, sniffers' !! name = Some s ->
     sniffers !! name = Some s \/
     (sniffers !! name = None /\ sn_alive s = true /\ SP ∉ sn_label s /\
      exists i d, list_find (fun d => bool_decide (d_name d = Some name) && eligible d = true) devs = Some (i, d) /\ sn_label s = device_label name d)).
Proof.
  intros Hs Hl. rewrite foldl_app, quiet_ticks by lia. cbn [foldl rescan_tick]. rewrite (proj2 (Z.ltb_ge _ _)) by lia.
  cbn [enumerateDesired fmap option_fmap option_map]. split; [done |]. split.
  - intros name. by rewrite sync_lookup, fmap_is_Some, enumerated.
  - intros name s. rewrite sync_lookup, enumerate_lookup, lookup_empty.
    destruct (list_find _ devs) as [[i d] |]; [| done]. cbn. intros [= <-]. destruct (sniffers !! name) as [s |]; [by left | right].
    split; [done |]. split; [done |]. split; [apply device_label_no_space | by exists i, d].
Qed.

Lemma sniffers_follow_witness :
  let devs := [mkDevice (Some ("lo" : str)) true true None; mkDevice (Some ("eth0" : str)) false true (Some ("Intel Net" : str))] in
  is_Some ((foldl (fun st d => rescan_tick d st) (28, ∅) ([None] ++ [Some devs])).2 !! ("eth0" : str)).
Proof.
  cbv zeta.
  pose proof (sniffers_follow 28 ∅ [None] [mkDevice (Some ("lo" : str)) true true None; mkDevice (Some ("eth0" : str)) false true (Some ("Intel Net" : str))]
    ltac:(lia) ltac:(reflexivity)) as H.
  destruct (foldl _ _ _) as [n m]. destruct H as (_ & H & _). apply H. eexists. split; [right; left |]. split; reflexivity.
Defined.

(** ** Shown by the model *)

(** A sniffer whose thread has ended, on an error of the device, stays in the
    table: no scan starts it again while the device exists. *)
Lemma dead_sniffer_kept desired sniffers name label old :
  desired !! name = Some label -> sniffers !! name = Some (mkSniffer old false) ->
  syncSniffers desired sniffers !! name = Some (mkSniffer old false).
Proof. intros Hd Hs. by rewrite sync_lookup, Hd, Hs. Qed.

Lemma frames_measured_witness :
  let N := Build_InetNtop (fun _ => Some ("10.0.0.1" : str)) (fun _ => None) in
  @handlePacket N true DLT_EN10MB "eth0" 1500 (take 60 (repeat NUL 12 ++ ip_type (V4 (repeat NUL 12) (repeat NUL 4) (repeat NUL 4) (repeat NUL 100)) ++
    ip_bytes (V4 (repeat NUL 12) (repeat NUL 4) (repeat NUL 4) (repeat NUL 100)))) = Some (Some (mkPacketMeta "eth0" "10.0.0.1" "10.0.0.1" 1500)).
Proof.
  cbv zeta. rewrite (proj2 (@frames_measured (Build_InetNtop (fun _ => Some ("10.0.0.1" : str)) (fun _ => None))) DLT_EN10MB 12%nat); reflexivity || by split_conj.
Defined.
