(* ===== verification/SnifferThread.v ===== *)
(** The two threads around a capture handle ([PacketSniffer] in
    [client_impl.cpp]): the worker that opens, publishes, uses, retires and
    closes it, and the thread that calls [stop]. A schedule is a list of steps
    of the two; the results of libpcap and exceptions are chosen freely. What
    the handler does with a packet is in [Sniffer]. *)

From S2P Require Import Prelude.
From stdpp Require Import list.

(** ** The state *)

Inductive Handle := Absent | Open | Closed.

Inductive Holder := Free | ByWorker | ByStopper.

(** Where the worker is: before [pcap_create], before [pcap_activate], at the
    lock, the assignment and the unlock of the block that publishes the handle,
    at the loop condition, before [pcap_dispatch], at the lock, the assignment
    and the unlock of the block that retires the handle, before [pcap_close], at
    its end. *)
Inductive RunPc := RCreate | RSetup | RPublish | RPublishing | RPublished | RLoop | RDispatch | RRetire | RRetiring | RRetired | RClose | RDone.

(** Where [stop] is: not called, at the lock, the test of [pcapHandle_], the
    call of [pcap_breakloop] and the unlock of its block, at the join,
    returned. *)
Inductive StopPc := SReady | SLock | STest | SInterrupt | SUnlock | SJoin | SReturned.

(** [member]: [pcapHandle_] is not null. [misuse]: libpcap was given a handle
    that is not open. *)
(* client_impl.cpp:1006-1013 PacketSniffer *)
Record St := mkSt { running : bool; pcapMutex : Holder; handle : Handle; member : bool; run_pc : RunPc; stop_pc : StopPc; misuse : bool }.

Definition is_open (h : Handle) : bool := match h with Open => true | _ => false end.
Definition used (s : St) : bool := misuse s || negb (is_open (handle s)).

(** The state that [start] leaves: the worker is about to run. *)
(* client_impl.cpp:831-836 PacketSniffer::start *)
Definition start : St := mkSt true Free Absent false RCreate SReady false.

(** ** The worker *)

Inductive Result := Works | Fails | Throws.

(** One step of the worker, [None] while it waits for the lock or is done. *)
(* client_impl.cpp:920-1004 PacketSniffer::run *)
Definition run_step (r : Result) (s : St) : option St :=
  let go pc := Some (mkSt (running s) (pcapMutex s) (handle s) (member s) pc (stop_pc s) (misuse s)) in
  match run_pc s with
  | RCreate =>
      match r with
      | Works => Some (mkSt (running s) (pcapMutex s) Open (member s) RSetup (stop_pc s) (misuse s))
      | Fails => go RDone
      | Throws => go RRetire
      end
  | RSetup =>
      match r with
      | Works => go RPublish
      | Fails => Some (mkSt (running s) (pcapMutex s) Closed (member s) RDone (stop_pc s) (used s))
      | Throws => go RRetire
      end
  | RPublish =>
      match pcapMutex s with
      | Free => Some (mkSt (running s) ByWorker (handle s) (member s) RPublishing (stop_pc s) (misuse s))
      | _ => None
      end
  | RPublishing => Some (mkSt (running s) (pcapMutex s) (handle s) true RPublished (stop_pc s) (misuse s))
  | RPublished => Some (mkSt (running s) Free (handle s) (member s) RLoop (stop_pc s) (misuse s))
  | RLoop => if running s then go RDispatch else go RRetire
  | RDispatch =>
      Some (mkSt (running s) (pcapMutex s) (handle s) (member s) (match r with Works => RLoop | _ => RRetire end) (stop_pc s) (used s))
  | RRetire =>
      match pcapMutex s with
      | Free => Some (mkSt (running s) ByWorker (handle s) (member s) RRetiring (stop_pc s) (misuse s))
      | _ => None
      end
  | RRetiring => Some (mkSt (running s) (pcapMutex s) (handle s) false RRetired (stop_pc s) (misuse s))
  | RRetired => Some (mkSt (running s) Free (handle s) (member s) RClose (stop_pc s) (misuse s))
  | RClose =>
      match handle s with
      | Absent => go RDone
      | _ => Some (mkSt (running s) (pcapMutex s) Closed (member s) RDone (stop_pc s) (used s))
      end
  | RDone => None
  end.

(** ** The stopping thread *)

(* client_impl.cpp:838-850 PacketSniffer::stop *)
Definition stop_step (s : St) : option St :=
  match stop_pc s with
  | SReady =>
      if running s then Some (mkSt false (pcapMutex s) (handle s) (member s) (run_pc s) SLock (misuse s))
      else Some (mkSt (running s) (pcapMutex s) (handle s) (member s) (run_pc s) SReturned (misuse s))
  | SLock =>
      match pcapMutex s with
      | Free => Some (mkSt (running s) ByStopper (handle s) (member s) (run_pc s) STest (misuse s))
      | _ => None
      end
  | STest =>
      Some (mkSt (running s) (pcapMutex s) (handle s) (member s) (run_pc s) (if member s then SInterrupt else SUnlock) (misuse s))
  | SInterrupt => Some (mkSt (running s) (pcapMutex s) (handle s) (member s) (run_pc s) SUnlock (used s))
  | SUnlock => Some (mkSt (running s) Free (handle s) (member s) (run_pc s) SJoin (misuse s))
  | SJoin => match run_pc s with RDone => Some (mkSt (running s) (pcapMutex s) (handle s) (member s) (run_pc s) SReturned (misuse s)) | _ => None end
  | SReturned => None
  end.

Inductive Ev := Worker (r : Result) | Stopper.

Definition step (ev : Ev) (s : St) : option St := match ev with Worker r => run_step r s | Stopper => stop_step s end.

(** A schedule of steps that can be taken. *)
Fixpoint exec (evs : list Ev) (s : St) : option St :=
  match evs with
  | [] => Some s
  | ev :: evs => let? s := step ev s in exec evs s
  end.

(** ** All states *)

Definition all_bool (P : bool -> bool) : bool := P true && P false.

(** The state space is finite: a test of all states. *)
Definition all_st (P : St -> bool) : bool :=
  all_bool (fun r => forallb (fun m => forallb (fun h => all_bool (fun b => forallb (fun p => forallb (fun q => all_bool (fun x =>
    P (mkSt r m h b p q x)))
    [SReady; SLock; STest; SInterrupt; SUnlock; SJoin; SReturned])
    [RCreate; RSetup; RPublish; RPublishing; RPublished; RLoop; RDispatch; RRetire; RRetiring; RRetired; RClose; RDone]))
    [Absent; Open; Closed]) [Free; ByWorker; ByStopper]).

Lemma all_bool_spec P : all_bool P = true -> forall b, P b = true.
Proof. intros [H1 H2]%andb_true_iff []; done. Qed.

Lemma all_st_spec P : all_st P = true -> forall s, P s = true.
Proof.
  intros H [r m h b p q x]. unfold all_st in H.
  pose proof (all_bool_spec _ H r) as H1. cbv beta in H1. rewrite forallb_forall in H1.
  specialize (H1 m ltac:(destruct m; cbn; tauto)). cbv beta in H1. rewrite forallb_forall in H1.
  specialize (H1 h ltac:(destruct h; cbn; tauto)). cbv beta in H1.
  pose proof (all_bool_spec _ H1 b) as H2. cbv beta in H2. rewrite forallb_forall in H2.
  specialize (H2 p ltac:(destruct p; cbn; tauto)). cbv beta in H2. rewrite forallb_forall in H2.
  specialize (H2 q ltac:(destruct q; cbn; tauto)). cbv beta in H2.
  exact (all_bool_spec _ H2 x).
Qed.

Definition all_results (P : Result -> bool) : bool := P Works && P Fails && P Throws.

Lemma all_results_spec P : all_results P = true -> forall r, P r = true.
Proof. unfold all_results. intros [[H1 H2]%andb_true_iff H3]%andb_true_iff []; done. Qed.

Definition after (P : St -> bool) (o : option St) : bool := match o with Some s => P s | None => true end.

(** Tests of all states and of all steps. *)
Lemma state_spec (P Q : St -> bool) : all_st (fun s => implb (P s) (Q s)) = true -> forall s, P s = true -> Q s = true.
Proof. intros H s Hp. pose proof (all_st_spec _ H s) as H1. cbv beta in H1. by rewrite Hp in H1. Qed.

Lemma step_spec (P : St -> bool) (Q : St -> St -> bool) :
  all_st (fun s => implb (P s) (all_results (fun r => after (Q s) (run_step r s)) && after (Q s) (stop_step s))) = true ->
  forall ev s s', P s = true -> step ev s = Some s' -> Q s s' = true.
Proof.
  intros H ev s s' Hp Hs. pose proof (state_spec _ _ H s Hp) as H1. cbv beta in H1. apply andb_true_iff in H1 as [H1 H2].
  destruct ev as [r |]; cbn [step] in Hs.
  - pose proof (all_results_spec _ H1 r) as H3. cbv beta in H3. by rewrite Hs in H3.
  - by rewrite Hs in H2.
Qed.

(** ** The invariant *)

Definition holds_lock (p : RunPc) : bool := match p with RPublishing | RPublished | RRetiring | RRetired => true | _ => false end.
Definition has_handle (p : RunPc) : bool := match p with RSetup | RPublish | RPublishing | RPublished | RLoop | RDispatch => true | _ => false end.
Definition published (p : RunPc) : bool := match p with RPublished | RLoop | RDispatch => true | _ => false end.
Definition retired (p : RunPc) : bool := match p with RRetired | RClose | RDone | RCreate | RSetup | RPublish | RPublishing => true | _ => false end.
Definition in_block (q : StopPc) : bool := match q with STest | SInterrupt | SUnlock => true | _ => false end.
Definition stopping (q : StopPc) : bool := match q with SReady => false | _ => true end.

(** The lock is where the threads say; the handle is open from its creation to its
    closing, and published only in between; [stop] runs while the flag
    is down, and has returned only when the worker has ended. *)
Definition inv (s : St) : bool :=
  eqb (match pcapMutex s with ByWorker => true | _ => false end) (holds_lock (run_pc s)) &&
  eqb (match pcapMutex s with ByStopper => true | _ => false end) (in_block (stop_pc s)) &&
  implb (match stop_pc s with SInterrupt => true | _ => false end) (member s) &&
  implb (has_handle (run_pc s)) (is_open (handle s)) &&
  implb (match run_pc s with RDone => true | _ => false end) (negb (is_open (handle s))) &&
  implb (match handle s with Closed => true | _ => false end) (match run_pc s with RDone => true | _ => false end) &&
  implb (match run_pc s with RCreate => true | _ => false end) (match handle s with Absent => true | _ => false end) &&
  implb (member s) (is_open (handle s)) &&
  implb (published (run_pc s)) (member s) && implb (retired (run_pc s)) (negb (member s)) &&
  eqb (running s) (negb (stopping (stop_pc s))) &&
  implb (match stop_pc s with SReturned => true | _ => false end) (match run_pc s with RDone => true | _ => false end) &&
  negb (misuse s).

Lemma inv_step ev s s' : inv s = true -> step ev s = Some s' -> inv s' = true.
Proof. apply (step_spec inv (fun _ => inv)). by vm_compute. Qed.

Lemma inv_exec evs : forall s s', inv s = true -> exec evs s = Some s' -> inv s' = true.
Proof.
  induction evs as [| ev evs IH]; intros s s' Hi; cbn [exec]; [by intros [= <-] |].
  destruct (step ev s) as [s1 |] eqn:E; [| done]. cbn. apply IH. by eapply inv_step.
Qed.

(** Steps left to the two threads once the flag is down. *)
Definition run_rank (p : RunPc) : nat :=
  match p with
  | RCreate => 11 | RSetup => 10 | RPublish => 9 | RPublishing => 8 | RPublished => 7 | RDispatch => 6 | RLoop => 5
  | RRetire => 4 | RRetiring => 3 | RRetired => 2 | RClose => 1 | RDone => 0
  end.
Definition stop_rank (q : StopPc) : nat := match q with SReady => 6 | SLock => 5 | STest => 4 | SInterrupt => 3 | SUnlock => 2 | SJoin => 1 | SReturned => 0 end.
Definition rank (s : St) : nat := (run_rank (run_pc s) + stop_rank (stop_pc s))%nat.

Lemma rank_step ev s s' : running s = false -> step ev s = Some s' -> running s' = false /\ (rank s' < rank s)%nat.
Proof.
  intros Hr Hs. pose proof (step_spec (fun s => negb (running s)) (fun s s' => negb (running s') && (rank s' <? rank s)%nat) ltac:(by vm_compute) ev s s') as H.
  cbv beta in H. rewrite Hr in H. specialize (H eq_refl Hs). apply andb_true_iff in H as [H1 H2]. apply Nat.ltb_lt in H2. by destruct (running s').
Qed.

Lemma rank_exec evs : forall s s', running s = false -> exec evs s = Some s' -> (length evs + rank s' <= rank s)%nat.
Proof.
  induction evs as [| ev evs IH]; intros s s' Hr; cbn [exec length]; [intros [= <-]; lia |].
  destruct (step ev s) as [s1 |] eqn:E; [| done]. cbn. intros H. destruct (rank_step ev s s1 Hr E) as [Hr1 Hlt]. specialize (IH s1 s' Hr1 H). lia.
Qed.

Definition enabled (s : St) : bool := match run_step Works s, stop_step s with None, None => false | _, _ => true end.

Definition returned (s : St) : bool := match stop_pc s with SReturned => true | _ => false end.

Lemma not_stuck s : inv s = true -> returned s || enabled s = true.
Proof. apply (state_spec inv (fun s => returned s || enabled s)). by vm_compute. Qed.

Definition finished (s : St) : bool :=
  match run_pc s, handle s, pcapMutex s with RDone, Open, _ => false | RDone, _, Free => true | _, _, _ => false end.

Lemma returned_finished s : inv s = true -> implb (returned s) (finished s) = true.
Proof. apply (state_spec inv (fun s => implb (returned s) (finished s))). by vm_compute. Qed.

Lemma rank_bound s : inv s = true -> running s || (rank s <=? 16)%nat = true.
Proof. apply (state_spec inv (fun s => running s || (rank s <=? 16)%nat)). by vm_compute. Qed.

(** C12: Stopping a capture is safe and comes to an end. In every interleaving of
    the worker with [stop], whatever libpcap returns and whatever is thrown:
    libpcap is never given a handle that is not open, neither by the worker nor
    by the interruption from [stop], and the handle is never closed twice; when
    [stop] has returned the worker has ended and no handle is left open; until
    then one of the two can go on, and after the flag is down both together
    take at most sixteen more steps. *)
Theorem capture_stops (evs : list Ev) (s : St) : exec evs start = Some s ->
  misuse s = false /\
  (stop_pc s = SReturned -> run_pc s = RDone /\ handle s <> Open /\ pcapMutex s = Free) /\
  (stop_pc s <> SReturned -> exists ev, is_Some (step ev s)) /\
  (running s = false -> forall more s', exec more s = Some s' -> (length more <= 16)%nat).
Proof.
  intros He. pose proof (inv_exec evs start s eq_refl He) as Hi. split_conj.
  - unfold inv in Hi. apply andb_true_iff in Hi as [_ Hi]. by destruct (misuse s).
  - intros Hq. pose proof (returned_finished s Hi) as H. unfold returned, finished in H. rewrite Hq in H. cbn in H.
    by destruct (run_pc s), (handle s), (pcapMutex s).
  - intros Hq. pose proof (not_stuck s Hi) as H. unfold returned, enabled in H.
    destruct (run_step Works s) as [s1 |] eqn:E; [exists (Worker Works); by exists s1 |].
    destruct (stop_step s) as [s1 |] eqn:E2; [exists Stopper; by exists s1 |]. by destruct (stop_pc s).
  - intros Hr more s' Hm. pose proof (rank_exec more s s' Hr Hm) as H. pose proof (rank_bound s Hi) as Hb. rewrite Hr in Hb.
    apply Nat.leb_le in Hb. lia.
Qed.

(** [stop] interrupts the worker between two dispatches. *)
#[local] Abbreviation sample_schedule :=
  [Worker Works; Worker Works; Worker Works; Worker Works; Worker Works; Worker Works; Stopper; Worker Works; Stopper; Stopper; Worker Works;
   Stopper; Stopper; Worker Works; Worker Works; Worker Works; Worker Works; Stopper].
#[local] Abbreviation sample_end := (mkSt false Free Closed false RDone SReturned false).

Lemma capture_stops_witness : exec sample_schedule start = Some sample_end /\ misuse sample_end = false /\ run_pc sample_end = RDone.
Proof.
  assert (E : exec sample_schedule start = Some sample_end) by (vm_compute; reflexivity). split; [exact E |].
  destruct (capture_stops sample_schedule sample_end E) as (H & H2 & _). split; [exact H | by apply H2].
Defined.
