(* ===== verification/WinService.v ===== *)
(** The Windows service of the client ([client_windows_service.cpp]): the
    states it reports to the service control manager, the control handler and
    the main function of the service, as events in any order the manager
    allows. *)

From S2P Require Import Prelude.
From stdpp Require Import list.
Local Open Scope Z_scope.

(** ** Status *)

Inductive State := START_PENDING | RUNNING | STOP_PENDING | STOPPED.

#[export] Instance state_eq_dec : EqDecision State.
Proof. solve_decision. Defined.

Record Status := mkStatus { currentState : State; controlsAccepted : bool; dwCheckPoint : Z; dwWaitHint : Z }.

(** Where [serviceMain] is: before the registration of the handler, the three
    steps of the start, the call of [setupSignals] at the head of [runClient],
    its main loop, the last report, the end. *)
Inductive Main := AtRegister | AtStart | AtFailureActions | AtRunning | AtSignals | Serving | AtStopped | Ended.

#[export] Instance main_eq_dec : EqDecision Main.
Proof. solve_decision. Defined.

(** [signals]: [g_runningPtr] points to the flag of the main loop. *)
(* client_windows_service.cpp:29-32 g_statusHandle, g_stopRequested *)
Record Svc := mkSvc {
  statusHandle : bool; reports : list Status; checkPoint : Z; stopRequested : bool; signals : bool; g_running : bool; at_ : Main
}.

Definition init : Svc := mkSvc false [] 1 false false true AtRegister.

Definition goto (pc : Main) (s : Svc) : Svc :=
  mkSvc (statusHandle s) (reports s) (checkPoint s) (stopRequested s) (signals s) (g_running s) pc.

(* client_windows_service.cpp:38-54 reportStatus *)
Definition reportStatus (st : State) (waitHint : Z) (s : Svc) : Svc :=
  let settled := bool_decide (st = RUNNING) || bool_decide (st = STOPPED) in
  let ss := mkStatus st (bool_decide (st = RUNNING)) (if settled then 0 else checkPoint s) waitHint in
  let cp := if settled then checkPoint s else checkPoint s + 1 in
  mkSvc (statusHandle s) (if statusHandle s then reports s ++ [ss] else reports s) cp (stopRequested s) (signals s) (g_running s) (at_ s).

(** ** Events *)

Inductive Control := Stop | Shutdown | OtherControl.

(* client_windows.cpp:448-451 requestStop *)
Definition requestStop (s : Svc) : Svc :=
  if signals s then mkSvc (statusHandle s) (reports s) (checkPoint s) (stopRequested s) (signals s) false (at_ s) else s.

(* client_windows_service.cpp:60-71 serviceCtrlHandler *)
Definition serviceCtrlHandler (c : Control) (s : Svc) : Svc * bool :=
  match c with
  | OtherControl => (s, false)
  | _ =>
      let s := reportStatus STOP_PENDING 30000 s in
      let s := mkSvc (statusHandle s) (reports s) (checkPoint s) true (signals s) (g_running s) (at_ s) in
      (requestStop s, true)
  end.

(** A step of [serviceMain]; [ok]: the registration succeeds, and at the main
    loop: it goes on as long as its flag is up, [runClient] does not fail. The
    restart policy changes nothing here. *)
(* client_windows_service.cpp:104-121 serviceMain *)
Definition main_step (ok : bool) (s : Svc) : Svc :=
  match at_ s with
  | AtRegister => if ok then goto AtStart (mkSvc true (reports s) (checkPoint s) (stopRequested s) (signals s) (g_running s) (at_ s)) else goto Ended s
  | AtStart => goto AtFailureActions (reportStatus START_PENDING 5000 s)
  | AtFailureActions => goto AtRunning s
  | AtRunning => goto AtSignals (reportStatus RUNNING 0 s)
  | AtSignals => goto Serving (mkSvc (statusHandle s) (reports s) (checkPoint s) (stopRequested s) true (g_running s) (at_ s))
  | Serving => if ok && g_running s then s else goto AtStopped s
  | AtStopped => goto Ended (reportStatus STOPPED 0 s)
  | Ended => s
  end.

(** The manager delivers a control when the last report accepts it. *)
Definition accepting (s : Svc) : bool := match last (reports s) with Some ss => controlsAccepted ss | None => false end.

Inductive Event := Main_ (ok : bool) | Ctrl (c : Control).

Definition step (ev : Event) (s : Svc) : Svc :=
  match ev with Main_ ok => main_step ok s | Ctrl c => if accepting s then (serviceCtrlHandler c s).1 else s end.

Definition run (evs : list Event) (s : Svc) : Svc := foldl (fun s ev => step ev s) s evs.

(** ** Lemmas *)

Definition r_start : Status := mkStatus START_PENDING false 1 5000.
Definition r_running : Status := mkStatus RUNNING true 0 0.
Definition r_stopping : Status := mkStatus STOP_PENDING false 2 30000.
Definition r_stopped : Status := mkStatus STOPPED false 0 0.

(** The reports so far, by the place of the service and by whether a stop was
    delivered. *)
Definition reports_at (m : Main) (stopped_by : bool) : list Status :=
  match m with
  | AtRegister | AtStart => []
  | AtFailureActions | AtRunning => [r_start]
  | AtSignals | Serving | AtStopped => r_start :: r_running :: (if stopped_by then [r_stopping] else [])
  | Ended => r_start :: r_running :: (if stopped_by then [r_stopping; r_stopped] else [r_stopped])
  end.

Definition checkpoint_at (m : Main) (stopped_by : bool) : Z :=
  match m with AtRegister | AtStart => 1 | _ => if stopped_by then 3 else 2 end.

Definition consistent (s : Svc) : Prop :=
  s = mkSvc false [] 1 false false true Ended \/
  reports s = reports_at (at_ s) (stopRequested s) /\ checkPoint s = checkpoint_at (at_ s) (stopRequested s) /\
  statusHandle s = negb (bool_decide (at_ s = AtRegister)) /\
  (stopRequested s = true -> at_ s = AtSignals \/ at_ s = Serving \/ at_ s = AtStopped \/ at_ s = Ended).

Lemma step_consistent ev s : consistent s -> (at_ s = AtRegister -> s = init) -> consistent (step ev s) /\ (at_ (step ev s) = AtRegister -> step ev s = init).
Proof.
  unfold consistent. intros [-> | (Hr & Hc & Hh & Hs)] Hi; [by destruct ev as [[] | []]; (split; [left | done]) |].
  destruct s as [h r c q g b m]. cbn in *. subst r c h.
  destruct ev as [ok | ct].
  - destruct m, q; try (exfalso; naive_solver); try (specialize (Hi eq_refl); injection Hi as -> ->); destruct ok; try destruct b; cbn;
      (split; [first [by left | right; split_conj; done || (intros _; tauto)] | done]).
  - unfold step, accepting. cbn [reports]. destruct m, q; try (exfalso; naive_solver); destruct ct, g; cbn; (split; [right; split_conj; done || (intros _; tauto) | done]).
Qed.

Lemma run_consistent evs : forall s, consistent s -> (at_ s = AtRegister -> s = init) -> consistent (run evs s).
Proof.
  induction evs as [| ev evs IH]; intros s Hc Hi; [done |]. cbn [run foldl]. destruct (step_consistent ev s Hc Hi) as [Hc' Hi']. by apply IH.
Qed.

(** Whatever controls arrive: the states are reported in the order the manager
    expects, each pending state with a new check point, at most one stop is
    taken, and after the last step the service has reported its end. *)
Lemma service_reports evs : let s := run evs init in
  reports s `prefix_of` (r_start :: r_running :: (if stopRequested s then [r_stopping; r_stopped] else [r_stopped])) /\
  (at_ s = Ended -> reports s = [] \/ last (reports s) = Some r_stopped).
Proof.
  cbv zeta. assert (H : consistent (run evs init)) by (apply run_consistent; [right; by split_conj | done]).
  destruct H as [-> | (-> & _)]; [split; [apply prefix_nil | by left] |].
  destruct (at_ (run evs init)), (stopRequested (run evs init)); cbn;
    (split; [| first [done | intros _; by right]]); first [apply prefix_nil | by (repeat apply prefix_cons; first [apply prefix_nil | done])].
Qed.

(** A stop that arrives while the main loop runs ends the service. *)
Lemma stop_served s ok1 ok2 : at_ s = Serving -> signals s = true -> statusHandle s = true -> accepting s = true ->
  at_ (run [Ctrl Stop; Main_ ok1; Main_ ok2] s) = Ended /\ last (reports (run [Ctrl Stop; Main_ ok1; Main_ ok2] s)) = Some r_stopped.
Proof.
  destruct s as [h r c q g b m]. cbn [at_ signals statusHandle]. intros -> -> -> Ha. unfold run, foldl, step. rewrite Ha. cbn.
  rewrite andb_false_r. cbn. split; [done |]. by rewrite last_snoc.
Qed.

(** A stop that arrives after the service has reported that it runs, and before
    [runClient] has installed its flag, is lost: the service goes on for as long
    as it does not fail, and no further stop reaches it. *)
Lemma early_stop_lost evs : Forall (fun ev => match ev with Main_ ok => ok = true | Ctrl _ => True end) evs ->
  let s := run ([Main_ true; Main_ true; Main_ true; Main_ true; Ctrl Stop] ++ evs) init in
  stopRequested s = true /\ at_ s <> Ended.
Proof.
  intros He. cbv zeta. unfold run. rewrite foldl_app. set (s0 := foldl _ init _).
  assert (H0 : g_running s0 = true /\ stopRequested s0 = true /\ accepting s0 = false /\ (at_ s0 = AtSignals \/ at_ s0 = Serving)) by (vm_compute; tauto).
  clearbody s0. revert s0 H0. induction He as [| ev evs Hev _ IH]; intros s (Hg & Hs & Ha & Hm); cbn [foldl].
  - split; [done |]. destruct Hm as [-> | ->]; done.
  - apply IH. destruct ev as [ok | c]; cbn [step].
    + subst ok. unfold main_step. destruct Hm as [E | E]; rewrite E; cbn; [| rewrite Hg; cbn]; split_conj; done || tauto.
    + by rewrite Ha.
Qed.
