(* ===== verification/Platform.v ===== *)
(** The platform layer of the client ([client_linux.cpp], [client_windows.cpp],
    [client_linux_perms.hpp]): the addresses of the machine, the question for
    its external address, the watch over network changes, the permissions of
    the key file and the place of the logs. The operating system's answers are
    arguments. The lemmas say where the platforms agree, and what each routine
    gives. *)

From S2P Require Import Prelude CppString Wire HttpUtil Cbor FlowAggregator Sniffer.
From stdpp Require Import gmap list.
Local Open Scope Z_scope.

(** ** Addresses of the machine *)

(** A socket address: its bytes in network order. *)
Inductive SockAddr := Inet4 (b : str) | Inet6 (b : str) | OtherFamily.

(** [inet_pton] reads back what [inet_ntop] prints. *)
Class InetRoundtrip (I : Inet) (N : InetNtop) := {
  pton_ntop4 a t : length a = 4%nat -> inet_ntop4 a = Some t -> inet_pton4 t = Some (be_val a);
  pton_ntop6 a t : length a = 16%nat -> inet_ntop6 a = Some t -> inet_pton4 t = None /\ inet_pton6 t = Some a
}.

Section Lan.
Context `{NT : InetNtop}.

(* client_linux.cpp:158-173 collectLanAddresses, address *)
Definition lan_text (sa : SockAddr) : option str :=
  match sa with
  | Inet4 b => if isLanAddrV4 (be_val b) then inet_ntop4 b else None
  | Inet6 b => if isLanAddrV6 b then inet_ntop6 b else None
  | OtherFamily => None
  end.

Definition insert_lan (result : gset str) (sa : SockAddr) : gset str :=
  match lan_text sa with Some t => {[t]} ∪ result | None => result end.

(** An interface without an address has [None]. *)
(* client_linux.cpp:151-177 collectLanAddresses *)
Definition collectLanAddresses (ifap : option (list (option SockAddr))) : gset str :=
  match ifap with
  | None => ∅
  | Some l => foldl (fun result ifa => match ifa with Some sa => insert_lan result sa | None => result end) ∅ l
  end.

(** An adapter of Windows: up or not, with its unicast addresses. *)
Record Adapter := mkAdapter { ad_up : bool; ad_unicast : list SockAddr }.

(* client_windows.cpp:148-195 collectLanAddresses *)
Definition collectLanAddresses_windows (addrs : option (list Adapter)) : gset str :=
  match addrs with
  | None => ∅
  | Some l => foldl (fun result a => if ad_up a then foldl insert_lan result (ad_unicast a) else result) ∅ l
  end.

End Lan.

(** ** The external address *)

Inductive Connecting := Connected | InProgress | ConnectFails.

(** The answers of the system during the question: the pieces [recv] gives, up
    to the end of the stream, a timeout or an error. *)
Record Http := mkHttp {
  q_resolves : bool; q_socket : bool; q_connect : Connecting; q_ready : bool; q_soError : bool; q_sends : bool; q_recv : list str
}.

(* client_linux.cpp:225-230 queryExternalIP, loop *)
Fixpoint recv_answer (chunks : list str) (response : str) : str :=
  match chunks with
  | [] => response
  | c :: chunks =>
      if decide (c = []) then response
      else let response := response ++ c in
           if (4096 <? length response)%nat then response else recv_answer chunks response
  end.

Section ExternalIp.
Context `{IN : Inet}.

(* client_linux.cpp:233-241 queryExternalIP, validation *)
Definition valid_ip (body : str) : bool :=
  match inet_pton4 (c_str body), inet_pton6 (c_str body) with None, None => false | _, _ => true end.

(** A descriptor of the request sent: host, port and text. *)
Record Request := mkRequest { rq_host : str; rq_port : str; rq_text : str }.

(* client_linux.cpp:197-213 queryExternalIP, connection *)
Definition connection_made (e : Http) : bool :=
  q_resolves e && q_socket e &&
  match q_connect e with
  | Connected => true
  | InProgress => q_ready e && negb (q_soError e)
  | ConnectFails => false
  end.

(** The request, and the answer: [""] when there is none. *)
(* client_linux.cpp:183-242 queryExternalIP *)
Definition queryExternalIP (url : str) (e : Http) : option Request * str :=
  let parsed := parseHttpUrl url in
  if negb (url_ok parsed) then (None, [])
  else if negb (connection_made e) then (None, [])
  else
    let req := mkRequest (c_str (url_host parsed)) (c_str (url_port parsed)) (buildGetRequest (url_path parsed) (url_host parsed)) in
    if negb (q_sends e) then (Some req, [])
    else
      let body := extractHttpBody (recv_answer (q_recv e) []) in
      (Some req, if valid_ip body then body else []).

(** Windows waits for the socket in every case. *)
(* client_windows.cpp:234-251 queryExternalIP, connection *)
Definition connection_made_windows (e : Http) : bool :=
  q_resolves e && q_socket e &&
  match q_connect e with
  | ConnectFails => false
  | _ => q_ready e && negb (q_soError e)
  end.

(* client_windows.cpp:277-289 queryExternalIP, body *)
Definition body_windows (response : str) : option str :=
  match find_str CRLFCRLF response with
  | None => None
  | Some pos =>
      let body := trim_back http_blank (substr_from response (pos + 4)) in
      let body := match find_if (fun c => negb (http_blank c)) body with
                  | Some bstart => if (0 <? bstart)%nat then substr_from body bstart else body
                  | None => body
                  end in
      let body := match find_char LF body with
                  | Some nl => if (nl <? 8)%nat then substr_from body (S nl) else body
                  | None => body
                  end in
      Some (trim_back http_blank body)
  end.

(* client_windows.cpp:203-217 queryExternalIP, URL *)
Definition url_windows (url : str) : option (str * str * str) :=
  if (length url <? 8)%nat || negb (bool_decide (substr url 0 7 = kHttpPrefix)) then None
  else
    let rest := substr_from url 7 in
    let slashPos := find_char "/" rest in
    let hostPort := match slashPos with None => rest | Some p => substr rest 0 p end in
    let path := match slashPos with None => ["/"%char] | Some p => substr_from rest p end in
    let '(host, portStr) := match rfind_char ":" hostPort with
                            | Some p => (substr hostPort 0 p, substr_from hostPort (S p))
                            | None => (hostPort, ("80" : str))
                            end in
    if decide (host = []) then None else Some (host, portStr, path).

(* client_windows.cpp:201-296 queryExternalIP *)
Definition queryExternalIP_windows (url : str) (e : Http) : option Request * str :=
  match url_windows url with
  | None => (None, [])
  | Some (host, portStr, path) =>
      if negb (connection_made_windows e) then (None, [])
      else
        let req := mkRequest (c_str host) (c_str portStr)
          ("GET " ++ path ++ " HTTP/1.0" ++ [CR; LF] ++ "Host: " ++ host ++ [CR; LF] ++ "Connection: close" ++ [CR; LF; CR; LF]) in
        if negb (q_sends e) then (Some req, [])
        else
          match body_windows (recv_answer (q_recv e) []) with
          | None => (Some req, [])
          | Some body => (Some req, if valid_ip body then body else [])
          end
  end.

End ExternalIp.

(** ** Devices *)

(** [d->name] plays no part on Windows. *)
(* client_windows.cpp:302-308 isLoopbackIface *)
Definition isLoopbackIface_windows (d : Device) : bool := d_loopback d.

(** ** The key file *)

(** The octal masks 070 and 007 of the group's and the others' rights. *)
Definition S_IRWXG : Z := 0x38.
Definition S_IRWXO : Z := 0x07.

(** [st]: mode and owner, when [stat] succeeds. *)
(* client_linux_perms.hpp:21-47 checkIdentityKeyPermissionsImpl *)
Definition checkIdentityKeyPermissionsImpl (st : option (Z * Z)) (euid : Z) : bool :=
  match st with
  | None => true
  | Some (mode, uid) =>
      let ok := true in
      let ok := if negb (Z.land mode (Z.lor S_IRWXG S_IRWXO) =? 0) then false else ok in
      let ok := if negb (uid =? euid) then false else ok in
      ok
  end.

Definition FILE_READ_DATA : Z := 0x1.
Definition GENERIC_READ : Z := 0x80000000.
Definition FILE_GENERIC_READ : Z := 0x120089.

(** What Windows tells of the file: its owner, and for each of the four broad
    groups the effective rights, when the queries succeed. The process: its
    user, when the token can be read, and the two system accounts. *)
Record Acl := mkAcl { acl_owner : str; acl_rights : list (option Z) }.
Record Sids := mkSids { sid_user : option str; sid_localSystem : str; sid_admins : str }.

(* client_windows.cpp:318-402 checkIdentityFilePermissions *)
Definition checkIdentityFilePermissions_windows (file : option Acl) (p : Sids) : bool :=
  match file with
  | None => true
  | Some f =>
      let ok := foldl (fun ok (r : option Z) =>
        match r with
        | None => ok
        | Some rights => if negb (Z.land rights (Z.lor FILE_READ_DATA (Z.lor GENERIC_READ FILE_GENERIC_READ)) =? 0) then false else ok
        end) true (acl_rights f) in
      match sid_user p with
      | None => ok
      | Some user =>
          if negb (bool_decide (acl_owner f = user)) then
            if negb (bool_decide (acl_owner f = sid_localSystem p)) && negb (bool_decide (acl_owner f = sid_admins p)) then false else ok
          else ok
      end
  end.

(** ** The place of the logs *)

Definition env_text (getenv : gmap str str) (name : str) : option str :=
  match getenv !! name with Some v => if decide (v = []) then None else Some v | None => None end.

(* client_linux.cpp:286-301 defaultLogDir *)
Definition defaultLogDir (isDaemon : bool) (getenv : gmap str str) : str :=
  if isDaemon then "/var/log/ntm-client"
  else match env_text getenv "XDG_STATE_HOME" with
       | Some xdgState => xdgState ++ "/ntm-client/logs"
       | None => match env_text getenv "HOME" with
                 | Some home => home ++ "/.local/state/ntm-client/logs"
                 | None => []
                 end
       end.

(* client_windows.cpp:414-424 defaultLogDir *)
Definition defaultLogDir_windows (isDaemon : bool) (getenv : gmap str str) : str :=
  match env_text getenv (if isDaemon then "PROGRAMDATA" else "LOCALAPPDATA") with
  | Some base => base ++ "\ntm-client\logs"
  | None => []
  end.

(** ** Network changes *)

Definition NLMSG_DONE : Z := 3.
Definition RTM_NEWLINK : Z := 16.
Definition RTM_DELLINK : Z := 17.
Definition RTM_NEWADDR : Z := 20.
Definition RTM_DELADDR : Z := 21.

Record Monitor := mkMonitor { m_running : bool; m_changed : bool }.
Definition set_changed (m : Monitor) : Monitor := mkMonitor (m_running m) true.

Section Netlink.
(** The length and type fields of a message header, in the machine's order. *)
Context (nlmsg_len nlmsg_type : str -> Z).

Definition kHeader : nat := 16.
Definition align4 (n : Z) : Z := Z.land (n + 3) (Z.lnot 3).

(** [NLMSG_OK]: the header and the message lie in the received bytes. *)
Definition nlmsg_ok (buf : str) : bool :=
  let len := Z.of_nat (length buf) in
  (0 <? len) && (Z.of_nat kHeader <=? len) && (Z.of_nat kHeader <=? nlmsg_len (take kHeader buf)) && (nlmsg_len (take kHeader buf) <=? len).

Definition is_change (t : Z) : bool := (t =? RTM_NEWADDR) || (t =? RTM_DELADDR) || (t =? RTM_NEWLINK) || (t =? RTM_DELLINK).

(** [buf] is what is left of the received bytes. *)
(* client_linux.cpp:403-415 monitorLoop, messages *)
Fixpoint netlink_messages (fuel : nat) (buf : str) (m : Monitor) : Monitor :=
  match fuel with
  | O => m
  | S fuel =>
      if nlmsg_ok buf then
        let h := take kHeader buf in
        if nlmsg_type h =? NLMSG_DONE then m
        else
          let m := if is_change (nlmsg_type h) then set_changed m else m in
          netlink_messages fuel (drop (Z.to_nat (align4 (nlmsg_len h))) buf) m
      else m
  end.

(** A round of the watch: [stop] was called, [poll] fails, is interrupted or
    times out, [recv] fails or gives bytes. *)
Inductive Watch := WStop | WPollFails | WInterrupted | WTimeout | WRecvFails | WBytes (buf : str).

(** The messages of a datagram are at most as many as its bytes. *)
(* client_linux.cpp:392-418 monitorLoop, watching *)
Fixpoint monitorLoop (evs : list Watch) (m : Monitor) : Monitor :=
  match evs with
  | [] => m
  | ev :: evs =>
      match ev with
      | WStop => mkMonitor false (m_changed m)
      | WPollFails => m
      | WInterrupted | WTimeout | WRecvFails => monitorLoop evs m
      | WBytes buf => monitorLoop evs (netlink_messages (length (take 4096 buf)) (take 4096 buf) m)
      end
  end.

End Netlink.

(** The fallback compares the addresses every 30 seconds; [None] is a stop
    during the wait. *)
(* client_linux.cpp:364-375 monitorLoopPoll *)
Fixpoint monitorLoopPoll (samples : list (option (gset str))) (prev : gset str) (m : Monitor) : Monitor :=
  match samples with
  | [] => m
  | None :: _ => mkMonitor false (m_changed m)
  | Some curr :: samples =>
      if decide (curr <> prev) then monitorLoopPoll samples curr (set_changed m) else monitorLoopPoll samples prev m
  end.

(* client_linux.cpp:436-439 NetworkMonitor::checkAndClear *)
Definition checkAndClear (m : Monitor) : Monitor * bool := (mkMonitor (m_running m) false, m_changed m).

(* client_linux.cpp:424-428 NetworkMonitor::start *)
Definition monitor_start (m : Monitor) : Monitor * bool := (mkMonitor true (m_changed m), negb (m_running m)).

(** ** Lemmas *)

Lemma foldl_insert_lan `{InetNtop} l : forall s t, t ∈ foldl insert_lan s l <-> t ∈ s \/ exists sa, sa ∈ l /\ lan_text sa = Some t.
Proof.
  induction l as [| sa l IH]; intros s t; cbn [foldl].
  - split; [by left |]. intros [? | (? & ?%not_elem_of_nil & _)]; done.
  - rewrite IH. unfold insert_lan at 1.
    setoid_rewrite elem_of_cons. destruct (lan_text sa) as [x |] eqn:E; [rewrite elem_of_union, elem_of_singleton |].
    + split; [intros [[-> | ?] | (y & ? & ?)]; eauto |]. intros [? | (y & [-> | ?] & ?)]; [eauto | left; left; congruence | eauto].
    + split; [intros [? | (y & ? & ?)]; eauto |]. intros [? | (y & [-> | ?] & ?)]; [eauto | congruence | eauto].
Qed.

(** The announced addresses are those of all interfaces in the LAN ranges. *)
Lemma collected `{InetNtop} l t : t ∈ collectLanAddresses (Some l) <-> exists sa, Some sa ∈ l /\ lan_text sa = Some t.
Proof.
  unfold collectLanAddresses.
  assert (E : forall s, foldl (fun result (ifa : option SockAddr) => match ifa with Some sa => insert_lan result sa | None => result end) s l =
              foldl insert_lan s (omap id l)).
  { induction l as [| [sa |] l IH]; intros s; cbn; [done | by rewrite IH | by rewrite IH]. }
  rewrite E, foldl_insert_lan. setoid_rewrite list_elem_of_omap.
  split; [intros [?%elem_of_empty | (sa & (x & ? & Hx) & ?)]; [done |]; cbn in Hx; subst; eauto |].
  intros (sa & ? & ?). right. exists sa. split; [| done]. by exists (Some sa).
Qed.

(** Windows gives the same for the addresses of the adapters that are up. *)
Lemma collected_windows `{InetNtop} l :
  collectLanAddresses_windows (Some l) = collectLanAddresses (Some (Some <$> concat (ad_unicast <$> filter (fun a => ad_up a = true) l))).
Proof.
  unfold collectLanAddresses_windows, collectLanAddresses. generalize (∅ : gset str). induction l as [| a l IH]; intros s; [done |].
  cbn [foldl]. rewrite filter_cons. destruct (ad_up a) eqn:Eu.
  - rewrite decide_True by done. cbn [fmap list_fmap concat]. rewrite fmap_app, foldl_app, IH. f_equal. clear.
    revert s. induction (ad_unicast a) as [| x xs IH]; intros s; [done |]. cbn. by rewrite IH.
  - rewrite decide_False by done. apply IH.
Qed.

Definition sized (sa : SockAddr) : Prop :=
  match sa with Inet4 b => length b = 4%nat | Inet6 b => length b = 16%nat | OtherFamily => True end.

(** What the client takes for a LAN address, the server does. *)
Lemma lan_text_spec `{NT : InetNtop} `{IN : Inet} `{!InetNtopLaws NT} `{!InetRoundtrip IN NT} sa t :
  sized sa -> lan_text sa = Some t -> isLanIP t = true /\ printable 45 t.
Proof.
  destruct sa as [b | b |]; cbn; [| | done]; intros Hb.
  - destruct (isLanAddrV4 (be_val b)) eqn:El; [| done]. intros Ht. split.
    + destruct (ntop4_prints b Hb) as (t' & E & Hp). rewrite E in Ht. injection Ht as <-.
      rewrite (isLanIP_v4 t' (be_val b)); [done |]. rewrite c_str_id by apply Hp. by apply pton_ntop4.
    + destruct (ntop4_prints b Hb) as (t' & E & Hp). rewrite E in Ht. by injection Ht as <-.
  - destruct (isLanAddrV6 b) eqn:El; [| done]. intros Ht. split.
    + destruct (pton_ntop6 b t Hb Ht) as [H4 H6]. destruct (ntop6_prints b Hb) as (t' & E & Hp). rewrite E in Ht. injection Ht as <-.
      by rewrite (isLanIP_v6 t' b) by (by rewrite c_str_id by apply Hp).
    + destruct (ntop6_prints b Hb) as (t' & E & Hp). rewrite E in Ht. by injection Ht as <-.
Qed.

(** The key is accepted exactly when its owner is the process's user and no
    right is given to the group or to others. *)
Lemma permissions_exact mode uid euid :
  checkIdentityKeyPermissionsImpl (Some (mode, uid)) euid = true <-> uid = euid /\ forall i, 0 <= i < 6 -> Z.testbit mode i = false.
Proof.
  unfold checkIdentityKeyPermissionsImpl. change (Z.lor S_IRWXG S_IRWXO) with (Z.ones 6). rewrite Z.land_ones by lia.
  assert (mode mod 2 ^ 6 = 0 <-> forall i, 0 <= i < 6 -> Z.testbit mode i = false) as E.
  { split.
    - intros H i Hi. rewrite <- (Z.mod_pow2_bits_low mode 6 i) by lia. by rewrite H, Z.bits_0.
    - intros H. apply Z.bits_inj'. intros i Hi. rewrite Z.bits_0. destruct (Z.lt_ge_cases i 6).
      + rewrite Z.mod_pow2_bits_low by lia. by apply H.
      + by rewrite Z.mod_pow2_bits_high by lia. }
  rewrite <- E. destruct (Z.eqb_spec (mode mod 2 ^ 6) 0); destruct (Z.eqb_spec uid euid); cbn; naive_solver.
Qed.

(** On Windows a group whose rights cannot be queried counts as having none. *)
Lemma acl_query_failure_passes owner n : checkIdentityFilePermissions_windows (Some (mkAcl owner (replicate n None))) (mkSids (Some owner) [] []) = true.
Proof.
  unfold checkIdentityFilePermissions_windows. cbn [acl_rights acl_owner sid_user]. rewrite bool_decide_eq_true_2 by done. cbn [negb].
  induction n as [| n IH]; [done |]. exact IH.
Qed.

(** *** The external address *)

Lemma find_if_trim f s : trim_front f s = match find_if (fun c => negb (f c)) s with Some i => drop i s | None => [] end.
Proof. induction s as [| c s IH]; [done |]. cbn. destruct (f c); cbn; [| done]. rewrite IH. by destruct (find_if _ s). Qed.

Lemma trim_back_blank f s : trim_front f (trim_back f s) = [] -> trim_back f s = [].
Proof.
  unfold trim_back. intros H. destruct (trim_front f (rev s)) as [| c t] eqn:E; [done |]. exfalso.
  assert (Hc : f c = false) by (clear -E; induction (rev s) as [| d r IH]; [done |]; cbn in E; destruct (f d) eqn:Ed; [by apply IH | by injection E as <- <-]).
  clear E s. cbn in H. revert H. generalize (rev t). intros l H. induction l as [| d l IH]; cbn in H; [by rewrite Hc in H |].
  destruct (f d); [by apply IH | done].
Qed.

Lemma body_alike response : default [] (body_windows response) = extractHttpBody response.
Proof.
  unfold body_windows, extractHttpBody. destruct (find_str CRLFCRLF response) as [pos |]; [| done]. cbn [default].
  set (b := trim_back http_blank (substr_from response (pos + 4))).
  assert (E : match find_if (fun c => negb (http_blank c)) b with
              | Some bstart => if (0 <? bstart)%nat then substr_from b bstart else b | None => b end = trim_front http_blank b).
  { pose proof (trim_back_blank http_blank (substr_from response (pos + 4))) as Hb. fold b in Hb. rewrite find_if_trim in Hb |- *.
    destruct (find_if _ b) as [[| i] |]; [done | done | by apply Hb]. }
  rewrite E. destruct (find_char LF _) as [nl |]; [| done].
  by replace (nl <? 8)%nat with (nl <=? 7)%nat by (destruct (Nat.leb_spec nl 7), (Nat.ltb_spec nl 8); lia || done).
Qed.

Lemma url_alike url : (forall h p, url_windows url <> Some (h, [], p)) ->
  url_windows url = let p := parseHttpUrl url in if url_ok p then Some (url_host p, url_port p, url_path p) else None.
Proof.
  unfold url_windows, parseHttpUrl. change (length kHttpPrefix) with 7%nat. intros Hp.
  replace (length url <? 8)%nat with (length url <=? 7)%nat in * by (destruct (Nat.leb_spec (length url) 7), (Nat.ltb_spec (length url) 8); lia || done).
  assert (E : bool_decide (substr url 0 7 = kHttpPrefix) = starts_with kHttpPrefix url).
  { apply eq_bool_prop_intro. rewrite bool_decide_spec, Is_true_true, starts_with_spec. unfold substr. rewrite drop_0. split.
    - intros H. exists (drop 7 url). by rewrite <- H, take_drop.
    - intros [r ->]. done. }
  rewrite E in Hp |- *. clear E. destruct (_ || _); [done |]. cbv zeta in Hp |- *. destruct (find_char "/" _) as [q |].
  all: match goal with |- context [rfind_char ":" ?x] => destruct (rfind_char ":" x) as [i |] end.
  all: cbn [url_ok url_host url_port url_path].
  all: match goal with |- context [decide (?h = [])] => destruct (decide (h = [])) as [Hh | Hh]; [by rewrite (bool_decide_eq_true_2 _ Hh) |] end.
  all: rewrite (bool_decide_eq_false_2 _ Hh); match goal with |- context [bool_decide (?x = [])] => destruct (decide (x = [])) as [Hq | Hq] end.
  all: try (rewrite (bool_decide_eq_false_2 _ Hq); done).
  all: exfalso; rewrite ?Hq in Hp; try done; by eapply Hp.
Qed.

(** The two platforms ask the same question and take the same answer, when the
    URL has no empty port and the system reports a socket as ready. *)
Lemma platforms_query_alike `{Inet} url e : (forall h p, url_windows url <> Some (h, [], p)) ->
  connection_made_windows e = connection_made e -> queryExternalIP_windows url e = queryExternalIP url e.
Proof.
  intros Hp Hc. unfold queryExternalIP_windows, queryExternalIP. rewrite url_alike, Hc by done. cbv zeta.
  destruct (parseHttpUrl url) as [host port path []]; [| done]. cbn [url_ok url_host url_port url_path negb].
  destruct (connection_made e); [| done]. cbn [negb]. destruct (q_sends e); cbn [negb]; [| done].
  rewrite <- body_alike. destruct (body_windows _) as [b |]; [done |]. cbn. by destruct (valid_ip _).
Qed.

(** At most 4096 bytes and one piece of the answer are kept. *)
Lemma recv_bounded chunks : forall r : str, Forall (fun c => (length c <= 512)%nat) chunks -> (length r <= 4096)%nat ->
  (length (recv_answer chunks r) <= 4608)%nat.
Proof.
  induction chunks as [| c chunks IH]; intros r Hc Hr; cbn [recv_answer]; [lia |]. apply Forall_cons in Hc as [Hc Hcs].
  destruct (decide (c = [])); [lia |]. cbv zeta. destruct (Nat.ltb_spec 4096 (length (r ++ c))) as [Hl | Hl].
  - rewrite length_app. lia.
  - by apply IH.
Qed.

(** An address is one word. *)
Class InetText (I : Inet) := {
  pton4_token s a : inet_pton4 s = Some a -> token s;
  pton6_token s b : inet_pton6 s = Some b -> token s
}.

Lemma trim_front_elem f s c : c ∈ trim_front f s -> c ∈ s.
Proof. destruct (trim_front_suffix f s) as [l E]. intros H. rewrite E. apply elem_of_app. by right. Qed.

Lemma trim_back_elem f s c : c ∈ trim_back f s -> c ∈ s.
Proof. unfold trim_back. intros H. apply list_elem_of_In, in_rev, list_elem_of_In, trim_front_elem, list_elem_of_In, in_rev, list_elem_of_In in H. done. Qed.

Lemma drop_elem n (s : str) c : c ∈ substr_from s n -> c ∈ s.
Proof. unfold substr_from. intros H. rewrite <- (take_drop n s). apply elem_of_app. by right. Qed.

Lemma body_elem r c : c ∈ extractHttpBody r -> c ∈ r.
Proof.
  unfold extractHttpBody. destruct (find_str _ _); [| intros []%elem_of_nil]. intros H%trim_back_elem.
  apply (drop_elem (n + 4)), (trim_back_elem http_blank), (trim_front_elem http_blank).
  destruct (find_char LF _) as [nl |]; [| done]. destruct (nl <=? 7)%nat; [| done]. by eapply drop_elem.
Qed.

Lemma recv_elem chunks c : forall r, c ∈ recv_answer chunks r -> c ∈ r \/ c ∈ concat chunks.
Proof.
  induction chunks as [| x chunks IH]; intros r; cbn [recv_answer concat]; [by left |]. destruct (decide (x = [])); [by left |].
  cbv zeta. rewrite elem_of_app. destruct (_ <? _)%nat; [| intros [H | H]%IH; [| tauto]; revert H]; rewrite elem_of_app; tauto.
Qed.

(** What is announced as the external address is nothing or one word that
    parses as an address, as long as the answer has no zero byte. *)
Lemma external_ip_text `{IN : Inet} `{!InetText IN} url e : NUL ∉ concat (q_recv e) ->
  let ip := (queryExternalIP url e).2 in
  ip = [] \/ token ip /\ NUL ∉ ip /\ (is_Some (inet_pton4 ip) \/ is_Some (inet_pton6 ip)).
Proof.
  intros Hn. unfold queryExternalIP. cbv zeta. destruct (url_ok _); cbn [negb]; [| by left]. destruct (connection_made e); cbn [negb]; [| by left].
  destruct (q_sends e); cbn [negb snd]; [| by left]. set (body := extractHttpBody _).
  assert (Hb : NUL ∉ body) by (intros [[]%elem_of_nil | H]%body_elem%recv_elem; done).
  destruct (valid_ip body) eqn:E; [right | by left]. unfold valid_ip in E. rewrite c_str_id in E by done. split_conj; [| done |].
  - destruct (inet_pton4 body) eqn:E4; [by eapply pton4_token |]. destruct (inet_pton6 body) eqn:E6; [by eapply pton6_token | done].
  - destruct (inet_pton4 body); [by left; eexists |]. destruct (inet_pton6 body); [by right; eexists | done].
Qed.

(** With a zero byte it can be several lines: the parser stops at the zero, the
    rest is announced with it. *)
Example zero_byte_injects :
  let e := mkHttp true true Connected true false true
    ["HTTP/1.0 200 OK" ++ CRLFCRLF ++ "10.0.0.1" ++ [NUL; LF] ++ "A 10.0.0.9"] in
  LF ∈ (queryExternalIP (IN := sample_inet) "http://ip.example.org/" e).2.
Proof. vm_compute. apply list_elem_of_In. cbn. tauto. Qed.

(** *** The watch *)

Section NetlinkProofs.
Context (nlmsg_len nlmsg_type : str -> Z).

(** A message and its padding to a multiple of 4. *)
Definition message_ok (msg : str) : Prop :=
  (kHeader <= length msg)%nat /\ nlmsg_len (take kHeader msg) = Z.of_nat (length msg).

Definition padded (msg : str) : str := msg ++ replicate (Z.to_nat (align4 (Z.of_nat (length msg)) - Z.of_nat (length msg))) NUL.

Lemma align4_spec n : 0 <= n -> n <= align4 n < n + 4.
Proof.
  intros Hn. assert (align4 n = (n + 3) / 4 * 4) as ->.
  { unfold align4. rewrite <- Z.ldiff_land. change (Z.ldiff (n + 3) 3) with (Z.ldiff (n + 3) (Z.ones 2)).
    by rewrite Z.ldiff_ones_r, Z.shiftl_mul_pow2, Z.shiftr_div_pow2 by lia. }
  pose proof (Z.div_mod (n + 3) 4 ltac:(lia)). pose proof (Z.mod_pos_bound (n + 3) 4 ltac:(lia)). lia.
Qed.

(** The types up to the end mark. *)
Fixpoint until_done (msgs : list str) : list Z :=
  match msgs with
  | [] => []
  | m :: msgs => let t := nlmsg_type (take kHeader m) in if t =? NLMSG_DONE then [] else t :: until_done msgs
  end.

Lemma netlink_reports msgs : forall fuel m, Forall message_ok msgs -> (length (concat (padded <$> msgs)) <= fuel)%nat ->
  netlink_messages nlmsg_len nlmsg_type fuel (concat (padded <$> msgs)) m = mkMonitor (m_running m) (m_changed m || existsb is_change (until_done msgs)).
Proof.
  induction msgs as [| g msgs IH]; intros fuel m Hm Hf.
  - cbn. rewrite orb_false_r. by destruct fuel, m.
  - apply Forall_cons in Hm as [[Hl Hg] Hm]. cbn [fmap list_fmap concat] in *. set (rest := concat _) in *.
    pose proof (align4_spec (Z.of_nat (length g)) ltac:(lia)) as Ha. unfold kHeader in *.
    assert (Ht : take 16 (padded g ++ rest) = take 16 g) by (unfold padded; by rewrite <- app_assoc, take_app_le by lia).
    assert (Hp : Z.of_nat (length (padded g)) = align4 (Z.of_nat (length g))) by (unfold padded; rewrite length_app, length_replicate; lia).
    rewrite length_app in Hf. destruct fuel as [| fuel]; [lia |]. cbn [netlink_messages until_done].
    replace (nlmsg_ok nlmsg_len (padded g ++ rest)) with true.
    2:{ symmetry. unfold nlmsg_ok, kHeader. rewrite Ht, Hg, length_app. rewrite !andb_true_iff, Z.ltb_lt, !Z.leb_le. lia. }
    unfold kHeader. cbv zeta. rewrite Ht, Hg. destruct (_ =? NLMSG_DONE) eqn:Ed; [cbn; rewrite orb_false_r; by destruct m |].
    replace (Z.to_nat (align4 (Z.of_nat (length g)))) with (length (padded g)) by lia. rewrite drop_app_length. unfold rest. rewrite IH; [| done | fold rest; lia].
    cbn [existsb]. destruct (is_change (nlmsg_type (take 16 g))); cbn [m_changed m_running set_changed orb]; [by rewrite orb_true_r | done].
Qed.

(** A change the kernel reports is seen by the next look at the flag, and by
    one look only. *)
Lemma change_seen_once msgs evs m : Forall message_ok msgs -> (length (concat (padded <$> msgs)) <= 4096)%nat ->
  Exists (fun t => is_change t = true) (until_done msgs) -> Forall (fun ev => ev = WTimeout \/ ev = WInterrupted \/ ev = WRecvFails) evs ->
  let m' := monitorLoop nlmsg_len nlmsg_type (WBytes (concat (padded <$> msgs)) :: evs) m in
  (checkAndClear m').2 = true /\ (checkAndClear (checkAndClear m').1).2 = false.
Proof.
  intros Hm Hl He Hev. cbv zeta. split; [| done]. cbn [monitorLoop]. rewrite take_ge by done. rewrite netlink_reports by done.
  replace (existsb is_change (until_done msgs)) with true by (symmetry; apply existsb_exists; apply Exists_exists in He as (t & ? & ?); exists t; split; [by apply list_elem_of_In | done]).
  rewrite orb_true_r. clear -Hev. induction Hev as [| ev evs [-> | [-> | ->]] _ IH]; [done | exact IH..].
Qed.

End NetlinkProofs.

(** The fallback sees every difference between successive samples. *)
Lemma poll_reports samples : forall prev m,
  m_changed (monitorLoopPoll (Some <$> samples) prev m) = m_changed m || existsb (fun s => bool_decide (s <> prev)) samples.
Proof.
  induction samples as [| s samples IH]; intros prev m; cbn [fmap list_fmap monitorLoopPoll existsb]; [by rewrite orb_false_r |].
  destruct (decide (s <> prev)) as [Hs | Hs].
  - rewrite IH, (bool_decide_eq_true_2 _ Hs). cbn. by rewrite orb_true_r.
  - by rewrite IH, (bool_decide_eq_false_2 _ Hs).
Qed.
