(* ===== verification/Announce.v ===== *)
(** From the interfaces of a machine to the server's register of addresses:
    the addresses [collectLanAddresses] finds and the answer of
    [queryExternalIP], sent by [sendAnnounce] and handled by the lines of the
    server's session. *)

From S2P Require Import Prelude CppString Wire Cbor Upgrade RemoteLogs FlowAggregator Sniffer Registry TrafficStats WireLoop Sender Platform.
From stdpp Require Import gmap list.
Local Open Scope Z_scope.

Section Announce.
Context `{NT : InetNtop} `{IN : Inet} `{SH : StdHash}.
Variables (config : WireConfig) (clientId clientIp : str).

Definition said (ext : str) : str := if decide (ext = []) then kExtIPNull else ext.

(** The bytes of an announcement. *)
Definition announcement (ext : str) (lan : list str) : str := concat (x_text ext :: (a_text <$> lan)).

(** What the register says of an address afterwards: the client's own
    addresses are exactly the announced ones and that of its connection. *)
Definition owner_after (lan : gset str) (old : gmap str str) (ip : str) : option str :=
  if decide (ip ∈ lan) then Some clientId
  else if decide (ip = clientIp /\ clientIp <> []) then Some clientId
  else match old !! ip with Some c => if decide (c = clientId) then None else Some c | None => None end.

Lemma token_chars t c : token t -> c ∈ [SP; TAB; CR; LF] -> c ∉ t.
Proof.
  intros [_ Ht] Hc Hin. rewrite Forall_forall in Ht. apply Ht in Hin. unfold isSep, char_in in Hin.
  by rewrite bool_decide_eq_true_2 in Hin.
Qed.

Lemma trim_value_token p t : length p = 2%nat -> token t -> trim_value (p ++ t) = t.
Proof.
  intros Hp Ht. unfold trim_value, substr_from. rewrite drop_app_length' by done. apply trim_back_id.
  unfold stops. destruct (rev t) as [| c r] eqn:E; [done |]. unfold char_in. apply bool_decide_eq_false. intros Hc.
  apply (token_chars t c Ht); [set_solver |]. apply list_elem_of_In, in_rev. rewrite E. by left.
Qed.

Lemma split_announcement ext lan : token (said ext) -> Forall token lan ->
  split_lines (announcement ext lan) = ((kExtIPLinePrefix ++ said ext) :: ((fun ip => kAddrLinePrefix ++ ip) <$> lan), []).
Proof.
  intros He Hl. unfold announcement. cbn [concat]. unfold x_text. fold (said ext).
  assert (Hs : forall p t r, (LF ∉ p) -> token t -> split_lines ((p ++ t ++ [LF]) ++ r) = ((p ++ t) :: (split_lines r).1, (split_lines r).2)).
  { intros p t r Hp Ht. replace ((p ++ t ++ [LF]) ++ r) with ((p ++ t) ++ LF :: r) by (by rewrite <- !app_assoc). rewrite split_lines_line; [by destruct (split_lines r) |].
    rewrite not_elem_of_app. split; [done |]. apply token_chars; [done | set_solver]. }
  rewrite Hs; [| by vm_compute; set_solver | done].
  assert (E : split_lines (concat (a_text <$> lan)) = ((fun ip => kAddrLinePrefix ++ ip) <$> lan, [])).
  { induction Hl as [| ip lan Hip _ IH]; [done |]. cbn [fmap list_fmap concat]. unfold a_text at 1. rewrite Hs; [| by vm_compute; set_solver | done].
    by rewrite IH. }
  by rewrite E.
Qed.

(** One address line of an address the server takes. *)
Lemma a_line_taken t ip w s : token ip -> (length ip <= max_ip_len config)%nat -> isLanIP ip = true ->
  (announcedCount s < kMaxAnnounceAddressesPerSession)%nat ->
  exists w' s', handle_line config clientId clientIp t (kAddrLinePrefix ++ ip) (w, s) = Some (w', s') /\
    ClientRegistry.ipToClientId (registry w') = <[ip := clientId]> (ClientRegistry.ipToClientId (registry w)) /\
    ClientRegistry.clientToExternalIp (registry w') = ClientRegistry.clientToExternalIp (registry w) /\
    localRegSnap s' = <[ip := clientId]> (localRegSnap s) /\ announcedCount s' = S (announcedCount s) /\ stats w' = stats w.
Proof.
  intros Ht Hl Hlan Hc. unfold handle_line. change (starts_with kExtIPLinePrefix (kAddrLinePrefix ++ ip)) with false.
  change (starts_with kAddrLinePrefix (kAddrLinePrefix ++ ip)) with true. cbv iota. unfold a_line.
  apply Nat.ltb_lt in Hc as ->. rewrite trim_value_token by done. cbv zeta. destruct Ht as [Hne _].
  rewrite bool_decide_eq_false_2 by done. apply Nat.leb_le in Hl as ->. rewrite Hlan. cbn [negb andb]. eexists _, _. by split_conj.
Qed.

Lemma a_lines_taken ls : forall clk w s, Forall (fun ip => token ip /\ (length ip <= max_ip_len config)%nat /\ isLanIP ip = true) ls ->
  (announcedCount s + length ls <= kMaxAnnounceAddressesPerSession)%nat -> localRegSnap s = ClientRegistry.ipToClientId (registry w) ->
  exists w' s', handle_lines config clientId clientIp ((fun ip => kAddrLinePrefix ++ ip) <$> ls) clk (w, s) = Some (w', s') /\
    (forall ip, ClientRegistry.ipToClientId (registry w') !! ip =
      if decide (ip ∈ ls) then Some clientId else ClientRegistry.ipToClientId (registry w) !! ip) /\
    ClientRegistry.clientToExternalIp (registry w') = ClientRegistry.clientToExternalIp (registry w) /\
    localRegSnap s' = ClientRegistry.ipToClientId (registry w') /\ stats w' = stats w.
Proof.
  induction ls as [| a ls IH]; intros clk w s Hls Hn Hr; cbn [fmap list_fmap handle_lines].
  - exists w, s. split_conj; [done | | done | done | done]. intros ip. by rewrite decide_False by apply not_elem_of_nil.
  - apply Forall_cons in Hls as [(Ht & Hl & Hlan) Hls]. cbn [length] in Hn.
    destruct (a_line_taken (clk 0%nat) a w s Ht Hl Hlan ltac:(lia)) as (w1 & s1 & -> & H1 & H2 & H3 & H4 & H5).
    destruct (IH (fun i => clk (S i)) w1 s1 Hls ltac:(lia) ltac:(by rewrite H1, H3, Hr)) as (w2 & s2 & E & G1 & G2 & G3 & G4).
    exists w2, s2. cbn [mbind option_bind]. split_conj; [exact E | | by rewrite G2 | exact G3 | by rewrite G4].
    intros ip. rewrite G1, H1. destruct (decide (ip = a)) as [-> | Hne].
    + rewrite lookup_insert_eq, (decide_True (P := a ∈ a :: ls)) by set_solver. by destruct (decide _).
    + rewrite lookup_insert_ne by done. by destruct (decide (ip ∈ ls)), (decide (ip ∈ a :: ls)); try set_solver.
Qed.

(** The external-address line of a session that may announce. *)
Lemma x_line_taken t ext w s : kAnnounceRateLimitSec <= seconds (WireLoop.steady t) - lastXLineSec s ->
  token (said ext) -> valid_ext_ip (said ext) = true ->
  exists w' s', handle_line config clientId clientIp t (kExtIPLinePrefix ++ said ext) (w, s) = Some (w', s') /\
    (forall ip, ClientRegistry.ipToClientId (registry w') !! ip = owner_after ∅ (ClientRegistry.ipToClientId (registry w)) ip) /\
    ClientRegistry.clientToExternalIp (registry w') = <[clientId := said ext]> (ClientRegistry.clientToExternalIp (registry w)) /\
    localRegSnap s' = ClientRegistry.ipToClientId (registry w') /\ announcedCount s' = 0%nat /\ stats w' = stats w.
Proof.
  intros Hr Ht Hv. unfold handle_line. change (starts_with kExtIPLinePrefix (kExtIPLinePrefix ++ said ext)) with true. cbv iota.
  unfold x_line. cbv zeta. apply Z.leb_le in Hr as ->. rewrite trim_value_token, Hv by done. eexists _, _.
  split_conj; [reflexivity | | reflexivity | reflexivity | reflexivity | reflexivity]. intros ip. cbn.
  unfold owner_after. rewrite (decide_False (P := ip ∈ (∅ : gset str))) by apply not_elem_of_empty.
  assert (F : filter (fun kv : str * str => kv.2 <> clientId) (ClientRegistry.ipToClientId (registry w)) !! ip =
    match ClientRegistry.ipToClientId (registry w) !! ip with Some c => if decide (c = clientId) then None else Some c | None => None end).
  { rewrite map_lookup_filter. destruct (_ !! ip) as [c |]; [| done]. cbn. destruct (decide (c = clientId)); [by rewrite option_guard_False by naive_solver | by rewrite option_guard_True]. }
  destruct (decide (clientIp = [])) as [He | He]; [by rewrite F, decide_False by naive_solver |].
  destruct (decide (ip = clientIp)) as [-> | Hne].
  - by rewrite lookup_insert_eq, decide_True by done.
  - by rewrite lookup_insert_ne, F, decide_False by naive_solver.
Qed.

Context `{!InetNtopLaws NT} `{!InetRoundtrip IN NT} `{!InetText IN}.

Lemma said_valid url e : NUL ∉ concat (q_recv e) ->
  let ext := (queryExternalIP url e).2 in token (said ext) /\ valid_ext_ip (said ext) = true.
Proof.
  intros Hn. cbv zeta. pose proof (external_ip_text url e Hn) as H. cbv zeta in H. revert H. generalize (queryExternalIP url e).2. intros ext H.
  unfold said. destruct (decide (ext = [])) as [-> | Hne].
  - split; [split; [done |]; repeat constructor | done].
  - destruct H as [? | (Ht & Hz & Hp)]; [done |]. split; [done |]. unfold valid_ext_ip. rewrite c_str_id by done. apply orb_true_iff. right.
    destruct Hp as [[a ->] | [b Hb]]; [done |]. destruct (inet_pton4 ext); [done |]. by rewrite Hb.
Qed.

(** C6: An announcement means to the server what the client measured. When a
    client sends the addresses of its interfaces and its external address, and
    the session's announcement limits allow it, the server reads the bytes as
    whole lines and takes every one of them: afterwards the addresses it
    attributes to the client are exactly the LAN addresses of its interfaces and
    the address of the connection, earlier announcements of it are gone, other
    clients keep theirs unless announced here, its external address is the one
    found or [null], and packets of an announced address count for the client
    at once. Nothing else of the statistics changes. *)
Theorem announce_understood (ifap : list (option SockAddr)) (url : str) (e : Http) (lan : list str) clk w s :
  Forall (fun ifa => forall sa, ifa = Some sa -> sized sa) ifap -> NUL ∉ concat (q_recv e) ->
  list_to_set lan = collectLanAddresses (Some ifap) -> (length lan <= kMaxAnnounceAddressesPerSession)%nat ->
  (45 <= max_ip_len config)%nat -> kAnnounceRateLimitSec <= seconds (WireLoop.steady (clk 0%nat)) - lastXLineSec s ->
  let ext := (queryExternalIP url e).2 in
  exists ls w' s', split_lines (announcement ext lan) = (ls, []) /\
    handle_lines config clientId clientIp ls clk (w, s) = Some (w', s') /\
    (forall ip, ClientRegistry.ipToClientId (registry w') !! ip = owner_after (collectLanAddresses (Some ifap)) (ClientRegistry.ipToClientId (registry w)) ip) /\
    ClientRegistry.clientToExternalIp (registry w') = <[clientId := said ext]> (ClientRegistry.clientToExternalIp (registry w)) /\
    (forall ip, ip ∈ collectLanAddresses (Some ifap) -> entityForIp w' s' ip = clientId) /\ stats w' = stats w.
Proof.
  intros Hsz Hn Hlan Hlen Hmax Hrate ext. destruct (said_valid url e Hn) as [He Hv]. fold ext in He, Hv.
  assert (Hls : Forall (fun ip => token ip /\ (length ip <= max_ip_len config)%nat /\ isLanIP ip = true) lan).
  { apply Forall_forall. intros ip Hip. assert (ip ∈ collectLanAddresses (Some ifap)) as (sa & Hsa & Ht)%collected by (rewrite <- Hlan; by apply elem_of_list_to_set).
    rewrite Forall_forall in Hsz. destruct (lan_text_spec sa ip (Hsz _ Hsa sa eq_refl) Ht) as [Hl (Htok & _ & Hle)]. split_conj; [done | lia | done]. }
  rewrite split_announcement; [| done | by eapply Forall_impl; [exact Hls |]; intros ? [? _]].
  destruct (x_line_taken (clk 0%nat) ext w s Hrate He Hv) as (w1 & s1 & Ex & X1 & X2 & X3 & X4 & X5).
  destruct (a_lines_taken lan (fun i => clk (S i)) w1 s1 Hls ltac:(lia) X3) as (w2 & s2 & Ea & A1 & A2 & A3 & A4).
  assert (Own : forall ip, ClientRegistry.ipToClientId (registry w2) !! ip = owner_after (collectLanAddresses (Some ifap)) (ClientRegistry.ipToClientId (registry w)) ip).
  { intros ip. rewrite A1, X1. unfold owner_after. rewrite (decide_False (P := ip ∈ (∅ : gset str))) by apply not_elem_of_empty. rewrite <- Hlan.
    destruct (decide (ip ∈ lan)) as [Hi | Hi]; [by rewrite (decide_True (P := ip ∈ (list_to_set lan : gset str))) by by apply elem_of_list_to_set | by rewrite (decide_False (P := ip ∈ (list_to_set lan : gset str))) by by rewrite elem_of_list_to_set]. }
  eexists _, w2, s2. split_conj; [reflexivity | | exact Own | by rewrite A2 | | by rewrite A4].
  - cbn [handle_lines]. rewrite Ex. exact Ea.
  - intros ip Hip. assert (isLanIP ip = true) as Hl.
    { rewrite <- Hlan, elem_of_list_to_set in Hip. rewrite Forall_forall in Hls. by destruct (Hls ip Hip) as (_ & _ & ?). }
    unfold entityForIp. rewrite Hl, A3, Own. unfold owner_after. by rewrite decide_True.
Qed.
End Announce.

(** ** A sample *)

(** Printers and parsers that fit together: dotted quads, and 16 bytes as hex
    digits behind two colons. *)
Definition dotted (a : str) : option str :=
  match a with
  | [a; b; c; d] => Some (to_string (byte_val a) ++ "." ++ to_string (byte_val b) ++ "." ++ to_string (byte_val c) ++ "." ++ to_string (byte_val d))
  | _ => None
  end.

Definition quad_char (c : ascii) : bool := is_digit c || bool_decide (c = "."%char).

#[local] Instance text_ntop : InetNtop := {
  inet_ntop4 := dotted;
  inet_ntop6 a := if (length a =? 16)%nat then Some ("::" ++ hexEncode a) else None
}.

#[local] Instance text_inet : Inet := {
  inet_pton4 s := if forallb quad_char s then parse_quad s else None;
  inet_pton6 s := if starts_with "::" s && forallb is_hex_lower (drop 2 s) then hex_pairs (drop 2 s) else None
}.

Lemma octet_digits c : Forall (fun d => is_digit d = true) (to_string (byte_val c)).
Proof. apply to_string_digits. Qed.

Lemma octet_short c : (length (to_string (byte_val c)) <= 3)%nat.
Proof. apply to_string_short; [pose proof (byte_val_range c); change (10 ^ Z.of_nat 3) with 1000; lia | lia]. Qed.

Lemma parse_octet_print c : parse_octet (to_string (byte_val c)) = Some (byte_val c).
Proof.
  unfold parse_octet. rewrite decide_False by apply to_string_nonempty. destruct (Nat.ltb_spec 3 (length (to_string (byte_val c)))) as [H | _]; [pose proof (octet_short c); lia |].
  rewrite (proj2 (forallb_Forall _ _)) by apply octet_digits. pose proof (byte_val_range c). rewrite to_string_val by lia. by rewrite (proj2 (Z.leb_le _ _)) by lia.
Qed.

Lemma dotted_chars a t : dotted a = Some t -> Forall (fun c => quad_char c = true) t /\ (length t <= 15)%nat /\ t <> [].
Proof.
  intros H. destruct a as [| a [| b [| c [| d [|]]]]]; try done. injection H as <-.
  assert (D : forall c, Forall (fun c => quad_char c = true) (to_string (byte_val c)))
    by (intros x; eapply Forall_impl; [apply octet_digits |]; intros y Hy; unfold quad_char; by rewrite Hy).
  assert (P : Forall (fun c => quad_char c = true) ("." : str)) by by constructor.
  split_conj; [repeat first [apply D | apply Forall_app; split; [apply D |] | apply Forall_cons; split; [done |]] | | intros E; apply app_eq_nil in E as [E _]; by apply to_string_nonempty in E].
  pose proof (octet_short a). pose proof (octet_short b). pose proof (octet_short c). pose proof (octet_short d).
  repeat (rewrite length_app; cbn [length app]). lia.
Qed.

Lemma chars_printable f n t : t <> [] -> Forall (fun c => f c = true) t -> (length t <= n)%nat ->
  (forall c, f c = true -> isSep c = false /\ c <> NUL) -> printable n t.
Proof.
  intros Hne Hf Hl H. rewrite Forall_forall in Hf. unfold printable, token. split_conj; [done | | | done].
  - apply Forall_forall. intros c Hc%Hf%H. by destruct Hc as [-> _].
  - intros Hin%Hf%H. by destruct Hin.
Qed.

Lemma quad_char_ok c : quad_char c = true -> isSep c = false /\ c <> NUL.
Proof. destruct c as [[] [] [] [] [] [] [] []]; vm_compute; by intros. Qed.

Definition colon_char (c : ascii) : bool := bool_decide (c = ":"%char) || is_hex_lower c.

Lemma colon_char_ok c : colon_char c = true -> isSep c = false /\ c <> NUL.
Proof. destruct c as [[] [] [] [] [] [] [] []]; vm_compute; by intros. Qed.

Lemma colons_chars h : Forall (fun c => is_hex_lower c = true) h -> Forall (fun c => colon_char c = true) ("::" ++ h).
Proof. intros H. apply Forall_app. split; [by repeat constructor |]. eapply Forall_impl; [exact H |]. intros c Hc. unfold colon_char. rewrite Hc. by rewrite orb_true_r. Qed.

#[local] Instance text_ntop_laws : InetNtopLaws text_ntop.
Proof.
  split; intros a Ha; cbn.
  - destruct (dotted a) as [t |] eqn:E; [| by destruct a as [| ? [| ? [| ? [| ? [|]]]]]]. exists t. split; [done |].
    destruct (dotted_chars a t E) as (Hc & Hl & Hn). eapply chars_printable; [done | exact Hc | lia | apply quad_char_ok].
  - rewrite Ha. eexists. split; [reflexivity |]. eapply chars_printable; [done | by apply colons_chars, hexEncode_hex | | apply colon_char_ok].
    cbn [length app]. rewrite hexEncode_length, Ha. lia.
Qed.

#[local] Instance text_roundtrip : InetRoundtrip text_inet text_ntop.
Proof.
  split; intros a t Ha; cbn.
  - intros E. destruct (dotted_chars a t E) as (Hc & _). rewrite (proj2 (forallb_Forall _ _)) by done.
    destruct a as [| a [| b [| c [| d [|]]]]]; try done. injection E as <-. unfold parse_quad. cbn [app].
    rewrite !split_char_app, split_char_none by by apply to_string_no. rewrite !parse_octet_print. cbn. f_equal.
    unfold quad. rewrite !lor_shiftl by (lia || apply byte_val_range). lia.
  - rewrite Ha. intros [= <-]. split.
    + destruct (forallb quad_char _) eqn:E; [| done]. cbn in E. done.
    + change (drop 2 ("::" ++ hexEncode a)) with (hexEncode a). rewrite (proj2 (forallb_Forall _ _)) by apply hexEncode_hex. cbn. apply hex_pairs_encode.
Qed.

#[local] Instance text_words : InetText text_inet.
Proof.
  split; intros s x; cbn -[starts_with drop].
  - destruct (forallb quad_char s) eqn:E; [| done]. intros Hs. apply forallb_Forall in E.
    destruct (chars_printable quad_char (length s) s) as [Ht _]; [by intros -> | done | done | apply quad_char_ok | done].
  - destruct (starts_with _ s) eqn:Es; [| done]. apply starts_with_spec in Es as [r ->]. cbn [app drop andb].
    rewrite drop_0. destruct (forallb is_hex_lower r) eqn:E; [| done]. intros _. apply forallb_Forall, colons_chars in E.
    destruct (chars_printable colon_char (length ("::" ++ r)) ("::" ++ r)) as [Ht _]; [done | done | done | apply colon_char_ok | done].
Qed.

(** A machine with a private and a public address, a loopback device and one
    without an address. *)
Definition sample_interfaces : list (option SockAddr) :=
  [Some (Inet4 [byte_of 10; byte_of 0; byte_of 0; byte_of 5]); Some (Inet4 [byte_of 203; byte_of 0; byte_of 113; byte_of 9]); None;
   Some (Inet6 (replicate 15 NUL ++ [byte_of 1]))].
Definition sample_lan : list str := ["10.0.0.5" : str; "::00000000000000000000000000000001" : str].
Definition sample_answer : Http := mkHttp true true InProgress true false true ["HTTP/1.0 200 OK" ++ CRLFCRLF; "203.0.113.9" ++ [LF]].

#[local] Abbreviation sample_config := (mkWireConfig 4096 64 50 300 1000).

Lemma announce_understood_witness :
  announcement (queryExternalIP "http://ip.example.org/" sample_answer).2 sample_lan =
    "X 203.0.113.9" ++ [LF] ++ "A 10.0.0.5" ++ [LF] ++ "A ::00000000000000000000000000000001" ++ [LF] /\
  exists ls w' s', split_lines (announcement (queryExternalIP "http://ip.example.org/" sample_answer).2 sample_lan) = (ls, []) /\
    handle_lines (SH := sample_hash) sample_config "c1" "198.51.100.7" ls (fun _ => mkClock (100 * 1000000000) 0) (sample_shared, session_init sample_shared (mkClock 0 0) (mkClock 0 0)) = Some (w', s') /\
    entityForIp w' s' "10.0.0.5" = "c1".
Proof.
  split; [by vm_compute |].
  destruct (announce_understood (SH := sample_hash) sample_config "c1" "198.51.100.7" sample_interfaces "http://ip.example.org/" sample_answer sample_lan
    (fun _ => mkClock (100 * 1000000000) 0) sample_shared (session_init sample_shared (mkClock 0 0) (mkClock 0 0))) as (ls & w' & s' & H1 & H2 & _ & _ & H3 & _).
  - repeat (constructor; [by intros ? [= <-] |]). constructor.
  - apply (bool_decide_unpack _). by vm_compute.
  - apply (bool_decide_unpack _). by vm_compute.
  - by apply Nat.leb_le.
  - change (45 <= 50)%nat. by apply Nat.leb_le.
  - by apply Z.leb_le.
  - exists ls, w', s'. split_conj; [exact H1 | exact H2 |]. apply H3. apply collected. eexists. split; [by left | by vm_compute].
Defined.
