(* ===== verification/Accept.v ===== *)
(** The accept loop of the server ([server_core.cpp], [runServer]): the poll
    and accept results, the two connection limits, the TLS set-up, the choice
    of the worker, and the steps in which a worker gives back what it holds.
    Sockets and TLS enter as the results of their calls. The theorem says that
    in every interleaving the counters are those of the connections being
    served, within both limits, and that a connection gets the worker that
    its protocol asks for. *)

From S2P Require Import Prelude CppString Wire WsHandshake RateLimit.
Local Open Scope Z_scope.

(** ** Routing *)

Inductive Route := ToWebSocket | ToWire | ToWeb.

Definition wsPrefix : str := "GET " ++ kWsPath.

(** [alpn]: the protocol TLS settled on, empty for none; [avail]: the bytes of
    the connection that are there to be peeked at, of which the peek shows as
    many as the prefix has. *)
(* server_core.cpp:3027-3050 runServer, protocol *)
Definition route_of (alpn avail : str) : Route :=
  let peeked := take (length wsPrefix) avail in
  let isWireClient := bool_decide (alpn = kAlpnNtmWire) in
  let isWebSocket := bool_decide (peeked = wsPrefix) in
  if isWebSocket then ToWebSocket else if isWireClient then ToWire else ToWeb.

(** ** The loop *)

(** What a worker still holds: its address and its place; its place; nothing
    but its entry; the flag is set. *)
Inductive Phase := Serving | AddressGiven | PlaceGiven | Done.

#[export] Instance phase_eq_dec : EqDecision Phase.
Proof. solve_decision. Defined.

(* server_core.cpp:2870-2876 runServer, WorkerEntry *)
Record Worker := mkWorker { w_route : Route; w_ip : str; w_phase : Phase }.

(** [closed]: sockets the loop closed itself. *)
Record Loop := mkLoop {
  running : bool;
  activeConnections : Z;
  perIP : PerIPConnectionLimiter.t;
  workers : list Worker;
  closed : Z
}.

Record Limits := mkLimits { max_concurrent_connections : Z; max_connections_per_ip : Z }.

(** An accepted connection: its address as text, or the raw value when
    [inet_ntop] fails, how far TLS gets, and whether a thread starts. *)
Inductive Tls := NoSsl | NoFd | NoHandshake | Negotiated (alpn avail : str).
Record Accepted := mkAccepted { a_ntop : option str; a_raw : Z; a_tls : Tls; a_spawns : bool }.

(** The results of [poll] and [accept]. *)
Inductive Polled := Interrupted | PollFailed | Quiet | NotReadable | AcceptRetry | AcceptExhausted | AcceptFatal | Incoming (a : Accepted).

(* server_core.cpp:2952-2971 runServer, address *)
Definition client_ip (a : Accepted) : str :=
  match a_ntop a with Some t => t | None => "raw:" ++ to_string (a_raw a) end.

(* server_core.cpp:2878-2892 reapFinishedWorkers *)
Definition reapFinishedWorkers (s : Loop) : Loop :=
  mkLoop (running s) (activeConnections s) (perIP s) (filter (fun w => w_phase w <> Done) (workers s)) (closed s).

Definition drop_connection (s : Loop) : Loop :=
  mkLoop (running s) (activeConnections s) (perIP s) (workers s) (closed s + 1).

(** [perIPLimiter.release], [activeConnections--], [close]. *)
(* server_core.cpp:2986-2994 runServer, SSL_new fails *)
Definition give_back (ip : str) (s : Loop) : Loop :=
  mkLoop (running s) (u64 (activeConnections s - 1)) (PerIPConnectionLimiter.release ip (perIP s)) (workers s) (closed s + 1).

(* server_core.cpp:2942-3149 runServer, one connection *)
Definition accept_one (l : Limits) (a : Accepted) (s : Loop) : Loop :=
  if max_concurrent_connections l <=? activeConnections s then drop_connection s
  else
    let clientIpStr := client_ip a in
    let (m, ok) := PerIPConnectionLimiter.tryAcquire (max_connections_per_ip l) clientIpStr (perIP s) in
    let s := mkLoop (running s) (activeConnections s) m (workers s) (closed s) in
    if negb ok then drop_connection s
    else
      let s := mkLoop (running s) (u64 (activeConnections s + 1)) (perIP s) (workers s) (closed s) in
      match a_tls a with
      | NoSsl | NoFd | NoHandshake => give_back clientIpStr s
      | Negotiated alpn avail =>
          if a_spawns a then
            mkLoop (running s) (activeConnections s) (perIP s) (workers s ++ [mkWorker (route_of alpn avail) clientIpStr Serving]) (closed s)
          else give_back clientIpStr s
      end.

Definition stop (s : Loop) : Loop := mkLoop false (activeConnections s) (perIP s) (workers s) (closed s).

(* server_core.cpp:2897-3150 runServer, accept loop *)
Definition accept_round (l : Limits) (p : Polled) (s : Loop) : Loop :=
  if negb (running s) then s
  else match p with
  | Interrupted => s
  | PollFailed => stop s
  | _ =>
      let s := reapFinishedWorkers s in
      match p with
      | AcceptFatal => stop s
      | Incoming a => accept_one l a s
      | _ => s
      end
  end.

(** A worker gives back what it holds in the order of its destructors. *)
(* server_core.cpp:1575-1594 connectionThread, guards *)
(* server_core.cpp:1809-1824 wsConnectionThread, guards *)
(* server_core.cpp:2288-2303 httpWebThread, guards *)
Definition worker_step (i : nat) (s : Loop) : Loop :=
  match workers s !! i with
  | None => s
  | Some w =>
      let next p := <[i := mkWorker (w_route w) (w_ip w) p]> (workers s) in
      match w_phase w with
      | Serving => mkLoop (running s) (activeConnections s) (PerIPConnectionLimiter.release (w_ip w) (perIP s)) (next AddressGiven) (closed s)
      | AddressGiven => mkLoop (running s) (u64 (activeConnections s - 1)) (perIP s) (next PlaceGiven) (closed s)
      | PlaceGiven => mkLoop (running s) (activeConnections s) (perIP s) (next Done) (closed s)
      | Done => s
      end
  end.

Definition loop_init : Loop := mkLoop true 0 ∅ [] 0.

(** Rounds of the loop and steps of the workers, in any order. *)
Inductive step (l : Limits) : Loop -> Loop -> Prop :=
| step_round p s : step l s (accept_round l p s)
| step_worker i s : step l s (worker_step i s).

(** ** Accounts *)

Definition holds_place (w : Worker) : bool := match w_phase w with Serving | AddressGiven => true | _ => false end.
Definition holds_address (w : Worker) : bool := match w_phase w with Serving => true | _ => false end.

Definition places (ws : list Worker) : Z := Z.of_nat (length (filter (fun w => holds_place w = true) ws)).
Definition addresses (ws : list Worker) : list str := w_ip <$> filter (fun w => holds_address w = true) ws.

Definition limits_ok (l : Limits) : Prop :=
  0 <= max_concurrent_connections l < 2 ^ 32 /\ PerIPConnectionLimiter.maxPerIP_ (max_connections_per_ip l) < 2 ^ 32.

Definition loop_inv (l : Limits) (s : Loop) : Prop :=
  activeConnections s = places (workers s) /\ places (workers s) <= max_concurrent_connections l /\
  PerIPConnectionLimiter.counts_open (max_connections_per_ip l) (addresses (workers s), perIP s).

(** ** Lemmas *)

Lemma places_app a b : places (a ++ b) = places a + places b.
Proof. unfold places. rewrite filter_app, length_app. lia. Qed.

Lemma addresses_app a b : addresses (a ++ b) = addresses a ++ addresses b.
Proof. unfold addresses. by rewrite filter_app, fmap_app. Qed.

Lemma places_one w : places [w] = if holds_place w then 1 else 0.
Proof. unfold places. rewrite filter_cons, filter_nil. by destruct (holds_place w). Qed.

Lemma addresses_one w : addresses [w] = if holds_address w then [w_ip w] else [].
Proof. unfold addresses. rewrite filter_cons, filter_nil. by destruct (holds_address w). Qed.

Lemma places_nonneg ws : 0 <= places ws.
Proof. unfold places. lia. Qed.

Definition unfinished (ws : list Worker) : list Worker := filter (fun w => w_phase w <> Done) ws.

Lemma unfinished_accounts ws : places (unfinished ws) = places ws /\ addresses (unfinished ws) = addresses ws.
Proof.
  induction ws as [| w ws [IH1 IH2]]; [done |].
  assert (E : unfinished (w :: ws) = (if decide (w_phase w <> Done) then [w] else []) ++ unfinished ws) by (unfold unfinished; rewrite filter_cons; by case_decide).
  rewrite E, places_app, addresses_app, IH1, IH2. change (w :: ws) with ([w] ++ ws). rewrite places_app, addresses_app.
  case_decide as H; [done |]. rewrite places_one, addresses_one. unfold holds_place, holds_address. assert (Ep : w_phase w = Done) by (destruct (w_phase w); [by destruct H .. | done]). by rewrite Ep.
Qed.

Section Accounts.
Context (l : Limits) (Hl : limits_ok l).

Let counted := PerIPConnectionLimiter.counts_open (max_connections_per_ip l).

Lemma reap_inv s : loop_inv l s -> loop_inv l (reapFinishedWorkers s).
Proof.
  intros (A & B & C). destruct (unfinished_accounts (workers s)) as [E1 E2]. unfold loop_inv, reapFinishedWorkers. cbn [activeConnections workers perIP].
  fold (unfinished (workers s)). by rewrite E1, E2.
Qed.

Lemma accept_one_counts ips m ip m' ok : counted (ips, m) -> PerIPConnectionLimiter.tryAcquire (max_connections_per_ip l) ip m = (m', ok) ->
  counted (if ok then ip :: ips else ips, m').
Proof.
  intros H E. destruct Hl as [_ Hm]. eapply PerIPConnectionLimiter.step_counts; [exact Hm | exact H |].
  destruct ok; [by apply PerIPConnectionLimiter.step_admit | by apply (PerIPConnectionLimiter.step_reject _ ip)].
Qed.

Lemma end_counts a ip b m : counted (a ++ ip :: b, m) -> counted (a ++ b, PerIPConnectionLimiter.release ip m).
Proof. intros H. destruct Hl as [_ Hm]. eapply PerIPConnectionLimiter.step_counts; [exact Hm | exact H |]. apply PerIPConnectionLimiter.step_end. Qed.

Lemma counted_swap ips ip m : counted (ip :: ips, m) -> counted (ips ++ [ip], m).
Proof.
  intros H k Hk. destruct (H k Hk) as [H1 H2]. cbn [fst snd] in *.
  rewrite PerIPConnectionLimiter.open_cons in *. rewrite PerIPConnectionLimiter.open_app, PerIPConnectionLimiter.open_cons.
  change (PerIPConnectionLimiter.open k []) with 0. rewrite Z.add_0_r, Z.add_comm. done.
Qed.

(** What becomes of an accepted connection. *)
Lemma accept_one_spec a s : loop_inv l s ->
  let s' := accept_one l a s in
  loop_inv l s' /\ running s' = running s /\
  match a_tls a with
  | Negotiated alpn avail =>
      if (places (workers s) <? max_concurrent_connections l) &&
         (PerIPConnectionLimiter.tryAcquire (max_connections_per_ip l) (client_ip a) (perIP s)).2 && a_spawns a
      then workers s' = workers s ++ [mkWorker (route_of alpn avail) (client_ip a) Serving] /\ closed s' = closed s
      else workers s' = workers s /\ closed s' = closed s + 1
  | _ => workers s' = workers s /\ closed s' = closed s + 1
  end.
Proof.
  intros (A & B & C). cbv zeta. unfold accept_one. rewrite A. pose proof (places_nonneg (workers s)) as Hn.
  destruct (max_concurrent_connections l <=? places (workers s)) eqn:E; bool_to_prop.
  { rewrite (proj2 (Z.ltb_ge _ (max_concurrent_connections l))) by done. split; [done |]. split; [done |]. by destruct (a_tls a). }
  rewrite (proj2 (Z.ltb_lt _ (max_concurrent_connections l))) by done. cbn [andb].
  destruct (PerIPConnectionLimiter.tryAcquire _ _ _) as [m ok] eqn:Et. pose proof (accept_one_counts _ _ _ _ _ C Et) as C'. cbn [snd].
  destruct ok; cbn [negb andb]; [| split; [done |]; split; [done |]; by destruct (a_tls a)].
  assert (G : loop_inv l (give_back (client_ip a) (mkLoop (running s) (u64 (activeConnections s + 1)) m (workers s) (closed s)))).
  { unfold loop_inv, give_back. cbn [activeConnections workers perIP]. destruct Hl as [Hm _]. rewrite A, (u64_small (_ + 1)) by lia. rewrite u64_small by lia.
    split; [lia |]. split; [done |]. exact (end_counts [] (client_ip a) (addresses (workers s)) m C'). }
  rewrite A in G. destruct (a_tls a) as [| | | alpn avail]; try by split_conj. destruct (a_spawns a); [| by split_conj].
  split; [| by split_conj]. unfold loop_inv. cbn [activeConnections workers perIP]. destruct Hl as [Hm _].
  rewrite places_app, places_one, addresses_app, addresses_one. cbn [holds_place holds_address w_phase w_ip]. rewrite u64_small by lia.
  split; [done |]. split; [lia |]. by apply counted_swap.
Qed.

Lemma round_inv p s : loop_inv l s -> loop_inv l (accept_round l p s).
Proof.
  intros H. unfold accept_round. destruct (running s); [| done]. cbn [negb]. pose proof (reap_inv s H) as H'.
  destruct p; try done. by destruct (accept_one_spec a _ H').
Qed.

Lemma worker_inv i s : loop_inv l s -> loop_inv l (worker_step i s).
Proof.
  intros (A & B & C). unfold worker_step. destruct (workers s !! i) as [w |] eqn:E; [| done].
  pose proof (take_drop_middle _ _ _ E) as Em. assert (Hi : (i < length (workers s))%nat) by (by eapply lookup_lt_Some).
  assert (Ins : forall p, <[i := mkWorker (w_route w) (w_ip w) p]> (workers s) = take i (workers s) ++ mkWorker (w_route w) (w_ip w) p :: drop (S i) (workers s)).
  { intros p. by rewrite insert_take_drop. }
  set (a := take i (workers s)) in *. set (b := drop (S i) (workers s)) in *. clearbody a b. rewrite <- Em in A, B, C.
  change (a ++ w :: b) with (a ++ [w] ++ b) in A, B, C. rewrite !places_app, places_one in A, B. rewrite !addresses_app, addresses_one in C.
  pose proof (places_nonneg a). pose proof (places_nonneg b). destruct Hl as [Hm _].
  assert (P : forall q, places (a ++ mkWorker (w_route w) (w_ip w) q :: b) = places a + ((if holds_place (mkWorker (w_route w) (w_ip w) q) then 1 else 0) + places b)).
  { intros q. change (mkWorker (w_route w) (w_ip w) q :: b) with ([mkWorker (w_route w) (w_ip w) q] ++ b). by rewrite !places_app, places_one. }
  assert (Q : forall q, addresses (a ++ mkWorker (w_route w) (w_ip w) q :: b) = addresses a ++ (if holds_address (mkWorker (w_route w) (w_ip w) q) then [w_ip w] else []) ++ addresses b).
  { intros q. change (mkWorker (w_route w) (w_ip w) q :: b) with ([mkWorker (w_route w) (w_ip w) q] ++ b). by rewrite !addresses_app, addresses_one. }
  unfold holds_place, holds_address in *. destruct (w_phase w) eqn:Ep; cbn [w_phase] in *; unfold loop_inv; cbn [activeConnections workers perIP];
    rewrite ?Ins, ?P, ?Q; cbn [app].
  - split; [done |]. split; [done |]. exact (end_counts (addresses a) (w_ip w) (addresses b) _ C).
  - rewrite A, u64_small by lia. split; [lia |]. split; [lia | done].
  - split; [done |]. split; [done | done].
  - rewrite <- Em. change (a ++ w :: b) with (a ++ [w] ++ b). rewrite !places_app, places_one, !addresses_app, addresses_one.
    unfold holds_place, holds_address. rewrite Ep. done.
Qed.

Lemma init_inv : loop_inv l loop_init.
Proof.
  destruct Hl as [Hm _]. split; [done |]. split; [change (0 <= max_concurrent_connections l); lia |]. intros ip _. cbn [fst snd perIP loop_init]. rewrite lookup_empty. split; [done |].
  change (0 <= PerIPConnectionLimiter.maxPerIP_ (max_connections_per_ip l)). unfold PerIPConnectionLimiter.maxPerIP_. destruct (Z.ltb_spec 0 (max_connections_per_ip l)); lia.
Qed.

(** What a connection asks for: its first bytes decide before the protocol of
    the handshake does. *)
Inductive asks (alpn avail : str) : Route -> Prop :=
| asks_websocket rest : avail = "GET /ntm-ws" ++ rest -> asks alpn avail ToWebSocket
| asks_wire : (forall rest, avail <> "GET /ntm-ws" ++ rest) -> alpn = "ntm-wire" -> asks alpn avail ToWire
| asks_web : (forall rest, avail <> "GET /ntm-ws" ++ rest) -> alpn <> "ntm-wire" -> asks alpn avail ToWeb.

Lemma route_asked alpn avail : asks alpn avail (route_of alpn avail).
Proof.
  unfold route_of. change wsPrefix with ("GET /ntm-ws" : str). cbv zeta. case_bool_decide as Ht.
  - apply (asks_websocket _ _ (drop (length ("GET /ntm-ws" : str)) avail)). by rewrite <- Ht at 1; rewrite take_drop.
  - assert (forall rest, avail <> "GET /ntm-ws" ++ rest) by (intros rest ->; by apply Ht).
    case_bool_decide; [by apply asks_wire | by apply asks_web].
Qed.

Lemma reach_inv s : reach (step l) loop_init s -> loop_inv l s.
Proof.
  apply (reach_invariant (step l) (loop_inv l)); [exact init_inv |]. intros s1 s2 H Hs. destruct Hs; [by apply round_inv | by apply worker_inv].
Qed.

(** C13: the accept loop: in every interleaving of accepted connections, their
    errors, and workers giving back what they hold, the connection count and
    the counts per address are exactly those of the connections being served
    and stay within both limits; and a connection below both limits whose TLS
    set-up succeeds and whose thread starts is served by exactly one worker: the
    WebSocket worker when its first bytes are those of the upgrade request,
    whatever TLS settled on, else the data worker when TLS settled on
    ["ntm-wire"], else the dashboard's. Every other connection is closed and
    leaves the counts as they were. *)
Theorem accept_accounting (s : Loop) (a : Accepted) :
  reach (step l) loop_init s ->
  activeConnections s = places (workers s) /\ activeConnections s <= max_concurrent_connections l /\
  (forall ip, ip <> [] ->
     PerIPConnectionLimiter.count (perIP s) ip = PerIPConnectionLimiter.open ip (addresses (workers s)) /\
     PerIPConnectionLimiter.open ip (addresses (workers s)) <= PerIPConnectionLimiter.maxPerIP_ (max_connections_per_ip l)) /\
  (running s = true ->
     let s' := accept_round l (Incoming a) s in
     match a_tls a with
     | Negotiated alpn avail =>
         if (activeConnections s <? max_concurrent_connections l) &&
            (bool_decide (client_ip a = []) || (PerIPConnectionLimiter.open (client_ip a) (addresses (workers s)) <? PerIPConnectionLimiter.maxPerIP_ (max_connections_per_ip l))) &&
            a_spawns a
         then exists r, asks alpn avail r /\ workers s' = unfinished (workers s) ++ [mkWorker r (client_ip a) Serving] /\ closed s' = closed s
         else workers s' = unfinished (workers s) /\ closed s' = closed s + 1
     | _ => workers s' = unfinished (workers s) /\ closed s' = closed s + 1
     end).
Proof.
  intros H%reach_inv. pose proof H as (A & B & C). split; [done |]. split; [lia |]. split.
  - intros ip Hip. rewrite (PerIPConnectionLimiter.count_open _ _ _ ip Hip C). split; [done |]. by destruct (C ip Hip).
  - intros Hr. cbv zeta. unfold accept_round. rewrite Hr. cbn [negb]. pose proof (reap_inv s H) as H'.
    destruct (accept_one_spec a _ H') as (_ & _ & S). cbv zeta in S. destruct (unfinished_accounts (workers s)) as [E1 E2].
    cbn [reapFinishedWorkers workers perIP closed] in S. fold (unfinished (workers s)) in S. rewrite E1, <- A in S.
    destruct (a_tls a) as [| | | alpn avail]; try exact S.
    assert (T : (PerIPConnectionLimiter.tryAcquire (max_connections_per_ip l) (client_ip a) (perIP s)).2 =
      bool_decide (client_ip a = []) || (PerIPConnectionLimiter.open (client_ip a) (addresses (workers s)) <? PerIPConnectionLimiter.maxPerIP_ (max_connections_per_ip l))).
    { unfold PerIPConnectionLimiter.tryAcquire. destruct (decide (client_ip a = [])) as [-> | Hne]; [done |]. rewrite bool_decide_false by done. cbn [orb].
      rewrite (PerIPConnectionLimiter.count_open _ _ _ _ Hne C).
      destruct (_ <=? _) eqn:E; cbn [snd]; bool_to_prop; symmetry; [by apply Z.ltb_ge | by apply Z.ltb_lt]. }
    rewrite T in S. destruct (_ && _); [| exact S]. exists (route_of alpn avail). split; [apply route_asked | exact S].
Qed.
End Accounts.

(** ** Sample *)

#[local] Abbreviation sample_limits := (mkLimits 10 2).
#[local] Abbreviation sample_accept tls := (mkAccepted (Some ("198.51.100.7" : str)) 0 tls true).

Lemma accept_accounting_witness :
  let s := accept_round sample_limits (Incoming (sample_accept NoHandshake)) (accept_round sample_limits (Incoming (sample_accept (Negotiated "ntm-wire" []))) loop_init) in
  activeConnections s = 1 /\ closed s = 1 /\
  workers (accept_round sample_limits (Incoming (sample_accept (Negotiated "http/1.1" "GET /ntm-ws HTTP/1.1"))) s) =
    [mkWorker ToWire "198.51.100.7" Serving; mkWorker ToWebSocket "198.51.100.7" Serving].
Proof.
  cbv zeta.
  destruct (accept_accounting sample_limits ltac:(unfold limits_ok; cbn; lia)
    (accept_round sample_limits (Incoming (sample_accept NoHandshake)) (accept_round sample_limits (Incoming (sample_accept (Negotiated "ntm-wire" []))) loop_init))
    (sample_accept (Negotiated "http/1.1" "GET /ntm-ws HTTP/1.1"))) as (A & _ & _ & S).
  - eapply reach_step; [eapply reach_step; [apply reach_refl | apply step_round] | apply step_round].
  - split; [rewrite A; vm_compute; reflexivity |]. split; [vm_compute; reflexivity |]. specialize (S eq_refl). cbv zeta in S. cbn [a_tls] in S.
    match type of S with if ?b then _ else _ => replace b with true in S by (vm_compute; reflexivity) end. destruct S as (r & Hr & S & _).
    destruct Hr as [rest _ | Hn _ | Hn _]; [exact S | exfalso; exact (Hn " HTTP/1.1" eq_refl) | exfalso; exact (Hn " HTTP/1.1" eq_refl)].
Defined.
