(* ===== verification/ServerTls.v ===== *)
(** The TLS side of the server ([server_core.cpp]): its context and the
    callback that settles the protocol of a connection, and what the client of
    the program gets from it. OpenSSL's file functions are arguments. *)

From S2P Require Import Prelude CppString Wire WireLoop TlsConnect Accept.
From stdpp Require Import list.
Local Open Scope Z_scope.

(** ** The callback *)

(** Where the answer lies: at an offset of the client's buffer, or in the
    program's own text. *)
Inductive Out := Offered (off len : nat) | Own (text : str).

(** The first entry of the offer [s], which starts at [off], that is the
    selected name; the fuel is the length of the buffer. *)
(* server_core.cpp:1184-1195 alpnSelectCallback, loop *)
Fixpoint find_offer (fuel : nat) (selected s : str) (off : nat) : option (nat * nat) :=
  match fuel, s with
  | S fuel, l :: s =>
      let len := Z.to_nat (byte_val l) in
      if (length s <? len)%nat then None
      else if decide (take len s = selected) then Some (S off, len)
      else find_offer fuel selected (drop len s) (S off + len)
  | _, _ => None
  end.

(* server_core.cpp:1174-1202 alpnSelectCallback *)
Definition alpnSelectCallback (inb : str) : Out :=
  match find_offer (length inb) (selectAlpnFromClientList inb) inb 0 with
  | Some (off, len) => Offered off len
  | None => Own kAlpnHttp11
  end.

(** The text the answer stands for. *)
Definition out_text (inb : str) (o : Out) : str :=
  match o with Offered off len => take len (drop off inb) | Own t => t end.

(** ** The context *)

(** The steps that can fail: the context, the certificate chain, the key, and
    whether the two belong together. *)
Record Files := mkFiles { f_ctx : bool; f_chain : bool; f_key : bool; f_match : bool }.

Record ServerCtx := mkServerCtx { minTls12 : bool; ciphers : str; sessionCache : bool; sessionTimeout : Z; select : str -> Out }.

(* server_core.cpp:1204-1241 createServerTLSContext *)
Definition createServerTLSContext (f : Files) (o : Os) : option ServerCtx * Os :=
  if negb (f_ctx f) then (None, o)
  else
    let o := ctx_new o in
    if negb (f_chain f) then (None, ctx_free o)
    else if negb (f_key f) then (None, ctx_free o)
    else if negb (f_match f) then (None, ctx_free o)
    else (Some (mkServerCtx true "ECDHE+AESGCM:ECDHE+CHACHA20" false kMaxSessionSeconds alpnSelectCallback), o).

(** ** Lemmas *)

Lemma find_offer_text fuel selected s : forall off i n (inb : str), drop off inb = s -> find_offer fuel selected s off = Some (i, n) ->
  take n (drop i inb) = selected.
Proof.
  revert s. induction fuel as [| fuel IH]; intros s off i n inb Hs; [by destruct s |]. destruct s as [| l s]; [done |]. cbn [find_offer]. cbv zeta.
  assert (H1 : drop (S off) inb = s) by (replace (S off) with (off + 1)%nat by lia; by rewrite <- drop_drop, Hs).
  destruct (_ <? _)%nat; [done |]. destruct (decide (take _ s = selected)) as [E |].
  - intros [= <- <-]. by rewrite H1.
  - apply IH. by rewrite <- drop_drop, H1.
Qed.

(** A name that one pass of the selection finds is found at its place. *)
Lemma pass_found fuel name s off : alpn_pass fuel name s = true -> is_Some (find_offer fuel name s off).
Proof.
  revert s off. induction fuel as [| fuel IH]; intros s off; [by destruct s |]. destruct s as [| l s]; [done |]. cbn [alpn_pass find_offer]. cbv zeta.
  destruct (_ <? _)%nat; [done |]. destruct (Nat.eqb_spec (Z.to_nat (byte_val l)) 8) as [E | E]; cbn [andb].
  - rewrite E. destruct (decide (take 8 s = name)) as [Ht |]; [by eexists |]. rewrite bool_decide_eq_false_2 by done. apply IH.
  - intros H. destruct (decide _); [by eexists |]. by apply IH.
Qed.

(** The callback answers with what the selection chose, for every buffer, well
    formed or not. *)
Lemma callback_selects (inb : str) : out_text inb (alpnSelectCallback inb) = selectAlpnFromClientList inb.
Proof.
  unfold alpnSelectCallback. destruct (find_offer _ _ _ _) as [[off len] |] eqn:E; cbn [out_text].
  - apply (find_offer_text _ _ _ _ _ _ _ (drop_0 inb) E).
  - unfold selectAlpnFromClientList in *. destruct (alpn_pass _ kAlpnNtmWire inb) eqn:E1; [| clear; by destruct (alpn_pass (length inb) kAlpnHttp11 inb)].
    apply (pass_found _ _ _ 0) in E1 as [x Hx]. by rewrite Hx in E.
Qed.

(** The client of the program, connecting over TLS, gets a data connection,
    whatever its first bytes are, the prefix of a WebSocket request apart. *)
Lemma client_gets_data_worker `{OpenSsl} made caPath o ctx o' f o1 sctx o2 avail :
  createClientTLSContext made caPath o = (Some ctx, o') -> createServerTLSContext f o1 = (Some sctx, o2) -> (forall rest, avail <> wsPrefix ++ rest) ->
  route_of (out_text (alpn ctx) (select sctx (alpn ctx))) avail = ToWire.
Proof.
  intros Hc Hs Hp. unfold createServerTLSContext in Hs. destruct f as [[] [] [] []]; cbn in Hs; try done. injection Hs as <- <-. cbn [select].
  rewrite callback_selects, (offer_selected _ _ _ _ _ Hc). unfold route_of. cbv zeta. rewrite bool_decide_eq_false_2, bool_decide_eq_true_2; [done | done |].
  intros E. apply (Hp (drop (length wsPrefix) avail)). by rewrite <- E at 1; rewrite take_drop.
Qed.

(** A context that cannot be completed is freed. *)
Lemma server_context_freed f o o' : createServerTLSContext f o = (None, o') -> o' = o.
Proof. unfold createServerTLSContext. destruct f as [[] [] [] []]; cbn; try done; intros [= <-]; by destruct o. Qed.
