(* ===== verification/Startup.v ===== *)
(** Start-up: the client's [main] ([client_main.cpp]) and the start of
    [runClient], the server's [main] and the start of [runServer]
    ([server_core.cpp]) up to their loops: the check of the program's own
    signature, the command line over the configuration file, and the
    conditions under which each refuses to run. Files are a map of names to
    contents; the results of calls to OpenSSL and the system are arguments.
    The Linux branch is modelled, logging is not. *)

From S2P Require Import Prelude CppString Wire Health HttpUtil Trust Upgrade Auth TrafficStats Registry IpRange FlowAggregator WebAuthn WebGate SiwaStore Siwa Hidden RemoteLogs Updater Config Sniffer.
From coqutil Require Import Datatypes.RecordSetters.
Import OCamlLikeNotations.
Local Open Scope Z_scope.

(** ** The client's command line *)

Module ClientMain.
Import ClientConf.

(** A flag with its value: [None] when the flag takes no value, [Some None]
    when the value is refused. *)
(* client_main.cpp:139-220 main, flags with a value *)
Definition value_flag (flag v : str) (opts : ClientConfig) : option (option ClientConfig) :=
  let number lo hi (set : Z -> ClientConfig) :=
    match stoul v with Some n => if (n <? lo) || (hi <? n) then None else Some (set n) | None => None end in
  if decide (flag = "--server") then Some (Some { opts with server := v })
  else if decide (flag = "--port") then Some (number 1 65535 (fun p => { opts with port := p }))
  else if decide (flag = "--identity") then Some (Some { opts with ClientConf.identityPath := v })
  else if decide (flag = "--ca") then Some (Some { opts with tlsCaPath := v })
  else if decide (flag = "--server-cert") then Some (Some { opts with tlsServerCertPath := v })
  else if decide (flag = "--transport") then
    Some (if bool_decide (v ∈ ["websocket" : str; "ws" : str]) then Some { opts with transport := WebSocket }
          else if decide (v = "tcp") then Some { opts with transport := TcpTls } else None)
  else if decide (flag = "--reconnect-attempts") then Some (number 1 1000 (fun n => { opts with reconnectMaxAttempts := n }))
  else if decide (flag = "--reconnect-interval") then Some (number 1 3600 (fun n => { opts with reconnectIntervalSec := n }))
  else if decide (flag = "--config") then Some (Some opts)
  else None.

(** A flag without a value: daemon mode and the options. Others are ignored. *)
Definition plain_flag (flag : str) (st : bool * ClientConfig) : bool * ClientConfig :=
  if decide (flag = "--daemon") then (true, st.2)
  else if decide (flag = "--verbose") then (st.1, { st.2 with verbose := true })
  else if decide (flag = "--no-compress") then (st.1, { st.2 with useCompression := false })
  else st.

(** [None]: exit code 1. *)
(* client_main.cpp:127-221 main, second pass *)
Fixpoint cli_pass (args : list str) (st : bool * ClientConfig) : option (bool * ClientConfig) :=
  match args with
  | [] => Some st
  | arg :: rest =>
      match rest with
      | v :: rest' =>
          match value_flag arg v st.2 with
          | Some None => None
          | Some (Some opts) => cli_pass rest' (st.1, opts)
          | None => cli_pass rest (plain_flag arg st)
          end
      | [] => Some (plain_flag arg st)
      end
  end.

Definition is_help (arg : str) : bool := bool_decide (arg = "--help") || bool_decide (arg = "-h").

(** Exit code, or the options after the configuration files. *)
(* client_main.cpp:64-115 main, first pass *)
Fixpoint config_pass (files : gmap str str) (args : list str) (opts : ClientConfig) : Z + ClientConfig :=
  match args with
  | [] => inr opts
  | arg :: rest =>
      match rest with
      | v :: rest' =>
          if decide (arg = "--config") then
            match loadClientConfig (files !! v) opts with
            | None => inl 1
            | Some opts => config_pass files rest' opts
            end
          else if is_help arg then inl 0 else config_pass files rest opts
      | [] => if is_help arg then inl 0 else inr opts
      end
  end.

(** What [main] ends in: an exit code, or the client running with these
    options, the version floor for updates, and its sniffers. *)
Inductive Outcome := Exit (code : Z) | Running (daemon : bool) (cfg : ClientConfig) (floor : Z) (sniffers : gmap str Sniffer).

(** [devs]: the answer of [pcap_findalldevs]. *)
(* client_impl.cpp:1022-1151 runClient, start *)
Definition runClient (daemonMode : bool) (config : ClientConfig) (floor : Z) (devs : option (list Device)) : Outcome :=
  if bool_decide (tlsCaPath config = []) && bool_decide (tlsServerCertPath config = []) then Exit 1
  else match enumerateDesired devs with
       | None => Exit 1
       | Some desired => Running daemonMode config floor (syncSniffers desired ∅)
       end.

(* client_main.cpp:20-299 main *)
Definition main `{Crypto} (productionRoots : RootSet) (files : gmap str str) (selfPath : str) (args : list str) (devs : option (list Device)) : Outcome :=
  let sigPath := selfPath ++ ".sig" in
  if decide (selfPath = []) then Exit 1
  else match verifyArtifactFiles productionRoots files selfPath sigPath kClientPlatform startupPolicy with
  | Err _ => Exit 1
  | Ok selfTrust =>
      match config_pass files args default_config with
      | inl code => Exit code
      | inr opts =>
          match cli_pass args (false, opts) with
          | None => Exit 1
          | Some (daemonMode, opts) =>
              runClient daemonMode { opts with is_daemon := daemonMode } (delegationVersion selfTrust) devs
          end
      end
  end.
(** ** Lemmas *)

Lemma value_flag_ok flag v opts opts' : config_ok opts -> value_flag flag v opts = Some (Some opts') -> config_ok opts'.
Proof.
  intros Hc. unfold value_flag. repeat case_decide; try done; try (intros [= <-]; destruct Hc; by split);
    (destruct (stoul v) as [n |]; [| done]; destruct (_ || _) eqn:E; [done |]; bool_to_prop; intros [= <-]; destruct Hc; split; cbn; try done; lia)
    || (repeat case_match; try done; intros [= <-]; destruct Hc; by split).
Qed.

Lemma plain_flag_ok flag st : config_ok st.2 -> config_ok (plain_flag flag st).2.
Proof. intros Hc. unfold plain_flag. repeat case_decide; try done; destruct Hc; by split. Qed.

Lemma cli_pass_ok args : forall st st', config_ok st.2 -> cli_pass args st = Some st' -> config_ok st'.2.
Proof.
  assert (G : forall n args st st', (length args <= n)%nat -> config_ok st.2 -> cli_pass args st = Some st' -> config_ok st'.2).
  { induction n as [| n IH]; intros l st st' Hn Hc; (destruct l as [| arg rest]; [by intros [= <-] |]); cbn [length] in Hn; [lia |].
    cbn [cli_pass]. destruct rest as [| v rest']; [intros [= <-]; by apply plain_flag_ok |].
    destruct (value_flag arg v st.2) as [[opts |] |] eqn:E; [| done |].
    - apply IH; [cbn in Hn; lia |]. by eapply value_flag_ok.
    - apply IH; [lia |]. by apply plain_flag_ok. }
  intros st st'. by apply (G (length args)).
Qed.

Lemma config_pass_ok files args : forall opts opts', config_ok opts -> config_pass files args opts = inr opts' -> config_ok opts'.
Proof.
  assert (G : forall n args opts opts', (length args <= n)%nat -> config_ok opts -> config_pass files args opts = inr opts' -> config_ok opts').
  { induction n as [| n IH]; intros l opts opts' Hn Hc; (destruct l as [| arg rest]; [by intros [= <-] |]); cbn [length] in Hn; [lia |].
    cbn [config_pass]. destruct rest as [| v rest']; [destruct (is_help arg); [done | by intros [= <-]] |].
    case_decide; [| destruct (is_help arg); [done |]; by apply IH; [lia |]].
    destruct (loadClientConfig _ opts) as [o |] eqn:E; [| done]. apply IH; [cbn in Hn; lia |]. by eapply load_ok. }
  intros opts opts'. by apply (G (length args)).
Qed.

(** C19: the client runs only as a verified program, with a way to authenticate
    its server, with every setting of the file and of the command line in its
    range, and with one sniffer for each usable device; the version floor of
    its updates is that of its own delegation. *)
Theorem client_starts_checked `{Crypto} (productionRoots : RootSet) (files : gmap str str) (selfPath : str) (args : list str) (devs : option (list Device))
    (daemon : bool) (cfg : ClientConfig) (floor : Z) (sniffers : gmap str Sniffer) :
  main productionRoots files selfPath args devs = Running daemon cfg floor sniffers ->
  (exists v, verifyArtifactFiles productionRoots files selfPath (selfPath ++ ".sig") kClientPlatform startupPolicy = Ok v /\ floor = delegationVersion v) /\
  (tlsCaPath cfg <> [] \/ tlsServerCertPath cfg <> []) /\
  config_ok cfg /\
  (aggMinIntervalMs cfg <= aggMaxIntervalMs cfg ->
     AdaptiveInterval.valid_config (AdaptiveInterval.mkConfig (aggTargetLinesPerSec cfg) (aggMinIntervalMs cfg) (aggMaxIntervalMs cfg))) /\
  (exists l, devs = Some l /\ forall name, is_Some (sniffers !! name) <-> exists d, d ∈ l /\ d_name d = Some name /\ eligible d = true).
Proof.
  unfold main. case_decide; [done |]. destruct (verifyArtifactFiles _ _ _ _ _ _) as [v | m]; [| done].
  destruct (config_pass files args default_config) as [c | opts] eqn:Ec; [done |]. apply config_pass_ok in Ec; [| exact default_ok].
  destruct (cli_pass args (false, opts)) as [[d o] |] eqn:Ep; [| done]. apply cli_pass_ok in Ep; [| exact Ec]. cbn [snd] in Ep.
  unfold runClient. destruct (_ && _) eqn:Et; [done |]. destruct devs as [l |]; [| done]. cbn [enumerateDesired fmap option_fmap option_map].
  intros [= <- <- <- <-]. split; [by exists v |]. split.
  { apply andb_false_iff in Et as [Et | Et]; [left | right]; by apply bool_decide_eq_false in Et. }
  assert (Hc : config_ok { o with is_daemon := d }) by (destruct Ep; by split). split; [exact Hc |]. split.
  - intros Hm. destruct Hc. unfold AdaptiveInterval.valid_config. cbn in *. lia.
  - exists l. split; [done |]. intros name. by rewrite sync_empty, enumerated.
Qed.
End ClientMain.

(** ** The server *)

(* trust.hpp:62-62 kServerPlatform *)
Definition kServerPlatform : str := "linux-amd64".

Module ServerMain.
Import ServerConf.

(** [std::stol] on an LP64 platform, with the number of characters used. *)
Definition stol (s : str) : option (Z * nat) :=
  match strto_scan s with
  | None => None
  | Some (neg, ds, n) =>
      let v := if neg : bool then - dec_val 0 ds else dec_val 0 ds in
      if (v <? - 2 ^ 63) || (2 ^ 63 - 1 <? v) then None else Some (v, n)
  end.

(* server_core.cpp:3195-3212 parsePortArg *)
Definition parsePortArg (valStr : str) : option Z :=
  match stol valStr with
  | Some (n, consumed) => if negb (consumed =? length valStr)%nat || (n <? 1) || (65535 <? n) then None else Some n
  | None => None
  end.

(* server_core.cpp:3233-3242 main, signature file *)
Fixpoint signature_arg (args : list str) : str :=
  match args with
  | [] => []
  | arg :: rest => match rest with v :: _ => if decide (arg = "--signature-file") then v else signature_arg rest | [] => [] end
  end.

(** Exit code, or the path of the configuration file. *)
(* server_core.cpp:3275-3305 main, first pass *)
Fixpoint config_arg (args : list str) : Z + str :=
  match args with
  | [] => inr []
  | arg :: rest =>
      let help := bool_decide (arg = "--help") || bool_decide (arg = "-h") in
      match rest with
      | v :: _ => if decide (arg = "--config") then inr v else if help then inl 0 else config_arg rest
      | [] => if help then inl 0 else inr []
      end
  end.

(** What the command line may override. *)
Record Options := mkOptions { o_daemon : bool; o_verbose : bool; o_port : Z; o_allowed : str; o_cert : str; o_key : str }.

(* server_core.cpp:3336-3359 main, flags with a value *)
Definition value_flag (flag v : str) (o : Options) : option (option Options) :=
  if decide (flag = "--port") then Some (match parsePortArg v with Some p => Some { o with o_port := p } | None => None end)
  else if decide (flag = "--allowed-keys") then Some (Some { o with o_allowed := v })
  else if decide (flag = "--cert") then Some (Some { o with o_cert := v })
  else if decide (flag = "--key") then Some (Some { o with o_key := v })
  else if bool_decide (flag ∈ ["--web-port" : str; "--web-bind" : str; "--config" : str; "--signature-file" : str]) then Some (Some o)
  else None.

(** [None]: an argument the server does not know. *)
Definition plain_flag (flag : str) (o : Options) : option Options :=
  if decide (flag = "--daemon") then Some { o with o_daemon := true }
  else if decide (flag = "--verbose") then Some { o with o_verbose := true }
  else if bool_decide (flag = "--help") || bool_decide (flag = "-h") then Some o
  else None.

(** [None]: exit code 1. *)
(* server_core.cpp:3329-3367 main, second pass *)
Fixpoint cli_pass (args : list str) (o : Options) : option Options :=
  match args with
  | [] => Some o
  | arg :: rest =>
      match plain_flag arg o with
      | Some o => cli_pass rest o
      | None =>
          match rest with
          | v :: rest' => match value_flag arg v o with Some (Some o) => cli_pass rest' o | _ => None end
          | [] => None
          end
      end
  end.

(** ** The start of [runServer] *)

(* server_core.cpp:2516-2526 runServer, origins *)
Definition split_origins (text : str) : list str :=
  filter (fun t : str => t <> []) ((fun t => trim_back (char_in [SP]) (trim_front (char_in [SP]) t)) <$> split_char "," text).

(* server_core.cpp:2504-2530 runServer, WebAuthn *)
Definition webauthn_config (config : ServerConfig) : option WebAuthnConfig :=
  if decide (webauthn_rp_id config = []) then None
  else Some (mkConfig (webauthn_rp_id config) (if decide (webauthn_rp_name config = []) then webauthn_rp_id config else webauthn_rp_name config)
    (webauthn_credentials_file config) (webauthn_ios_app_id config) (split_origins (webauthn_allowed_origins config))
    (webauthn_session_ttl_hours config) (webauthn_idle_timeout_minutes config)).

(* server_core.cpp:2533-2582 runServer, Sign in with Apple *)
Definition siwa_config (files : gmap str str) (config : ServerConfig) : option SiwaConfig :=
  if decide (siwa_service_id config = []) then None
  else if decide (siwa_redirect_uri config = []) then None
  else if bool_decide (siwa_admins config = []) && bool_decide (siwa_admin_file config = []) && bool_decide (siwa_admin_subs config = []) then None
  else Some (mkSiwaConfig (siwa_service_id config) (siwa_ios_bundle_id config) (siwa_redirect_uri config) (siwa_admin_file config)
    (if decide (siwa_domain_assoc_file config = []) then [] else default [] (files !! siwa_domain_assoc_file config))).

(* server_core.cpp:2590-2593 runServer, stats *)
Definition stats_config (config : ServerConfig) : TSConfig :=
  make_config (Z.to_nat (aggregation_window_days config)) (Z.to_nat (max_flow_entries_per_key config))
    (Z.to_nat (max_entity_flow_entries_per_key config)) (Z.to_nat (max_ifaces_per_client config)).

(** The addresses of the server's own interfaces, as [inet_ntop] prints them. *)
(* server_core.cpp:2717-2722 runServer, own addresses *)
Definition own_address (printed : str) : option str :=
  let ip := match find_char "%" printed with Some pct => take pct printed | None => printed end in
  if bool_decide (ip = "127.0.0.1") || bool_decide (ip = "::1") then None
  else if (4 <=? length ip)%nat && bool_decide (take 4 ip = "fe80") then None
  else if decide (ip = []) then None else Some ip.

(* server_core.cpp:2695-2747 runServer, server addresses *)
Definition server_ip_set `{Inet} (printed : list str) (now : Z) (resolver : option Resolver) : MonitoringIpSet.t :=
  let ips := foldl (fun m ip => MonitoringIpSet.add m ip now) ∅ (omap own_address printed) in
  match resolver with
  | None => ips
  | Some R =>
      foldl (fun m e =>
        if isLanIP (e.1) then m
        else let entity := entityFor R e.1 in
             if isUnknownEntity entity then m else MonitoringIpSet.add m entity now) ips (MonitoringIpSet.snapshot ips)
  end.

(** The server as it enters its accept loop. *)
Record Server := mkServer {
  sv_port : Z;
  sv_config : ServerConfig;
  sv_floor : Z;
  sv_clients : AllowedClientsStore;
  sv_hidden : HiddenEntities.t;
  sv_webauthn : option WebAuthnConfig;
  sv_siwa : option SiwaConfig;
  sv_stats : TrafficStats;
  sv_server_ips : MonitoringIpSet.t
}.

Inductive Outcome := Exit (code : Z) | Serving (s : Server).

(** What the system answers: whether the certificate and key load, whether the
    port opens, the table of networks, the interfaces, the clock. *)
Record System := mkSystem { tls_loads : str -> str -> bool; listens : str -> Z -> bool; ip_table : option Resolver; interfaces : list str; clock : Z }.

(* server_core.cpp:2414-2671 runServer, start *)
Definition runServer `{Inet} (files : gmap str str) (sys : System) (floor port : Z) (allowedKeysPath certPath keyPath : str) (config : ServerConfig) : Outcome :=
  if bool_decide (certPath = []) || bool_decide (keyPath = []) then Exit 1
  else if negb (tls_loads sys certPath keyPath) then Exit 1
  else
    let hiddenStore := loadHiddenEntities (hidden_entities_file config) (files !! hidden_entities_file config) in
    let clientsStore := loadAllowedKeys (files !! allowedKeysPath) in
    if decide (allowedKeysPath = []) then Exit 1
    else if decide (keys clientsStore = ∅) then Exit 1
    else if negb (bool_decide (trusted_proxy config = [])) && isTrustedProxyCatchAll (trusted_proxy config) then Exit 1
    else if negb (listens sys (client_bind config) port) then Exit 1
    else Serving (mkServer port config floor clientsStore hiddenStore (webauthn_config config) (siwa_config files config)
           (new_ts (stats_config config)) (server_ip_set (interfaces sys) (clock sys) (ip_table sys))).

(* server_core.cpp:3214-3371 main *)
Definition main `{Crypto} `{Inet} (productionRoots : RootSet) (files : gmap str str) (sys : System) (binaryPath : str) (args : list str) : Outcome :=
  let sig := signature_arg args in
  let sigPath := if decide (sig = []) then binaryPath ++ ".sig" else sig in
  match verifyArtifactFiles productionRoots files binaryPath sigPath kServerPlatform startupPolicy with
  | Err _ => Exit 1
  | Ok selfTrust =>
      match config_arg args with
      | inl code => Exit code
      | inr configPath =>
          let '(config, configOk, _) := loadServerConfig configPath (files !! configPath) in
          if negb (bool_decide (configPath = [])) && negb configOk then Exit 1
          else
            match cli_pass args (mkOptions false (verbose config) (port config) (allowed_keys config) (cert config) (key config)) with
            | None => Exit 1
            | Some o => runServer files sys (delegationVersion selfTrust) (o_port o) (o_allowed o) (o_cert o) (o_key o) config
            end
      end
  end.
(** ** Lemmas *)

Lemma parsePortArg_range v p : parsePortArg v = Some p -> 1 <= p <= 65535.
Proof.
  unfold parsePortArg. destruct (stol v) as [[n c] |]; [| done]. destruct (_ || _) eqn:E; [done |]. intros [= <-]. bool_to_prop. lia.
Qed.

Definition port_in_range (o : Options) : Prop := 1 <= o_port o <= 65535.

Lemma plain_flag_port flag o o' : port_in_range o -> plain_flag flag o = Some o' -> port_in_range o'.
Proof. intros H. unfold plain_flag. repeat case_match; intros E; inversion E; subst; exact H. Qed.

Lemma value_flag_port flag v o o' : port_in_range o -> value_flag flag v o = Some (Some o') -> port_in_range o'.
Proof.
  intros H. unfold value_flag. case_decide; [destruct (parsePortArg v) as [p |] eqn:E; [| done]; intros [= <-]; exact (parsePortArg_range v p E) |].
  repeat case_match; intros E; inversion E; subst; exact H.
Qed.

Lemma cli_pass_port args : forall o o', port_in_range o -> cli_pass args o = Some o' -> port_in_range o'.
Proof.
  assert (G : forall n args o o', (length args <= n)%nat -> port_in_range o -> cli_pass args o = Some o' -> port_in_range o').
  { induction n as [| n IH]; intros l o o' Hn Hp; (destruct l as [| arg rest]; [by intros [= <-] |]); cbn [length] in Hn; [lia |].
    cbn [cli_pass]. destruct (plain_flag arg o) as [o1 |] eqn:E; [apply IH; [lia | by eapply plain_flag_port] |].
    destruct rest as [| v rest']; [done |]. destruct (value_flag arg v o) as [[o1 |] |] eqn:E1; [| done | done].
    apply IH; [cbn in Hn; lia | by eapply value_flag_port]. }
  intros o o'. by apply (G (length args)).
Qed.

Lemma make_config_ok a b c d : TrafficStats.config_ok (make_config a b c d).
Proof. unfold TrafficStats.config_ok, make_config. cbn. repeat case_match; bool_to_prop; lia. Qed.

(** C18: the server runs only as a verified program, behind TLS with its
    certificate loaded, with at least one client key, without a proxy setting
    that would trust every peer, on a valid port that it could open, and with
    every setting in its range and an empty store within its caps; whatever
    else the command line, the files and the system say, it exits. *)
Theorem server_starts_closed `{Crypto} `{Inet} (productionRoots : RootSet) (files : gmap str str) (sys : System) (binaryPath : str) (args : list str) (s : Server) :
  main productionRoots files sys binaryPath args = Serving s ->
  (exists sigPath v, (sigPath = binaryPath ++ ".sig" \/ sigPath = signature_arg args) /\
     verifyArtifactFiles productionRoots files binaryPath sigPath kServerPlatform startupPolicy = Ok v /\ sv_floor s = delegationVersion v) /\
  (exists certPath keyPath, certPath <> [] /\ keyPath <> [] /\ tls_loads sys certPath keyPath = true) /\
  (exists path, path <> [] /\ sv_clients s = loadAllowedKeys (files !! path) /\ keys (sv_clients s) <> ∅) /\
  isTrustedProxyCatchAll (trusted_proxy (sv_config s)) = false /\
  1 <= sv_port s <= 65535 /\ listens sys (client_bind (sv_config s)) (sv_port s) = true /\
  config_ok (sv_config s) /\ TrafficStats.config_ok (ts_config (sv_stats s)) /\ Forall (fun sh => sh = empty_shard) (shards_ (sv_stats s)).
Proof.
  unfold main. set (sigPath := if decide _ then _ else _).
  assert (Hs : sigPath = binaryPath ++ ".sig" \/ sigPath = signature_arg args) by (subst sigPath; case_decide; [by left | by right]).
  clearbody sigPath. destruct (verifyArtifactFiles _ _ _ _ _ _) as [v | m] eqn:Ev; [| done].
  destruct (config_arg args) as [c | path]; [done |]. pose proof (server_load_ok path (files !! path)) as Hc.
  destruct (loadServerConfig _ _) as [[config ok] n]. cbn [fst] in Hc. destruct (_ && _); [done |].
  destruct (cli_pass args _) as [o |] eqn:Eo; [| done]. apply cli_pass_port in Eo; [| exact (port_ok _ Hc)].
  unfold runServer. destruct (_ || _) eqn:Et; [done |]. apply orb_false_iff in Et as [Et1%bool_decide_eq_false Et2%bool_decide_eq_false].
  destruct (tls_loads sys (o_cert o) (o_key o)) eqn:El; [| done]. cbn [negb]. case_decide as Ha; [done |]. case_decide as Hk; [done |].
  destruct (_ && isTrustedProxyCatchAll _) eqn:Ep; [done |]. destruct (listens sys _ _) eqn:Eli; [| done]. cbn [negb]. intros [= <-]. cbn [sv_floor sv_clients sv_config sv_port sv_stats].
  split; [by exists sigPath, v |]. split; [by exists (o_cert o), (o_key o) |]. split; [by exists (o_allowed o) |]. split.
  { apply andb_false_iff in Ep as [Ep | Ep]; [| done]. apply negb_false_iff, bool_decide_eq_true in Ep. by rewrite Ep. }
  split; [exact Eo |]. split; [done |]. split; [done |]. split; [apply make_config_ok |].
  unfold new_ts. cbn [shards_]. by apply Forall_replicate.
Qed.
End ServerMain.

(** ** Samples *)

#[local] Instance sample_inet_none : Inet := { inet_pton4 _ := None; inet_pton6 _ := None }.

#[local] Abbreviation sample_files :=
  (list_to_map [("/opt/ntm" : str, "bin" : str); ("/opt/ntm.sig" : str, sample_sig); ("keys" : str, repeat "a"%char 64); ("conf" : str, "ca=/etc/ca.pem" : str)] : gmap str str).

#[local] Abbreviation sample_client_run :=
  (ClientMain.main sample_roots sample_files "/opt/ntm" ["--config" : str; "conf" : str; "--port" : str; "6000" : str] (Some [mkDevice (Some ("eth0" : str)) false true None])).

Lemma sample_client_runs :
  match sample_client_run with ClientMain.Running _ cfg _ sn => (ClientConf.port cfg =? 6000) && bool_decide (size sn = 1%nat) | _ => false end = true.
Proof. vm_compute. reflexivity. Qed.

Lemma client_starts_checked_witness :
  exists cfg floor sn, sample_client_run = ClientMain.Running false cfg floor sn /\ ClientConf.config_ok cfg.
Proof.
  pose proof sample_client_runs as Hr. destruct sample_client_run as [c | d cfg floor sn] eqn:E; [discriminate Hr |].
  pose proof (ClientMain.client_starts_checked sample_roots sample_files "/opt/ntm" _ _ d cfg floor sn E) as (_ & _ & Hc & _).
  assert (Hd : d = false) by (apply (f_equal (fun o => match o with ClientMain.Running d _ _ _ => d | _ => false end)) in E; vm_compute in E; by symmetry).
  exists cfg, floor, sn. split; [by rewrite Hd | exact Hc].
Defined.

#[local] Abbreviation sample_system := (ServerMain.mkSystem (fun _ _ => true) (fun _ _ => true) None ["192.0.2.1" : str; "fe80::1%eth0" : str] 0).

#[local] Abbreviation sample_server_run :=
  (ServerMain.main sample_roots sample_files sample_system "/opt/ntm" ["--cert" : str; "c.pem" : str; "--key" : str; "k.pem" : str; "--allowed-keys" : str; "keys" : str]).

Lemma sample_server_runs :
  match sample_server_run with ServerMain.Serving s => ServerMain.sv_port s =? 5555 | _ => false end = true.
Proof. vm_compute. reflexivity. Qed.

Lemma server_starts_closed_witness : exists s, sample_server_run = ServerMain.Serving s /\ keys (ServerMain.sv_clients s) <> ∅.
Proof.
  pose proof sample_server_runs as Hr. destruct sample_server_run as [c | s] eqn:E; [discriminate Hr |].
  destruct (ServerMain.server_starts_closed sample_roots sample_files sample_system "/opt/ntm" _ s E) as (_ & _ & (p & _ & _ & Hk) & _).
  exists s. by split.
Defined.
